(* ===== verification/_CoqProject ===== *)
-Q . S2P
Prelude.v
GoStd.v
Ssrf.v
SsrfProofs.v
StatusCodes.v
GoFloat.v
QuotaMath.v
ApiError.v
PriceData.v
RatioSetting.v
ToolPrices.v
BillingExpr.v
Usage.v
World.v
AdvancedCustom.v
Sample.v
ModelUtils.v
UserModel.v
TokenModel.v
BatchUpdate.v
SubscriptionTime.v
Subscription.v
ChannelModel.v
Ability.v
ChannelCache.v
ChannelAdmin.v
RoutingProofs.v
RoutingSync.v
ChannelAdminProofs.v
KeyProofs.v
RoutingSamples.v
ChannelHealth.v
HealthProofs.v
ChannelSelect.v
SelectProofs.v
Distributor.v
Redemption.v
Checkin.v
TaskModel.v
SubscriptionProofs.v
SubscriptionOrder.v
TopUp.v
SubscriptionOrderProofs.v
TopUpProofs.v
Funding.v
TaskBilling.v
TaskPolling.v
TaskProofs.v
TaskMoney.v
BillingSession.v
BillingProofs.v
Pricing.v
RelayLoop.v
ErrorProofs.v
RelayProofs.v
RelayMoney.v
PricingProofs.v
TextQuota.v
TaskSubmit.v
TextQuotaProofs.v
TextBillingProofs.v
TaskSubmitProofs.v
RelaySamples.v
SystemTask.v
SystemRunner.v
SystemTaskProofs.v
SystemTaskRecovery.v
LogCleanup.v
RateLimit.v
RateLimitProofs.v
AuthModel.v
Auth.v
AuthProofs.v
SessionProofs.v
AccessToken.v
Authz.v
AuthzProofs.v
TwoFactor.v
TwoFactorProofs.v
Accounts.v
