(* ===== verification/Prelude.v ===== *)
(** * The billing and routing core of the new-api gateway

    new-api relays requests of many users to upstream model providers and bills
    them.  This library models two parts of it and the
    background jobs around them.  The first decides who pays how much:
    quota arithmetic, wallets and API tokens, subscriptions, billing sessions,
    prices, the charge of a finished request, asynchronous tasks, and the ways money
    comes in (orders, codes, check-ins).  The second decides which upstream account
    (channel) and which of its keys serve a request.  All paths are under src/.

    ** The program and where it is modelled

    A request is authenticated by its token, gets a channel of its group and model,
    is priced, pre-consumed from a funding source, sent to channels until one answers,
    and settled (or refunded) with what the upstream reported.

    - [GoStd], [GoFloat]: the Go strings, calendar and float64
      operations the code uses.  float64 is the IEEE binary64 of SpecFloat.
    - [QuotaMath]: common/quota_math.go.  shopspring decimals are the class
      [Decimal] with the laws [DecimalLaws]; the rationals are an instance.
    - [World]: one process with its database, Redis, in-process stores, clock
      and queue of goroutines.  A Go function that returns an error and touches
      this state is a value of [MW A], a state-and-error monad ([Prelude.M]):
      the state survives an error, only [Transaction] rolls back.  Every call of
      the database or Redis consumes one entry of [w_faults]; [Some e] makes it
      fail with [e], so a theorem for all worlds covers all failures.  Writes of
      a transaction go to [w_log] and reach the tables at commit.
    - [ModelUtils], [UserModel], [TokenModel], [BatchUpdate]: model/utils.go,
      user.go, user_cache.go, token.go, token_cache.go and the Redis helpers of
      common/redis.go.  A balance ([wallet], [token_remain]) is the column plus
      the pending batched delta.
    - [SubscriptionTime], [Subscription], [SubscriptionOrder]:
      model/subscription.go.
    - [Funding]: service/funding_source.go.  The interface is the class
      [Funding] and its contract [FundingLaws]; wallet and subscription are
      instances.
    - [ApiError], [BillingSession]: types/error.go, service/billing.go,
      service/billing_session.go, service/violation_fee.go.  [Ctx] holds the world, the relay info and the
      request's session.
    - [Usage]: the usage types of dto/ and service/billing_usage.go.
    - [PriceData], [RatioSetting], [ToolPrices], [BillingExpr]: types/price_data.go,
      setting/ratio_setting, setting/billing_setting,
      setting/operation_setting/tools.go and pkg/billingexpr.
    - [Pricing]: relay/helper/price.go and billing_expr_request.go.
    - [TextQuota]: service/text_quota.go and tiered_settle.go.
    - [TopUp]: model/topup.go.  The completion paths of paid orders.
    - [Redemption], [Checkin]: model/redemption.go and model/checkin.go.
    - [TaskModel], [TaskBilling], [TaskPolling]: model/task.go,
      service/task_billing.go and service/task_polling.go.  A provider adaptor is
      the record [TaskPollingAdaptor] of its answers.
    - [TaskSubmit]: relay/relay_task.go, [RelayTask] of controller/relay.go.  What
      an attempt finds (channel, adaptor, disconnects) is the record [Attempt];
      the retry loop runs over a list of attempts.
    - [TaskProofs], [TaskMoney]: the interleaving of pollers and the money of a
      task; [TextBillingProofs]: a whole text request.
    - [ChannelModel], [ChannelAdmin]: model/channel.go.  A pointer to a Channel is a
      location of the heap [rt_heap], because the cache hands its objects out and
      their holders write to them.
    - [Ability]: model/ability.go, the table of group, model and channel that routing
      reads.  [ChannelCache]: model/channel_cache.go and the choice of a key.
    - [AdvancedCustom]: the routes of dto/channel_settings.go.  [StatusCodes]:
      setting/operation_setting/status_code_ranges.go.
    - [RoutingProofs], [RoutingSync], [KeyProofs], [ChannelAdminProofs]: the choice of
      a channel, its agreement with the database, the rotation of keys, and the
      invariant between channels and abilities; [RoutingSamples]: concrete channels.
    - [ChannelHealth]: service/channel_health.go and channel_rate_limit.go.  The Lua
      scripts of the Redis limiter are operations on sorted sets, of which only the
      scores matter.
    - [ChannelSelect]: service/group.go, channel_select.go and the setup of the gin
      context for a channel; the gin keys are the records [SelectKeys] and
      [ChannelKeys].  [Distributor]: middleware/distributor.go, channel_satisfy.go.
    - [RelayLoop]: service/channel.go and [Relay] of controller/relay.go.  What the client, the upstream and the random
      numbers do in an attempt is the record [Turn]; the loop runs over a function
      from attempt numbers to turns.
    - [HealthProofs], [SelectProofs], [ErrorProofs], [RelayProofs], [RelayMoney]: the
      limiter and the rests of a channel, the search over groups, the errors, the
      bound on the attempts and the money of a failed request; [RelaySamples]: concrete
      requests.
    - [SystemTask], [SystemRunner]: model/system_task.go, service/system_task.go and the
      deletion in model/log.go.  Several nodes share these tables, so an operation is a
      program ([prog]) of database statements and [history] interleaves the statements
      of any number of requests; one statement is atomic and may fail.
      [SystemTaskProofs], [SystemTaskRecovery], [LogCleanup] hold
      their theorems, [LogCleanup] also concrete histories.
    - [RateLimit]: common/rate-limit.go, common/limiter with its Lua script,
      setting/rate_limit.go, middleware/rate-limit.go and model-rate-limit.go.  The
      handlers behind a limiter are the argument [next].  [RateLimitProofs] compares
      the limiters with a reference that remembers everything and shows what they do
      not do.
    - [Ssrf]: Go's net addresses, common/ssrf_protection.go, common/ip.go and
      service/protected_fetch_client.go.  url.Parse, strings.ToLower, the resolver and
      the dial are parameters; the error texts leave out the printed addresses.
      [SsrfProofs]: what is dialed, and what slips through.
    - [AuthModel], [Auth], [AccessToken]: model/user_session.go, model/token_expiry.go,
      middleware/auth.go, the handlers of controller/user_sessions.go and
      token_management.go.  The keys of the gin context are a map; SHA-256 and the random
      key are parameters; the audit of administrator writes is left out.  [AuthProofs],
      [SessionProofs] and [AccessToken] hold their theorems, [AccessToken] also concrete
      requests.
    - [Authz]: service/authz, model/casbin_rule.go, model/authz_role.go, RequirePermission
      of middleware/auth.go and updateAdminPermissionsForUserInTx of controller/user.go.
      The library casbin is the class [SyncedEnforcer] with its documented laws
      [EnforcerLaws]; the table of rules is shared, each node decides by the snapshot of
      its enforcer.  [AuthzProofs]: its theorems, and a list of policies that satisfies
      the laws.
    - [TwoFactor]: model/twofa.go, common/totp.go, controller/twofa.go, again programs of
      statements on two tables; the TOTP algorithm, bcrypt and the random codes are
      parameters.  [TwoFactorProofs]: the interleavings, the lock, and what slips through.
    - [Accounts]: of model/user.go and controller/user.go the registration, the addresses,
      the transfer of rewards, deletion and what administrators do to users.  ManageUser
      and UpdateUser work on the tables of users and of permissions ([AW]).
    - [Sample] holds concrete rows and worlds for the witnesses; each file ending
      in [Proofs] holds the facts about the file it is named after.

    ** What the theorems show

    - Amounts: conversions to quota stay in the int32 range, round as intended
      and report every clamp; the strict ones refuse instead.
    - Sessions: what a wallet or a subscription pays in the end is exactly the
      actual quota, whatever failed in between; refunds restore, happen at most
      once, never after a settlement; a strict plan never spills to the wallet.
    - Subscriptions: pre-consume is atomic, idempotent per request id and
      succeeds whenever some subscription has room; used never leaves
      [0, total] in any reachable state; orders complete once; purchases are
      atomic; the reset loop terminates.
    - Tokens and batches: remaining plus used quota is conserved; a flush without
      failures loses nothing.
    - Prices: the pre-consumed quota is in range, the expression cache is
      transparent, map order does not matter for decimals, tool prices follow
      the longest prefix.
    - Charges: the quota of a text request is the stated rational formula,
      rounded and clamped, with its bounds and its monotonicity.
    - Credits: a paid order, a redemption code and a check-in are credited once,
      in any interleaving and with any failures, and balances grow by exactly
      what was credited.
    - Tasks: whatever pollers and sweeps interleave, a task is billed at its end
      at most once; from submission to the last poll it costs exactly its final
      quota.
    - Routing: the abilities table is exactly what the channels call for after any
      administration, the cache draws from the same channels as the database, every
      channel is drawn as often as its weight says, keys rotate fairly, validated
      routes serve the models they list, status rules mean their text.
    - Relaying: a channel rests after three failures in a row, the limiter keeps its
      bound in every minute, in Redis as in memory; the search takes the first group
      that can serve; the distributor hands on only channels the token may use; the
      retry loop ends, and a request that failed costs nothing.
    - System tasks: in every interleaving of nodes a type has one active task, a valid
      lease protects its holder, a task is handed out once; an expired lease is
      recovered; the log cleanup ends and deletes exactly the old rows.
    - Request limits: the lists in memory and in Redis are exact sliding windows, the
      token bucket has its bound and refills.
    - Fetches: with the protection on, only permitted addresses are dialed, whatever the
      resolver answers; the private addresses are exactly the reserved blocks.
    - Authentication: a request passes with its token exactly when token, address, user
      and group allow it, and the distributor then stays within the token; the management
      interface asks for the role it names; a revoked session stays out in every history;
      an access token lives for ninety days or until it is revoked.
    - Permissions: a change by root commits as a whole or not at all; after a reload of
      any node exactly the decisions asked for have changed; the start of the master
      resets the baseline and keeps the overrides.
    - Second factor: in every interleaving a backup code is accepted once and a login has
      the evidence of a right code; one after another, failed logins meet the lock.
    - Accounts: a disabled user's tokens let nobody in; while the reads succeed,
      administrators disable lower roles only; rewards move to the wallet once; no two
      users come to share an address.
    - Some theorems exhibit defects: a refund credited twice, a flush that drops
      deltas, a reset loop that never ends, float products that depend on the
      map order, unreachable completion-ratio rules, over-credited manual orders,
      task refunds that are lost or doubled, quota kept when the client leaves before
      the first attempt, logins that the lock of the second factor misses, a limited or resting channel that fails a request others
      could serve.

    ** Bounds and fuel

    Three loops are not structural.  The reset catch-up runs on [Prelude.loop] with a
    fuel of [now + 1] iterations, and [catch_up_terminates] proves that it ends within
    it.  The log cleanup has fuel enough with the number of old rows plus 2
    ([log_cleanup_deletes]).  The retry loop of [Relay] runs on the fuel of
    [relay_attempts]; one more than [attempts_left] is enough ([relay_attempts_bounded]).
    Quotas are kept in the int32 range by the code that converts them; time.Duration
    wraps at 64 bits as in Go.  Other Go ints (token counts, sums of quotas) are
    unbounded integers here.

    ** What is not modelled

    Go map iteration order, sort.Slice on ties, random numbers, the expression engine,
    SHA-256, decimals, the price tables, JSON encodings, the masking of sensitive
    text, the printing of floats, regular expressions and the keyword search are
    parameters with the documented behaviour as laws.  The relay takes the validated
    request, its token estimate and the affinity cache as given.  Two goroutines of the process interleave only
    between the modelled operations, and queued closures run later in any
    order.  Provider adaptors and format conversion, HTTP handlers, the other
    middleware, passwords and external logins, payment gateways, logs, notifications and media processing are left
    out: they are I/O around this core. *)

From stdpp Require Export base gmap sets list strings sorting pretty.
From Stdlib Require Export ZArith Lia.

#[global] Open Scope Z_scope.

(** ** Go results and the state-and-error monad

    A Go function with results [(v, err)] that also mutates shared state
    becomes a function of type [M S E A]: it always returns the final state,
    and either a value or an error.  The state survives an error, as it does in
    Go (only a database transaction rolls anything back, see [World]). *)

Inductive result (E A : Type) : Type :=
| Ok (a : A)
| Err (e : E).
Arguments Ok {E A} a.
Arguments Err {E A} e.

Definition M (S E A : Type) : Type := S -> result E A * S.

#[global] Instance M_ret {S E} : MRet (M S E) := fun A a s => (Ok a, s).
#[global] Instance M_bind {S E} : MBind (M S E) := fun A B k m s =>
  match m s with
  | (Ok a, s') => k a s'
  | (Err e, s') => (Err e, s')
  end.

(** [return err] *)
Definition fail {S E A} (e : E) : M S E A := fun s => (Err e, s).
(** [v, err := m] with the error kept as a value, for code that inspects it. *)
Definition attempt {S E E' A} (m : M S E A) : M S E' (result E A) :=
  fun s => let '(r, s') := m s in (Ok r, s').
(** [_ = m] or an error that is only logged. *)
Definition ignore_err {S E E' A} (m : M S E A) : M S E' unit :=
  fun s => (Ok tt, (m s).2).
Definition gets {S E A} (f : S -> A) : M S E A := fun s => (Ok (f s), s).
Definition modify {S E} (f : S -> S) : M S E unit := fun s => (Ok tt, f s).
Definition of_result {S E A} (r : result E A) : M S E A := fun s => (r, s).
Definition map_err {S E E' A} (f : E -> E') (m : M S E A) : M S E' A :=
  fun s => match m s with
           | (Ok a, s') => (Ok a, s')
           | (Err e, s') => (Err (f e), s')
           end.
(** [if cond { return err }] *)
Definition guard_err {S E} (b : bool) (e : E) : M S E unit :=
  if b then fail e else mret tt.

(** [for _, x := range xs { body }] *)
Fixpoint forM_ {S E A} (xs : list A) (body : A -> M S E unit) : M S E unit :=
  match xs with
  | [] => mret tt
  | x :: xs' => body x ≫= fun _ => forM_ xs' body
  end.

Section run.
Context {S E : Type}.
Implicit Types s : S.

Lemma run_bind {A B} (m : M S E A) (k : A -> M S E B) s :
  (m ≫= k) s = match m s with (Ok a, s') => k a s' | (Err e, s') => (Err e, s') end.
Proof. reflexivity. Qed.
Lemma run_bind_ok {A B} (m : M S E A) (k : A -> M S E B) s a s' :
  m s = (Ok a, s') -> (m ≫= k) s = k a s'.
Proof. rewrite run_bind. by intros ->. Qed.
Lemma run_bind_err {A B} (m : M S E A) (k : A -> M S E B) s e s' :
  m s = (Err e, s') -> (m ≫= k) s = (Err e, s').
Proof. rewrite run_bind. by intros ->. Qed.
Lemma run_bind_inv {A B} (m : M S E A) (k : A -> M S E B) s b s' :
  (m ≫= k) s = (Ok b, s') -> exists a s1, m s = (Ok a, s1) /\ k a s1 = (Ok b, s').
Proof. rewrite run_bind. destruct (m s) as [[a|e] s1]; [eauto|discriminate]. Qed.
Lemma guard_err_inv (b : bool) (e : E) s x s' :
  guard_err b e s = (Ok x, s') -> b = false /\ s' = s.
Proof. unfold guard_err. destruct b; [discriminate|]. by intros [= _ ->]. Qed.
Lemma gets_inv {A} (f : S -> A) s a s' :
  (gets f : M S E A) s = (Ok a, s') -> a = f s /\ s' = s.
Proof. by intros [= -> ->]. Qed.
Lemma run_ret_inv {A} (a b : A) s s' : (mret a : M S E A) s = (Ok b, s') -> b = a /\ s' = s.
Proof. by intros [= -> ->]. Qed.
Lemma run_ret {A} (a : A) s : (mret a : M S E A) s = (Ok a, s).
Proof. reflexivity. Qed.

(** A step that preserves [I] whatever its outcome. *)
Definition preserves {A} (I : S -> Prop) (m : M S E A) : Prop :=
  forall s, I s -> I (m s).2.

Lemma preserves_ret {A} I (a : A) : preserves I (mret a : M S E A).
Proof. by intros s. Qed.
Lemma preserves_fail {A} I (e : E) : preserves I (fail e : M S E A).
Proof. by intros s. Qed.
Lemma preserves_gets {A} I (f : S -> A) : preserves I (gets f : M S E A).
Proof. by intros s. Qed.
Lemma preserves_of_result {A} I (r : result E A) : preserves I (of_result r : M S E A).
Proof. by intros s. Qed.
Lemma preserves_modify I (f : S -> S) :
  (forall s, I s -> I (f s)) -> preserves I (modify f : M S E unit).
Proof. intros H s Hs. by apply H. Qed.
Lemma preserves_bind {A B} I (m : M S E A) (k : A -> M S E B) :
  preserves I m -> (forall a, preserves I (k a)) -> preserves I (m ≫= k).
Proof.
  intros Hm Hk s Hs. rewrite run_bind. specialize (Hm s Hs).
  destruct (m s) as [[a|e] s']; simpl in *; [by apply Hk | done].
Qed.
Lemma preserves_guard I b (e : E) : preserves I (guard_err b e).
Proof. destruct b; [apply preserves_fail | apply preserves_ret]. Qed.
Lemma preserves_attempt {E' A} I (m : M S E' A) :
  (forall s, I s -> I (m s).2) -> preserves I (attempt m : M S E (result E' A)).
Proof. intros Hm s Hs. specialize (Hm s Hs). unfold attempt. by destruct (m s). Qed.
Lemma preserves_ignore {E' A} I (m : M S E' A) :
  (forall s, I s -> I (m s).2) -> preserves I (ignore_err m : M S E unit).
Proof. intros Hm s Hs. by apply Hm. Qed.
(** The same with a postcondition on the value a successful run returns. *)
Definition keeps {A} (I : S -> Prop) (Q : A -> Prop) (m : M S E A) : Prop :=
  forall s, I s -> I (m s).2 /\ match (m s).1 with Ok a => Q a | Err _ => True end.

Lemma keeps_ret {A} I (Q : A -> Prop) (a : A) : Q a -> keeps I Q (mret a : M S E A).
Proof. by intros H s. Qed.
Lemma keeps_bind {A B} I (Q : A -> Prop) (R : B -> Prop) (m : M S E A) (k : A -> M S E B) :
  keeps I Q m -> (forall a, Q a -> keeps I R (k a)) -> keeps I R (m ≫= k).
Proof.
  intros Hm Hk s Hs. rewrite run_bind. specialize (Hm s Hs).
  destruct (m s) as [[a|e] s']; simpl in *; destruct Hm; [by apply Hk | done].
Qed.
Lemma keeps_seq {A B} I (R : B -> Prop) (m : M S E A) (k : A -> M S E B) :
  preserves I m -> (forall a, keeps I R (k a)) -> keeps I R (m ≫= k).
Proof.
  intros Hm Hk. apply (keeps_bind I (fun _ => True)); [|auto].
  intros s Hs. specialize (Hm s Hs). by destruct (m s) as [[]].
Qed.
Lemma keeps_preserves {A} I (Q : A -> Prop) (m : M S E A) : keeps I Q m -> preserves I m.
Proof. intros H s Hs. by apply H. Qed.
Lemma preserves_keeps {A} I (m : M S E A) : preserves I m -> keeps I (fun _ => True) m.
Proof. intros H s Hs. split; [by apply H|]. by destruct (m s).1. Qed.
Lemma keeps_fail {A} I (Q : A -> Prop) (e : E) : keeps I Q (fail e : M S E A).
Proof. by intros s. Qed.
Lemma keeps_of_result {A} I (Q : A -> Prop) (r : result E A) :
  match r with Ok a => Q a | Err _ => True end -> keeps I Q (of_result r : M S E A).
Proof. by intros H s. Qed.
Lemma keeps_attempt {E' A} I (Q : A -> Prop) (m : M S E' A) :
  (forall s, I s -> I (m s).2 /\ match (m s).1 with Ok a => Q a | Err _ => True end) ->
  keeps I (fun r => match r with Ok a => Q a | Err _ => True end)
    (attempt m : M S E (result E' A)).
Proof.
  intros Hm s Hs. specialize (Hm s Hs). unfold attempt. by destruct (m s) as [[a|e] s'].
Qed.
Lemma keeps_map_err {E' A} I (Q : A -> Prop) (f : E' -> E) (m : M S E' A) :
  (forall s, I s -> I (m s).2 /\ match (m s).1 with Ok a => Q a | Err _ => True end) ->
  keeps I Q (map_err f m).
Proof.
  intros Hm s Hs. specialize (Hm s Hs). unfold map_err. by destruct (m s) as [[a|e] s'].
Qed.

Lemma preserves_forM {A} I (xs : list A) (body : A -> M S E unit) :
  (forall x, preserves I (body x)) -> preserves I (forM_ xs body).
Proof.
  intros Hb. induction xs as [|x xs IH]; [apply preserves_ret|].
  apply preserves_bind; auto.
Qed.

(** A loop whose body applies the function [f x] to the component [set]/[get]
    of the state, in states that satisfy [P]. *)
Lemma forM_run {A D} (P : S -> Prop) (get : S -> D) (set : D -> S -> S) (f : A -> D -> D)
    (xs : list A) (body : A -> M S E unit) s :
  (forall s, set (get s) s = s) -> (forall d d' s, set d (set d' s) = set d s) ->
  (forall d s, get (set d s) = d) -> (forall d s, P s -> P (set d s)) ->
  (forall x s, P s -> body x s = (Ok tt, set (f x (get s)) s)) ->
  P s -> forM_ xs body s = (Ok tt, set (fold_left (fun d x => f x d) xs (get s)) s).
Proof.
  intros Hgs Hss Hg HP Hb. revert s. induction xs as [|x xs IH]; intros s Hs; simpl.
  - unfold mret, M_ret. by rewrite Hgs.
  - rewrite run_bind, Hb by done. rewrite IH by auto. by rewrite Hg, Hss.
Qed.
End run.

Lemma preserves_attempt' {S E E' A} I (m : M S E' A) :
  preserves I m -> preserves I (attempt m : M S E (result E' A)).
Proof. apply preserves_attempt. Qed.
Lemma preserves_ignore' {S E E' A} I (m : M S E' A) :
  preserves I m -> preserves I (ignore_err m : M S E unit).
Proof. apply preserves_ignore. Qed.
Lemma preserves_map_err {S E E' A} I (f : E' -> E) (m : M S E' A) :
  preserves I m -> preserves I (map_err f m).
Proof. intros Hm s Hs. specialize (Hm s Hs). unfold map_err. by destruct (m s) as [[]]. Qed.

Create HintDb preserves.
#[export] Hint Resolve preserves_ret preserves_fail preserves_gets preserves_of_result
  preserves_guard preserves_modify preserves_bind preserves_attempt preserves_ignore
  preserves_forM
  : preserves.

(** ** Record update

    [r <| p := v |>] copies the record [r] with the field [p] replaced. *)

Class Settable (R : Type) := { rebuild : R -> R }.
Definition Updated (R : Type) : Type := R.
Class Setter {R A : Type} (p : R -> A) := upd : (A -> A) -> R -> Updated R.
Arguments upd {R A} p {_} _ _.
#[global] Hint Opaque Setter Updated : typeclass_instances.

Definition r_ap {R A B} (f : R -> A -> B) (x : R -> A) : R -> B := fun r => f r (x r).
Notation "'fields_of' mk < f1 ; .. ; fn >" :=
  {| rebuild := r_ap .. (r_ap (fun _ => mk) f1) .. fn |}
  (at level 0, mk at level 10, f1 at level 10, fn at level 10, only parsing).

(** The setter of the projection [p], from the list of fields of its record. *)
Ltac derive_setter :=
  lazymatch goal with
  | |- @Setter ?R ?A ?p =>
      let inst := constr:(_ : Settable R) in
      let head := lazymatch inst with ?i _ => i | ?i => i end in
      exact (fun (f : A -> A) (r : R) =>
               ltac:(let b := eval cbv beta iota delta [head rebuild r_ap] in (@rebuild R inst r) in
                     let b := eval pattern (p r) in b in
                     lazymatch b with
                     | ?g _ => let b' := eval cbv beta in (g (f (p r))) in exact b'
                     end))
  end.
#[global] Hint Extern 0 (Setter _) => derive_setter : typeclass_instances.

Declare Scope record_scope.
Notation "r <| p := v |>" := (upd p (fun _ => v) r)
  (at level 12, left associativity, p at level 10, v at level 200,
   format "r  <|  p  :=  v  |>") : record_scope.
#[global] Open Scope record_scope.

(** ** Tactics *)

(** Case analysis on the discriminee of the first [match]/[if] of the goal. *)
Ltac step_match :=
  match goal with
  | |- context [match ?x with _ => _ end] =>
      lazymatch x with
      | context [match _ with _ => _ end] => fail
      | _ => destruct x eqn:?
      end
  end.
(** The same in a hypothesis. *)
Ltac step_match_in H :=
  match type of H with
  | context [match ?x with _ => _ end] =>
      lazymatch x with
      | context [match _ with _ => _ end] => fail
      | _ => destruct x eqn:?
      end
  end.
(** Case analysis on the outcome of the run that hypothesis [H] speaks of. *)
Ltac case_run H :=
  match type of H with
  | match ?x with _ => _ end => destruct x as [[?|?] ?] eqn:?
  end.
(** Invert a successful run of [m ≫= k]. *)
Tactic Notation "inv_bind" hyp(H) :=
  let a := fresh "a" in let s1 := fresh "w" in let E1 := fresh "E" in
  apply run_bind_inv in H as (a & s1 & E1 & H).
Tactic Notation "inv_bind" hyp(H) "as" ident(a) ident(s1) ident(E1) :=
  apply run_bind_inv in H as (a & s1 & E1 & H).
(** Open the monadic plumbing of a program applied to a state. *)
Ltac run_unfold :=
  unfold mbind, M_bind, mret, M_ret, fail, gets, modify, of_result, guard_err,
    attempt, ignore_err, map_err in *; simpl in *.
(** Boolean comparisons of the code become propositions. *)
Ltac bools :=
  repeat match goal with
  | H : (_ && _) = true |- _ => apply andb_true_iff in H as [? ?]
  | H : (_ || _) = false |- _ => apply orb_false_iff in H as [? ?]
  | H : negb _ = true |- _ => apply negb_true_iff in H
  | H : negb _ = false |- _ => apply negb_false_iff in H
  | H : (_ <? _)%Z = true |- _ => apply Z.ltb_lt in H
  | H : (_ <? _)%Z = false |- _ => apply Z.ltb_ge in H
  | H : (_ <=? _)%Z = true |- _ => apply Z.leb_le in H
  | H : (_ <=? _)%Z = false |- _ => apply Z.leb_gt in H
  | H : (_ =? _)%Z = true |- _ => apply Z.eqb_eq in H
  | H : (_ =? _)%Z = false |- _ => apply Z.eqb_neq in H
  | H : (_ >? _)%Z = _ |- _ => rewrite Z.gtb_ltb in H
  | H : (_ >=? _)%Z = _ |- _ => rewrite Z.geb_leb in H
  | H : bool_decide _ = true |- _ => apply bool_decide_eq_true in H
  | H : bool_decide _ = false |- _ => apply bool_decide_eq_false in H
  end.

(** Compute the divisions of integer literals that [simpl] keeps folded. *)
Ltac zconst :=
  repeat match goal with
  | |- context [(?a / ?b)%Z] =>
      let v := eval vm_compute in (a / b)%Z in
      lazymatch v with
      | Z0 => idtac | Zpos _ => idtac | Zneg _ => idtac
      end;
      change (a / b)%Z with v
  | |- context [(?a mod ?b)%Z] =>
      let v := eval vm_compute in (a mod b)%Z in
      lazymatch v with
      | Z0 => idtac | Zpos _ => idtac | Zneg _ => idtac
      end;
      change (a mod b)%Z with v
  end.

(** ** Lists *)

Section lists.
Context {A : Type}.

(** Sum of a measure over a list. *)
Definition sumZ (f : A -> Z) (l : list A) : Z := foldr (fun a acc => f a + acc) 0 l.

Lemma sumZ_app f l k : sumZ f (l ++ k) = sumZ f l + sumZ f k.
Proof. induction l as [|x l IH]; simpl; lia. Qed.

Lemma sumZ_perm f l k : l ≡ₚ k -> sumZ f l = sumZ f k.
Proof. induction 1; simpl; lia. Qed.

Lemma sumZ_ext f g (l : list A) : (forall x, x ∈ l -> f x = g x) -> sumZ f l = sumZ g l.
Proof.
  induction l as [|x l IH]; intros H; simpl; [done|].
  rewrite (H x) by set_solver. rewrite IH; [done|set_solver].
Qed.
End lists.

(** ** Loops

    [loop p step st] runs at most [p] iterations of a loop whose body either
    continues with a new state ([inl]) or leaves with a result ([inr]). *)
Section loop.
Context {St R : Type} (step : St -> St + R).

Fixpoint loop (p : positive) (st : St) : St + R :=
  match p with
  | xH => step st
  | xO p' => match loop p' st with inl st' => loop p' st' | r => r end
  | xI p' =>
      match step st with
      | inl st1 => match loop p' st1 with inl st2 => loop p' st2 | r => r end
      | r => r
      end
  end.

Fixpoint loop_nat (n : nat) (st : St) : St + R :=
  match n with
  | O => inl st
  | S n' => match step st with inl st' => loop_nat n' st' | r => r end
  end.

Lemma loop_nat_add n m st :
  loop_nat (n + m) st = match loop_nat n st with inl st' => loop_nat m st' | r => r end.
Proof.
  revert st. induction n as [|n IH]; intros st; simpl; [done|].
  destruct (step st); [apply IH|done].
Qed.

Lemma loop_unary p st : loop p st = loop_nat (Pos.to_nat p) st.
Proof.
  revert st. induction p as [p IH|p IH|]; intros st.
  - rewrite Pos2Nat.inj_xI. replace (S (2 * Pos.to_nat p))%nat with (1 + (Pos.to_nat p + Pos.to_nat p))%nat by lia.
    rewrite loop_nat_add. simpl. destruct (step st) as [s1|r]; [|done].
    rewrite loop_nat_add, <- IH. destruct (loop p s1); [apply IH|done].
  - rewrite Pos2Nat.inj_xO. replace (2 * Pos.to_nat p)%nat with (Pos.to_nat p + Pos.to_nat p)%nat by lia.
    rewrite loop_nat_add, <- IH. simpl. destruct (loop p st); [apply IH|done].
  - rewrite Pos2Nat.inj_1. simpl. by destruct (step st).
Qed.

(** A variant that decreases at every iteration bounds the loop. *)
Lemma loop_terminates (I : St -> Prop) (Q : R -> Prop) (variant : St -> Z) p st :
  (forall st, I st -> match step st with
                      | inl st' => I st' /\ 0 <= variant st' < variant st
                      | inr r => Q r
                      end) ->
  I st -> 0 <= variant st < Zpos p -> exists r, loop p st = inr r /\ Q r.
Proof.
  intros Hstep Hst Hv. rewrite loop_unary.
  assert (Hn : 0 <= variant st < Z.of_nat (Pos.to_nat p)) by lia. clear Hv.
  revert st Hst Hn. induction (Pos.to_nat p) as [|n IH]; intros st Hst Hn; simpl.
  - lia.
  - specialize (Hstep st Hst). destruct (step st) as [st'|r]; [|by exists r].
    destruct Hstep as [Hst' Hv]. apply IH; [done|lia].
Qed.

Lemma loop_forever (I : St -> Prop) p st :
  (forall st, I st -> exists st', step st = inl st' /\ I st') ->
  I st -> exists st', loop p st = inl st'.
Proof.
  intros Hstep Hst. rewrite loop_unary. revert st Hst.
  induction (Pos.to_nat p) as [|n IH]; intros st Hst; simpl; [by eexists|].
  destruct (Hstep st Hst) as (st' & -> & Hst'). auto.
Qed.
End loop.

(** ** Error values

    [errors.New] and [fmt.Errorf] with a complete text; the sentinel errors the
    code compares with [errors.Is] have their own constructor.  A message whose
    arguments are quotas rendered by [logger.FormatQuota] keeps the format and
    the raw quotas ([ErrQuota]). *)

Inductive error : Type :=
| ErrNew (msg : string)
| ErrQuota (fmt : string) (args : list Z)
| ErrDB (msg : string)               (** a failing database or Redis call *)
| ErrRecordNotFound                  (** gorm.ErrRecordNotFound *)
| ErrDuplicatedKey                   (** violation of a unique index *)
| ErrRedisMiss                       (** key not found in Redis *)
| ErrDatabase (e : error)            (** fmt.Errorf("%w: %v", ErrDatabase, e) *)
| ErrDiverge                         (** not a Go value: the call never returns *)
| ErrPanic (msg : string).           (** not a Go value: the goroutine panics *)

#[global] Instance error_eq_dec : EqDecision error.
Proof. unfold EqDecision, Decision. decide equality; solve_decision. Defined.

(** [err.Error()] *)
Fixpoint error_text (e : error) : string :=
  match e with
  | ErrNew msg => msg
  | ErrQuota fmt _ => fmt
  | ErrDB msg => msg
  | ErrRecordNotFound => "record not found"
  | ErrDuplicatedKey => "duplicated key not allowed"
  | ErrRedisMiss => "key not found in Redis"
  | ErrDatabase e => "database error: " +:+ error_text e
  | ErrDiverge => ""
  | ErrPanic msg => msg
  end.
