(* ===== verification/GoStd.v ===== *)
(** * The part of Go's standard library the modelled code uses

    Strings are byte strings ([string] = list of [ascii]); [strings.TrimSpace]
    works on the UTF-8 encodings of the Unicode white-space code points.  Times
    are Unix seconds in a zone with a fixed UTC offset; dates follow the
    proleptic Gregorian calendar of package [time].  Module [GoText] has what strconv and
    the rest of strings offer. *)

From S2P Require Import Prelude.

Module GoStrings.

(** The UTF-8 encodings of the code points for which [unicode.IsSpace] holds. *)
Definition spaces : list string :=
  let b (l : list nat) : string :=
    foldr (fun n s => String (Ascii.ascii_of_nat n) s) EmptyString l in
  (b <$> [[9];[10];[11];[12];[13];[32]])%nat
  ++ (b <$> [[194;133]; [194;160]; [225;154;128]])%nat
  ++ ((fun k => b [226;128;k]) <$> (seq 128 11))%nat
  ++ (b <$> [[226;128;168]; [226;128;169]; [226;128;175]; [226;129;159]; [227;128;128]])%nat.

Fixpoint drop_prefix (p s : string) : option string :=
  match p, s with
  | EmptyString, _ => Some s
  | String a p', String c s' => if decide (a = c) then drop_prefix p' s' else None
  | String _ _, EmptyString => None
  end.

(** strings.HasPrefix *)
Definition HasPrefix (s p : string) : bool :=
  match drop_prefix p s with Some _ => true | None => false end.
(** strings.HasSuffix *)
Definition HasSuffix (s p : string) : bool := HasPrefix (String.rev s) (String.rev p).
(** strings.TrimPrefix *)
Definition TrimPrefix (s p : string) : string := default s (drop_prefix p s).
(** strings.TrimSuffix *)
Definition TrimSuffix (s p : string) : string :=
  match drop_prefix (String.rev p) (String.rev s) with
  | Some r => String.rev r
  | None => s
  end.

(** strings.Contains *)
Fixpoint Contains (s sub : string) : bool :=
  HasPrefix s sub ||
  match s with EmptyString => false | String _ s' => Contains s' sub end.

Definition drop_one (sps : list string) (s : string) : option string :=
  foldr (fun p acc => match drop_prefix p s with Some r => Some r | None => acc end) None sps.

Fixpoint trim_left (fuel : nat) (sps : list string) (s : string) : string :=
  match fuel with
  | O => s
  | S n => match drop_one sps s with Some r => trim_left n sps r | None => s end
  end.

(** strings.TrimSpace; every removed code point has at least one byte, so the
    length of the string is enough fuel. *)
Definition TrimSpace (s : string) : string :=
  let l := trim_left (String.length s) spaces s in
  String.rev (trim_left (String.length l) (String.rev <$> spaces) (String.rev l)).

Example TrimSpace_ex : TrimSpace "	 monthly
" = "monthly".
Proof. vm_compute. reflexivity. Qed.

(** strings.ReplaceAll with a one-byte pattern *)
Fixpoint ReplaceByte (s : string) (c : Ascii.ascii) (by_ : string) : string :=
  match s with
  | EmptyString => EmptyString
  | String a s' => (if decide (a = c) then by_ else String a EmptyString)
                     +:+ ReplaceByte s' c by_
  end.

(** strings.Count with a one-byte pattern *)
Fixpoint CountByte (s : string) (c : Ascii.ascii) : Z :=
  match s with
  | EmptyString => 0
  | String a s' => (if decide (a = c) then 1 else 0) + CountByte s' c
  end.

(** strings.Split with a one-byte separator *)
Fixpoint SplitByte (s : string) (c : Ascii.ascii) : list string :=
  match s with
  | EmptyString => [EmptyString]
  | String a s' =>
      if decide (a = c) then EmptyString :: SplitByte s' c
      else match SplitByte s' c with
           | hd :: tl => String a hd :: tl
           | [] => [String a EmptyString]
           end
  end.

(** len(s) *)
Definition len (s : string) : Z := Z.of_nat (String.length s).

(** strings.ToLower of an ASCII byte *)
Definition lower_byte (c : Ascii.ascii) : Ascii.ascii :=
  let n := Ascii.nat_of_ascii c in
  if Nat.leb 65 n && Nat.leb n 90 then Ascii.ascii_of_nat (n + 32) else c.

(** Simple case folding towards ASCII: besides the letters, U+017F (bytes 197,
    191) folds to "s" and U+212A (bytes 226, 132, 170) folds to "k". *)
Fixpoint fold_ascii (s : string) : string :=
  match s with
  | EmptyString => EmptyString
  | String a t =>
      let other := String (lower_byte a) (fold_ascii t) in
      if decide (Ascii.nat_of_ascii a = 197%nat) then
        match t with
        | String b t' => if decide (Ascii.nat_of_ascii b = 191%nat)
                         then String (Ascii.ascii_of_nat 115) (fold_ascii t') else other
        | EmptyString => other
        end
      else if decide (Ascii.nat_of_ascii a = 226%nat) then
        match t with
        | String b (String c t') =>
            if decide (Ascii.nat_of_ascii b = 132%nat /\ Ascii.nat_of_ascii c = 170%nat)
            then String (Ascii.ascii_of_nat 107) (fold_ascii t') else other
        | _ => other
        end
      else other
  end.

(** strings.EqualFold(s, t) where [t] is an ASCII string *)
Definition EqualFold (s t : string) : bool := bool_decide (fold_ascii s = fold_ascii t).

(** strings.HasPrefix(strings.ToLower(s), p) where [p] is ASCII: besides the
    letters, U+0130 (bytes 196, 176) lowers to "i" and U+212A to "k". *)
Fixpoint lower_ascii (s : string) : string :=
  match s with
  | EmptyString => EmptyString
  | String a t =>
      let other := String (lower_byte a) (lower_ascii t) in
      if decide (Ascii.nat_of_ascii a = 196%nat) then
        match t with
        | String b t' => if decide (Ascii.nat_of_ascii b = 176%nat)
                         then String (Ascii.ascii_of_nat 105) (lower_ascii t') else other
        | EmptyString => other
        end
      else if decide (Ascii.nat_of_ascii a = 226%nat) then
        match t with
        | String b (String c t') =>
            if decide (Ascii.nat_of_ascii b = 132%nat /\ Ascii.nat_of_ascii c = 170%nat)
            then String (Ascii.ascii_of_nat 107) (lower_ascii t') else other
        | _ => other
        end
      else other
  end.

Lemma ReplaceByte_absent s c : CountByte s c = 0 -> ReplaceByte s c "" = s.
Proof.
  assert (Hnn : forall s, 0 <= CountByte s c).
  { clear s. induction s as [|a s IH]; simpl; [lia|]. case_decide; lia. }
  induction s as [|a s IH]; simpl; [done|]. intros H. specialize (Hnn s).
  case_decide; [lia|]. simpl. f_equal. apply IH. lia.
Qed.

Lemma CountByte_nonneg s c : 0 <= CountByte s c.
Proof. induction s as [|a s IH]; simpl; [lia|]. case_decide; lia. Qed.

End GoStrings.

(** ** package time *)

Module GoTime.

Definition day_seconds : Z := 86400.

(** Years are counted from March, so that the leap day comes last; day 0 is
    0000-03-01.  [year_start y] is the first day of the March year [y]. *)
Definition year_start (y : Z) : Z := 365 * y + y / 4 - y / 100 + y / 400.
Definition month_start (mp : Z) : Z := (153 * mp + 2) / 5.

(** Days since 1970-01-01 of the first day of month [m] (1..12) of year [y]. *)
Definition days_of_month_start (y m : Z) : Z :=
  year_start (if m <=? 2 then y - 1 else y) + month_start ((m + 9) mod 12) - 719468.

(** The March year a day falls in: 400 years have 146097 days, so the quotient
    is the year or the year before it. *)
Definition year_of_day (z : Z) : Z :=
  let est := (400 * z) / 146097 in
  if year_start (est + 1) <=? z then est + 1 else est.

(** The year and month a day number falls in. *)
Definition month_of_day (days : Z) : Z * Z :=
  let z := days + 719468 in
  let y := year_of_day z in
  let mp := (5 * (z - year_start y) + 2) / 153 in
  let m := if mp <? 10 then mp + 3 else mp - 9 in
  (if m <=? 2 then y + 1 else y, m).

(** Civil fields of a Unix time in a zone [tz] seconds east of UTC. *)
Definition day_number (tz t : Z) : Z := (t + tz) / day_seconds.
Definition seconds_of_day (tz t : Z) : Z := (t + tz) mod day_seconds.
Definition day_of_month (days : Z) : Z :=
  let '(y, m) := month_of_day days in days - days_of_month_start y m + 1.
(** t.Weekday(): Sunday = 0; 1970-01-01 was a Thursday. *)
Definition Weekday (tz t : Z) : Z := (day_number tz t + 4) mod 7.

(** The Unix time of midnight of a day number. *)
Definition midnight (tz days : Z) : Z := days * day_seconds - tz.

(** Month arithmetic of time.Date: months outside 1..12 carry into the year. *)
Definition norm_month (y m : Z) : Z * Z := (y + (m - 1) / 12, (m - 1) mod 12 + 1).

(** t.AddDate(years, months, days): the date fields are added and normalised
    (a day past the month's end runs into the next month); the time of day is
    kept. *)
Definition AddDate (tz t years months days : Z) : Z :=
  let dn := day_number tz t in
  let '(y, m) := month_of_day dn in
  let d := day_of_month dn in
  let '(y', m') := norm_month (y + years) (m + months) in
  midnight tz (days_of_month_start y' m' + d - 1 + days) + seconds_of_day tz t.

(** time.Date(t.Year(), t.Month(), t.Day(), 0, 0, 0, 0, t.Location()) *)
Definition start_of_day (tz t : Z) : Z := midnight tz (day_number tz t).
(** time.Date(t.Year(), t.Month(), 1, 0, 0, 0, 0, t.Location()) *)
Definition start_of_month (tz t : Z) : Z :=
  let '(y, m) := month_of_day (day_number tz t) in
  midnight tz (days_of_month_start y m).

(** 2024-01-31 00:00 UTC plus one month is 2024-03-02. *)
Example AddDate_ex : AddDate 0 1706659200 0 1 0 = 1709337600.
Proof. vm_compute. reflexivity. Qed.

(** *** Calendar facts *)

Lemma year_start_approx y :
  146097 * y - 699 <= 400 * year_start y <= 146097 * y + 396.
Proof.
  unfold year_start.
  pose proof (Z.div_mod y 4 ltac:(lia)). pose proof (Z.mod_pos_bound y 4 ltac:(lia)).
  pose proof (Z.div_mod y 100 ltac:(lia)). pose proof (Z.mod_pos_bound y 100 ltac:(lia)).
  pose proof (Z.div_mod y 400 ltac:(lia)). pose proof (Z.mod_pos_bound y 400 ltac:(lia)).
  lia.
Qed.

Lemma year_start_next y : 365 <= year_start (y + 1) - year_start y <= 366.
Proof. unfold year_start. Z.div_mod_to_equations. lia. Qed.

Lemma year_of_day_bracket z :
  year_start (year_of_day z) <= z < year_start (year_of_day z + 1).
Proof.
  unfold year_of_day. set (est := 400 * z / 146097).
  pose proof (year_start_next (est + 1)) as Hn.
  pose proof (year_start_approx est). pose proof (year_start_approx (est + 1)).
  assert (Hest : 146097 * est <= 400 * z < 146097 * est + 146097).
  { unfold est. pose proof (Z.div_mod (400 * z) 146097 ltac:(lia)).
    pose proof (Z.mod_pos_bound (400 * z) 146097 ltac:(lia)). lia. }
  clearbody est.
  assert (Hlo : year_start est <= z) by lia.
  assert (Hhi : z - 2 < year_start (est + 1)) by lia.
  destruct (year_start (est + 1) <=? z) eqn:E; bools; lia.
Qed.

(** Every day lies in the month that [month_of_day] computes. *)
Lemma month_of_day_bracket d :
  let '(y, m) := month_of_day d in
  let '(y', m') := norm_month y (m + 1) in
  1 <= m <= 12 /\ days_of_month_start y m <= d < days_of_month_start y' m'.
Proof.
  unfold month_of_day, norm_month.
  pose proof (year_of_day_bracket (d + 719468)) as Hy.
  set (y := year_of_day (d + 719468)) in *.
  pose proof (year_start_next y) as Hn.
  set (doy := d + 719468 - year_start y).
  assert (Hdoy : 0 <= doy <= 365) by lia.
  set (mp := (5 * doy + 2) / 153).
  assert (Hmp : 0 <= mp <= 11) by (unfold mp; Z.div_mod_to_equations; lia).
  assert (Hb : month_start mp <= doy < month_start (mp + 1)).
  { unfold month_start, mp. Z.div_mod_to_equations. lia. }
  assert (Hend : doy < year_start (y + 1) - year_start y) by lia.
  clearbody mp. unfold days_of_month_start.
  assert (mp = 0 \/ mp = 1 \/ mp = 2 \/ mp = 3 \/ mp = 4 \/ mp = 5 \/ mp = 6 \/
          mp = 7 \/ mp = 8 \/ mp = 9 \/ mp = 10 \/ mp = 11) as Hc by lia.
  clear Hmp. unfold month_start in *.
  repeat (destruct Hc as [->|Hc]); try subst mp; revert Hb; simpl; zconst;
    rewrite ?Z.add_0_r, ?Z.add_simpl_r; intros Hb; lia.
Qed.

(** Months numbered consecutively: [12 * year + month - 1]. *)
Definition month_index (y m : Z) : Z := 12 * y + m - 1.
Definition first_day (k : Z) : Z := days_of_month_start (k / 12) (k mod 12 + 1).

Lemma first_day_index y m : 1 <= m <= 12 -> first_day (month_index y m) = days_of_month_start y m.
Proof.
  intros Hm. unfold first_day, month_index.
  replace ((12 * y + m - 1) / 12) with y by (Z.div_mod_to_equations; lia).
  replace ((12 * y + m - 1) mod 12 + 1) with m by (Z.div_mod_to_equations; lia). done.
Qed.

Lemma norm_month_index y m :
  let '(y', m') := norm_month y m in 1 <= m' <= 12 /\ month_index y' m' = month_index y m.
Proof. unfold norm_month, month_index. Z.div_mod_to_equations. lia. Qed.

Lemma first_day_next k : first_day k < first_day (k + 1).
Proof.
  unfold first_day, days_of_month_start.
  set (y := k / 12). set (r := k mod 12).
  assert (Hr : 0 <= r < 12) by (apply Z.mod_pos_bound; lia).
  assert (Hk : k = 12 * y + r) by (apply Z.div_mod; lia).
  assert (Hc : r = 11 /\ (k + 1) / 12 = y + 1 /\ (k + 1) mod 12 = 0 \/
               r < 11 /\ (k + 1) / 12 = y /\ (k + 1) mod 12 = r + 1).
  { clearbody y r. subst k. destruct (decide (r = 11)) as [->|].
    - left. split; [done|]. split; Z.div_mod_to_equations; lia.
    - right. split; [lia|]. split; Z.div_mod_to_equations; lia. }
  clearbody y r. clear Hk.
  pose proof (year_start_next (y - 1)) as Hn. rewrite Z.sub_add in Hn.
  destruct Hc as [(-> & -> & ->)|(Hr11 & -> & ->)].
  - unfold month_start. simpl. zconst. rewrite Z.add_simpl_r. lia.
  - assert (r = 0 \/ r = 1 \/ r = 2 \/ r = 3 \/ r = 4 \/ r = 5 \/ r = 6 \/
            r = 7 \/ r = 8 \/ r = 9 \/ r = 10) as Hr' by lia. clear Hr Hr11.
    unfold month_start in *.
    repeat (destruct Hr' as [->|Hr']); try subst r; simpl; zconst; lia.
Qed.

Lemma first_day_mono k k' : k < k' -> first_day k < first_day k'.
Proof.
  intros Hk. replace k' with (k + 1 + Z.of_nat (Z.to_nat (k' - k - 1))) by lia.
  generalize (Z.to_nat (k' - k - 1)). induction n as [|n IH].
  - rewrite Z.add_0_r. apply first_day_next.
  - rewrite Nat2Z.inj_succ. unfold Z.succ. rewrite Z.add_assoc.
    pose proof (first_day_next (k + 1 + Z.of_nat n)). lia.
Qed.

(** The first day of a month falls in that month. *)
Lemma month_of_first_day y m :
  1 <= m <= 12 -> month_of_day (days_of_month_start y m) = (y, m).
Proof.
  intros Hm. pose proof (month_of_day_bracket (days_of_month_start y m)) as Hb.
  destruct (month_of_day (days_of_month_start y m)) as [y0 m0].
  pose proof (norm_month_index y0 (m0 + 1)) as Hn.
  destruct (norm_month y0 (m0 + 1)) as [y1 m1]. destruct Hb as (Hm0 & Hlo & Hhi).
  destruct Hn as [Hm1 Hi]. rewrite <- !first_day_index in Hlo, Hhi by lia.
  assert (Heq : month_index y m = month_index y0 m0).
  { destruct (Z.lt_trichotomy (month_index y m) (month_index y0 m0)) as [H|[H|H]]; [|done|].
    - pose proof (first_day_mono _ _ H). lia.
    - assert (month_index y1 m1 <= month_index y m) as H1 by (unfold month_index in *; lia).
      destruct (Z.eq_dec (month_index y1 m1) (month_index y m)) as [E|E];
        [rewrite E in Hhi; lia|].
      pose proof (first_day_mono (month_index y1 m1) (month_index y m)). lia. }
  unfold month_index in Heq. f_equal; lia.
Qed.

Lemma day_number_midnight tz d : day_number tz (midnight tz d) = d.
Proof.
  unfold day_number, midnight, day_seconds.
  replace (d * 86400 - tz + tz) with (d * 86400) by lia. apply Z.div_mul. lia.
Qed.
Lemma seconds_of_midnight tz d : seconds_of_day tz (midnight tz d) = 0.
Proof.
  unfold seconds_of_day, midnight, day_seconds.
  replace (d * 86400 - tz + tz) with (d * 86400) by lia. apply Z.mod_mul. lia.
Qed.
Lemma midnight_after tz t d : day_number tz t < d -> t < midnight tz d.
Proof.
  unfold day_number, midnight, day_seconds. intros H.
  pose proof (Z.div_mod (t + tz) 86400 ltac:(lia)).
  pose proof (Z.mod_pos_bound (t + tz) 86400 ltac:(lia)). lia.
Qed.

(** Adding days at midnight is exact. *)
Lemma AddDate_days tz d n : AddDate tz (midnight tz d) 0 0 n = midnight tz (d + n).
Proof.
  unfold AddDate. rewrite day_number_midnight, seconds_of_midnight.
  pose proof (month_of_day_bracket d) as Hb. unfold day_of_month.
  destruct (month_of_day d) as [y m]. destruct (norm_month y (m + 1)). destruct Hb as [Hm _].
  pose proof (norm_month_index (y + 0) (m + 0)) as Hn.
  destruct (norm_month (y + 0) (m + 0)) as [y' m']. destruct Hn as [Hm' Hi].
  rewrite !Z.add_0_r in Hi. rewrite <- (first_day_index y' m'), Hi, first_day_index by lia.
  unfold midnight. lia.
Qed.

(** One month after the first of a month is the first of the next. *)
Lemma AddDate_month tz y m :
  1 <= m <= 12 ->
  AddDate tz (midnight tz (days_of_month_start y m)) 0 1 0
  = midnight tz (first_day (month_index y m + 1)).
Proof.
  intros Hm. unfold AddDate. rewrite day_number_midnight, seconds_of_midnight.
  unfold day_of_month. rewrite month_of_first_day by done.
  pose proof (norm_month_index (y + 0) (m + 1)) as Hn.
  destruct (norm_month (y + 0) (m + 1)) as [y' m']. destruct Hn as [Hm' Hi].
  rewrite <- (first_day_index y' m') by lia. rewrite Hi.
  replace (month_index (y + 0) (m + 1)) with (month_index y m + 1) by (unfold month_index; lia).
  unfold midnight. lia.
Qed.

(** time.Duration is a signed 64-bit count of nanoseconds. *)
Definition wrap64 (z : Z) : Z := (z + 2 ^ 63) mod 2 ^ 64 - 2 ^ 63.
Definition Nanosecond : Z := 1.
Definition Second : Z := 1000000000.
Definition Hour : Z := 3600 * Second.
(** time.Duration(n) * unit, with Go's wrap-around *)
Definition Duration (n unit : Z) : Z := wrap64 (n * unit).
(** t.Add(d).Unix() of a time without a fraction of a second *)
Definition Add (t d : Z) : Z := (t * Second + d) / Second.

Lemma wrap64_id z : - 2 ^ 63 <= z < 2 ^ 63 -> wrap64 z = z.
Proof. intros H. unfold wrap64. rewrite Z.mod_small by lia. lia. Qed.
Lemma Add_seconds t n : - 2 ^ 63 <= n * Second < 2 ^ 63 -> Add t (Duration n Second) = t + n.
Proof.
  intros H. unfold Add, Duration. rewrite wrap64_id by done.
  rewrite <- Z.mul_add_distr_r. apply Z.div_mul. done.
Qed.

End GoTime.

Module GoText.
Import GoStrings.

(** The part of [s] before the first occurrence of [sep], and the rest after it. *)
Fixpoint cut (sep s : string) : option (string * string) :=
  match drop_prefix sep s with
  | Some r => Some (EmptyString, r)
  | None =>
      match s with
      | EmptyString => None
      | String a s' => match cut sep s' with
                       | Some (x, r) => Some (String a x, r)
                       | None => None
                       end
      end
  end.

(** strings.Split(s, sep) for a nonempty [sep]: every cut removes a byte, so the
    length of the string is enough fuel. *)
Fixpoint split_fuel (fuel : nat) (sep s : string) : list string :=
  match fuel with
  | O => [s]
  | S n => match cut sep s with
           | Some (x, r) => x :: split_fuel n sep r
           | None => [s]
           end
  end.
Definition Split (s sep : string) : list string := split_fuel (String.length s) sep s.

(** strings.Replace(s, old, new, 1) *)
Definition ReplaceFirst (s old new : string) : string :=
  match cut old s with Some (x, r) => x +:+ new +:+ r | None => s end.
(** strings.ReplaceAll(s, old, new) for a nonempty [old] *)
Definition ReplaceAll (s old new : string) : string :=
  String.concat new (Split s old).
(** strings.Join *)
Definition Join (l : list string) (sep : string) : string := String.concat sep l.

(** strings.Trim(s, c) for a one-byte cutset *)
Fixpoint trim_left_byte (c : Ascii.ascii) (s : string) : string :=
  match s with
  | EmptyString => EmptyString
  | String a s' => if decide (a = c) then trim_left_byte c s' else s
  end.
Definition TrimByte (s : string) (c : Ascii.ascii) : string :=
  String.rev (trim_left_byte c (String.rev (trim_left_byte c s))).

(** Every byte of the string satisfies [P]. *)
Fixpoint all_bytes (P : Ascii.ascii -> bool) (s : string) : bool :=
  match s with EmptyString => true | String a s' => P a && all_bytes P s' end.

(** ** strconv *)

Definition digit (c : Ascii.ascii) : option Z :=
  let n := Z.of_nat (Ascii.nat_of_ascii c) in
  if (48 <=? n) && (n <=? 57) then Some (n - 48) else None.
Fixpoint digits (acc : Z) (s : string) : option Z :=
  match s with
  | EmptyString => Some acc
  | String c s' => match digit c with Some d => digits (10 * acc + d) s' | None => None end
  end.
Definition in_int64 (z : Z) : bool := (- 2 ^ 63 <=? z) && (z <? 2 ^ 63).

(** strconv.Atoi: an optional sign and at least one digit, within int64. *)
Definition Atoi (s : string) : option Z :=
  let number neg t :=
    match t with
    | EmptyString => None
    | _ => match digits 0 t with
           | Some n => let z := if neg : bool then - n else n in
                       if in_int64 z then Some z else None
           | None => None
           end
    end in
  match s with
  | String c t =>
      if decide (c = Ascii.ascii_of_nat 45) then number true t
      else if decide (c = Ascii.ascii_of_nat 43) then number false t
      else number false s
  | EmptyString => None
  end.

(** strconv.Itoa *)
Definition Itoa (z : Z) : string := pretty z.

Example Split_ex : Split "a{m}b{m}" "{m}" = ["a"; "b"; ""].
Proof. reflexivity. Qed.
Example Atoi_ex : Atoi "-042" = Some (-42) /\ Atoi "" = None /\ Atoi "4x" = None /\ Atoi "+" = None.
Proof. vm_compute. done. Qed.

(** ** Decimal conversions are inverse *)

Lemma digit_pretty x : (x < 10)%N -> digit (pretty_N_char x) = Some (Z.of_N x).
Proof.
  intros H. assert (x = 0 \/ x = 1 \/ x = 2 \/ x = 3 \/ x = 4 \/ x = 5 \/ x = 6 \/ x = 7 \/ x = 8 \/ x = 9)%N
    as Hx by lia.
  repeat destruct Hx as [->|Hx]; try reflexivity. by subst.
Qed.

Lemma digits_pretty_go x : exists k, 1 <= k /\
  forall a s, digits a (pretty_N_go x s) = digits (a * k + Z.of_N x) s.
Proof.
  induction (N.lt_wf_0 x) as [x _ IH]. destruct (decide (x = 0)%N) as [->|Hx].
  { exists 1. split; [lia|]. intros a s. rewrite pretty_N_go_0. f_equal. lia. }
  destruct (IH (x `div` 10)%N) as (k & Hk & H); [by apply N.div_lt; lia|].
  exists (k * 10). split; [lia|]. intros a s. rewrite pretty_N_go_step by lia. rewrite H. simpl.
  rewrite digit_pretty by (apply N.mod_lt; lia). f_equal.
  pose proof (N.div_mod x 10 ltac:(lia)). lia.
Qed.

(** The first byte of a decimal numeral is a digit. *)
Lemma pretty_go_head x s : x <> 0%N -> exists d t, pretty_N_go x s = String (pretty_N_char d) t /\ (d < 10)%N.
Proof.
  revert s. induction (N.lt_wf_0 x) as [x _ IH]. intros s Hx.
  rewrite pretty_N_go_step by lia. destruct (decide (x `div` 10 = 0)%N) as [H0|H0].
  - rewrite H0, pretty_N_go_0. exists (x `mod` 10)%N, s. split; [done|]. apply N.mod_lt. lia.
  - apply IH; [by apply N.div_lt; lia|done].
Qed.
Lemma Itoa_head z : 0 <= z -> exists d t, Itoa z = String (pretty_N_char d) t /\ (d < 10)%N.
Proof.
  intros Hz. unfold Itoa. destruct z as [|p|p]; [by exists 0%N, ""| |lia].
  destruct (pretty_go_head (Npos p) "") as (d & t & H & Hd); [done|]. by exists d, t.
Qed.
Lemma pretty_char_not d : (d < 10)%N ->
  pretty_N_char d <> Ascii.ascii_of_nat 45 /\ pretty_N_char d <> Ascii.ascii_of_nat 43.
Proof.
  intros H. assert (d = 0 \/ d = 1 \/ d = 2 \/ d = 3 \/ d = 4 \/ d = 5 \/ d = 6 \/ d = 7 \/ d = 8 \/ d = 9)%N
    as Hx by lia.
  repeat destruct Hx as [->|Hx]; try (by split). by subst.
Qed.

Lemma digits_Itoa z : 0 <= z -> digits 0 (Itoa z) = Some z.
Proof.
  intros Hz. unfold Itoa. destruct z as [|p|p]; [done| |lia].
  destruct (digits_pretty_go (Npos p)) as (k & _ & H).
  change (pretty (Z.pos p)) with (pretty_N_go (Npos p) ""). rewrite H. simpl. f_equal.
Qed.

Lemma Atoi_Itoa z : 0 <= z < 2 ^ 63 -> Atoi (Itoa z) = Some z.
Proof.
  intros Hz. destruct (Itoa_head z) as (d & t & H & Hd); [lia|].
  pose proof (digits_Itoa z ltac:(lia)) as Hdig. destruct (pretty_char_not d Hd) as [H1 H2].
  unfold Atoi. rewrite H in *. do 2 rewrite decide_False by done. rewrite Hdig.
  replace (in_int64 z) with true; [done|]. unfold in_int64.
  destruct (Z.leb_spec (- 2 ^ 63) z), (Z.ltb_spec z (2 ^ 63)); lia || done.
Qed.

(** ** Strings without a separator *)

Lemma all_bytes_app P s t : all_bytes P (s +:+ t) = all_bytes P s && all_bytes P t.
Proof. induction s as [|a s IH]; simpl; [done|]. rewrite IH. apply andb_assoc. Qed.
Lemma all_bytes_mono (P Q : Ascii.ascii -> bool) s :
  (forall a, P a = true -> Q a = true) -> all_bytes P s = true -> all_bytes Q s = true.
Proof.
  intros H. induction s as [|a s IH]; simpl; [done|].
  rewrite !andb_true_iff. intros [Ha Hs]. auto.
Qed.
Lemma all_bytes_cons P a s : all_bytes P (String a s) = P a && all_bytes P s.
Proof. done. Qed.

Definition is_digit (c : Ascii.ascii) : bool := match digit c with Some _ => true | None => false end.
Lemma all_digits_pretty_go x s :
  all_bytes is_digit s = true -> all_bytes is_digit (pretty_N_go x s) = true.
Proof.
  revert s. induction (N.lt_wf_0 x) as [x _ IH]. intros s Hs.
  destruct (decide (x = 0)%N) as [->|Hx]; [by rewrite pretty_N_go_0|].
  rewrite pretty_N_go_step by lia. apply IH; [by apply N.div_lt; lia|].
  rewrite all_bytes_cons, Hs. unfold is_digit.
  by rewrite digit_pretty by (apply N.mod_lt; lia).
Qed.
Lemma all_digits_Itoa z : 0 <= z -> all_bytes is_digit (Itoa z) = true.
Proof.
  intros Hz. unfold Itoa. destruct z as [|p|p]; [done| |lia]. by apply all_digits_pretty_go.
Qed.

Definition not_byte (c : Ascii.ascii) (a : Ascii.ascii) : bool := negb (bool_decide (a = c)).

Lemma SplitByte_none s c : all_bytes (not_byte c) s = true -> SplitByte s c = [s].
Proof.
  induction s as [|a s IH]; simpl; [done|]. rewrite andb_true_iff. unfold not_byte at 1.
  intros [Ha Hs]. case_decide as Hc; [by rewrite bool_decide_eq_true_2 in Ha|]. by rewrite IH.
Qed.
Lemma SplitByte_app s t c : all_bytes (not_byte c) s = true ->
  SplitByte (s +:+ String c t) c = s :: SplitByte t c.
Proof.
  induction s as [|a s IH]; simpl; [by case_decide|]. rewrite andb_true_iff. unfold not_byte at 1.
  intros [Ha Hs]. case_decide as Hc; [by rewrite bool_decide_eq_true_2 in Ha|]. by rewrite IH.
Qed.
(** Splitting undoes joining. *)
Lemma SplitByte_Join l c : l <> [] -> Forall (fun s => all_bytes (not_byte c) s = true) l ->
  SplitByte (Join l (String c "")) c = l.
Proof.
  intros Hne Hl. unfold Join. induction Hl as [|s l Hs Hl IH]; [done|].
  destruct l as [|s' l]; [by apply SplitByte_none|].
  change (String.concat (String c "") (s :: s' :: l))
    with (s +:+ String c (String.concat (String c "") (s' :: l))).
  rewrite SplitByte_app by done. by rewrite IH.
Qed.

(** A separator whose first byte does not occur is not found. *)
Lemma cut_absent c p s : all_bytes (not_byte c) s = true -> cut (String c p) s = None.
Proof.
  induction s as [|a s IH]; simpl; [done|]. rewrite andb_true_iff. unfold not_byte at 1.
  intros [Ha Hs]. destruct (decide (c = a)) as [Hc|Hc]; [rewrite (bool_decide_eq_true_2 (a = c)) in Ha by done; done|]. by rewrite IH.
Qed.
Lemma Split_absent c p s : all_bytes (not_byte c) s = true -> Split s (String c p) = [s].
Proof.
  intros H. unfold Split. destruct (String.length s); simpl; [done|]. by rewrite cut_absent.
Qed.
Lemma ReplaceAll_absent c p s by_ : all_bytes (not_byte c) s = true ->
  ReplaceAll s (String c p) by_ = s.
Proof. intros H. unfold ReplaceAll. by rewrite Split_absent. Qed.

(** Digits and the ASCII signs are not white space. *)
Definition inner (c : Ascii.ascii) : bool :=
  let n := Ascii.nat_of_ascii c in Nat.leb 33 n && Nat.leb n 126.

Lemma drop_one_none sps s :
  forallb (fun p => match p with EmptyString => false | String a _ => negb (inner a) end) sps = true ->
  match s with EmptyString => True | String a _ => inner a = true end ->
  drop_one sps s = None.
Proof.
  intros Hsp Hs. induction sps as [|p sps IH]; simpl in *; [done|].
  apply andb_true_iff in Hsp as [Hp Hsp]. rewrite (IH Hsp).
  destruct p as [|a p]; [done|]. destruct s as [|b s]; simpl; [done|].
  case_decide as Hab; [|done]. subst. by rewrite Hs in Hp.
Qed.
Lemma trim_left_none n sps s : drop_one sps s = None -> trim_left n sps s = s.
Proof. intros H. destruct n; simpl; [done|]. by rewrite H. Qed.

Lemma rev_involutive s : String.rev (String.rev s) = s.
Proof.
  assert (Hr : forall t a b, String.rev_app (String.rev_app t a) b = String.rev_app a (t +:+ b)).
  { clear s. induction t as [|c t IH]; simpl; [done|]. intros a b. by rewrite IH. }
  unfold String.rev. rewrite Hr. change (String.rev_app "" (s +:+ "")) with (s +:+ "").
  clear Hr. induction s as [|c s IH]; [done|]. change (String c (s +:+ "") = String c s). by rewrite IH.
Qed.
Lemma all_bytes_rev P s : all_bytes P (String.rev s) = all_bytes P s.
Proof.
  unfold String.rev.
  assert (Hr : forall t a, all_bytes P (String.rev_app t a) = all_bytes P t && all_bytes P a).
  { clear s. induction t as [|c t IH]; simpl; [done|]. intros a. rewrite IH. simpl.
    destruct (P c), (all_bytes P t), (all_bytes P a); done. }
  rewrite Hr. simpl. apply andb_true_r.
Qed.

Lemma TrimSpace_inner s : all_bytes inner s = true -> TrimSpace s = s.
Proof.
  intros H. unfold TrimSpace.
  assert (Hhead : forall s, all_bytes inner s = true ->
    match s with EmptyString => True | String a _ => inner a = true end).
  { intros [|a s']; simpl; [done|]. by rewrite andb_true_iff; intros []. }
  assert (H1 : drop_one spaces s = None).
  { apply drop_one_none; [|by apply Hhead]. by vm_compute. }
  rewrite (trim_left_none _ _ _ H1).
  rewrite trim_left_none; [apply rev_involutive|].
  apply drop_one_none; [by vm_compute|].
  apply Hhead. by rewrite all_bytes_rev.
Qed.
End GoText.
