(* ===== verification/Ssrf.v ===== *)
(** * Protection of outgoing fetches (src/common/ssrf_protection.go, src/common/ip.go,
    src/service/protected_fetch_client.go)

    Which URLs and addresses the gateway may fetch on behalf of a user, and the dialer
    that checks every address it connects to; Go's net addresses come first. *)

From S2P Require Import Prelude GoStd.
Import GoStrings GoText.

(** ** Addresses of Go's net package

    A net.IP is the number of its 16-byte form; an IPv4 address and its IPv4-mapped
    form are the same to every function that is used (Equal, Contains, To4, String). *)

Abbreviation IP := Z (only parsing).
(** The IPv4-mapped address of four bytes. *)
Definition mapped (v4 : Z) : IP := 2 ^ 32 * 65535 + v4.
Definition IPv4 (a b c d : Z) : IP := mapped (((a * 256 + b) * 256 + c) * 256 + d).
Definition To4 (ip : IP) : option Z := if ip / 2 ^ 32 =? 65535 then Some (ip mod 2 ^ 32) else None.
(** Bits [from - 1] down to [to] of a number. *)
Definition bits (from to : Z) (x : Z) : Z := (x mod 2 ^ from) / 2 ^ to.

(** ** Parsing *)

Definition colon : Ascii.ascii := Ascii.ascii_of_nat 58.
Definition dot : Ascii.ascii := Ascii.ascii_of_nat 46.
Definition hex_digit (c : Ascii.ascii) : option Z :=
  let n := Z.of_nat (Ascii.nat_of_ascii c) in
  if (48 <=? n) && (n <=? 57) then Some (n - 48)
  else if (97 <=? n) && (n <=? 102) then Some (n - 87)
  else if (65 <=? n) && (n <=? 70) then Some (n - 55)
  else None.
(** How many hexadecimal digits the text starts with, their value, and the rest. *)
Fixpoint span_hex (acc : Z) (s : string) : nat * Z * string :=
  match s with
  | EmptyString => (0%nat, acc, s)
  | String c t => match hex_digit c with
                  | Some d => let '(n, v, r) := span_hex (16 * acc + d) t in (S n, v, r)
                  | None => (0%nat, acc, s)
                  end
  end.

(** A byte in decimal without leading zeros. *)
Definition octet (s : string) : option Z :=
  match s with
  | EmptyString => None
  | String c t =>
      if decide (c = Ascii.ascii_of_nat 48 /\ t <> "") then None
      else n ← digits 0 s; if n <=? 255 then Some n else None
  end.
Definition parse_ipv4 (s : string) : option Z :=
  match SplitByte s dot with
  | [a; b; c; d] => a ← octet a; b ← octet b; c ← octet c; d ← octet d; Some (((a * 256 + b) * 256 + c) * 256 + d)
  | _ => None
  end.

(** The groups of an IPv6 text and the place of the ellipsis among them. *)
Fixpoint parse_groups (fuel : nat) (s : string) (groups : list Z) (ellipsis : option nat) : option (list Z * option nat) :=
  match fuel with
  | O => None
  | S fuel =>
      if decide (8 <= length groups)%nat then None
      else
        let '(n, v, rest) := span_hex 0 s in
        if decide (n = 0%nat \/ 4 < n)%nat then None
        else
          match rest with
          | EmptyString => Some (groups ++ [v], ellipsis)
          | String c rest =>
              if decide (c = dot) then
                if decide (ellipsis = None /\ length groups <> 6%nat) then None
                else if decide (6 < length groups)%nat then None
                else v4 ← parse_ipv4 s; Some (groups ++ [v4 / 65536; v4 mod 65536], ellipsis)
              else if negb (bool_decide (c = colon)) then None
              else
                match rest with
                | EmptyString => None
                | String c' rest' =>
                    if decide (c' = colon) then
                      match ellipsis with
                      | Some _ => None
                      | None =>
                          let ellipsis := Some (S (length groups)) in
                          match rest' with
                          | EmptyString => Some (groups ++ [v], ellipsis)
                          | _ => parse_groups fuel rest' (groups ++ [v]) ellipsis
                          end
                      end
                    else parse_groups fuel rest (groups ++ [v]) ellipsis
                end
          end
  end.
Definition of_groups (groups : list Z) : Z := fold_left (fun acc g => acc * 65536 + g) groups 0.
Definition parse_ipv6 (s : string) : option IP :=
  let start := match drop_prefix "::" s with
               | Some "" => Some ([], Some 0%nat)
               | Some s => parse_groups 9 s [] (Some 0%nat)
               | None => parse_groups 9 s [] None
               end in
  '(groups, ellipsis) ← start;
  let n := length groups in
  if decide (n < 8)%nat then
    e ← ellipsis; Some (of_groups (take e groups ++ replicate (8 - n) 0 ++ drop e groups))
  else match ellipsis with Some _ => None | None => Some (of_groups groups) end.

(** Which of "." and ":" the text has first; a zone ("%") is never accepted. *)
Fixpoint address_family (s : string) : option bool :=
  match s with
  | EmptyString => None
  | String c t => if decide (c = dot) then Some true else if decide (c = colon) then Some false
                  else if decide (c = Ascii.ascii_of_nat 37) then None else address_family t
  end.
(** netip.ParseAddr, with the length of the address in bits. *)
Definition parse_addr (s : string) : option (IP * Z) :=
  match address_family s with
  | Some true => v4 ← parse_ipv4 s; Some (mapped v4, 32)
  | Some false => ip ← parse_ipv6 s; Some (ip, 128)
  | None => None
  end.
Definition ParseIP (s : string) : option IP := fst <$> parse_addr s.

(** A network: its masked address, the length of the prefix and of the mask. *)
Record IPNet := mkIPNet { nt_IP : IP; nt_ones : Z; nt_bits : Z }.
Definition CIDRMask (ones bits : Z) (x : Z) : Z := x / 2 ^ (bits - ones) * 2 ^ (bits - ones).
Definition make_net (ip : IP) (ones bits : Z) : IPNet :=
  mkIPNet (if bits =? 32 then mapped (CIDRMask ones 32 (ip mod 2 ^ 32)) else CIDRMask ones 128 ip) ones bits.
(** The prefix length: digits only. *)
Definition ParseCIDR (s : string) : option IPNet :=
  '(addr, mask) ← cut "/" s;
  '(ip, bits) ← parse_addr addr;
  n ← (match mask with EmptyString => None | _ => digits 0 mask end);
  if n <=? bits then Some (make_net ip n bits) else None.
(** A 16-byte mask applies its last four bytes to an IPv4 address; addresses of
    different lengths do not match. *)
Definition IPNet_Contains (n : IPNet) (ip : IP) : bool :=
  let same ones bits x y := x / 2 ^ (bits - ones) =? y / 2 ^ (bits - ones) in
  match To4 (nt_IP n), To4 ip with
  | Some x, Some y => same (if nt_bits n =? 32 then nt_ones n else Z.max 0 (nt_ones n - 96)) 32 x y
  | None, None => (nt_bits n =? 128) && same (nt_ones n) 128 (nt_IP n) ip
  | _, _ => false
  end.

(** ** Kinds of addresses *)

Definition IsUnspecified (ip : IP) : bool := (ip =? mapped 0) || (ip =? 0).
Definition IsLoopback (ip : IP) : bool :=
  match To4 ip with Some v4 => bits 32 24 v4 =? 127 | None => ip =? 1 end.
Definition IsLinkLocalUnicast (ip : IP) : bool :=
  match To4 ip with Some v4 => bits 32 16 v4 =? 169 * 256 + 254 | None => bits 128 118 ip =? 1018 end.
Definition IsLinkLocalMulticast (ip : IP) : bool :=
  match To4 ip with
  | Some v4 => bits 32 8 v4 =? 224 * 65536
  | None => (bits 128 120 ip =? 255) && (bits 116 112 ip =? 2)
  end.
Definition IsInterfaceLocalMulticast (ip : IP) : bool := (bits 128 120 ip =? 255) && (bits 116 112 ip =? 1).
Definition IsPrivate (ip : IP) : bool :=
  match To4 ip with
  | Some v4 => (bits 32 24 v4 =? 10) || (bits 32 20 v4 =? 172 * 16 + 1) || (bits 32 16 v4 =? 192 * 256 + 168)
  | None => bits 128 121 ip =? 126
  end.

(** ** Host and port *)

Fixpoint last_cut (sep : Ascii.ascii) (s : string) : option (string * string) :=
  match s with
  | EmptyString => None
  | String a t => match last_cut sep t with
                  | Some (x, r) => Some (String a x, r)
                  | None => if decide (a = sep) then Some ("", t) else None
                  end
  end.
Definition bracket_open : string := "[".
Definition bracket_close : string := "]".
(** net.SplitHostPort: the port follows the last colon; a host with colons is in
    brackets. *)
Definition SplitHostPort (hostport : string) : option (string * string) :=
  '(host, port) ← last_cut colon hostport;
  match drop_prefix bracket_open hostport with
  | Some inside =>
      '(h, after) ← cut bracket_close inside;
      if decide (after = String colon port) then
        if GoStrings.Contains h bracket_open || GoStrings.Contains port bracket_open || GoStrings.Contains port bracket_close
        then None else Some (h, port)
      else None
  | None =>
      if GoStrings.Contains host ":" || GoStrings.Contains hostport bracket_open || GoStrings.Contains hostport bracket_close
      then None else Some (host, port)
  end.

(** ** Examples and facts *)

Example parse_examples :
  ParseIP "127.0.0.1" = Some (IPv4 127 0 0 1) /\ ParseIP "::1" = Some 1 /\ ParseIP "::" = Some 0 /\
  ParseIP "::ffff:10.0.0.1" = ParseIP "10.0.0.1" /\ ParseIP "1:2:3:4:5:6:7::" = ParseIP "1:2:3:4:5:6:7:0" /\
  ParseIP "fe80::1%eth0" = None /\ ParseIP "1.2.3.04" = None /\ ParseIP "1:2:3:4:5:6:7:8::" = None /\
  ParseIP "1::2::3" = None /\ ParseIP "12345::" = None /\ ParseIP "1.2.3" = None /\ ParseIP "" = None.
Proof. vm_compute. repeat split. Qed.
Example cidr_examples :
  (fun n => IPNet_Contains n (IPv4 10 1 2 3)) <$> ParseCIDR "10.0.0.0/8" = Some true /\
  (fun n => IPNet_Contains n (IPv4 11 1 2 3)) <$> ParseCIDR "10.0.0.0/8" = Some false /\
  (fun n => IPNet_Contains n (IPv4 10 1 2 3)) <$> ParseCIDR "::/0" = Some false /\
  (fun n => IPNet_Contains n (IPv4 10 1 2 3)) <$> ParseCIDR "::ffff:0:0/96" = Some true /\
  ParseCIDR "10.0.0.0/33" = None /\ ParseCIDR "10.0.0.0" = None.
Proof. vm_compute. repeat split. Qed.
Example host_port_examples :
  SplitHostPort "[::1]:80" = Some ("::1", "80") /\ SplitHostPort "a:b:80" = None /\ SplitHostPort "example.com:443" = Some ("example.com", "443") /\
  SplitHostPort "example.com" = None /\ SplitHostPort "[::1]" = None.
Proof. vm_compute. repeat split. Qed.

(** ** Lists of addresses (src/common/ip.go) *)

Definition IsIP (s : string) : bool := bool_decide (is_Some (ParseIP s)).
Definition private : list IPNet :=
  [make_net (IPv4 10 0 0 0) 8 32; make_net (IPv4 172 16 0 0) 12 32; make_net (IPv4 192 168 0 0) 16 32].
Definition IsPrivateIP (ip : IP) : bool :=
  IsLoopback ip || IsLinkLocalUnicast ip || IsLinkLocalMulticast ip || existsb (fun n => IPNet_Contains n ip) private.
(** Entries that are neither a network nor an address are skipped. *)
Definition in_entry (ip : IP) (cidr : string) : bool :=
  match ParseCIDR cidr with
  | Some network => IPNet_Contains network ip
  | None => match ParseIP cidr with Some whitelistIP => ip =? whitelistIP | None => false end
  end.
Definition IsIpInCIDRList (ip : IP) (cidrList : list string) : bool := existsb (in_entry ip) cidrList.

(** ** Private addresses *)

Definition privateIPv4Nets : list IPNet :=
  [make_net (IPv4 0 0 0 0) 8 32; make_net (IPv4 10 0 0 0) 8 32; make_net (IPv4 100 64 0 0) 10 32;
   make_net (IPv4 127 0 0 0) 8 32; make_net (IPv4 169 254 0 0) 16 32; make_net (IPv4 172 16 0 0) 12 32;
   make_net (IPv4 192 0 0 0) 24 32; make_net (IPv4 192 0 2 0) 24 32; make_net (IPv4 192 168 0 0) 16 32;
   make_net (IPv4 198 18 0 0) 15 32; make_net (IPv4 198 51 100 0) 24 32; make_net (IPv4 203 0 113 0) 24 32;
   make_net (IPv4 224 0 0 0) 4 32; make_net (IPv4 240 0 0 0) 4 32; make_net (IPv4 255 255 255 255) 32 32].
Definition privateIPv6Nets : list IPNet :=
  omap ParseCIDR ["::/128"; "::1/128"; "::ffff:0:0/96"; "64:ff9b::/96"; "100::/64"; "2001::/23"; "2001:db8::/32";
                  "fc00::/7"; "fe80::/10"; "ff00::/8"].
(** [None]: nil. *)
Definition isPrivateIP (ip : option IP) : bool :=
  match ip with
  | None => true
  | Some ip =>
      if IsUnspecified ip then true
      else if IsLoopback ip || IsLinkLocalUnicast ip || IsLinkLocalMulticast ip then true
      else if IsInterfaceLocalMulticast ip then true
      else match To4 ip with
           | Some _ => existsb (fun n => IPNet_Contains n ip) privateIPv4Nets
           | None => existsb (fun n => IPNet_Contains n ip) privateIPv6Nets || IsPrivate ip
           end
  end.

(** ** Port ranges *)

Definition minus : Ascii.ascii := Ascii.ascii_of_nat 45.
Definition bad_port (port : Z) : bool := (port <? 1) || (port >? 65535).
(** One entry, trimmed: the ports it adds. *)
Definition port_range (config : string) : result error (list Z) :=
  if decide (config = "") then Ok []
  else if Contains config "-" then
    match SplitByte config minus with
    | [a; b] =>
        match Atoi (TrimSpace a) with
        | None => Err (ErrNew ("invalid start port in range " +:+ config))
        | Some startPort =>
            match Atoi (TrimSpace b) with
            | None => Err (ErrNew ("invalid end port in range " +:+ config))
            | Some endPort =>
                if startPort >? endPort then
                  Err (ErrNew ("invalid port range " +:+ config +:+ ": start port cannot be greater than end port"))
                else if bad_port startPort || bad_port endPort then
                  Err (ErrNew ("port range " +:+ config +:+ " contains invalid port numbers (must be 1-65535)"))
                else Ok (seqZ startPort (endPort - startPort + 1))
            end
        end
    | _ => Err (ErrNew ("invalid port range format: " +:+ config))
    end
  else
    match Atoi config with
    | None => Err (ErrNew ("invalid port number: " +:+ config))
    | Some port =>
        if bad_port port then Err (ErrNew ("invalid port number " +:+ Itoa port +:+ " (must be 1-65535)")) else Ok [port]
    end.
Fixpoint parsePortRanges (portConfigs : list string) : result error (list Z) :=
  match portConfigs with
  | [] => Ok []
  | config :: portConfigs =>
      match port_range (TrimSpace config) with
      | Err e => Err e
      | Ok ports => match parsePortRanges portConfigs with Ok rest => Ok (ports ++ rest) | Err e => Err e end
      end
  end.

(** ** The checks *)

Record SSRFProtection := mkProtection {
  AllowPrivateIp : bool;
  DomainFilterMode : bool;
  DomainList : list string;
  IpFilterMode : bool;
  IpList : list string;
  AllowedPorts : list Z;
  ApplyIPFilterForDomain : bool;
}.
Definition DefaultSSRFProtection : SSRFProtection := mkProtection false true [] true [] [] false.

(** The settings (src/setting/system_setting/fetch_setting.go). *)
Record FetchSetting := mkFetchSetting {
  fe_EnableSSRFProtection : bool;
  fe_AllowPrivateIp : bool;
  fe_DomainFilterMode : bool;
  fe_IpFilterMode : bool;
  fe_DomainList : list string;
  fe_IpList : list string;
  fe_AllowedPorts : list string;
  fe_ApplyIPFilterForDomain : bool;
}.
Definition defaultFetchSetting : FetchSetting :=
  mkFetchSetting true false false false [] [] ["80"; "443"; "8080"; "8443"] true.

Definition NewSSRFProtectionFromFetchSetting (f : FetchSetting) : result error SSRFProtection :=
  match parsePortRanges (fe_AllowedPorts f) with
  | Err _ => Err (ErrNew "request reject - invalid port configuration")
  | Ok ports => Ok (mkProtection (fe_AllowPrivateIp f) (fe_DomainFilterMode f) (fe_DomainList f) (fe_IpFilterMode f)
                      (fe_IpList f) ports (fe_ApplyIPFilterForDomain f))
  end.

Section ssrf.
(** strings.ToLower, url.Parse (scheme, host with port, host name) and net.LookupIP. *)
Context (ToLower : string -> string) (url_parse : string -> option (string * string * string)).

Definition isAllowedPort (p : SSRFProtection) (port : Z) : bool :=
  bool_decide (AllowedPorts p = []) || bool_decide (port ∈ AllowedPorts p).
Definition domain_matches (domain item : string) : bool :=
  let item := ToLower (TrimSpace item) in
  if decide (item = "") then false
  else bool_decide (domain = item)
       || (HasPrefix item "*."
           && let suffix := TrimPrefix item "*." in HasSuffix domain ("." +:+ suffix) || bool_decide (domain = suffix)).
Definition isDomainListed (domain : string) (list : list string) : bool :=
  existsb (domain_matches (ToLower domain)) list.
Definition isDomainAllowed (p : SSRFProtection) (domain : string) : bool :=
  let listed := isDomainListed domain (DomainList p) in
  if DomainFilterMode p then listed else negb listed.
Definition isIPListed (ip : IP) (list : list string) : bool :=
  match list with [] => false | _ => IsIpInCIDRList ip list end.
Definition IsIPAccessAllowed (p : SSRFProtection) (ip : IP) : bool :=
  if isPrivateIP (Some ip) && negb (AllowPrivateIp p) then false
  else
    let listed := isIPListed ip (IpList p) in
    if IpFilterMode p then listed else negb listed.
(** The texts leave out the printed address. *)
Definition ipAccessError (p : SSRFProtection) (host : string) (ip : IP) : error :=
  ErrNew ((if isPrivateIP (Some ip) && negb (AllowPrivateIp p) then "private IP address not allowed: "
           else if IpFilterMode p then "ip not in whitelist: " else "ip in blacklist: ") +:+ host).

Definition ValidateNetworkTarget (p : SSRFProtection) (host : string) (port : Z) : result error unit :=
  let host := TrimSpace host in
  if decide (host = "") then Err (ErrNew "invalid host")
  else if bad_port port then Err (ErrNew ("invalid port: " +:+ Itoa port))
  else if negb (isAllowedPort p port) then Err (ErrNew ("port " +:+ Itoa port +:+ " is not allowed"))
  else
    match ParseIP host with
    | Some ip => if negb (IsIPAccessAllowed p ip) then Err (ipAccessError p "" ip) else Ok tt
    | None =>
        if negb (isDomainAllowed p host) then
          Err (ErrNew ((if DomainFilterMode p then "domain not in whitelist: " else "domain in blacklist: ") +:+ host))
        else Ok tt
    end.
Definition ValidateResolvedIP (p : SSRFProtection) (host : string) (ip : IP) : result error unit :=
  if negb (IsIPAccessAllowed p ip) then Err (ipAccessError p host ip) else Ok tt.
Fixpoint validate_ips (p : SSRFProtection) (host : string) (ips : list IP) : result error unit :=
  match ips with
  | [] => Ok tt
  | ip :: ips => match ValidateResolvedIP p host ip with Err e => Err e | Ok _ => validate_ips p host ips end
  end.
Definition ValidateURL (LookupIP : string -> result error (list IP)) (p : SSRFProtection) (urlStr : string) : result error unit :=
  match url_parse urlStr with
  | None => Err (ErrNew "invalid URL format")
  | Some (scheme, urlHost, Hostname) =>
      if negb (bool_decide (scheme = "http")) && negb (bool_decide (scheme = "https")) then
        Err (ErrNew ("unsupported protocol: " +:+ scheme +:+ " (only http/https allowed)"))
      else
        let '(host, portStr) := default (Hostname, if bool_decide (scheme = "https") then "443" else "80") (SplitHostPort urlHost) in
        match Atoi portStr with
        | None => Err (ErrNew ("invalid port: " +:+ portStr))
        | Some port =>
            match ValidateNetworkTarget p host port with
            | Err e => Err e
            | Ok _ =>
                if bool_decide (is_Some (ParseIP host)) || negb (ApplyIPFilterForDomain p) then Ok tt
                else match LookupIP host with
                     | Err _ => Err (ErrNew ("DNS resolution failed for " +:+ host))
                     | Ok ips => validate_ips p host ips
                     end
            end
        end
  end.
Definition ValidateURLWithFetchSetting (LookupIP : string -> result error (list IP)) (urlStr : string) (f : FetchSetting)
    : result error unit :=
  if negb (fe_EnableSSRFProtection f) then Ok tt
  else match NewSSRFProtectionFromFetchSetting f with
       | Err e => Err e
       | Ok protection => ValidateURL LookupIP protection urlStr
       end.

(** ** The protected dialer (src/service/protected_fetch_client.go) *)

Definition currentFetchProtection (f : FetchSetting) : result error (option SSRFProtection) :=
  if negb (fe_EnableSSRFProtection f) then Ok None
  else match NewSSRFProtectionFromFetchSetting f with Err e => Err e | Ok p => Ok (Some p) end.

(** What is dialed: JoinHostPort of an address, or the text as it came. *)
Inductive address := AddrIP (ip : IP) (port : string) | AddrText (addr : string).
Definition networkAllowsIP (network : string) (ip : IP) : bool :=
  if decide (network = "tcp4") then bool_decide (is_Some (To4 ip))
  else if decide (network = "tcp6") then bool_decide (To4 ip = None)
  else true.

Section dialer.
Context {Conn : Type} (dial : string -> address -> result error Conn).
(** The result of a dial and the addresses it tried, in order. *)
#[local] Abbreviation dialed := (result error Conn * list address)%type.
Definition dial_one (network : string) (a : address) : dialed := (dial network a, [a]).
Fixpoint dial_first (network portText : string) (ips : list IP) (lastDialErr : error) : dialed :=
  match ips with
  | [] => (Err lastDialErr, [])
  | ip :: ips =>
      match dial network (AddrIP ip portText) with
      | Ok conn => (Ok conn, [AddrIP ip portText])
      | Err e => let '(r, tried) := dial_first network portText ips e in (r, AddrIP ip portText :: tried)
      end
  end.
(** The addresses that are not nil and fit the network; one that is not allowed ends
    the dial. *)
Fixpoint usable_ips (p : SSRFProtection) (network host : string) (resolved : list (option IP)) : result error (list IP) :=
  match resolved with
  | [] => Ok []
  | None :: resolved => usable_ips p network host resolved
  | Some ip :: resolved =>
      if negb (networkAllowsIP network ip) then usable_ips p network host resolved
      else match ValidateResolvedIP p host ip with
           | Err e => Err e
           | Ok _ => match usable_ips p network host resolved with Ok ips => Ok (ip :: ips) | Err e => Err e end
           end
  end.
Definition DialContext (getProtection : result error (option SSRFProtection))
    (LookupIPAddr : string -> result error (list (option IP))) (network addr : string) : dialed :=
  match getProtection with
  | Err e => (Err e, [])
  | Ok None => dial_one network (AddrText addr)
  | Ok (Some protection) =>
      match SplitHostPort addr with
      | None => (Err (ErrNew ("invalid dial address " +:+ addr)), [])
      | Some (host, portText) =>
          match Atoi portText with
          | None => (Err (ErrNew ("invalid port: " +:+ portText)), [])
          | Some port =>
              match ValidateNetworkTarget protection host port with
              | Err e => (Err e, [])
              | Ok _ =>
                  match ParseIP host with
                  | Some ip => dial_one network (AddrIP ip portText)
                  | None =>
                      if negb (ApplyIPFilterForDomain protection) then dial_one network (AddrText addr)
                      else
                        match LookupIPAddr host with
                        | Err _ => (Err (ErrNew ("DNS resolution failed for " +:+ host)), [])
                        | Ok resolved =>
                            match usable_ips protection network host resolved with
                            | Err e => (Err e, [])
                            | Ok ips => dial_first network portText ips
                                          (ErrNew ("DNS resolution for " +:+ host +:+ " returned no usable IP addresses"))
                            end
                        end
                  end
              end
          end
      end
  end.
End dialer.
End ssrf.
