(* ===== verification/SsrfProofs.v ===== *)
(** * Facts about the protection of fetches

    What the dialer may connect to, which addresses count as private, and the port
    ranges of the settings; at the end two addresses that slip through. *)

From S2P Require Import Prelude GoStd Ssrf.
Import GoStrings GoText.

(** ** A parsed address has no white space around it *)

Lemma inner_digit c d : digit c = Some d -> inner c = true.
Proof.
  unfold digit, inner. destruct ((48 <=? Z.of_nat (Ascii.nat_of_ascii c)) && _) eqn:E; [|done]. intros _.
  apply andb_true_iff in E as [H1%Z.leb_le H2%Z.leb_le]. apply andb_true_iff. split; apply Nat.leb_le; lia.
Qed.
Lemma inner_hex c d : hex_digit c = Some d -> inner c = true.
Proof.
  unfold hex_digit, inner. intros H. apply andb_true_iff.
  repeat match type of H with (if ?b then _ else _) = _ => destruct b eqn:?E; [|clear E] end; [..|done].
  all: clear H; match goal with E : _ && _ = true |- _ => apply andb_true_iff in E as [H1%Z.leb_le H2%Z.leb_le] end.
  all: split; apply Nat.leb_le; lia.
Qed.
Lemma digits_inner s acc z : digits acc s = Some z -> all_bytes inner s = true.
Proof.
  revert acc. induction s as [|c s IH]; intros acc; simpl; [done|]. destruct (digit c) as [d|] eqn:E; [|done].
  intros H. by rewrite (inner_digit c d E), (IH _ H).
Qed.
Lemma octet_inner s z : octet s = Some z -> all_bytes inner s = true.
Proof.
  unfold octet. destruct s as [|c s]; [done|]. case_decide; [done|]. intros (n & E & _)%bind_Some. by eapply digits_inner.
Qed.
Lemma split_inner s c l : inner c = true -> SplitByte s c = l -> Forall (fun x => all_bytes inner x = true) l -> all_bytes inner s = true.
Proof.
  intros Hc. revert l. induction s as [|a s IH]; intros l; simpl; [by intros <-|]. case_decide as Ha.
  - subst. intros <- Hl. inversion_clear Hl. rewrite Hc. by eapply IH.
  - destruct (SplitByte s c) as [|x rest] eqn:E; intros <- Hl; inversion_clear Hl as [|? ? Hx Hr].
    + simpl in Hx. apply andb_true_iff in Hx as [-> _]. by apply (IH []).
    + simpl in Hx. apply andb_true_iff in Hx as [-> Hx]. apply (IH (x :: rest)); [done|by constructor].
Qed.
Lemma ipv4_inner s v : parse_ipv4 s = Some v -> all_bytes inner s = true.
Proof.
  unfold parse_ipv4. destruct (SplitByte s dot) as [|a [|b [|c [|d [|e l]]]]] eqn:E; try done.
  intros (? & Ha & (? & Hb & (? & Hc & (? & Hd & _)%bind_Some)%bind_Some)%bind_Some)%bind_Some.
  apply (split_inner s dot _ eq_refl E). repeat constructor; by eapply octet_inner.
Qed.
Lemma span_hex_inner s acc n v rest : span_hex acc s = (n, v, rest) ->
  all_bytes inner rest = true -> all_bytes inner s = true.
Proof.
  revert acc n v. induction s as [|c s IH]; intros acc n v; simpl; [done|]. destruct (hex_digit c) as [d|] eqn:E.
  - destruct (span_hex (16 * acc + d) s) as [[n' v'] r] eqn:Es. intros [= <- <- <-] Hr. by rewrite (inner_hex c d E), (IH _ _ _ Es Hr).
  - by intros [= <- <- <-].
Qed.
Lemma groups_inner fuel s groups ellipsis r : parse_groups fuel s groups ellipsis = Some r -> all_bytes inner s = true.
Proof.
  revert s groups ellipsis. induction fuel as [|fuel IH]; intros s groups ellipsis; simpl; [done|].
  case_decide; [done|]. destruct (span_hex 0 s) as [[n v] rest] eqn:Es. case_decide; [done|].
  destruct rest as [|c rest]; [by intros _; eapply span_hex_inner|]. case_decide as Hc.
  - case_decide; [done|]. case_decide; [done|]. intros (v4 & E & _)%bind_Some. by eapply ipv4_inner.
  - destruct (bool_decide (c = colon)) eqn:Ec; [|done]. apply bool_decide_eq_true in Ec as ->. simpl.
    destruct rest as [|c' rest']; [done|]. intros Hr. apply (span_hex_inner _ _ _ _ _ Es). simpl.
    case_decide as Hc'.
    + subst. destruct ellipsis; [done|]. destruct rest'; [done|]. by apply IH in Hr.
    + by apply IH in Hr.
Qed.
Lemma drop_double_colon s t : drop_prefix "::" s = Some t -> s = "::" +:+ t.
Proof.
  destruct s as [|a [|b s]]; simpl; try done; repeat case_decide; try done. by intros [= ->]; subst.
Qed.
Lemma ipv6_inner s ip : parse_ipv6 s = Some ip -> all_bytes inner s = true.
Proof.
  unfold parse_ipv6. intros ([groups e] & E & _)%bind_Some.
  destruct (drop_prefix "::" s) as [t|] eqn:Ed; [|by eapply groups_inner].
  apply drop_double_colon in Ed as ->. destruct t as [|c t]; [done|]. apply groups_inner in E. by rewrite all_bytes_app, E.
Qed.
Lemma ParseIP_trim s ip : ParseIP s = Some ip -> TrimSpace s = s.
Proof.
  unfold ParseIP, parse_addr. intros H. apply TrimSpace_inner. destruct (address_family s) as [[]|]; [| |done].
  - destruct (parse_ipv4 s) eqn:E; [|done]. by eapply ipv4_inner.
  - destruct (parse_ipv6 s) eqn:E; [|done]. by eapply ipv6_inner.
Qed.

(** ** The dialer *)

Section dialer.
Context (ToLower : string -> string) {Conn : Type} (dial : string -> address -> result error Conn).

(** What the protection has to say about a dialed address of a connection to [addr]. *)
Definition permitted (p : SSRFProtection) (addr : string) (a : address) : Prop :=
  exists host portText port, SplitHostPort addr = Some (host, portText) /\ Atoi portText = Some port /\
    bad_port port = false /\ isAllowedPort p port = true /\
    match a with
    | AddrIP ip portText' => portText' = portText /\ IsIPAccessAllowed p ip = true /\
        (ParseIP host = Some ip \/ ParseIP host = None /\ ApplyIPFilterForDomain p = true /\
           (ParseIP (TrimSpace host) = None -> isDomainAllowed ToLower p (TrimSpace host) = true))
    | AddrText text => text = addr /\ ParseIP host = None /\ ApplyIPFilterForDomain p = false
    end.

Lemma target_valid p host port : ValidateNetworkTarget ToLower p host port = Ok tt ->
  bad_port port = false /\ isAllowedPort p port = true /\
  match ParseIP (TrimSpace host) with
  | Some ip => IsIPAccessAllowed p ip = true
  | None => isDomainAllowed ToLower p (TrimSpace host) = true
  end.
Proof.
  unfold ValidateNetworkTarget. case_decide; [done|]. destruct (bad_port port); [done|].
  destruct (isAllowedPort p port); [|done]. simpl.
  destruct (ParseIP _); [destruct (IsIPAccessAllowed p _)|destruct (isDomainAllowed _ p _)]; done.
Qed.
Lemma usable_ips_allowed p network host resolved ips : usable_ips p network host resolved = Ok ips ->
  Forall (fun ip => IsIPAccessAllowed p ip = true /\ Some ip ∈ resolved /\ networkAllowsIP network ip = true) ips.
Proof.
  revert ips. induction resolved as [|[ip|] resolved IH]; intros ips; simpl; [by intros [= <-]| |].
  - assert (Hmono : forall ips', usable_ips p network host resolved = Ok ips' ->
      Forall (fun x => IsIPAccessAllowed p x = true /\ Some x ∈ Some ip :: resolved /\ networkAllowsIP network x = true) ips').
    { intros ips' H. eapply Forall_impl; [by apply IH|]. simpl. intros x (Ha & Hr & Hn). split_and!; try done. by right. }
    destruct (networkAllowsIP network ip) eqn:En; simpl; [|by apply Hmono].
    unfold ValidateResolvedIP. destruct (IsIPAccessAllowed p ip) eqn:Ea; simpl; [|done].
    destruct (usable_ips _ _ _ _) as [ips'|e] eqn:E; [|done]. intros [= <-]. constructor; [|by apply Hmono].
    split_and!; try done. by left.
  - intros H. eapply Forall_impl; [by apply IH|]. simpl. intros x (Ha & Hr & Hn). split_and!; try done. by right.
Qed.
Lemma dial_first_tries network portText ips e :
  Forall (fun a => exists ip, a = AddrIP ip portText /\ ip ∈ ips) (dial_first dial network portText ips e).2.
Proof.
  revert e. induction ips as [|ip ips IH]; intros e; simpl; [constructor|].
  destruct (dial network (AddrIP ip portText)) as [c|e'].
  - constructor; [|constructor]. exists ip. split; [done|by left].
  - specialize (IH e'). destruct (dial_first _ _ _ _ _) as [r tried]. simpl in *. constructor.
    + exists ip. split; [done|by left].
    + eapply Forall_impl; [exact IH|]. simpl. intros a (x & -> & Hx). exists x. split; [done|by right].
Qed.

(** C28 With the protection on, whatever the resolver answers and whichever dials fail, the
    dialer connects only to allowed ports and, for a host that is an address or when
    the filter applies to domains, only to addresses that the access rules allow: never
    to a private one unless private addresses are allowed.  A host name is dialed
    unresolved only when the filter does not apply to domains. *)
Theorem dials_are_permitted p LookupIPAddr network addr :
  let '(r, tried) := DialContext ToLower dial (Ok (Some p)) LookupIPAddr network addr in
  Forall (permitted p addr) tried /\
  Forall (fun a => match a with
                   | AddrIP ip _ => isPrivateIP (Some ip) = false \/ AllowPrivateIp p = true
                   | AddrText _ => ApplyIPFilterForDomain p = false
                   end) tried.
Proof.
  destruct (DialContext _ _ _ _ _ _) as [r tried] eqn:E.
  assert (H : Forall (permitted p addr) tried).
  { unfold DialContext in E. destruct (SplitHostPort addr) as [[host portText]|] eqn:Eh; [|by injection E as <- <-].
    destruct (Atoi portText) as [port|] eqn:Ep; [|by injection E as <- <-].
    destruct (ValidateNetworkTarget _ _ _ _) as [[]|e] eqn:Ev; [|by injection E as <- <-].
    apply target_valid in Ev as (Hb & Ha & Hv). destruct (ParseIP host) as [ip|] eqn:Ei.
    - injection E as <- <-. constructor; [|constructor]. exists host, portText, port. split_and!; try done.
      + by rewrite (ParseIP_trim host ip Ei), Ei in Hv.
      + by left.
    - destruct (ApplyIPFilterForDomain p) eqn:Ef; simpl in E; [|injection E as <- <-; constructor; [|constructor]].
      2:{ by exists host, portText, port. }
      destruct (LookupIPAddr host) as [resolved|]; [|by injection E as <- <-].
      destruct (usable_ips _ _ _ _) as [ips|e] eqn:Ec; [|by injection E as <- <-].
      apply usable_ips_allowed in Ec. rewrite Forall_forall in Ec.
      pose proof (dial_first_tries network portText ips
        (ErrNew ("DNS resolution for " +:+ host +:+ " returned no usable IP addresses"))) as Ht.
      rewrite E in Ht. simpl in Ht. eapply Forall_impl; [exact Ht|]. intros a (ip & -> & Hip).
      destruct (Ec ip Hip) as (Hal & _). exists host, portText, port. split_and!; try done.
      right. split_and!; try done. intros Hn. by rewrite Hn in Hv. }
  split; [done|]. eapply Forall_impl; [exact H|]. intros a (host & portText & port & _ & _ & _ & _ & Ha).
  destruct a as [ip t|t]; [|by destruct Ha as (_ & _ & ?)]. destruct Ha as (_ & Ha & _). unfold IsIPAccessAllowed in Ha.
  destruct (isPrivateIP (Some ip)); [|by left]. destruct (AllowPrivateIp p); [by right|done].
Qed.
End dialer.

(** ** Private addresses are intervals *)

Definition in_range (ip : IP) (r : IP * IP) : bool := (r.1 <=? ip) && (ip <=? r.2).
Definition range_of (n : IPNet) : IP * IP := (nt_IP n, nt_IP n + 2 ^ (nt_bits n - nt_ones n) - 1).
(** An IPv4 network, or an IPv6 network away from the IPv4-mapped addresses. *)
Definition plain (n : IPNet) : bool :=
  let size := 2 ^ (nt_bits n - nt_ones n) in
  (nt_IP n mod size =? 0) && (0 <=? nt_ones n) && (nt_ones n <=? nt_bits n)
  && (if nt_bits n =? 32 then (mapped 0 <=? nt_IP n) && (nt_IP n <? mapped (2 ^ 32))
      else (nt_bits n =? 128) && ((nt_IP n + size <=? mapped 0) || (mapped (2 ^ 32) <=? nt_IP n))).

Lemma To4_spec ip : To4 ip = if (mapped 0 <=? ip) && (ip <? mapped (2 ^ 32)) then Some (ip - mapped 0) else None.
Proof.
  unfold To4, mapped. change (2 ^ 32) with 4294967296. pose proof (Z.div_mod ip 4294967296 ltac:(lia)) as E.
  pose proof (Z.mod_pos_bound ip 4294967296 ltac:(lia)).
  destruct (Z.eqb_spec (ip / 4294967296) 65535) as [H1|H1]; destruct ((_ <=? ip) && _) eqn:H2.
  - f_equal. lia.
  - apply andb_false_iff in H2 as [H2|H2]; [apply Z.leb_gt in H2|apply Z.ltb_ge in H2]; lia.
  - apply andb_true_iff in H2 as [H2%Z.leb_le H3%Z.ltb_lt]. exfalso. apply H1. lia.
  - done.
Qed.
Lemma same_prefix size a x : 0 < size -> a mod size = 0 -> (a / size =? x / size) = (a <=? x) && (x <=? a + size - 1).
Proof.
  intros Hs Ha. pose proof (Z.div_mod a size ltac:(lia)) as Ea. pose proof (Z.div_mod x size ltac:(lia)) as Ex.
  pose proof (Z.mod_pos_bound x size Hs). apply eq_true_iff_eq. rewrite Z.eqb_eq, andb_true_iff, !Z.leb_le. split.
  - intros E. rewrite E in Ea. lia.
  - intros [H1 H2]. apply Z.le_antisymm; [apply Z.div_le_mono; lia|].
    assert (x < size * (a / size + 1)) by lia. apply Z.lt_succ_r, Z.div_lt_upper_bound; lia.
Qed.
Lemma contains_range n ip : plain n = true -> IPNet_Contains n ip = in_range ip (range_of n).
Proof.
  unfold plain, IPNet_Contains, in_range, range_of. destruct n as [net ones len]. simpl. set (size := 2 ^ (len - ones)).
  rewrite !andb_true_iff, Z.eqb_eq, !Z.leb_le. intros [[[Ha H0] H1] H]. assert (Hs : 0 < size) by (apply Z.pow_pos_nonneg; lia).
  rewrite !To4_spec. destruct (Z.eqb_spec len 32) as [->|Hl].
  - apply andb_true_iff in H as [H2 H3]. rewrite H2, H3. simpl. apply Z.leb_le in H2. apply Z.ltb_lt in H3.
    assert (Hd : mapped 0 mod size = 0 /\ mapped (2 ^ 32) mod size = 0).
    { assert (Hp : 2 ^ 32 = size * 2 ^ ones) by (unfold size; rewrite <- Z.pow_add_r by lia; f_equal; lia).
      split; apply Z.mod_divide; try lia; unfold mapped; rewrite Hp; [exists (2 ^ ones * 65535)|exists (2 ^ ones * 65535 + 2 ^ ones)]; lia. }
    destruct Hd as [Hd Hd'].
    assert (Hfit : net + size <= mapped (2 ^ 32)).
    { clearbody size. apply Z.mod_divide in Ha as [p Hp], Hd' as [q Hq]; [|lia..].
      generalize dependent (mapped (2 ^ 32)). intros m Hm Hq. subst. assert (p < q) by nia. nia. }
    destruct ((mapped 0 <=? ip) && (ip <? mapped (2 ^ 32))) eqn:Hip.
    + change (2 ^ (32 - ones)) with size.
      rewrite same_prefix by (done || (rewrite Zminus_mod, Ha, Hd; by rewrite Z.sub_diag, Z.mod_0_l by lia)).
      apply eq_true_iff_eq. rewrite !andb_true_iff, !Z.leb_le. lia.
    + apply andb_false_iff in Hip. symmetry. apply andb_false_iff. rewrite Z.leb_gt, Z.ltb_ge in Hip. rewrite !Z.leb_gt. lia.
  - apply andb_true_iff in H as [->%Z.eqb_eq H]. apply orb_true_iff in H. rewrite !Z.leb_le in H.
    destruct ((mapped 0 <=? net) && (net <? mapped (2 ^ 32))) eqn:Hn.
    { apply andb_true_iff in Hn as [Hn1%Z.leb_le Hn2%Z.ltb_lt]. lia. }
    destruct ((mapped 0 <=? ip) && (ip <? mapped (2 ^ 32))) eqn:Hip.
    + apply andb_true_iff in Hip as [Hi1%Z.leb_le Hi2%Z.ltb_lt]. symmetry. apply andb_false_iff. rewrite !Z.leb_gt. lia.
    + simpl. change (2 ^ (128 - ones)) with size. by apply same_prefix.
Qed.

(** The reserved blocks, as texts. *)
Definition blocks (texts : list (string * string)) : list (IP * IP) :=
  omap (fun ab => a ← ParseIP ab.1; b ← ParseIP ab.2; Some (a, b)) texts.
Definition reserved4 : list (IP * IP) := blocks
  [("0.0.0.0", "0.255.255.255"); ("10.0.0.0", "10.255.255.255"); ("100.64.0.0", "100.127.255.255");
   ("127.0.0.0", "127.255.255.255"); ("169.254.0.0", "169.254.255.255"); ("172.16.0.0", "172.31.255.255");
   ("192.0.0.0", "192.0.0.255"); ("192.0.2.0", "192.0.2.255"); ("192.168.0.0", "192.168.255.255");
   ("198.18.0.0", "198.19.255.255"); ("198.51.100.0", "198.51.100.255"); ("203.0.113.0", "203.0.113.255");
   ("224.0.0.0", "239.255.255.255"); ("240.0.0.0", "255.255.255.255")].
Definition reserved6 : list (IP * IP) := blocks
  [("::", "::"); ("::1", "::1"); ("64:ff9b::", "64:ff9b::ffff:ffff"); ("100::", "100::ffff:ffff:ffff:ffff");
   ("2001::", "2001:1ff:ffff:ffff:ffff:ffff:ffff:ffff"); ("2001:db8::", "2001:db8:ffff:ffff:ffff:ffff:ffff:ffff");
   ("fc00::", "fdff:ffff:ffff:ffff:ffff:ffff:ffff:ffff"); ("fe80::", "febf:ffff:ffff:ffff:ffff:ffff:ffff:ffff");
   ("ff00::", "ffff:ffff:ffff:ffff:ffff:ffff:ffff:ffff")].

(** Every block of [l] lies in one of [l']. *)
Definition subsumed (l l' : list (IP * IP)) : bool :=
  forallb (fun r => existsb (fun r' => (r'.1 <=? r.1) && (r.2 <=? r'.2)) l') l.
Lemma subsumed_in ip l l' : subsumed l l' = true -> existsb (in_range ip) l = true -> existsb (in_range ip) l' = true.
Proof.
  unfold subsumed. rewrite forallb_forall, !existsb_exists. intros H (r & Hr & Hin). specialize (H r Hr).
  apply existsb_exists in H as (r' & Hr' & H). exists r'. split; [done|]. unfold in_range in *.
  apply andb_true_iff in H as [H1%Z.leb_le H2%Z.leb_le], Hin as [H3%Z.leb_le H4%Z.leb_le].
  apply andb_true_iff. rewrite !Z.leb_le. lia.
Qed.
Lemma in_block ip r l : subsumed [r] l = true -> r.1 <= ip <= r.2 -> existsb (in_range ip) l = true.
Proof. intros Hs Hr. apply (subsumed_in ip [r] l Hs). simpl. unfold in_range. rewrite orb_false_r. apply andb_true_iff. by rewrite !Z.leb_le. Qed.
Lemma subsumed_eq ip l l' : subsumed l l' && subsumed l' l = true -> existsb (in_range ip) l = existsb (in_range ip) l'.
Proof. intros [H1 H2]%andb_true_iff. apply eq_true_iff_eq. split; by apply subsumed_in. Qed.
(** The blocks lie outside of the interval. *)
Definition outside (lo hi : Z) (l : list (IP * IP)) : bool := forallb (fun r => (r.2 <? lo) || (hi <=? r.1)) l.
Lemma outside_in lo hi ip l : outside lo hi l = true -> lo <= ip < hi -> existsb (in_range ip) l = false.
Proof.
  unfold outside. intros H Hip. induction l as [|r l IH]; [done|]. simpl in *. apply andb_true_iff in H as [Hr Hl].
  rewrite IH, orb_false_r by done. apply orb_true_iff in Hr. rewrite Z.ltb_lt, Z.leb_le in Hr.
  unfold in_range. apply andb_false_iff. rewrite !Z.leb_gt. lia.
Qed.
Lemma nets_range nets ip : forallb plain nets = true ->
  existsb (fun n => IPNet_Contains n ip) nets = existsb (in_range ip) (range_of <$> nets).
Proof.
  induction nets as [|n nets IH]; simpl; [done|]. rewrite andb_true_iff. intros [Hn Hs].
  by rewrite contains_range, IH.
Qed.
(** The IPv6 networks without the block of the IPv4-mapped addresses, which no IPv6
    address matches. *)
Definition other_v6 : list IPNet := List.filter plain privateIPv6Nets.
Lemma v6_mapped ip : To4 ip = None ->
  existsb (fun n => IPNet_Contains n ip) privateIPv6Nets = existsb (fun n => IPNet_Contains n ip) other_v6.
Proof.
  intros H. assert (Hm : forall n, n ∈ privateIPv6Nets -> plain n = false -> IPNet_Contains n ip = false).
  { assert (Hf : Forall (fun n => plain n = true \/ is_Some (To4 (nt_IP n))) privateIPv6Nets)
      by (repeat (constructor; [vm_compute; eauto|]); constructor).
    intros n Hn Hp. rewrite Forall_forall in Hf. destruct (Hf n Hn) as [Hp'|[v Hv]]; [congruence|].
    unfold IPNet_Contains. by rewrite Hv, H. }
  unfold other_v6. induction privateIPv6Nets as [|n nets IH]; simpl; [done|].
  destruct (plain n) eqn:E; simpl; rewrite IH; try done; try (intros m Hm'; apply Hm; by right).
  by rewrite (Hm n) by (done || by left).
Qed.

Ltac powers := repeat match goal with
  | H : context [2 ^ ?n] |- _ => let v := eval vm_compute in (2 ^ n) in change (2 ^ n) with v in H
  | |- context [2 ^ ?n] => let v := eval vm_compute in (2 ^ n) in change (2 ^ n) with v
  end.
(** [ip] lies in the block [lo, hi] of the list. *)
Ltac block lo hi := apply (in_block _ (lo, hi)); [vm_compute; reflexivity | unfold mapped; cbn [fst snd]; powers; Z.div_mod_to_equations; lia].

(** Each kind of address lies in one of the blocks. *)
Definition special (ip : IP) : bool :=
  IsUnspecified ip || (IsLoopback ip || IsLinkLocalUnicast ip || IsLinkLocalMulticast ip) || IsInterfaceLocalMulticast ip.
Lemma special_v4 v : 0 <= v < 2 ^ 32 -> special (mapped v) = true -> existsb (in_range (mapped v)) reserved4 = true.
Proof.
  intros Hv Hk. assert (E : To4 (mapped v) = Some v).
  { unfold To4, mapped. rewrite Z.mul_comm, Z.add_comm, Z.div_add, Z.div_small, Z.mod_add, Z.mod_small by lia. done. }
  unfold special, IsUnspecified, IsLoopback, IsLinkLocalUnicast, IsLinkLocalMulticast, IsInterfaceLocalMulticast, bits in Hk.
  rewrite E in Hk. rewrite !orb_true_iff, !andb_true_iff, !Z.eqb_eq in Hk. unfold mapped in *.
  rewrite (Z.mod_small v) in Hk by lia. destruct Hk as [[[H|H]|[[H|H]|H]]|[H _]]; powers.
  - block (mapped 0) (mapped 16777215).
  - lia.
  - block (mapped 2130706432) (mapped 2147483647).
  - block (mapped 2851995648) (mapped 2852061183).
  - block (mapped 3758096384) (mapped 4026531839).
  - exfalso. rewrite Z.mod_small in H by lia. Z.div_mod_to_equations. lia.
Qed.
Lemma special_v6 ip : To4 ip = None -> 0 <= ip < 2 ^ 128 -> special ip || IsPrivate ip = true ->
  existsb (in_range ip) reserved6 = true.
Proof.
  intros E Hip Hk. assert (H0 : ip <> mapped 0) by (intros ->; by vm_compute in E).
  unfold special, IsUnspecified, IsLoopback, IsLinkLocalUnicast, IsLinkLocalMulticast, IsInterfaceLocalMulticast, IsPrivate, bits in Hk.
  rewrite E in Hk. rewrite !orb_true_iff, !andb_true_iff, !Z.eqb_eq in Hk. clear E.
  rewrite !(Z.mod_small ip (2 ^ 128)) in Hk by lia.
  destruct Hk as [[[[H|H]|[[H|H]|[H _]]]|[H _]]|H]; powers.
  - done.
  - block 0 0.
  - block 1 1.
  - block (1018 * 2 ^ 118) (1019 * 2 ^ 118 - 1).
  - block (255 * 2 ^ 120) (2 ^ 128 - 1).
  - block (255 * 2 ^ 120) (2 ^ 128 - 1).
  - block (126 * 2 ^ 121) (127 * 2 ^ 121 - 1).
Qed.

(** An address counts as private exactly when it lies in one of the reserved blocks. *)
Theorem private_addresses ip : 0 <= ip < 2 ^ 128 ->
  isPrivateIP (Some ip) = existsb (in_range ip) (reserved4 ++ reserved6).
Proof.
  intros Hip. rewrite existsb_app.
  assert (Hs : isPrivateIP (Some ip) = special ip || match To4 ip with
                 | Some _ => existsb (fun n => IPNet_Contains n ip) privateIPv4Nets
                 | None => existsb (fun n => IPNet_Contains n ip) privateIPv6Nets || IsPrivate ip
                 end).
  { unfold isPrivateIP, special. destruct (IsUnspecified ip), (IsLoopback ip || _ || _), (IsInterfaceLocalMulticast ip); done. }
  rewrite Hs. destruct (To4 ip) as [v|] eqn:E.
  - rewrite nets_range by (vm_compute; reflexivity).
    rewrite (subsumed_eq ip (range_of <$> privateIPv4Nets) reserved4) by (vm_compute; reflexivity).
    rewrite To4_spec in E. destruct ((mapped 0 <=? ip) && (ip <? mapped (2 ^ 32))) eqn:Em; [|discriminate E].
    apply andb_true_iff in Em as [E1%Z.leb_le E2%Z.ltb_lt].
    rewrite (outside_in (mapped 0) (mapped (2 ^ 32)) ip reserved6 eq_refl (conj E1 E2)).
    pose proof (special_v4 (ip - mapped 0)) as Hk. replace (mapped (ip - mapped 0)) with ip in Hk by (unfold mapped; lia).
    unfold mapped in E1, E2, Hk. destruct (special ip); [|by rewrite orb_false_r].
    rewrite Hk by (reflexivity || lia). reflexivity.
  - rewrite (v6_mapped ip E), nets_range by (vm_compute; reflexivity).
    rewrite (subsumed_eq ip (range_of <$> other_v6) reserved6) by (vm_compute; reflexivity).
    assert (H4 : existsb (in_range ip) reserved4 = false).
    { destruct (existsb (in_range ip) reserved4) eqn:E4; [|reflexivity].
      apply (subsumed_in ip reserved4 [(mapped 0, mapped (2 ^ 32) - 1)]) in E4; [|vm_compute; reflexivity].
      simpl in E4. rewrite orb_false_r in E4. apply andb_true_iff in E4 as [H1%Z.leb_le H2%Z.leb_le]. simpl in H1, H2.
      rewrite To4_spec, (proj2 (Z.leb_le _ _) H1), (proj2 (Z.ltb_lt _ _)) in E by lia. discriminate E. }
    rewrite H4. pose proof (special_v6 ip E Hip) as Hk. rewrite (orb_comm _ (IsPrivate ip)), orb_assoc.
    destruct (special ip || IsPrivate ip); [rewrite Hk by reflexivity|]; reflexivity.
Qed.

(** ** Port ranges *)

Definition print_range (r : Z * Z) : string := Itoa r.1 +:+ "-" +:+ Itoa r.2.
Lemma digits_are_inner s : all_bytes is_digit s = true -> all_bytes inner s = true.
Proof. apply all_bytes_mono. intros a. unfold is_digit. destruct (digit a) eqn:E; [|done]. intros _. by eapply inner_digit. Qed.
Lemma no_minus s : all_bytes is_digit s = true -> all_bytes (not_byte minus) s = true.
Proof.
  apply all_bytes_mono. intros a. unfold is_digit, not_byte. destruct (bool_decide (a = minus)) eqn:E; [|done].
  apply bool_decide_eq_true in E as ->. done.
Qed.
Lemma contains_middle s t : Contains (s +:+ String minus t) "-" = true.
Proof. induction s as [|c s IH]; [by destruct t|]. simpl. rewrite IH. by apply orb_true_r. Qed.
Lemma Itoa_trim z : 0 <= z -> TrimSpace (Itoa z) = Itoa z.
Proof. intros H. by apply TrimSpace_inner, digits_are_inner, all_digits_Itoa. Qed.
Lemma port_range_print a b : 1 <= a <= b -> b <= 65535 -> port_range (TrimSpace (print_range (a, b))) = Ok (seqZ a (b - a + 1)).
Proof.
  intros Ha Hb. unfold print_range. simpl.
  assert (Da : all_bytes is_digit (Itoa a) = true) by (apply all_digits_Itoa; lia).
  assert (Db : all_bytes is_digit (Itoa b) = true) by (apply all_digits_Itoa; lia).
  rewrite TrimSpace_inner by (rewrite all_bytes_app, (digits_are_inner _ Da); simpl; by apply digits_are_inner).
  unfold port_range. rewrite decide_False by (destruct (Itoa a); done).
  change ("-" +:+ Itoa b) with (String minus (Itoa b)). rewrite contains_middle, SplitByte_app by (by apply no_minus).
  rewrite SplitByte_none by (by apply no_minus). rewrite !Itoa_trim, !Atoi_Itoa by lia.
  rewrite Z.gtb_ltb, (proj2 (Z.ltb_ge b a)) by lia. unfold bad_port.
  by rewrite !Z.gtb_ltb, !(proj2 (Z.ltb_ge _ _)) by lia.
Qed.
Lemma port_range_bounds config ports : port_range config = Ok ports -> Forall (fun port => 1 <= port <= 65535) ports.
Proof.
  unfold port_range. case_decide; [by intros [= <-]|]. unfold bad_port. destruct (Contains config "-").
  - destruct (SplitByte _ _) as [|a [|b [|]]]; try done. destruct (Atoi (TrimSpace a)) as [x|]; [|done].
    destruct (Atoi (TrimSpace b)) as [y|]; [|done]. destruct (x >? y); [done|].
    destruct ((x <? 1) || _ || _) eqn:E; [done|]. intros [= <-]. apply orb_false_iff in E as [E1 E2].
    apply orb_false_iff in E1 as [E1%Z.ltb_ge E3], E2 as [E2 E4]. rewrite Z.gtb_ltb in E4. apply Z.ltb_ge in E4.
    apply Forall_forall. intros p Hp%elem_of_seqZ. lia.
  - destruct (Atoi config) as [p|]; [|done]. destruct ((p <? 1) || _) eqn:E; [done|]. intros [= <-].
    apply orb_false_iff in E as [E1%Z.ltb_ge E2]. rewrite Z.gtb_ltb in E2. apply Z.ltb_ge in E2. by repeat constructor.
Qed.

(** Printed port ranges are read back as their ports, and whatever text is accepted
    gives ports from 1 to 65535 only. *)
Theorem port_ranges_roundtrip ranges :
  Forall (fun r => 1 <= r.1 <= r.2 /\ r.2 <= 65535) ranges ->
  parsePortRanges (print_range <$> ranges) = Ok (concat ((fun r => seqZ r.1 (r.2 - r.1 + 1)) <$> ranges)) /\
  (forall configs ports, parsePortRanges configs = Ok ports -> Forall (fun port => 1 <= port <= 65535) ports).
Proof.
  intros H. split.
  - induction H as [|[a b] ranges [Ha Hb] _ IH]; [done|]. simpl in Ha, Hb. cbn [fmap list_fmap concat parsePortRanges fst snd].
    rewrite port_range_print by done. cbn [fmap list_fmap] in IH. by rewrite IH.
  - induction configs as [|c configs IH]; intros ports; simpl; [by intros [= <-]|].
    destruct (port_range (TrimSpace c)) as [ps|] eqn:E; [|done]. destruct (parsePortRanges configs) as [rest|]; [|done].
    intros [= <-]. apply Forall_app. split; [by eapply port_range_bounds|by apply IH].
Qed.

(** ** Samples *)


Lemma private_addresses_witness :
  0 <= IPv4 100 100 0 1 < 2 ^ 128 /\
  isPrivateIP (Some (IPv4 100 100 0 1)) = existsb (in_range (IPv4 100 100 0 1)) (reserved4 ++ reserved6).
Proof. split; [by vm_compute|]. apply private_addresses. by vm_compute. Defined.
Lemma port_ranges_roundtrip_witness :
  parsePortRanges ["80-80"; "8000-8002"] = Ok [80; 8000; 8001; 8002] /\
  (forall configs ports, parsePortRanges configs = Ok ports -> Forall (fun port => 1 <= port <= 65535) ports).
Proof. apply (port_ranges_roundtrip [(80, 80); (8000, 8002)]). repeat constructor; by vm_compute. Defined.

(** The default settings, a resolver that first answers with a public address and then
    with a private one, and a dialer that always succeeds. *)
Definition default_protection : SSRFProtection := mkProtection false false [] false [] [80; 443; 8080; 8443] true.
Example default_settings : NewSSRFProtectionFromFetchSetting defaultFetchSetting = Ok default_protection.
Proof. vm_compute. reflexivity. Qed.
Definition rebound (_ : string) : result error (list (option IP)) := Ok [Some (IPv4 93 184 216 34); Some (IPv4 127 0 0 1)].
Example rebinding_stopped :
  DialContext lower_ascii (fun _ a => Ok a) (Ok (Some default_protection)) rebound "tcp" "example.com:80"
  = (Err (ErrNew "private IP address not allowed: example.com"), []).
Proof. vm_compute. reflexivity. Qed.

(** ** Gaps of the lists *)

(** The 6to4 addresses (2002::/16) and the IPv4-compatible ones of private IPv4
    addresses are not private. *)
Theorem embedded_private_passes :
  (isPrivateIP <$> [ParseIP "2002:7f00:1::"; ParseIP "2002:a9fe:a9fe::"; ParseIP "::127.0.0.1"; ParseIP "64:ff9b:1::7f00:1"])
  = [false; false; false; false] /\
  (DialContext lower_ascii (fun _ a => Ok a) (Ok (Some default_protection)) rebound "tcp" "[2002:7f00:1::]:80").2
  = [AddrIP (default 0 (ParseIP "2002:7f00:1::")) "80"].
Proof. vm_compute. repeat split. Qed.

(** A trailing dot takes a host off the list of blocked domains. *)
Theorem trailing_dot_passes :
  let p := mkProtection false false ["*.evil.example"] false [] [] false in
  isDomainAllowed lower_ascii p "www.evil.example" = false /\ isDomainAllowed lower_ascii p "www.evil.example." = true.
Proof. vm_compute. repeat split. Qed.
