(* ===== verification/StatusCodes.v ===== *)
(** * Status code rules (src/setting/operation_setting/status_code_ranges.go)

    Which upstream status codes are retried and which ones disable a channel: the
    parser of the administrator's rules, the printer, and the lookup. *)

From S2P Require Import Prelude GoStd.
Import GoStrings GoText.

Record StatusCodeRange := mkRange { sc_Start : Z; sc_End : Z }.

Definition AutomaticDisableStatusCodeRanges : list StatusCodeRange := [mkRange 401 401].
Definition AutomaticRetryStatusCodeRanges : list StatusCodeRange :=
  [mkRange 100 199; mkRange 300 399; mkRange 401 407; mkRange 409 499; mkRange 500 503;
   mkRange 505 523; mkRange 525 599].
Definition alwaysSkipRetryStatusCodes : list Z := [504; 524].
Definition alwaysSkipRetryCodes : list string := ["bad_response_body"].

Definition IsAlwaysSkipRetryStatusCode (code : Z) : bool := bool_decide (code ∈ alwaysSkipRetryStatusCodes).
Definition IsAlwaysSkipRetryCode (errorCode : string) : bool := bool_decide (errorCode ∈ alwaysSkipRetryCodes).

(** The scan stops at the first range that starts after the code. *)
Fixpoint match_ranges (ranges : list StatusCodeRange) (code : Z) : bool :=
  match ranges with
  | [] => false
  | r :: ranges =>
      if code <? sc_Start r then false
      else if code <=? sc_End r then true
      else match_ranges ranges code
  end.
Definition shouldMatchStatusCodeRanges (ranges : list StatusCodeRange) (code : Z) : bool :=
  if (code <? 100) || (code >? 599) then false else match_ranges ranges code.

(** The two globals are arguments: administrators replace them. *)
Definition ShouldDisableByStatusCode (disable : list StatusCodeRange) (code : Z) : bool :=
  shouldMatchStatusCodeRanges disable code.
Definition ShouldRetryByStatusCode (retry : list StatusCodeRange) (code : Z) : bool :=
  if IsAlwaysSkipRetryStatusCode code then false else shouldMatchStatusCodeRanges retry code.

Definition range_text (r : StatusCodeRange) : string :=
  if sc_Start r =? sc_End r then Itoa (sc_Start r)
  else Itoa (sc_Start r) +:+ "-" +:+ Itoa (sc_End r).
Definition statusCodeRangesToString (ranges : list StatusCodeRange) : string :=
  match ranges with [] => "" | _ => Join (range_text <$> ranges) "," end.

(** ** The parser *)

Definition dash : Ascii.ascii := Ascii.ascii_of_nat 45.
Definition comma : Ascii.ascii := Ascii.ascii_of_nat 44.

Definition parseHTTPStatusCodeToken (token : string) : result error StatusCodeRange :=
  let token := TrimSpace token in
  let token := ReplaceAll token " " "" in
  if decide (token = "") then Err (ErrNew "empty token")
  else if Contains token "-" then
    match SplitByte token dash with
    | [a; b] =>
        if bool_decide (a = "") || bool_decide (b = "") then Err (ErrNew ("invalid range token: " +:+ token))
        else match Atoi a with
             | None => Err (ErrNew ("invalid range start: " +:+ token))
             | Some start =>
                 match Atoi b with
                 | None => Err (ErrNew ("invalid range end: " +:+ token))
                 | Some end_ =>
                     if start >? end_ then Err (ErrNew ("range start > end: " +:+ token))
                     else if (start <? 100) || (end_ >? 599) then
                       Err (ErrNew ("range out of bounds: " +:+ token))
                     else Ok (mkRange start end_)
                 end
             end
    | _ => Err (ErrNew ("invalid range token: " +:+ token))
    end
  else
    match Atoi token with
    | None => Err (ErrNew ("invalid status code: " +:+ token))
    | Some code =>
        if (code <? 100) || (code >? 599) then Err (ErrNew ("status code out of bounds: " +:+ token))
        else Ok (mkRange code code)
    end.

(** The loop over the segments: the ranges and the invalid segments, in order. *)
Fixpoint parse_segments (segments : list string) : list StatusCodeRange * list string :=
  match segments with
  | [] => ([], [])
  | seg :: segments =>
      let '(ranges, invalid) := parse_segments segments in
      let seg := TrimSpace seg in
      if decide (seg = "") then (ranges, invalid)
      else match parseHTTPStatusCodeToken seg with
           | Ok r => (r :: ranges, invalid)
           | Err _ => (ranges, seg :: invalid)
           end
  end.

(** sort.Slice by start, then end: rows that compare equal are equal. *)
Definition range_le (a b : StatusCodeRange) : Prop :=
  if sc_Start a =? sc_Start b then sc_End a <= sc_End b else sc_Start a < sc_Start b.
#[export] Instance range_le_dec : RelDecision range_le.
Proof. intros a b. unfold range_le. destruct (sc_Start a =? sc_Start b); apply _. Defined.

(** [last] is the end of the merged list, which is kept in reverse order. *)
Fixpoint merge_ranges (last : StatusCodeRange) (ranges : list StatusCodeRange) : list StatusCodeRange :=
  match ranges with
  | [] => [last]
  | r :: ranges =>
      if sc_Start r <=? sc_End last + 1 then
        merge_ranges (if sc_End r >? sc_End last then mkRange (sc_Start last) (sc_End r) else last) ranges
      else last :: merge_ranges r ranges
  end.

Definition ParseHTTPStatusCodeRanges (input : string) : result error (list StatusCodeRange) :=
  let input := TrimSpace input in
  if decide (input = "") then Ok []
  else
    let input := ReplaceAll input "，" "," in
    let '(ranges, invalid) := parse_segments (SplitByte input comma) in
    match invalid with
    | _ :: _ => Err (ErrNew ("invalid http status code rules: " +:+ Join invalid ", "))
    | [] => match merge_sort range_le ranges with
            | [] => Ok []
            | r :: ranges => Ok (merge_ranges r ranges)
            end
    end.

(** AutomaticDisableStatusCodesFromString and AutomaticRetryStatusCodesFromString:
    the global is only replaced when the text parses. *)
Definition StatusCodesFromString (old : list StatusCodeRange) (s : string)
    : list StatusCodeRange * option error :=
  match ParseHTTPStatusCodeRanges s with
  | Ok ranges => (ranges, None)
  | Err e => (old, Some e)
  end.

Example parse_ex : ParseHTTPStatusCodeRanges " 500 - 503,401，402, 400-401" =
  Ok [mkRange 400 402; mkRange 500 503].
Proof. vm_compute. reflexivity. Qed.

(** ** Facts *)

Definition in_range (code : Z) (r : StatusCodeRange) : Prop := sc_Start r <= code <= sc_End r.
(** A code of the HTTP range. *)
Definition valid_range (r : StatusCodeRange) : Prop := 100 <= sc_Start r /\ sc_Start r <= sc_End r <= 599.

Definition valid_rangeb (r : StatusCodeRange) : bool :=
  (100 <=? sc_Start r) && (sc_Start r <=? sc_End r) && (sc_End r <=? 599).
Lemma valid_rangeb_spec r : valid_rangeb r = true -> valid_range r.
Proof. unfold valid_rangeb, valid_range. rewrite !andb_true_iff, !Z.leb_le. tauto. Qed.

(** Ascending ranges with a gap between any two. *)
Fixpoint separated (ranges : list StatusCodeRange) : Prop :=
  match ranges with
  | [] => True
  | r :: ranges' => match ranges' with
                    | [] => True
                    | r' :: _ => sc_End r + 1 < sc_Start r'
                    end /\ separated ranges'
  end.
Definition normalized (ranges : list StatusCodeRange) : Prop :=
  Forall valid_range ranges /\ separated ranges.

Lemma token_valid token r : parseHTTPStatusCodeToken token = Ok r -> valid_range r.
Proof.
  unfold parseHTTPStatusCodeToken. intros H.
  repeat (case_match; try discriminate); simplify_eq; unfold valid_range; simpl;
    repeat match goal with
    | H : (_ || _) = false |- _ => apply orb_false_iff in H as [? ?]
    | H : (_ <? _) = false |- _ => apply Z.ltb_ge in H
    | H : (_ >? _) = false |- _ => rewrite Z.gtb_ltb in H
    end; lia.
Qed.

Lemma parse_segments_valid segs : Forall valid_range (parse_segments segs).1.
Proof.
  induction segs as [|s segs IH]; simpl; [constructor|].
  destruct (parse_segments segs) as [rs inv]. case_decide; [done|].
  destruct (parseHTTPStatusCodeToken _) eqn:E; simpl; [|done].
  constructor; [by eapply token_valid|done].
Qed.

(** A range that starts after [last] covers what it adds. *)
Lemma merge_ranges_spec last ranges :
  valid_range last -> Forall valid_range ranges -> Sorted range_le (last :: ranges) ->
  normalized (merge_ranges last ranges) /\
  (exists e rest, merge_ranges last ranges = mkRange (sc_Start last) e :: rest) /\
  forall code, Exists (in_range code) (merge_ranges last ranges) <-> Exists (in_range code) (last :: ranges).
Proof.
  revert last. induction ranges as [|r ranges IH]; intros last Hl Hr Hs.
  - simpl. split; [split; [by constructor|done]|]. split; [|done].
    destruct last as [a b]. by exists b, [].
  - inversion_clear Hr as [|? ? Hvr Hrs]. inversion_clear Hs as [|? ? Hs' Hhd].
    inversion_clear Hhd as [|? ? Hle]. simpl.
    assert (Hstart : sc_Start last <= sc_Start r).
    { unfold range_le in Hle. destruct (Z.eqb_spec (sc_Start last) (sc_Start r)); lia. }
    destruct (Z.leb_spec (sc_Start r) (sc_End last + 1)) as [Hj|Hj].
    + set (last' := if sc_End r >? sc_End last then _ else _).
      assert (Hstart' : sc_Start last' = sc_Start last) by (unfold last'; by destruct (sc_End r >? sc_End last)).
      assert (Hend' : sc_End last' = Z.max (sc_End last) (sc_End r)).
      { unfold last'. rewrite Z.gtb_ltb. destruct (Z.ltb_spec (sc_End last) (sc_End r)); simpl; lia. }
      assert (Hs2 : Sorted range_le (last' :: ranges)).
      { inversion Hs' as [|? ? Hss Hh]; subst. constructor; [done|].
        destruct Hh as [|r2 rs Hle2]; constructor.
        unfold range_le in Hle, Hle2 |- *. rewrite Hstart', Hend'.
        destruct (Z.eqb_spec (sc_Start last) (sc_Start r2)), (Z.eqb_spec (sc_Start last) (sc_Start r)),
          (Z.eqb_spec (sc_Start r) (sc_Start r2)); lia. }
      destruct (IH last') as (Hn & He & Hc); [|done|done|].
      { unfold valid_range in *. rewrite Hstart', Hend'. lia. }
      rewrite Hstart' in He. split; [done|]. split; [done|]. intros code. rewrite Hc, !Exists_cons.
      unfold in_range, valid_range in *. rewrite Hstart', Hend'.
      split; [intros [H|H]|intros [H|[H|H]]]; try tauto.
      * destruct (Z.le_gt_cases code (sc_End last)); [left; lia|right; left; lia].
      * left. lia.
      * left. lia.
    + destruct (IH r) as (Hn & (e & rest & He) & Hc); [done..|].
      split; [|split].
      * destruct Hn as [Hv Hsep]. split; [by constructor|]. split; [|done].
        rewrite He. simpl. lia.
      * destruct last as [a b]. by eexists b, _.
      * intros code. by rewrite (Exists_cons _ last), Hc, (Exists_cons _ last).
Qed.

Lemma match_ranges_spec ranges code : Forall valid_range ranges -> separated ranges ->
  match_ranges ranges code = true <-> Exists (in_range code) ranges.
Proof.
  intros Hv. induction Hv as [|r ranges Hr Hv IH]; [by rewrite Exists_nil|]. intros [Hg Hsep]. simpl.
  rewrite Exists_cons, <- (IH Hsep). unfold in_range.
  destruct (Z.ltb_spec code (sc_Start r)) as [H1|H1].
  - split; [done|]. intros [H|H]; [lia|]. exfalso.
    destruct ranges as [|r' ranges]; [done|]. simpl in H. unfold valid_range in Hr.
    destruct (Z.ltb_spec code (sc_Start r')); [done|lia].
  - destruct (Z.leb_spec code (sc_End r)).
    + split; [intros _; left; lia|done].
    + split; [by right|]. intros [?|?]; [lia|done].
Qed.

Lemma match_valid_codes ranges code : Forall valid_range ranges -> Exists (in_range code) ranges ->
  100 <= code <= 599.
Proof.
  intros Hv He. apply Exists_exists in He as (r & Hin & Hc). rewrite Forall_forall in Hv.
  specialize (Hv _ Hin). unfold valid_range, in_range in *. lia.
Qed.

(** The segments of a text and the ranges they denote. *)
Definition segments_of (input : string) : list string :=
  SplitByte (ReplaceAll (TrimSpace input) "，" ",") comma.

#[local] Instance range_le_total : Total range_le.
Proof.
  intros a b. unfold range_le.
  destruct (Z.eqb_spec (sc_Start a) (sc_Start b)) as [e|e], (Z.eqb_spec (sc_Start b) (sc_Start a)); lia.
Qed.

(** The rules an administrator saves mean what their text says: a text is refused
    exactly when one of its segments is not a code or range of codes between 100
    and 599, and otherwise the stored list is ascending with gaps, and a code
    matches it exactly when one of the segments covers the code, in whatever order
    and however overlapping they are written. *)
Theorem parsed_rules_match input :
  match ParseHTTPStatusCodeRanges input with
  | Ok ranges =>
      (TrimSpace input <> "" -> (parse_segments (segments_of input)).2 = []) /\ normalized ranges /\
      forall code, shouldMatchStatusCodeRanges ranges code = true <->
        TrimSpace input <> "" /\ Exists (in_range code) (parse_segments (segments_of input)).1
  | Err _ => (parse_segments (segments_of input)).2 <> []
  end.
Proof.
  unfold ParseHTTPStatusCodeRanges, segments_of. case_decide as He.
  { split; [done|]. split; [by repeat constructor|]. intros code.
    unfold shouldMatchStatusCodeRanges. destruct (_ || _); simpl; naive_solver. }
  destruct (parse_segments _) as [rs inv] eqn:E. simpl.
  pose proof (parse_segments_valid (SplitByte (ReplaceAll (TrimSpace input) "，" ",") comma)) as Hv.
  rewrite E in Hv. simpl in Hv. destruct inv as [|s inv]; [|done].
  pose proof (merge_sort_Permutation range_le rs) as Hp.
  pose proof (Sorted_merge_sort range_le rs) as Hs.
  destruct (merge_sort range_le rs) as [|r rs'].
  { assert (rs = []) as -> by (by apply Permutation_nil_l in Hp). split; [done|]. split; [by repeat constructor|].
    intros code. rewrite Exists_nil. unfold shouldMatchStatusCodeRanges.
    destruct (_ || _); simpl; naive_solver. }
  rewrite <- Hp in Hv. inversion_clear Hv as [|? ? Hvr Hvs].
  destruct (merge_ranges_spec r rs') as ([Hn1 Hn2] & _ & Hc); [done..|].
  split; [done|]. split; [done|]. intros code.
  assert (Hx : Exists (in_range code) rs <-> Exists (in_range code) (merge_ranges r rs')).
  { rewrite Hc. by rewrite Hp. }
  rewrite Hx, <- match_ranges_spec by done. unfold shouldMatchStatusCodeRanges.
  rewrite Z.gtb_ltb. destruct (Z.ltb_spec code 100), (Z.ltb_spec 599 code); simpl;
    try (by intuition); rewrite match_ranges_spec by done;
    (split; [done|]); intros [_ H']; pose proof (match_valid_codes _ _ Hn1 H'); lia.
Qed.

(** With the default rules, what the comment in the source says is retried: 1xx, 3xx,
    4xx except 400 and 408, 5xx except 504 and 524. *)
Theorem default_retry_codes code :
  ShouldRetryByStatusCode AutomaticRetryStatusCodeRanges code = true <->
  100 <= code <= 599 /\ ~ 200 <= code < 300 /\ code ∉ [400; 408; 504; 524].
Proof.
  unfold ShouldRetryByStatusCode, IsAlwaysSkipRetryStatusCode, shouldMatchStatusCodeRanges.
  rewrite !elem_of_cons, elem_of_nil, Z.gtb_ltb. case_bool_decide as Hs.
  { unfold alwaysSkipRetryStatusCodes in Hs. rewrite !elem_of_cons, elem_of_nil in Hs.
    split; [done|lia]. }
  unfold alwaysSkipRetryStatusCodes in Hs. rewrite !elem_of_cons, elem_of_nil in Hs.
  destruct (Z.ltb_spec code 100), (Z.ltb_spec 599 code); simpl; try (split; [done|lia]).
  repeat match goal with
  | |- context [?a <? ?b] => destruct (Z.ltb_spec a b); [split; [done|lia]|]
  | |- context [?a <=? ?b] => destruct (Z.leb_spec a b); [split; [lia|done]|]
  end.
  split; [done|lia].
Qed.

(** ** Printing and parsing *)

Lemma digit_byte_other c a : is_digit c = false -> is_digit a = true -> not_byte c a = true.
Proof. unfold not_byte. intros Hc Ha. by rewrite bool_decide_eq_false_2 by congruence. Qed.
Lemma Itoa_other c z : is_digit c = false -> 0 <= z -> all_bytes (not_byte c) (Itoa z) = true.
Proof.
  intros Hc Hz. apply (all_bytes_mono is_digit); [|by apply all_digits_Itoa].
  intros a. by apply digit_byte_other.
Qed.
Lemma Itoa_not_empty z : 0 <= z -> Itoa z <> "".
Proof. intros Hz. destruct (Itoa_head z Hz) as (d & t & -> & _). done. Qed.

(** Bytes of a printed rule. *)
Definition rule_byte (a : Ascii.ascii) : bool := is_digit a || bool_decide (a = dash).
Lemma range_text_bytes r : valid_range r -> all_bytes rule_byte (range_text r) = true.
Proof.
  intros Hv. unfold valid_range in Hv.
  assert (H : forall z, 0 <= z -> all_bytes rule_byte (Itoa z) = true).
  { intros z Hz. apply (all_bytes_mono is_digit); [|by apply all_digits_Itoa].
    intros a Ha. unfold rule_byte. by rewrite Ha. }
  unfold range_text. case_match; [apply H; lia|].
  rewrite !all_bytes_app, !H by lia. done.
Qed.
Lemma rule_byte_other c s : rule_byte c = false -> all_bytes rule_byte s = true ->
  all_bytes (not_byte c) s = true.
Proof.
  intros Hc. apply all_bytes_mono. intros a Ha. unfold not_byte.
  by rewrite bool_decide_eq_false_2 by congruence.
Qed.
Lemma digit_inner a : is_digit a = true -> inner a = true.
Proof.
  unfold is_digit, digit, inner. intros H.
  destruct ((48 <=? _) && _) eqn:E; [|done]. apply andb_true_iff in E as [H1 H2].
  apply Z.leb_le in H1, H2. apply andb_true_iff.
  split; apply Nat.leb_le; lia.
Qed.
Lemma rule_byte_inner s : all_bytes rule_byte s = true -> all_bytes inner s = true.
Proof.
  apply all_bytes_mono. unfold rule_byte. intros a. rewrite orb_true_iff.
  intros [H|H]; [by apply digit_inner|]. apply bool_decide_eq_true in H. by subst.
Qed.

Lemma Contains_absent c s : all_bytes (not_byte c) s = true -> Contains s (String c "") = false.
Proof.
  induction s as [|a s IH]; [done|]. rewrite all_bytes_cons, andb_true_iff. intros [Ha Hs].
  change (HasPrefix (String a s) (String c "") || Contains s (String c "") = false).
  rewrite (IH Hs). unfold HasPrefix. simpl.
  destruct (decide (c = a)) as [->|]; [|done]. unfold not_byte in Ha.
  by rewrite bool_decide_eq_true_2 in Ha.
Qed.
Lemma Contains_app s c t : Contains (s +:+ String c t) (String c "") = true.
Proof.
  induction s as [|a s IH]; simpl.
  - unfold HasPrefix. simpl. by rewrite decide_True.
  - by rewrite IH, orb_true_r.
Qed.

Lemma parse_range_text r : valid_range r -> parseHTTPStatusCodeToken (range_text r) = Ok r.
Proof.
  intros Hv. pose proof (range_text_bytes r Hv) as Hb. unfold valid_range in Hv.
  unfold parseHTTPStatusCodeToken.
  rewrite (TrimSpace_inner _ (rule_byte_inner _ Hb)).
  rewrite (ReplaceAll_absent _ _ _ _ (rule_byte_other (Ascii.ascii_of_nat 32) _ eq_refl Hb)).
  destruct r as [a b]; unfold range_text in *; simpl in *.
  assert (H64 : forall z, 100 <= z <= 599 -> Atoi (Itoa z) = Some z) by (intros; apply Atoi_Itoa; lia).
  destruct (Z.eqb_spec a b) as [->|Hne].
  - rewrite decide_False by (apply Itoa_not_empty; lia).
    rewrite Contains_absent by (apply Itoa_other; [done|lia]).
    rewrite H64, Z.gtb_ltb by lia. destruct (Z.ltb_spec b 100), (Z.ltb_spec 599 b); lia || done.
  - rewrite decide_False.
    2:{ destruct (Itoa_head a ltac:(lia)) as (d & t & -> & _). done. }
    change ("-" +:+ Itoa b) with (String dash (Itoa b)).
    rewrite (Contains_app (Itoa a) dash). rewrite SplitByte_app by (apply Itoa_other; [done|lia]).
    rewrite SplitByte_none by (apply Itoa_other; [done|lia]).
    rewrite !bool_decide_eq_false_2 by (apply Itoa_not_empty; lia). simpl.
    rewrite !H64, !Z.gtb_ltb by lia.
    destruct (Z.ltb_spec b a), (Z.ltb_spec a 100), (Z.ltb_spec 599 b); lia || done.
Qed.
Lemma range_text_not_empty r : valid_range r -> range_text r <> "".
Proof.
  intros Hv. unfold valid_range in Hv. unfold range_text.
  destruct (Itoa_head (sc_Start r) ltac:(lia)) as (d & t & H & _). rewrite H. by case_match.
Qed.

Lemma parse_texts ranges : Forall valid_range ranges ->
  parse_segments (range_text <$> ranges) = (ranges, []).
Proof.
  induction 1 as [|r ranges Hr Hv IH]; [done|]. simpl. unfold fmap in IH. rewrite IH. rewrite (TrimSpace_inner _ (rule_byte_inner _ (range_text_bytes r Hr))).
  rewrite decide_False by by apply range_text_not_empty. by rewrite parse_range_text.
Qed.

Lemma separated_starts r ranges : Forall valid_range (r :: ranges) -> separated (r :: ranges) ->
  Sorted range_le (r :: ranges).
Proof.
  revert r. induction ranges as [|r' ranges IH]; intros r Hv Hs; [by repeat constructor|].
  inversion_clear Hv as [|? ? Hr Hv']. destruct Hs as [Hg Hs].
  constructor; [by apply IH|]. constructor. unfold range_le, valid_range in *.
  destruct (Z.eqb_spec (sc_Start r) (sc_Start r')); lia.
Qed.
Lemma merge_separated r ranges : separated (r :: ranges) -> merge_ranges r ranges = r :: ranges.
Proof.
  revert r. induction ranges as [|r' ranges IH]; intros r; [done|]. intros [Hg Hs].
  simpl. destruct (Z.leb_spec (sc_Start r') (sc_End r + 1)); [lia|]. by rewrite IH.
Qed.

#[local] Instance range_le_antisymm : AntiSymm (=) range_le.
Proof.
  intros [a b] [c d]. unfold range_le. simpl.
  destruct (Z.eqb_spec a c), (Z.eqb_spec c a); intros; try lia. f_equal; lia.
Qed.
#[local] Instance range_le_trans : Transitive range_le.
Proof.
  intros [a b] [c d] [e f]. unfold range_le. simpl.
  destruct (Z.eqb_spec a c), (Z.eqb_spec c e), (Z.eqb_spec a e); lia.
Qed.
Lemma merge_sort_sorted l : Sorted range_le l -> merge_sort range_le l = l.
Proof.
  intros H. apply (Sorted_unique range_le); [apply Sorted_merge_sort; apply _|done|].
  apply merge_sort_Permutation.
Qed.

Lemma Join_bytes P sep l : all_bytes P sep = true -> Forall (fun s => all_bytes P s = true) l ->
  all_bytes P (Join l sep) = true.
Proof.
  intros Hs Hl. unfold Join. induction Hl as [|s l Hx Hl IH]; [done|].
  destruct l as [|s' l]; [done|].
  change (String.concat sep (s :: s' :: l)) with (s +:+ (sep +:+ String.concat sep (s' :: l))).
  by rewrite !all_bytes_app, Hx, Hs, IH.
Qed.

(** The saved text of a rule list reads back as the same list, for every list that
    the parser can produce. *)
Theorem status_rules_roundtrip ranges : normalized ranges ->
  ParseHTTPStatusCodeRanges (statusCodeRangesToString ranges) = Ok ranges.
Proof.
  intros [Hv Hs]. destruct ranges as [|r ranges]; [done|].
  unfold statusCodeRangesToString, ParseHTTPStatusCodeRanges.
  set (text := Join _ _).
  assert (Hbytes : Forall (fun s => all_bytes rule_byte s = true) (range_text <$> r :: ranges)).
  { apply Forall_fmap. apply (Forall_impl _ _ _ Hv). intros x. apply range_text_bytes. }
  assert (Hin : all_bytes inner text = true).
  { apply Join_bytes; [done|]. apply (Forall_impl _ _ _ Hbytes). intros x. apply rule_byte_inner. }
  rewrite (TrimSpace_inner _ Hin).
  assert (Hne : text <> "").
  { unfold text. pose proof (range_text_not_empty r ltac:(by inversion Hv)) as Hne.
    rewrite fmap_cons. unfold Join. simpl. destruct (range_text r); [done|].
    by destruct (range_text <$> ranges). }
  rewrite decide_False by done.
  assert (Hrep : ReplaceAll text "，" "," = text).
  { apply ReplaceAll_absent. apply (all_bytes_mono inner); [|done].
    intros a Ha. unfold not_byte. rewrite bool_decide_eq_false_2; [done|]. by intros ->. }
  rewrite Hrep. unfold text. change "," with (String comma "").
  rewrite SplitByte_Join; [|done|].
  - rewrite parse_texts by done. rewrite merge_sort_sorted by by apply separated_starts.
    by rewrite merge_separated.
  - apply (Forall_impl _ _ _ Hbytes). intros x. by apply rule_byte_other.
Qed.

(** The default retry rules; the parser joins 409-499 and 500-503. *)
Definition sample_rules : list StatusCodeRange :=
  [mkRange 100 199; mkRange 300 399; mkRange 401 407; mkRange 409 503; mkRange 505 523; mkRange 525 599].
Lemma status_rules_roundtrip_witness :
  normalized sample_rules /\
  ParseHTTPStatusCodeRanges "100-199,300-399,401-407,409-503,505-523,525-599" = Ok sample_rules.
Proof.
  assert (H : normalized sample_rules).
  { split; [|by vm_compute]. apply (Forall_impl (fun r => valid_rangeb r = true)).
    - by vm_compute; repeat constructor.
    - intros r. by apply valid_rangeb_spec. }
  split; [exact H|]. exact (status_rules_roundtrip _ H).
Defined.
