(* ===== verification/GoFloat.v ===== *)
(** * Go's [float64]

    IEEE 754 binary64 as the standard library's executable [spec_float]
    (53-bit mantissa, exponent range 1024): the operations round to nearest,
    ties to even, as Go's do.  [valid64] says that a value is in the canonical
    form every operation produces. *)

From Stdlib Require Import SpecFloat.
From S2P Require Import Prelude.

Module F64.

Definition float64 : Type := spec_float.
Definition valid64 (x : float64) : Prop := valid_binary 53 1024 x = true.

Definition mul : float64 -> float64 -> float64 := SFmul 53 1024.
Definition div : float64 -> float64 -> float64 := SFdiv 53 1024.
Definition add : float64 -> float64 -> float64 := SFadd 53 1024.
Definition sub : float64 -> float64 -> float64 := SFsub 53 1024.
Definition eqb : float64 -> float64 -> bool := SFeqb.
Definition ltb : float64 -> float64 -> bool := SFltb.
Definition leb : float64 -> float64 -> bool := SFleb.
(** float64(i) for an integer i *)
Definition of_Z (z : Z) : float64 := binary_normalize 53 1024 z 0 false.
Definition zero : float64 := S754_zero false.
Definition one : float64 := of_Z 1.

Definition IsNaN (x : float64) : bool := match x with S754_nan => true | _ => false end.
(** math.IsInf(x, 1) *)
Definition IsPosInf (x : float64) : bool :=
  match x with S754_infinity false => true | _ => false end.

(** The magnitude of a finite float, truncated to an integer. *)
Definition trunc_abs (m : positive) (e : Z) : Z :=
  if 0 <=? e then Zpos m * 2 ^ e else Zpos m / 2 ^ (- e).

(** The conversion int(x): truncation toward zero (only used in range). *)
Definition to_Z (x : float64) : Z :=
  match x with
  | S754_finite false m e => trunc_abs m e
  | S754_finite true m e => - trunc_abs m e
  | _ => 0
  end.

(** math.Round: half away from zero. *)
Definition Round (x : float64) : float64 :=
  match x with
  | S754_finite s m e =>
      if 0 <=? e then x
      else
        let q := (2 * Zpos m + 2 ^ (- e)) / 2 ^ (- e + 1) in
        if q =? 0 then S754_zero s else of_Z (if s then - q else q)
  | _ => x
  end.

(** ** Digits and exactness *)

Lemma digits2_pos_size m : digits2_pos m = Pos.size m.
Proof. induction m; simpl; congruence. Qed.

Lemma digits_bounds m :
  2 ^ (Zpos (digits2_pos m) - 1) <= Zpos m < 2 ^ Zpos (digits2_pos m).
Proof.
  rewrite digits2_pos_size. split.
  - pose proof (Pos.size_le m) as H.
    assert (2 ^ Zpos (Pos.size m) <= 2 * Zpos m).
    { change (2 * Zpos m) with (Zpos (m~0)). rewrite <- Pos2Z.inj_pow. lia. }
    replace (Zpos (Pos.size m)) with (Z.succ (Zpos (Pos.size m) - 1)) in H0 by lia.
    rewrite Z.pow_succ_r in H0 by lia. lia.
  - pose proof (Pos.size_gt m) as H. rewrite <- Pos2Z.inj_pow. lia.
Qed.

Lemma digits_iter_xO m k :
  Zpos (digits2_pos (Pos.iter xO m k)) = Zpos (digits2_pos m) + Zpos k.
Proof.
  revert m. induction k as [|k IH] using Pos.peano_ind; intros m.
  - simpl. lia.
  - rewrite Pos.iter_succ. simpl. rewrite !Pos2Z.inj_succ, IH. lia.
Qed.

Lemma iter_xO_value m k : Zpos (Pos.iter xO m k) = Zpos m * 2 ^ Zpos k.
Proof.
  induction k as [|k IH] using Pos.peano_ind; [simpl; lia|].
  rewrite Pos.iter_succ, Pos2Z.inj_xO, IH, Pos2Z.inj_succ, Z.pow_succ_r by lia. lia.
Qed.

(** An integer of at most 53 bits is represented exactly. *)
Lemma binary_round_small s m :
  Zpos (digits2_pos m) <= 53 ->
  exists m' e', binary_round 53 1024 s m 0 = S754_finite s m' e' /\
    e' <= 0 /\ Zpos m' = Zpos m * 2 ^ (- e') /\ valid64 (S754_finite s m' e').
Proof.
  intros Hd. unfold binary_round, shl_align.
  assert (Hf : fexp 53 1024 (Zpos (digits2_pos m) + 0) = Zpos (digits2_pos m) - 53).
  { unfold fexp, emin. lia. }
  rewrite Hf.
  destruct (Zpos (digits2_pos m) - 53 - 0) as [|d|d] eqn:Ed; [| lia |].
  - exists m, 0. unfold binary_round_aux, shr_fexp, shr. simpl Zdigits2.
    replace (fexp 53 1024 (Zpos (digits2_pos m) + 0) - 0) with 0 by lia. simpl.
    replace (fexp 53 1024 (Zpos (digits2_pos m) + 0) - 0) with 0 by lia. simpl.
    split; [done|]. split; [lia|]. split; [lia|].
    unfold valid64, valid_binary, bounded, canonical_mantissa. rewrite Hf.
    apply andb_true_iff. split; [apply Z.eqb_eq | apply Z.leb_le]; lia.
  - exists (Pos.iter xO m d), (Zpos (digits2_pos m) - 53).
    unfold binary_round_aux, shr_fexp, shr. simpl Zdigits2.
    rewrite digits_iter_xO.
    assert (Hg : fexp 53 1024 (Zpos (digits2_pos m) + Zpos d + (Zpos (digits2_pos m) - 53))
                 - (Zpos (digits2_pos m) - 53) = 0) by (unfold fexp, emin; lia).
    rewrite Hg. simpl. rewrite digits_iter_xO, Hg. simpl.
    replace (Zpos (digits2_pos m) - 53 <=? 1024 - 53) with true by lia.
    split; [done|]. split; [lia|]. split.
    { rewrite iter_xO_value. f_equal. f_equal. lia. }
    unfold valid64, valid_binary, bounded, canonical_mantissa. rewrite digits_iter_xO.
    apply andb_true_iff. split; [apply Z.eqb_eq | apply Z.leb_le; lia].
    unfold fexp, emin. lia.
Qed.

Lemma digits_le_of_lt m k : 0 <= k -> Zpos m < 2 ^ k -> Zpos (digits2_pos m) <= k.
Proof.
  intros Hk Hm. destruct (digits_bounds m) as [Hlo _].
  apply Z.le_ngt. intros Hlt.
  assert (2 ^ k <= 2 ^ (Zpos (digits2_pos m) - 1)) by (apply Z.pow_le_mono_r; lia). lia.
Qed.

Lemma to_Z_binary_round s p :
  Zpos p < 2 ^ 53 ->
  to_Z (binary_round 53 1024 s p 0) = if s then Zneg p else Zpos p.
Proof.
  intros Hp. destruct (binary_round_small s p) as (m & e & -> & He & Hm & _).
  { apply digits_le_of_lt; lia. }
  assert (Ht : trunc_abs m e = Zpos p).
  { unfold trunc_abs. destruct (0 <=? e) eqn:E; bools.
    - replace e with 0 in * by lia. simpl in *. lia.
    - rewrite Hm. apply Z.div_mul, Z.pow_nonzero; lia. }
  destruct s; simpl; lia.
Qed.

(** float64(z) is exact up to 2^53, and converting back is the identity. *)
Lemma to_Z_of_Z z : Z.abs z < 2 ^ 53 -> to_Z (of_Z z) = z.
Proof.
  intros Hz. unfold of_Z, binary_normalize.
  destruct z as [|p|p]; [done| |]; rewrite to_Z_binary_round; lia.
Qed.

Lemma of_Z_valid z : Z.abs z < 2 ^ 53 -> valid64 (of_Z z).
Proof.
  intros Hz. unfold of_Z, binary_normalize. destruct z as [|p|p]; [done| |].
  - destruct (binary_round_small false p) as (? & ? & -> & _ & _ & Hv); [|done].
    apply digits_le_of_lt; lia.
  - destruct (binary_round_small true p) as (? & ? & -> & _ & _ & Hv); [|done].
    apply digits_le_of_lt; lia.
Qed.

(** ** Comparison with the int32 bounds *)

(** A canonical float outside the exponent of 2^31 - 1 is below or above it. *)
Lemma valid_mantissa s m e :
  valid64 (S754_finite s m e) ->
  Zpos m < 2 ^ 53 /\ (e = -1074 \/ 2 ^ 52 <= Zpos m).
Proof.
  unfold valid64, valid_binary, bounded, canonical_mantissa, fexp, emin. intros H. bools.
  destruct (digits_bounds m) as [Hlo Hhi]. set (d := Zpos (digits2_pos m)) in *.
  split.
  - assert (2 ^ d <= 2 ^ 53) by (apply Z.pow_le_mono_r; lia). lia.
  - destruct (decide (e = -1074)); [by left|right].
    replace 52 with (d - 1) by lia. lia.
Qed.

Lemma trunc_abs_below m e : Zpos m < 2 ^ 53 -> e < -22 -> 0 <= trunc_abs m e < 2 ^ 31 - 1.
Proof.
  intros Hm He. unfold trunc_abs. destruct (0 <=? e) eqn:E; bools; [lia|].
  assert (2 ^ 23 <= 2 ^ (- e)) by (apply Z.pow_le_mono_r; lia).
  split; [apply Z.div_pos; lia|].
  apply Z.div_lt_upper_bound; [lia|]. nia.
Qed.

Lemma trunc_abs_above m e : 2 ^ 52 <= Zpos m -> -22 < e -> 2 ^ 31 <= trunc_abs m e.
Proof.
  intros Hm He. unfold trunc_abs. destruct (0 <=? e) eqn:E; bools.
  - assert (1 <= 2 ^ e) by (apply (Z.pow_le_mono_r 2 0); lia). nia.
  - assert (0 < 2 ^ (- e)) by (apply Z.pow_pos_nonneg; lia).
    assert (2 ^ (- e) <= 2 ^ 21) by (apply Z.pow_le_mono_r; lia).
    apply Z.div_le_lower_bound; nia.
Qed.

(** ** Rounding of large integers *)

Lemma shr_1_div mrs : 0 <= shr_m mrs -> shr_m (shr_1 mrs) = shr_m mrs / 2.
Proof.
  destruct mrs as [m r b]. simpl. intros Hm.
  destruct m as [|[p|p|]|p]; simpl; try reflexivity; try lia.
  - apply (Z.div_unique _ 2 _ 1); lia.
  - apply (Z.div_unique _ 2 _ 0); lia.
Qed.

Lemma iter_shr_div p mrs :
  0 <= shr_m mrs ->
  shr_m (SpecFloat.iter_pos shr_1 p mrs) = shr_m mrs / 2 ^ Zpos p.
Proof.
  revert mrs. induction p as [p IH|p IH|]; intros mrs Hm; simpl.
  - pose proof (shr_1_div mrs Hm) as H1.
    assert (0 <= shr_m (shr_1 mrs)) by (rewrite H1; apply Z.div_pos; lia).
    assert (0 <= shr_m (SpecFloat.iter_pos shr_1 p (shr_1 mrs)))
      by (rewrite IH by done; apply Z.div_pos; [lia | apply Z.pow_pos_nonneg; lia]).
    assert (0 < 2 ^ Zpos p) by (apply Z.pow_pos_nonneg; lia).
    rewrite !IH, H1 by done. rewrite !Z.div_div by lia. f_equal.
    replace (Zpos p~1) with (1 + Zpos p + Zpos p) by lia.
    rewrite !Z.pow_add_r by lia. lia.
  - assert (0 <= shr_m (SpecFloat.iter_pos shr_1 p mrs))
      by (rewrite IH by done; apply Z.div_pos; [lia | apply Z.pow_pos_nonneg; lia]).
    rewrite !IH by done. rewrite !Z.div_div; try (apply Z.pow_pos_nonneg; lia); try lia.
    f_equal. replace (Zpos p~0) with (Zpos p + Zpos p) by lia.
    rewrite Z.pow_add_r by lia. lia.
  - apply shr_1_div. lia.
Qed.

(** A nonnegative integer keeps a positive mantissa and a nonnegative exponent
    through [shr_fexp] once it has 53 digits. *)
Lemma shr_fexp_big z e :
  0 <= e -> 2 ^ 52 <= z ->
  exists mrs e', shr_fexp 53 1024 z e loc_Exact = (mrs, e') /\
    0 <= e' /\ 2 ^ 52 <= shr_m mrs.
Proof.
  intros He Hz. unfold shr_fexp, shr, shr_record_of_loc. destruct z as [|p|p]; try lia.
  simpl Zdigits2. destruct (digits_bounds p) as [Hlo Hhi].
  assert (52 < Zpos (digits2_pos p)).
  { apply Z.lt_nge. intros Hle.
    assert (2 ^ Zpos (digits2_pos p) <= 2 ^ 52) by (apply Z.pow_le_mono_r; lia). lia. }
  assert (Hn : fexp 53 1024 (Zpos (digits2_pos p) + e) - e = Zpos (digits2_pos p) - 53)
    by (unfold fexp, emin; lia).
  rewrite Hn. destruct (Zpos (digits2_pos p) - 53) as [|n|n] eqn:En; try lia.
  - eexists _, e. split; [done|]. simpl. lia.
  - eexists _, (e + Zpos n). split; [done|]. split; [lia|].
    rewrite iter_shr_div by (simpl; lia). simpl shr_m.
    apply Z.div_le_lower_bound; [apply Z.pow_pos_nonneg; lia|].
    rewrite <- Z.pow_add_r by lia. replace (Zpos n + 52) with (Zpos (digits2_pos p) - 1) by lia.
    lia.
Qed.

Lemma round_nearest_even_ge m l : m <= round_nearest_even m l.
Proof. destruct l as [|[]]; simpl; try lia. destruct (Z.even m); lia. Qed.

(** float64(z) of an integer past 2^53 is infinite or has a nonnegative exponent. *)
Lemma binary_round_big s p :
  2 ^ 53 <= Zpos p ->
  binary_round 53 1024 s p 0 = S754_infinity s \/
  exists m e, binary_round 53 1024 s p 0 = S754_finite s m e /\ 0 <= e.
Proof.
  intros Hp. unfold binary_round, shl_align.
  destruct (digits_bounds p) as [_ Hhi].
  assert (53 < Zpos (digits2_pos p)).
  { apply Z.lt_nge. intros Hle.
    assert (2 ^ Zpos (digits2_pos p) <= 2 ^ 53) by (apply Z.pow_le_mono_r; lia). lia. }
  destruct (fexp 53 1024 (Zpos (digits2_pos p) + 0) - 0) as [|d|d] eqn:Ed;
    [| |unfold fexp, emin in Ed; lia].
  all: unfold binary_round_aux;
    destruct (shr_fexp_big (Zpos p) 0) as (mrs & e1 & -> & He1 & Hm1); [lia|lia|];
    pose proof (round_nearest_even_ge (shr_m mrs) (loc_of_shr_record mrs));
    destruct (shr_fexp_big (round_nearest_even (shr_m mrs) (loc_of_shr_record mrs)) e1)
      as (mrs2 & e2 & -> & He2 & Hm2); [lia|lia|];
    destruct (shr_m mrs2) as [|m2|m2]; try lia;
    destruct (e2 <=? 1024 - 53); [right; eauto | by left].
Qed.

Lemma of_Z_big z :
  2 ^ 53 <= Z.abs z ->
  of_Z z = S754_infinity (z <? 0) \/
  exists m e, of_Z z = S754_finite (z <? 0) m e /\ 0 <= e.
Proof.
  intros Hz. destruct z as [|p|p]; [lia| |]; simpl; apply binary_round_big; lia.
Qed.

End F64.

(** ** Validity *)

Module F64Valid.
Import F64.

Abbreviation fexp64 := (fexp 53 1024).

Lemma fexp64_eq e : fexp64 e = Z.max (e - 53) (-1074).
Proof. reflexivity. Qed.

Lemma digits_unique m d : 2 ^ (d - 1) <= Zpos m < 2 ^ d -> Zpos (digits2_pos m) = d.
Proof.
  intros [Hlo Hhi]. destruct (digits_bounds m) as [Hlo' Hhi'].
  assert (Hd : 0 <= d) by (apply Z.le_ngt; intros Hd; rewrite (Z.pow_neg_r 2 d Hd) in Hhi; lia).
  destruct (Z.lt_trichotomy (Zpos (digits2_pos m)) d) as [H|[H|H]]; [|done|].
  - assert (2 ^ Zpos (digits2_pos m) <= 2 ^ (d - 1)) by (apply Z.pow_le_mono_r; lia). lia.
  - assert (2 ^ d <= 2 ^ (Zpos (digits2_pos m) - 1)) by (apply Z.pow_le_mono_r; lia). lia.
Qed.

(** The mantissa and exponent [shr_fexp] leaves. *)
Lemma shr_fexp_run z e l :
  0 <= z -> e <= fexp64 (Zdigits2 z + e) ->
  let n := fexp64 (Zdigits2 z + e) - e in
  shr_m (shr_fexp 53 1024 z e l).1 = z / 2 ^ n /\ (shr_fexp 53 1024 z e l).2 = fexp64 (Zdigits2 z + e).
Proof.
  intros Hz He n. unfold shr_fexp, shr. fold n.
  assert (Hr : shr_m (shr_record_of_loc z l) = z) by (by destruct l as [|[]]).
  destruct n as [|p|p] eqn:En; simpl; [| |lia].
  - rewrite Hr, Z.div_1_r. split; [done|lia].
  - rewrite iter_shr_div by lia. rewrite Hr. split; [done|lia].
Qed.

Lemma canonical_valid s m e :
  fexp64 (Zpos (digits2_pos m) + e) = e -> e <= 971 -> valid64 (S754_finite s m e).
Proof.
  intros Hc He. unfold valid64, valid_binary, bounded, canonical_mantissa.
  rewrite Hc. apply andb_true_iff. split; [by apply Z.eqb_eq|by apply Z.leb_le].
Qed.

(** The second half of [binary_round_aux]: the rounded mantissa [r]. *)
Definition finish (s : bool) (r e : Z) : float64 :=
  let '(mrs, e') := shr_fexp 53 1024 r e loc_Exact in
  match shr_m mrs with
  | Z0 => S754_zero s
  | Zpos m => if e' <=? 1024 - 53 then S754_finite s m e' else S754_infinity s
  | Zneg _ => S754_nan
  end.

(** [r] is canonical at [e], or a power of two one digit too long. *)
Lemma finish_valid s r e :
  0 <= r ->
  (r = 0 \/ exists m, r = Zpos m /\
     (fexp64 (Zpos (digits2_pos m) + e) = e \/
      exists k, 0 < k /\ r = 2 ^ k /\ fexp64 (k + 1 + e) = e + 1)) ->
  valid64 (finish s r e).
Proof.
  intros Hr [->|(m & -> & Hm)]; unfold finish.
  - unfold shr_fexp, shr. simpl. destruct (fexp64 (0 + e) - e) as [|p|p]; try done.
    assert (H0 : shr_m (SpecFloat.iter_pos shr_1 p {| shr_m := 0; shr_r := false; shr_s := false |}) = 0).
    { rewrite iter_shr_div by (simpl; lia). reflexivity. }
    by rewrite H0.
  - destruct Hm as [Hc|(k & Hk & Hp & Hf)].
    + destruct (shr_fexp_run (Zpos m) e loc_Exact) as [H1 H2]; [lia|simpl; lia|].
      simpl Zdigits2 in H1, H2. rewrite Hc in H1, H2. rewrite Z.sub_diag, Z.div_1_r in H1.
      destruct (shr_fexp 53 1024 (Zpos m) e loc_Exact) as [mrs e']. simpl in H1, H2. rewrite H1, H2.
      destruct (e <=? 1024 - 53) eqn:E; bools; [|done]. apply canonical_valid; lia.
    + assert (Hd : Zpos (digits2_pos m) = k + 1).
      { apply digits_unique. rewrite Hp. replace (k + 1 - 1) with k by lia.
        rewrite Z.pow_add_r by lia. lia. }
      destruct (shr_fexp_run (Zpos m) e loc_Exact) as [H1 H2]; [lia|simpl Zdigits2; rewrite Hd; lia|].
      simpl Zdigits2 in H1, H2. rewrite Hd, Hf in H1, H2.
      replace (e + 1 - e) with 1 in H1 by lia.
      destruct (shr_fexp 53 1024 (Zpos m) e loc_Exact) as [mrs e']. unfold fst, snd in H1, H2.
      rewrite Hp, <- Z.pow_sub_r in H1 by lia. rewrite H1, H2.
      assert (Hpos : 0 < 2 ^ (k - 1)) by (apply Z.pow_pos_nonneg; lia).
      destruct (2 ^ (k - 1)) as [|m2|m2] eqn:E2; [lia| |lia].
      destruct (e + 1 <=? 1024 - 53) eqn:E; bools; [|done].
      apply canonical_valid; [|lia].
      rewrite (digits_unique m2 k); [replace (k + (e + 1)) with (k + 1 + e) by lia; done|].
      rewrite <- E2. split; [lia|]. apply Z.pow_lt_mono_r; lia.
Qed.

Lemma round_nearest_even_le m l : round_nearest_even m l <= m + 1.
Proof. destruct l as [|[]]; simpl; try lia. destruct (Z.even m); lia. Qed.

Lemma binary_round_aux_finish s z e l :
  binary_round_aux 53 1024 s z e l =
  let '(mrs, e') := shr_fexp 53 1024 z e l in
  finish s (round_nearest_even (shr_m mrs) (loc_of_shr_record mrs)) e'.
Proof. reflexivity. Qed.

(** Rounding a mantissa that is at least as long as the target gives a canonical
    float. *)
Lemma round_aux_valid s z e l :
  0 <= z -> e <= fexp64 (Zdigits2 z + e) -> (z = 0 -> e <= -1074) ->
  valid64 (binary_round_aux 53 1024 s z e l).
Proof.
  intros Hz He H0. rewrite binary_round_aux_finish.
  destruct (shr_fexp_run z e l Hz He) as [Hm He'].
  destruct (shr_fexp 53 1024 z e l) as [mrs e']. unfold fst, snd in Hm, He'.
  set (d := Zdigits2 z) in *. set (n := fexp64 (d + e) - e) in *.
  assert (Hpos : 0 < 2 ^ n) by (apply Z.pow_pos_nonneg; lia).
  pose proof (round_nearest_even_ge (shr_m mrs) (loc_of_shr_record mrs)) as Hlo.
  pose proof (round_nearest_even_le (shr_m mrs) (loc_of_shr_record mrs)) as Hhi.
  set (r := round_nearest_even _ _) in *.
  assert (Hm0 : 0 <= shr_m mrs) by (rewrite Hm; apply Z.div_pos; lia).
  apply finish_valid; [lia|].
  destruct (shr_m mrs) as [|m'|m'] eqn:Em; [| |lia].
  - (* everything was shifted out: the exponent is the least one *)
    assert (Hr : r = 0 \/ r = 1) by lia. destruct Hr as [Hr|Hr]; [by left|right].
    exists 1%positive. split; [done|]. left. change (fexp64 (1 + e') = e').
    assert (Hend : e' = -1074); [|rewrite Hend; reflexivity].
    rewrite He', fexp64_eq. destruct z as [|p|p]; [simpl in d; subst d; specialize (H0 eq_refl); lia| |lia].
    subst d. simpl Zdigits2 in *. destruct (digits_bounds p) as [Hp _].
    assert (Hlt : Zpos p < 2 ^ n) by (symmetry in Hm; apply Z.div_small_iff in Hm as [?|?]; lia).
    assert (Zpos (digits2_pos p) - 1 < n).
    { apply (Z.pow_lt_mono_r_iff 2); lia. }
    unfold n in *. rewrite fexp64_eq in *. lia.
  - destruct z as [|p|p]; [rewrite Z.div_0_l in Hm by lia; lia| |lia].
    subst d. simpl Zdigits2 in *. set (d := Zpos (digits2_pos p)) in *.
    destruct (digits_bounds p) as [Hp1 Hp2]. fold d in Hp1, Hp2.
    assert (Hnd : n < d).
    { apply Z.lt_nge. intros Hle. assert (2 ^ d <= 2 ^ n) by (apply Z.pow_le_mono_r; lia).
      rewrite Z.div_small in Hm by lia. lia. }
    assert (Hd' : Zpos (digits2_pos m') = d - n).
    { apply digits_unique. rewrite Hm. split.
      - apply Z.div_le_lower_bound; [lia|]. rewrite <- Z.pow_add_r by lia.
        replace (n + (d - n - 1)) with (d - 1) by lia. lia.
      - apply Z.div_lt_upper_bound; [lia|]. rewrite <- Z.pow_add_r by lia.
        replace (n + (d - n)) with d by lia. lia. }
    assert (Hc : fexp64 (d - n + e') = e').
    { rewrite He'. unfold n. f_equal. lia. }
    destruct (digits_bounds m') as [Hm1 Hm2]. rewrite Hd' in Hm1, Hm2.
    right. destruct r as [|r'|r'] eqn:Er; [lia| |lia]. exists r'. split; [done|].
    destruct (decide (Zpos r' < 2 ^ (d - n))) as [Hs|Hs].
    + left. rewrite (digits_unique r' (d - n)); [done|lia].
    + assert (Hr2 : Zpos r' = 2 ^ (d - n)) by lia.
      assert (Hdr : Zpos (digits2_pos r') = d - n + 1).
      { apply digits_unique. rewrite Hr2. replace (d - n + 1 - 1) with (d - n) by lia.
        rewrite Z.pow_add_r by lia. lia. }
      destruct (decide (fexp64 (d - n + 1 + e') = e')) as [Hf|Hf].
      * left. by rewrite Hdr.
      * right. exists (d - n). split; [lia|]. split; [done|]. rewrite fexp64_eq in *. lia.
Qed.

(** ** Products and quotients *)

Lemma valid_exponent s m e :
  valid64 (S754_finite s m e) -> fexp64 (Zpos (digits2_pos m) + e) = e.
Proof. unfold valid64, valid_binary, bounded, canonical_mantissa. intros H. bools. done. Qed.

Lemma digits_mul p q :
  Zpos (digits2_pos p) + Zpos (digits2_pos q) - 1 <= Zpos (digits2_pos (p * q)).
Proof.
  destruct (digits_bounds p) as [Hp _], (digits_bounds q) as [Hq _], (digits_bounds (p * q)) as [_ Hpq].
  assert (2 ^ (Zpos (digits2_pos p) - 1 + (Zpos (digits2_pos q) - 1)) < 2 ^ Zpos (digits2_pos (p * q))).
  { rewrite Z.pow_add_r by lia. eapply Z.le_lt_trans; [|exact Hpq]. rewrite Pos2Z.inj_mul.
    apply Z.mul_le_mono_nonneg; try done; apply Z.pow_nonneg; lia. }
  apply Z.pow_lt_mono_r_iff in H; lia.
Qed.

Lemma mul_valid x y : valid64 x -> valid64 y -> valid64 (mul x y).
Proof.
  intros Hx Hy. destruct x as [sx|sx| |sx mx ex], y as [sy|sy| |sy my ey]; try done.
  apply valid_exponent in Hx, Hy. unfold mul, SFmul. apply round_aux_valid; [lia| |lia].
  simpl Zdigits2. pose proof (digits_mul mx my). rewrite fexp64_eq in *. lia.
Qed.

Lemma div_valid x y : valid64 x -> valid64 y -> valid64 (div x y).
Proof.
  intros Hx Hy. destruct x as [sx|sx| |sx mx ex], y as [sy|sy| |sy my ey]; try done.
  apply valid_exponent in Hx, Hy. unfold div, SFdiv, SFdiv_core_binary. cbv zeta. simpl Zdigits2.
  set (dx := Zpos (digits2_pos mx)) in *. set (dy := Zpos (digits2_pos my)) in *.
  set (e' := Z.min _ _). set (m' := match _ with Z0 => _ | Zpos _ => _ | Zneg _ => _ end).
  assert (Hm' : m' = Zpos mx * 2 ^ (ex - ey - e')).
  { unfold m'. destruct (ex - ey - e') as [|p|p] eqn:E; [lia|by rewrite Z.shiftl_mul_pow2|unfold e' in E; lia]. }
  pose proof (Z.div_eucl_eq m' (Zpos my)) as Hq. pose proof (Z.mod_pos_bound m' (Zpos my)) as Hrem.
  unfold Z.modulo in Hrem.
  destruct (Z.div_eucl m' (Zpos my)) as [q r]. specialize (Hq ltac:(lia)). specialize (Hrem ltac:(lia)).
  assert (Hs : 0 <= ex - ey - e') by (unfold e'; lia).
  destruct (digits_bounds mx) as [Hx1 Hx2], (digits_bounds my) as [Hy1 Hy2]. fold dx in Hx1, Hx2. fold dy in Hy1, Hy2.
  assert (Hlow : 2 ^ (dx - 1 + (ex - ey - e')) <= m').
  { rewrite Hm', Z.pow_add_r by lia. apply Z.mul_le_mono_nonneg_r; [apply Z.pow_nonneg; lia|done]. }
  assert (Hm0 : 0 < m') by (eapply Z.lt_le_trans; [|exact Hlow]; apply Z.pow_pos_nonneg; lia).
  assert (Hq0 : 0 <= q) by nia.
  apply round_aux_valid; [done| |].
  - destruct q as [|q'|q']; [|simpl Zdigits2|lia].
    + simpl. rewrite fexp64_eq. unfold e'. rewrite fexp64_eq in *. clearbody m'.
      assert (Hlt : 2 ^ (dx - 1 + (ex - ey - e')) < 2 ^ dy) by lia.
      apply Z.pow_lt_mono_r_iff in Hlt; [|lia|lia]. unfold e' in Hlt. rewrite fexp64_eq in Hlt. lia.
    + destruct (digits_bounds q') as [_ Hq2]. set (dq := Zpos (digits2_pos q')) in *.
      assert (Hlt : 2 ^ (dx - 1 + (ex - ey - e')) < 2 ^ (dy + dq)).
      { rewrite (Z.pow_add_r 2 dy dq) by lia. nia. }
      apply Z.pow_lt_mono_r_iff in Hlt; [|lia|lia].
      rewrite fexp64_eq. unfold e' in *. rewrite fexp64_eq in *. lia.
  - intros ->. assert (Hlt : 2 ^ (dx - 1 + (ex - ey - e')) < 2 ^ dy) by lia.
    apply Z.pow_lt_mono_r_iff in Hlt; [|lia|lia].
    unfold e' in *. rewrite fexp64_eq in *. lia.
Qed.

Lemma of_Z_canonical z : valid64 (of_Z z).
Proof.
  assert (Hb : forall s p, valid64 (binary_round 53 1024 s p 0)).
  { intros s p. unfold binary_round, shl_align.
    destruct (fexp64 (Zpos (digits2_pos p) + 0) - 0) as [|d|d] eqn:E;
      (apply round_aux_valid; [lia| |lia]); cbn [Zdigits2]; rewrite ?digits_iter_xO, ?fexp64_eq in *; lia. }
  destruct z as [|p|p]; [done|apply Hb|apply Hb].
Qed.

(** ** Signs *)

Definition not_neg (x : float64) : bool :=
  match x with S754_finite true _ _ | S754_infinity true => false | _ => true end.

Lemma round_aux_not_neg z e l : not_neg (binary_round_aux 53 1024 false z e l) = true.
Proof.
  unfold binary_round_aux. destruct (shr_fexp _ _ z e l) as [mrs e'].
  destruct (shr_fexp _ _ _ e' _) as [mrs' e2]. destruct (shr_m mrs'); [done| |done].
  by destruct (e2 <=? _).
Qed.

Lemma mul_not_neg x y : not_neg x = true -> not_neg y = true -> not_neg (mul x y) = true.
Proof.
  destruct x as [sx|[]| |[] mx ex], y as [sy|[]| |[] my ey]; try done; intros _ _.
  apply round_aux_not_neg.
Qed.
Lemma div_not_neg x y : not_neg x = true -> not_neg y = true -> y <> S754_zero true ->
  not_neg (div x y) = true.
Proof.
  destruct x as [sx|[]| |[] mx ex], y as [[]|[]| |[] my ey]; try done; intros _ _ _.
  unfold div, SFdiv. destruct (SFdiv_core_binary _ _ _ _ _ _) as [[q e] l]. apply round_aux_not_neg.
Qed.
Lemma to_Z_not_neg x : not_neg x = true -> 0 <= to_Z x.
Proof.
  destruct x as [sx|[]| |[] m e]; simpl; try done. intros _. unfold trunc_abs.
  destruct (0 <=? e) eqn:E; bools.
  - apply Z.mul_nonneg_nonneg; [lia|]. by apply Z.pow_nonneg.
  - apply Z.div_pos; [lia|]. apply Z.pow_pos_nonneg; lia.
Qed.
Lemma of_Z_not_neg z : 0 <= z -> not_neg (of_Z z) = true.
Proof.
  destruct z as [|p|p]; [done| |lia]. intros _. unfold of_Z, binary_normalize, binary_round.
  destruct (shl_align _ _ _). apply round_aux_not_neg.
Qed.
Lemma Round_not_neg x : not_neg x = true -> not_neg (Round x) = true.
Proof.
  destruct x as [sx|[]| |[] m e]; try done. intros _. unfold Round. destruct (0 <=? e) eqn:E; [done|].
  cbv zeta. destruct (_ =? 0); [done|]. apply of_Z_not_neg.
  pose proof (Z.pow_nonneg 2 (- e) ltac:(lia)). apply Z.div_pos; [lia|].
  bools. apply Z.pow_pos_nonneg; lia.
Qed.
(** Zero, or not a number: what a product with a zero factor is (against an
    infinity it is not a number). *)
Definition vanishes (x : float64) : Prop := (exists s, x = S754_zero s) \/ x = S754_nan.
Lemma mul_vanishes x y : vanishes x \/ vanishes y -> vanishes (mul x y).
Proof.
  unfold vanishes. intros [[[s ->]| ->]|[[s ->]| ->]]; [destruct y|by right|destruct x|destruct x];
    simpl; eauto.
Qed.
Lemma eqb_vanishes x : eqb x zero = true -> vanishes x.
Proof. destruct x as [s|[]| |[] m e]; try done. intros _. left. by eexists. Qed.

Create HintDb float.
#[export] Hint Resolve mul_valid div_valid of_Z_canonical mul_not_neg of_Z_not_neg : float.

End F64Valid.
