(* ===== verification/QuotaMath.v ===== *)
(** * Quota conversions (src/common/quota_math.go, src/common/quota.go)

    Every billing path turns a computed price into an integer quota through
    the functions of this file: they saturate to the int32 range of the
    database's quota columns and report the saturation.  The arbitrary
    precision decimals of github.com/shopspring/decimal are an interface: the
    operations the code calls, with their documented meaning as laws. *)

From Stdlib Require Import SpecFloat QArith Qround.
From S2P Require Import Prelude GoFloat.
#[local] Open Scope Z_scope.

(** ** github.com/shopspring/decimal *)

Class Decimal (D : Type) := {
  NewFromInt : Z -> D;
  NewFromFloat : F64.float64 -> D;
  dAdd : D -> D -> D;
  dSub : D -> D -> D;
  dMul : D -> D -> D;
  dDiv : D -> D -> D;
  dRound0 : D -> D;                  (** d.Round(0) *)
  dCeil : D -> D;
  dIntPart : D -> Z;
  dFloat64 : D -> F64.float64;       (** first result of d.Float64() *)
  dIsZero : D -> bool;
  dIsNegative : D -> bool;
  dLessThanOrEqual : D -> D -> bool;
}.

(** Half away from zero, the documented rounding of [Round]. *)
Definition half_away (q : Q) : Z :=
  if Qle_bool 0 q then Qfloor (q + (1 # 2)) else - Qfloor (- q + (1 # 2)).

(** The documented behaviour: [dec_val d] is the number [d] denotes.  Sums and
    products are exact; [Float64] of an integer is its nearest float64; a
    nonnegative float converts to a nonnegative decimal. *)
Class DecimalLaws (D : Type) `{Decimal D} := {
  dec_val : D -> Q;
  NewFromInt_val z : (dec_val (NewFromInt z) == inject_Z z)%Q;
  NewFromFloat_nonneg x : F64.leb F64.zero x = true -> (0 <= dec_val (NewFromFloat x))%Q;
  dAdd_val a b : (dec_val (dAdd a b) == dec_val a + dec_val b)%Q;
  dSub_val a b : (dec_val (dSub a b) == dec_val a - dec_val b)%Q;
  dMul_val a b : (dec_val (dMul a b) == dec_val a * dec_val b)%Q;
  dRound0_val a : (dec_val (dRound0 a) == inject_Z (half_away (dec_val a)))%Q;
  dCeil_val a : (dec_val (dCeil a) == inject_Z (Qceiling (dec_val a)))%Q;
  dIntPart_val a z : - 2 ^ 63 <= z < 2 ^ 63 -> (dec_val a == inject_Z z)%Q -> dIntPart a = z;
  dFloat64_int a z : (dec_val a == inject_Z z)%Q -> dFloat64 a = F64.of_Z z;
  dIsZero_val a : dIsZero a = true <-> (dec_val a == 0)%Q;
  dIsNegative_val a : dIsNegative a = true <-> (dec_val a < 0)%Q;
  dLessThanOrEqual_val a b : dLessThanOrEqual a b = true <-> (dec_val a <= dec_val b)%Q;
}.

(** The rationals implement the interface: it is satisfiable. *)
Definition float_val (x : F64.float64) : Q :=
  match x with
  | S754_finite s m e =>
      let a := (if 0 <=? e then inject_Z (Zpos m * 2 ^ e) else Zpos m # Z.to_pos (2 ^ (- e))) in
      if s then (- a)%Q else a
  | _ => 0%Q
  end.
#[export] Instance Q_Decimal : Decimal Q := {|
  NewFromInt := inject_Z;
  NewFromFloat := float_val;
  dAdd := Qplus; dSub := Qminus; dMul := Qmult; dDiv := Qdiv;
  dRound0 := fun q => inject_Z (half_away q);
  dCeil := fun q => inject_Z (Qceiling q);
  dIntPart := fun q => Z.quot (Qnum q) (Zpos (Qden q));
  dFloat64 := fun q =>
    if Qeq_bool q (inject_Z (Qfloor q)) then F64.of_Z (Qfloor q)
    else F64.div (F64.of_Z (Qnum q)) (F64.of_Z (Zpos (Qden q)));
  dIsZero := fun q => Qeq_bool q 0;
  dIsNegative := fun q => negb (Qle_bool 0 q);
  dLessThanOrEqual := Qle_bool;
|}.

Lemma Qfloor_int q z : (q == inject_Z z)%Q -> Qfloor q = z.
Proof. intros ->. apply Qfloor_Z. Qed.

#[export, refine] Instance Q_DecimalLaws : DecimalLaws Q := {| dec_val := fun q => q |}.
Proof.
  all: try reflexivity.
  - intros [z|s| |[] m e]; simpl; try done.
    unfold float_val. destruct (0 <=? e) eqn:E; bools; intros _.
    + change 0%Q with (inject_Z 0). rewrite <- Zle_Qle.
      apply Z.mul_nonneg_nonneg; [lia|apply Z.pow_nonneg; lia].
    + unfold Qle. simpl. lia.
  - intros q z _ Hq. simpl. unfold Qeq in Hq. simpl in Hq. rewrite Z.mul_1_r in Hq.
    rewrite Hq. apply Z.quot_mul. lia.
  - intros q z Hq. simpl. rewrite (Qfloor_int q z Hq).
    assert (Qeq_bool q (inject_Z z) = true) as -> by (by apply Qeq_bool_iff). done.
  - intros q. simpl. apply Qeq_bool_iff.
  - intros q. simpl. rewrite negb_true_iff, <- not_true_iff_false, Qle_bool_iff.
    split; [apply Qnot_le_lt | apply Qlt_not_le].
  - intros a b. simpl. apply Qle_bool_iff.
Defined.

Module Quota.

Definition MaxQuota : Z := 2147483647.
Definition MinQuota : Z := -2147483648.

Inductive QuotaClampKind := QuotaClampOverflow | QuotaClampUnderflow | QuotaClampNaN.

Record QuotaClamp := mkQuotaClamp {
  Op : string;
  Kind : QuotaClampKind;
  Original : F64.float64;
  Clamped : Z;
}.

Definition saturateQuota (value : F64.float64) (op : string) : Z * option QuotaClamp :=
  let clamped k c := (c, Some (mkQuotaClamp op k value c)) in
  if F64.IsNaN value then clamped QuotaClampNaN 0
  else if F64.leb (F64.of_Z MaxQuota) value then clamped QuotaClampOverflow MaxQuota
  else if F64.leb value (F64.of_Z MinQuota) then clamped QuotaClampUnderflow MinQuota
  else (F64.to_Z value, None).

Definition strictQuota (r : Z * option QuotaClamp) : result QuotaClamp Z :=
  match r.2 with
  | Some clamp => Err clamp
  | None => Ok r.1
  end.

Definition QuotaFromFloatChecked (value : F64.float64) : Z * option QuotaClamp :=
  saturateQuota value "QuotaFromFloat".
Definition QuotaFromFloat (value : F64.float64) : Z := (QuotaFromFloatChecked value).1.
Definition QuotaFromFloatStrict (value : F64.float64) : result QuotaClamp Z :=
  strictQuota (QuotaFromFloatChecked value).

Definition QuotaRoundChecked (value : F64.float64) : Z * option QuotaClamp :=
  saturateQuota (F64.Round value) "QuotaRound".
Definition QuotaRound (value : F64.float64) : Z := (QuotaRoundChecked value).1.
Definition QuotaRoundStrict (value : F64.float64) : result QuotaClamp Z :=
  strictQuota (QuotaRoundChecked value).

Definition QuotaFromDecimalChecked `{Decimal D} (d : D) : Z * option QuotaClamp :=
  saturateQuota (dFloat64 (dRound0 d)) "QuotaFromDecimal".
Definition QuotaFromDecimal `{Decimal D} (d : D) : Z := (QuotaFromDecimalChecked d).1.

(** common.GetTrustQuota; [QuotaPerUnit] is a float64 setting. *)
Definition GetTrustQuota (QuotaPerUnit : F64.float64) : Z :=
  F64.to_Z (F64.mul (F64.of_Z 10) QuotaPerUnit).

(** The reference: clamp an integer to the quota range. *)
Definition clampZ (z : Z) : Z := Z.max MinQuota (Z.min MaxQuota z).

(** ** Comparison with the bounds *)

Lemma MaxQuota_float : F64.of_Z MaxQuota = S754_finite false 9007199250546688 (-22).
Proof. reflexivity. Qed.
Lemma MinQuota_float : F64.of_Z MinQuota = S754_finite true 4503599627370496 (-21).
Proof. reflexivity. Qed.

Lemma pos_compare_le m n :
  match Pos.compare_cont Eq m n with Lt | Eq => true | Gt => false end = (Zpos m <=? Zpos n).
Proof.
  change (Pos.compare_cont Eq m n) with (Pos.compare m n).
  destruct (Pos.compare_spec m n); symmetry; [apply Z.leb_le | apply Z.leb_le | apply Z.leb_gt]; lia.
Qed.

Lemma pos_compare_ge m n :
  match CompOpp (Pos.compare_cont Eq m n) with Lt | Eq => true | Gt => false end
  = (Zpos n <=? Zpos m).
Proof.
  change (Pos.compare_cont Eq m n) with (Pos.compare m n).
  destruct (Pos.compare_spec m n); symmetry; [apply Z.leb_le | apply Z.leb_gt | apply Z.leb_le]; lia.
Qed.

(** [MaxQuota <= value] exactly when the truncated value reaches MaxQuota. *)
Lemma max_le_pos m e :
  F64.valid64 (S754_finite false m e) ->
  F64.leb (F64.of_Z MaxQuota) (S754_finite false m e) = (MaxQuota <=? F64.trunc_abs m e).
Proof.
  intros Hv. destruct (F64.valid_mantissa _ _ _ Hv) as [Hm Hn].
  rewrite MaxQuota_float. unfold F64.leb, SFleb, SFcompare, MaxQuota.
  destruct (Z.compare_spec (-22) e) as [<-|Hlt|Hgt].
  - rewrite pos_compare_le. change (F64.trunc_abs m (-22)) with (Zpos m / 4194304).
    apply eq_true_iff_eq. rewrite !Z.leb_le. Z.div_mod_to_equations. lia.
  - symmetry. apply Z.leb_le. pose proof (F64.trunc_abs_above m e). lia.
  - symmetry. apply Z.leb_gt. pose proof (F64.trunc_abs_below m e Hm). lia.
Qed.

(** [value <= MinQuota] for a negative value. *)
Lemma le_min_neg m e :
  F64.valid64 (S754_finite true m e) ->
  F64.leb (S754_finite true m e) (F64.of_Z MinQuota) = (- F64.trunc_abs m e <=? MinQuota).
Proof.
  intros Hv. destruct (F64.valid_mantissa _ _ _ Hv) as [Hm Hn].
  rewrite MinQuota_float. unfold F64.leb, SFleb, SFcompare, MinQuota.
  destruct (Z.compare_spec e (-21)) as [->|Hlt|Hgt].
  - destruct Hn as [?|Hn]; [lia|].
    rewrite pos_compare_ge.
    change (F64.trunc_abs m (-21)) with (Zpos m / 2097152).
    apply eq_true_iff_eq. rewrite !Z.leb_le. Z.div_mod_to_equations. lia.
  - symmetry. apply Z.leb_gt. unfold F64.trunc_abs.
    destruct (0 <=? e) eqn:E; bools; [lia|].
    assert (2 ^ 22 <= 2 ^ (- e)) by (apply Z.pow_le_mono_r; lia).
    assert (Zpos m / 2 ^ (- e) < 2 ^ 31) by (apply Z.div_lt_upper_bound; nia). lia.
  - symmetry. apply Z.leb_le. destruct Hn as [?|Hn]; [lia|].
    pose proof (F64.trunc_abs_above m e). lia.
Qed.


(** ** Saturation *)

Definition is_finite (x : F64.float64) : bool :=
  match x with S754_zero _ | S754_finite _ _ _ => true | _ => false end.

Lemma trunc_abs_nonneg m e : 0 <= F64.trunc_abs m e.
Proof.
  unfold F64.trunc_abs. destruct (0 <=? e) eqn:E; bools.
  - apply Z.mul_nonneg_nonneg; [lia | apply Z.pow_nonneg; lia].
  - apply Z.div_pos; [lia | apply Z.pow_pos_nonneg; lia].
Qed.

(** The finite case of [saturateQuota], by the sign of the value. *)
Lemma saturate_finite v op :
  F64.valid64 v -> is_finite v = true ->
  saturateQuota v op =
    if MaxQuota <=? F64.to_Z v
    then (MaxQuota, Some (mkQuotaClamp op QuotaClampOverflow v MaxQuota))
    else if F64.to_Z v <=? MinQuota
    then (MinQuota, Some (mkQuotaClamp op QuotaClampUnderflow v MinQuota))
    else (F64.to_Z v, None).
Proof.
  intros Hv Hf. unfold saturateQuota.
  destruct v as [z|s| |[] m e]; try done; cbn [F64.IsNaN F64.to_Z].
  - replace (F64.leb (F64.of_Z MaxQuota) (S754_finite true m e)) with false by done.
    rewrite le_min_neg by done. pose proof (trunc_abs_nonneg m e).
    replace (MaxQuota <=? - F64.trunc_abs m e) with false; [done|].
    symmetry. apply Z.leb_gt. unfold MaxQuota. lia.
  - rewrite max_le_pos by done. pose proof (trunc_abs_nonneg m e).
    replace (F64.leb (S754_finite false m e) (F64.of_Z MinQuota)) with false by done.
    replace (F64.trunc_abs m e <=? MinQuota) with false; [done|].
    symmetry. apply Z.leb_gt. unfold MinQuota. lia.
Qed.

Lemma clampZ_range z : MinQuota <= clampZ z <= MaxQuota.
Proof. unfold clampZ, MinQuota, MaxQuota. lia. Qed.

(** An integer-valued float saturates to the clamped integer, however large. *)
Lemma saturate_of_Z z op : (saturateQuota (F64.of_Z z) op).1 = clampZ z.
Proof.
  destruct (decide (Z.abs z < 2 ^ 53)) as [Hz|Hz].
  - rewrite saturate_finite; [|by apply F64.of_Z_valid|].
    + rewrite F64.to_Z_of_Z by done. unfold clampZ.
      destruct (MaxQuota <=? z) eqn:E1, (z <=? MinQuota) eqn:E2; bools;
        unfold MinQuota, MaxQuota in *; simpl; lia.
    + unfold F64.of_Z. destruct z as [|p|p]; [done| |]; simpl.
      * destruct (F64.binary_round_small false p) as (? & ? & -> & _); [|done].
        apply F64.digits_le_of_lt; lia.
      * destruct (F64.binary_round_small true p) as (? & ? & -> & _); [|done].
        apply F64.digits_le_of_lt; lia.
  - assert (Hs : clampZ z = if z <? 0 then MinQuota else MaxQuota).
    { unfold clampZ, MinQuota, MaxQuota. destruct (z <? 0) eqn:Es; bools; lia. }
    rewrite Hs. unfold saturateQuota, F64.leb, SFleb. rewrite MaxQuota_float, MinQuota_float.
    destruct (F64.of_Z_big z) as [->|(m & e & -> & He)]; [lia | |].
    + by destruct (z <? 0).
    + destruct (z <? 0); cbn [F64.IsNaN SFcompare].
      * replace (e ?= -21) with Gt by (symmetry; apply Z.compare_gt_iff; lia). reflexivity.
      * replace (-22 ?= e) with Lt by (symmetry; apply Z.compare_lt_iff; lia). reflexivity.
Qed.

(** What a strict conversion accepts: the truncated value, inside the range. *)
Lemma strict_saturate_ok v op q :
  F64.valid64 v -> strictQuota (saturateQuota v op) = Ok q -> q = F64.to_Z v /\ MinQuota < q < MaxQuota.
Proof.
  intros Hv. destruct (is_finite v) eqn:Hf.
  - unfold strictQuota. rewrite saturate_finite by done.
    repeat case_match; simplify_eq/=; bools; naive_solver lia.
  - by destruct v as [z|[]| |s m e].
Qed.
Lemma strict_zero v op q :
  (exists s, v = S754_zero s) \/ v = S754_nan -> strictQuota (saturateQuota v op) = Ok q -> q = 0.
Proof. intros [[s ->]| ->]; vm_compute; [|done]. by destruct s; intros [= <-]. Qed.

(** ** Rounding *)

(** The integer a finite float rounds to, half away from zero. *)
Definition round_abs (m : positive) (e : Z) : Z :=
  if 0 <=? e then Zpos m * 2 ^ e else (2 * Zpos m + 2 ^ (- e)) / 2 ^ (- e + 1).
Definition round_half_away (x : F64.float64) : Z :=
  match x with
  | S754_finite false m e => round_abs m e
  | S754_finite true m e => - round_abs m e
  | _ => 0
  end.

Lemma saturate_Round v op :
  F64.valid64 v -> is_finite v = true ->
  (saturateQuota (F64.Round v) op).1 = clampZ (round_half_away v).
Proof.
  intros Hv Hf. destruct v as [z|s| |s m e]; try done.
  unfold F64.Round, round_half_away, round_abs.
  destruct (0 <=? e) eqn:E.
  - rewrite saturate_finite by done. unfold F64.to_Z, F64.trunc_abs. rewrite E.
    unfold clampZ. destruct s; repeat case_match; bools; unfold MinQuota, MaxQuota in *;
      simpl; lia.
  - cbv zeta. set (q := (2 * Zpos m + 2 ^ (- e)) / 2 ^ (- e + 1)).
    destruct (q =? 0) eqn:Eq; bools.
    + rewrite Eq. destruct s; reflexivity.
    + rewrite saturate_of_Z. by destruct s.
Qed.

(** ** Properties *)

(** [saturateQuota]: for every float64 the result lies in the int32 quota
    range; NaN gives 0, the infinities and out-of-range values give the bound on
    their side, any other value is truncated toward zero; a clamp is reported
    exactly when the truncated value is not strictly inside the range, and it
    records the operation, the input and the value that was used. *)
Theorem saturateQuota_spec v op (Hv : F64.valid64 v) :
  let '(q, c) := saturateQuota v op in
  MinQuota <= q <= MaxQuota /\
  q = match v with
      | S754_nan => 0
      | S754_infinity s => if s then MinQuota else MaxQuota
      | _ => clampZ (F64.to_Z v)
      end /\
  (c = None <-> is_finite v = true /\ MinQuota < F64.to_Z v < MaxQuota) /\
  (forall k, c = Some k -> Op k = op /\ Original k = v /\ Clamped k = q).
Proof.
  destruct (is_finite v) eqn:Hf.
  - rewrite saturate_finite by done.
    assert (Hc : match v with S754_nan => 0 | S754_infinity s => if s then MinQuota else MaxQuota
                 | _ => clampZ (F64.to_Z v) end = clampZ (F64.to_Z v)) by (by destruct v).
    rewrite Hc. unfold clampZ. clear Hc.
    destruct (MaxQuota <=? F64.to_Z v) eqn:E1; [|destruct (F64.to_Z v <=? MinQuota) eqn:E2];
      bools; unfold MinQuota, MaxQuota in *;
      (split; [lia|]; split; [lia|]; split; [|naive_solver]);
      (split; [done || (intros _; split; [done|lia]) | naive_solver lia]).
  - destruct v as [z|[]| |s m e]; try done; unfold saturateQuota; cbn -[MinQuota MaxQuota];
      unfold MinQuota, MaxQuota;
      (split; [lia|]; split; [done|]; split; naive_solver).
Qed.

Lemma saturateQuota_spec_witness :
  F64.valid64 (F64.of_Z 3000000000) /\
  (let '(q, c) := saturateQuota (F64.of_Z 3000000000) "QuotaFromFloat" in
   MinQuota <= q <= MaxQuota /\
   q = MaxQuota /\ (c = None <-> true = true /\ MinQuota < 3000000000 < MaxQuota)).
Proof.
  split; [reflexivity|].
  destruct (saturateQuota_spec (F64.of_Z 3000000000) "QuotaFromFloat" eq_refl) as (H1 & H2 & H3 & _).
  exact (conj H1 (conj H2 H3)).
Defined.

(** The strict conversions never let a saturated amount reach billing: a
    successful [QuotaFromFloatStrict] is the truncated value, strictly inside the
    int32 range, and every other input is refused with the clamp that explains
    it. *)
Theorem QuotaFromFloatStrict_spec v (Hv : F64.valid64 v) :
  match QuotaFromFloatStrict v with
  | Ok q => q = F64.to_Z v /\ MinQuota < q < MaxQuota
  | Err k => Original k = v /\ Op k = "QuotaFromFloat" /\
             ~ (is_finite v = true /\ MinQuota < F64.to_Z v < MaxQuota)
  end.
Proof.
  unfold QuotaFromFloatStrict, strictQuota, QuotaFromFloatChecked.
  destruct (is_finite v) eqn:Hf.
  - rewrite saturate_finite by done.
    repeat case_match; simplify_eq/=; bools; naive_solver lia.
  - destruct v as [z|[]| |s m e]; try done; vm_compute; naive_solver.
Qed.

Lemma QuotaFromFloatStrict_spec_witness :
  QuotaFromFloatStrict (F64.of_Z 12345) = Ok 12345 /\
  (12345 = F64.to_Z (F64.of_Z 12345) /\ MinQuota < 12345 < MaxQuota).
Proof.
  split; [reflexivity|].
  exact (QuotaFromFloatStrict_spec (F64.of_Z 12345) eq_refl).
Defined.

(** [QuotaRound] is half-away-from-zero rounding followed by saturation, for
    every finite float64. *)
Theorem QuotaRound_spec v (Hv : F64.valid64 v) (Hf : is_finite v = true) :
  QuotaRound v = clampZ (round_half_away v).
Proof. unfold QuotaRound, QuotaRoundChecked. by apply saturate_Round. Qed.

Lemma QuotaRound_spec_witness :
  QuotaRound (F64.div (F64.of_Z 5) (F64.of_Z 2)) = 3 /\
  QuotaRound (F64.div (F64.of_Z (-5)) (F64.of_Z 2)) = -3.
Proof.
  rewrite (QuotaRound_spec (F64.div (F64.of_Z 5) (F64.of_Z 2)) eq_refl eq_refl).
  rewrite (QuotaRound_spec (F64.div (F64.of_Z (-5)) (F64.of_Z 2)) eq_refl eq_refl).
  split; reflexivity.
Defined.

Lemma QuotaFromDecimal_clamp `{DecimalLaws D} (d : D) :
  (QuotaFromDecimalChecked d).1 = clampZ (half_away (dec_val d)).
Proof.
  unfold QuotaFromDecimalChecked.
  rewrite (dFloat64_int _ (half_away (dec_val d))) by apply dRound0_val.
  apply saturate_of_Z.
Qed.

(** [QuotaFromDecimal] rounds the exact decimal amount half away from zero and
    saturates it, for every decimal however large: the detour through float64
    loses nothing. *)
Theorem QuotaFromDecimal_spec `{DecimalLaws D} (d : D) :
  QuotaFromDecimal d = clampZ (half_away (dec_val d)).
Proof.
  apply QuotaFromDecimal_clamp.
Qed.

Lemma QuotaFromDecimal_spec_witness :
  QuotaFromDecimal (5 # 2) = 3 /\ QuotaFromDecimal (inject_Z (10 ^ 30)) = MaxQuota.
Proof.
  rewrite !QuotaFromDecimal_spec. split; reflexivity.
Defined.

End Quota.
