(* ===== verification/ApiError.v ===== *)
(** * Relay errors (src/types/error.go)

    The error value the relay handlers pass around, with the payload of an upstream
    error.  The masking of messages is a parameter. *)

From S2P Require Import Prelude GoStd GoFloat QuotaMath.

(** ErrorCode constants the billing path uses. *)
Definition ErrorCodeInvalidRequest : string := "invalid_request".
Definition ErrorCodeModelPriceError : string := "model_price_error".
Definition ErrorCodeQueryDataError : string := "query_data_error".
Definition ErrorCodeUpdateDataError : string := "update_data_error".
Definition ErrorCodeInsufficientUserQuota : string := "insufficient_user_quota".
Definition ErrorCodePreConsumeTokenQuotaFailed : string := "pre_consume_token_quota_failed".

Definition ErrorCodeGetChannelFailed : string := "get_channel_failed".
Definition ErrorCodeChannelNoAvailableKey : string := "channel:no_available_key".

Definition ErrorTypeNewAPIError : string := "new_api_error".
Definition StatusBadRequest : Z := 400.
Definition StatusForbidden : Z := 403.
Definition StatusInternalServerError : Z := 500.

Definition ErrorTypeOpenAIError : string := "openai_error".
Definition ErrorTypeClaudeError : string := "claude_error".
Definition ErrorCodeCountTokenFailed : string := "count_token_failed".
Definition ErrorCodeReadRequestBodyFailed : string := "read_request_body_failed".
Definition ErrorCodeViolationFeeGrokCSAM : string := "violation_fee.grok.csam".
Definition StatusRequestEntityTooLarge : Z := 413.
Definition StatusTooManyRequests : Z := 429.
Definition StatusServiceUnavailable : Z := 503.

(** The payload of an upstream error.  [Code] is an [any]: [COther] is a value that is
    not a string, with its text under %v. *)
Inductive code_value := CNil | CString (s : string) | COther (text : string).
Record OpenAIError := mkOpenAIError {
  oe_Message : string;
  oe_Type : string;
  oe_Param : string;
  oe_Code : code_value;
  oe_Metadata : string;
}.
#[export] Instance OpenAIError_settable : Settable OpenAIError :=
  fields_of mkOpenAIError < oe_Message; oe_Type; oe_Param; oe_Code; oe_Metadata >.
Record ClaudeError := mkClaudeError {
  ce_Type : string;
  ce_Message : string;
}.
#[export] Instance ClaudeError_settable : Settable ClaudeError := fields_of mkClaudeError < ce_Type; ce_Message >.
(** A value of Go's [error] interface on this path: a plain error, the
    saturation report of a quota conversion, or an API error passed on; and its payload.
    [REOwn]: an OpenAIError with the text of an error as its message and the code as
    its type. *)
Inductive go_error :=
| GPlain (e : error)
| GClamp (c : Quota.QuotaClamp)
| GApi (e : go_error) (relayError : relay_error) (skipRetry : bool) (recordErrorLog : option bool)
    (errorType errorCode : string) (statusCode : Z)
with relay_error :=
| RENone
| REOpenAI (e : OpenAIError)
| REOwn (err : go_error) (code : string)
| REClaude (e : ClaudeError).

Record NewAPIError := mkAPIError {
  ae_Err : go_error;
  ae_RelayError : relay_error;
  ae_skipRetry : bool;
  ae_recordErrorLog : option bool;
  ae_errorType : string;
  ae_errorCode : string;
  ae_StatusCode : Z;
}.
#[export] Instance NewAPIError_settable : Settable NewAPIError :=
  fields_of mkAPIError < ae_Err; ae_RelayError; ae_skipRetry; ae_recordErrorLog; ae_errorType; ae_errorCode;
    ae_StatusCode >.

Definition as_error (e : NewAPIError) : go_error :=
  GApi (ae_Err e) (ae_RelayError e) (ae_skipRetry e) (ae_recordErrorLog e) (ae_errorType e) (ae_errorCode e)
    (ae_StatusCode e).

(** Error() of a clamp prints its numbers with %s, %g and %d. *)
Definition clamp_kind_text (k : Quota.QuotaClampKind) : string :=
  match k with
  | Quota.QuotaClampOverflow => "overflow"
  | Quota.QuotaClampUnderflow => "underflow"
  | Quota.QuotaClampNaN => "nan"
  end.
Section text.
Context (format_g : F64.float64 -> string).
Fixpoint go_error_text (e : go_error) : string :=
  match e with
  | GPlain e => error_text e
  | GClamp c => "quota conversion (" +:+ Quota.Op c +:+ ") " +:+ clamp_kind_text (Quota.Kind c) +:+ ": original="
      +:+ format_g (Quota.Original c) +:+ ", clamped=" +:+ GoText.Itoa (Quota.Clamped c)
  | GApi e _ _ _ _ _ _ => go_error_text e
  end.
End text.

(** *** Options *)
Definition Option_ : Type := NewAPIError -> NewAPIError.
Definition ErrOptionWithSkipRetry : Option_ := fun e => e <| ae_skipRetry := true |>.
Definition ErrOptionWithNoRecordErrorLog : Option_ := fun e => e <| ae_recordErrorLog := Some false |>.
Definition ErrOptionWithStatusCode (statusCode : Z) : Option_ :=
  fun e => e <| ae_StatusCode := statusCode |>.
Definition apply_options (ops : list Option_) (e : NewAPIError) : NewAPIError :=
  fold_left (fun e op => op e) ops e.

(** *** Constructors *)

(** An API error that is already in the chain is kept, with the options. *)
Definition NewError (err : go_error) (errorCode : string) (ops : list Option_) : NewAPIError :=
  match err with
  | GApi e relay skip rec ty code status => apply_options ops (mkAPIError e relay skip rec ty code status)
  | _ => apply_options ops
           (mkAPIError err RENone false None ErrorTypeNewAPIError errorCode StatusInternalServerError)
  end.

Definition NewErrorWithStatusCode (err : go_error) (errorCode : string) (statusCode : Z)
    (ops : list Option_) : NewAPIError :=
  apply_options ops (mkAPIError err (REOwn err errorCode) false None ErrorTypeNewAPIError errorCode statusCode).

(** The code of a payload as a text, and WithOpenAIError, WithClaudeError. *)
Definition code_text (c : code_value) : string :=
  match c with CString s => s | COther text => text | CNil => "unknown_error" end.
Definition WithOpenAIError (openAIError : OpenAIError) (statusCode : Z) (ops : list Option_) : NewAPIError :=
  let code := code_text (oe_Code openAIError) in
  let o := if decide (oe_Type openAIError = "") then openAIError <| oe_Type := "upstream_error" |> else openAIError in
  let o := if decide (oe_Metadata o = "") then o
           else o <| oe_Message := oe_Message o +:+ " (" +:+ oe_Metadata o +:+ ")" |> in
  apply_options ops (mkAPIError (GPlain (ErrNew (oe_Message o))) (REOpenAI o) false None
    ErrorTypeOpenAIError code statusCode).
Definition WithClaudeError (claudeError : ClaudeError) (statusCode : Z) (ops : list Option_) : NewAPIError :=
  let o := if decide (ce_Type claudeError = "") then claudeError <| ce_Type := "upstream_error" |> else claudeError in
  apply_options ops (mkAPIError (GPlain (ErrNew (ce_Message o))) (REClaude o) false None
    ErrorTypeClaudeError (ce_Type o) statusCode).

(** *** Conversions for the client *)
Section conversions.
Context (format_g : F64.float64 -> string) (MaskSensitiveInfo : string -> string).

Definition NewOpenAIError (err : go_error) (errorCode : string) (statusCode : Z) (ops : list Option_) : NewAPIError :=
  match err with
  | GApi e relay skip rec ty code status =>
      let relay := match relay with
                   | RENone => REOpenAI (mkOpenAIError (go_error_text format_g e) errorCode "" (COther errorCode) "")
                   | r => r
                   end in
      apply_options ops (mkAPIError e relay skip rec ty code status)
  | _ => WithOpenAIError (mkOpenAIError (go_error_text format_g err) errorCode "" (COther errorCode) "") statusCode ops
  end.
Definition InitOpenAIError (errorCode : string) (statusCode : Z) (ops : list Option_) : NewAPIError :=
  WithOpenAIError (mkOpenAIError "" errorCode "" (COther errorCode) "") statusCode ops.

Definition Error_text (e : NewAPIError) : string := go_error_text format_g (ae_Err e).
Definition ErrorWithStatusCode (e : NewAPIError) : string :=
  let msg := Error_text e in
  if ae_StatusCode e =? 0 then msg
  else if decide (msg = "") then "status_code=" +:+ GoText.Itoa (ae_StatusCode e)
  else "status_code=" +:+ GoText.Itoa (ae_StatusCode e) +:+ ", " +:+ msg.
Definition openai_payload (e : NewAPIError) : option OpenAIError :=
  match ae_RelayError e with
  | REOpenAI o => Some o
  | REOwn err code => Some (mkOpenAIError (go_error_text format_g err) code "" CNil "")
  | _ => None
  end.
Definition no_openai : OpenAIError := mkOpenAIError "" "" "" CNil "".
Definition mask_message (e : NewAPIError) (message : string) : string :=
  let m := if decide (ae_errorCode e = ErrorCodeCountTokenFailed) then message else MaskSensitiveInfo message in
  if decide (m = "") then ae_errorType e else m.

Definition ToOpenAIError (e : NewAPIError) : OpenAIError :=
  let r :=
    if decide (ae_errorType e = ErrorTypeOpenAIError) then default no_openai (openai_payload e)
    else if decide (ae_errorType e = ErrorTypeClaudeError) then
      match ae_RelayError e with
      | REClaude c => mkOpenAIError (Error_text e) (ce_Type c) "" (COther (ae_errorCode e)) ""
      | _ => no_openai
      end
    else mkOpenAIError (Error_text e) (ae_errorType e) "" (COther (ae_errorCode e)) "" in
  r <| oe_Message := mask_message e (oe_Message r) |>.
Definition any_text (c : code_value) : string :=
  match c with CString s => s | COther text => text | CNil => "<nil>" end.
Definition ToClaudeError (e : NewAPIError) : ClaudeError :=
  let r :=
    if decide (ae_errorType e = ErrorTypeOpenAIError) then
      match openai_payload e with
      | Some o => mkClaudeError (any_text (oe_Code o)) (Error_text e)
      | None => mkClaudeError "" ""
      end
    else if decide (ae_errorType e = ErrorTypeClaudeError) then
      match ae_RelayError e with REClaude c => c | _ => mkClaudeError "" "" end
    else mkClaudeError (ae_errorType e) (Error_text e) in
  r <| ce_Message := mask_message e (ce_Message r) |>.
End conversions.

(** *** Queries *)
Definition GetErrorCode (e : option NewAPIError) : string :=
  match e with Some e => ae_errorCode e | None => "" end.
Definition IsChannelError (e : option NewAPIError) : bool :=
  match e with Some e => GoStrings.HasPrefix (ae_errorCode e) "channel:" | None => false end.
Definition IsSkipRetryError (e : option NewAPIError) : bool :=
  match e with Some e => ae_skipRetry e | None => false end.
Definition IsRecordErrorLog (e : option NewAPIError) : bool :=
  match e with Some e => default true (ae_recordErrorLog e) | None => false end.
