(* ===== verification/PriceData.v ===== *)
(** * Price data (src/types/price_data.go)

    The prices frozen for one request.  [otherRatios] is a Go map: its
    iteration order is a parameter, [range], of the methods that loop over it. *)

From Stdlib Require Import SpecFloat QArith.
From S2P Require Import Prelude GoFloat QuotaMath.
#[local] Open Scope Z_scope.

Record GroupRatioInfo := mkGroupRatio {
  GroupRatio : F64.float64;
  GroupSpecialRatio : F64.float64;
  HasSpecialRatio : bool;
}.
#[export] Instance GroupRatioInfo_settable : Settable GroupRatioInfo :=
  fields_of mkGroupRatio < GroupRatio; GroupSpecialRatio; HasSpecialRatio >.

Record PriceData := mkPriceData {
  FreeModel : bool;
  ModelPrice : F64.float64;
  ModelRatio : F64.float64;
  CompletionRatio : F64.float64;
  CacheRatio : F64.float64;
  CacheCreationRatio : F64.float64;
  CacheCreation5mRatio : F64.float64;
  CacheCreation1hRatio : F64.float64;
  ImageRatio : F64.float64;
  AudioRatio : F64.float64;
  AudioCompletionRatio : F64.float64;
  otherRatios : gmap string F64.float64;     (** nil is the empty map *)
  UsePrice : bool;
  pd_Quota : Z;
  QuotaToPreConsume : Z;
  pd_GroupRatioInfo : GroupRatioInfo;
}.
#[export] Instance PriceData_settable : Settable PriceData :=
  fields_of mkPriceData < FreeModel; ModelPrice; ModelRatio; CompletionRatio; CacheRatio;
    CacheCreationRatio; CacheCreation5mRatio; CacheCreation1hRatio; ImageRatio; AudioRatio;
    AudioCompletionRatio; otherRatios; UsePrice; pd_Quota; QuotaToPreConsume;
    pd_GroupRatioInfo >.

Definition zero_PriceData : PriceData :=
  mkPriceData false F64.zero F64.zero F64.zero F64.zero F64.zero F64.zero F64.zero F64.zero
    F64.zero F64.zero ∅ false 0 0 (mkGroupRatio F64.zero F64.zero false).

Definition isValidOtherRatio (ratio : F64.float64) : bool :=
  F64.ltb F64.zero ratio && negb (F64.IsPosInf ratio).

Definition AddOtherRatio (p : PriceData) (key : string) (ratio : F64.float64) : PriceData :=
  if negb (isValidOtherRatio ratio) then p
  else p <| otherRatios := <[key := ratio]> (otherRatios p) |>.

(** A ratio a loop multiplies with: valid, and not 1. *)
Definition applies (ratio : F64.float64) : bool :=
  isValidOtherRatio ratio && negb (F64.eqb ratio F64.one).

Section methods.
(** The iteration order of Go maps from strings to float64. *)
Context (range : gmap string F64.float64 -> list (string * F64.float64)).

Definition ReplaceOtherRatios (p : PriceData) (ratios : gmap string F64.float64) : PriceData * bool :=
  let p' := fold_left (fun p kv => AddOtherRatio p kv.1 kv.2) (range ratios)
              (p <| otherRatios := ∅ |>) in
  (p', negb (bool_decide (otherRatios p' = ∅))).

Definition HasOtherRatio (p : PriceData) (key : string) : bool :=
  match otherRatios p !! key with Some ratio => isValidOtherRatio ratio | None => false end.

Definition OtherRatios (p : PriceData) : gmap string F64.float64 :=
  fold_left (fun m kv => if isValidOtherRatio kv.2 then <[kv.1 := kv.2]> m else m)
    (range (otherRatios p)) ∅.

Definition OtherRatioMultiplier (p : PriceData) : F64.float64 :=
  fold_left (fun multiplier kv => if applies kv.2 then F64.mul multiplier kv.2 else multiplier)
    (range (otherRatios p)) F64.one.

Definition ApplyOtherRatiosToFloat (p : PriceData) (value : F64.float64) : F64.float64 :=
  F64.mul value (OtherRatioMultiplier p).

Definition ApplyOtherRatiosToDecimal `{Decimal D} (p : PriceData) (value : D) : D :=
  fold_left (fun value kv => if applies kv.2 then dMul value (NewFromFloat kv.2) else value)
    (range (otherRatios p)) value.

Definition RemoveOtherRatiosFromFloat (p : PriceData) (value : F64.float64) : F64.float64 :=
  fold_left (fun value kv => if applies kv.2 then F64.div value kv.2 else value)
    (range (otherRatios p)) value.
End methods.

(** ** Facts *)

(** What Go promises about an iteration: every entry once, in some order. *)
Definition iterates (range : gmap string F64.float64 -> list (string * F64.float64)) : Prop :=
  forall m, range m ≡ₚ map_to_list m.

(** The exact product of the ratios, whatever the order. *)
Definition ratio_product `{DecimalLaws D} (l : list (string * F64.float64)) : Q :=
  foldr (fun kv acc => if applies kv.2 then dec_val (NewFromFloat (D := D) kv.2) * acc else acc)%Q 1%Q l.

Lemma ratio_product_perm `{DecimalLaws D} l l' :
  l ≡ₚ l' -> (ratio_product (D := D) l == ratio_product (D := D) l')%Q.
Proof.
  induction 1 as [|x l l' _ IH|x y l|l1 l2 l3 _ IH1 _ IH2]; simpl; try reflexivity.
  - destruct (applies x.2); [by rewrite IH|done].
  - destruct (applies x.2), (applies y.2); ring.
  - by rewrite IH1.
Qed.

Lemma ApplyOtherRatiosToDecimal_val `{DecimalLaws D} range p (value : D) :
  (dec_val (ApplyOtherRatiosToDecimal range p value)
   == dec_val value * ratio_product (D := D) (range (otherRatios p)))%Q.
Proof.
  unfold ApplyOtherRatiosToDecimal. generalize (range (otherRatios p)) as l. intros l.
  revert value. induction l as [|kv l IH]; intros value; simpl; [ring|].
  destruct (applies kv.2); rewrite IH, ?dMul_val; ring.
Qed.

(** ratio > 0 *)
Definition ratio_ok (ratio : F64.float64) : Prop := isValidOtherRatio ratio = true.
Definition ratios_ok (p : PriceData) : Prop := map_Forall (fun _ => ratio_ok) (otherRatios p).

Lemma AddOtherRatio_ok p key ratio : ratios_ok p -> ratios_ok (AddOtherRatio p key ratio).
Proof.
  unfold AddOtherRatio. destruct (isValidOtherRatio ratio) eqn:E; [|done].
  intros Hp. by apply map_Forall_insert_2.
Qed.

Lemma applies_nonneg `{DecimalLaws D} x : applies x = true -> (0 <= dec_val (NewFromFloat (D := D) x))%Q.
Proof.
  intros Hx. apply NewFromFloat_nonneg. unfold applies, isValidOtherRatio in Hx. bools.
  unfold F64.ltb, F64.leb, SFltb, SFleb in *. by destruct (SFcompare F64.zero x) as [[]|].
Qed.

Lemma ratio_product_nonneg `{DecimalLaws D} l : (0 <= ratio_product (D := D) l)%Q.
Proof.
  induction l as [|kv l IH]; simpl; [done|].
  destruct (applies kv.2) eqn:E; [|done]. apply Qmult_le_0_compat; [by apply applies_nonneg|done].
Qed.

(** Loading a map entry by entry gives the valid entries. *)
Lemma add_all_lookup l p k :
  NoDup l.*1 -> (forall kv, kv ∈ l -> otherRatios p !! kv.1 = None) ->
  otherRatios (fold_left (fun p kv => AddOtherRatio p kv.1 kv.2) l p) !! k =
  match (list_to_map l : gmap string F64.float64) !! k with
  | Some r => if isValidOtherRatio r then Some r else None
  | None => otherRatios p !! k
  end.
Proof.
  revert p. induction l as [|[k1 r1] l IH]; intros p Hnd Hp; simpl.
  - by rewrite lookup_empty.
  - apply NoDup_cons in Hnd as [Hk1 Hnd]. simpl in *. rewrite IH; [|done|].
    + destruct (decide (k = k1)) as [->|Hk].
      * rewrite lookup_insert_eq.
        assert ((list_to_map l : gmap string F64.float64) !! k1 = None) as -> by (by apply not_elem_of_list_to_map_1).
        unfold AddOtherRatio. destruct (isValidOtherRatio r1); simpl.
        -- by rewrite lookup_insert_eq.
        -- apply (Hp (k1, r1)). by left.
      * rewrite lookup_insert_ne by done. destruct ((list_to_map l : gmap string F64.float64) !! k); [done|].
        unfold AddOtherRatio. destruct (isValidOtherRatio r1); simpl; [|done].
        by rewrite lookup_insert_ne.
    + intros kv Hkv. unfold AddOtherRatio. destruct (isValidOtherRatio r1); simpl; [|apply Hp; by right].
      rewrite lookup_insert_ne; [apply Hp; by right|]. intros Heq.
      apply Hk1. rewrite Heq. by apply list_elem_of_fmap_2.
Qed.

Lemma iterates_nodup range m : iterates range -> NoDup (range m).*1.
Proof. intros Hr. rewrite (Hr m). apply NoDup_fst_map_to_list. Qed.

Lemma iterates_map range m : iterates range -> list_to_map (range m) = m.
Proof.
  intros Hr. rewrite (list_to_map_proper (range m) (map_to_list m)); [apply list_to_map_to_list| |apply Hr].
  by apply iterates_nodup.
Qed.

(** The other fields are not touched. *)
Lemma replace_rest range p ratios m :
  (ReplaceOtherRatios range p ratios).1 <| otherRatios := m |> = p <| otherRatios := m |>.
Proof.
  unfold ReplaceOtherRatios. simpl. generalize (range ratios) as l. intros l.
  transitivity ((p <| otherRatios := ∅ |> : PriceData) <| otherRatios := m |>); [|done].
  generalize (p <| otherRatios := ∅ |> : PriceData) as p0.
  induction l as [|kv l IH]; intros p0; simpl; [done|].
  rewrite IH. unfold AddOtherRatio. by destruct (negb _).
Qed.

Lemma replace_eq (r1 r2 : PriceData * bool) p ratios range1 range2 :
  r1 = ReplaceOtherRatios range1 p ratios -> r2 = ReplaceOtherRatios range2 p ratios ->
  otherRatios r1.1 = otherRatios r2.1 -> r1 = r2.
Proof.
  intros E1 E2 Hm.
  assert (Hp : r1.1 = r2.1).
  { transitivity (r1.1 <| otherRatios := otherRatios r1.1 |>); [by destruct r1.1|].
    transitivity (r2.1 <| otherRatios := otherRatios r1.1 |>); [|rewrite Hm; by destruct r2.1].
    by rewrite E1, E2, !replace_rest. }
  destruct r1 as [p1 b1], r2 as [p2 b2]. simpl in *. subst p2. f_equal.
  unfold ReplaceOtherRatios in E1, E2. injection E1 as E1 ->. injection E2 as E2 ->.
  by rewrite <- E1, <- E2.
Qed.

Lemma OtherRatios_ok range p : iterates range -> ratios_ok p -> OtherRatios range p = otherRatios p.
Proof.
  intros Hr Hok. unfold OtherRatios. rewrite <- (iterates_map range (otherRatios p) Hr) at 2.
  assert (Hv : forall kv, kv ∈ range (otherRatios p) -> isValidOtherRatio kv.2 = true).
  { intros [k x] Hkv. rewrite (Hr _) in Hkv. apply elem_of_map_to_list in Hkv. exact (Hok k x Hkv). }
  pose proof (iterates_nodup range (otherRatios p) Hr) as Hnd.
  revert Hv Hnd. generalize (range (otherRatios p)) as l. clear. intros l Hv Hnd.
  enough (forall m : gmap string F64.float64, fold_left
    (fun m kv => if isValidOtherRatio kv.2 then <[kv.1:=kv.2]> m else m) l m = list_to_map l ∪ m) as ->.
  { by rewrite map_union_empty. }
  induction l as [|[k x] l IH]; intros m; simpl; [by rewrite map_empty_union|].
  apply NoDup_cons in Hnd as [Hk Hnd]. simpl in Hk.
  pose proof (Hv (k, x) ltac:(by left)) as Hx. simpl in Hx. rewrite Hx. rewrite IH; [|intros; apply Hv; by right|done].
  rewrite <- insert_union_l. rewrite insert_union_r; [done|].
  by apply not_elem_of_list_to_map_1.
Qed.

(** The extra ratios of a price do not depend on the order in which Go happens
    to iterate over its maps: replacing them keeps exactly the entries that are
    positive and finite, and the exact amount they are applied to is multiplied
    by the same product, under any two iteration orders. *)
Theorem other_ratios_order_free `{DecimalLaws D} range1 range2 p ratios (value : D) :
  iterates range1 -> iterates range2 ->
  let p1 := (ReplaceOtherRatios range1 p ratios).1 in
  (forall k, otherRatios p1 !! k =
     match ratios !! k with
     | Some r => if isValidOtherRatio r then Some r else None
     | None => None
     end) /\
  ReplaceOtherRatios range2 p ratios = ReplaceOtherRatios range1 p ratios /\
  (dec_val (ApplyOtherRatiosToDecimal range1 p1 value)
   == dec_val (ApplyOtherRatiosToDecimal range2 p1 value))%Q /\
  OtherRatios range1 p1 = otherRatios p1.
Proof.
  intros H1 H2 p1.
  assert (Hl : forall r, iterates r -> forall k,
    otherRatios (ReplaceOtherRatios r p ratios).1 !! k =
    match ratios !! k with
    | Some x => if isValidOtherRatio x then Some x else None
    | None => None
    end).
  { intros r Hr k. unfold ReplaceOtherRatios. simpl.
    rewrite add_all_lookup; [|by apply iterates_nodup|intros; apply lookup_empty].
    rewrite iterates_map by done. simpl. by rewrite lookup_empty. }
  split; [by apply Hl|]. split; [|split].
  - assert (Hm : otherRatios (ReplaceOtherRatios range2 p ratios).1 =
                 otherRatios (ReplaceOtherRatios range1 p ratios).1).
    { apply map_eq. intros k. by rewrite !Hl. }
    by eapply replace_eq.
  - rewrite !ApplyOtherRatiosToDecimal_val. rewrite ratio_product_perm; [reflexivity|].
    by rewrite (H1 _), (H2 _).
  - apply OtherRatios_ok; [done|]. intros k x Hk. unfold p1 in Hk. rewrite Hl in Hk by done.
    destruct (ratios !! k) as [y|]; [|done]. unfold ratio_ok.
    destruct (isValidOtherRatio y) eqn:E; by simplify_eq.
Qed.

Lemma other_ratios_order_free_witness :
  iterates map_to_list /\ iterates (fun m => rev (map_to_list m)) /\
  ReplaceOtherRatios (fun m => rev (map_to_list m)) zero_PriceData {["n" := F64.of_Z 2; "seconds" := F64.of_Z 3]}
  = ReplaceOtherRatios map_to_list zero_PriceData {["n" := F64.of_Z 2; "seconds" := F64.of_Z 3]}.
Proof.
  assert (H1 : iterates map_to_list) by (intros m; reflexivity).
  assert (H2 : iterates (fun m => rev (map_to_list m))) by (intros m; symmetry; apply Permutation_rev).
  split; [exact H1|]. split; [exact H2|].
  destruct (other_ratios_order_free (D := Q) map_to_list (fun m => rev (map_to_list m)) zero_PriceData
              {["n" := F64.of_Z 2; "seconds" := F64.of_Z 3]} 1%Q H1 H2) as (_ & H & _).
  exact H.
Defined.

Definition sized_price : PriceData :=
  zero_PriceData <| otherRatios := {["size" := F64.div (F64.of_Z 14) (F64.of_Z 10);
                                      "seconds" := F64.of_Z 3; "n" := F64.of_Z 5]} |>.

(** The float path is not order free: for a price of 5000 with the ratios
    size 1.4, seconds 3 and n 5, two iteration orders of the same map convert to
    104999 and to 105000, so the charge of identical requests can differ by one. *)
Theorem float_ratios_order_dependent :
  exists range1 range2, iterates range1 /\ iterates range2 /\
    Quota.QuotaFromFloatStrict (ApplyOtherRatiosToFloat range1 sized_price (F64.of_Z 5000)) = Ok 104999 /\
    Quota.QuotaFromFloatStrict (ApplyOtherRatiosToFloat range2 sized_price (F64.of_Z 5000)) = Ok 105000.
Proof.
  exists map_to_list, (fun m => rev (map_to_list m)).
  split; [by intros m|]. split; [intros m; symmetry; apply Permutation_rev|].
  split; vm_compute; reflexivity.
Qed.
