(* ===== verification/RatioSetting.v ===== *)
(** * Model and group ratios (src/setting/ratio_setting, src/setting/billing_setting)

    The price tables an administrator edits, and the lookups the billing code
    makes in them.  The tables are the fields of [RatioSettings]; the built-in
    default tables are two of them. *)

From S2P Require Import Prelude GoStd GoFloat.
Import GoStrings.

(** A Go constant n/d, rounded to float64. *)
Definition const (n d : Z) : F64.float64 := F64.div (F64.of_Z n) (F64.of_Z d).

Abbreviation ratio_map := (gmap string F64.float64).

Record RatioSettings := mkRatioSettings {
  modelPriceMap : ratio_map;
  modelRatioMap : ratio_map;
  completionRatioMap : ratio_map;
  cacheRatioMap : ratio_map;
  createCacheRatioMap : ratio_map;
  imageRatioMap : ratio_map;
  audioRatioMap : ratio_map;
  audioCompletionRatioMap : ratio_map;
  groupRatioMap : ratio_map;
  groupGroupRatioMap : gmap string ratio_map;
  defaultModelPrice : ratio_map;
  defaultModelRatio : ratio_map;
  SelfUseModeEnabled : bool;
  bset_BillingMode : gmap string string;
  bset_BillingExpr : gmap string string;
}.
#[export] Instance RatioSettings_settable : Settable RatioSettings :=
  fields_of mkRatioSettings < modelPriceMap; modelRatioMap; completionRatioMap; cacheRatioMap;
    createCacheRatioMap; imageRatioMap; audioRatioMap; audioCompletionRatioMap; groupRatioMap;
    groupGroupRatioMap; defaultModelPrice; defaultModelRatio; SelfUseModeEnabled; bset_BillingMode;
    bset_BillingExpr >.

(** ** Model names (model_ratio.go, compact_suffix.go) *)

Definition CompactModelSuffix : string := "-openai-compact".
Definition CompactWildcardModelKey : string := "*" +:+ CompactModelSuffix.

Definition WithCompactModelSuffix (modelName : string) : string :=
  if HasSuffix modelName CompactModelSuffix then modelName else modelName +:+ CompactModelSuffix.

Definition handleThinkingBudgetModel (name prefix wildcard : string) : string :=
  if HasPrefix name prefix && Contains name "-thinking-" then wildcard else name.

Definition FormatMatchingModelName (name : string) : string :=
  let name :=
    if HasPrefix name "gemini-2.5-flash-lite" then
      handleThinkingBudgetModel name "gemini-2.5-flash-lite" "gemini-2.5-flash-lite-thinking-*"
    else if HasPrefix name "gemini-2.5-flash" then
      handleThinkingBudgetModel name "gemini-2.5-flash" "gemini-2.5-flash-thinking-*"
    else if HasPrefix name "gemini-2.5-pro" then
      handleThinkingBudgetModel name "gemini-2.5-pro" "gemini-2.5-pro-thinking-*"
    else name in
  let name := if HasPrefix name "gpt-4-gizmo" then "gpt-4-gizmo-*" else name in
  if HasPrefix name "gpt-4o-gizmo" then "gpt-4o-gizmo-*" else name.

(** ** Prices and ratios *)

Definition GetModelPrice (rs : RatioSettings) (name : string) : F64.float64 * bool :=
  let name := FormatMatchingModelName name in
  match modelPriceMap rs !! name with
  | Some price => (price, true)
  | None =>
      if HasSuffix name CompactModelSuffix then
        match modelPriceMap rs !! CompactWildcardModelKey with
        | None => (F64.of_Z (-1), false)
        | Some price => (price, true)
        end
      else (F64.of_Z (-1), false)
  end.

Definition GetModelRatio (rs : RatioSettings) (name : string) : F64.float64 * bool * string :=
  let name := FormatMatchingModelName name in
  match modelRatioMap rs !! name with
  | Some ratio => (ratio, true, name)
  | None =>
      let unset := (const 75 2, SelfUseModeEnabled rs, name) in
      if HasSuffix name CompactModelSuffix then
        match modelRatioMap rs !! CompactWildcardModelKey with
        | Some wildcardRatio => (wildcardRatio, true, name)
        | None => unset
        end
      else unset
  end.

Definition GetModelRatioOrPrice (rs : RatioSettings) (model : string) : F64.float64 * bool * bool :=
  let '(price, usePrice) := GetModelPrice rs model in
  if usePrice then (price, true, true)
  else
    let '(modelRatio, success, _) := GetModelRatio rs model in
    if success then (modelRatio, false, true) else (const 75 2, false, false).

Definition getHardcodedCompletionModelRatio (name : string) : F64.float64 * bool :=
  let r n (locked : bool) := (F64.of_Z n, locked) in
  if HasSuffix name "-all" || HasSuffix name "-gizmo-*" then r 2 false
  else if HasPrefix name "gpt-" then
    if HasPrefix name "gpt-4o" then
      if decide (name = "gpt-4o-2024-05-13") then r 3 true
      else if HasPrefix name "gpt-4o-mini-tts" then r 20 false
      else r 4 false
    else if HasPrefix name "gpt-5" then
      if negb (Contains name ".") then r 8 true
      else if HasPrefix name "gpt-5.4" then
        if HasPrefix name "gpt-5.4-nano" then (const 25 4, true) else r 6 true
      else r 6 false
    else if HasPrefix name "gpt-4.5-preview" then r 2 true
    else if HasPrefix name "gpt-4-turbo" || HasSuffix name "gpt-4-1106" || HasSuffix name "gpt-4-1105"
    then r 3 true
    else r 2 false
  else if HasPrefix name "o1" || HasPrefix name "o3" then r 4 true
  else if decide (name = "chatgpt-4o-latest") then r 3 true
  else if Contains name "claude-3" then r 5 true
  else if Contains name "claude-sonnet-4" || Contains name "claude-opus-4"
          || Contains name "claude-haiku-4" then r 5 true
  else if HasPrefix name "gpt-3.5" then
    if bool_decide (name = "gpt-3.5-turbo") || HasSuffix name "0125" then r 3 true
    else if HasSuffix name "1106" then r 2 true
    else (const 4 3, true)
  else if HasPrefix name "mistral-" then r 3 true
  else if HasPrefix name "gemini-" then
    if HasPrefix name "gemini-1.5" then r 4 true
    else if HasPrefix name "gemini-2.0" then r 4 true
    else if HasPrefix name "gemini-2.5-pro" then r 8 false
    else if HasPrefix name "gemini-2.5-flash" then
      if HasPrefix name "gemini-2.5-flash-preview" then
        if HasSuffix name "-nothinking" then r 4 false else (const 350 15, false)
      else if HasPrefix name "gemini-2.5-flash-lite" then r 4 false
      else (const 25 3, false)
    else if HasPrefix name "gemini-robotics-er-1.5" then (const 25 3, false)
    else if HasPrefix name "gemini-3-pro" then
      if HasPrefix name "gemini-3-pro-image" then r 60 false else r 6 false
    else r 4 false
  else if HasPrefix name "command" then
    if decide (name = "command-r") then r 3 true
    else if decide (name = "command-r-plus") then r 5 true
    else if decide (name = "command-r-08-2024") then r 4 true
    else if decide (name = "command-r-plus-08-2024") then r 4 true
    else r 4 false
  else if HasPrefix name "ERNIE-Speed-" then r 2 true
  else if HasPrefix name "ERNIE-Lite-" then r 2 true
  else if HasPrefix name "ERNIE-Character" then r 2 true
  else if HasPrefix name "ERNIE-Functions" then r 2 true
  else if decide (name = "llama2-70b-4096") then (const 80 64, true)
  else if decide (name = "llama3-8b-8192") then r 2 true
  else if decide (name = "llama3-70b-8192") then (const 79 59, true)
  else r 1 false.

Definition GetCompletionRatio (rs : RatioSettings) (name : string) : F64.float64 :=
  let name := FormatMatchingModelName name in
  let by_rule :=
    let '(hardCodedRatio, contain) := getHardcodedCompletionModelRatio name in
    if contain then hardCodedRatio
    else match completionRatioMap rs !! name with Some ratio => ratio | None => hardCodedRatio end in
  if Contains name "/" then
    match completionRatioMap rs !! name with Some ratio => ratio | None => by_rule end
  else by_rule.

Definition GetCompletionRatioInfo (rs : RatioSettings) (name : string) : F64.float64 * bool :=
  let name := FormatMatchingModelName name in
  let by_rule :=
    let '(hardCodedRatio, locked) := getHardcodedCompletionModelRatio name in
    if locked then (hardCodedRatio, true)
    else match completionRatioMap rs !! name with
         | Some ratio => (ratio, false)
         | None => (hardCodedRatio, false)
         end in
  if Contains name "/" then
    match completionRatioMap rs !! name with Some ratio => (ratio, false) | None => by_rule end
  else by_rule.

Definition GetAudioRatio (rs : RatioSettings) (name : string) : F64.float64 :=
  default F64.one (audioRatioMap rs !! FormatMatchingModelName name).
Definition GetAudioCompletionRatio (rs : RatioSettings) (name : string) : F64.float64 :=
  default F64.one (audioCompletionRatioMap rs !! FormatMatchingModelName name).
Definition GetImageRatio (rs : RatioSettings) (name : string) : F64.float64 * bool :=
  match imageRatioMap rs !! name with Some r => (r, true) | None => (F64.one, false) end.
Definition GetCacheRatio (rs : RatioSettings) (name : string) : F64.float64 * bool :=
  match cacheRatioMap rs !! name with Some r => (r, true) | None => (F64.one, false) end.
Definition GetCreateCacheRatio (rs : RatioSettings) (name : string) : F64.float64 * bool :=
  match createCacheRatioMap rs !! name with Some r => (r, true) | None => (const 5 4, false) end.

(** ** Groups (group_ratio.go) *)

Definition GetGroupRatio (rs : RatioSettings) (name : string) : F64.float64 :=
  default F64.one (groupRatioMap rs !! name).
Definition GetGroupGroupRatio (rs : RatioSettings) (userGroup usingGroup : string)
    : F64.float64 * bool :=
  match groupGroupRatioMap rs !! userGroup with
  | None => (F64.of_Z (-1), false)
  | Some gp => match gp !! usingGroup with
               | None => (F64.of_Z (-1), false)
               | Some ratio => (ratio, true)
               end
  end.

(** ** Billing modes (billing_setting/tiered_billing.go) *)

Definition BillingModeRatio : string := "ratio".
Definition BillingModeTieredExpr : string := "tiered_expr".
Definition GetBillingMode (rs : RatioSettings) (model : string) : string :=
  default BillingModeRatio (bset_BillingMode rs !! model).
Definition GetBillingExpr (rs : RatioSettings) (model : string) : option string :=
  bset_BillingExpr rs !! model.

(** ** Properties *)

Lemma drop_prefix_Some p s r : drop_prefix p s = Some r -> s = p +:+ r.
Proof.
  revert s. induction p as [|a p IH]; intros s Hs; simpl in *; [by injection Hs as ->|].
  destruct s as [|c s]; [done|]. case_decide; [subst c|done].
  rewrite (IH s Hs). reflexivity.
Qed.

(** The names [FormatMatchingModelName] maps to a shared entry. *)
Definition wildcard_names : list string :=
  ["gemini-2.5-flash-lite-thinking-*"; "gemini-2.5-flash-thinking-*"; "gemini-2.5-pro-thinking-*";
   "gpt-4-gizmo-*"; "gpt-4o-gizmo-*"].

(** Normalising a model name for price lookup either keeps it or maps it to one
    of five shared entries, and normalising again changes nothing: a price looked
    up by a normalised name is the price of the original one. *)
Theorem FormatMatchingModelName_spec name :
  (FormatMatchingModelName name = name \/ FormatMatchingModelName name ∈ wildcard_names) /\
  FormatMatchingModelName (FormatMatchingModelName name) = FormatMatchingModelName name.
Proof.
  assert (Hw : forall w, w ∈ wildcard_names -> FormatMatchingModelName w = w).
  { intros w Hw. unfold wildcard_names in Hw. rewrite !elem_of_cons, elem_of_nil in Hw.
    destruct Hw as [->|[->|[->|[->|[->|[]]]]]]; vm_compute; reflexivity. }
  enough (H : FormatMatchingModelName name = name \/ FormatMatchingModelName name ∈ wildcard_names).
  { split; [done|]. destruct H as [H|H]; [by rewrite !H|by apply Hw]. }
  unfold FormatMatchingModelName. cbv zeta.
  match goal with |- context [HasPrefix ?x "gpt-4-gizmo"] => set (n := x) end.
  assert (Hn : n = name \/ n ∈ wildcard_names); [|clearbody n].
  { unfold n, handleThinkingBudgetModel, wildcard_names.
    repeat step_match; first [left; reflexivity|right; set_solver]. }
  destruct (HasPrefix n "gpt-4-gizmo").
  - right. vm_compute. set_solver.
  - destruct (HasPrefix n "gpt-4o-gizmo"); [right; set_solver|done].
Qed.

(** The completion ratio that is billed is the one the settings page shows, and
    a ratio shown as locked does not depend on the configured table (unless the
    name has a slash and the table an entry for it). *)
Theorem completion_ratio_locked rs rs' name :
  (GetCompletionRatioInfo rs name).1 = GetCompletionRatio rs name /\
  ((GetCompletionRatioInfo rs name).2 = true ->
   Contains (FormatMatchingModelName name) "/" = false
   \/ completionRatioMap rs' !! FormatMatchingModelName name = None ->
   GetCompletionRatio rs' name = GetCompletionRatio rs name).
Proof.
  unfold GetCompletionRatioInfo, GetCompletionRatio. cbv zeta.
  destruct (getHardcodedCompletionModelRatio _) as [h locked].
  destruct (Contains _ "/"), (completionRatioMap rs !! _), locked; simpl; split; try done;
    intros _ [ Hc | -> ]; done.
Qed.

(** The gpt-3.5 rules of the hard-coded completion ratios never apply: every
    name that starts with gpt-3.5 is taken by the gpt- rules before them, so
    gpt-3.5-turbo gets the unlocked ratio 2 and not the locked ratio 3. *)
Theorem gpt35_rules_unreachable name :
  HasPrefix name "gpt-3.5" = true ->
  HasSuffix name "gpt-4-1106" = false -> HasSuffix name "gpt-4-1105" = false ->
  getHardcodedCompletionModelRatio name = (F64.of_Z 2, false).
Proof.
  intros Hp H1 H2. unfold HasPrefix in Hp. destruct (drop_prefix "gpt-3.5" name) as [r|] eqn:E; [|done].
  apply drop_prefix_Some in E as ->.
  unfold getHardcodedCompletionModelRatio. cbv zeta. rewrite H1, H2.
  destruct (HasSuffix _ "-all" || HasSuffix _ "-gizmo-*"); reflexivity.
Qed.

Lemma gpt35_rules_unreachable_witness :
  getHardcodedCompletionModelRatio "gpt-3.5-turbo" = (F64.of_Z 2, false) /\
  getHardcodedCompletionModelRatio "gpt-3.5-turbo-0125" = (F64.of_Z 2, false).
Proof. split; apply gpt35_rules_unreachable; vm_compute; reflexivity. Defined.
