(* ===== verification/ToolPrices.v ===== *)
(** * Prices of built-in tools (src/setting/operation_setting/tools.go)

    The administrator's table maps "tool" to a default price and
    "tool:prefix*" to a price for the models with that prefix.  The table is
    compiled into an index in which the prefixes of a tool are sorted by
    decreasing length; the order of Go's map iteration and of equally long
    prefixes is a parameter. *)

From S2P Require Import Prelude GoStd GoFloat RatioSetting.
Import GoStrings.

Definition defaultToolPrices : ratio_map :=
  {["web_search" := F64.of_Z 10; "web_search_preview" := F64.of_Z 10;
    "file_search" := const 5 2; "google_search" := F64.of_Z 14]}.

Definition defaultToolPriceOverrides : ratio_map :=
  {["web_search_preview:gpt-4o*" := F64.of_Z 25; "web_search_preview:gpt-4.1*" := F64.of_Z 25;
    "web_search_preview:gpt-4o-mini*" := F64.of_Z 25; "web_search_preview:gpt-4.1-mini*" := F64.of_Z 25]}.

(** [prefixEntry]: a prefix and its price. *)
Definition prefixEntry : Type := string * F64.float64.

Record toolPriceIndex := mkToolIndex {
  tpi_defaults : ratio_map;
  tpi_prefixes : gmap string (list prefixEntry);
}.

(** The key split at its first colon. *)
Fixpoint split_colon (key : string) : option (string * string) :=
  match key with
  | EmptyString => None
  | String a key' =>
      if decide (a = Ascii.ascii_of_nat 58) then Some (EmptyString, key')
      else match split_colon key' with
           | Some (tool, rest) => Some (String a tool, rest)
           | None => None
           end
  end.

Section index.
(** The iteration order of a map, and sort.Slice by decreasing prefix length. *)
Context (range : ratio_map -> list (string * F64.float64))
  (sort_entries : list prefixEntry -> list prefixEntry).

Definition merged_prices (Prices : ratio_map) : ratio_map :=
  Prices ∪ (defaultToolPriceOverrides ∪ defaultToolPrices).

Definition add_price (idx : toolPriceIndex) (kv : string * F64.float64) : toolPriceIndex :=
  match split_colon kv.1 with
  | None => mkToolIndex (<[kv.1 := kv.2]> (tpi_defaults idx)) (tpi_prefixes idx)
  | Some (toolName, modelPart) =>
      let entry := (TrimSuffix modelPart "*", kv.2) in
      mkToolIndex (tpi_defaults idx)
        (<[toolName := default [] (tpi_prefixes idx !! toolName) ++ [entry]]> (tpi_prefixes idx))
  end.

Definition RebuildToolPriceIndex (Prices : ratio_map) : toolPriceIndex :=
  let idx := fold_left add_price (range (merged_prices Prices)) (mkToolIndex ∅ ∅) in
  mkToolIndex (tpi_defaults idx) (sort_entries <$> tpi_prefixes idx).

(** The first entry whose prefix the model has. *)
Definition match_prefix (modelName : string) (entries : list prefixEntry) : option F64.float64 :=
  snd <$> List.find (fun e => HasPrefix modelName e.1) entries.

Definition GetToolPriceForModel (idx : option toolPriceIndex) (toolName modelName : string)
    : F64.float64 :=
  match idx with
  | None => default F64.zero (defaultToolPrices !! toolName)
  | Some idx =>
      let by_prefix :=
        if decide (modelName = "") then None
        else match tpi_prefixes idx !! toolName with
             | Some entries => match_prefix modelName entries
             | None => None
             end in
      match by_prefix with
      | Some price => price
      | None => default F64.zero (tpi_defaults idx !! toolName)
      end
  end.
Definition GetToolPrice (idx : option toolPriceIndex) (toolName : string) : F64.float64 :=
  GetToolPriceForModel idx toolName "".
End index.

(** ** Other built-in prices *)

Definition gpt_image_prices : list (string * string * F64.float64) :=
  [("low", "1024x1024", const 11 1000); ("low", "1024x1536", const 16 1000);
   ("low", "1536x1024", const 16 1000);
   ("medium", "1024x1024", const 42 1000); ("medium", "1024x1536", const 63 1000);
   ("medium", "1536x1024", const 63 1000);
   ("high", "1024x1024", const 167 1000); ("high", "1024x1536", const 1 4);
   ("high", "1536x1024", const 1 4)].
Definition GetGPTImage1PriceOnceCall (quality size : string) : F64.float64 :=
  match List.find (fun e => bool_decide (e.1 = (quality, size))) gpt_image_prices with
  | Some e => e.2
  | None => const 167 1000
  end.

Definition GetGeminiInputAudioPricePerMillionTokens (modelName : string) : F64.float64 :=
  if HasPrefix modelName "gemini-2.5-flash-preview-native-audio" then F64.of_Z 3
  else if HasPrefix modelName "gemini-2.5-flash-preview-lite" then const 1 2
  else if HasPrefix modelName "gemini-2.5-flash-preview" then F64.of_Z 1
  else if HasPrefix modelName "gemini-2.5-flash" then F64.of_Z 1
  else if HasPrefix modelName "gemini-2.0-flash" then const 7 10
  else if HasPrefix modelName "gemini-robotics-er-1.5" then F64.of_Z 1
  else F64.zero.

(** ** The lookup takes the longest prefix *)

(** What sort.Slice guarantees. *)
Definition sorts (sort_entries : list prefixEntry -> list prefixEntry) : Prop :=
  forall l, sort_entries l ≡ₚ l /\
    forall i j e1 e2, (i < j)%nat -> sort_entries l !! i = Some e1 -> sort_entries l !! j = Some e2 ->
      (String.length e2.1 <= String.length e1.1)%nat.

(** The price entries of a tool in a table: prefix and price. *)
Definition tool_entry (m : ratio_map) (tool : string) (e : prefixEntry) : Prop :=
  exists key part, m !! key = Some e.2 /\ split_colon key = Some (tool, part) /\ e.1 = TrimSuffix part "*".

Lemma fold_prefixes l idx tool :
  default [] (tpi_prefixes (fold_left add_price l idx) !! tool) =
  default [] (tpi_prefixes idx !! tool) ++
    omap (fun kv => match split_colon kv.1 with
                    | Some (t, part) => if decide (t = tool) then Some (TrimSuffix part "*", kv.2) else None
                    | None => None
                    end) l.
Proof.
  revert idx. induction l as [|kv l IH]; intros idx; simpl; [by rewrite app_nil_r|].
  rewrite IH. unfold add_price. destruct (split_colon kv.1) as [[t part]|]; simpl; [|done].
  case_decide as Ht; [subst t|].
  - rewrite lookup_insert_eq. simpl. by rewrite <- app_assoc.
  - by rewrite lookup_insert_ne.
Qed.

Lemma fold_defaults l idx tool :
  NoDup l.*1 -> split_colon tool = None ->
  tpi_defaults (fold_left add_price l idx) !! tool =
  match (list_to_map l : ratio_map) !! tool with Some p => Some p | None => tpi_defaults idx !! tool end.
Proof.
  revert idx. induction l as [|[k p] l IH]; intros idx Hnd Ht; simpl; [by rewrite lookup_empty|].
  apply NoDup_cons in Hnd as [Hk Hnd]. simpl in Hk. rewrite IH by done.
  destruct (decide (k = tool)) as [->|Hne].
  - rewrite lookup_insert_eq, not_elem_of_list_to_map_1 by done.
    unfold add_price. simpl. rewrite Ht. simpl. by rewrite lookup_insert_eq.
  - rewrite lookup_insert_ne by done. destruct ((list_to_map l : ratio_map) !! tool); [done|].
    unfold add_price. simpl. destruct (split_colon k) as [[]|]; simpl; [done|].
    by rewrite lookup_insert_ne.
Qed.

Lemma match_prefix_longest l model :
  (forall i j e1 e2, (i < j)%nat -> l !! i = Some e1 -> l !! j = Some e2 ->
     (String.length e2.1 <= String.length e1.1)%nat) ->
  match match_prefix model l with
  | Some price => exists e, e ∈ l /\ HasPrefix model e.1 = true /\ price = e.2 /\
      forall e', e' ∈ l -> HasPrefix model e'.1 = true -> (String.length e'.1 <= String.length e.1)%nat
  | None => forall e, e ∈ l -> HasPrefix model e.1 = false
  end.
Proof.
  intros Hs. unfold match_prefix. induction l as [|e l IH]; simpl.
  { intros e He. by apply elem_of_nil in He. }
  destruct (HasPrefix model e.1) eqn:He; simpl.
  - exists e. split; [by left|]. split; [done|]. split; [done|].
    intros e' He' _. apply elem_of_cons in He' as [->|He']; [done|].
    apply list_elem_of_lookup_1 in He' as [j Hj]. exact (Hs O (S j) e e' ltac:(lia) eq_refl Hj).
  - assert (IH' := IH ltac:(intros i j e1 e2 Hij H1 H2; exact (Hs (S i) (S j) e1 e2 ltac:(lia) H1 H2))).
    destruct (snd <$> List.find (fun e => HasPrefix model e.1) l) as [price|].
    + destruct IH' as (e1 & H1 & H2 & H3 & H4). exists e1. split; [by right|]. split; [done|].
      split; [done|]. intros e' He' Hp. apply elem_of_cons in He' as [->|He']; [congruence|by apply H4].
    + intros e' He'. apply elem_of_cons in He' as [->|He']; [done|by apply IH'].
Qed.

(** The price of a tool for a model is that of the longest configured prefix of
    the model's name for that tool, else the tool's default price, else 0,
    whatever the iteration order of the table and the order in which the sort
    leaves prefixes of equal length. *)
Theorem tool_price_longest_prefix range sort_entries Prices tool model :
  (forall m, range m ≡ₚ map_to_list m) -> sorts sort_entries -> model <> "" ->
  split_colon tool = None ->
  let m := merged_prices Prices in
  let price := GetToolPriceForModel (Some (RebuildToolPriceIndex range sort_entries Prices)) tool model in
  (exists e, tool_entry m tool e /\ HasPrefix model e.1 = true /\ price = e.2 /\
     forall e', tool_entry m tool e' -> HasPrefix model e'.1 = true ->
       (String.length e'.1 <= String.length e.1)%nat) \/
  ((forall e, tool_entry m tool e -> HasPrefix model e.1 = false) /\
   price = default F64.zero (m !! tool)).
Proof.
  intros Hr Hs Hm Ht m price. set (idx := fold_left add_price (range m) (mkToolIndex ∅ ∅)).
  assert (Hin : forall e, tool_entry m tool e <-> e ∈ default [] (tpi_prefixes idx !! tool)).
  { intros e. unfold idx. rewrite fold_prefixes. simpl. rewrite lookup_empty. simpl.
    rewrite list_elem_of_omap. split.
    - intros (key & part & Hk & Hsp & He). exists (key, e.2). split.
      + rewrite (Hr m). by apply elem_of_map_to_list.
      + simpl. rewrite Hsp, decide_True by done. by destruct e; simpl in *; subst.
    - intros ([key p] & Hk & Hf). rewrite (Hr m) in Hk. apply elem_of_map_to_list in Hk. simpl in Hf.
      destruct (split_colon key) as [[t part]|] eqn:Hsp; [|done]. case_decide; [|done].
      injection Hf as <-. subst t. by exists key, part. }
  assert (Hdef : tpi_defaults idx !! tool = m !! tool).
  { unfold idx. rewrite fold_defaults; [|rewrite (Hr m); apply NoDup_fst_map_to_list|done].
    simpl. rewrite lookup_empty.
    rewrite (list_to_map_proper (range m) (map_to_list m));
      [rewrite list_to_map_to_list; by destruct (m !! tool)|rewrite (Hr m); apply NoDup_fst_map_to_list|apply Hr]. }
  unfold price, GetToolPriceForModel, RebuildToolPriceIndex. fold m. fold idx. simpl.
  rewrite decide_False by done. rewrite lookup_fmap, Hdef.
  destruct (tpi_prefixes idx !! tool) as [l|] eqn:El; simpl in Hin |- *.
  2: { right. split; [|done]. intros e He. apply Hin in He. by apply elem_of_nil in He. }
  destruct (Hs l) as [Hp Hord]. pose proof (match_prefix_longest (sort_entries l) model Hord) as Hl.
  destruct (match_prefix model (sort_entries l)) as [x|].
  - left. destruct Hl as (e & He & H1 & H2 & H3). exists e. rewrite Hp in He.
    split; [by apply Hin|]. split; [done|]. split; [done|].
    intros e' He' Hpre. apply H3; [|done]. rewrite Hp. by apply Hin.
  - right. split; [|done]. intros e He. apply Hl. rewrite Hp. by apply Hin.
Qed.

(** An insertion sort satisfies the contract. *)
Definition longer (a b : prefixEntry) : Prop := (String.length b.1 <= String.length a.1)%nat.
#[local] Instance longer_dec : RelDecision longer.
Proof. intros a b. unfold longer. apply _. Defined.
#[local] Instance longer_trans : Transitive longer.
Proof. intros a b c. unfold longer. lia. Qed.
#[local] Instance longer_total : Total longer.
Proof. intros a b. unfold longer. lia. Qed.

Lemma merge_sort_sorts : sorts (merge_sort longer).
Proof.
  intros l. split; [apply merge_sort_Permutation|].
  pose proof (StronglySorted_merge_sort longer l) as Hs.
  induction Hs as [|e l' Hs IH Hall]; intros i j e1 e2 Hij H1 H2; [done|].
  destruct i as [|i], j as [|j]; simpl in *; try lia.
  - injection H1 as <-. rewrite Forall_forall in Hall. apply Hall. by eapply list_elem_of_lookup_2.
  - by eapply (IH i j); [lia| |].
Qed.

Lemma tool_price_longest_prefix_witness :
  GetToolPriceForModel (Some (RebuildToolPriceIndex map_to_list (merge_sort longer)
    {["web_search_preview:gpt-4o-mini*" := F64.of_Z 7]})) "web_search_preview" "gpt-4o-mini-2024"
  = F64.of_Z 7.
Proof.
  destruct (tool_price_longest_prefix map_to_list (merge_sort longer)
    {["web_search_preview:gpt-4o-mini*" := F64.of_Z 7]} "web_search_preview" "gpt-4o-mini-2024"
    ltac:(intros m; reflexivity) merge_sort_sorts ltac:(discriminate) ltac:(vm_compute; reflexivity))
    as [_|[_ _]]; vm_compute; reflexivity.
Defined.
