(* ===== verification/BillingExpr.v ===== *)
(** * Tiered billing expressions (src/pkg/billingexpr)

    A model can be priced by an expression over token counts.  The expression
    language is github.com/expr-lang/expr: compiling a body, listing the
    identifiers of a program and running it are parameters.  What the package
    adds is modelled: the version prefix, the cache of compiled programs keyed
    by the SHA-256 digest of the expression, the snapshot frozen at pre-consume
    time and the conversion of a cost to quota. *)

From S2P Require Import Prelude GoStd GoFloat QuotaMath.

(** ** Types (types.go) *)

Record RequestInput := mkRequestInput {
  rq_Headers : gmap string string;
  rq_Body : string;
}.
#[export] Instance RequestInput_settable : Settable RequestInput :=
  fields_of mkRequestInput < rq_Headers; rq_Body >.

Record TokenParams := mkTokenParams {
  tp_P : F64.float64;
  tp_C : F64.float64;
  tp_Len : F64.float64;
  tp_CR : F64.float64;
  tp_CC : F64.float64;
  tp_CC1h : F64.float64;
  tp_Img : F64.float64;
  tp_ImgO : F64.float64;
  tp_AI : F64.float64;
  tp_AO : F64.float64;
}.

Record TraceResult := mkTrace {
  MatchedTier : string;
  tr_Cost : F64.float64;
}.

Record BillingSnapshot := mkSnapshot {
  sn_BillingMode : string;
  sn_ModelName : string;
  sn_ExprString : string;
  sn_ExprHash : string;
  sn_GroupRatio : F64.float64;
  sn_EstimatedPromptTokens : Z;
  sn_EstimatedCompletionTokens : Z;
  sn_EstimatedQuotaBeforeGroup : F64.float64;
  sn_EstimatedQuotaAfterGroup : Z;
  sn_EstimatedTier : string;
  sn_QuotaPerUnit : F64.float64;
  sn_ExprVersion : Z;
}.

Record TieredResult := mkTieredResult {
  ActualQuotaBeforeGroup : F64.float64;
  ActualQuotaAfterGroup : Z;
  tr_MatchedTier : string;
  CrossedTier : bool;
  tr_Clamp : option Quota.QuotaClamp;
}.

(** ** Versions (compile.go) *)

Definition maxCacheSize : nat := 256.
Definition DefaultExprVersion : Z := 1.

Definition ParseExprVersion (exprStr : string) : Z * string :=
  match GoStrings.drop_prefix "v1:" exprStr with
  | Some body => (1, body)
  | None => (DefaultExprVersion, exprStr)
  end.

Definition compile_failed (e : error) : error := ErrNew ("expr compile error: " +:+ error_text e).

(** ** The expression engine *)

(** What the package uses of expr-lang and of crypto/sha256. *)
Class ExprEngine (Prog : Type) := {
  ExprHashString : string -> string;
  expr_Compile : string -> result error Prog;           (** with the v1 environment *)
  extractUsedVars : Prog -> gset string;
  (** One run at a given wall-clock time (the expression may ask for the hour). *)
  runProgram : Z -> Prog -> TokenParams -> RequestInput -> result error (F64.float64 * TraceResult);
}.
(** Distinct expressions have distinct digests. *)
Class ExprEngineLaws (Prog : Type) `{ExprEngine Prog} :=
  hash_inj : forall s t, ExprHashString s = ExprHashString t -> s = t.

Section cache.
Context `{ExprEngine Prog}.

Record cachedEntry := mkEntry {
  ce_prog : Prog;
  ce_usedVars : gset string;
  ce_version : Z;
}.
#[local] Abbreviation Cache := (gmap string cachedEntry).

Definition compileFromCacheByHash (exprStr hash : string) : M Cache error Prog := fun cache =>
  match cache !! hash with
  | Some entry => (Ok (ce_prog entry), cache)
  | None =>
      let '(version, body) := ParseExprVersion exprStr in
      match expr_Compile body with
      | Err e => (Err (compile_failed e), cache)
      | Ok prog =>
          let cache := if decide (maxCacheSize <= size cache)%nat then ∅ else cache in
          (Ok prog, <[hash := mkEntry prog (extractUsedVars prog) version]> cache)
      end
  end.
Definition CompileFromCache (exprStr : string) : M Cache error Prog :=
  compileFromCacheByHash exprStr (ExprHashString exprStr).
Definition CompileFromCacheByHash : string -> string -> M Cache error Prog := compileFromCacheByHash.

Definition ExprVersion (exprStr : string) : M Cache error Z := fun cache =>
  if decide (exprStr = "") then (Ok DefaultExprVersion, cache)
  else match cache !! ExprHashString exprStr with
       | Some entry => (Ok (ce_version entry), cache)
       | None => (Ok (ParseExprVersion exprStr).1, cache)
       end.

(** nil is the empty set: the callers only test membership. *)
Definition UsedVars (exprStr : string) : M Cache error (gset string) := fun cache =>
  if decide (exprStr = "") then (Ok ∅, cache)
  else
    let hash := ExprHashString exprStr in
    match cache !! hash with
    | Some entry => (Ok (ce_usedVars entry), cache)
    | None =>
        let '(r, cache) := compileFromCacheByHash exprStr hash cache in
        match r with
        | Err _ => (Ok ∅, cache)
        | Ok _ => (Ok (match cache !! hash with Some e => ce_usedVars e | None => ∅ end), cache)
        end
    end.

Definition InvalidateCache : M Cache error unit := modify (fun _ => ∅).

(** ** Running (run.go) and settling (settle.go) *)

Definition RunExprWithRequest (now : Z) (exprStr : string) (params : TokenParams)
    (request : RequestInput) : M Cache error (F64.float64 * TraceResult) :=
  prog ← CompileFromCache exprStr;
  of_result (runProgram now prog params request).

Definition RunExprByHashWithRequest (now : Z) (exprStr hash : string) (params : TokenParams)
    (request : RequestInput) : M Cache error (F64.float64 * TraceResult) :=
  prog ← CompileFromCacheByHash exprStr hash;
  of_result (runProgram now prog params request).

(** All versions share the v1 formula. *)
Definition quotaConversion (exprOutput : F64.float64) (snap : BillingSnapshot) : F64.float64 :=
  F64.mul (F64.div exprOutput (F64.of_Z 1000000)) (sn_QuotaPerUnit snap).

Definition ComputeTieredQuotaWithRequest (now : Z) (snap : BillingSnapshot) (params : TokenParams)
    (request : RequestInput) : M Cache error TieredResult :=
  '(cost, trace) ← RunExprByHashWithRequest now (sn_ExprString snap) (sn_ExprHash snap) params request;
  let quotaBeforeGroup := quotaConversion cost snap in
  let '(afterGroup, clamp) := Quota.QuotaRoundChecked (F64.mul quotaBeforeGroup (sn_GroupRatio snap)) in
  mret (mkTieredResult quotaBeforeGroup afterGroup (MatchedTier trace)
          (negb (bool_decide (MatchedTier trace = sn_EstimatedTier snap))) clamp).

(** ** The cache is transparent *)

(** The meaning of an expression, without the cache. *)
Definition compile_direct (exprStr : string) : result error Prog :=
  match expr_Compile (ParseExprVersion exprStr).2 with
  | Ok prog => Ok prog
  | Err e => Err (compile_failed e)
  end.
Definition run_direct (now : Z) (exprStr : string) (params : TokenParams) (request : RequestInput)
    : result error (F64.float64 * TraceResult) :=
  match compile_direct exprStr with
  | Ok prog => runProgram now prog params request
  | Err e => Err e
  end.

(** Every entry is the compilation of the expression its key is the digest of. *)
Definition entry_ok (hash : string) (e : cachedEntry) : Prop :=
  exists s, hash = ExprHashString s /\ compile_direct s = Ok (ce_prog e) /\
    ce_usedVars e = extractUsedVars (ce_prog e) /\ ce_version e = (ParseExprVersion s).1.
Definition cache_ok (cache : Cache) : Prop :=
  map_Forall entry_ok cache /\ (size cache <= maxCacheSize)%nat.

(** The ways the package's cache changes. *)
Inductive cache_step : Cache -> Cache -> Prop :=
| step_compile s c : cache_step c (CompileFromCache s c).2
| step_by_hash s c : cache_step c (CompileFromCacheByHash s (ExprHashString s) c).2
| step_used_vars s c : cache_step c (UsedVars s c).2
| step_invalidate c : cache_step c (InvalidateCache c).2.

Lemma compile_keeps s c :
  cache_ok c -> cache_ok (compileFromCacheByHash s (ExprHashString s) c).2.
Proof.
  intros [Hc Hn]. unfold compileFromCacheByHash.
  destruct (c !! _) eqn:Hl; [done|].
  destruct (ParseExprVersion s) as [version body] eqn:Hp.
  destruct (expr_Compile body) as [prog|e] eqn:Hcomp; [|done].
  assert (He : entry_ok (ExprHashString s) (mkEntry prog (extractUsedVars prog) version)).
  { exists s. unfold compile_direct. rewrite Hp. simpl. by rewrite Hcomp. }
  unfold snd. case_decide as Hsz.
  - split; [apply map_Forall_insert_2; [done|apply map_Forall_empty]|].
    rewrite map_size_insert, lookup_empty, map_size_empty. unfold maxCacheSize. simpl. lia.
  - split; [by apply map_Forall_insert_2|].
    rewrite map_size_insert, Hl. lia.
Qed.

Lemma UsedVars_keeps s c : cache_ok c -> cache_ok (UsedVars s c).2.
Proof.
  intros Hc. unfold UsedVars. case_decide; [done|]. destruct (c !! _); [done|].
  pose proof (compile_keeps s c Hc) as Hk.
  by destruct (compileFromCacheByHash _ _ c) as [[]].
Qed.

Lemma cache_step_ok c c' : cache_step c c' -> cache_ok c -> cache_ok c'.
Proof.
  destruct 1; intros Hc; [by apply compile_keeps|by apply compile_keeps|by apply UsedVars_keeps|].
  split; [apply map_Forall_empty|]. simpl. rewrite map_size_empty. unfold maxCacheSize. lia.
Qed.

Lemma empty_cache_ok : cache_ok ∅.
Proof. split; [apply map_Forall_empty|]. rewrite map_size_empty. unfold maxCacheSize. lia. Qed.

Lemma compile_transparent `{!ExprEngineLaws Prog} s c :
  cache_ok c -> (compileFromCacheByHash s (ExprHashString s) c).1 = compile_direct s.
Proof.
  intros [Hc _]. unfold compileFromCacheByHash. destruct (c !! _) as [e|] eqn:Hl.
  - destruct (Hc _ _ Hl) as (t & Ht & Hd & _). apply hash_inj in Ht as <-. by rewrite Hd.
  - unfold compile_direct. destruct (ParseExprVersion s) as [v body]. simpl.
    by destruct (expr_Compile body).
Qed.

Lemma run_transparent `{!ExprEngineLaws Prog} now s params request c :
  cache_ok c ->
  (RunExprByHashWithRequest now s (ExprHashString s) params request c).1 = run_direct now s params request.
Proof.
  intros Hc. unfold RunExprByHashWithRequest, CompileFromCacheByHash, run_direct.
  rewrite run_bind, <- (compile_transparent s c Hc).
  by destruct (compileFromCacheByHash _ _ c) as [[]].
Qed.
End cache.
Arguments cachedEntry : clear implicits.
Arguments cache_step {Prog _} _ _.
Abbreviation Cache Prog := (gmap string (cachedEntry Prog)).

(** The cache of compiled expressions is transparent: after any sequence of
    compilations, lookups and invalidations it holds at most 256 entries, and
    running an expression through it, reading its version or its variables gives
    what compiling that very expression gives. *)
Theorem expr_cache_transparent `{ExprEngineLaws Prog} (c : Cache Prog) :
  rtc cache_step ∅ c ->
  (size c <= maxCacheSize)%nat /\
  forall now s params request,
    (RunExprByHashWithRequest now s (ExprHashString s) params request c).1 = run_direct now s params request /\
    (RunExprWithRequest now s params request c).1 = run_direct now s params request /\
    (ExprVersion s c).1 = Ok (ParseExprVersion s).1 /\
    (s <> "" -> forall prog, compile_direct s = Ok prog -> (UsedVars s c).1 = Ok (extractUsedVars prog)).
Proof.
  intros Hr.
  assert (Hc : cache_ok c).
  { assert (H0' : cache_ok (∅ : Cache Prog)) by apply empty_cache_ok. revert H0'.
    induction Hr as [|c1 c2 c3 Hs _ IH]; [done|]. intros Hc. apply IH. by eapply cache_step_ok. }
  split; [apply Hc|]. intros now s params request.
  split; [by apply run_transparent|]. split; [exact (run_transparent now s params request c Hc)|].
  split.
  - unfold ExprVersion. case_decide as Hs; [by subst s|].
    destruct (c !! _) as [e|] eqn:Hl; [|done].
    destruct (proj1 Hc _ _ Hl) as (t & Ht & _ & _ & Hv). apply hash_inj in Ht as <-. by rewrite Hv.
  - intros Hs prog Hprog. unfold UsedVars. rewrite decide_False by done.
    destruct (c !! _) as [e|] eqn:Hl.
    + destruct (proj1 Hc _ _ Hl) as (t & Ht & Hd & Hu & _). apply hash_inj in Ht as <-.
      rewrite Hprog in Hd. injection Hd as ->. by rewrite Hu.
    + unfold compileFromCacheByHash. rewrite Hl.
      unfold compile_direct in Hprog. destruct (ParseExprVersion s) as [v body]. simpl in Hprog.
      destruct (expr_Compile body); [|done]. injection Hprog as ->. simpl.
      by rewrite lookup_insert_eq.
Qed.

(** A small engine: an expression is the name of a token count, the digest is the
    expression itself. *)
Definition toy_vars : gmap string (TokenParams -> F64.float64) :=
  {["p" := tp_P; "c" := tp_C; "len" := tp_Len]}.
#[local] Instance toy_engine : ExprEngine string := {|
  ExprHashString := fun s => s;
  expr_Compile := fun s => if decide (is_Some (toy_vars !! s)) then Ok s else Err (ErrNew "unknown name");
  extractUsedVars := fun s => {[s]};
  runProgram := fun _ s params _ =>
    let x := default tp_P (toy_vars !! s) params in Ok (x, mkTrace s x);
|}.
#[local] Instance toy_engine_laws : ExprEngineLaws string.
Proof. by intros s t. Defined.

Definition toy_cache : Cache string := (CompileFromCache "v1:c" (CompileFromCache "p" ∅).2).2.
Lemma toy_cache_reached : rtc cache_step ∅ toy_cache.
Proof. eapply rtc_l; [apply (step_compile "p")|]. eapply rtc_l; [apply (step_compile "v1:c")|]. apply rtc_refl. Qed.

Lemma expr_cache_transparent_witness :
  (size toy_cache <= 256)%nat /\ (UsedVars "v1:c" toy_cache).1 = Ok {["c"]}.
Proof.
  destruct (expr_cache_transparent toy_cache toy_cache_reached) as [Hn H].
  split; [exact Hn|].
  destruct (H 0 "v1:c" (mkTokenParams F64.zero F64.zero F64.zero F64.zero F64.zero F64.zero F64.zero
              F64.zero F64.zero F64.zero) (mkRequestInput ∅ "")) as (_ & _ & _ & Hu).
  apply Hu; [discriminate|reflexivity].
Defined.
