(* ===== verification/Usage.v ===== *)
(** * Token usage (src/dto/openai_response.go, claude.go, gemini.go,
      src/dto/billing_usage.go, src/service/billing_usage.go)

    What an upstream reports as consumed.  A response converted from another
    provider's format carries the provider's own usage in [BillingUsage]; the
    settlement reads the usage through [effectiveBillingUsage].  Pointers to
    these structs are options: the code never shares one after a clone. *)

From S2P Require Import Prelude GoStd GoFloat.

(** ** The structs *)

Record InputTokenDetails := mkInputDetails {
  it_CachedTokens : Z;
  it_CachedCreationTokens : Z;
  it_CacheWriteTokens : Z;
  it_TextTokens : Z;
  it_AudioTokens : Z;
  it_ImageTokens : Z;
}.
#[export] Instance InputTokenDetails_settable : Settable InputTokenDetails :=
  fields_of mkInputDetails < it_CachedTokens; it_CachedCreationTokens; it_CacheWriteTokens;
    it_TextTokens; it_AudioTokens; it_ImageTokens >.

Record OutputTokenDetails := mkOutputDetails {
  ot_TextTokens : Z;
  ot_AudioTokens : Z;
  ot_ImageTokens : Z;
  ot_ReasoningTokens : Z;
}.
#[export] Instance OutputTokenDetails_settable : Settable OutputTokenDetails :=
  fields_of mkOutputDetails < ot_TextTokens; ot_AudioTokens; ot_ImageTokens; ot_ReasoningTokens >.

Record ClaudeCacheCreationUsage := mkClaudeCacheCreation {
  Ephemeral5mInputTokens : Z;
  Ephemeral1hInputTokens : Z;
}.

(** [Modality] and [TokenCount]. *)
Definition GeminiPromptTokensDetails : Type := string * Z.

(** The [Cost] of OpenRouter is of type [any]: absent, a number, or another
    JSON value. *)
Inductive CostValue := CostNone | CostFloat (x : F64.float64) | CostOther.

Inductive Usage := mkUsage {
  us_PromptTokens : Z;
  us_CompletionTokens : Z;
  us_TotalTokens : Z;
  us_PromptCacheHitTokens : Z;
  us_UsageSemantic : string;
  us_UsageSource : string;
  us_BillingUsage : option BillingUsage;
  us_PromptTokensDetails : InputTokenDetails;
  us_CompletionTokenDetails : OutputTokenDetails;
  us_InputTokens : Z;
  us_OutputTokens : Z;
  us_InputTokensDetails : option InputTokenDetails;
  us_ClaudeCacheCreation5mTokens : Z;
  us_ClaudeCacheCreation1hTokens : Z;
  us_Cost : CostValue;
}
with BillingUsage := mkBillingUsage {
  bu_Source : string;
  bu_Semantic : string;
  bu_Estimated : bool;
  bu_OpenAIUsage : option Usage;
  bu_ClaudeUsage : option ClaudeUsage;
  bu_GeminiUsageMetadata : option GeminiUsageMetadata;
}
with ClaudeUsage := mkClaudeUsage {
  cu_InputTokens : Z;
  cu_CacheCreationInputTokens : Z;
  cu_CacheReadInputTokens : Z;
  cu_OutputTokens : Z;
  cu_CacheCreation : option ClaudeCacheCreationUsage;
  cu_ClaudeCacheCreation5mTokens : Z;
  cu_ClaudeCacheCreation1hTokens : Z;
  cu_ServerToolUse : option Z;             (** WebSearchRequests *)
  cu_BillingUsage : option BillingUsage;
}
with GeminiUsageMetadata := mkGeminiUsage {
  gu_PromptTokenCount : Z;
  gu_ToolUsePromptTokenCount : Z;
  gu_CandidatesTokenCount : Z;
  gu_TotalTokenCount : Z;
  gu_ThoughtsTokenCount : Z;
  gu_CachedContentTokenCount : Z;
  gu_PromptTokensDetails : list GeminiPromptTokensDetails;
  gu_ToolUsePromptTokensDetails : list GeminiPromptTokensDetails;
  gu_CandidatesTokensDetails : list GeminiPromptTokensDetails;
  gu_BillingUsage : option BillingUsage;
}.
#[export] Instance Usage_settable : Settable Usage :=
  fields_of mkUsage < us_PromptTokens; us_CompletionTokens; us_TotalTokens;
    us_PromptCacheHitTokens; us_UsageSemantic; us_UsageSource; us_BillingUsage;
    us_PromptTokensDetails; us_CompletionTokenDetails; us_InputTokens; us_OutputTokens;
    us_InputTokensDetails; us_ClaudeCacheCreation5mTokens; us_ClaudeCacheCreation1hTokens;
    us_Cost >.
#[export] Instance BillingUsage_settable : Settable BillingUsage :=
  fields_of mkBillingUsage < bu_Source; bu_Semantic; bu_Estimated; bu_OpenAIUsage;
    bu_ClaudeUsage; bu_GeminiUsageMetadata >.
#[export] Instance ClaudeUsage_settable : Settable ClaudeUsage :=
  fields_of mkClaudeUsage < cu_InputTokens; cu_CacheCreationInputTokens;
    cu_CacheReadInputTokens; cu_OutputTokens; cu_CacheCreation; cu_ClaudeCacheCreation5mTokens;
    cu_ClaudeCacheCreation1hTokens; cu_ServerToolUse; cu_BillingUsage >.
#[export] Instance GeminiUsageMetadata_settable : Settable GeminiUsageMetadata :=
  fields_of mkGeminiUsage < gu_PromptTokenCount; gu_ToolUsePromptTokenCount;
    gu_CandidatesTokenCount; gu_TotalTokenCount; gu_ThoughtsTokenCount;
    gu_CachedContentTokenCount; gu_PromptTokensDetails; gu_ToolUsePromptTokensDetails;
    gu_CandidatesTokensDetails; gu_BillingUsage >.

(** The zero value [dto.Usage{}]. *)
Definition zero_input_details : InputTokenDetails := mkInputDetails 0 0 0 0 0 0.
Definition zero_output_details : OutputTokenDetails := mkOutputDetails 0 0 0 0.
Definition zero_usage : Usage :=
  mkUsage 0 0 0 0 "" "" None zero_input_details zero_output_details 0 0 None 0 0 CostNone.

Definition CacheCreationTokensTotal (d : InputTokenDetails) : Z :=
  let total := it_CachedCreationTokens d in
  let total := if it_CacheWriteTokens d >? total then it_CacheWriteTokens d else total in
  if total <? 0 then 0 else total.

Definition GetCacheCreation5mTokens (u : ClaudeUsage) : Z :=
  match cu_CacheCreation u with None => 0 | Some c => Ephemeral5mInputTokens c end.
Definition GetCacheCreation1hTokens (u : ClaudeUsage) : Z :=
  match cu_CacheCreation u with None => 0 | Some c => Ephemeral1hInputTokens c end.

(** ** Billing usage (src/dto/billing_usage.go) *)

Definition BillingUsageSourceClaudeMessages : string := "claude_messages".
Definition BillingUsageSourceGeminiChat : string := "gemini_chat".
Definition BillingUsageSourceOAIChat : string := "oai_chat".
Definition BillingUsageSourceOAIResponses : string := "oai_responses".
Definition BillingUsageSemanticAnthropic : string := "anthropic".
Definition BillingUsageSemanticGemini : string := "gemini".
Definition BillingUsageSemanticOpenAI : string := "openai".

(** *** Clones drop the nested billing usage *)

Definition cloneOpenAIUsage (usage : option Usage) : option Usage :=
  match usage with None => None | Some u => Some (u <| us_BillingUsage := None |>) end.
Definition cloneClaudeUsage (usage : option ClaudeUsage) : option ClaudeUsage :=
  match usage with None => None | Some u => Some (u <| cu_BillingUsage := None |>) end.
Definition cloneGeminiUsageMetadata (m : GeminiUsageMetadata) : GeminiUsageMetadata :=
  m <| gu_BillingUsage := None |>.
Definition CloneBillingUsage (usage : option BillingUsage) : option BillingUsage :=
  match usage with
  | None => None
  | Some b => Some (b <| bu_OpenAIUsage := cloneOpenAIUsage (bu_OpenAIUsage b) |>
                      <| bu_ClaudeUsage := cloneClaudeUsage (bu_ClaudeUsage b) |>
                      <| bu_GeminiUsageMetadata :=
                           cloneGeminiUsageMetadata <$> bu_GeminiUsageMetadata b |>)
  end.

(** *** Which usages carry tokens *)

Definition nonzero (z : Z) : bool := negb (z =? 0).

Definition HasClaudeUsageTokens (usage : option ClaudeUsage) : bool :=
  match usage with
  | None => false
  | Some u =>
      nonzero (cu_InputTokens u) || nonzero (cu_OutputTokens u)
      || nonzero (cu_CacheCreationInputTokens u) || nonzero (cu_CacheReadInputTokens u)
      || nonzero (cu_ClaudeCacheCreation5mTokens u) || nonzero (cu_ClaudeCacheCreation1hTokens u)
      || match cu_CacheCreation u with
         | Some c => nonzero (Ephemeral5mInputTokens c) || nonzero (Ephemeral1hInputTokens c)
         | None => false
         end
  end.

Definition HasOpenAIUsageTokens (usage : option Usage) : bool :=
  match usage with
  | None => false
  | Some u =>
      nonzero (us_PromptTokens u) || nonzero (us_CompletionTokens u) || nonzero (us_TotalTokens u)
      || nonzero (us_InputTokens u) || nonzero (us_OutputTokens u)
      || nonzero (us_PromptCacheHitTokens u) || nonzero (us_ClaudeCacheCreation5mTokens u)
      || nonzero (us_ClaudeCacheCreation1hTokens u)
      || (let d := us_PromptTokensDetails u in
          nonzero (it_CachedTokens d) || nonzero (it_CachedCreationTokens d)
          || nonzero (it_CacheWriteTokens d) || nonzero (it_TextTokens d)
          || nonzero (it_ImageTokens d) || nonzero (it_AudioTokens d))
      || (let d := us_CompletionTokenDetails u in
          nonzero (ot_ReasoningTokens d) || nonzero (ot_TextTokens d)
          || nonzero (ot_ImageTokens d) || nonzero (ot_AudioTokens d))
      || match us_InputTokensDetails u with Some _ => true | None => false end
  end.

Definition has_count (l : list GeminiPromptTokensDetails) : bool := existsb (fun d => nonzero d.2) l.

Definition HasGeminiUsageMetadataTokens (metadata : option GeminiUsageMetadata) : bool :=
  match metadata with
  | None => false
  | Some m =>
      nonzero (gu_PromptTokenCount m) || nonzero (gu_ToolUsePromptTokenCount m)
      || nonzero (gu_CandidatesTokenCount m) || nonzero (gu_TotalTokenCount m)
      || nonzero (gu_ThoughtsTokenCount m) || nonzero (gu_CachedContentTokenCount m)
      || has_count (gu_PromptTokensDetails m) || has_count (gu_ToolUsePromptTokensDetails m)
      || has_count (gu_CandidatesTokensDetails m)
  end.

(** *** Constructors *)

Definition NewClaudeMessagesBillingUsage (usage : option ClaudeUsage) : option BillingUsage :=
  if negb (HasClaudeUsageTokens usage) then None
  else Some (mkBillingUsage BillingUsageSourceClaudeMessages BillingUsageSemanticAnthropic false
               None (cloneClaudeUsage usage) None).

Definition newOpenAIBillingUsage (source : string) (usage : option Usage) : option BillingUsage :=
  if negb (HasOpenAIUsageTokens usage) then None
  else Some (mkBillingUsage source BillingUsageSemanticOpenAI false (cloneOpenAIUsage usage) None None).
Definition NewOpenAIChatBillingUsage : option Usage -> option BillingUsage :=
  newOpenAIBillingUsage BillingUsageSourceOAIChat.
Definition NewOpenAIResponsesBillingUsage : option Usage -> option BillingUsage :=
  newOpenAIBillingUsage BillingUsageSourceOAIResponses.

Definition newGeminiChatBillingUsage (metadata : option GeminiUsageMetadata) (estimated : bool)
    : option BillingUsage :=
  if negb (HasGeminiUsageMetadataTokens metadata) then None
  else Some (mkBillingUsage BillingUsageSourceGeminiChat BillingUsageSemanticGemini estimated
               None None (cloneGeminiUsageMetadata <$> metadata)).
Definition NewGeminiChatBillingUsage (metadata : option GeminiUsageMetadata) : option BillingUsage :=
  newGeminiChatBillingUsage metadata false.
Definition NewEstimatedGeminiChatBillingUsage (usage : option Usage) : option BillingUsage :=
  match usage with
  | None => None
  | Some u =>
      let totalTokens := if us_TotalTokens u =? 0
                         then us_PromptTokens u + us_CompletionTokens u else us_TotalTokens u in
      newGeminiChatBillingUsage
        (Some (mkGeminiUsage (us_PromptTokens u) 0 (us_CompletionTokens u) totalTokens 0 0
                 [] [] [] None)) true
  end.

(** ** The usage a settlement reads (src/service/billing_usage.go) *)

Definition is_openai (source semantic : string) : bool :=
  GoStrings.EqualFold source BillingUsageSourceOAIChat
  || GoStrings.EqualFold source BillingUsageSourceOAIResponses
  || GoStrings.EqualFold semantic BillingUsageSemanticOpenAI.
Definition is_anthropic (source semantic : string) : bool :=
  GoStrings.EqualFold source BillingUsageSourceClaudeMessages
  || GoStrings.EqualFold semantic BillingUsageSemanticAnthropic.
Definition is_gemini (source semantic : string) : bool :=
  GoStrings.EqualFold source BillingUsageSourceGeminiChat
  || GoStrings.EqualFold semantic BillingUsageSemanticGemini.

(** [if dst == 0 && src > 0 { dst = src }] *)
Definition fill_zero (dst src : Z) : Z := if (dst =? 0) && (src >? 0) then src else dst.

Definition usageFromOpenAIBillingUsage (b : BillingUsage) (usage : Usage) : Usage :=
  let usage := usage <| us_PromptTokens := fill_zero (us_PromptTokens usage) (us_InputTokens usage) |> in
  let usage := usage <| us_CompletionTokens :=
                          fill_zero (us_CompletionTokens usage) (us_OutputTokens usage) |> in
  let usage := usage <| us_InputTokens := fill_zero (us_InputTokens usage) (us_PromptTokens usage) |> in
  let usage := usage <| us_OutputTokens :=
                          fill_zero (us_OutputTokens usage) (us_CompletionTokens usage) |> in
  let usage := usage <| us_TotalTokens :=
                 if us_TotalTokens usage =? 0
                 then us_PromptTokens usage + us_CompletionTokens usage
                 else us_TotalTokens usage |> in
  usage <| us_UsageSemantic := BillingUsageSemanticOpenAI |>
        <| us_UsageSource := bu_Source b |>
        <| us_BillingUsage := CloneBillingUsage (Some b) |>.

Definition usageFromClaudeBillingUsage (b : BillingUsage) (c : ClaudeUsage) : Usage :=
  let cacheCreation5m := if GetCacheCreation5mTokens c =? 0
                         then cu_ClaudeCacheCreation5mTokens c else GetCacheCreation5mTokens c in
  let cacheCreation1h := if GetCacheCreation1hTokens c =? 0
                         then cu_ClaudeCacheCreation1hTokens c else GetCacheCreation1hTokens c in
  zero_usage
    <| us_PromptTokens := cu_InputTokens c |>
    <| us_CompletionTokens := cu_OutputTokens c |>
    <| us_TotalTokens := cu_InputTokens c + cu_OutputTokens c |>
    <| us_InputTokens := cu_InputTokens c + cu_CacheReadInputTokens c
                         + cu_CacheCreationInputTokens c |>
    <| us_OutputTokens := cu_OutputTokens c |>
    <| us_UsageSemantic := BillingUsageSemanticAnthropic |>
    <| us_UsageSource := BillingUsageSourceClaudeMessages |>
    <| us_BillingUsage := CloneBillingUsage (Some b) |>
    <| us_ClaudeCacheCreation5mTokens := cacheCreation5m |>
    <| us_ClaudeCacheCreation1hTokens := cacheCreation1h |>
    <| us_PromptTokensDetails :=
         zero_input_details <| it_CachedTokens := cu_CacheReadInputTokens c |>
                            <| it_CachedCreationTokens := cu_CacheCreationInputTokens c |> |>.

Definition addGeminiInputTokenDetail (details : InputTokenDetails)
    (detail : GeminiPromptTokensDetails) : InputTokenDetails :=
  let '(modality, count) := detail in
  if decide (modality = "AUDIO") then
    details <| it_AudioTokens := it_AudioTokens details + count |>
  else if decide (modality = "IMAGE") then
    details <| it_ImageTokens := it_ImageTokens details + count |>
  else if decide (modality = "TEXT") then
    details <| it_TextTokens := it_TextTokens details + count |>
  else details.

Definition addGeminiOutputTokenDetail (details : OutputTokenDetails)
    (detail : GeminiPromptTokensDetails) : OutputTokenDetails :=
  let '(modality, count) := detail in
  if decide (modality = "IMAGE") then
    details <| ot_ImageTokens := ot_ImageTokens details + count |>
  else if decide (modality = "AUDIO") then
    details <| ot_AudioTokens := ot_AudioTokens details + count |>
  else if decide (modality = "TEXT") then
    details <| ot_TextTokens := ot_TextTokens details + count |>
  else details.

Definition usageFromGeminiBillingUsage (b : BillingUsage) (m : GeminiUsageMetadata) : Usage :=
  let promptTokens := gu_PromptTokenCount m + gu_ToolUsePromptTokenCount m in
  let input := zero_input_details <| it_CachedTokens := gu_CachedContentTokenCount m |> in
  let input := fold_left addGeminiInputTokenDetail (gu_PromptTokensDetails m) input in
  let input := fold_left addGeminiInputTokenDetail (gu_ToolUsePromptTokensDetails m) input in
  let output := zero_output_details <| ot_ReasoningTokens := gu_ThoughtsTokenCount m |> in
  let output := fold_left addGeminiOutputTokenDetail (gu_CandidatesTokensDetails m) output in
  let completion := gu_CandidatesTokenCount m + gu_ThoughtsTokenCount m in
  let '(total, completion) :=
    (if gu_TotalTokenCount m =? 0 then (promptTokens + completion, completion)
     else if completion <=? 0 then (gu_TotalTokenCount m, gu_TotalTokenCount m - promptTokens)
     else (gu_TotalTokenCount m, completion)) in
  let input : InputTokenDetails :=
    if (promptTokens >? 0) && (it_TextTokens input =? 0) && (it_AudioTokens input =? 0)
    then input <| it_TextTokens := promptTokens |> else input in
  zero_usage
    <| us_PromptTokens := promptTokens |>
    <| us_CompletionTokens := completion |>
    <| us_TotalTokens := total |>
    <| us_UsageSemantic := BillingUsageSemanticGemini |>
    <| us_UsageSource := BillingUsageSourceGeminiChat |>
    <| us_BillingUsage := CloneBillingUsage (Some b) |>
    <| us_PromptTokensDetails := input |>
    <| us_CompletionTokenDetails := output |>.

(** [None] stands for the result [(nil, false)]. *)
Definition usageFromBillingUsage (usage : option Usage) : option Usage :=
  match usage ≫= us_BillingUsage with
  | None => None
  | Some b =>
      let source := GoStrings.TrimSpace (bu_Source b) in
      let semantic := GoStrings.TrimSpace (bu_Semantic b) in
      let gemini := match bu_GeminiUsageMetadata b with
                    | Some m => if is_gemini source semantic
                                then Some (usageFromGeminiBillingUsage b m) else None
                    | None => None
                    end in
      let claude := match bu_ClaudeUsage b with
                    | Some c => if is_anthropic source semantic
                                then Some (usageFromClaudeBillingUsage b c) else gemini
                    | None => gemini
                    end in
      match bu_OpenAIUsage b with
      | Some u => if is_openai source semantic
                  then Some (usageFromOpenAIBillingUsage b u) else claude
      | None => claude
      end
  end.

Definition effectiveBillingUsage (usage : option Usage) : option Usage :=
  match usageFromBillingUsage usage with Some u => Some u | None => usage end.

Definition usageBillingPathForLog (isLocalCountTokens : bool) (usage : option Usage) : string :=
  if isLocalCountTokens then "local"
  else match usage ≫= us_BillingUsage with
       | None => "upstream"
       | Some b =>
           let source := GoStrings.TrimSpace (bu_Source b) in
           let semantic := GoStrings.TrimSpace (bu_Semantic b) in
           let path name := if bu_Estimated b then name +:+ "-estimated" else name in
           if is_openai source semantic then path "billing-usage-openai"
           else if is_anthropic source semantic then path "billing-usage-anthropic"
           else if is_gemini source semantic then path "billing-usage-gemini"
           else "upstream"
       end.

(** ** Facts *)

Lemma CacheCreationTokensTotal_nonneg d : 0 <= CacheCreationTokensTotal d.
Proof. unfold CacheCreationTokensTotal. cbv zeta. destruct (_ <? 0) eqn:?; bools; lia. Qed.

Lemma CloneBillingUsage_idemp b : CloneBillingUsage (CloneBillingUsage b) = CloneBillingUsage b.
Proof. by destruct b as [[? ? ? [[]|] [[]|] [[]|]]|]. Qed.

(** A remap depends on the billing usage alone, and on nothing its clone drops. *)
Lemma usageFromBillingUsage_clone usage usage' :
  usage' ≫= us_BillingUsage = CloneBillingUsage (usage ≫= us_BillingUsage) ->
  usageFromBillingUsage usage' = usageFromBillingUsage usage.
Proof.
  unfold usageFromBillingUsage. intros ->.
  destruct (usage ≫= us_BillingUsage) as [[src sem est [u|] [c|] [g|]]|]; cbn;
    repeat (destruct (_ : bool); [f_equal; by destruct u || by destruct c || by destruct g|]); done.
Qed.

Lemma usageFromBillingUsage_carries usage u :
  usageFromBillingUsage usage = Some u ->
  us_BillingUsage u = CloneBillingUsage (usage ≫= us_BillingUsage).
Proof.
  unfold usageFromBillingUsage. destruct (usage ≫= us_BillingUsage) as [b|]; [|done].
  unfold usageFromGeminiBillingUsage. cbv zeta.
  repeat step_match; intros [= <-]; reflexivity.
Qed.

(** Reading the effective usage is idempotent: remapping a usage that was
    already remapped changes nothing, so a settlement that remaps once and shares
    the result bills the same tokens as one that remaps at every step. *)
Theorem effectiveBillingUsage_idempotent usage :
  effectiveBillingUsage (effectiveBillingUsage usage) = effectiveBillingUsage usage.
Proof.
  unfold effectiveBillingUsage at 2 3.
  destruct (usageFromBillingUsage usage) as [u|] eqn:E.
  - unfold effectiveBillingUsage. rewrite (usageFromBillingUsage_clone usage (Some u)), E; [done|].
    exact (usageFromBillingUsage_carries _ _ E).
  - unfold effectiveBillingUsage. by rewrite E.
Qed.

(** What a converted response [u] carries: the provider's usage, or nothing. *)
Definition with_billing (u : Usage) (b : option BillingUsage) : option Usage :=
  Some (u <| us_BillingUsage := b |>).

(** A provider's own usage survives the conversion of its response to another
    format: whatever the converted usage [u] says, the settlement reads the
    tokens the provider reported (for Gemini, tool-use prompt tokens count as
    prompt and thoughts as completion); a provider usage without any tokens is
    not attached, and the converted usage itself is billed. *)
Theorem provider_usage_survives u (c : ClaudeUsage) (o : Usage) (m : GeminiUsageMetadata) :
  (if HasClaudeUsageTokens (Some c)
   then exists u', effectiveBillingUsage (with_billing u (NewClaudeMessagesBillingUsage (Some c))) = Some u' /\
     us_PromptTokens u' = cu_InputTokens c /\ us_CompletionTokens u' = cu_OutputTokens c /\
     it_CachedTokens (us_PromptTokensDetails u') = cu_CacheReadInputTokens c /\
     CacheCreationTokensTotal (us_PromptTokensDetails u') = Z.max 0 (cu_CacheCreationInputTokens c) /\
     us_UsageSemantic u' = "anthropic"
   else effectiveBillingUsage (with_billing u (NewClaudeMessagesBillingUsage (Some c))) = with_billing u None) /\
  (if HasOpenAIUsageTokens (Some o)
   then exists u', effectiveBillingUsage (with_billing u (NewOpenAIChatBillingUsage (Some o))) = Some u' /\
     us_PromptTokens u' = fill_zero (us_PromptTokens o) (us_InputTokens o) /\
     us_CompletionTokens u' = fill_zero (us_CompletionTokens o) (us_OutputTokens o) /\
     us_PromptTokensDetails u' = us_PromptTokensDetails o /\ us_UsageSemantic u' = "openai"
   else effectiveBillingUsage (with_billing u (NewOpenAIChatBillingUsage (Some o))) = with_billing u None) /\
  (if HasGeminiUsageMetadataTokens (Some m)
   then exists u', effectiveBillingUsage (with_billing u (NewGeminiChatBillingUsage (Some m))) = Some u' /\
     let completion := gu_CandidatesTokenCount m + gu_ThoughtsTokenCount m in
     us_PromptTokens u' = gu_PromptTokenCount m + gu_ToolUsePromptTokenCount m /\
     us_CompletionTokens u' =
       (if negb (gu_TotalTokenCount m =? 0) && (completion <=? 0)
        then gu_TotalTokenCount m - us_PromptTokens u' else completion) /\
     us_UsageSemantic u' = "gemini"
   else effectiveBillingUsage (with_billing u (NewGeminiChatBillingUsage (Some m))) = with_billing u None).
Proof.
  split; [|split].
  - unfold NewClaudeMessagesBillingUsage. destruct (HasClaudeUsageTokens _); [|done].
    eexists. split; [reflexivity|]. cbn. repeat split.
    unfold CacheCreationTokensTotal. cbn.
    destruct (0 >? _) eqn:?, (_ <? 0) eqn:?; bools; lia.
  - unfold NewOpenAIChatBillingUsage, newOpenAIBillingUsage.
    destruct (HasOpenAIUsageTokens _); [|done]. eexists. by split; [reflexivity|].
  - unfold NewGeminiChatBillingUsage, newGeminiChatBillingUsage.
    destruct (HasGeminiUsageMetadataTokens _); [|done].
    eexists. split; [reflexivity|]. cbv zeta. unfold usageFromGeminiBillingUsage. cbv zeta. cbn.
    destruct (gu_TotalTokenCount m =? 0); cbn; [done|]. by destruct (_ <=? 0).
Qed.
