(* ===== verification/World.v ===== *)
(** * The shared state: database, Redis, batch stores, background jobs

    The code's global variables and external services as one record.

    - The relational database is a [DB]: a finite map per table.  A statement
      issued on the handle [DB] acts on the committed state at once; inside
      [DB.Transaction] statements issued on [tx] are buffered and become visible
      to others when the transaction commits; an error rolls them back.
    - Every database and Redis call can fail: [w_faults] scripts, call by call,
      which ones do and with what message.  A theorem that quantifies over the
      world therefore covers every failure.
    - [gopool.Go] closures are queued as [job]s and run later, in any order.
    - [w_now] and [w_dbnow] are the application and database clocks. *)

From S2P Require Import Prelude GoStd GoFloat.

(** ** Rows *)

(** src/model/user.go, type User (the OAuth identifiers and profile texts that
    no modelled operation reads are left out). *)
Record User := mkUser {
  u_Id : Z;
  u_Username : string;
  u_Role : Z;
  u_Status : Z;
  u_Email : string;
  u_AccessToken : option string;
  u_Quota : Z;
  u_UsedQuota : Z;
  u_RequestCount : Z;
  u_Group : string;
  u_AffCode : string;
  u_AffCount : Z;
  u_AffQuota : Z;
  u_AffHistoryQuota : Z;
  u_InviterId : Z;
  u_DeletedAt : option Z;
  u_Setting : string;
  u_StripeCustomer : string;
}.
#[export] Instance User_settable : Settable User :=
  fields_of mkUser < u_Id; u_Username; u_Role; u_Status; u_Email; u_AccessToken;
    u_Quota; u_UsedQuota; u_RequestCount; u_Group; u_AffCode; u_AffCount; u_AffQuota;
    u_AffHistoryQuota; u_InviterId; u_DeletedAt; u_Setting; u_StripeCustomer >.

(** src/model/user_cache.go, type UserBase *)
Record UserBase := mkUserBase {
  ub_Id : Z;
  ub_Group : string;
  ub_Email : string;
  ub_Quota : Z;
  ub_Status : Z;
  ub_Username : string;
  ub_Setting : string;
}.
#[export] Instance UserBase_settable : Settable UserBase :=
  fields_of mkUserBase < ub_Id; ub_Group; ub_Email; ub_Quota; ub_Status; ub_Username;
    ub_Setting >.

(** src/model/token.go, type Token *)
Record Token := mkToken {
  t_Id : Z;
  t_UserId : Z;
  t_Key : string;
  t_Status : Z;
  t_Name : string;
  t_CreatedTime : Z;
  t_AccessedTime : Z;
  t_ExpiredTime : Z;
  t_RemainQuota : Z;
  t_UnlimitedQuota : bool;
  t_ModelLimitsEnabled : bool;
  t_ModelLimits : string;
  t_AllowIps : option string;
  t_UsedQuota : Z;
  t_Group : string;
  t_CrossGroupRetry : bool;
  t_DeletedAt : option Z;
}.
#[export] Instance Token_settable : Settable Token :=
  fields_of mkToken < t_Id; t_UserId; t_Key; t_Status; t_Name; t_CreatedTime;
    t_AccessedTime; t_ExpiredTime; t_RemainQuota; t_UnlimitedQuota; t_ModelLimitsEnabled;
    t_ModelLimits; t_AllowIps; t_UsedQuota; t_Group; t_CrossGroupRetry; t_DeletedAt >.

(** src/model/subscription.go, type SubscriptionPlan (price identifiers of the
    payment gateways left out). *)
Record SubscriptionPlan := mkPlan {
  p_Id : Z;
  p_Title : string;
  p_PriceAmount : F64.float64;
  p_DurationUnit : string;
  p_DurationValue : Z;
  p_CustomSeconds : Z;
  p_Enabled : bool;
  p_AllowBalancePay : option bool;
  p_AllowWalletOverflow : option bool;
  p_MaxPurchasePerUser : Z;
  p_UpgradeGroup : string;
  p_DowngradeGroup : string;
  p_TotalAmount : Z;
  p_QuotaResetPeriod : string;
  p_QuotaResetCustomSeconds : Z;
}.
#[export] Instance SubscriptionPlan_settable : Settable SubscriptionPlan :=
  fields_of mkPlan < p_Id; p_Title; p_PriceAmount; p_DurationUnit; p_DurationValue;
    p_CustomSeconds; p_Enabled; p_AllowBalancePay; p_AllowWalletOverflow;
    p_MaxPurchasePerUser; p_UpgradeGroup; p_DowngradeGroup; p_TotalAmount;
    p_QuotaResetPeriod; p_QuotaResetCustomSeconds >.

(** src/model/subscription.go, type SubscriptionOrder; the table is keyed by its
    unique index trade_no. *)
Record SubscriptionOrder := mkOrder {
  o_UserId : Z;
  o_PlanId : Z;
  o_Money : F64.float64;
  o_TradeNo : string;
  o_PaymentMethod : string;
  o_PaymentProvider : string;
  o_Status : string;
  o_CreateTime : Z;
  o_CompleteTime : Z;
  o_ProviderPayload : string;
}.
#[export] Instance SubscriptionOrder_settable : Settable SubscriptionOrder :=
  fields_of mkOrder < o_UserId; o_PlanId; o_Money; o_TradeNo; o_PaymentMethod;
    o_PaymentProvider; o_Status; o_CreateTime; o_CompleteTime; o_ProviderPayload >.

(** src/model/subscription.go, type UserSubscription *)
Record UserSubscription := mkSub {
  s_Id : Z;
  s_UserId : Z;
  s_PlanId : Z;
  s_AmountTotal : Z;
  s_AmountUsed : Z;
  s_StartTime : Z;
  s_EndTime : Z;
  s_Status : string;
  s_Source : string;
  s_LastResetTime : Z;
  s_NextResetTime : Z;
  s_UpgradeGroup : string;
  s_PrevUserGroup : string;
  s_DowngradeGroup : string;
  s_AllowWalletOverflow : bool;
  s_CreatedAt : Z;
  s_UpdatedAt : Z;
}.
#[export] Instance UserSubscription_settable : Settable UserSubscription :=
  fields_of mkSub < s_Id; s_UserId; s_PlanId; s_AmountTotal; s_AmountUsed; s_StartTime;
    s_EndTime; s_Status; s_Source; s_LastResetTime; s_NextResetTime; s_UpgradeGroup;
    s_PrevUserGroup; s_DowngradeGroup; s_AllowWalletOverflow; s_CreatedAt; s_UpdatedAt >.

(** src/model/subscription.go, type SubscriptionPreConsumeRecord; the table is
    keyed by its unique index request_id. *)
Record PreConsumeRecord := mkPreRecord {
  r_RequestId : string;
  r_UserId : Z;
  r_UserSubscriptionId : Z;
  r_PreConsumed : Z;
  r_Status : string;
  r_CreatedAt : Z;
  r_UpdatedAt : Z;
}.
#[export] Instance PreConsumeRecord_settable : Settable PreConsumeRecord :=
  fields_of mkPreRecord < r_RequestId; r_UserId; r_UserSubscriptionId; r_PreConsumed;
    r_Status; r_CreatedAt; r_UpdatedAt >.

(** src/model/topup.go, type TopUp; keyed by its unique index trade_no. *)
Record TopUp := mkTopUp {
  tu_UserId : Z;
  tu_Amount : Z;
  tu_Money : F64.float64;
  tu_TradeNo : string;
  tu_PaymentMethod : string;
  tu_PaymentProvider : string;
  tu_CreateTime : Z;
  tu_CompleteTime : Z;
  tu_Status : string;
}.
#[export] Instance TopUp_settable : Settable TopUp :=
  fields_of mkTopUp < tu_UserId; tu_Amount; tu_Money; tu_TradeNo; tu_PaymentMethod;
    tu_PaymentProvider; tu_CreateTime; tu_CompleteTime; tu_Status >.

(** src/model/redemption.go, type Redemption *)
Record Redemption := mkRedemption {
  rd_Id : Z;
  rd_UserId : Z;
  rd_Key : string;
  rd_Status : Z;
  rd_Name : string;
  rd_Quota : Z;
  rd_CreatedTime : Z;
  rd_RedeemedTime : Z;
  rd_UsedUserId : Z;
  rd_DeletedAt : option Z;
  rd_ExpiredTime : Z;
}.
#[export] Instance Redemption_settable : Settable Redemption :=
  fields_of mkRedemption < rd_Id; rd_UserId; rd_Key; rd_Status; rd_Name; rd_Quota;
    rd_CreatedTime; rd_RedeemedTime; rd_UsedUserId; rd_DeletedAt; rd_ExpiredTime >.

(** src/model/checkin.go, type Checkin; the table is keyed by its unique index
    (user_id, checkin_date). *)
Record Checkin := mkCheckin {
  ck_UserId : Z;
  ck_CheckinDate : string;
  ck_QuotaAwarded : Z;
  ck_CreatedAt : Z;
}.

(** src/model/task.go: types Properties, TaskBillingContext, TaskPrivateData and
    Task.  The JSON columns are the structs they decode to; [Data] is raw JSON. *)
Record Properties := mkProperties {
  pr_Input : string;
  pr_UpstreamModelName : string;
  pr_OriginModelName : string;
}.
Record TaskBillingContext := mkBillingContext {
  bc_ModelPrice : F64.float64;
  bc_GroupRatio : F64.float64;
  bc_ModelRatio : F64.float64;
  bc_OtherRatios : gmap string F64.float64;
  bc_OriginModelName : string;
  bc_PerCallBilling : bool;
}.
Record TaskPrivateData := mkPrivateData {
  pv_Key : string;
  pv_UpstreamTaskID : string;
  pv_ResultURL : string;
  pv_BillingSource : string;
  pv_SubscriptionId : Z;
  pv_TokenId : Z;
  pv_NodeName : string;
  pv_BillingContext : option TaskBillingContext;
}.
#[export] Instance TaskPrivateData_settable : Settable TaskPrivateData :=
  fields_of mkPrivateData < pv_Key; pv_UpstreamTaskID; pv_ResultURL; pv_BillingSource;
    pv_SubscriptionId; pv_TokenId; pv_NodeName; pv_BillingContext >.
Record Task := mkTask {
  tk_ID : Z;
  tk_TaskID : string;
  tk_Platform : string;
  tk_UserId : Z;
  tk_Group : string;
  tk_ChannelId : Z;
  tk_Quota : Z;
  tk_Action : string;
  tk_Status : string;
  tk_FailReason : string;
  tk_SubmitTime : Z;
  tk_StartTime : Z;
  tk_FinishTime : Z;
  tk_Progress : string;
  tk_Properties : Properties;
  tk_PrivateData : TaskPrivateData;
  tk_Data : string;
}.
#[export] Instance Task_settable : Settable Task :=
  fields_of mkTask < tk_ID; tk_TaskID; tk_Platform; tk_UserId; tk_Group; tk_ChannelId;
    tk_Quota; tk_Action; tk_Status; tk_FailReason; tk_SubmitTime; tk_StartTime; tk_FinishTime;
    tk_Progress; tk_Properties; tk_PrivateData; tk_Data >.

(** src/dto/channel_settings.go: the routes of an Advanced Custom channel. *)
Record AdvancedCustomRouteAuth := mkRouteAuth {
  ra_Type : string;
  ra_Name : string;
  ra_Value : string;
}.
Record AdvancedCustomRoute := mkRoute {
  ro_IncomingPath : string;
  ro_UpstreamPath : string;
  ro_Converter : string;
  ro_Models : list string;
  ro_Auth : option AdvancedCustomRouteAuth;
}.
(** type AdvancedCustomConfig: its one field Routes. *)
Definition AdvancedCustomConfig : Type := list AdvancedCustomRoute.

(** src/model/channel.go, type ChannelInfo.  A nil map is the empty one: every
    reader treats both alike. *)
Record ChannelInfo := mkChannelInfo {
  ci_IsMultiKey : bool;
  ci_MultiKeySize : Z;
  ci_MultiKeyStatusList : gmap Z Z;
  ci_MultiKeyDisabledReason : gmap Z string;
  ci_MultiKeyDisabledTime : gmap Z Z;
  ci_MultiKeyPollingIndex : Z;
  ci_MultiKeyMode : string;
}.
#[export] Instance ChannelInfo_settable : Settable ChannelInfo :=
  fields_of mkChannelInfo < ci_IsMultiKey; ci_MultiKeySize; ci_MultiKeyStatusList;
    ci_MultiKeyDisabledReason; ci_MultiKeyDisabledTime; ci_MultiKeyPollingIndex; ci_MultiKeyMode >.

(** src/model/channel.go, type Channel.  [cn_Keys] is the field outside the
    table that caches the parsed keys. *)
Record Channel := mkChannel {
  cn_Id : Z;
  cn_Type : Z;
  cn_Key : string;
  cn_OpenAIOrganization : option string;
  cn_TestModel : option string;
  cn_Status : Z;
  cn_Name : string;
  cn_Weight : option Z;
  cn_CreatedTime : Z;
  cn_TestTime : Z;
  cn_ResponseTime : Z;
  cn_BaseURL : option string;
  cn_Other : string;
  cn_Balance : F64.float64;
  cn_BalanceUpdatedTime : Z;
  cn_Models : string;
  cn_Group : string;
  cn_UsedQuota : Z;
  cn_ModelMapping : option string;
  cn_StatusCodeMapping : option string;
  cn_Priority : option Z;
  cn_AutoBan : option Z;
  cn_OtherInfo : string;
  cn_Tag : option string;
  cn_Setting : option string;
  cn_ParamOverride : option string;
  cn_HeaderOverride : option string;
  cn_Remark : option string;
  cn_ChannelInfo : ChannelInfo;
  cn_OtherSettings : string;
  cn_Keys : list string;
}.
#[export] Instance Channel_settable : Settable Channel :=
  fields_of mkChannel < cn_Id; cn_Type; cn_Key; cn_OpenAIOrganization; cn_TestModel; cn_Status;
    cn_Name; cn_Weight; cn_CreatedTime; cn_TestTime; cn_ResponseTime; cn_BaseURL; cn_Other;
    cn_Balance; cn_BalanceUpdatedTime; cn_Models; cn_Group; cn_UsedQuota; cn_ModelMapping;
    cn_StatusCodeMapping; cn_Priority; cn_AutoBan; cn_OtherInfo; cn_Tag; cn_Setting;
    cn_ParamOverride; cn_HeaderOverride; cn_Remark; cn_ChannelInfo; cn_OtherSettings; cn_Keys >.

(** src/model/ability.go, type Ability; keyed by its primary key. *)
Record Ability := mkAbility {
  ab_Group : string;
  ab_Model : string;
  ab_ChannelId : Z;
  ab_Enabled : bool;
  ab_Priority : option Z;
  ab_Weight : Z;
  ab_Tag : option string;
}.
#[export] Instance Ability_settable : Settable Ability :=
  fields_of mkAbility < ab_Group; ab_Model; ab_ChannelId; ab_Enabled; ab_Priority; ab_Weight;
    ab_Tag >.

(** ** The database *)

Record DB := mkDB {
  d_users : gmap Z User;
  d_tokens : gmap Z Token;
  d_plans : gmap Z SubscriptionPlan;
  d_subs : gmap Z UserSubscription;
  d_records : gmap string PreConsumeRecord;
  d_orders : gmap string SubscriptionOrder;
  d_topups : gmap string TopUp;
  d_channels : gmap Z Channel;
  d_abilities : gmap (string * string * Z) Ability;
  d_tasks : gmap Z Task;
  d_redemptions : gmap Z Redemption;
  d_checkins : gmap (Z * string) Checkin;
}.
#[export] Instance DB_settable : Settable DB :=
  fields_of mkDB < d_users; d_tokens; d_plans; d_subs; d_records; d_orders; d_topups;
    d_channels; d_abilities; d_tasks; d_redemptions; d_checkins >.

(** ** Background jobs ([gopool.Go] closures) *)

(** src/service/funding_source.go: the two funding sources. *)
Record WalletFunding := mkWallet {
  wf_userId : Z;
  wf_consumed : Z;
}.
#[export] Instance WalletFunding_settable : Settable WalletFunding :=
  fields_of mkWallet < wf_userId; wf_consumed >.

Record SubscriptionFunding := mkSubFunding {
  sf_requestId : string;
  sf_userId : Z;
  sf_modelName : string;
  sf_amount : Z;
  sf_subscriptionId : Z;
  sf_preConsumed : Z;
  sf_AmountTotal : Z;
  sf_AmountUsedAfter : Z;
  sf_PlanId : Z;
  sf_PlanTitle : string;
}.
#[export] Instance SubscriptionFunding_settable : Settable SubscriptionFunding :=
  fields_of mkSubFunding < sf_requestId; sf_userId; sf_modelName; sf_amount;
    sf_subscriptionId; sf_preConsumed; sf_AmountTotal; sf_AmountUsedAfter; sf_PlanId;
    sf_PlanTitle >.

Inductive FundingSource :=
| FWallet (f : WalletFunding)
| FSubscription (f : SubscriptionFunding).

(** The closures the modelled code starts, with the values they capture. *)
Inductive job :=
| JobCacheIncrUserQuota (userId delta : Z)
| JobUpdateUserQuotaCache (userId quota : Z)
| JobUpdateUserGroupCache (userId : Z) (group : string)
| JobPopulateUserCache (u : User)
| JobCacheSetToken (t : Token)
| JobCacheDeleteTokens (keys : list string)
| JobCacheIncrTokenQuota (key : string) (delta : Z)
| JobBillingRefund (funding : FundingSource) (extraReserved subscriptionId tokenId : Z)
    (tokenKey : string) (isPlayground : bool) (tokenConsumed : Z)
| JobQuotaNotify (userId userQuota quota preConsumedQuota : Z)
| JobSubscriptionNotify (subscriptionId remaining : Z).

(** ** Batch update stores (src/model/utils.go) *)

Inductive BatchType :=
| BatchUpdateTypeUserQuota
| BatchUpdateTypeTokenQuota
| BatchUpdateTypeUsedQuota
| BatchUpdateTypeChannelUsedQuota
| BatchUpdateTypeRequestCount.
#[export] Instance BatchType_eq_dec : EqDecision BatchType.
Proof. solve_decision. Defined.

(** ** Settings and the world *)

Record Config := mkConfig {
  RedisEnabled : bool;
  BatchUpdateEnabled : bool;
  QuotaPerUnit : F64.float64;
  GenerateHMAC : string -> string;      (** keyed by the server secret *)
  TimeZone : Z;                         (** offset of time.Local, seconds east *)
  UsingSQLite : bool;                   (** UsingMainDatabase(DatabaseTypeSQLite) *)
  MemoryCacheEnabled : bool;
}.

(** ** Channel routing: what the process keeps in memory *)

(** src/service/channel_health.go, type channelHealthState; a zero time is 0. *)
Record channelHealthState := mkHealth {
  hs_consecutiveFailures : Z;
  hs_requests : Z;
  hs_successes : Z;
  hs_failures : Z;
  hs_lastFailureAt : Z;
  hs_cooldownEnd : Z;
}.
#[export] Instance channelHealthState_settable : Settable channelHealthState :=
  fields_of mkHealth < hs_consecutiveFailures; hs_requests; hs_successes; hs_failures;
    hs_lastFailureAt; hs_cooldownEnd >.

(** src/service/channel_rate_limit.go, type channelRateLimitWindowState *)
Record channelRateLimitWindowState := mkWindow {
  wi_total : list Z;
  wi_success : list Z;
}.
#[export] Instance channelRateLimitWindowState_settable : Settable channelRateLimitWindowState :=
  fields_of mkWindow < wi_total; wi_success >.

(** The globals of src/model/channel_cache.go and of the two service files.
    A *Channel is a location of [rt_heap]: the cache hands its objects out, and
    their holders write to them. *)
Record Routing := mkRouting {
  rt_heap : gmap positive Channel;
  rt_next : positive;
  rt_group2model2channels : gmap string (gmap string (list Z));
  rt_channelsIDM : gmap Z positive;
  rt_advancedCustom : gmap Z AdvancedCustomConfig;
  rt_health : gmap Z channelHealthState;
  rt_limiter : gmap Z channelRateLimitWindowState;
  rt_redis_limiter : gmap Z channelRateLimitWindowState;   (** the sorted sets of Redis *)
}.
#[export] Instance Routing_settable : Settable Routing :=
  fields_of mkRouting < rt_heap; rt_next; rt_group2model2channels; rt_channelsIDM;
    rt_advancedCustom; rt_health; rt_limiter; rt_redis_limiter >.

Record World := mkWorld {
  w_cfg : Config;
  w_now : Z;
  w_dbnow : Z;
  w_db : DB;
  w_log : list (DB -> DB);              (** statements of the open transaction *)
  w_faults : list (option string);
  w_next_id : Z;
  w_redis_users : gmap Z UserBase;
  w_redis_tokens : gmap string Token;
  w_plan_cache : gmap Z SubscriptionPlan;
  w_plan_info_cache : gmap Z (Z * string);
  w_batch : BatchType -> gmap Z Z;
  w_jobs : list job;
  w_routing : Routing;
}.
#[export] Instance World_settable : Settable World :=
  fields_of mkWorld < w_cfg; w_now; w_dbnow; w_db; w_log; w_faults; w_next_id;
    w_redis_users; w_redis_tokens; w_plan_cache; w_plan_info_cache; w_batch; w_jobs;
    w_routing >.

(** A computation over the world that fails with an [error]. *)
Abbreviation MW := (M World error).

(** ** External calls *)

(** One call to the database or to Redis: it succeeds or fails as scripted. *)
Definition ext_call : MW unit := fun w =>
  match w_faults w with
  | [] => (Ok tt, w)
  | None :: fs => (Ok tt, w <| w_faults := fs |>)
  | Some msg :: fs => (Err (ErrDB msg), w <| w_faults := fs |>)
  end.

#[global] Arguments ext_call : simpl never.

(** The receiver of a statement: the global [DB] or the transaction [tx]. *)
Inductive handle := HDB | HTX.

Definition apply_log (log : list (DB -> DB)) (d : DB) : DB :=
  fold_left (fun d f => f d) log d.

Definition view (h : handle) (w : World) : DB :=
  match h with
  | HDB => w_db w
  | HTX => apply_log (w_log w) (w_db w)
  end.

Definition exec_write (h : handle) (f : DB -> DB) (w : World) : World :=
  match h with
  | HDB => w <| w_db := f (w_db w) |>
  | HTX => w <| w_log := w_log w ++ [f] |>
  end.

(** SELECT of anything computed from the tables. *)
Definition db_find {A} (h : handle) (q : DB -> A) : MW A :=
  ext_call ;; gets (fun w => q (view h w)).
(** First(&row): a missing row is gorm.ErrRecordNotFound. *)
Definition db_first {A} (h : handle) (q : DB -> option A) : MW A :=
  r ← db_find h q;
  match r with Some a => mret a | None => fail ErrRecordNotFound end.
(** INSERT / UPDATE / DELETE without a row count. *)
Definition db_exec (h : handle) (f : DB -> DB) : MW unit :=
  ext_call ;; modify (exec_write h f).
(** UPDATE ... WHERE id = ? with RowsAffected. *)
Definition db_update (h : handle) (hits : DB -> bool) (f : DB -> DB) : MW bool :=
  ext_call ;;
  b ← gets (fun w => hits (view h w));
  (if b : bool then modify (exec_write h f) else mret tt) ;;
  mret b.

(** DB.Transaction(fn): BEGIN and COMMIT can fail too; an error of [fn] or of
    the COMMIT rolls the buffered statements back.  Statements that [fn] issues
    on the global [DB] instead of [tx] are not part of the transaction. *)
Definition Transaction {A} (fn : MW A) : MW A := fun w =>
  let saved := w_log w in
  match ext_call w with
  | (Err e, w1) => (Err e, w1)
  | (Ok _, w1) =>
      match fn (w1 <| w_log := [] |>) with
      | (Err e, w2) => (Err e, w2 <| w_log := saved |>)
      | (Ok a, w2) =>
          match ext_call w2 with
          | (Err e, w3) => (Err e, w3 <| w_log := saved |>)
          | (Ok _, w3) =>
              (Ok a, w3 <| w_db := apply_log (w_log w3) (w_db w3) |> <| w_log := saved |>)
          end
      end
  end.

(** A transaction whose closure [first ≫= rest] assigns the value of [first] to
    a captured variable: the variable keeps it when the transaction fails
    later.  The outcome of the transaction is returned beside it. *)
Definition TransactionC {A B} (init : B) (first : MW B) (rest : B -> MW A)
    : MW (B * result error A) := fun w =>
  let tx := Transaction (first ≫= rest) w in
  let captured :=
    match ext_call w with
    | (Ok _, w1) =>
        match first (w1 <| w_log := [] |>) with (Ok b, _) => b | (Err _, _) => init end
    | (Err _, _) => init
    end in
  (Ok (captured, tx.1), tx.2).

(** gopool.Go(closure) *)
Definition go_job (j : job) : MW unit := modify (fun w => w <| w_jobs := w_jobs w ++ [j] |>).

(** common.GetTimestamp() *)
Definition GetTimestamp : MW Z := gets w_now.
(** Autoincrement primary key of a new row. *)
Definition next_id : MW Z := fun w => (Ok (w_next_id w), w <| w_next_id := w_next_id w + 1 |>).

(** ** Facts about calls, statements and transactions *)

Lemma ext_call_ok w : w_faults w = [] -> ext_call w = (Ok tt, w).
Proof. unfold ext_call. by intros ->. Qed.

(** An external call only advances the fault script. *)
Lemma ext_call_cases w :
  exists fs, (ext_call w).2 = w <| w_faults := fs |> /\
    ((ext_call w).1 = Ok tt \/ exists msg, (ext_call w).1 = Err (ErrDB msg)).
Proof.
  unfold ext_call. destruct w; simpl. destruct w_faults0 as [|[msg|] fs]; simpl;
    eexists; split; eauto.
Qed.

Section preservation.
Context (I : World -> Prop) (Hf : forall w fs, I w -> I (w <| w_faults := fs |>)).

Lemma preserves_ext_call : preserves I ext_call.
Proof. intros w Hw. destruct (ext_call_cases w) as (fs & -> & _). auto. Qed.
Lemma preserves_db_find {A} h (q : DB -> A) : preserves I (db_find h q).
Proof. apply preserves_bind; [apply preserves_ext_call | intros; apply preserves_gets]. Qed.
Lemma preserves_db_first {A} h (q : DB -> option A) : preserves I (db_first h q).
Proof.
  apply preserves_bind; [apply preserves_db_find|].
  intros [a|]; auto with preserves.
Qed.
Lemma preserves_db_exec h f :
  (forall w, I w -> I (exec_write h f w)) -> preserves I (db_exec h f).
Proof.
  intros Hw. apply preserves_bind; [apply preserves_ext_call|].
  intros _. by apply preserves_modify.
Qed.
Lemma preserves_db_update h hits f :
  (forall w, I w -> I (exec_write h f w)) -> preserves I (db_update h hits f).
Proof.
  intros Hw. apply preserves_bind; [apply preserves_ext_call|]. intros _.
  apply preserves_bind; [apply preserves_gets|]. intros b.
  apply preserves_bind; [|intros; apply preserves_ret].
  destruct b; [by apply preserves_modify | apply preserves_ret].
Qed.
End preservation.

(** An invariant of the committed tables that every buffered statement keeps. *)
Definition db_inv (P : DB -> Prop) (w : World) : Prop :=
  P (w_db w) /\ Forall (fun f => forall d, P d -> P (f d)) (w_log w).

Lemma apply_log_inv (P : DB -> Prop) log d :
  P d -> Forall (fun f => forall d, P d -> P (f d)) log -> P (apply_log log d).
Proof.
  unfold apply_log. revert d. induction log as [|f log IH]; simpl; [done|].
  intros d Hd [Hf Hl]%Forall_cons. auto.
Qed.

Lemma db_inv_view P h w : db_inv P w -> P (view h w).
Proof. intros [Hd Hl]. destruct h; simpl; [done | by apply apply_log_inv]. Qed.

Lemma db_inv_write P h f w :
  (forall d, P d -> P (f d)) -> db_inv P w -> db_inv P (exec_write h f w).
Proof.
  intros Hf [Hd Hl]. destruct h; split; simpl; auto.
  apply Forall_app; auto.
Qed.

Lemma db_inv_faults P w fs : db_inv P w -> db_inv P (w <| w_faults := fs |>).
Proof. done. Qed.

Lemma db_inv_Transaction {A} P (fn : MW A) :
  preserves (db_inv P) fn -> preserves (db_inv P) (Transaction fn).
Proof.
  intros Hfn w [Hd Hl]. unfold Transaction.
  destruct (ext_call_cases w) as (fs & Hw1 & Hr).
  destruct (ext_call w) as [r1 w1]; simpl in *; subst w1.
  destruct Hr as [->|[msg ->]]; [|done].
  specialize (Hfn (w <| w_faults := fs |> <| w_log := [] |>)).
  destruct (fn _) as [[a|e] w2]; simpl in Hfn; destruct Hfn as [Hd2 Hl2]; try (by split).
  - destruct (ext_call_cases w2) as (fs2 & Hw3 & Hr3).
    destruct (ext_call w2) as [r3 w3]; simpl in *; subst w3.
    destruct Hr3 as [->|[msg3 ->]]; split; simpl; auto. by apply apply_log_inv.
Qed.

Lemma db_inv_find {A} P (Q : A -> Prop) h q :
  (forall d, P d -> Q (q d)) -> keeps (db_inv P) Q (db_find h q).
Proof.
  intros Hq w Hw. unfold db_find. run_unfold.
  destruct (ext_call_cases w) as (fs & Hw1 & Hr).
  destruct (ext_call w) as [r1 w1]; simpl in *; subst w1.
  destruct Hr as [->|[msg ->]]; [|done]. simpl. split; [done|].
  by apply Hq, (db_inv_view P h _).
Qed.
Lemma db_inv_first {A} P (Q : A -> Prop) h q :
  (forall d a, P d -> q d = Some a -> Q a) -> keeps (db_inv P) Q (db_first h q).
Proof.
  intros Hq. unfold db_first.
  apply (keeps_bind _ (fun r => forall a, r = Some a -> Q a)).
  - apply db_inv_find. intros d Hd a Ha. by apply (Hq d).
  - intros [a|] Ha; [by apply keeps_ret, Ha | apply keeps_fail].
Qed.
Lemma db_inv_exec P h f : (forall d, P d -> P (f d)) -> preserves (db_inv P) (db_exec h f).
Proof. intros Hf. apply preserves_db_exec; intros; [by apply db_inv_faults|by apply db_inv_write]. Qed.
Lemma db_inv_update P h hits f :
  (forall d, P d -> P (f d)) -> preserves (db_inv P) (db_update h hits f).
Proof. intros Hf. apply preserves_db_update; intros; [by apply db_inv_faults|by apply db_inv_write]. Qed.
Lemma db_inv_ext_call P : preserves (db_inv P) ext_call.
Proof. apply preserves_ext_call. intros. by apply db_inv_faults. Qed.

Lemma db_inv_Transaction_keeps {A} P (Q : A -> Prop) (fn : MW A) :
  keeps (db_inv P) Q fn -> keeps (db_inv P) Q (Transaction fn).
Proof.
  intros Hfn w Hw. split.
  { apply db_inv_Transaction; [by apply keeps_preserves in Hfn|done]. }
  unfold Transaction. destruct (ext_call_cases w) as (fs & Hw1 & Hr).
  destruct (ext_call w) as [r1 w1]; simpl in *; subst w1.
  destruct Hr as [->|[msg ->]]; [|done].
  specialize (Hfn (w <| w_faults := fs |> <| w_log := [] |>)).
  destruct (fn _) as [[a|e] w2]; simpl in *; [|done].
  destruct Hfn as [_ Ha]; [by split; [apply Hw|constructor]|].
  by destruct (ext_call w2) as [[]].
Qed.

Lemma db_inv_TransactionC {A B} P (init : B) (first : MW B) (rest : B -> MW A) :
  preserves (db_inv P) (first ≫= rest) -> preserves (db_inv P) (TransactionC init first rest).
Proof. intros H w Hw. unfold TransactionC. simpl. by apply (db_inv_Transaction P). Qed.

(** A transaction whose body issues statements only on [tx] is atomic: on error
    the committed tables are untouched, on success they are the result of the
    buffered statements. *)
Lemma Transaction_atomic {A} (fn : MW A) w :
  (forall d, preserves (fun w => w_db w = d) fn) ->
  match Transaction fn w with
  | (Err _, w') => w_db w' = w_db w
  | (Ok a, w') => exists w1 w2, w1 = w <| w_faults := w_faults w1 |> <| w_log := [] |> /\
      fn w1 = (Ok a, w2) /\ w_db w' = apply_log (w_log w2) (w_db w)
  end.
Proof.
  intros Hfn. unfold Transaction.
  destruct (ext_call_cases w) as (fs & Hw1 & Hr).
  destruct (ext_call w) as [r1 w1]; simpl in *; subst w1.
  destruct Hr as [->|[msg ->]]; [|done].
  specialize (Hfn (w_db w) (w <| w_faults := fs |> <| w_log := [] |>)).
  specialize (Hfn eq_refl).
  destruct (fn _) as [[a|e] w2] eqn:Efn; simpl in Hfn; [|exact Hfn].
  destruct (ext_call_cases w2) as (fs2 & Hw3 & Hr3).
  destruct (ext_call w2) as [r3 w3]; simpl in *; subst w3.
  destruct Hr3 as [->|[msg3 ->]]; simpl; [|exact Hfn].
  exists (w <| w_faults := fs |> <| w_log := [] |>), w2.
  split; [reflexivity|]. split; [exact Efn|]. by rewrite Hfn.
Qed.

(** *** What a statement does to the view of its handle *)

(** Clocks, settings and committed tables are untouched. *)
Definition tx_env (w w' : World) : Prop :=
  w_db w' = w_db w /\ w_now w' = w_now w /\ w_dbnow w' = w_dbnow w /\ w_cfg w' = w_cfg w.
#[export] Instance tx_env_preorder : PreOrder tx_env.
Proof. split; unfold tx_env; repeat intro; intuition congruence. Qed.

Lemma apply_log_app l f d : apply_log (l ++ [f]) d = f (apply_log l d).
Proof. unfold apply_log. by rewrite fold_left_app. Qed.

Lemma db_find_inv {A} h (q : DB -> A) w a w' :
  db_find h q w = (Ok a, w') -> a = q (view h w) /\ exists fs, w' = w <| w_faults := fs |>.
Proof.
  unfold db_find. rewrite run_bind. destruct (ext_call_cases w) as (fs & Hw1 & Hr).
  destruct (ext_call w) as [r1 w1]; simpl in *; subst w1.
  destruct Hr as [->|[msg ->]]; [|discriminate]. intros [= <- <-].
  split; [by destruct h|by exists fs].
Qed.
Lemma db_first_inv {A} h (q : DB -> option A) w a w' :
  db_first h q w = (Ok a, w') -> q (view h w) = Some a /\ exists fs, w' = w <| w_faults := fs |>.
Proof.
  unfold db_first. intros H. inv_bind H. apply db_find_inv in E as [-> [fs ->]].
  destruct (q (view h w)) as [b|]; [|discriminate].
  apply run_ret_inv in H as [-> ->]. split; [done|by exists fs].
Qed.
Lemma tx_write_view f w : view HTX (exec_write HTX f w) = f (view HTX w).
Proof. simpl. apply apply_log_app. Qed.
Lemma db_exec_inv f w u w' :
  db_exec HTX f w = (Ok u, w') -> view HTX w' = f (view HTX w) /\ tx_env w w'.
Proof.
  unfold db_exec. rewrite run_bind. destruct (ext_call_cases w) as (fs & Hw1 & Hr).
  destruct (ext_call w) as [r1 w1]; simpl in *; subst w1.
  destruct Hr as [->|[msg ->]]; [|discriminate]. intros [= _ <-].
  split; [apply apply_log_app|done].
Qed.

Lemma db_update_inv hits f w b w' :
  db_update HTX hits f w = (Ok b, w') ->
  b = hits (view HTX w) /\ view HTX w' = (if b then f (view HTX w) else view HTX w) /\ tx_env w w' /\
  w_next_id w' = w_next_id w.
Proof.
  unfold db_update. intros H. inv_bind H as u w1 E.
  assert (exists fs, w1 = w <| w_faults := fs |>) as [fs ->].
  { destruct (ext_call_cases w) as (fs & Hw & _). rewrite E in Hw. simpl in Hw. by exists fs. }
  inv_bind H as b' w2 E2. apply gets_inv in E2 as [-> ->].
  change (view HTX (w <| w_faults := fs |>)) with (view HTX w) in H.
  destruct (hits (view HTX w)) eqn:Hh; inv_bind H as u2 w3 E3; apply run_ret_inv in H as [-> ->].
  - unfold modify in E3. injection E3 as _ <-. split; [done|]. split; [apply apply_log_app|done].
  - apply run_ret_inv in E3 as [_ ->]. done.
Qed.

(** A committed transaction whose body only uses [tx]. *)
Lemma Transaction_inv {A} (fn : MW A) w a w' :
  (forall d, preserves (fun w => w_db w = d) fn) ->
  Transaction fn w = (Ok a, w') ->
  exists w1 w2, view HTX w1 = w_db w /\ w_log w1 = [] /\ tx_env w w1 /\ fn w1 = (Ok a, w2) /\
    w_db w' = view HTX w2.
Proof.
  intros Hfn H. pose proof (Transaction_atomic fn w Hfn) as Ha. rewrite H in Ha.
  destruct Ha as (w1 & w2 & Hw1 & Hrun & Hdb). exists w1, w2.
  assert (Hd : w_db w1 = w_db w) by by rewrite Hw1.
  split; [rewrite Hw1; by simpl|]. split; [by rewrite Hw1|]. split; [by rewrite Hw1|].
  split; [done|]. rewrite Hdb. simpl.
  pose proof (Hfn (w_db w) w1 Hd) as Hw2. rewrite Hrun in Hw2. simpl in Hw2. by rewrite Hw2.
Qed.

(** A transaction in a world where no call fails. *)
Lemma Transaction_ok {A} (fn : MW A) w r w2 :
  w_faults w = [] ->
  fn (w <| w_log := [] |>) = (r, w2) ->
  w_faults w2 = [] ->
  Transaction fn w =
    match r with
    | Ok a => (Ok a, w2 <| w_db := apply_log (w_log w2) (w_db w2) |> <| w_log := w_log w |>)
    | Err e => (Err e, w2 <| w_log := w_log w |>)
    end.
Proof.
  intros Hw Hfn Hw2. unfold Transaction. rewrite (ext_call_ok w Hw), Hfn.
  destruct r; [|done]. by rewrite (ext_call_ok w2 Hw2).
Qed.

#[export] Hint Resolve db_inv_find db_inv_first db_inv_exec db_inv_update db_inv_ext_call
  db_inv_Transaction db_inv_TransactionC : preserves.
#[export] Hint Resolve preserves_ext_call preserves_db_find preserves_db_first
  preserves_db_exec preserves_db_update : preserves.

(** Execute database primitives in a world without faults. *)
Ltac db_step :=
  unfold db_first, db_find, db_exec, db_update, go_job, GetTimestamp, next_id in *;
  rewrite ?run_bind;
  repeat (rewrite ext_call_ok by (simpl; assumption)); simpl.

(** Invariance of a program by its structure; the side conditions about single
    statements are left when they are not immediate. *)
Ltac pres_step :=
  first
    [ assumption
    | solve [auto with preserves nocore]
    | apply preserves_ret | apply preserves_fail | apply preserves_gets
    | apply preserves_guard | apply preserves_of_result
    | apply preserves_modify; by intros
    | apply preserves_ext_call; by intros
    | apply preserves_db_find; by intros
    | apply preserves_db_first; by intros
    | apply preserves_db_exec; by intros
    | apply preserves_db_update; by intros
    | apply preserves_attempt' | apply preserves_ignore' | apply preserves_map_err
    | apply preserves_forM; intros ?
    | lazymatch goal with |- preserves _ (mbind _ _) => apply preserves_bind; [|intros ?] end
    | match goal with
      | |- preserves _ (match ?x with _ => _ end) => destruct x
      | |- preserves _ (let '(_, _) := ?x in _) => destruct x
      end ].
Ltac pres := repeat pres_step.
