(* ===== verification/AdvancedCustom.v ===== *)
(** * Routes of Advanced Custom channels (src/dto/channel_settings.go)

    Which requests such a channel serves: a route matches by its incoming path,
    which may hold one model placeholder, and by its list of models.  Regular
    expressions (package regexp) and URL parsing (package net/url) are parameters. *)

From S2P Require Import Prelude GoStd World.
Import GoStrings GoText.

Definition advancedCustomModelPlaceholder : string := "{model}".
Definition advancedCustomModelRegexPrefix : string := "re:".

Definition advancedCustomConverters : list string :=
  ["none"; "anthropic_messages_to_openai_chat_completions";
   "openai_chat_completions_to_anthropic_messages"; "openai_chat_completions_to_openai_responses";
   "openai_responses_to_openai_chat_completions"; "openai_responses_to_gemini_generate_content";
   "gemini_generate_content_to_openai_chat_completions";
   "openai_chat_completions_to_gemini_generate_content"].

Definition normalizeAdvancedCustomRouteModels (models : list string) : list string :=
  List.filter (fun m => negb (bool_decide (m = ""))) (TrimSpace <$> models).

Definition matchAdvancedCustomIncomingPathTemplate (configuredPath requestPath : string) : bool :=
  if negb (Contains configuredPath advancedCustomModelPlaceholder) then bool_decide (configuredPath = requestPath)
  else match Split configuredPath advancedCustomModelPlaceholder with
       | [a; b] =>
           if negb (HasPrefix requestPath a) || negb (HasSuffix requestPath b) then false
           else let model := TrimSuffix (TrimPrefix requestPath a) b in
                negb (bool_decide (model = "")) && negb (Contains model "/")
       | _ => false
       end.
Definition matchAdvancedCustomIncomingPath (configuredPath requestPath : string) : bool :=
  if matchAdvancedCustomIncomingPathTemplate configuredPath requestPath then true
  else if Contains configuredPath ":generateContent" then
    matchAdvancedCustomIncomingPathTemplate
      (ReplaceFirst configuredPath ":generateContent" ":streamGenerateContent") requestPath
  else false.

Section routes.
(** regexp.Compile: [None] for an invalid pattern, else its MatchString. *)
Context (compile : string -> option (string -> bool)).

Definition matchAdvancedCustomRouteModelRule (rule model : string) : bool :=
  if negb (HasPrefix rule advancedCustomModelRegexPrefix) then bool_decide (rule = model)
  else let pattern := TrimPrefix rule advancedCustomModelRegexPrefix in
       if decide (pattern = "") then false
       else match compile pattern with Some re => re model | None => false end.

Definition matchAdvancedCustomRouteModel (models : list string) (model : string) : bool :=
  match normalizeAdvancedCustomRouteModels models with
  | [] => true
  | normalized => existsb (fun allowed => matchAdvancedCustomRouteModelRule allowed model) normalized
  end.

Definition MatchPath (c : option AdvancedCustomConfig) (requestPath : string) : option AdvancedCustomRoute :=
  match c with
  | None => None
  | Some routes =>
      List.find (fun route => matchAdvancedCustomIncomingPath (TrimSpace (ro_IncomingPath route)) requestPath) routes
  end.
Definition MatchPathForModel (c : option AdvancedCustomConfig) (requestPath model : string)
    : option AdvancedCustomRoute :=
  match c with
  | None => None
  | Some routes =>
      let model := TrimSpace model in
      List.find (fun route =>
        matchAdvancedCustomIncomingPath (TrimSpace (ro_IncomingPath route)) requestPath
        && matchAdvancedCustomRouteModel (ro_Models route) model) routes
  end.
Definition SupportsPath (c : option AdvancedCustomConfig) (requestPath : string) : bool :=
  match MatchPath c requestPath with Some _ => true | None => false end.
Definition SupportsPathForModel (c : option AdvancedCustomConfig) (requestPath model : string) : bool :=
  match MatchPathForModel c requestPath model with Some _ => true | None => false end.

Definition isAdvancedCustomGeminiIncomingPath (incomingPath : string) : bool :=
  if negb (HasPrefix incomingPath "/v1beta/models/") then false
  else Contains incomingPath ":generateContent" || Contains incomingPath ":streamGenerateContent".

(** The endpoint types are their constant.EndpointType strings. *)
Definition advancedCustomEndpointTypeFromIncomingPath (incomingPath : string) : option string :=
  if decide (incomingPath = "/v1/chat/completions") then Some "openai"
  else if decide (incomingPath = "/v1/responses") then Some "openai-response"
  else if decide (incomingPath = "/v1/responses/compact") then Some "openai-response-compact"
  else if decide (incomingPath = "/v1/messages") then Some "anthropic"
  else if decide (incomingPath = "/v1/rerank") then Some "jina-rerank"
  else if decide (incomingPath = "/v1/images/generations") then Some "image-generation"
  else if decide (incomingPath = "/v1/embeddings") then Some "embeddings"
  else if isAdvancedCustomGeminiIncomingPath incomingPath then Some "gemini"
  else None.

(** The endpoints in the order of their first route. *)
Fixpoint endpoints_of (model : string) (seen : list string) (routes : list AdvancedCustomRoute) : list string :=
  match routes with
  | [] => []
  | route :: routes =>
      if negb (matchAdvancedCustomRouteModel (ro_Models route) model) then endpoints_of model seen routes
      else match advancedCustomEndpointTypeFromIncomingPath (TrimSpace (ro_IncomingPath route)) with
           | None => endpoints_of model seen routes
           | Some e => if decide (e ∈ seen) then endpoints_of model seen routes
                       else e :: endpoints_of model (e :: seen) routes
           end
  end.
Definition SupportedEndpointTypesForModel (c : option AdvancedCustomConfig) (model : string) : list string :=
  match c with None => [] | Some routes => endpoints_of (TrimSpace model) [] routes end.

(** ** Validation *)

Definition IsAdvancedCustomConverterAllowed (converter : string) : bool :=
  bool_decide (converter ∈ advancedCustomConverters).

(** The state of one incoming path: the catch-all route and the listed models. *)
Record advancedCustomPathModelState := mkPathState {
  ps_catchAllIndex : option Z;
  ps_modelIndexes : gmap string Z;
}.
Definition new_path_state : advancedCustomPathModelState := mkPathState None ∅.

Definition route_error (index : Z) (what : string) : error :=
  ErrNew ("advanced_custom.advanced_routes[" +:+ Itoa index +:+ "]." +:+ what).

Definition validateAdvancedCustomRouteModelRule (index : Z) (incomingPath model : string) : option error :=
  if negb (HasPrefix model advancedCustomModelRegexPrefix) then None
  else let pattern := TrimPrefix model advancedCustomModelRegexPrefix in
       if decide (pattern = "") then
         Some (route_error index ("models regex is empty for incoming_path " +:+ incomingPath +:+ ": " +:+ model))
       else match compile pattern with
            | Some _ => None
            | None => Some (route_error index
                ("models regex is invalid for incoming_path " +:+ incomingPath +:+ ": " +:+ model))
            end.

(** The loop over the models of one route; [seen] holds those before. *)
Fixpoint check_models (index : Z) (incomingPath : string) (seen : list string) (models : list string)
    (indexes : gmap string Z) : result error (gmap string Z) :=
  match models with
  | [] => Ok indexes
  | model :: models =>
      match validateAdvancedCustomRouteModelRule index incomingPath model with
      | Some e => Err e
      | None =>
          if decide (model ∈ seen) then
            Err (route_error index ("models contains duplicate model for incoming_path "
                                      +:+ incomingPath +:+ ": " +:+ model))
          else match indexes !! model with
               | Some i => Err (route_error index ("models overlaps with advanced_routes[" +:+ Itoa i
                             +:+ "] for incoming_path " +:+ incomingPath +:+ ": " +:+ model))
               | None => check_models index incomingPath (model :: seen) models (<[model := index]> indexes)
               end
      end
  end.

Definition validateAdvancedCustomRouteModels (index : Z) (incomingPath : string) (models : list string)
    (paths : gmap string advancedCustomPathModelState)
    : result error (gmap string advancedCustomPathModelState) :=
  let state := default new_path_state (paths !! incomingPath) in
  match normalizeAdvancedCustomRouteModels models with
  | [] =>
      match ps_catchAllIndex state with
      | Some _ => Err (route_error index ("models catch-all already exists for incoming_path: " +:+ incomingPath))
      | None => Ok (<[incomingPath := mkPathState (Some index) (ps_modelIndexes state)]> paths)
      end
  | normalized =>
      match ps_catchAllIndex state with
      | Some _ => Err (route_error index
                    ("models catch-all route must be last for incoming_path: " +:+ incomingPath))
      | None =>
          match check_models index incomingPath [] normalized (ps_modelIndexes state) with
          | Ok indexes => Ok (<[incomingPath := mkPathState None indexes]> paths)
          | Err e => Err e
          end
      end
  end.

(** url.Parse: scheme and host, [None] when the text is no URL. *)
Context (parse_url : string -> option (string * string)).

Definition validateAdvancedCustomUpstreamTarget (index : Z) (upstreamPath : string) : option error :=
  let bad := Some (route_error index "upstream_path must be a full URL or a path starting with /") in
  if HasPrefix upstreamPath "/" then
    if HasPrefix upstreamPath "//" then bad else None
  else match parse_url upstreamPath with
       | None => bad
       | Some (scheme, host) =>
           if bool_decide (scheme = "") || bool_decide (host = "") then bad
           else if negb (EqualFold scheme "http") && negb (EqualFold scheme "https") then
             Some (route_error index "upstream_path must use http or https")
           else None
       end.

Definition converter_path_ok (incomingPath converter : string) : bool :=
  if decide (converter = "none") then true
  else if decide (converter = "anthropic_messages_to_openai_chat_completions") then
    bool_decide (incomingPath = "/v1/messages")
  else if decide (converter ∈ ["openai_chat_completions_to_anthropic_messages";
                               "openai_chat_completions_to_openai_responses";
                               "openai_chat_completions_to_gemini_generate_content"]) then
    bool_decide (incomingPath = "/v1/chat/completions")
  else if decide (converter ∈ ["openai_responses_to_openai_chat_completions";
                               "openai_responses_to_gemini_generate_content"]) then
    bool_decide (incomingPath = "/v1/responses")
  else if decide (converter = "gemini_generate_content_to_openai_chat_completions") then
    Contains incomingPath ":generateContent" || Contains incomingPath ":streamGenerateContent"
  else false.
Definition validateAdvancedCustomConverterPath (index : Z) (incomingPath converter : string) : option error :=
  if converter_path_ok incomingPath converter then None
  else Some (route_error index ("converter does not match incoming_path: " +:+ converter)).

Definition validateAdvancedCustomRouteAuth (index : Z) (auth : option AdvancedCustomRouteAuth) : option error :=
  match auth with
  | None => None
  | Some a =>
      let authType := TrimSpace (ra_Type a) in
      if decide (authType = "none") then None
      else if decide (authType = "header" \/ authType = "query") then
        if decide (TrimSpace (ra_Name a) = "") then Some (route_error index "auth.name is required")
        else if decide (TrimSpace (ra_Value a) = "") then Some (route_error index "auth.value is required")
        else None
      else Some (route_error index ("auth.type is invalid: " +:+ ra_Type a))
  end.

(** The first error of a list of checks. *)
Definition first_error (checks : list (option error)) : option error :=
  foldr (fun c rest => match c with Some e => Some e | None => rest end) None checks.

Definition route_checks (i : Z) (route : AdvancedCustomRoute) : list (option error) :=
  let incomingPath := TrimSpace (ro_IncomingPath route) in
  let fail_if (b : bool) what := if b then Some (route_error i what) else None in
  [fail_if (bool_decide (incomingPath = "")) "incoming_path is required";
   fail_if (negb (HasPrefix incomingPath "/")) "incoming_path must start with /";
   fail_if (Contains incomingPath "?") "incoming_path must not include query"].
Definition target_checks (i : Z) (route : AdvancedCustomRoute) : list (option error) :=
  let incomingPath := TrimSpace (ro_IncomingPath route) in
  let upstreamPath := TrimSpace (ro_UpstreamPath route) in
  let converter := TrimSpace (ro_Converter route) in
  let converter := if decide (converter = "") then "none" else converter in
  let fail_if (b : bool) what := if b then Some (route_error i what) else None in
  [fail_if (bool_decide (upstreamPath = "")) "upstream_path is required";
   validateAdvancedCustomUpstreamTarget i upstreamPath;
   fail_if (negb (IsAdvancedCustomConverterAllowed converter)) ("converter is not registered: " +:+ converter);
   validateAdvancedCustomConverterPath i incomingPath converter;
   validateAdvancedCustomRouteAuth i (ro_Auth route)].

Fixpoint validate_routes (i : Z) (routes : list AdvancedCustomRoute)
    (paths : gmap string advancedCustomPathModelState) : option error :=
  match routes with
  | [] => None
  | route :: routes =>
      match first_error (route_checks i route) with
      | Some e => Some e
      | None =>
          match validateAdvancedCustomRouteModels i (TrimSpace (ro_IncomingPath route)) (ro_Models route) paths with
          | Err e => Some e
          | Ok paths =>
              match first_error (target_checks i route) with
              | Some e => Some e
              | None => validate_routes (i + 1) routes paths
              end
          end
      end
  end.

(** AdvancedCustomConfig.Validate *)
Definition ValidateAdvancedCustom (c : option AdvancedCustomConfig) : option error :=
  match c with
  | None => Some (ErrNew "advanced_custom is required")
  | Some [] => Some (ErrNew "advanced_custom requires at least one route")
  | Some routes => validate_routes 0 routes ∅
  end.
End routes.

(** ** What validation guarantees *)

Section validated.
Context (compile : string -> option (string -> bool)) (parse_url : string -> option (string * string)).

Definition path_of (r : AdvancedCustomRoute) : string := TrimSpace (ro_IncomingPath r).
Definition models_of (r : AdvancedCustomRoute) : list string := normalizeAdvancedCustomRouteModels (ro_Models r).
Definition state_of (paths : gmap string advancedCustomPathModelState) (p : string) : advancedCustomPathModelState :=
  default new_path_state (paths !! p).

(** A route can follow the routes recorded in [paths]. *)
Definition admitted (paths : gmap string advancedCustomPathModelState) (r : AdvancedCustomRoute) : Prop :=
  ps_catchAllIndex (state_of paths (path_of r)) = None /\
  forall m, m ∈ models_of r -> ps_modelIndexes (state_of paths (path_of r)) !! m = None.
(** [paths] records the route. *)
Definition recorded (paths : gmap string advancedCustomPathModelState) (r : AdvancedCustomRoute) : Prop :=
  (models_of r = [] -> is_Some (ps_catchAllIndex (state_of paths (path_of r)))) /\
  forall m, m ∈ models_of r -> is_Some (ps_modelIndexes (state_of paths (path_of r)) !! m).
Definition grows (paths paths' : gmap string advancedCustomPathModelState) : Prop := forall p,
  (is_Some (ps_catchAllIndex (state_of paths p)) -> is_Some (ps_catchAllIndex (state_of paths' p))) /\
  forall m, is_Some (ps_modelIndexes (state_of paths p) !! m) -> is_Some (ps_modelIndexes (state_of paths' p) !! m).

Lemma check_models_ok i p seen ms indexes indexes' :
  check_models compile i p seen ms indexes = Ok indexes' ->
  (forall m, m ∈ ms -> indexes !! m = None /\ is_Some (indexes' !! m)) /\
  (forall m, is_Some (indexes !! m) -> is_Some (indexes' !! m)).
Proof.
  revert seen indexes. induction ms as [|m ms IH]; intros seen indexes H; simpl in H.
  { simplify_eq. split; [|done]. intros m. by rewrite elem_of_nil. }
  repeat (case_match; try discriminate). destruct (IH _ _ H) as [Hms Hmono].
  split.
  - intros m' [->|Hm]%elem_of_cons.
    + split; [done|]. apply Hmono. rewrite lookup_insert_eq. eauto.
    + destruct (Hms m' Hm) as [Hn Hs]. split; [|done].
      by apply lookup_insert_None in Hn as [? _].
  - intros m' Hm. apply Hmono. destruct (decide (m' = m)) as [->|].
    + rewrite lookup_insert_eq. eauto.
    + by rewrite lookup_insert_ne.
Qed.

Lemma state_of_insert paths p s q :
  state_of (<[p := s]> paths) q = if decide (q = p) then s else state_of paths q.
Proof.
  unfold state_of. case_decide; subst; [by rewrite lookup_insert_eq|by rewrite lookup_insert_ne].
Qed.

Lemma validate_models_ok i r paths paths' :
  validateAdvancedCustomRouteModels compile i (path_of r) (ro_Models r) paths = Ok paths' ->
  admitted paths r /\ recorded paths' r /\ grows paths paths'.
Proof.
  unfold validateAdvancedCustomRouteModels, admitted, recorded, grows.
  fold (models_of r) (state_of paths (path_of r)). intros H.
  destruct (models_of r) as [|m ms] eqn:Em.
  - case_match eqn:Ec; simplify_eq. split; [split; [done|by intros m ?%elem_of_nil]|].
    split.
    + rewrite state_of_insert, decide_True by done. split; [eauto|by intros m ?%elem_of_nil].
    + intros q. rewrite state_of_insert. case_decide; subst; simpl; [|done]. split; eauto.
  - case_match eqn:Ec; [done|]. case_match eqn:Ek; simplify_eq.
    destruct (check_models_ok _ _ _ _ _ _ Ek) as [Hms Hmono]. split; [|split].
    + split; [done|]. intros m' Hm'. by apply Hms.
    + rewrite state_of_insert, decide_True by done. split; [done|]. intros m' Hm'. by apply Hms.
    + intros q. rewrite state_of_insert. case_decide; subst; simpl; [|done].
      rewrite Ec. split; [done|]. apply Hmono.
Qed.

Lemma admitted_before paths paths' r : grows paths paths' -> admitted paths' r -> admitted paths r.
Proof.
  intros Hg [Hc Hm]. destruct (Hg (path_of r)) as [H1 H2]. split.
  - destruct (ps_catchAllIndex (state_of paths _)); [|done]. destruct H1 as [? H1]; [eauto|]. congruence.
  - intros m Hin. specialize (H2 m). specialize (Hm m Hin).
    destruct (ps_modelIndexes (state_of paths (path_of r)) !! m) eqn:E; [|done].
    destruct H2 as [? H2]; [eauto|]. congruence.
Qed.

Lemma validate_routes_admits i routes paths :
  validate_routes compile parse_url i routes paths = None -> Forall (admitted paths) routes.
Proof.
  revert i paths. induction routes as [|r routes IH]; intros i paths H; [constructor|].
  cbn [validate_routes] in H. repeat (case_match; try discriminate).
  destruct (validate_models_ok _ _ _ _ H1) as (Ha & _ & Hg). constructor; [done|].
  apply (Forall_impl _ _ _ (IH _ _ H)). intros r'. by apply admitted_before.
Qed.

(** Two routes of one path: the earlier one lists models, none of them listed by the
    later one. *)
Definition apart (r r' : AdvancedCustomRoute) : Prop :=
  path_of r = path_of r' -> models_of r <> [] /\ forall m, m ∈ models_of r -> m ∉ models_of r'.

Lemma recorded_admitted_apart paths r r' : recorded paths r -> admitted paths r' -> apart r r'.
Proof.
  intros [Hc Hm] [Hc' Hm'] Hp. rewrite <- Hp in Hc', Hm'. split.
  - intros He. destruct (Hc He) as [? Hx]. congruence.
  - intros m Hin Hin'. destruct (Hm m Hin) as [? Hx]. specialize (Hm' m Hin'). congruence.
Qed.

Lemma validate_routes_apart i routes paths :
  validate_routes compile parse_url i routes paths = None -> ForallOrdPairs apart routes.
Proof.
  revert i paths. induction routes as [|r routes IH]; intros i paths H; [constructor|].
  cbn [validate_routes] in H. repeat (case_match; try discriminate).
  destruct (validate_models_ok _ _ _ _ H1) as (_ & Hr & _). constructor; [|by eapply IH].
  apply (Forall_impl _ _ _ (validate_routes_admits _ _ _ H)). intros r'.
  by apply recorded_admitted_apart.
Qed.

(** In a configuration that passes validation every model that a route lists by its
    name is served by that route: whatever other routes of the incoming path exist
    and wherever they stand, the first match for the model is the route that lists
    it, as long as only routes of that path match the request and none of their
    regular expressions covers the model. *)
Theorem listed_model_is_served routes r m requestPath :
  ValidateAdvancedCustom compile parse_url (Some routes) = None ->
  r ∈ routes -> m ∈ models_of r -> TrimSpace m = m -> HasPrefix m advancedCustomModelRegexPrefix = false ->
  matchAdvancedCustomIncomingPath (path_of r) requestPath = true ->
  (forall r', r' ∈ routes -> matchAdvancedCustomIncomingPath (path_of r') requestPath = true ->
     path_of r' = path_of r) ->
  (forall r' rule, r' ∈ routes -> rule ∈ models_of r' ->
     HasPrefix rule advancedCustomModelRegexPrefix = true ->
     matchAdvancedCustomRouteModelRule compile rule m = false) ->
  MatchPathForModel compile (Some routes) requestPath m = Some r.
Proof.
  intros Hv Hr Hm Htrim Hlit Hpath Honly Hre. unfold ValidateAdvancedCustom in Hv.
  assert (Hp : ForallOrdPairs apart routes).
  { destruct routes; [by apply elem_of_nil in Hr|]. by eapply validate_routes_apart. }
  unfold MatchPathForModel. rewrite Htrim.
  set (f := fun route => _ && _).
  assert (Hfr : f r = true).
  { unfold f. fold (path_of r). rewrite Hpath. simpl. unfold matchAdvancedCustomRouteModel.
    fold (models_of r). destruct (models_of r) as [|m0 ms] eqn:E; [done|].
    apply existsb_exists. exists m. split; [by apply list_elem_of_In|].
    unfold matchAdvancedCustomRouteModelRule. rewrite Hlit. simpl. by apply bool_decide_eq_true_2. }
  destruct (List.find f routes) as [y|] eqn:Ef.
  - f_equal. clear Hv. assert (Hsub : forall z, z ∈ routes -> f z = true -> apart z r -> False).
    { intros z Hz Hfz Hap. unfold f in Hfz. apply andb_true_iff in Hfz as [Hz1 Hz2].
      destruct (Hap (Honly z Hz Hz1)) as [Hne Hdis]. unfold matchAdvancedCustomRouteModel in Hz2.
      fold (models_of z) in Hz2. destruct (models_of z) as [|m0 ms] eqn:E; [done|].
      apply existsb_exists in Hz2 as (rule & Hin & Hrule). apply list_elem_of_In in Hin.
      destruct (HasPrefix rule advancedCustomModelRegexPrefix) eqn:Ep.
      - rewrite (Hre z rule Hz) in Hrule; [done| |done]. by rewrite E.
      - unfold matchAdvancedCustomRouteModelRule in Hrule. rewrite Ep in Hrule. simpl in Hrule.
        apply bool_decide_eq_true in Hrule as ->. by apply (Hdis m). }
    clear Honly Hre Hpath.
    induction Hp as [|a l Ha Hp IH]; [by apply elem_of_nil in Hr|]. simpl in Ef.
    destruct (f a) eqn:Efa.
    + simplify_eq. apply elem_of_cons in Hr as [->|Hr]; [done|].
      exfalso. rewrite Forall_forall in Ha. apply (Hsub y); [by apply elem_of_cons; left|done|by apply Ha].
    + apply elem_of_cons in Hr as [->|Hr]; [congruence|]. apply IH; auto.
      intros z Hz. apply Hsub. by apply elem_of_cons; right.
  - rewrite (List.find_none _ _ Ef r) in Hfr; [done|by apply list_elem_of_In].
Qed.
End validated.
