(* ===== verification/Sample.v ===== *)
(** * A concrete world

    One user with a wallet, a token and an active subscription, used by the
    examples that run the model on concrete data. *)

From S2P Require Import Prelude GoStd GoFloat World.

Definition sample_cfg : Config :=
  mkConfig false false (F64.of_Z 500000) (fun s => "hmac:" +:+ s) 28800 false false.

Definition sample_user : User :=
  mkUser 1 "alice" 1 1 "a@b.c" None 100000 0 0 "default" "aff" 0 0 0 0 None "" "".
Definition sample_token : Token :=
  mkToken 7 1 "k7" 1 "main" 0 0 (-1) 5000 false false "" None 0 "" false None.
Definition sample_plan : SubscriptionPlan :=
  mkPlan 3 "Pro" (F64.of_Z 1) "month" 1 0 true (Some true) (Some true) 1 "vip" "" 1000
    "daily" 0.
Definition sample_sub : UserSubscription :=
  mkSub 5 1 3 1000 100 1000000 2000000000 "active" "order" 1699977600 1700064000 "" "" "" true
    1000000 1000000.

Definition sample_db : DB :=
  mkDB {[1 := sample_user]} {[7 := sample_token]} {[3 := sample_plan]} {[5 := sample_sub]}
    ∅ ∅ ∅ ∅ ∅ ∅ ∅ ∅.

Definition sample_world : World :=
  mkWorld sample_cfg 1700000000 1700000000 sample_db [] [] 100 ∅ ∅ ∅ ∅ (fun _ => ∅) []
    (mkRouting ∅ 1 ∅ ∅ ∅ ∅ ∅ ∅).
