(* ===== verification/ModelUtils.v ===== *)
(** * Batch stores and Redis helpers (src/model/utils.go, src/common/redis.go)

    [addNewRecord] accumulates a delta in memory; the flush is in
    [BatchUpdate].  The Redis helpers act on the typed contents of the user and
    token hashes; every key they write carries a TTL, so a key that exists has
    one. *)

From S2P Require Import Prelude World.

Definition set_batch (t : BatchType) (m : gmap Z Z) (w : World) : World :=
  w <| w_batch := fun t' => if decide (t' = t) then m else w_batch w t' |>.

Definition addNewRecord (t : BatchType) (id value : Z) : MW unit := modify (fun w =>
  match w_batch w t !! id with
  | None => set_batch t (<[id := value]> (w_batch w t)) w
  | Some old => set_batch t (<[id := old + value]> (w_batch w t)) w
  end).

Definition shouldUpdateRedis {A} (fromDB : bool) (r : result error A) (w : World) : bool :=
  RedisEnabled (w_cfg w) && fromDB && match r with Ok _ => true | Err _ => false end.

(** RedisHSetObj, RedisHGetObj, RedisDelKey, RedisHIncrBy and RedisHSetField on
    a hash stored in one of the typed maps. *)
Section redis.
Context `{Countable K} {V : Type} (get : World -> gmap K V) (put : gmap K V -> World -> World).

Definition RedisHSetObj (key : K) (obj : V) : MW unit :=
  ext_call ;; modify (fun w => put (<[key := obj]> (get w)) w).
Definition RedisHGetObj (key : K) : MW V :=
  ext_call ;;
  r ← gets (fun w => get w !! key);
  match r with Some obj => mret obj | None => fail ErrRedisMiss end.
Definition RedisDelKey (key : K) : MW unit :=
  ext_call ;; modify (fun w => put (delete key (get w)) w).
(** TTL first; nothing happens to a key that does not exist. *)
Definition RedisHUpdateField (key : K) (f : V -> V) : MW unit :=
  ext_call ;;
  r ← gets (fun w => get w !! key);
  match r with
  | Some _ => ext_call ;; modify (fun w => put (alter f key (get w)) w)
  | None => mret tt
  end.
End redis.

(** The pending delta of a row. *)
Definition pending (w : World) (t : BatchType) (id : Z) : Z := default 0 (w_batch w t !! id).

Lemma pending_set_batch t m w t' id :
  pending (set_batch t m w) t' id =
  if decide (t' = t) then default 0 (m !! id) else pending w t' id.
Proof. unfold pending, set_batch; simpl. by case_decide. Qed.

(** ** The ledger

    What the billing theorems observe: the balance of a wallet and of a token is
    the committed column plus the delta waiting in the batch store. *)

(** A query whose error leaves the zero value. *)
Definition or_zero {A} (zero : A) (m : MW A) : MW A :=
  r ← attempt m; mret (match r with Ok a => a | Err _ => zero end).

(** Rows that are not soft-deleted. *)
Definition live_user (d : DB) (id : Z) : option User :=
  match d_users d !! id with
  | Some u => match u_DeletedAt u with None => Some u | Some _ => None end
  | None => None
  end.
Definition live_token (d : DB) (id : Z) : option Token :=
  match d_tokens d !! id with
  | Some t => match t_DeletedAt t with None => Some t | Some _ => None end
  | None => None
  end.

(** Find(&quota): a missing row leaves 0 and is not an error. *)
Definition select_quota (id : Z) (d : DB) : Z :=
  match live_user d id with Some u => u_Quota u | None => 0 end.

Definition select_remain (id : Z) (d : DB) : Z :=
  match live_token d id with Some t => t_RemainQuota t | None => 0 end.
Definition select_used (id : Z) (d : DB) : Z :=
  match live_token d id with Some t => t_UsedQuota t | None => 0 end.

Definition wallet (w : World) (id : Z) : Z :=
  select_quota id (w_db w) + pending w BatchUpdateTypeUserQuota id.
Definition token_remain (w : World) (id : Z) : Z :=
  select_remain id (w_db w) + pending w BatchUpdateTypeTokenQuota id.
Definition token_used (w : World) (id : Z) : Z :=
  select_used id (w_db w) - pending w BatchUpdateTypeTokenQuota id.

(** Equivalences of worlds, one per part of the ledger. *)
Definition same_wallets (w w' : World) : Prop := forall id, wallet w' id = wallet w id.
Definition same_tokens (w w' : World) : Prop :=
  (forall id, token_remain w' id = token_remain w id) /\
  (forall id, token_used w' id = token_used w id).
Definition same_subs (w w' : World) : Prop :=
  d_subs (w_db w') = d_subs (w_db w) /\ d_records (w_db w') = d_records (w_db w) /\
  d_plans (w_db w') = d_plans (w_db w).
Definition same_env (w w' : World) : Prop :=
  w_cfg w' = w_cfg w /\ w_log w' = w_log w /\ w_now w' = w_now w /\
  w_dbnow w' = w_dbnow w /\ w_next_id w' = w_next_id w /\
  w_plan_cache w' = w_plan_cache w.

#[export] Instance same_wallets_equiv : Equivalence same_wallets.
Proof. split; unfold same_wallets; [by intros w| |]; congruence. Qed.
#[export] Instance same_tokens_equiv : Equivalence same_tokens.
Proof.
  split; unfold same_tokens; [done| |].
  - intros w w' [H1 H2]. split; congruence.
  - intros w w' w'' [H1 H2] [H3 H4]. split; congruence.
Qed.
#[export] Instance same_subs_equiv : Equivalence same_subs.
Proof. split; unfold same_subs; repeat intro; intuition congruence. Qed.
#[export] Instance same_env_equiv : Equivalence same_env.
Proof. split; unfold same_env; repeat intro; intuition congruence. Qed.

Lemma addNewRecord_run t id value w :
  exists w', addNewRecord t id value w = (Ok tt, w') /\
    w_db w' = w_db w /\ w_cfg w' = w_cfg w /\ w_faults w' = w_faults w /\
    w_jobs w' = w_jobs w /\ w_log w' = w_log w /\
    (w_now w' = w_now w /\ w_dbnow w' = w_dbnow w) /\ w_next_id w' = w_next_id w /\
    w_plan_cache w' = w_plan_cache w /\
    (forall t' id', pending w' t' id' =
       pending w t' id' + if decide (t' = t /\ id' = id) then value else 0).
Proof.
  unfold addNewRecord, modify. eexists. split; [done|].
  assert (Hp : forall old, default 0 (w_batch w t !! id) = old ->
    forall t' id', pending (set_batch t (<[id := old + value]> (w_batch w t)) w) t' id'
      = pending w t' id' + if decide (t' = t /\ id' = id) then value else 0).
  { intros old Hold t' id'. rewrite pending_set_batch.
    destruct (decide (t' = t)) as [->|].
    - rewrite lookup_insert. destruct (decide (id = id')) as [->|].
      + rewrite decide_True by done. unfold pending. simpl. lia.
      + rewrite decide_False by naive_solver. unfold pending. lia.
    - rewrite decide_False by naive_solver. lia. }
  destruct (w_batch w t !! id) as [old|] eqn:E; simpl;
    (repeat split; try done).
  - intros. by apply Hp.
  - intros. replace value with (0 + value) at 1 by lia. by apply Hp.
Qed.
