(* ===== verification/UserModel.v ===== *)
(** * User quota and user cache (src/model/user.go, src/model/user_cache.go)

    A wallet is the [quota] column of the user's row, plus the delta that waits
    in the batch store when batch updates are on. *)

From S2P Require Import Prelude GoStd World ModelUtils.

Definition has_user (id : Z) (d : DB) : bool :=
  match live_user d id with Some _ => true | None => false end.
Definition update_user (id : Z) (f : User -> User) (d : DB) : DB :=
  d <| d_users := alter f id (d_users d) |>.

(** ** The user hash in Redis *)

Definition put_redis_users (m : gmap Z UserBase) (w : World) : World :=
  w <| w_redis_users := m |>.

Definition ToBaseUser (u : User) : UserBase :=
  mkUserBase (u_Id u) (u_Group u) (u_Email u) (u_Quota u) (u_Status u) (u_Username u)
    (u_Setting u).

Definition if_redis (m : MW unit) : MW unit :=
  b ← gets (fun w => RedisEnabled (w_cfg w));
  if b : bool then m else mret tt.

Definition invalidateUserCache (userId : Z) : MW unit :=
  if_redis (RedisDelKey w_redis_users put_redis_users userId).

Definition populateUserCache (u : User) : MW unit :=
  if_redis (RedisHSetObj w_redis_users put_redis_users (u_Id u) (ToBaseUser u)).

Definition cacheIncrUserQuota (userId delta : Z) : MW unit :=
  if_redis (RedisHUpdateField w_redis_users put_redis_users userId
              (fun b => b <| ub_Quota := ub_Quota b + delta |>)).

Definition cacheDecrUserQuota (userId delta : Z) : MW unit := cacheIncrUserQuota userId (- delta).

Definition updateUserQuotaCache (userId quota : Z) : MW unit :=
  if_redis (RedisHUpdateField w_redis_users put_redis_users userId
              (fun b => b <| ub_Quota := quota |>)).

Definition updateUserGroupCache (userId : Z) (group : string) : MW unit :=
  if_redis (RedisHUpdateField w_redis_users put_redis_users userId
              (fun b => b <| ub_Group := group |>)).

Definition UserStatusEnabled : Z := 1.
Definition UserStatusDisabled : Z := 2.

Definition updateUserStatusCache (userId : Z) (status : bool) : MW unit :=
  if_redis (RedisHUpdateField w_redis_users put_redis_users userId
              (fun b => b <| ub_Status := if status then UserStatusEnabled else UserStatusDisabled |>)).
Definition updateUserEmailCache (userId : Z) (email : string) : MW unit :=
  if_redis (RedisHUpdateField w_redis_users put_redis_users userId
              (fun b => b <| ub_Email := email |>)).
Definition updateUserNameCache (userId : Z) (username : string) : MW unit :=
  if_redis (RedisHUpdateField w_redis_users put_redis_users userId
              (fun b => b <| ub_Username := username |>)).
Definition updateUserSettingCache (userId : Z) (setting : string) : MW unit :=
  if_redis (RedisHUpdateField w_redis_users put_redis_users userId
              (fun b => b <| ub_Setting := setting |>)).

(** Refreshes the non-quota fields, one Redis write per field. *)
Definition updateUserCache (u : User) : MW unit :=
  if_redis (
    updateUserGroupCache (u_Id u) (u_Group u) ;;
    updateUserEmailCache (u_Id u) (u_Email u) ;;
    updateUserStatusCache (u_Id u) (u_Status u =? UserStatusEnabled) ;;
    updateUserNameCache (u_Id u) (u_Username u) ;;
    updateUserSettingCache (u_Id u) (u_Setting u)).

Definition GetUserById (id : Z) : MW User :=
  if id =? 0 then fail (ErrNew "id 为空！")
  else db_first HDB (fun d => live_user d id).

Definition cacheGetUserBase (userId : Z) : MW UserBase :=
  b ← gets (fun w => RedisEnabled (w_cfg w));
  if b : bool then RedisHGetObj w_redis_users userId
  else fail (ErrNew "redis is not enabled").

(** Redis first; a miss or an error falls back to the database, whose row is
    written back in the background. *)
Definition GetUserCache (userId : Z) : MW UserBase :=
  r ← attempt (cacheGetUserBase userId);
  match r with
  | Ok b => mret b
  | Err _ =>
      u ← GetUserById userId;
      redis ← gets (fun w => RedisEnabled (w_cfg w));
      (if redis : bool then go_job (JobPopulateUserCache u) else mret tt) ;;
      mret (ToBaseUser u)
  end.

Definition getUserQuotaCache (userId : Z) : MW Z :=
  b ← GetUserCache userId; mret (ub_Quota b).

(** A missing row has role 0. *)
Definition RoleAdminUser : Z := 10.
Definition select_role (id : Z) (d : DB) : Z :=
  match live_user d id with Some u => u_Role u | None => 0 end.
Definition IsAdmin (userId : Z) : MW bool :=
  if userId =? 0 then mret false
  else
    r ← attempt (db_find HDB (select_role userId));
    mret (match r with Ok role => role >=? RoleAdminUser | Err _ => false end).

(** ** Quota operations *)

Definition GetUserQuota (id : Z) (fromDB : bool) : MW Z :=
  redis ← gets (fun w => RedisEnabled (w_cfg w));
  cached ← (if negb fromDB && redis then attempt (getUserQuotaCache id)
            else mret (Err (ErrNew "skipped")));
  match cached with
  | Ok quota => mret quota
  | Err _ =>
      quota ← db_find HDB (select_quota id);
      (if redis : bool then go_job (JobUpdateUserQuotaCache id quota) else mret tt) ;;
      mret quota
  end.

Definition increaseUserQuota (id quota : Z) : MW unit :=
  hit ← db_update HDB (has_user id) (update_user id (fun u => u <| u_Quota := u_Quota u + quota |>));
  guard_err (negb hit) (ErrNew "用户不存在") ;;
  go_job (JobCacheIncrUserQuota id quota).

Definition decreaseUserQuota (id quota : Z) : MW unit :=
  hit ← db_update HDB (has_user id) (update_user id (fun u => u <| u_Quota := u_Quota u - quota |>));
  guard_err (negb hit) (ErrNew "用户不存在") ;;
  go_job (JobCacheIncrUserQuota id (- quota)).

Definition IncreaseUserQuota (id quota : Z) (db : bool) : MW unit :=
  guard_err (quota <? 0) (ErrNew "quota 不能为负数！") ;;
  batch ← gets (fun w => BatchUpdateEnabled (w_cfg w));
  if negb db && batch then
    go_job (JobCacheIncrUserQuota id quota) ;;
    addNewRecord BatchUpdateTypeUserQuota id quota
  else increaseUserQuota id quota.

Definition DecreaseUserQuota (id quota : Z) (db : bool) : MW unit :=
  guard_err (quota <? 0) (ErrNew "quota 不能为负数！") ;;
  batch ← gets (fun w => BatchUpdateEnabled (w_cfg w));
  if negb db && batch then
    go_job (JobCacheIncrUserQuota id (- quota)) ;;
    addNewRecord BatchUpdateTypeUserQuota id (- quota)
  else decreaseUserQuota id quota.

Definition DeltaUpdateUserQuota (id delta : Z) : MW unit :=
  if delta =? 0 then mret tt
  else if delta >? 0 then IncreaseUserQuota id delta false
  else DecreaseUserQuota id (- delta) false.

(** Errors of the next three are only logged. *)
Definition updateUserUsedQuotaAndRequestCount (id quota count : Z) : MW unit :=
  ignore_err (db_update HDB (has_user id) (update_user id (fun u =>
    u <| u_UsedQuota := u_UsedQuota u + quota |>
      <| u_RequestCount := u_RequestCount u + count |>))).

Definition UpdateUserUsedQuotaAndRequestCount (id quota : Z) : MW unit :=
  batch ← gets (fun w => BatchUpdateEnabled (w_cfg w));
  if batch : bool then
    addNewRecord BatchUpdateTypeUsedQuota id quota ;;
    addNewRecord BatchUpdateTypeRequestCount id 1
  else updateUserUsedQuotaAndRequestCount id quota 1.

Definition updateUserQuotaUsedQuotaAndRequestCount (id quota usedQuota requestCount : Z) : MW unit :=
  if (quota =? 0) && (usedQuota =? 0) && (requestCount =? 0) then mret tt
  else ignore_err (db_update HDB (has_user id) (update_user id (fun u =>
    u <| u_Quota := u_Quota u + quota |>
      <| u_UsedQuota := u_UsedQuota u + usedQuota |>
      <| u_RequestCount := u_RequestCount u + requestCount |>))).

(** ** Effect of the quota operations on the ledger *)

Lemma has_user_live id d : has_user id d = true <-> is_Some (live_user d id).
Proof. unfold has_user. destruct (live_user d id); naive_solver. Qed.

Lemma live_update_user id f d id' :
  (forall u, u_DeletedAt (f u) = u_DeletedAt u) ->
  live_user (update_user id f d) id' =
  if decide (id = id') then f <$> live_user d id' else live_user d id'.
Proof.
  intros Hf. unfold live_user, update_user; simpl.
  rewrite lookup_alter. case_decide as Hid; [subst|done].
  destruct (d_users d !! id') as [u|]; simpl; [|done].
  rewrite Hf. by destruct (u_DeletedAt u).
Qed.

(** The committed update of one wallet. *)
Lemma select_quota_credit id delta d id' :
  has_user id d = true ->
  select_quota id' (update_user id (fun u => u <| u_Quota := u_Quota u + delta |>) d)
  = select_quota id' d + if decide (id' = id) then delta else 0.
Proof.
  intros Hu. unfold select_quota. rewrite live_update_user by done.
  destruct (decide (id = id')) as [->|]; [rewrite decide_True by done|rewrite decide_False by done].
  - unfold has_user in Hu. destruct (live_user d id'); simpl; [done|discriminate].
  - destruct (live_user d id'); lia.
Qed.

(** The only difference between two worlds: the wallet of [id] moved by [delta]. *)
Definition wallet_moved (id delta : Z) (w w' : World) : Prop :=
  (forall id', wallet w' id' = wallet w id' + if decide (id' = id) then delta else 0) /\
  same_tokens w w' /\ same_subs w w' /\ same_env w w'.

(** The common shape of [increaseUserQuota] and [decreaseUserQuota]. *)
Definition move_wallet (id delta : Z) : MW unit :=
  hit ← db_update HDB (has_user id)
          (update_user id (fun u => u <| u_Quota := u_Quota u + delta |>));
  guard_err (negb hit) (ErrNew "用户不存在") ;;
  go_job (JobCacheIncrUserQuota id delta).
Lemma increaseUserQuota_move id quota : increaseUserQuota id quota = move_wallet id quota.
Proof. reflexivity. Qed.
Lemma decreaseUserQuota_move id quota : decreaseUserQuota id quota = move_wallet id (- quota).
Proof. reflexivity. Qed.

Lemma move_wallet_run id delta w :
  match move_wallet id delta w with
  | (Ok _, w') => has_user id (w_db w) = true /\ wallet_moved id delta w w' /\
                  w_jobs w' = w_jobs w ++ [JobCacheIncrUserQuota id delta]
  | (Err _, w') => exists fs, w' = w <| w_faults := fs |>
  end.
Proof.
  unfold move_wallet, db_update. run_unfold.
  destruct (ext_call_cases w) as (fs & Hw & Hr).
  destruct (ext_call w) as [r1 w1]; simpl in *; subst w1.
  destruct Hr as [->|[msg ->]]; [|by eexists].
  simpl. destruct (has_user id (w_db w)) eqn:Hu; simpl; [|by eexists].
  split; [done|]. split; [|done].
  split; [|by repeat split].
  intros id'. unfold wallet. simpl. rewrite (select_quota_credit id delta) by done.
  unfold pending. simpl. lia.
Qed.

Lemma wallet_batch_run id delta w :
  match (go_job (JobCacheIncrUserQuota id delta) ;;
         addNewRecord BatchUpdateTypeUserQuota id delta) w with
  | (Ok _, w') => wallet_moved id delta w w' /\
                  w_jobs w' = w_jobs w ++ [JobCacheIncrUserQuota id delta]
  | (Err _, _) => False
  end.
Proof.
  unfold go_job. rewrite run_bind. unfold modify at 1.
  destruct (addNewRecord_run BatchUpdateTypeUserQuota id delta
              (w <| w_jobs := w_jobs w ++ [JobCacheIncrUserQuota id delta] |>))
    as (w' & -> & Hdb & Hcfg & Hfs & Hjobs & Hlog & Hnow & Hnext & Hcache & Hp).
  split; [|done]. split.
  - intros id'. unfold wallet. rewrite Hdb, Hp. simpl.
    rewrite (decide_ext (BatchUpdateTypeUserQuota = BatchUpdateTypeUserQuota /\ id' = id) (id' = id))
      by naive_solver.
    unfold pending. simpl. lia.
  - repeat split; try naive_solver.
    + intros id'. unfold token_remain. rewrite Hdb, Hp. simpl. unfold pending. simpl. lia.
    + intros id'. unfold token_used. rewrite Hdb, Hp. simpl. unfold pending. simpl. lia.
    + by rewrite Hdb.
    + by rewrite Hdb.
    + by rewrite Hdb.
Qed.

(** Both operations in one statement: success moves exactly one wallet by
    exactly the amount, an error moves nothing. *)
Lemma IncreaseUserQuota_run id quota db w :
  match IncreaseUserQuota id quota db w with
  | (Ok _, w') => 0 <= quota /\ wallet_moved id quota w w' /\
                  w_jobs w' = w_jobs w ++ [JobCacheIncrUserQuota id quota]
  | (Err _, w') => exists fs, w' = w <| w_faults := fs |>
  end.
Proof.
  unfold IncreaseUserQuota. rewrite run_bind. unfold guard_err.
  destruct (quota <? 0) eqn:Hq; simpl.
  { exists (w_faults w). by destruct w. }
  bools. rewrite run_bind. simpl.
  destruct (negb db && _).
  - pose proof (wallet_batch_run id quota w) as H. by case_run H.
  - rewrite increaseUserQuota_move. pose proof (move_wallet_run id quota w) as H.
    case_run H; naive_solver.
Qed.

Lemma DecreaseUserQuota_run id quota db w :
  match DecreaseUserQuota id quota db w with
  | (Ok _, w') => 0 <= quota /\ wallet_moved id (- quota) w w' /\
                  w_jobs w' = w_jobs w ++ [JobCacheIncrUserQuota id (- quota)]
  | (Err _, w') => exists fs, w' = w <| w_faults := fs |>
  end.
Proof.
  unfold DecreaseUserQuota. rewrite run_bind. unfold guard_err.
  destruct (quota <? 0) eqn:Hq; simpl.
  { exists (w_faults w). by destruct w. }
  bools. rewrite run_bind. simpl.
  destruct (negb db && _).
  - pose proof (wallet_batch_run id (- quota) w) as H. by case_run H.
  - rewrite decreaseUserQuota_move. pose proof (move_wallet_run id (- quota) w) as H.
    case_run H; naive_solver.
Qed.

(** The operations succeed whenever the user exists and no call fails. *)
Lemma DecreaseUserQuota_total id quota db w :
  0 <= quota -> w_faults w = [] -> has_user id (w_db w) = true ->
  exists w', DecreaseUserQuota id quota db w = (Ok tt, w') /\ w_faults w' = [].
Proof.
  intros Hq Hf Hu. unfold DecreaseUserQuota, decreaseUserQuota, guard_err.
  replace (quota <? 0) with false by (symmetry; apply Z.ltb_ge; lia).
  rewrite run_bind. simpl. rewrite run_bind. simpl.
  destruct (negb db && _).
  - unfold go_job. rewrite run_bind. unfold modify.
    destruct (addNewRecord_run BatchUpdateTypeUserQuota id (- quota)
      (w <| w_jobs := w_jobs w ++ [JobCacheIncrUserQuota id (- quota)] |>))
      as (w' & -> & _ & _ & Hfs & _). exists w'. split; [done|]. by rewrite Hfs.
  - unfold db_update. run_unfold. rewrite ext_call_ok by done. rewrite Hu. simpl. eauto.
Qed.

Lemma IncreaseUserQuota_total id quota db w :
  0 <= quota -> w_faults w = [] -> has_user id (w_db w) = true ->
  exists w', IncreaseUserQuota id quota db w = (Ok tt, w') /\ w_faults w' = [].
Proof.
  intros Hq Hf Hu. unfold IncreaseUserQuota, increaseUserQuota, guard_err.
  replace (quota <? 0) with false by (symmetry; apply Z.ltb_ge; lia).
  rewrite run_bind. simpl. rewrite run_bind. simpl.
  destruct (negb db && _).
  - unfold go_job. rewrite run_bind. unfold modify.
    destruct (addNewRecord_run BatchUpdateTypeUserQuota id quota
      (w <| w_jobs := w_jobs w ++ [JobCacheIncrUserQuota id quota] |>))
      as (w' & -> & _ & _ & Hfs & _). exists w'. split; [done|]. by rewrite Hfs.
  - unfold db_update. run_unfold. rewrite ext_call_ok by done. rewrite Hu. simpl. eauto.
Qed.

(** Moving a wallet leaves the tokens table alone. *)
Lemma IncreaseUserQuota_tokens id quota db w :
  d_tokens (w_db (IncreaseUserQuota id quota db w).2) = d_tokens (w_db w).
Proof.
  assert (H : preserves (fun w' => d_tokens (w_db w') = d_tokens (w_db w)) (IncreaseUserQuota id quota db));
    [|by apply H].
  unfold IncreaseUserQuota, increaseUserQuota, addNewRecord, go_job. pres.
  all: apply preserves_modify; intros w' Hw'; by destruct (w_batch w' _ !! id).
Qed.
Lemma DecreaseUserQuota_tokens id quota db w :
  d_tokens (w_db (DecreaseUserQuota id quota db w).2) = d_tokens (w_db w).
Proof.
  assert (H : preserves (fun w' => d_tokens (w_db w') = d_tokens (w_db w)) (DecreaseUserQuota id quota db));
    [|by apply H].
  unfold DecreaseUserQuota, decreaseUserQuota, addNewRecord, go_job. pres.
  all: apply preserves_modify; intros w' Hw'; by destruct (w_batch w' _ !! id).
Qed.
