(* ===== verification/TokenModel.v ===== *)
(** * API tokens (src/model/token.go, src/model/token_cache.go)

    The token row, its Redis copy, validation of a presented key, and the quota
    operations of the billing path. *)

From S2P Require Import Prelude GoStd World Sample ModelUtils UserModel.

Definition TokenStatusEnabled : Z := 1.
Definition TokenStatusDisabled : Z := 2.
Definition TokenStatusExpired : Z := 3.
Definition TokenStatusExhausted : Z := 4.

Definition ErrTokenNotProvided : error := ErrNew "token not provided".
Definition ErrTokenInvalid : error := ErrNew "token invalid".

Definition has_token (id : Z) (d : DB) : bool :=
  match live_token d id with Some _ => true | None => false end.
Definition update_token (id : Z) (f : Token -> Token) (d : DB) : DB :=
  d <| d_tokens := alter f id (d_tokens d) |>.
Definition live_tokens (d : DB) : list Token :=
  filter (fun t => t_DeletedAt t = None) (snd <$> map_to_list (d_tokens d)).

(** ** Keys and limits *)

Definition MaskTokenKey (key : string) : string :=
  let n := GoStrings.len key in
  if n =? 0 then ""
  else if n <=? 4 then String.concat "" (replicate (String.length key) "*")
  else if n <=? 8 then
    String.substring 0 2 key +:+ "****" +:+ String.substring (String.length key - 2) 2 key
  else
    String.substring 0 4 key +:+ "**********" +:+ String.substring (String.length key - 4) 4 key.

Definition newline : Ascii.ascii := Ascii.ascii_of_nat 10.
Definition space : Ascii.ascii := Ascii.ascii_of_nat 32.
Definition bang : Ascii.ascii := Ascii.ascii_of_nat 33.
Definition percent : Ascii.ascii := Ascii.ascii_of_nat 37.
Definition underscore : Ascii.ascii := Ascii.ascii_of_nat 95.
Definition comma : Ascii.ascii := Ascii.ascii_of_nat 44.

Definition GetIpLimits (t : Token) : list string :=
  match t_AllowIps t with
  | None => []
  | Some s =>
      let cleanIps := GoStrings.ReplaceByte s space "" in
      if decide (cleanIps = "") then []
      else filter (fun ip => ip <> "")
             ((fun ip => GoStrings.ReplaceByte (GoStrings.TrimSpace ip) comma "")
                <$> GoStrings.SplitByte cleanIps newline)
  end.

Definition GetModelLimits (t : Token) : list string :=
  if decide (t_ModelLimits t = "") then [] else GoStrings.SplitByte (t_ModelLimits t) comma.

Definition GetModelLimitsMap (t : Token) : gset string := list_to_set (GetModelLimits t).

(** ** LIKE patterns *)

Definition validateLikePattern (input : string) : option error :=
  if GoStrings.Contains input "%%" then Some (ErrNew "搜索模式中不允许包含连续的 % 通配符")
  else
    let count := GoStrings.CountByte input percent in
    if count >? 2 then Some (ErrNew "搜索模式中最多允许包含 2 个 % 通配符")
    else if (count >? 0) && (GoStrings.len (GoStrings.ReplaceByte input percent "") <? 2)
    then Some (ErrNew "使用模糊搜索时，关键词长度至少为 2 个字符")
    else None.

Definition sanitizeLikePattern (input : string) : result error string :=
  let input := GoStrings.ReplaceByte input bang "!!" in
  let input := GoStrings.ReplaceByte input underscore "!_" in
  match validateLikePattern input with
  | Some e => Err e
  | None => Ok input
  end.

(** ** The token hash in Redis *)

Definition put_redis_tokens (m : gmap string Token) (w : World) : World :=
  w <| w_redis_tokens := m |>.

(** What survives the trip through the hash: the key is cleared by Clean(), the
    deletion mark is skipped, and an empty pointer reads back as nil. *)
Definition cached_token (t : Token) : Token :=
  t <| t_Key := "" |> <| t_DeletedAt := None |>
    <| t_AllowIps := match t_AllowIps t with Some "" => None | a => a end |>.

Definition cacheSetToken (t : Token) : MW unit :=
  h ← gets (fun w => GenerateHMAC (w_cfg w) (t_Key t));
  RedisHSetObj w_redis_tokens put_redis_tokens h (cached_token t).

Definition cacheDeleteToken (key : string) : MW unit :=
  h ← gets (fun w => GenerateHMAC (w_cfg w) key);
  RedisDelKey w_redis_tokens put_redis_tokens h.

Definition cacheIncrTokenQuota (key : string) (increment : Z) : MW unit :=
  h ← gets (fun w => GenerateHMAC (w_cfg w) key);
  RedisHUpdateField w_redis_tokens put_redis_tokens h
    (fun t => t <| t_RemainQuota := t_RemainQuota t + increment |>).

Definition cacheDecrTokenQuota (key : string) (decrement : Z) : MW unit :=
  cacheIncrTokenQuota key (- decrement).

Definition cacheGetTokenByKey (key : string) : MW Token :=
  redis ← gets (fun w => RedisEnabled (w_cfg w));
  guard_err (negb redis) (ErrNew "redis is not enabled") ;;
  h ← gets (fun w => GenerateHMAC (w_cfg w) key);
  t ← RedisHGetObj w_redis_tokens h;
  mret (t <| t_Key := key |>).

Definition go_if_redis (j : job) : MW unit :=
  redis ← gets (fun w => RedisEnabled (w_cfg w));
  if redis : bool then go_job j else mret tt.

(** ** Lookup *)

Definition find_by_key (key : string) (d : DB) : option Token :=
  List.find (fun t => bool_decide (t_Key t = key)) (live_tokens d).

Definition GetTokenByKey (key : string) (fromDB : bool) : MW Token :=
  redis ← gets (fun w => RedisEnabled (w_cfg w));
  cached ← (if negb fromDB && redis then attempt (cacheGetTokenByKey key)
            else mret (Err (ErrNew "skipped")));
  match cached with
  | Ok t => mret t
  | Err _ =>
      t ← db_first HDB (find_by_key key);
      go_if_redis (JobCacheSetToken t) ;;
      mret t
  end.

Definition GetTokenById (id : Z) : MW Token :=
  guard_err (id =? 0) (ErrNew "id 为空！") ;;
  t ← db_first HDB (fun d => live_token d id);
  go_if_redis (JobCacheSetToken t) ;;
  mret t.

Definition GetTokenByIds (id userId : Z) : MW Token :=
  guard_err ((id =? 0) || (userId =? 0)) (ErrNew "id 或 userId 为空！") ;;
  db_first HDB (fun d =>
    match live_token d id with
    | Some t => if t_UserId t =? userId then Some t else None
    | None => None
    end).

(** ** Writes *)

(** Insert(): the key is unique among all rows, deleted ones included. *)
Definition token_key_taken (key : string) (d : DB) : bool :=
  existsb (fun t => bool_decide (t_Key t = key)) (snd <$> map_to_list (d_tokens d)).

Definition InsertToken (t : Token) : MW Token :=
  taken ← db_find HDB (token_key_taken (t_Key t));
  guard_err taken ErrDuplicatedKey ;;
  id ← next_id;
  let t' : Token := t <| t_Id := id |> in
  modify (exec_write HDB (fun d => d <| d_tokens := <[id := t']> (d_tokens d) |>)) ;;
  mret t'.

(** Update(): the selected columns of the receiver are written to its row. *)
Definition UpdateToken (t : Token) : MW unit :=
  db_update HDB (has_token (t_Id t)) (update_token (t_Id t) (fun r =>
    r <| t_Name := t_Name t |> <| t_Status := t_Status t |>
      <| t_ExpiredTime := t_ExpiredTime t |> <| t_RemainQuota := t_RemainQuota t |>
      <| t_UnlimitedQuota := t_UnlimitedQuota t |>
      <| t_ModelLimitsEnabled := t_ModelLimitsEnabled t |>
      <| t_ModelLimits := t_ModelLimits t |> <| t_AllowIps := t_AllowIps t |>
      <| t_Group := t_Group t |> <| t_CrossGroupRetry := t_CrossGroupRetry t |>)) ;;
  go_if_redis (JobCacheSetToken t).

(** SelectUpdate(): only accessed_time and status. *)
Definition SelectUpdateToken (t : Token) : MW unit :=
  db_update HDB (has_token (t_Id t)) (update_token (t_Id t) (fun r =>
    r <| t_AccessedTime := t_AccessedTime t |> <| t_Status := t_Status t |>)) ;;
  go_if_redis (JobCacheSetToken t).

(** Delete(): gorm's soft delete. *)
Definition DeleteToken (t : Token) : MW unit :=
  now ← GetTimestamp;
  db_update HDB (has_token (t_Id t)) (update_token (t_Id t) (fun r =>
    r <| t_DeletedAt := Some now |>)) ;;
  go_if_redis (JobCacheDeleteTokens [t_Key t]).

Definition DisableModelLimits (tokenId : Z) : MW unit :=
  t ← GetTokenById tokenId;
  UpdateToken (t <| t_ModelLimitsEnabled := false |> <| t_ModelLimits := "" |>).

Definition DeleteTokenById (id userId : Z) : MW unit :=
  t ← GetTokenByIds id userId;
  DeleteToken t.

Definition CountUserTokens (userId : Z) : MW Z :=
  db_find HDB (fun d => Z.of_nat (length (filter (fun t => t_UserId t = userId) (live_tokens d)))).

Definition in_batch (userId : Z) (ids : list Z) (t : Token) : Prop :=
  t_UserId t = userId /\ t_Id t ∈ ids /\ t_DeletedAt t = None.

(** One transaction: select, soft-delete, commit; then the caches. *)
Definition BatchDeleteTokens (ids : list Z) (userId : Z) : MW Z :=
  guard_err (bool_decide (ids = [])) (ErrNew "ids 不能为空！") ;;
  now ← GetTimestamp;
  tokens ← Transaction (
    ts ← db_find HTX (fun d => filter (fun t => t_UserId t = userId /\ t_Id t ∈ ids) (live_tokens d));
    db_exec HTX (fun d => d <| d_tokens :=
      (fun t => if decide (t_UserId t = userId /\ t_Id t ∈ ids /\ t_DeletedAt t = None)
                then t <| t_DeletedAt := Some now |> else t) <$> d_tokens d |>) ;;
    mret ts);
  go_if_redis (JobCacheDeleteTokens (List.map t_Key tokens)) ;;
  mret (Z.of_nat (length tokens)).

Definition GetTokenKeysByIds (ids : list Z) (userId : Z) : MW (list (Z * string)) :=
  db_find HDB (fun d => (fun t => (t_Id t, t_Key t)) <$>
    filter (fun t => t_UserId t = userId /\ t_Id t ∈ ids) (live_tokens d)).

(** Every key is tried; the first error is the one returned. *)
Fixpoint invalidate_keys (keys : list string) (firstErr : option error) : MW (option error) :=
  match keys with
  | [] => mret firstErr
  | k :: ks =>
      if decide (k = "") then invalidate_keys ks firstErr
      else
        r ← attempt (cacheDeleteToken k);
        invalidate_keys ks
          (match firstErr, r with None, Err e => Some e | _, _ => firstErr end)
  end.

Definition invalidateTokensCache (keys : list string) : MW unit :=
  redis ← gets (fun w => RedisEnabled (w_cfg w));
  if negb redis then mret tt
  else
    r ← invalidate_keys keys None;
    match r with Some e => fail e | None => mret tt end.

(** Unscoped: the keys of soft-deleted tokens are dropped too. *)
Definition InvalidateUserTokensCache (userId : Z) : MW unit :=
  redis ← gets (fun w => RedisEnabled (w_cfg w));
  if negb redis then mret tt
  else
    guard_err (userId <=? 0) (ErrNew "userId 无效") ;;
    keys ← db_find HDB (fun d => t_Key <$>
      filter (fun t => t_UserId t = userId) (snd <$> map_to_list (d_tokens d)));
    invalidateTokensCache keys.

(** ** Validation of a presented key

    The token accompanies an ErrTokenInvalid; the expiry and exhaustion marks
    are written only when Redis is off, and a failure to write them is logged. *)
Definition mark_token (t : Token) (status : Z) : MW Token :=
  redis ← gets (fun w => RedisEnabled (w_cfg w));
  if negb redis then
    let t' : Token := t <| t_Status := status |> in
    ignore_err (SelectUpdateToken t') ;; mret t'
  else mret t.

Definition ValidateUserToken (key : string) : MW (option Token * option error) :=
  if decide (key = "") then mret (None, Some ErrTokenNotProvided)
  else
    r ← attempt (GetTokenByKey key false);
    match r with
    | Ok t =>
        if (t_Status t =? TokenStatusExhausted) || (t_Status t =? TokenStatusExpired)
           || negb (t_Status t =? TokenStatusEnabled)
        then mret (Some t, Some ErrTokenInvalid)
        else
          now ← GetTimestamp;
          if negb (t_ExpiredTime t =? -1) && (t_ExpiredTime t <? now) then
            t' ← mark_token t TokenStatusExpired;
            mret (Some t', Some ErrTokenInvalid)
          else if negb (t_UnlimitedQuota t) && (t_RemainQuota t <=? 0) then
            t' ← mark_token t TokenStatusExhausted;
            mret (Some t', Some ErrTokenInvalid)
          else mret (Some t, None)
    | Err ErrRecordNotFound => mret (None, Some ErrTokenInvalid)
    | Err e => mret (None, Some (ErrDatabase e))
    end.

(** ** Quota *)

Definition increaseTokenQuota (id quota : Z) : MW unit :=
  now ← GetTimestamp;
  hit ← db_update HDB (has_token id) (update_token id (fun t =>
    t <| t_RemainQuota := t_RemainQuota t + quota |>
      <| t_UsedQuota := t_UsedQuota t - quota |>
      <| t_AccessedTime := now |>));
  guard_err (negb hit) (ErrNew "令牌不存在").

Definition decreaseTokenQuota (id quota : Z) : MW unit :=
  now ← GetTimestamp;
  hit ← db_update HDB (has_token id) (update_token id (fun t =>
    t <| t_RemainQuota := t_RemainQuota t - quota |>
      <| t_UsedQuota := t_UsedQuota t + quota |>
      <| t_AccessedTime := now |>));
  guard_err (negb hit) (ErrNew "令牌不存在").

Definition IncreaseTokenQuota (tokenId : Z) (key : string) (quota : Z) : MW unit :=
  guard_err (quota <? 0) (ErrNew "quota 不能为负数！") ;;
  batch ← gets (fun w => BatchUpdateEnabled (w_cfg w));
  if batch : bool then addNewRecord BatchUpdateTypeTokenQuota tokenId quota
  else
    increaseTokenQuota tokenId quota ;;
    go_if_redis (JobCacheIncrTokenQuota key quota).

Definition DecreaseTokenQuota (id : Z) (key : string) (quota : Z) : MW unit :=
  guard_err (quota <? 0) (ErrNew "quota 不能为负数！") ;;
  batch ← gets (fun w => BatchUpdateEnabled (w_cfg w));
  if batch : bool then addNewRecord BatchUpdateTypeTokenQuota id (- quota)
  else
    decreaseTokenQuota id quota ;;
    go_if_redis (JobCacheIncrTokenQuota key (- quota)).

(** ** Effect of the quota operations on the ledger *)

Lemma live_update_token id f d id' :
  (forall t, t_DeletedAt (f t) = t_DeletedAt t) ->
  live_token (update_token id f d) id' =
  if decide (id = id') then f <$> live_token d id' else live_token d id'.
Proof.
  intros Hf. unfold live_token, update_token; simpl.
  rewrite lookup_alter. case_decide as Hid; [subst|done].
  destruct (d_tokens d !! id') as [t|]; simpl; [|done].
  rewrite Hf. by destruct (t_DeletedAt t).
Qed.

(** The only difference between two worlds: [delta] moved from the used to the
    remaining quota of token [id]. *)
Definition token_moved (id delta : Z) (w w' : World) : Prop :=
  (forall id', token_remain w' id' = token_remain w id' + if decide (id' = id) then delta else 0) /\
  (forall id', token_used w' id' = token_used w id' - if decide (id' = id) then delta else 0) /\
  same_wallets w w' /\ same_subs w w' /\ same_env w w'.

(** The common shape of [increaseTokenQuota] and [decreaseTokenQuota]. *)
Definition credit_token (now delta : Z) (t : Token) : Token :=
  t <| t_RemainQuota := t_RemainQuota t + delta |>
    <| t_UsedQuota := t_UsedQuota t - delta |> <| t_AccessedTime := now |>.
Definition move_token (id delta : Z) : MW unit :=
  now ← GetTimestamp;
  hit ← db_update HDB (has_token id) (update_token id (credit_token now delta));
  guard_err (negb hit) (ErrNew "令牌不存在").
Lemma increaseTokenQuota_move id quota : increaseTokenQuota id quota = move_token id quota.
Proof. reflexivity. Qed.

(** Two worlds are one when their rows are: the debit adds where the credit of
    the opposite amount subtracts. *)
Lemma debit_token_credit now quota t :
  t <| t_RemainQuota := t_RemainQuota t - quota |>
    <| t_UsedQuota := t_UsedQuota t + quota |> <| t_AccessedTime := now |>
  = credit_token now (- quota) t.
Proof.
  destruct t. unfold credit_token, upd; simpl. f_equal; lia.
Qed.

Lemma update_token_ext id f g d : (forall t, f t = g t) -> update_token id f d = update_token id g d.
Proof.
  intros H. unfold update_token.
  assert (Ha : alter f id (d_tokens d) = alter g id (d_tokens d)).
  { apply map_eq. intros i. rewrite !lookup_alter. case_decide; [|done].
    by apply option_fmap_ext. }
  by rewrite Ha.
Qed.

Lemma decreaseTokenQuota_move id quota w :
  decreaseTokenQuota id quota w = move_token id (- quota) w.
Proof.
  unfold decreaseTokenQuota, move_token, db_update. run_unfold.
  destruct (ext_call w) as [[u|e] w1]; simpl; [|done].
  destruct (has_token id (w_db w1)); simpl; [|done].
  by rewrite (update_token_ext _ _ _ _ (debit_token_credit (w_now w) quota)).
Qed.

Lemma select_token_credit id now delta d id' :
  has_token id d = true ->
  select_remain id' (update_token id (credit_token now delta) d)
    = select_remain id' d + (if decide (id' = id) then delta else 0) /\
  select_used id' (update_token id (credit_token now delta) d)
    = select_used id' d - (if decide (id' = id) then delta else 0).
Proof.
  intros Hu. unfold select_remain, select_used. rewrite live_update_token by done.
  destruct (decide (id = id')) as [->|]; [rewrite !decide_True by done|rewrite !decide_False by done].
  - unfold has_token in Hu. destruct (live_token d id'); simpl; [done|discriminate].
  - destruct (live_token d id'); lia.
Qed.

Lemma move_token_run id delta w :
  match move_token id delta w with
  | (Ok _, w') => has_token id (w_db w) = true /\ token_moved id delta w w' /\ w_jobs w' = w_jobs w
  | (Err _, w') => exists fs, w' = w <| w_faults := fs |>
  end.
Proof.
  unfold move_token, GetTimestamp, db_update. run_unfold.
  destruct (ext_call_cases w) as (fs & Hw & Hr).
  destruct (ext_call w) as [r1 w1]; simpl in *; subst w1.
  destruct Hr as [->|[msg ->]]; [|by eexists].
  simpl. destruct (has_token id (w_db w)) eqn:Hu; simpl; [|by eexists].
  split; [done|]. split; [|done].
  pose proof (fun id' => select_token_credit id (w_now w) delta _ id' Hu) as Hsel.
  split; [|split; [|by repeat split]]; intros id'; destruct (Hsel id') as [H1 H2];
    unfold token_remain, token_used, pending; simpl; lia.
Qed.

Lemma token_batch_run id delta w :
  exists w', addNewRecord BatchUpdateTypeTokenQuota id delta w = (Ok tt, w') /\
    token_moved id delta w w' /\ w_jobs w' = w_jobs w /\ w_faults w' = w_faults w.
Proof.
  destruct (addNewRecord_run BatchUpdateTypeTokenQuota id delta w)
    as (w' & -> & Hdb & Hcfg & Hfs & Hjobs & Hlog & Hnow & Hnext & Hcache & Hp).
  exists w'. split; [done|]. split; [|done].
  split; [|split; [|repeat split; try naive_solver]].
  1-2: intros id'; unfold token_remain, token_used; rewrite Hdb, Hp;
    rewrite (decide_ext (BatchUpdateTypeTokenQuota = BatchUpdateTypeTokenQuota /\ id' = id) (id' = id))
      by naive_solver; case_decide; lia.
  - intros id'. unfold wallet. rewrite Hdb, Hp. simpl. lia.
  - by rewrite Hdb.
  - by rewrite Hdb.
  - by rewrite Hdb.
Qed.

(** Background cache updates do not touch the ledger. *)
Lemma go_if_redis_run j w :
  exists js, go_if_redis j w = (Ok tt, w <| w_jobs := js |>).
Proof.
  unfold go_if_redis. run_unfold. destruct (RedisEnabled _); [by eexists|].
  exists (w_jobs w). by destruct w.
Qed.

Lemma IncreaseTokenQuota_run id key quota w :
  match IncreaseTokenQuota id key quota w with
  | (Ok _, w') => 0 <= quota /\ token_moved id quota w w'
  | (Err _, w') => exists fs, w' = w <| w_faults := fs |>
  end.
Proof.
  unfold IncreaseTokenQuota. rewrite run_bind. unfold guard_err.
  destruct (quota <? 0) eqn:Hq; simpl.
  { exists (w_faults w). by destruct w. }
  bools. rewrite run_bind. simpl. destruct (BatchUpdateEnabled _).
  - destruct (token_batch_run id quota w) as (w' & -> & Hm & _). done.
  - rewrite run_bind, increaseTokenQuota_move. pose proof (move_token_run id quota w) as H.
    case_run H; [|done]. destruct H as (_ & H & _).
    match goal with |- context [go_if_redis ?j ?w1] => destruct (go_if_redis_run j w1) as [js ->] end.
    done.
Qed.

Lemma DecreaseTokenQuota_run id key quota w :
  match DecreaseTokenQuota id key quota w with
  | (Ok _, w') => 0 <= quota /\ token_moved id (- quota) w w'
  | (Err _, w') => exists fs, w' = w <| w_faults := fs |>
  end.
Proof.
  unfold DecreaseTokenQuota. rewrite run_bind. unfold guard_err.
  destruct (quota <? 0) eqn:Hq; simpl.
  { exists (w_faults w). by destruct w. }
  bools. rewrite run_bind. simpl. destruct (BatchUpdateEnabled _).
  - destruct (token_batch_run id (- quota) w) as (w' & -> & Hm & _). done.
  - rewrite run_bind, decreaseTokenQuota_move. pose proof (move_token_run id (- quota) w) as H.
    case_run H; [|done]. destruct H as (_ & H & _).
    match goal with |- context [go_if_redis ?j ?w1] => destruct (go_if_redis_run j w1) as [js ->] end.
    done.
Qed.

Lemma move_token_total id delta w :
  w_faults w = [] -> has_token id (w_db w) = true ->
  exists w', move_token id delta w = (Ok tt, w') /\ w_faults w' = [].
Proof.
  intros Hf Hu. unfold move_token, GetTimestamp, db_update. run_unfold.
  rewrite ext_call_ok by done. rewrite Hu. simpl. eauto.
Qed.

Lemma IncreaseTokenQuota_total id key quota w :
  0 <= quota -> w_faults w = [] -> has_token id (w_db w) = true ->
  exists w', IncreaseTokenQuota id key quota w = (Ok tt, w') /\ w_faults w' = [].
Proof.
  intros Hq Hf Hu. unfold IncreaseTokenQuota, guard_err.
  replace (quota <? 0) with false by (symmetry; apply Z.ltb_ge; lia).
  rewrite run_bind. simpl. rewrite run_bind. simpl. destruct (BatchUpdateEnabled _).
  - destruct (token_batch_run id quota w) as (w' & -> & _ & _ & Hf'). exists w'. by rewrite Hf'.
  - rewrite run_bind, increaseTokenQuota_move.
    destruct (move_token_total id quota w Hf Hu) as (w' & -> & Hf').
    destruct (go_if_redis_run (JobCacheIncrTokenQuota key quota) w') as [js ->]. eauto.
Qed.

Lemma DecreaseTokenQuota_total id key quota w :
  0 <= quota -> w_faults w = [] -> has_token id (w_db w) = true ->
  exists w', DecreaseTokenQuota id key quota w = (Ok tt, w') /\ w_faults w' = [].
Proof.
  intros Hq Hf Hu. unfold DecreaseTokenQuota, guard_err.
  replace (quota <? 0) with false by (symmetry; apply Z.ltb_ge; lia).
  rewrite run_bind. simpl. rewrite run_bind. simpl. destruct (BatchUpdateEnabled _).
  - destruct (token_batch_run id (- quota) w) as (w' & -> & _ & _ & Hf'). exists w'. by rewrite Hf'.
  - rewrite run_bind, decreaseTokenQuota_move.
    destruct (move_token_total id (- quota) w Hf Hu) as (w' & -> & Hf').
    destruct (go_if_redis_run (JobCacheIncrTokenQuota key (- quota)) w') as [js ->]. eauto.
Qed.

(** ** What the escaped LIKE pattern means

    The reading of a pattern by LIKE ... ESCAPE '!': the escape character makes
    the next one literal, [%] and [_] are wildcards. *)
Inductive like_item := LikeChar (c : Ascii.ascii) | LikeOne | LikeMany.

Fixpoint parse_like (p : string) : option (list like_item) :=
  match p with
  | EmptyString => Some []
  | String c p' =>
      if decide (c = bang) then
        match p' with
        | String c' p'' => cons (LikeChar c') <$> parse_like p''
        | EmptyString => None
        end
      else cons (if decide (c = percent) then LikeMany
                 else if decide (c = underscore) then LikeOne else LikeChar c) <$> parse_like p'
  end.

(** What the user meant: only [%] is a wildcard. *)
Fixpoint like_intent (s : string) : list like_item :=
  match s with
  | EmptyString => []
  | String c s' => (if decide (c = percent) then LikeMany else LikeChar c) :: like_intent s'
  end.

Definition like_escape (s : string) : string :=
  GoStrings.ReplaceByte (GoStrings.ReplaceByte s bang "!!") underscore "!_".

Lemma like_escape_cons c s :
  like_escape (String c s) =
  (if decide (c = bang) then "!!" else if decide (c = underscore) then "!_"
   else String c EmptyString) +:+ like_escape s.
Proof.
  unfold like_escape. simpl. destruct (decide (c = bang)) as [->|Hb]; [done|].
  simpl. by destruct (decide (c = underscore)).
Qed.

Lemma parse_like_escaped c p : parse_like (String bang (String c p)) = cons (LikeChar c) <$> parse_like p.
Proof. reflexivity. Qed.

Lemma parse_like_escape s : parse_like (like_escape s) = Some (like_intent s).
Proof.
  induction s as [|c s IH]; [done|]. rewrite like_escape_cons.
  generalize dependent (like_escape s). intros e IH. cbn [like_intent].
  destruct (decide (c = bang)) as [->|Hb].
  { change ("!!" +:+ e) with (String bang (String bang e)). by rewrite parse_like_escaped, IH. }
  destruct (decide (c = underscore)) as [->|Hu].
  { change ("!_" +:+ e) with (String bang (String underscore e)). by rewrite parse_like_escaped, IH. }
  change (String c "" +:+ e) with (String c e). cbn [parse_like].
  rewrite decide_False by done. rewrite (decide_False (P := c = underscore)) by done.
  by rewrite IH.
Qed.

Lemma like_escape_percents s :
  GoStrings.CountByte (like_escape s) percent = GoStrings.CountByte s percent.
Proof.
  induction s as [|c s IH]; [done|]. rewrite like_escape_cons.
  generalize dependent (like_escape s). intros e IH. 
  destruct (decide (c = bang)) as [->|Hb];
    [change (0 + (0 + GoStrings.CountByte e percent) = 0 + GoStrings.CountByte s percent); lia|].
  destruct (decide (c = underscore)) as [->|Hu];
    [change (0 + (0 + GoStrings.CountByte e percent) = 0 + GoStrings.CountByte s percent); lia|].
  change (String c "" +:+ e) with (String c e). cbn [GoStrings.CountByte]. lia.
Qed.

(** ** Properties *)

Definition token_usable (now : Z) (t : Token) : bool :=
  (t_Status t =? TokenStatusEnabled)
  && ((t_ExpiredTime t =? -1) || (now <=? t_ExpiredTime t))
  && (t_UnlimitedQuota t || (0 <? t_RemainQuota t)).

Lemma SelectUpdateToken_ledger t w :
  let w' := (SelectUpdateToken t w).2 in same_wallets w w' /\ same_tokens w w'.
Proof.
  unfold SelectUpdateToken, db_update. run_unfold.
  destruct (ext_call_cases w) as (fs & Hw & Hr).
  destruct (ext_call w) as [r1 w1]; simpl in *; subst w1.
  destruct Hr as [->|[msg ->]]; [|done]. simpl.
  assert (Hj : forall w1 : World, same_wallets w w1 -> same_tokens w w1 ->
    let w' := (go_if_redis (JobCacheSetToken t) w1).2 in same_wallets w w' /\ same_tokens w w').
  { intros w1 H1 H2. destruct (go_if_redis_run (JobCacheSetToken t) w1) as [js ->]. done. }
  destruct (has_token (t_Id t) (w_db w)); simpl; apply Hj; try done.
  split; intros id; unfold token_remain, token_used, pending; simpl;
    unfold select_remain, select_used; rewrite live_update_token by done;
    destruct (decide (t_Id t = id)); destruct (live_token (w_db w) id); done.
Qed.

Lemma mark_token_rejects t status w :
  exists t' w', (t' ← mark_token t status; mret (Some t', Some ErrTokenInvalid)) w
                = (Ok (Some t', Some ErrTokenInvalid), w') /\ t_Id t' = t_Id t /\
    same_wallets w w' /\ same_tokens w w'.
Proof.
  unfold mark_token. rewrite !run_bind. simpl. destruct (RedisEnabled _); simpl.
  - by exists t, w.
  - run_unfold.
    do 2 eexists. split; [reflexivity|]. split; [done|]. apply SelectUpdateToken_ledger.
Qed.

(** A presented key is accepted exactly when its token is found, is enabled,
    has not expired and has quota left (or is unlimited); an accepted token is
    the one found, and validation has no effect then beyond the lookup.  A
    rejected token comes back with ErrTokenInvalid, an unknown key is
    ErrTokenInvalid without a token, and a database failure is reported as
    ErrDatabase, never as an invalid token; no outcome moves a balance. *)
Theorem ValidateUserToken_spec key w :
  key <> "" ->
  match GetTokenByKey key false w with
  | (Ok t, w1) =>
      if token_usable (w_now w1) t then ValidateUserToken key w = (Ok (Some t, None), w1)
      else exists t' w', ValidateUserToken key w = (Ok (Some t', Some ErrTokenInvalid), w') /\
             t_Id t' = t_Id t /\ same_wallets w1 w' /\ same_tokens w1 w'
  | (Err ErrRecordNotFound, w1) => ValidateUserToken key w = (Ok (None, Some ErrTokenInvalid), w1)
  | (Err e, w1) => ValidateUserToken key w = (Ok (None, Some (ErrDatabase e)), w1)
  end.
Proof.
  intros Hk. unfold ValidateUserToken. rewrite decide_False by done.
  rewrite run_bind. unfold attempt.
  destruct (GetTokenByKey key false w) as [[t|e] w1]; [|by destruct e].
  unfold token_usable. destruct (t_Status t =? TokenStatusEnabled) eqn:He; simpl.
  2:{ rewrite orb_true_r. by exists t, w1. }
  bools. rewrite He. simpl. rewrite run_bind. simpl.
  destruct (t_ExpiredTime t =? -1) eqn:Hx; simpl.
  2: destruct (Z.leb_spec (w_now w1) (t_ExpiredTime t)), (Z.ltb_spec (t_ExpiredTime t) (w_now w1));
     try lia; simpl.
  3: apply mark_token_rejects.
  all: destruct (t_UnlimitedQuota t); simpl; [done|].
  all: destruct (Z.leb_spec (t_RemainQuota t) 0), (Z.ltb_spec 0 (t_RemainQuota t)); try lia; try done.
  all: apply mark_token_rejects.
Qed.

Lemma ValidateUserToken_witness :
  ValidateUserToken "k7" sample_world = (Ok (Some sample_token, None), sample_world).
Proof. exact (ValidateUserToken_spec "k7" sample_world ltac:(discriminate)). Defined.

(** Consuming from a token and giving back: every outcome conserves remaining
    plus used quota of every token; a success moves exactly the amount, on that
    token alone, and an error moves nothing. *)
Theorem token_quota_conserved id key quota (consume : bool) w :
  let op := if consume then DecreaseTokenQuota id key quota else IncreaseTokenQuota id key quota in
  let w' := (op w).2 in
  (forall i, token_remain w' i + token_used w' i = token_remain w i + token_used w i) /\
  same_wallets w w' /\
  match (op w).1 with
  | Ok _ => 0 <= quota /\ forall i, token_remain w' i = token_remain w i +
              (if decide (i = id) then (if consume then - quota else quota) else 0)
  | Err _ => same_tokens w w'
  end.
Proof.
  destruct consume; simpl;
    [pose proof (DecreaseTokenQuota_run id key quota w) as H
    |pose proof (IncreaseTokenQuota_run id key quota w) as H];
    case_run H; simpl;
    [destruct H as (Hq & Hr & Hu & Hw & _) | destruct H as [fs ->]
    |destruct H as (Hq & Hr & Hu & Hw & _) | destruct H as [fs ->]];
    repeat split; try done; intros i; try rewrite Hr; try rewrite Hu; lia.
Qed.

(** The sanitised search pattern means what the user typed: read back as a
    LIKE pattern with escape '!', it has a wildcard exactly where the input has
    [%] (at most two of them, never adjacent) and every other character,
    [!] and [_] included, matches itself. *)
Theorem sanitizeLikePattern_spec input p :
  sanitizeLikePattern input = Ok p ->
  parse_like p = Some (like_intent input) /\ GoStrings.CountByte input percent <= 2 /\
  GoStrings.Contains p "%%" = false.
Proof.
  unfold sanitizeLikePattern. fold (like_escape input).
  unfold validateLikePattern. rewrite like_escape_percents.
  destruct (GoStrings.Contains _ "%%") eqn:Hc; simpl; [discriminate|].
  destruct (_ >? 2) eqn:Hn; simpl; [discriminate|]. bools.
  destruct (_ && _); simpl; [discriminate|]. intros [= <-].
  split; [apply parse_like_escape | done].
Qed.

Lemma sanitizeLikePattern_witness :
  sanitizeLikePattern "%a_b!" = Ok "%a!_b!!" /\
  parse_like "%a!_b!!" = Some (like_intent "%a_b!") /\
  GoStrings.CountByte "%a_b!" percent <= 2 /\ GoStrings.Contains "%a!_b!!" "%%" = false.
Proof.
  split; [vm_compute; reflexivity|].
  apply (sanitizeLikePattern_spec "%a_b!" "%a!_b!!"). vm_compute. reflexivity.
Defined.
