(* ===== verification/BatchUpdate.v ===== *)
(** * The batch flush (src/model/utils.go batchUpdate, src/model/channel.go)

    Deltas collected by [addNewRecord] are written to the database in one pass.
    The order in which Go ranges over a map is unspecified: [range] is any
    enumeration of the keys. *)

From S2P Require Import Prelude GoStd World Sample ModelUtils UserModel TokenModel.

Definition has_channel (id : Z) (d : DB) : bool :=
  match d_channels d !! id with Some _ => true | None => false end.
Definition update_channel_used (id : Z) (f : Z -> Z) (d : DB) : DB :=
  d <| d_channels := alter (fun c => c <| cn_UsedQuota := f (cn_UsedQuota c) |>) id (d_channels d) |>.

Definition updateChannelUsedQuota (id quota : Z) : MW unit :=
  ignore_err (db_update HDB (has_channel id) (update_channel_used id (fun u => u + quota))).

Definition UpdateChannelUsedQuota (id quota : Z) : MW unit :=
  batch ← gets (fun w => BatchUpdateEnabled (w_cfg w));
  if batch : bool then addNewRecord BatchUpdateTypeChannelUsedQuota id quota
  else updateChannelUsedQuota id quota.

Definition batch_types : list BatchType :=
  [BatchUpdateTypeUserQuota; BatchUpdateTypeTokenQuota; BatchUpdateTypeUsedQuota;
   BatchUpdateTypeChannelUsedQuota; BatchUpdateTypeRequestCount].

Definition store_get (m : gmap Z Z) (key : Z) : Z := default 0 (m !! key).

Section batch.
Context (range : gmap Z Z -> list Z).

(** One store of the first loop: only tokens and channels are written there. *)
Definition flush_store (stores : BatchType -> gmap Z Z) (i : BatchType) : MW unit :=
  match i with
  | BatchUpdateTypeTokenQuota =>
      forM_ (range (stores i)) (fun key =>
        ignore_err (increaseTokenQuota key (store_get (stores i) key)))
  | BatchUpdateTypeChannelUsedQuota =>
      forM_ (range (stores i)) (fun key =>
        updateChannelUsedQuota key (store_get (stores i) key))
  | _ => mret tt
  end.

(** The ids of the three user stores, as the keys of one map. *)
Definition userIDs (stores : BatchType -> gmap Z Z) : gmap Z Z :=
  let keys m := (fun _ => 0) <$> (m : gmap Z Z) in
  keys (stores BatchUpdateTypeUserQuota) ∪ keys (stores BatchUpdateTypeUsedQuota)
    ∪ keys (stores BatchUpdateTypeRequestCount).

Definition flush_users (stores : BatchType -> gmap Z Z) : MW unit :=
  forM_ (range (userIDs stores)) (fun key =>
    updateUserQuotaUsedQuotaAndRequestCount key
      (store_get (stores BatchUpdateTypeUserQuota) key)
      (store_get (stores BatchUpdateTypeUsedQuota) key)
      (store_get (stores BatchUpdateTypeRequestCount) key)).

Definition batchUpdate : MW unit :=
  hasData ← gets (fun w => existsb (fun i => bool_decide (w_batch w i <> ∅)) batch_types);
  if negb hasData then mret tt
  else
    stores ← gets w_batch;
    modify (fun w => w <| w_batch := fun _ => ∅ |>) ;;
    forM_ batch_types (flush_store stores) ;;
    flush_users stores.
End batch.

(** ** The flush as a function on the tables *)

Definition flush_token_db (now : Z) (m : gmap Z Z) (key : Z) (d : DB) : DB :=
  if has_token key d then update_token key (credit_token now (store_get m key)) d else d.
Definition flush_channel_db (m : gmap Z Z) (key : Z) (d : DB) : DB :=
  if has_channel key d then update_channel_used key (fun u => u + store_get m key) d else d.
Definition credit_user (q uq rc : Z) (u : User) : User :=
  u <| u_Quota := u_Quota u + q |> <| u_UsedQuota := u_UsedQuota u + uq |>
    <| u_RequestCount := u_RequestCount u + rc |>.
Definition flush_user_db (q uq rc : gmap Z Z) (key : Z) (d : DB) : DB :=
  if (store_get q key =? 0) && (store_get uq key =? 0) && (store_get rc key =? 0) then d
  else if has_user key d
  then update_user key (credit_user (store_get q key) (store_get uq key) (store_get rc key)) d
  else d.

(** A fold of point-wise updates at distinct keys: each observation of a
    present row moves by the value of its own key. *)
Lemma fold_additive (obs : Z -> DB -> Z) (ok : Z -> DB -> bool) (v : Z -> Z)
    (f : Z -> DB -> DB) ks d i :
  (forall k d i, ok i (f k d) = ok i d) ->
  (forall k d i, ok i d = true ->
     obs i (f k d) = obs i d + if decide (i = k) then v k else 0) ->
  NoDup ks -> ok i d = true ->
  obs i (fold_left (fun d k => f k d) ks d) = obs i d + if decide (i ∈ ks) then v i else 0.
Proof.
  intros Hok Hobs. revert d. induction ks as [|k ks IH]; intros d Hnd Hd; cbn [fold_left].
  { destruct (decide (i ∈ [])); [set_solver|lia]. }
  apply NoDup_cons in Hnd as [Hk Hnd]. rewrite IH by (try done; by rewrite Hok).
  rewrite Hobs by done.
  destruct (decide (i = k)) as [->|Hik].
  - destruct (decide (k ∈ ks)), (decide (k ∈ k :: ks)); try lia; set_solver.
  - destruct (decide (i ∈ ks)), (decide (i ∈ k :: ks)); try lia; set_solver.
Qed.

Lemma fold_keeps {B} (obs : DB -> B) (f : Z -> DB -> DB) ks d :
  (forall k d, obs (f k d) = obs d) -> obs (fold_left (fun d k => f k d) ks d) = obs d.
Proof. intros H. revert d. induction ks as [|k ks IH]; intros d; simpl; [done|]. by rewrite IH. Qed.

Lemma has_update_token id f d i :
  (forall t, t_DeletedAt (f t) = t_DeletedAt t) -> has_token i (update_token id f d) = has_token i d.
Proof.
  intros Hf. unfold has_token. rewrite live_update_token by done.
  case_decide; [|done]. by destruct (live_token d i).
Qed.
Lemma has_update_user id f d i :
  (forall u, u_DeletedAt (f u) = u_DeletedAt u) -> has_user i (update_user id f d) = has_user i d.
Proof.
  intros Hf. unfold has_user. rewrite live_update_user by done.
  case_decide; [|done]. by destruct (live_user d i).
Qed.

Lemma flush_token_step now m k d i :
  has_token i d = true ->
  select_remain i (flush_token_db now m k d)
    = select_remain i d + (if decide (i = k) then store_get m k else 0) /\
  select_used i (flush_token_db now m k d)
    = select_used i d + (if decide (i = k) then - store_get m k else 0).
Proof.
  intros Hi. unfold flush_token_db. destruct (has_token k d) eqn:Hk.
  - destruct (select_token_credit k now (store_get m k) d i Hk) as [-> ->]. case_decide; lia.
  - rewrite !decide_False by congruence. lia.
Qed.
Lemma flush_token_has now m k d i : has_token i (flush_token_db now m k d) = has_token i d.
Proof. unfold flush_token_db. destruct (has_token k d); [by apply has_update_token|done]. Qed.

Lemma flush_user_step q uq rc k d i :
  has_user i d = true ->
  select_quota i (flush_user_db q uq rc k d)
    = select_quota i d + if decide (i = k) then store_get q k else 0.
Proof.
  intros Hi. unfold flush_user_db.
  destruct (_ && _) eqn:Hz; [bools; case_decide; lia|].
  destruct (has_user k d) eqn:Hk.
  - unfold select_quota. rewrite live_update_user by done.
    destruct (decide (k = i)) as [->|]; [rewrite decide_True by done|rewrite decide_False by done; lia].
    unfold has_user in Hk. destruct (live_user d i); simpl; [done|discriminate].
  - rewrite decide_False by congruence. lia.
Qed.
Lemma flush_user_has q uq rc k d i : has_user i (flush_user_db q uq rc k d) = has_user i d.
Proof.
  unfold flush_user_db. destruct (_ && _); [done|].
  destruct (has_user k d); [by apply has_update_user|done].
Qed.

(** The loops of the flush, in a world where no call fails. *)
Definition set_db (d : DB) (w : World) : World := w <| w_db := d |>.
Definition quiet (now : Z) (w : World) : Prop := w_faults w = [] /\ w_now w = now.

Lemma loop_run now (f : Z -> DB -> DB) ks (body : Z -> MW unit) w :
  (forall k w, quiet now w -> body k w = (Ok tt, set_db (f k (w_db w)) w)) ->
  quiet now w ->
  forM_ ks body w = (Ok tt, set_db (fold_left (fun d k => f k d) ks (w_db w)) w).
Proof.
  intros Hb Hw. apply (forM_run (quiet now) w_db set_db f); try done; by intros [].
Qed.

Lemma flush_token_run now m k w :
  quiet now w ->
  ignore_err (increaseTokenQuota k (store_get m k)) w
  = ((Ok tt : result error unit), set_db (flush_token_db now m k (w_db w)) w).
Proof.
  intros [Hf Hn]. rewrite increaseTokenQuota_move.
  unfold move_token, GetTimestamp, db_update, flush_token_db. run_unfold.
  rewrite ext_call_ok by done. simpl. subst now.
  destruct (has_token k (w_db w)); simpl; [done|by destruct w].
Qed.
Lemma flush_channel_run now m k w :
  quiet now w ->
  updateChannelUsedQuota k (store_get m k) w = (Ok tt, set_db (flush_channel_db m k (w_db w)) w).
Proof.
  intros [Hf Hn]. unfold updateChannelUsedQuota, db_update, flush_channel_db. run_unfold.
  rewrite ext_call_ok by done. simpl.
  destruct (has_channel k (w_db w)); simpl; [done|by destruct w].
Qed.
Lemma flush_user_run now q uq rc k w :
  quiet now w ->
  updateUserQuotaUsedQuotaAndRequestCount k (store_get q k) (store_get uq k) (store_get rc k) w
  = (Ok tt, set_db (flush_user_db q uq rc k (w_db w)) w).
Proof.
  intros [Hf Hn]. unfold updateUserQuotaUsedQuotaAndRequestCount, flush_user_db.
  destruct (_ && _); [by destruct w|]. unfold db_update. run_unfold.
  rewrite ext_call_ok by done. simpl.
  destruct (has_user k (w_db w)); simpl; [done|by destruct w].
Qed.

Section flush.
Context (range : gmap Z Z -> list Z).
Context (range_spec : forall m : gmap Z Z, range m ≡ₚ (map_to_list m).*1).

Lemma range_nodup m : NoDup (range m).
Proof. rewrite range_spec. apply NoDup_fst_map_to_list. Qed.
Lemma range_elem m k : k ∈ range m <-> is_Some (m !! k).
Proof.
  rewrite range_spec, list_elem_of_fmap. split.
  - intros ([k' v] & -> & Hk%elem_of_map_to_list). by exists v.
  - intros [v Hv]. exists (k, v). split; [done|by apply elem_of_map_to_list].
Qed.
Lemma store_get_range m k : (if decide (k ∈ range m) then store_get m k else 0) = store_get m k.
Proof.
  case_decide as H; [done|]. rewrite range_elem, <- eq_None_not_Some in H.
  unfold store_get. by rewrite H.
Qed.

Definition flush_db (now : Z) (stores : BatchType -> gmap Z Z) (d : DB) : DB :=
  let d1 := fold_left (fun d k => flush_token_db now (stores BatchUpdateTypeTokenQuota) k d)
              (range (stores BatchUpdateTypeTokenQuota)) d in
  let d2 := fold_left (fun d k => flush_channel_db (stores BatchUpdateTypeChannelUsedQuota) k d)
              (range (stores BatchUpdateTypeChannelUsedQuota)) d1 in
  fold_left (fun d k => flush_user_db (stores BatchUpdateTypeUserQuota)
               (stores BatchUpdateTypeUsedQuota) (stores BatchUpdateTypeRequestCount) k d)
    (range (userIDs stores)) d2.

Lemma flush_run stores w :
  w_faults w = [] ->
  (forM_ batch_types (flush_store range stores) ;; flush_users range stores) w
  = (Ok tt, set_db (flush_db (w_now w) stores (w_db w)) w).
Proof.
  intros Hf. set (now := w_now w). assert (Hq : quiet now w) by done.
  assert (Hch : forM_ batch_types (flush_store range stores) w = (Ok tt, set_db
    (fold_left (fun d k => flush_channel_db (stores BatchUpdateTypeChannelUsedQuota) k d)
       (range (stores BatchUpdateTypeChannelUsedQuota))
       (fold_left (fun d k => flush_token_db now (stores BatchUpdateTypeTokenQuota) k d)
          (range (stores BatchUpdateTypeTokenQuota)) (w_db w))) w)).
  { unfold batch_types. cbn [forM_ flush_store].
    erewrite run_bind_ok by reflexivity.
    erewrite run_bind_ok by
      (apply (loop_run now (flush_token_db now (stores BatchUpdateTypeTokenQuota))); [intros; by apply flush_token_run|done]).
    erewrite run_bind_ok by reflexivity.
    erewrite run_bind_ok by
      (apply (loop_run now (flush_channel_db (stores BatchUpdateTypeChannelUsedQuota))); [intros; by apply (flush_channel_run now)|done]).
    done. }
  erewrite run_bind_ok by apply Hch.
  unfold flush_users. rewrite (loop_run now (flush_user_db (stores BatchUpdateTypeUserQuota)
    (stores BatchUpdateTypeUsedQuota) (stores BatchUpdateTypeRequestCount)));
    [done | intros; by apply (flush_user_run now) | done].
Qed.

Lemma batchUpdate_run w :
  w_faults w = [] -> exists d, batchUpdate range w = (Ok tt, w <| w_batch := w_batch (batchUpdate range w).2 |> <| w_db := d |>) /\
    (forall t, w_batch (batchUpdate range w).2 t = ∅) /\
    (d = flush_db (w_now w) (w_batch w) (w_db w) \/ d = w_db w /\ forall t, w_batch w t = ∅).
Proof.
  intros Hf. unfold batchUpdate. rewrite run_bind. cbn [gets].
  destruct (existsb _ batch_types) eqn:Hd; cbn [negb].
  - rewrite run_bind. cbn [gets]. rewrite run_bind. cbn [modify].
    rewrite flush_run by done. eexists. split; [reflexivity|]. split; [done|]. by left.
  - exists (w_db w). assert (He : forall t, w_batch w t = ∅).
    { intros t. unfold batch_types in Hd. cbn [existsb] in Hd. bools.
      destruct t; by apply dec_stable. }
    cbn. split; [by destruct w|]. split; [done|]. by right.
Qed.

(** The ledger of live rows after the tables were flushed. *)
Lemma flush_wallet now stores d id :
  has_user id d = true ->
  select_quota id (flush_db now stores d)
  = select_quota id d + store_get (stores BatchUpdateTypeUserQuota) id.
Proof.
  intros Hu. unfold flush_db.
  set (d1 := fold_left _ _ d). set (d2 := fold_left _ _ d1).
  assert (Hd1 : d_users d1 = d_users d).
  { apply (fold_keeps d_users). intros k d'. unfold flush_token_db. by destruct (has_token k d'). }
  assert (Hd2 : d_users d2 = d_users d).
  { rewrite <- Hd1. apply (fold_keeps d_users). intros k d'.
    unfold flush_channel_db. by destruct (has_channel k d'). }
  assert (Hq : select_quota id d2 = select_quota id d)
    by (unfold select_quota, live_user; by rewrite Hd2).
  rewrite <- Hq.
  rewrite (fold_additive select_quota has_user (store_get (stores BatchUpdateTypeUserQuota)));
    [| intros; apply flush_user_has | intros; by apply flush_user_step | apply range_nodup
     | unfold has_user, live_user in *; by rewrite Hd2].
  case_decide as Hin; [done|]. rewrite range_elem, <- eq_None_not_Some in Hin.
  unfold userIDs in Hin. rewrite !lookup_union_None in Hin. destruct Hin as [[H _] _].
  rewrite lookup_fmap, fmap_None in H. unfold store_get. by rewrite H.
Qed.

Lemma flush_token now stores d id :
  has_token id d = true ->
  select_remain id (flush_db now stores d)
    = select_remain id d + store_get (stores BatchUpdateTypeTokenQuota) id /\
  select_used id (flush_db now stores d)
    = select_used id d - store_get (stores BatchUpdateTypeTokenQuota) id.
Proof.
  intros Hu. unfold flush_db.
  set (d1 := fold_left _ _ d). set (d2 := fold_left _ _ d1). set (d3 := fold_left _ _ d2).
  assert (Hd2 : d_tokens d2 = d_tokens d1).
  { apply (fold_keeps d_tokens). intros k d'. unfold flush_channel_db. by destruct (has_channel k d'). }
  assert (Hd3 : d_tokens d3 = d_tokens d1).
  { rewrite <- Hd2. apply (fold_keeps d_tokens). intros k d'. unfold flush_user_db.
    destruct (_ && _); [done|]. by destruct (has_user k d'). }
  unfold select_remain, select_used, live_token. rewrite Hd3.
  fold (live_token d1 id). fold (live_token d id).
  fold (select_remain id d1). fold (select_used id d1). fold (select_remain id d). fold (select_used id d).
  unfold d1. split.
  - rewrite (fold_additive select_remain has_token (store_get (stores BatchUpdateTypeTokenQuota)));
      [| intros; apply flush_token_has | intros; by apply flush_token_step | apply range_nodup | done].
    by rewrite store_get_range.
  - rewrite (fold_additive select_used has_token (fun k => - store_get (stores BatchUpdateTypeTokenQuota) k));
      [| intros; apply flush_token_has | intros; by apply flush_token_step | apply range_nodup | done].
    pose proof (store_get_range (stores BatchUpdateTypeTokenQuota) id) as H.
    destruct (decide (id ∈ _)); lia.
Qed.

(** A flush in which no database call fails loses nothing: every live wallet
    and every live token has the same balance before and after it (committed
    column plus pending delta), in whatever order the map is ranged over, and
    nothing stays pending. *)
Theorem batchUpdate_conserves w :
  w_faults w = [] ->
  exists w', batchUpdate range w = (Ok tt, w') /\
    (forall t, w_batch w' t = ∅) /\
    (forall id, has_user id (w_db w) = true -> wallet w' id = wallet w id) /\
    (forall id, has_token id (w_db w) = true ->
       token_remain w' id = token_remain w id /\ token_used w' id = token_used w id).
Proof.
  intros Hf. destruct (batchUpdate_run w Hf) as (d & Hrun & Hempty & Hd).
  eexists. split; [exact Hrun|]. split; [exact Hempty|].
  unfold wallet, token_remain, token_used, pending. simpl.
  setoid_rewrite Hempty. setoid_rewrite lookup_empty. simpl.
  destruct Hd as [->|[-> He]]; split; intros id Hid.
  - rewrite flush_wallet by done. unfold store_get. lia.
  - destruct (flush_token (w_now w) (w_batch w) (w_db w) id Hid) as [-> ->].
    unfold store_get. lia.
  - rewrite He, lookup_empty. simpl. lia.
  - rewrite He, lookup_empty. simpl. lia.
Qed.
End flush.

Definition sample_batch_world : World :=
  set_batch BatchUpdateTypeUserQuota {[1 := -300]}
    (set_batch BatchUpdateTypeTokenQuota {[7 := -300]} sample_world).

Lemma batchUpdate_conserves_witness :
  exists w', batchUpdate (fun m => (map_to_list m).*1) sample_batch_world = (Ok tt, w') /\
    (forall t, w_batch w' t = ∅) /\ wallet w' 1 = 99700 /\ token_remain w' 7 = 4700.
Proof.
  destruct (batchUpdate_conserves (fun m => (map_to_list m).*1) (fun m => Permutation_refl _)
              sample_batch_world ltac:(reflexivity)) as (w' & Hrun & He & Hw & Ht).
  exists w'. split; [exact Hrun|]. split; [exact He|]. split.
  - rewrite (Hw 1 ltac:(reflexivity)). reflexivity.
  - destruct (Ht 7 ltac:(reflexivity)) as [-> _]. reflexivity.
Defined.

(** A flush whose database call fails drops the pending delta: the stores are
    emptied before the rows are written and the error is only logged, so the
    300 units user 1 was charged for are never deducted from the wallet. *)
Theorem batchUpdate_drops_on_error :
  let w := sample_batch_world <| w_faults := [None; Some "connection lost"] |> in
  let w' := (batchUpdate (fun m => (map_to_list m).*1) w).2 in
  (batchUpdate (fun m => (map_to_list m).*1) w).1 = Ok tt /\
  wallet w 1 = 99700 /\ wallet w' 1 = 100000 /\ pending w' BatchUpdateTypeUserQuota 1 = 0.
Proof. vm_compute. repeat split. Qed.
