(* ===== verification/SubscriptionTime.v ===== *)
(** * Subscription calendar (src/model/subscription.go)

    The end of a purchased period, the next quota reset, and the loop that
    catches up with the resets that were missed.  Times are Unix seconds in the
    zone [tz] of time.Local. *)

From S2P Require Import Prelude GoStd World Sample.

Definition calcPlanEndTime (tz start : Z) (plan : SubscriptionPlan) : result error Z :=
  let v := p_DurationValue plan in
  let unit := p_DurationUnit plan in
  if (v <=? 0) && negb (bool_decide (unit = "custom"))
  then Err (ErrNew "duration_value must be > 0")
  else if decide (unit = "year") then Ok (GoTime.AddDate tz start v 0 0)
  else if decide (unit = "month") then Ok (GoTime.AddDate tz start 0 v 0)
  else if decide (unit = "day") then Ok (GoTime.Add start (GoTime.Duration (v * 24) GoTime.Hour))
  else if decide (unit = "hour") then Ok (GoTime.Add start (GoTime.Duration v GoTime.Hour))
  else if decide (unit = "custom") then
    if p_CustomSeconds plan <=? 0 then Err (ErrNew "custom_seconds must be > 0")
    else Ok (GoTime.Add start (GoTime.Duration (p_CustomSeconds plan) GoTime.Second))
  else Err (ErrNew ("invalid duration_unit: " +:+ unit)).

Definition NormalizeResetPeriod (period : string) : string :=
  let t := GoStrings.TrimSpace period in
  if decide (t ∈ ["daily"; "weekly"; "monthly"; "custom"]) then t else "never".

Definition calcNextResetTime (tz base : Z) (plan : SubscriptionPlan) (endUnix : Z) : Z :=
  let period := NormalizeResetPeriod (p_QuotaResetPeriod plan) in
  let clip next := if (endUnix >? 0) && (next >? endUnix) then 0 else next in
  if decide (period = "never") then 0
  else if decide (period = "daily") then
    clip (GoTime.AddDate tz (GoTime.start_of_day tz base) 0 0 1)
  else if decide (period = "weekly") then
    let weekday := GoTime.Weekday tz base in
    let weekday := if weekday =? 0 then 7 else weekday in
    clip (GoTime.AddDate tz (GoTime.start_of_day tz base) 0 0 (8 - weekday))
  else if decide (period = "monthly") then
    clip (GoTime.AddDate tz (GoTime.start_of_month tz base) 0 1 0)
  else if decide (period = "custom") then
    if p_QuotaResetCustomSeconds plan <=? 0 then 0
    else clip (GoTime.Add base (GoTime.Duration (p_QuotaResetCustomSeconds plan) GoTime.Second))
  else 0.

(** The loop of maybeResetUserSubscriptionWithPlanTx:
    [for next > 0 && next <= now { advanced = true; base = next; next = calc(base) }].
    The state is [(base, next, advanced)].  [next] is a positive integer that
    grows, so [now] iterations are enough ([catch_up_terminates]); the result is
    [None] only when the Go loop never ends. *)
Definition catch_up_step (tz : Z) (plan : SubscriptionPlan) (endUnix now : Z)
    (st : Z * Z * bool) : (Z * Z * bool) + (Z * Z * bool) :=
  let '(base, next, advanced) := st in
  if (next >? 0) && (next <=? now)
  then inl (next, calcNextResetTime tz next plan endUnix, true)
  else inr st.

Definition catch_up (tz : Z) (plan : SubscriptionPlan) (endUnix now base : Z)
    : option (Z * Z * bool) :=
  let next := calcNextResetTime tz base plan endUnix in
  match loop (catch_up_step tz plan endUnix now) (Z.to_pos (now + 1)) (base, next, false) with
  | inl _ => None
  | inr r => Some r
  end.

(** ** Facts *)

(** A custom period whose length fits a time.Duration. *)
Definition reset_seconds_ok (plan : SubscriptionPlan) : Prop :=
  p_QuotaResetCustomSeconds plan * GoTime.Second < 2 ^ 63.

Lemma NormalizeResetPeriod_cases p :
  NormalizeResetPeriod p ∈ ["daily"; "weekly"; "monthly"; "custom"; "never"].
Proof. unfold NormalizeResetPeriod. case_decide; set_solver. Qed.

Lemma next_midnight_after tz base n :
  0 < n -> base < GoTime.AddDate tz (GoTime.start_of_day tz base) 0 0 n.
Proof.
  intros Hn. unfold GoTime.start_of_day. rewrite GoTime.AddDate_days.
  apply GoTime.midnight_after. lia.
Qed.

Lemma next_month_after tz base :
  base < GoTime.AddDate tz (GoTime.start_of_month tz base) 0 1 0.
Proof.
  unfold GoTime.start_of_month.
  pose proof (GoTime.month_of_day_bracket (GoTime.day_number tz base)) as Hb.
  destruct (GoTime.month_of_day _) as [y m].
  pose proof (GoTime.norm_month_index y (m + 1)) as Hn.
  destruct (GoTime.norm_month y (m + 1)) as [y' m']. destruct Hb as (Hm & _ & Hhi), Hn as [Hm' Hi].
  rewrite GoTime.AddDate_month by lia. apply GoTime.midnight_after.
  rewrite <- (GoTime.first_day_index y' m'), Hi in Hhi by lia.
  replace (GoTime.month_index y (m + 1)) with (GoTime.month_index y m + 1) in Hhi
    by (unfold GoTime.month_index; lia). lia.
Qed.

Lemma weekday_range tz t : 0 <= GoTime.Weekday tz t < 7.
Proof. apply Z.mod_pos_bound. lia. Qed.

(** The next reset lies strictly after its base and not after the end. *)
Lemma calcNextResetTime_after tz base plan e :
  reset_seconds_ok plan ->
  let n := calcNextResetTime tz base plan e in
  n = 0 \/ base < n /\ (0 < e -> n <= e).
Proof.
  intros Hok. unfold calcNextResetTime.
  assert (Hclip : forall next, base < next ->
    let n := if (e >? 0) && (next >? e) then 0 else next in
    n = 0 \/ base < n /\ (0 < e -> n <= e)).
  { intros next Hnext. simpl. destruct (_ && _) eqn:E; [by left|right]. split; [done|].
    intros He. apply andb_false_iff in E as [E|E]; bools; lia. }
  repeat case_decide; try by left.
  - apply Hclip, next_midnight_after. lia.
  - apply Hclip, next_midnight_after.
    pose proof (weekday_range tz base). destruct (_ =? 0); lia.
  - apply Hclip, next_month_after.
  - destruct (_ <=? 0) eqn:E; [by left|]. bools. apply Hclip.
    unfold reset_seconds_ok in Hok.
    rewrite GoTime.Add_seconds; [lia|]. unfold GoTime.Second in *. lia.
Qed.

(** The state the loop leaves with: nothing due is skipped. *)
Lemma catch_up_loop tz plan e now base :
  reset_seconds_ok plan -> 0 <= now ->
  exists b n adv, catch_up tz plan e now base = Some (b, n, adv) /\
    n = calcNextResetTime tz b plan e /\ (n <= 0 \/ now < n) /\
    (if adv then 0 < b <= now else b = base).
Proof.
  intros Hok Hnow. unfold catch_up.
  set (I := fun st : Z * Z * bool => let '(b, n, adv) := st in
              n = calcNextResetTime tz b plan e /\ (if adv then 0 < b <= now else b = base)).
  set (Q := fun st : Z * Z * bool => let '(b, n, adv) := st in
              I st /\ (n <= 0 \/ now < n)).
  (* the variant counts the instants that are still ahead *)
  set (v := fun st : Z * Z * bool => let '(b, n, adv) := st in
              if (0 <? n) && (n <=? now) then now - n + 1 else 0).
  destruct (loop_terminates (catch_up_step tz plan e now) I Q v (Z.to_pos (now + 1))
    (base, calcNextResetTime tz base plan e, false)) as ([[b n] adv] & -> & HI & Hn).
  - intros [[b n] adv] [-> Hadv]. unfold catch_up_step.
    set (n := calcNextResetTime tz b plan e) in *.
    destruct ((n >? 0) && (n <=? now)) eqn:E.
    + bools. split; [split; [done|simpl; lia]|].
      assert (Hv : v (b, n, adv) = now - n + 1).
      { unfold v. assert ((0 <? n) = true) as -> by (apply Z.ltb_lt; lia).
        assert ((n <=? now) = true) as -> by (apply Z.leb_le; lia). done. }
      rewrite Hv. unfold v.
      destruct (calcNextResetTime_after tz n plan e Hok) as [->|[Hgt _]]; [simpl; lia|].
      destruct ((_ <? _) && _) eqn:E2; bools; lia.
    + split; [done|]. apply andb_false_iff in E as [E|E]; bools; lia.
  - done.
  - unfold v. rewrite Z2Pos.id by lia. destruct (_ && _) eqn:E; bools; lia.
  - exists b, n, adv. destruct HI. done.
Qed.

Lemma AddDate_months_after tz t y m :
  0 < 12 * y + m -> t < GoTime.AddDate tz t y m 0.
Proof.
  intros Hym. unfold GoTime.AddDate, GoTime.day_of_month.
  pose proof (GoTime.month_of_day_bracket (GoTime.day_number tz t)) as Hb.
  set (dn := GoTime.day_number tz t) in *. destruct (GoTime.month_of_day dn) as [y0 m0].
  pose proof (GoTime.norm_month_index y0 (m0 + 1)) as Hn1.
  pose proof (GoTime.norm_month_index (y0 + y) (m0 + m)) as Hn2.
  destruct (GoTime.norm_month y0 (m0 + 1)) as [y1 m1], (GoTime.norm_month _ _) as [y2 m2].
  destruct Hb as (Hm0 & Hlo & Hhi), Hn1 as [Hm1 Hi1], Hn2 as [Hm2 Hi2].
  rewrite <- (GoTime.first_day_index y1 m1) in Hhi by lia.
  rewrite <- (GoTime.first_day_index y2 m2) by lia.
  assert (Hle : GoTime.first_day (GoTime.month_index y1 m1)
                <= GoTime.first_day (GoTime.month_index y2 m2)).
  { destruct (Z.eq_dec (GoTime.month_index y1 m1) (GoTime.month_index y2 m2)) as [->|Hne]; [lia|].
    apply Z.lt_le_incl, GoTime.first_day_mono. unfold GoTime.month_index in *. lia. }
  assert (0 <= GoTime.seconds_of_day tz t) by (apply Z.mod_pos_bound; unfold GoTime.day_seconds; lia).
  set (d := GoTime.first_day (GoTime.month_index y2 m2) + _ - 1 + 0).
  pose proof (GoTime.midnight_after tz t d ltac:(unfold d; lia)). lia.
Qed.

Lemma Add_units t n k :
  0 < n -> 1 <= k -> n * (k * GoTime.Second) < 2 ^ 63 ->
  GoTime.Add t (GoTime.Duration n (k * GoTime.Second)) = t + n * k.
Proof.
  intros Hn Hk Hb. unfold GoTime.Duration. rewrite Z.mul_assoc in *.
  apply GoTime.Add_seconds. unfold GoTime.Second in *. lia.
Qed.

(** ** Properties *)

(** A period whose length fits a time.Duration (292 years). *)
Definition duration_ok (plan : SubscriptionPlan) : Prop :=
  (p_DurationUnit plan = "day" -> p_DurationValue plan * 24 * GoTime.Hour < 2 ^ 63) /\
  (p_DurationUnit plan = "hour" -> p_DurationValue plan * GoTime.Hour < 2 ^ 63) /\
  (p_DurationUnit plan = "custom" -> p_CustomSeconds plan * GoTime.Second < 2 ^ 63).

(** A purchased period ends strictly after it starts, for every unit, across
    month ends and leap years; day, hour and custom lengths are exact.  The call
    fails exactly when the plan has no positive length or an unknown unit. *)
Theorem calcPlanEndTime_spec tz start plan :
  duration_ok plan ->
  match calcPlanEndTime tz start plan with
  | Ok e => start < e /\
      (p_DurationUnit plan = "day" -> e = start + p_DurationValue plan * 86400) /\
      (p_DurationUnit plan = "hour" -> e = start + p_DurationValue plan * 3600) /\
      (p_DurationUnit plan = "custom" -> e = start + p_CustomSeconds plan)
  | Err _ => p_DurationValue plan <= 0 \/
      p_DurationUnit plan ∉ ["year"; "month"; "day"; "hour"; "custom"] \/
      p_CustomSeconds plan <= 0
  end.
Proof.
  intros (Hday & Hhour & Hcustom). unfold calcPlanEndTime.
  destruct ((_ <=? 0) && _) eqn:Hv; [bools; lia|].
  assert (Hpos : p_DurationUnit plan <> "custom" -> 0 < p_DurationValue plan).
  { intros Hne. apply andb_false_iff in Hv as [Hv|Hv]; bools; [lia|done]. }
  unfold GoTime.Hour in *.
  set (u := p_DurationUnit plan) in *. clearbody u.
  destruct (decide (u = "year")) as [->|H1]; [|destruct (decide (u = "month")) as [->|H2];
    [|destruct (decide (u = "day")) as [->|H3]; [|destruct (decide (u = "hour")) as [->|H4];
    [|destruct (decide (u = "custom")) as [->|H5]]]]]; try (specialize (Hpos ltac:(done))).
  - split; [apply AddDate_months_after; lia|done].
  - split; [apply AddDate_months_after; lia|done].
  - rewrite Add_units by (try lia; by apply Hday). split; [lia|]. split; [lia|done].
  - rewrite Add_units by (try lia; by apply Hhour). split; [lia|]. split; [done|]. split; [lia|done].
  - destruct (p_CustomSeconds plan <=? 0) eqn:Hc; bools; [lia|].
    rewrite GoTime.Add_seconds by (specialize (Hcustom eq_refl); unfold GoTime.Second in *; lia).
    split; [lia|]. split; [done|]. split; [done|lia].
  - right. left. set_solver.
Qed.

Lemma calcPlanEndTime_witness :
  duration_ok sample_plan /\
  match calcPlanEndTime 28800 1706659200 sample_plan with
  | Ok e => 1706659200 < e | Err _ => False
  end.
Proof.
  split; [by repeat split|].
  pose proof (calcPlanEndTime_spec 28800 1706659200 sample_plan ltac:(by repeat split)) as H.
  vm_compute in H |- *. apply H.
Defined.

(** The quota reset loop ends, whatever resets were missed: it stops at a
    base that is the original one or a reset instant not after [now], with the
    next reset strictly in the future (or none left before the end). *)
Theorem catch_up_terminates tz plan endUnix now base :
  reset_seconds_ok plan -> 0 <= now ->
  exists b n adv, catch_up tz plan endUnix now base = Some (b, n, adv) /\
    n = calcNextResetTime tz b plan endUnix /\
    (n <= 0 \/ now < n /\ b < n /\ (0 < endUnix -> n <= endUnix)) /\
    (if adv then 0 < b <= now else b = base).
Proof.
  intros Hok Hnow.
  destruct (catch_up_loop tz plan endUnix now base Hok Hnow) as (b & n & adv & Hc & Hn & Hs & Hb).
  exists b, n, adv. repeat split; try done.
  pose proof (calcNextResetTime_after tz b plan endUnix Hok) as Ha. rewrite <- Hn in Ha.
  destruct Ha as [->|[Ha He]]; [by left|]. destruct Hs as [Hs|Hs]; [by left|by right].
Qed.

Lemma catch_up_witness :
  reset_seconds_ok sample_plan /\
  exists b n adv, catch_up 28800 sample_plan 2000000000 1700000000 1699000000 = Some (b, n, adv) /\
    n = calcNextResetTime 28800 b sample_plan 2000000000.
Proof.
  split; [vm_compute; reflexivity|].
  destruct (catch_up_terminates 28800 sample_plan 2000000000 1700000000 1699000000
    ltac:(vm_compute; reflexivity) ltac:(lia)) as (b & n & adv & H1 & H2 & _).
  exists b, n, adv. split; [exact H1|exact H2].
Defined.

Definition overflow_plan : SubscriptionPlan :=
  sample_plan <| p_QuotaResetPeriod := "custom" |> <| p_QuotaResetCustomSeconds := 2 ^ 55 |>.

Lemma overflow_plan_stuck base : calcNextResetTime 0 base overflow_plan 0 = base.
Proof.
  unfold calcNextResetTime.
  change (NormalizeResetPeriod (p_QuotaResetPeriod overflow_plan)) with "custom".
  repeat case_decide; try done. cbn [p_QuotaResetCustomSeconds overflow_plan].
  change (GoTime.Duration (p_QuotaResetCustomSeconds overflow_plan) GoTime.Second) with 0.
  change (p_QuotaResetCustomSeconds overflow_plan <=? 0) with false. simpl.
  unfold GoTime.Add. rewrite Z.add_0_r. by apply Z.div_mul.
Qed.

(** Without the bound on the custom period the loop can run for ever: a
    period of 2^55 seconds passes the admin check (greater than 0), its
    time.Duration wraps to 0, and the next reset equals its base at every
    iteration. *)
Theorem catch_up_diverges now base p :
  0 < base <= now ->
  exists st, loop (catch_up_step 0 overflow_plan 0 now) p
               (base, calcNextResetTime 0 base overflow_plan 0, false) = inl st.
Proof.
  intros Hb. rewrite overflow_plan_stuck.
  apply (loop_forever _ (fun st => st.1.2 = base)); [|done].
  intros [[b n] adv] Hn. simpl in Hn. subst n. unfold catch_up_step.
  assert ((base >? 0) = true) as -> by (apply Z.gtb_lt; lia).
  assert ((base <=? now) = true) as -> by (apply Z.leb_le; lia). simpl.
  eexists. split; [done|]. simpl. apply overflow_plan_stuck.
Qed.

Lemma catch_up_diverges_witness :
  0 < 1000 <= 2000 /\
  exists st, loop (catch_up_step 0 overflow_plan 0 2000) 5
               (1000, calcNextResetTime 0 1000 overflow_plan 0, false) = inl st.
Proof. split; [lia|]. apply (catch_up_diverges 2000 1000 5). lia. Defined.
