(* ===== verification/Subscription.v ===== *)
(** * Subscription quota (src/model/subscription.go)

    Plans and their cache, quota resets, and the pre-consume / post-consume /
    refund protocol keyed by the request id. *)

From S2P Require Import Prelude GoStd GoFloat World Sample ModelUtils UserModel SubscriptionTime.

(** ** Queries *)

(** ORDER BY: a list of integer sort keys, compared lexicographically. *)
Fixpoint lex_le (a b : list Z) : bool :=
  match a, b with
  | x :: a', y :: b' => (x <? y) || ((x =? y) && lex_le a' b')
  | _, _ => true
  end.
Definition key_le {A} (key : A -> list Z) (a b : A) : Prop := lex_le (key a) (key b) = true.
#[export] Instance key_le_dec {A} (key : A -> list Z) : RelDecision (key_le key).
Proof. intros a b. unfold key_le. apply bool_eq_dec. Defined.
Definition order_by {A} (key : A -> list Z) (l : list A) : list A := merge_sort (key_le key) l.

(** LIMIT num OFFSET startIdx; a negative limit is none. *)
Definition page {A} (startIdx num : Z) (l : list A) : list A :=
  let l := drop (Z.to_nat startIdx) l in
  if num <? 0 then l else take (Z.to_nat num) l.

Definition all_subs (d : DB) : list UserSubscription := snd <$> map_to_list (d_subs d).
Definition where_subs (cond : UserSubscription -> bool) (d : DB) : list UserSubscription :=
  List.filter cond (all_subs d).

(** user_id = ? AND status = 'active' AND end_time > ? *)
Definition active_for (userId now : Z) (s : UserSubscription) : bool :=
  (s_UserId s =? userId) && bool_decide (s_Status s = "active") && (s_EndTime s >? now).

Definition end_asc (s : UserSubscription) : list Z := [s_EndTime s; s_Id s].
Definition end_desc (s : UserSubscription) : list Z := [- s_EndTime s; - s_Id s].

(** ** Writes; the BeforeUpdate hooks stamp updated_at *)

Definition put_sub (s : UserSubscription) (d : DB) : DB :=
  d <| d_subs := <[s_Id s := s]> (d_subs d) |>.
Definition SaveSub (h : handle) (s : UserSubscription) : MW unit :=
  now ← GetTimestamp;
  db_exec h (put_sub (s <| s_UpdatedAt := now |>)).

Definition put_record (r : PreConsumeRecord) (d : DB) : DB :=
  d <| d_records := <[r_RequestId r := r]> (d_records d) |>.
Definition SaveRecord (h : handle) (r : PreConsumeRecord) : MW unit :=
  now ← GetTimestamp;
  db_exec h (put_record (r <| r_UpdatedAt := now |>)).
(** Create: request_id is a unique index. *)
Definition CreateRecord (h : handle) (r : PreConsumeRecord) : MW unit :=
  now ← GetTimestamp;
  old ← db_find h (fun d => d_records d !! r_RequestId r);
  match old with
  | Some _ => fail ErrDuplicatedKey
  | None => modify (exec_write h (put_record (r <| r_CreatedAt := now |> <| r_UpdatedAt := now |>)))
  end.

(** src/model/db_time.go: database time, application time when that fails. *)
Definition GetDBTimestamp : MW Z :=
  r ← attempt ext_call;
  ts ← gets w_dbnow;
  now ← gets w_now;
  mret (match r with Err _ => now | Ok _ => if ts <=? 0 then now else ts end).

(** ** Plans and the plan caches

    The hybrid cache lives in Redis when Redis is on, in memory otherwise;
    entries expire or are evicted at any time, so [w_plan_cache] is whatever
    survives. *)

Definition NormalizeDefaults (p : SubscriptionPlan) : SubscriptionPlan :=
  p <| p_AllowBalancePay := Some (default true (p_AllowBalancePay p)) |>
    <| p_AllowWalletOverflow := Some (default true (p_AllowWalletOverflow p)) |>.

Definition subscriptionPlanCacheKey (id : Z) : string := if id <=? 0 then "" else pretty id.

Definition cache_call : MW unit :=
  redis ← gets (fun w => RedisEnabled (w_cfg w));
  if redis : bool then ext_call else mret tt.

Definition plan_cache_get (id : Z) : MW (option SubscriptionPlan) :=
  r ← attempt cache_call;
  match r with
  | Ok _ => gets (fun w => w_plan_cache w !! id)
  | Err _ => mret None
  end.
Definition plan_cache_set (id : Z) (p : SubscriptionPlan) : MW unit :=
  ignore_err (cache_call ;; modify (fun w => w <| w_plan_cache := <[id := p]> (w_plan_cache w) |>)).

Definition InvalidateSubscriptionPlanCache (planId : Z) : MW unit :=
  if planId <=? 0 then mret tt
  else
    ignore_err (cache_call ;;
      modify (fun w => w <| w_plan_cache := delete planId (w_plan_cache w) |>)) ;;
    ignore_err (cache_call ;; modify (fun w => w <| w_plan_info_cache := ∅ |>)).

Definition getSubscriptionPlanByIdTx (h : handle) (id : Z) : MW SubscriptionPlan :=
  guard_err (id <=? 0) (ErrNew "invalid plan id") ;;
  cached ← plan_cache_get id;
  match cached with
  | Some p => mret (NormalizeDefaults p)
  | None =>
      p ← db_first h (fun d => d_plans d !! id);
      plan_cache_set id (NormalizeDefaults p) ;;
      mret (NormalizeDefaults p)
  end.

Definition GetSubscriptionPlanById (id : Z) : MW SubscriptionPlan := getSubscriptionPlanByIdTx HDB id.

Definition CountUserSubscriptionsByPlan (userId planId : Z) : MW Z :=
  guard_err ((userId <=? 0) || (planId <=? 0)) (ErrNew "invalid userId or planId") ;;
  db_find HDB (fun d => Z.of_nat (length
    (where_subs (fun s => (s_UserId s =? userId) && (s_PlanId s =? planId)) d))).

Definition GetAllActiveUserSubscriptions (userId : Z) : MW (list UserSubscription) :=
  guard_err (userId <=? 0) (ErrNew "invalid userId") ;;
  now ← GetTimestamp;
  db_find HDB (fun d => order_by end_desc (where_subs (active_for userId now) d)).

Definition HasActiveUserSubscription (userId : Z) : MW bool :=
  guard_err (userId <=? 0) (ErrNew "invalid userId") ;;
  now ← GetTimestamp;
  count ← db_find HDB (fun d => Z.of_nat (length (where_subs (active_for userId now) d)));
  mret (count >? 0).

Definition UserActiveSubscriptionsAllowWalletOverflow (userId : Z) : MW bool :=
  guard_err (userId <=? 0) (ErrNew "invalid userId") ;;
  now ← GetTimestamp;
  strictCount ← db_find HDB (fun d => Z.of_nat (length
    (where_subs (fun s => active_for userId now s && negb (s_AllowWalletOverflow s)) d)));
  mret (strictCount =? 0).

Definition GetAllUserSubscriptions (userId : Z) : MW (list UserSubscription) :=
  guard_err (userId <=? 0) (ErrNew "invalid userId") ;;
  db_find HDB (fun d => order_by end_desc (where_subs (fun s => s_UserId s =? userId) d)).

(** ** Quota resets *)

(** The new state of the row, or [None] when nothing has to be saved. *)
Definition reset_plan (tz : Z) (sub : UserSubscription) (plan : SubscriptionPlan) (now : Z)
    : result error (option UserSubscription) :=
  if (s_NextResetTime sub >? 0) && (s_NextResetTime sub >? now) then Ok None
  else if decide (NormalizeResetPeriod (p_QuotaResetPeriod plan) = "never") then Ok None
  else
    let baseUnix := if s_LastResetTime sub <=? 0 then s_StartTime sub else s_LastResetTime sub in
    match catch_up tz plan (s_EndTime sub) now baseUnix with
    | None => Err ErrDiverge
    | Some (base, next, advanced) =>
        if negb advanced then
          if (s_NextResetTime sub =? 0) && (next >? 0) then
            Ok (Some (sub <| s_NextResetTime := next |> <| s_LastResetTime := base |>))
          else Ok None
        else
          Ok (Some (sub <| s_AmountUsed := 0 |> <| s_LastResetTime := base |>
                        <| s_NextResetTime := next |>))
    end.

Definition maybeResetUserSubscriptionWithPlanTx (h : handle) (sub : UserSubscription)
    (plan : SubscriptionPlan) (now : Z) : MW UserSubscription :=
  tz ← gets (fun w => TimeZone (w_cfg w));
  r ← of_result (reset_plan tz sub plan now);
  match r with
  | None => mret sub
  | Some sub' => SaveSub h sub' ;; mret sub'
  end.

(** ** Pre-consume *)

Record SubscriptionPreConsumeResult := mkPreResult {
  pr_UserSubscriptionId : Z;
  pr_PreConsumed : Z;
  pr_AmountTotal : Z;
  pr_AmountUsedBefore : Z;
  pr_AmountUsedAfter : Z;
}.

Definition refunded_error : error := ErrNew "subscription pre-consume already refunded".

(** [remain < amount], for a limited subscription *)
Definition lacks (sub : UserSubscription) (amount : Z) : bool :=
  (s_AmountTotal sub >? 0) && (s_AmountTotal sub - s_AmountUsed sub <? amount).

Definition consume_from (requestId : string) (userId amount : Z) (sub : UserSubscription)
    : MW SubscriptionPreConsumeResult :=
  created ← attempt (CreateRecord HTX
    (mkPreRecord requestId userId (s_Id sub) amount "consumed" 0 0));
  match created with
  | Err e =>
      dup ← attempt (db_first HTX (fun d => d_records d !! requestId));
      match dup with
      | Ok dup =>
          guard_err (bool_decide (r_Status dup = "refunded")) refunded_error ;;
          mret (mkPreResult (s_Id sub) (r_PreConsumed dup) (s_AmountTotal sub)
                  (s_AmountUsed sub) (s_AmountUsed sub))
      | Err _ => fail e
      end
  | Ok _ =>
      SaveSub HTX (sub <| s_AmountUsed := s_AmountUsed sub + amount |>) ;;
      mret (mkPreResult (s_Id sub) amount (s_AmountTotal sub) (s_AmountUsed sub)
              (s_AmountUsed sub + amount))
  end.

Fixpoint try_candidates (requestId : string) (userId amount now : Z)
    (subs : list UserSubscription) : MW SubscriptionPreConsumeResult :=
  match subs with
  | [] => fail (ErrNew ("subscription quota insufficient, need=" +:+ pretty amount))
  | candidate :: rest =>
      plan ← getSubscriptionPlanByIdTx HTX (s_PlanId candidate);
      sub ← maybeResetUserSubscriptionWithPlanTx HTX candidate plan now;
      if lacks sub amount then try_candidates requestId userId amount now rest
      else consume_from requestId userId amount sub
  end.

Definition pre_consume_tx (requestId : string) (userId amount now : Z)
    : MW SubscriptionPreConsumeResult :=
  existing ← db_find HTX (fun d => d_records d !! requestId);
  match existing with
  | Some existing =>
      guard_err (bool_decide (r_Status existing = "refunded")) refunded_error ;;
      sub ← db_first HTX (fun d => d_subs d !! r_UserSubscriptionId existing);
      mret (mkPreResult (s_Id sub) (r_PreConsumed existing) (s_AmountTotal sub)
              (s_AmountUsed sub) (s_AmountUsed sub))
  | None =>
      subs ← map_err (fun _ => ErrNew "no active subscription")
               (db_find HTX (fun d => order_by end_asc (where_subs (active_for userId now) d)));
      guard_err (bool_decide (subs = [])) (ErrNew "no active subscription") ;;
      try_candidates requestId userId amount now subs
  end.

Definition PreConsumeUserSubscription (requestId : string) (userId : Z) (modelName : string)
    (quotaType amount : Z) : MW SubscriptionPreConsumeResult :=
  guard_err (userId <=? 0) (ErrNew "invalid userId") ;;
  guard_err (bool_decide (GoStrings.TrimSpace requestId = "")) (ErrNew "requestId is empty") ;;
  guard_err (amount <=? 0) (ErrNew "amount must be > 0") ;;
  now ← GetDBTimestamp;
  Transaction (pre_consume_tx requestId userId amount now).

(** ** Post-consume and refund *)

Definition PostConsumeUserSubscriptionDelta (userSubscriptionId delta : Z) : MW unit :=
  guard_err (userSubscriptionId <=? 0) (ErrNew "invalid userSubscriptionId") ;;
  if delta =? 0 then mret tt
  else Transaction (
    sub ← db_first HTX (fun d => d_subs d !! userSubscriptionId);
    let newUsed := s_AmountUsed sub + delta in
    let newUsed := if newUsed <? 0 then 0 else newUsed in
    guard_err ((s_AmountTotal sub >? 0) && (newUsed >? s_AmountTotal sub))
      (ErrNew ("subscription used exceeds total, used=" +:+ pretty newUsed +:+ " total="
               +:+ pretty (s_AmountTotal sub))) ;;
    SaveSub HTX (sub <| s_AmountUsed := newUsed |>)).

(** The inner call opens its own transaction on the global DB. *)
Definition RefundSubscriptionPreConsume (requestId : string) : MW unit :=
  guard_err (bool_decide (GoStrings.TrimSpace requestId = "")) (ErrNew "requestId is empty") ;;
  Transaction (
    record ← db_first HTX (fun d => d_records d !! requestId);
    if decide (r_Status record = "refunded") then mret tt
    else if r_PreConsumed record <=? 0 then SaveRecord HTX (record <| r_Status := "refunded" |>)
    else
      PostConsumeUserSubscriptionDelta (r_UserSubscriptionId record) (- r_PreConsumed record) ;;
      SaveRecord HTX (record <| r_Status := "refunded" |>)).

(** ** Maintenance *)

(** The counter survives an error; the error stops the loop. *)
Fixpoint reset_each (now : Z) (subs : list UserSubscription) (resetCount : Z)
    : MW (Z * option error) :=
  match subs with
  | [] => mret (resetCount, None)
  | sub :: rest =>
      plan ← attempt (getSubscriptionPlanByIdTx HDB (s_PlanId sub));
      match plan with
      | Err _ => reset_each now rest resetCount
      | Ok plan =>
          '(n, r) ← TransactionC 0 (
            locked ← attempt (db_first HTX (fun d =>
              match d_subs d !! s_Id sub with
              | Some s => if (s_NextResetTime s >? 0) && (s_NextResetTime s <=? now)
                          then Some s else None
              | None => None
              end));
            match locked with
            | Err _ => mret 0
            | Ok locked =>
                maybeResetUserSubscriptionWithPlanTx HTX locked plan now ;; mret 1
            end) (fun _ => mret tt);
          match r with
          | Ok _ => reset_each now rest (resetCount + n)
          | Err e => mret (resetCount + n, Some e)
          end
      end
  end.

Definition ResetDueSubscriptions (limit : Z) : MW (Z * option error) :=
  let limit := if limit <=? 0 then 200 else limit in
  now ← GetDBTimestamp;
  subs ← attempt (db_find HDB (fun d => take (Z.to_nat limit)
    (order_by (fun s => [s_NextResetTime s]) (where_subs (fun s =>
       (s_NextResetTime s >? 0) && (s_NextResetTime s <=? now)
       && bool_decide (s_Status s = "active")) d))));
  match subs with
  | Err e => mret (0, Some e)
  | Ok subs => reset_each now subs 0
  end.

Definition CleanupSubscriptionPreConsumeRecords (olderThanSeconds : Z) : MW Z :=
  let olderThanSeconds := if olderThanSeconds <=? 0 then 7 * 24 * 3600 else olderThanSeconds in
  ts ← GetDBTimestamp;
  let cutoff := ts - olderThanSeconds in
  let old (r : PreConsumeRecord) := r_UpdatedAt r <? cutoff in
  n ← db_find HDB (fun d => Z.of_nat (length (List.filter old (snd <$> map_to_list (d_records d)))));
  modify (exec_write HDB (fun d =>
    d <| d_records := filter (fun kr : string * PreConsumeRecord => old kr.2 = false) (d_records d) |>)) ;;
  mret n.

Definition GetSubscriptionPlanInfoByUserSubscriptionId (userSubscriptionId : Z) : MW (Z * string) :=
  guard_err (userSubscriptionId <=? 0) (ErrNew "invalid userSubscriptionId") ;;
  cached ← attempt cache_call;
  hit ← gets (fun w => match cached with
                       | Ok _ => w_plan_info_cache w !! userSubscriptionId
                       | Err _ => None
                       end);
  match hit with
  | Some info => mret info
  | None =>
      sub ← db_first HDB (fun d => d_subs d !! userSubscriptionId);
      plan ← getSubscriptionPlanByIdTx HDB (s_PlanId sub);
      let info := (s_PlanId sub, p_Title plan) in
      ignore_err (cache_call ;; modify (fun w =>
        w <| w_plan_info_cache := <[userSubscriptionId := info]> (w_plan_info_cache w) |>)) ;;
      mret info
  end.
