(* ===== verification/ChannelModel.v ===== *)
(** * Channels (src/model/channel.go, first half)

    A channel is an upstream account.  This file has its attributes, the keys of a
    multi-key channel and the choice of the next one, sorting and filtering, and
    the queries; the writes are in [ChannelAdmin]. *)

From S2P Require Import Prelude GoStd GoFloat World ModelUtils TokenModel SubscriptionTime Subscription AdvancedCustom.
Import GoStrings GoText.

Definition ChannelStatusUnknown : Z := 0.
Definition ChannelStatusEnabled : Z := 1.
Definition ChannelStatusManuallyDisabled : Z := 2.
Definition ChannelStatusAutoDisabled : Z := 3.
Definition MultiKeyModeRandom : string := "random".
Definition MultiKeyModePolling : string := "polling".
Definition ChannelTypeAdvancedCustom : Z := 58.

(** src/dto/channel_settings.go, type ChannelOtherSettings: the fields that routing
    reads. *)
Record ChannelOtherSettings := mkOtherSettings {
  os_ChannelRequestRateLimitCount : Z;
  os_ChannelRequestRateLimitSuccessCount : Z;
  os_AdvancedCustom : option AdvancedCustomConfig;
}.
Definition no_other_settings : ChannelOtherSettings := mkOtherSettings 0 0 None.

(** JSON decoding of the text columns (package encoding/json).  A failing decode can have filled
    a part of the struct. *)
Class ChannelJson := {
  parse_keys : string -> option (list string);       (** []json.RawMessage *)
  parse_other_settings : string -> ChannelOtherSettings * option error;
  parse_setting_error : string -> option error;      (** of dto.ChannelSettings *)
  put_status_info : string -> string -> Z -> string; (** other_info with status_reason and status_time *)
}.

(** ** Attributes *)

Definition GetTag (c : Channel) : string := default "" (cn_Tag c).
Definition GetAutoBan (c : Channel) : bool :=
  match cn_AutoBan c with Some b => b =? 1 | None => false end.
Definition GetPriority (c : Channel) : Z := default 0 (cn_Priority c).
Definition GetWeight (c : Channel) : Z := default 0 (cn_Weight c).
Definition GetModelMapping (c : Channel) : string := default "" (cn_ModelMapping c).
Definition GetStatusCodeMapping (c : Channel) : string := default "" (cn_StatusCodeMapping c).
(** constant.ChannelBaseURLs is a table by channel type. *)
Definition GetBaseURL (ChannelBaseURLs : Z -> string) (c : Channel) : string :=
  match cn_BaseURL c with
  | None => ""
  | Some url => if decide (url = "") then ChannelBaseURLs (cn_Type c) else url
  end.

Definition newline : Ascii.ascii := Ascii.ascii_of_nat 10.
Definition comma : Ascii.ascii := Ascii.ascii_of_nat 44.

Definition GetModels (c : Channel) : list string :=
  if decide (cn_Models c = "") then [] else SplitByte (TrimByte (cn_Models c) comma) comma.
Definition GetGroups (c : Channel) : list string :=
  if decide (cn_Group c = "") then []
  else TrimSpace <$> SplitByte (TrimByte (cn_Group c) comma) comma.

(** ** Keys *)

Section keys.
Context `{ChannelJson}.

(** The keys a key text holds: a JSON array, or one per line. *)
Definition key_lines (key : string) : list string := SplitByte (TrimByte key newline) newline.
Definition GetKeys (c : Channel) : list string :=
  if decide (cn_Key c = "") then []
  else match cn_Keys c with
       | _ :: _ => cn_Keys c
       | [] =>
           let trimmed := TrimSpace (cn_Key c) in
           if HasPrefix trimmed "[" then
             match parse_keys trimmed with
             | Some keys => keys
             | None => key_lines (cn_Key c)
             end
           else key_lines (cn_Key c)
       end.
End keys.

(** The status of a key; a key without an entry is enabled. *)
Definition getStatus (statusList : gmap Z Z) (idx : Z) : Z := default ChannelStatusEnabled (statusList !! idx).
Definition key_enabled (statusList : gmap Z Z) (idx : Z) : bool := getStatus statusList idx =? ChannelStatusEnabled.
Definition indexes {A} (l : list A) : list Z := Z.of_nat <$> seq 0 (length l).
Definition enabledIdx (c : Channel) (keys : list string) : list Z :=
  List.filter (key_enabled (ci_MultiKeyStatusList (cn_ChannelInfo c))) (indexes keys).
Definition key_at (keys : list string) (idx : Z) : string := nth (Z.to_nat idx) keys "".

Definition hasEnabledMultiKey (keys : list string) (statusList : gmap Z Z) : bool :=
  existsb (key_enabled statusList) (indexes keys).

(** The scan of the polling mode: positions [start], [start + 1], ... modulo the
    number of keys. *)
Fixpoint scan_keys (n : nat) (start len : Z) (enabled : Z -> bool) : option Z :=
  match n with
  | O => None
  | S n => let idx := start mod len in
           if enabled idx then Some idx else scan_keys n (start + 1) len enabled
  end.
Definition next_polling_key (start : Z) (keys : list string) (statusList : gmap Z Z) : option Z :=
  let len := Z.of_nat (length keys) in
  let start := if (start <? 0) || (start >=? len) then 0 else start in
  scan_keys (length keys) start len (key_enabled statusList).

(** ** Channel objects *)

(** A new object, a pointer to it. *)
Definition new_channel (c : Channel) : MW positive := fun w =>
  let r := w_routing w in
  (Ok (rt_next r),
   w <| w_routing := r <| rt_heap := <[rt_next r := c]> (rt_heap r) |> <| rt_next := Pos.succ (rt_next r) |> |>).
Definition zero_info : ChannelInfo := mkChannelInfo false 0 ∅ ∅ ∅ 0 "".
Definition zero_channel : Channel :=
  mkChannel 0 0 "" None None 0 "" None 0 0 0 None "" F64.zero 0 "" "" 0 None None None None "" None None
    None None None zero_info "" [].
Definition object (w : World) (l : positive) : Channel := default zero_channel (rt_heap (w_routing w) !! l).
Definition deref (l : positive) : MW Channel := gets (fun w => object w l).
Definition assign (l : positive) (f : Channel -> Channel) : MW unit :=
  modify (fun w => w <| w_routing := w_routing w <| rt_heap := alter f l (rt_heap (w_routing w)) |> |>).

(** ** Rows *)

(** The row of an object: [Keys] is not a column. *)
Definition row_of (c : Channel) : Channel := c <| cn_Keys := [] |>.
Definition put_channel (c : Channel) (d : DB) : DB :=
  d <| d_channels := <[cn_Id c := row_of c]> (d_channels d) |>.
Definition update_channel (id : Z) (f : Channel -> Channel) (d : DB) : DB :=
  d <| d_channels := alter f id (d_channels d) |>.
Definition update_channels (cond : Channel -> bool) (f : Channel -> Channel) (d : DB) : DB :=
  d <| d_channels := (fun c => if cond c then f c else c) <$> d_channels d |>.
Definition delete_channels (cond : Channel -> bool) (d : DB) : DB :=
  d <| d_channels := filter (fun p => cond p.2 = false) (d_channels d) |>.

Definition all_channels (d : DB) : list Channel := snd <$> map_to_list (d_channels d).
Definition where_channels (cond : Channel -> bool) (d : DB) : list Channel :=
  List.filter cond (all_channels d).
(** Omit("key") *)
Definition omit_key (c : Channel) : Channel := c <| cn_Key := "" |>.

(** First(channel, "id = ?") into a new object. *)
Definition GetChannelById (id : Z) (selectAll : bool) : MW positive :=
  c ← db_first HDB (fun d => d_channels d !! id);
  new_channel (if selectAll then c else omit_key c).

(** DB.Save: the whole row, inserted when it is missing. *)
Definition SaveChannel (l : positive) : MW unit :=
  c ← deref l;
  db_exec HDB (put_channel c).
(** Omit("key").Save: a missing row cannot be inserted without its key. *)
Definition SaveWithoutKey (l : positive) : MW unit :=
  c ← deref l;
  guard_err (cn_Id c =? 0) (ErrNew "channel ID is 0") ;;
  hit ← db_update HDB (fun d => bool_decide (is_Some (d_channels d !! cn_Id c)))
          (update_channel (cn_Id c) (fun r => row_of c <| cn_Key := cn_Key r |>));
  guard_err (negb hit) (ErrDB "NOT NULL constraint failed: channels.key").
Definition SaveChannelInfo (l : positive) : MW unit :=
  c ← deref l;
  db_exec HDB (update_channel (cn_Id c) (fun r => r <| cn_ChannelInfo := cn_ChannelInfo c |>)).

Section settings.
Context `{ChannelJson}.

(** Settings that do not parse are replaced by "{}" and the object is saved. *)
Definition GetOtherSettings (l : positive) : MW ChannelOtherSettings :=
  c ← deref l;
  if decide (cn_OtherSettings c = "") then mret no_other_settings
  else
    let '(setting, err) := parse_other_settings (cn_OtherSettings c) in
    (match err with
     | Some _ => assign l (fun c => c <| cn_OtherSettings := "{}" |>) ;; ignore_err (SaveChannel l)
     | None => mret tt
     end) ;;
    mret setting.

Definition ValidateSettings (compile : string -> option (string -> bool))
    (parse_url : string -> option (string * string)) (c : Channel) : option error :=
  let setting_error := match cn_Setting c with
                       | Some s => if decide (s = "") then None else parse_setting_error s
                       | None => None
                       end in
  let '(other, other_error) := if decide (cn_OtherSettings c = "") then (no_other_settings, None)
                               else parse_other_settings (cn_OtherSettings c) in
  let missing := (cn_Type c =? ChannelTypeAdvancedCustom)
                 && negb (bool_decide (is_Some (os_AdvancedCustom other))) in
  first_error
    [setting_error; other_error;
     if missing then Some (ErrNew "advanced_custom is required") else None;
     match os_AdvancedCustom other with
     | Some config => ValidateAdvancedCustom compile parse_url (Some config)
     | None => None
     end].
End settings.

(** ** Sorting and filtering *)

Record ChannelSortOptions := mkSort { so_SortBy : string; so_SortOrder : string; so_IDSort : bool }.
Definition channelSortColumns : list string :=
  ["id"; "name"; "priority"; "balance"; "response_time"; "test_time"].

(** strings.ToLower is only compared with ASCII texts. *)
Definition NewChannelSortOptions (sortBy sortOrder : string) (idSort : bool) : ChannelSortOptions :=
  let by_ := lower_ascii (TrimSpace sortBy) in
  let order := lower_ascii (TrimSpace sortOrder) in
  if decide (by_ ∈ channelSortColumns) then
    mkSort by_ (if decide (order = "asc") then order else "desc") idSort
  else mkSort "" "" idSort.
Definition resolveChannelSortOptions (idSort : bool) (sortOptions : option ChannelSortOptions) : ChannelSortOptions :=
  match sortOptions with
  | None => NewChannelSortOptions "" "" idSort
  | Some o => mkSort (so_SortBy o) (so_SortOrder o) (so_IDSort o || idSort)
  end.
(** The column and whether it is descending. *)
Definition sort_column (o : ChannelSortOptions) : string * bool :=
  if decide (so_SortBy o ∈ channelSortColumns) then (so_SortBy o, negb (bool_decide (so_SortOrder o = "asc")))
  else if so_IDSort o then ("id", true)
  else ("priority", true).

Section queries.
(** ORDER BY a column of the table: the database's order of the values of a column,
    rows with equal values in any order. *)
Context (order_rows : string * bool -> list Channel -> list Channel).

Definition GetAllChannels (startIdx num : Z) (selectAll idSort : bool) (sortOptions : option ChannelSortOptions)
    : MW (list Channel) :=
  let column := sort_column (resolveChannelSortOptions idSort sortOptions) in
  rows ← db_find HDB (fun d => order_rows column (all_channels d));
  mret (if selectAll then rows else omit_key <$> page startIdx num rows).
Definition GetChannelsByTag (tag : string) (idSort selectAll : bool) (sortOptions : option ChannelSortOptions)
    : MW (list Channel) :=
  let column := sort_column (resolveChannelSortOptions idSort sortOptions) in
  rows ← db_find HDB (fun d => order_rows column (where_channels (fun c => bool_decide (cn_Tag c = Some tag)) d));
  mret (if selectAll then rows else omit_key <$> rows).
Definition GetChannelsByIds (ids : list Z) : MW (list Channel) :=
  db_find HDB (where_channels (fun c => bool_decide (cn_Id c ∈ ids))).
Definition GetChannelsByType (startIdx num : Z) (idSort : bool) (channelType : Z) : MW (list Channel) :=
  rows ← db_find HDB (fun d => order_rows (if idSort then ("id", true) else ("priority", true))
                                 (where_channels (fun c => cn_Type c =? channelType) d));
  mret (omit_key <$> page startIdx num rows).

Definition CountAllChannels : MW Z := db_find HDB (fun d => Z.of_nat (size (d_channels d))).
Definition CountChannelsByType (channelType : Z) : MW Z :=
  db_find HDB (fun d => Z.of_nat (length (where_channels (fun c => cn_Type c =? channelType) d))).
Definition CountChannelsGroupByType : MW (gmap Z Z) :=
  db_find HDB (fun d =>
    foldr (fun c m => <[cn_Type c := default 0 (m !! cn_Type c) + 1]> m) ∅ (all_channels d)).
Definition tagged (c : Channel) : bool :=
  match cn_Tag c with Some t => negb (bool_decide (t = "")) | None => false end.
Definition tags_of (d : DB) : gset string := list_to_set (GetTag <$> where_channels tagged d).
Definition CountAllTags : MW Z := db_find HDB (fun d => Z.of_nat (size (tags_of d))).
(** ORDER BY tag in the collation [sort_texts]. *)
Definition GetPaginatedTags (sort_texts : list string -> list string) (offset limit : Z) : MW (list string) :=
  db_find HDB (fun d => page offset limit (sort_texts (elements (tags_of d)))).

Definition NormalizeChannelGroupFilter (group : string) : string :=
  let group := TrimSpace group in
  if bool_decide (group = "") || EqualFold group "all" || EqualFold group "null" then "" else group.
Definition channelGroupFilterPattern (group : string) : string :=
  "%," +:+ ReplaceByte (ReplaceByte (ReplaceByte group bang "!!") percent "!%") underscore "!_" +:+ ",%".

(** SQL LIKE with the escape character '!', and without one. *)
Context (like : string -> string -> bool).

(** The text a LIKE ... ESCAPE '!' pattern is matched against. *)
Definition in_group_filter (like_esc : string -> string -> bool) (group : string) (c : Channel) : bool :=
  let group := NormalizeChannelGroupFilter group in
  if decide (group = "") then true
  else like_esc ("," +:+ cn_Group c +:+ ",") (channelGroupFilterPattern group).

Definition SearchChannels (like_esc : string -> string -> bool) (keyword group model : string) (idSort : bool)
    (sortOptions : option ChannelSortOptions) : MW (list Channel) :=
  let column := sort_column (resolveChannelSortOptions idSort sortOptions) in
  let id := default 0 (Atoi keyword) in
  let hit c := ((cn_Id c =? id) || like (cn_Name c) ("%" +:+ keyword +:+ "%") || bool_decide (cn_Key c = keyword)
                || like (default "" (cn_BaseURL c)) ("%" +:+ keyword +:+ "%"))
               && like (cn_Models c) ("%" +:+ model +:+ "%") && in_group_filter like_esc group c in
  rows ← db_find HDB (fun d => order_rows column (where_channels hit d));
  mret (omit_key <$> rows).
End queries.
