(* ===== verification/Ability.v ===== *)
(** * Abilities (src/model/ability.go)

    One row per group, model and channel: the table that routing reads.  This file
    has its queries, the choice of a channel in the database, and its writes. *)

From S2P Require Import Prelude GoStd World ModelUtils SubscriptionTime Subscription AdvancedCustom ChannelModel.
Import GoStrings GoText.

Definition ability_key (a : Ability) : string * string * Z := (ab_Group a, ab_Model a, ab_ChannelId a).
Definition all_abilities (d : DB) : list Ability := snd <$> map_to_list (d_abilities d).
Definition where_abilities (cond : Ability -> bool) (d : DB) : list Ability :=
  List.filter cond (all_abilities d).

(** ** Queries *)

(** A left join: a missing channel has type 0. *)
Definition with_type (d : DB) (a : Ability) : Ability * Z :=
  (a, match d_channels d !! ab_ChannelId a with Some c => cn_Type c | None => 0 end).
Definition GetAllEnableAbilityWithChannels : MW (list (Ability * Z)) :=
  db_find HDB (fun d => with_type d <$> where_abilities ab_Enabled d).
(** The errors of these queries are dropped. *)
Definition GetGroupEnabledModels (group : string) : MW (gset string) :=
  or_zero ∅ (db_find HDB (fun d => list_to_set (ab_Model <$>
    where_abilities (fun a => bool_decide (ab_Group a = group) && ab_Enabled a) d))).
Definition GetEnabledModels : MW (gset string) :=
  or_zero ∅ (db_find HDB (fun d => list_to_set (ab_Model <$> where_abilities ab_Enabled d))).
Definition GetAllEnableAbilities : MW (list Ability) :=
  or_zero [] (db_find HDB (where_abilities ab_Enabled)).

Definition getEnabledAbilitiesByGroups (groups : list string) : MW (list (Ability * Z)) :=
  db_find HDB (fun d => with_type d <$>
    where_abilities (fun a => ab_Enabled a
      && match groups with [] => true | _ => bool_decide (ab_Group a ∈ groups) end) d).

(** The models of each channel in the order of the rows, every one once. *)
Definition add_model (m : gmap Z (list string)) (a : Ability) : gmap Z (list string) :=
  let models := default [] (m !! ab_ChannelId a) in
  if decide (ab_Model a ∈ models) then m else <[ab_ChannelId a := models ++ [ab_Model a]]> m.
Definition GetEnabledModelsByChannel (groups : list string) : MW (gmap Z (list string)) :=
  r ← attempt (getEnabledAbilitiesByGroups groups);
  mret match r with
       | Ok abilities => fold_left add_model (fst <$> abilities) ∅
       | Err _ => ∅
       end.

(** ** Choosing a channel in the database *)

Definition serves (group model : string) (a : Ability) : bool :=
  bool_decide (ab_Group a = group) && bool_decide (ab_Model a = model) && ab_Enabled a.

(** The distinct priorities, descending. *)
Definition desc (l : list Z) : list Z := merge_sort Z.ge l.
Definition priorities (group model : string) (d : DB) : list Z :=
  desc (remove_dups (omap ab_Priority (where_abilities (serves group model) d))).

Definition getPriority (group model : string) (retry : Z) : MW Z :=
  ps ← db_find HDB (priorities group model);
  guard_err (bool_decide (ps = [])) (ErrNew "数据库一致性被破坏") ;;
  mret (if retry >=? Z.of_nat (length ps) then List.last ps 0 else nth (Z.to_nat retry) ps 0).

(** The rows of the query: those of the maximal priority (a subquery of the same
    statement), or of the priority of the retry. *)
Definition at_priority (group model : string) (p : option Z) (d : DB) : list Ability :=
  where_abilities (fun a => serves group model a
    && match p with Some p => bool_decide (ab_Priority a = Some p) | None => false end) d.
Definition getChannelQuery (group model : string) (retry : Z) : MW (DB -> list Ability) :=
  if retry =? 0 then mret (fun d => at_priority group model (head (priorities group model d)) d)
  else priority ← getPriority group model retry;
       mret (at_priority group model (Some priority)).

(** sort.SliceStable: insertion sort, which is what it does on blocks of up to 20
    elements and what any stable sort yields for a strict weak order. *)
Fixpoint insert_from_right {A} (less : A -> A -> bool) (x : A) (rev_sorted : list A) : list A :=
  match rev_sorted with
  | [] => [x]
  | y :: ys => if less x y then y :: insert_from_right less x ys else x :: rev_sorted
  end.
Definition SliceStable {A} (less : A -> A -> bool) (l : list A) : list A :=
  rev (fold_left (fun acc x => insert_from_right less x acc) l []).

(** Rows of the channels by id, as the map built from them. *)
Definition ability_less (channelByID : gmap Z Channel) (i j : Ability) : bool :=
  let by_weight := if negb (ab_Weight i =? ab_Weight j) then ab_Weight i >? ab_Weight j
                   else ab_ChannelId i <? ab_ChannelId j in
  match channelByID !! ab_ChannelId i, channelByID !! ab_ChannelId j with
  | Some l, Some r =>
      if negb (cn_ResponseTime l =? cn_ResponseTime r) then
        if cn_ResponseTime l =? 0 then false
        else if cn_ResponseTime r =? 0 then true
        else cn_ResponseTime l <? cn_ResponseTime r
      else by_weight
  | _, _ => by_weight
  end.

(** The first element at which the running difference is not positive. *)
Fixpoint pick_ability (weight : Z) (abilities : list Ability) : option Z :=
  match abilities with
  | [] => None
  | a :: abilities =>
      let weight := weight - (ab_Weight a + 10) in
      if weight <=? 0 then Some (ab_ChannelId a) else pick_ability weight abilities
  end.
Definition weightSum (abilities : list Ability) : Z := sumZ (fun a => ab_Weight a + 10) abilities.

Section choice.
Context `{ChannelJson} (compile : string -> option (string -> bool)).
(** rand.Intn *)
Context (Intn : Z -> Z).

(** The configurations of the Advanced Custom channels among the rows. *)
Fixpoint advanced_configs (channels : list Channel) (configs : gmap Z (option AdvancedCustomConfig))
    : MW (gmap Z (option AdvancedCustomConfig)) :=
  match channels with
  | [] => mret configs
  | c :: channels =>
      if cn_Type c =? ChannelTypeAdvancedCustom then
        l ← new_channel c;
        setting ← GetOtherSettings l;
        advanced_configs channels (<[cn_Id c := os_AdvancedCustom setting]> configs)
      else advanced_configs channels configs
  end.
Definition rows_by_id (ids : list Z) (d : DB) : list Channel :=
  where_channels (fun c => bool_decide (cn_Id c ∈ ids)) d.
Definition keeps_ability (configs : gmap Z (option AdvancedCustomConfig)) (requestPath model : string)
    (a : Ability) : bool :=
  match configs !! ab_ChannelId a with
  | None => true
  | Some config => SupportsPathForModel compile config requestPath model
  end.
Definition filterAbilitiesByRequestPathAndModel (abilities : list Ability) (requestPath model : string)
    : MW (list Ability) :=
  if bool_decide (requestPath = "") || bool_decide (abilities = []) then mret abilities
  else
    r ← attempt (db_find HDB (rows_by_id (ab_ChannelId <$> abilities)));
    match r with
    | Err _ => mret abilities
    | Ok channels =>
        configs ← advanced_configs channels ∅;
        mret (List.filter (keeps_ability configs requestPath model) abilities)
    end.

(** A failing second query leaves the order of the first. *)
Definition order_abilities (abilities : list Ability) : MW (list Ability) :=
  if (1 <? length abilities)%nat then
    r ← attempt (db_find HDB (rows_by_id (ab_ChannelId <$> abilities)));
    mret match r with
         | Ok channels =>
             SliceStable (ability_less (list_to_map ((fun c => (cn_Id c, c)) <$> channels))) abilities
         | Err _ => abilities
         end
  else mret abilities.

(** The channel and the error are both returned: when the last query fails the
    channel is an empty object with the chosen id. *)
Definition GetChannel (group model : string) (retry : Z) (requestPath : string)
    : MW (option positive * option error) :=
  r ← attempt (
    query ← getChannelQuery group model retry;
    db_find HDB (fun d => order_by (fun a => [- ab_Weight a; ab_ChannelId a]) (query d)));
  match r with
  | Err e => mret (None, Some e)
  | Ok abilities =>
      abilities ← filterAbilitiesByRequestPathAndModel abilities requestPath model;
      abilities ← order_abilities abilities;
      match abilities with
      | [] => mret (None, None)
      | _ =>
          let id := default 0 (pick_ability (Intn (weightSum abilities)) abilities) in
          r ← attempt (db_first HDB (fun d => d_channels d !! id));
          match r with
          | Ok c => l ← new_channel c; mret (Some l, None)
          | Err e => l ← new_channel (zero_channel <| cn_Id := id |>); mret (Some l, Some e)
          end
      end
  end.
End choice.

(** ** Writes *)

(** Create with the column defaults; OnConflict DoNothing keeps an old row. *)
Definition insert_ability (a : Ability) (d : DB) : DB :=
  let row : Ability := a <| ab_Priority := Some (default 0 (ab_Priority a)) |> in
  match d_abilities d !! ability_key a with
  | Some _ => d
  | None => d <| d_abilities := <[ability_key a := row]> (d_abilities d) |>
  end.
Definition insert_abilities (l : list Ability) (d : DB) : DB := fold_left (fun d a => insert_ability a d) l d.
Definition delete_abilities (cond : Ability -> bool) (d : DB) : DB :=
  d <| d_abilities := filter (fun p => cond p.2 = false) (d_abilities d) |>.
Definition update_abilities (cond : Ability -> bool) (f : Ability -> Ability) (d : DB) : DB :=
  d <| d_abilities := (fun a => if cond a then f a else a) <$> d_abilities d |>.

(** The rows of a channel, one per key of [abilitySet]. *)
Definition ability_of (c : Channel) (model group : string) : Ability :=
  mkAbility group model (cn_Id c) (cn_Status c =? ChannelStatusEnabled) (cn_Priority c) (GetWeight c) (cn_Tag c).
Fixpoint fresh_pairs (seen : list string) (pairs : list (string * string)) : list (string * string) :=
  match pairs with
  | [] => []
  | (model, group) :: pairs =>
      let key := group +:+ "|" +:+ model in
      if decide (key ∈ seen) then fresh_pairs seen pairs
      else (model, group) :: fresh_pairs (key :: seen) pairs
  end.
Definition channel_pairs (c : Channel) : list (string * string) :=
  m ← SplitByte (cn_Models c) comma; g ← SplitByte (cn_Group c) comma; [(m, g)].
Definition abilities_of (c : Channel) : list Ability :=
  (fun p => ability_of c p.1 p.2) <$> fresh_pairs [] (channel_pairs c).

(** lo.Chunk; a chunk is not empty, so the length is enough fuel. *)
Fixpoint chunk_fuel {A} (fuel n : nat) (l : list A) : list (list A) :=
  match fuel, l with
  | _, [] => []
  | O, _ => [l]
  | S fuel, _ => take n l :: chunk_fuel fuel n (drop n l)
  end.
Definition Chunk {A} (l : list A) (n : nat) : list (list A) := chunk_fuel (length l) n l.

Definition create_abilities (h : handle) (c : Channel) : MW unit :=
  forM_ (Chunk (abilities_of c) 50) (fun chunk => db_exec h (insert_abilities chunk)).
(** AddAbilities(tx), [HDB] for nil. *)
Definition AddAbilities (h : handle) (c : Channel) : MW unit := create_abilities h c.
Definition of_channel (id : Z) (a : Ability) : bool := ab_ChannelId a =? id.
Definition DeleteAbilities (c : Channel) : MW unit := db_exec HDB (delete_abilities (of_channel (cn_Id c))).

Definition update_abilities_tx (c : Channel) : MW unit :=
  db_exec HTX (delete_abilities (of_channel (cn_Id c))) ;;
  create_abilities HTX c.
(** UpdateAbilities(nil) opens its own transaction. *)
Definition UpdateAbilities (tx : bool) (c : Channel) : MW unit :=
  if tx then update_abilities_tx c else Transaction (update_abilities_tx c).

Definition UpdateAbilityStatus (channelId : Z) (status : bool) : MW unit :=
  db_exec HDB (update_abilities (of_channel channelId) (fun a => a <| ab_Enabled := status |>)).
Definition has_tag (tag : string) (a : Ability) : bool := bool_decide (ab_Tag a = Some tag).
Definition UpdateAbilityStatusByTag (tag : string) (status : bool) : MW unit :=
  db_exec HDB (update_abilities (has_tag tag) (fun a => a <| ab_Enabled := status |>)).
(** Updates(struct) skips zero fields: a weight of 0 is not written, and without a
    field nothing is executed. *)
Definition UpdateAbilityByTag (tag : string) (newTag : option string) (priority weight : option Z) : MW unit :=
  let weight := default 0 weight in
  if bool_decide (newTag = None) && bool_decide (priority = None) && (weight =? 0) then mret tt
  else db_exec HDB (update_abilities (has_tag tag) (fun a =>
    mkAbility (ab_Group a) (ab_Model a) (ab_ChannelId a) (ab_Enabled a)
      (match priority with Some p => Some p | None => ab_Priority a end)
      (if weight =? 0 then ab_Weight a else weight)
      (match newTag with Some t => Some t | None => ab_Tag a end))).
