(* ===== verification/ChannelCache.v ===== *)
(** * The channel cache (src/model/channel_cache.go) and the choice of a key

    The process keeps the enabled channels of each group and model, sorted by
    priority, and one object per channel.  [InitChannelCache] rebuilds both from the
    database; requests choose a channel among them by priority and weight, and a key
    of the channel. *)

From S2P Require Import Prelude GoStd GoFloat QuotaMath ApiError World ModelUtils SubscriptionTime Subscription AdvancedCustom ChannelModel Ability RatioSetting.
Import GoStrings GoText.

(** ** Choosing among the candidates *)

(** src/model/channel_cache.go, sortChannelsForRouting: known lower latency first,
    then the higher weight, then the lower id. *)
Definition routing_less (left_ right_ : Channel) : bool :=
  if (cn_ResponseTime left_ =? 0) && negb (cn_ResponseTime right_ =? 0) then false
  else if (cn_ResponseTime right_ =? 0) && negb (cn_ResponseTime left_ =? 0) then true
  else if negb (cn_ResponseTime left_ =? cn_ResponseTime right_) then
    cn_ResponseTime left_ <? cn_ResponseTime right_
  else if negb (GetWeight left_ =? GetWeight right_) then GetWeight left_ >? GetWeight right_
  else cn_Id left_ <? cn_Id right_.

(** Smoothing factor and adjustment of the weights: all zero count as 100 each, and
    small ones are scaled by 100. *)
Definition smoothing (sumWeight n : Z) : Z * Z * Z :=
  if sumWeight =? 0 then (n * 100, 1, 100)
  else if Z.quot sumWeight n <? 10 then (sumWeight, 100, 0)
  else (sumWeight, 1, 0).
Definition effective (factor adjustment : Z) (c : Channel) : Z := GetWeight c * factor + adjustment.

(** The first element at which the running difference is negative. *)
Fixpoint pick_weighted {A} (weight : A -> Z) (r : Z) (l : list A) : option A :=
  match l with
  | [] => None
  | x :: l => let r := r - weight x in if r <? 0 then Some x else pick_weighted weight r l
  end.

(** The target channels and their total weight, given the random number below it. *)
Definition draw_target (Intn : Z -> Z) (target : list (positive * Channel)) : option positive :=
  let sorted := SliceStable (fun a b => routing_less a.2 b.2) target in
  let '(sumWeight, factor, adjustment) :=
    smoothing (sumZ (fun p => GetWeight p.2) target) (Z.of_nat (length target)) in
  fst <$> pick_weighted (fun p => effective factor adjustment p.2) (Intn (sumWeight * factor)) sorted.

Section cache.
Context `{ChannelJson} (compile : string -> option (string -> bool)).
Context (Intn : Z -> Z).

(** The object of an id of the cache. *)
Definition cached (w : World) (id : Z) : option (positive * Channel) :=
  match rt_channelsIDM (w_routing w) !! id with
  | Some l => Some (l, object w l)
  | None => None
  end.

Definition keeps_channel (w : World) (requestPath model : string) (id : Z) : bool :=
  match cached w id with
  | None => true
  | Some (_, c) =>
      if negb (cn_Type c =? ChannelTypeAdvancedCustom) then true
      else match rt_advancedCustom (w_routing w) !! id with
           | Some config => SupportsPathForModel compile (Some config) requestPath model
           | None => false
           end
  end.
Definition filterChannelsByRequestPathAndModel (w : World) (channels : list Z) (requestPath model : string) : list Z :=
  if bool_decide (requestPath = "") || bool_decide (channels = []) then channels
  else List.filter (keeps_channel w requestPath model) channels.

Definition lookup_models (w : World) (group model : string) : list Z :=
  default [] (default ∅ (rt_group2model2channels (w_routing w) !! group) !! model).

(** The first id that is not in the cache, or the objects of all. *)
Definition inconsistent (id : Z) : error :=
  ErrNew ("数据库一致性错误，渠道# " +:+ Itoa id +:+ " 不存在，请联系管理员修复").
Fixpoint cached_all (w : World) (ids : list Z) : result error (list (positive * Channel)) :=
  match ids with
  | [] => Ok []
  | id :: ids =>
      match cached w id with
      | None => Err (inconsistent id)
      | Some p => match cached_all w ids with
                  | Ok l => Ok (p :: l)
                  | Err e => Err e
                  end
      end
  end.

(** Candidates by the exact name, else by the normalised one. *)
Definition candidates (w : World) (group model requestPath : string) : list Z :=
  match filterChannelsByRequestPathAndModel w (lookup_models w group model) requestPath model with
  | [] => filterChannelsByRequestPathAndModel w
            (lookup_models w group (FormatMatchingModelName model)) requestPath model
  | channels => channels
  end.

(** The priority of a retry: the retry-th of the distinct ones, at last the lowest. *)
Definition target_priority (retry : Z) (objects : list (positive * Channel)) : Z :=
  let sorted := desc (remove_dups ((fun p => GetPriority p.2) <$> objects)) in
  let n := Z.of_nat (length sorted) in
  nth (Z.to_nat (if retry >=? n then n - 1 else retry)) sorted 0.
Definition targets (retry : Z) (objects : list (positive * Channel)) : list (positive * Channel) :=
  List.filter (fun p => GetPriority p.2 =? target_priority retry objects) objects.

Definition pick_cached (w : World) (group model : string) (retry : Z) (requestPath : string)
    : option positive * option error :=
  match candidates w group model requestPath with
  | [] => (None, None)
  | [id] => match cached w id with
            | Some (l, _) => (Some l, None)
            | None => (None, Some (inconsistent id))
            end
  | channels =>
      match cached_all w channels with
      | Err e => (None, Some e)
      | Ok objects =>
          match targets retry objects with
          | [] => (None, Some (ErrNew ("no channel found, group: " +:+ group +:+ ", model: " +:+ model
                     +:+ ", priority: " +:+ Itoa (target_priority retry objects))))
          | target =>
              match draw_target Intn target with
              | Some l => (Some l, None)
              | None => (None, Some (ErrNew "channel not found"))
              end
          end
      end
  end.

Definition GetRandomSatisfiedChannel (group model : string) (retry : Z) (requestPath : string)
    : MW (option positive * option error) :=
  cache ← gets (fun w => MemoryCacheEnabled (w_cfg w));
  if cache : bool then gets (fun w => pick_cached w group model retry requestPath)
  else GetChannel compile Intn group model retry requestPath.

(** ** Lookups *)

Definition CacheGetChannel (id : Z) : MW positive :=
  cache ← gets (fun w => MemoryCacheEnabled (w_cfg w));
  if cache : bool then
    p ← gets (fun w => cached w id);
    match p with
    | Some (l, _) => mret l
    | None => fail (ErrNew ("渠道# " +:+ Itoa id +:+ "，已不存在"))
    end
  else GetChannelById id true.
Definition CacheGetChannelInfo (id : Z) : MW ChannelInfo :=
  l ← CacheGetChannel id;
  c ← deref l;
  mret (cn_ChannelInfo c).

(** ** Updates of the cache *)

Fixpoint remove_first (id : Z) (l : list Z) : list Z :=
  match l with
  | [] => []
  | x :: l => if x =? id then l else x :: remove_first id l
  end.
Definition CacheUpdateChannelStatus (id status : Z) : MW unit :=
  cache ← gets (fun w => MemoryCacheEnabled (w_cfg w));
  if negb cache then mret tt
  else
    p ← gets (fun w => cached w id);
    (match p with
     | Some (l, _) => assign l (fun c => c <| cn_Status := status |>)
     | None => mret tt
     end) ;;
    if status =? ChannelStatusEnabled then mret tt
    else modify (fun w => w <| w_routing := w_routing w
           <| rt_group2model2channels := fmap (M := gmap string) (remove_first id) <$>
                rt_group2model2channels (w_routing w) |> |>).

Definition set_advanced (id : Z) (config : option AdvancedCustomConfig) : MW unit :=
  modify (fun w => w <| w_routing := w_routing w
    <| rt_advancedCustom := match config with
                            | Some c => <[id := c]> (rt_advancedCustom (w_routing w))
                            | None => delete id (rt_advancedCustom (w_routing w))
                            end |> |>).
Definition CacheUpdateChannel (channel : option positive) : MW unit :=
  cache ← gets (fun w => MemoryCacheEnabled (w_cfg w));
  if negb cache then mret tt
  else match channel with
  | None => mret tt
  | Some l =>
      c ← deref l;
      modify (fun w => w <| w_routing := w_routing w
        <| rt_channelsIDM := <[cn_Id c := l]> (rt_channelsIDM (w_routing w)) |> |>) ;;
      set_advanced (cn_Id c) None ;;
      if cn_Type c =? ChannelTypeAdvancedCustom then
        setting ← GetOtherSettings l;
        match os_AdvancedCustom setting with
        | Some config => set_advanced (cn_Id c) (Some config)
        | None => mret tt
        end
      else mret tt
  end.

(** ** Rebuilding the cache *)

(** sort.Slice by descending priority; channels of equal priority in any order. *)
Context (sort_slice : (Z -> Z) -> list Z -> list Z).

Fixpoint load_objects (channels : list Channel) (idm : gmap Z positive) (advanced : gmap Z AdvancedCustomConfig)
    : MW (gmap Z positive * gmap Z AdvancedCustomConfig) :=
  match channels with
  | [] => mret (idm, advanced)
  | c :: channels =>
      l ← new_channel c;
      advanced ← (if cn_Type c =? ChannelTypeAdvancedCustom then
                    setting ← GetOtherSettings l;
                    mret (match os_AdvancedCustom setting with
                          | Some config => <[cn_Id c := config]> advanced
                          | None => advanced
                          end)
                  else mret advanced);
      load_objects channels (<[cn_Id c := l]> idm) advanced
  end.

(** Appending a channel to the list of a group and model; the map of a group that no
    ability names is nil, and an assignment to it panics. *)
Definition append_channel (id : Z) (g2m2c : gmap string (gmap string (list Z))) (gm : string * string)
    : result error (gmap string (gmap string (list Z))) :=
  match g2m2c !! gm.1 with
  | None => Err (ErrPanic "assignment to entry in nil map")
  | Some m2c => Ok (<[gm.1 := <[gm.2 := default [] (m2c !! gm.2) ++ [id]]> m2c]> g2m2c)
  end.
Fixpoint append_all (id : Z) (gms : list (string * string)) (g2m2c : gmap string (gmap string (list Z)))
    : result error (gmap string (gmap string (list Z))) :=
  match gms with
  | [] => Ok g2m2c
  | gm :: gms => match append_channel id g2m2c gm with
                 | Ok g2m2c => append_all id gms g2m2c
                 | Err e => Err e
                 end
  end.
Definition group_models (c : Channel) : list (string * string) :=
  g ← SplitByte (cn_Group c) comma; m ← SplitByte (cn_Models c) comma; [(g, m)].
Fixpoint index_channels (channels : list Channel) (g2m2c : gmap string (gmap string (list Z)))
    : result error (gmap string (gmap string (list Z))) :=
  match channels with
  | [] => Ok g2m2c
  | c :: channels =>
      if negb (cn_Status c =? ChannelStatusEnabled) then index_channels channels g2m2c
      else match append_all (cn_Id c) (group_models c) g2m2c with
           | Ok g2m2c => index_channels channels g2m2c
           | Err e => Err e
           end
  end.
Definition ability_groups (abilities : list Ability) : gmap string (gmap string (list Z)) :=
  list_to_map ((fun a => (ab_Group a, ∅)) <$> abilities).

(** What the new object of a channel takes over: its parsed keys, and the polling
    position of the old object when both poll. *)
Definition take_over (old : option Channel) (c : Channel) : Channel :=
  if negb (ci_IsMultiKey (cn_ChannelInfo c)) then c
  else
    let c : Channel := c <| cn_Keys := GetKeys c |> in
    if decide (ci_MultiKeyMode (cn_ChannelInfo c) = MultiKeyModePolling) then
      match old with
      | Some o =>
          if ci_IsMultiKey (cn_ChannelInfo o)
             && bool_decide (ci_MultiKeyMode (cn_ChannelInfo o) = MultiKeyModePolling)
          then c <| cn_ChannelInfo := cn_ChannelInfo c
                      <| ci_MultiKeyPollingIndex := ci_MultiKeyPollingIndex (cn_ChannelInfo o) |> |>
          else c
      | None => c
      end
    else c.
Definition take_over_all (idm : gmap Z positive) : MW unit :=
  forM_ (map_to_list idm) (fun p =>
    old ← gets (fun w => snd <$> cached w p.1);
    assign p.2 (take_over old)).

(** Failing queries are not noticed: they load nothing. *)
Definition InitChannelCache : MW unit :=
  cache ← gets (fun w => MemoryCacheEnabled (w_cfg w));
  if negb cache then mret tt
  else
    channels ← or_zero [] (db_find HDB all_channels);
    '(idm, advanced) ← load_objects channels ∅ ∅;
    abilities ← or_zero [] (db_find HDB all_abilities);
    g2m2c ← of_result (index_channels channels (ability_groups abilities));
    let priority id := match find (fun c => cn_Id c =? id) channels with
                       | Some c => GetPriority c
                       | None => 0
                       end in
    let sorted := fmap (M := gmap string) (sort_slice priority) <$> g2m2c in
    take_over_all idm ;;
    modify (fun w => w <| w_routing := w_routing w
      <| rt_group2model2channels := sorted |> <| rt_channelsIDM := idm |> <| rt_advancedCustom := advanced |> |>).

(** ** The next key of a channel (src/model/channel.go) *)

Definition key_error (msg : string) : NewAPIError :=
  NewError (GPlain (ErrNew msg)) ErrorCodeChannelNoAvailableKey [].

Definition GetNextEnabledKey (l : positive) : MW (result NewAPIError (string * Z)) :=
  c ← deref l;
  if negb (ci_IsMultiKey (cn_ChannelInfo c)) then mret (Ok (cn_Key c, 0))
  else
    let keys := GetKeys c in
    let statusList := ci_MultiKeyStatusList (cn_ChannelInfo c) in
    match keys, enabledIdx c keys with
    | [], _ => mret (Err (key_error "no keys available"))
    | _, [] => mret (Err (key_error "no enabled keys"))
    | _, first :: _ =>
        let enabled := enabledIdx c keys in
        if decide (ci_MultiKeyMode (cn_ChannelInfo c) = MultiKeyModeRandom) then
          let idx := nth (Z.to_nat (Intn (Z.of_nat (length enabled)))) enabled 0 in
          mret (Ok (key_at keys idx, idx))
        else if decide (ci_MultiKeyMode (cn_ChannelInfo c) = MultiKeyModePolling) then
          r ← attempt (CacheGetChannelInfo (cn_Id c));
          match r with
          | Err e => mret (Err (NewError (GPlain e) ErrorCodeGetChannelFailed [ErrOptionWithSkipRetry]))
          | Ok info =>
              let idx := next_polling_key (ci_MultiKeyPollingIndex info) keys statusList in
              (match idx with
               | Some idx => assign l (fun c => c <| cn_ChannelInfo := cn_ChannelInfo c
                   <| ci_MultiKeyPollingIndex := (idx + 1) mod Z.of_nat (length keys) |> |>)
               | None => mret tt
               end) ;;
              cache ← gets (fun w => MemoryCacheEnabled (w_cfg w));
              (if negb cache then ignore_err (SaveChannelInfo l) else mret tt) ;;
              let idx := default first idx in
              mret (Ok (key_at keys idx, idx))
          end
        else mret (Ok (key_at keys first, first))
    end.
End cache.
