(* ===== verification/ChannelAdmin.v ===== *)
(** * Administration of channels (src/model/channel.go, second half; FixAbility)

    Creating, editing and deleting channels, their status, and the tags; each keeps
    the abilities in step with the channel rows, or tries to. *)

From S2P Require Import Prelude GoStd GoFloat World ModelUtils SubscriptionTime Subscription AdvancedCustom ChannelModel Ability ChannelCache.
Import GoStrings GoText.

(** ** Creating *)

(** Create fills zero columns that have a default, in the object too. *)
Definition or_default {A} (d : A) (o : option A) : option A := Some (default d o).
Definition with_defaults (c : Channel) : Channel :=
  c <| cn_Status := if cn_Status c =? 0 then 1 else cn_Status c |>
    <| cn_Weight := or_default 0 (cn_Weight c) |>
    <| cn_BaseURL := or_default "" (cn_BaseURL c) |>
    <| cn_Group := if decide (cn_Group c = "") then "default" else cn_Group c |>
    <| cn_StatusCodeMapping := or_default "" (cn_StatusCodeMapping c) |>
    <| cn_Priority := or_default 0 (cn_Priority c) |>
    <| cn_AutoBan := or_default 1 (cn_AutoBan c) |>.

(** INSERT of one row. *)
Definition insert_channel (h : handle) (c : Channel) : MW Channel :=
  id ← (if cn_Id c =? 0 then next_id else mret (cn_Id c));
  let c : Channel := with_defaults c <| cn_Id := id |> in
  taken ← gets (fun w => bool_decide (is_Some (d_channels (view h w) !! id)));
  if taken : bool then fail ErrDuplicatedKey
  else modify (exec_write h (put_channel c)) ;; mret c.
(** Create of a slice: one statement. *)
Fixpoint insert_channels (h : handle) (cs : list Channel) : MW (list Channel) :=
  match cs with
  | [] => mret []
  | c :: cs => c ← insert_channel h c; cs ← insert_channels h cs; mret (c :: cs)
  end.
Definition create_channels (h : handle) (cs : list Channel) : MW (list Channel) :=
  ext_call ;; insert_channels h cs.

Definition BatchInsertChannels (channels : list Channel) : MW unit :=
  match channels with
  | [] => mret tt
  | _ => Transaction (forM_ (Chunk channels 50) (fun chunk =>
           created ← create_channels HTX chunk;
           forM_ created (AddAbilities HTX)))
  end.

Definition BatchDeleteChannels (ids : list Z) : MW unit :=
  match ids with
  | [] => mret tt
  | _ => Transaction (forM_ (Chunk ids 200) (fun chunk =>
           db_exec HTX (delete_channels (fun c => bool_decide (cn_Id c ∈ chunk))) ;;
           db_exec HTX (delete_abilities (fun a => bool_decide (ab_ChannelId a ∈ chunk)))))
  end.

Definition InsertChannel (l : positive) : MW unit :=
  c ← deref l;
  created ← create_channels HDB [c];
  forM_ created (fun c => assign l (fun _ => c)) ;;
  c ← deref l;
  AddAbilities HDB c.

(** ** Updating *)

(** Updates(struct): the non-zero fields of the object. *)
Definition or_kept {A} (new old : option A) : option A := match new with Some a => Some a | None => old end.
Definition text_kept (new old : string) : string := if decide (new = "") then old else new.
Definition num_kept (new old : Z) : Z := if new =? 0 then old else new.
Definition zero_channel_info (i : ChannelInfo) : bool :=
  negb (ci_IsMultiKey i) && (ci_MultiKeySize i =? 0) && bool_decide (ci_MultiKeyStatusList i = ∅)
  && bool_decide (ci_MultiKeyDisabledReason i = ∅) && bool_decide (ci_MultiKeyDisabledTime i = ∅)
  && (ci_MultiKeyPollingIndex i =? 0) && bool_decide (ci_MultiKeyMode i = "").
Definition merge_channel (c r : Channel) : Channel :=
  mkChannel (cn_Id r) (num_kept (cn_Type c) (cn_Type r)) (text_kept (cn_Key c) (cn_Key r))
    (or_kept (cn_OpenAIOrganization c) (cn_OpenAIOrganization r)) (or_kept (cn_TestModel c) (cn_TestModel r))
    (num_kept (cn_Status c) (cn_Status r)) (text_kept (cn_Name c) (cn_Name r))
    (or_kept (cn_Weight c) (cn_Weight r)) (num_kept (cn_CreatedTime c) (cn_CreatedTime r))
    (num_kept (cn_TestTime c) (cn_TestTime r)) (num_kept (cn_ResponseTime c) (cn_ResponseTime r))
    (or_kept (cn_BaseURL c) (cn_BaseURL r)) (text_kept (cn_Other c) (cn_Other r))
    (if F64.eqb (cn_Balance c) F64.zero then cn_Balance r else cn_Balance c)
    (num_kept (cn_BalanceUpdatedTime c) (cn_BalanceUpdatedTime r)) (text_kept (cn_Models c) (cn_Models r))
    (text_kept (cn_Group c) (cn_Group r)) (num_kept (cn_UsedQuota c) (cn_UsedQuota r))
    (or_kept (cn_ModelMapping c) (cn_ModelMapping r)) (or_kept (cn_StatusCodeMapping c) (cn_StatusCodeMapping r))
    (or_kept (cn_Priority c) (cn_Priority r)) (or_kept (cn_AutoBan c) (cn_AutoBan r))
    (text_kept (cn_OtherInfo c) (cn_OtherInfo r)) (or_kept (cn_Tag c) (cn_Tag r))
    (or_kept (cn_Setting c) (cn_Setting r)) (or_kept (cn_ParamOverride c) (cn_ParamOverride r))
    (or_kept (cn_HeaderOverride c) (cn_HeaderOverride r)) (or_kept (cn_Remark c) (cn_Remark r))
    (if zero_channel_info (cn_ChannelInfo c) then cn_ChannelInfo r else cn_ChannelInfo c)
    (text_kept (cn_OtherSettings c) (cn_OtherSettings r)) [].

Section admin.
Context `{ChannelJson}.

(** The keys of a key text, as Update counts them. *)
Definition count_keys (keyStr : string) : list string :=
  if decide (keyStr = "") then []
  else
    let trimmed := TrimSpace keyStr in
    let keys := if HasPrefix trimmed "[" then default [] (parse_keys trimmed) else [] in
    match keys with [] => key_lines keyStr | _ => keys end.
Definition resize (n : Z) (i : ChannelInfo) : ChannelInfo :=
  i <| ci_MultiKeySize := n |>
    <| ci_MultiKeyStatusList := filter (fun p => (p.1 <? n) = true) (ci_MultiKeyStatusList i) |>.

(** A multi-key channel counts its keys again, those of the row when it has none. *)
Definition resize_keys (l : positive) : MW unit :=
  c ← deref l;
  if ci_IsMultiKey (cn_ChannelInfo c) then
    keyStr ← (if decide (cn_Key c = "") then
                r ← attempt (GetChannelById (cn_Id c) true);
                match r with
                | Ok l' => c' ← deref l'; mret (cn_Key c')
                | Err _ => mret ""
                end
              else mret (cn_Key c));
    assign l (fun c => c <| cn_ChannelInfo :=
      resize (Z.of_nat (length (count_keys keyStr))) (cn_ChannelInfo c) |>)
  else mret tt.

Definition UpdateChannel (l : positive) : MW unit :=
  resize_keys l ;;
  c ← deref l;
  db_exec HDB (update_channel (cn_Id c) (merge_channel c)) ;;
  r ← attempt (db_first HDB (fun d => d_channels d !! cn_Id c));
  (match r with
   | Ok row => assign l (fun c => row <| cn_Keys := cn_Keys c |>)
   | Err _ => mret tt
   end) ;;
  c ← deref l;
  UpdateAbilities false c.

Definition UpdateResponseTime (l : positive) (responseTime : Z) : MW unit :=
  c ← deref l;
  now ← GetTimestamp;
  let f (c : Channel) : Channel := c <| cn_TestTime := now |> <| cn_ResponseTime := responseTime |> in
  r ← attempt (db_exec HDB (update_channel (cn_Id c) f));
  match r with Ok _ => assign l f | Err _ => mret tt end.
Definition UpdateBalance (l : positive) (balance : F64.float64) : MW unit :=
  c ← deref l;
  now ← GetTimestamp;
  let f (c : Channel) : Channel := c <| cn_BalanceUpdatedTime := now |> <| cn_Balance := balance |> in
  r ← attempt (db_exec HDB (update_channel (cn_Id c) f));
  match r with Ok _ => assign l f | Err _ => mret tt end.

Definition DeleteChannel (l : positive) : MW unit :=
  c ← deref l;
  db_exec HDB (delete_channels (fun r => cn_Id r =? cn_Id c)) ;;
  DeleteAbilities c.
Definition delete_where (cond : Channel -> bool) : MW Z :=
  ext_call ;;
  n ← gets (fun w => Z.of_nat (length (where_channels cond (w_db w))));
  modify (exec_write HDB (delete_channels cond)) ;;
  mret n.
Definition DeleteChannelByStatus (status : Z) : MW Z := delete_where (fun c => cn_Status c =? status).
Definition DeleteDisabledChannel : MW Z :=
  delete_where (fun c => (cn_Status c =? ChannelStatusAutoDisabled) || (cn_Status c =? ChannelStatusManuallyDisabled)).

(** ** Status *)

Definition stamp_status (now : Z) (reason : string) (c : Channel) : Channel :=
  c <| cn_OtherInfo := put_status_info (cn_OtherInfo c) reason now |>.
Fixpoint key_index (i : Z) (usingKey : string) (keys : list string) : option Z :=
  match keys with
  | [] => None
  | k :: keys => if decide (k = usingKey) then Some i else key_index (i + 1) usingKey keys
  end.
Definition set_key_status (now idx status : Z) (reason : string) (i : ChannelInfo) : ChannelInfo :=
  if status =? ChannelStatusEnabled then i <| ci_MultiKeyStatusList := delete idx (ci_MultiKeyStatusList i) |>
  else i <| ci_MultiKeyStatusList := <[idx := status]> (ci_MultiKeyStatusList i) |>
         <| ci_MultiKeyDisabledReason := <[idx := reason]> (ci_MultiKeyDisabledReason i) |>
         <| ci_MultiKeyDisabledTime := <[idx := now]> (ci_MultiKeyDisabledTime i) |>.

Definition multi_key_update (now : Z) (usingKey : string) (status : Z) (reason : string) (c : Channel) : Channel :=
  let keys := GetKeys c in
  match keys with
  | [] => c <| cn_Status := status |>
  | _ =>
      match key_index 0 usingKey keys with
      | None =>
          if decide (usingKey = "") then stamp_status now reason (c <| cn_Status := status |>) else c
      | Some idx =>
          let c : Channel := c <| cn_ChannelInfo := set_key_status now idx status reason (cn_ChannelInfo c) |> in
          if negb (hasEnabledMultiKey keys (ci_MultiKeyStatusList (cn_ChannelInfo c))) then
            stamp_status now "All keys are disabled" (c <| cn_Status := ChannelStatusAutoDisabled |>)
          else if status =? ChannelStatusEnabled then c <| cn_Status := ChannelStatusEnabled |>
          else c
      end
  end.
Definition handlerMultiKeyUpdate (l : positive) (usingKey : string) (status : Z) (reason : string) : MW unit :=
  now ← GetTimestamp;
  assign l (multi_key_update now usingKey status reason).

(** The cached object first: whether the database is to be updated. *)
Definition update_cached_status (channelId : Z) (usingKey : string) (status : Z) (reason : string) : MW bool :=
  r ← attempt (CacheGetChannel channelId);
  match r with
  | Err _ => mret false
  | Ok l =>
      c ← deref l;
      if ci_IsMultiKey (cn_ChannelInfo c) then
        handlerMultiKeyUpdate l usingKey status reason ;;
        c' ← deref l;
        (if negb (cn_Status c =? cn_Status c') then CacheUpdateChannelStatus channelId (cn_Status c')
         else mret tt) ;;
        mret true
      else if cn_Status c =? status then mret false
      else CacheUpdateChannelStatus channelId status ;; mret true
  end.

(** The object of the row gets the new status; whether the abilities follow. *)
Definition set_row_status (l : positive) (usingKey : string) (status : Z) (reason : string) : MW bool :=
  c ← deref l;
  if ci_IsMultiKey (cn_ChannelInfo c) then
    handlerMultiKeyUpdate l usingKey status reason ;;
    c' ← deref l;
    mret (negb (cn_Status c =? cn_Status c'))
  else
    now ← GetTimestamp;
    assign l (fun c => stamp_status now reason (c <| cn_Status := status |>)) ;;
    mret true.
(** The row second; the abilities are updated by a deferred call, whatever the save does. *)
Definition update_status_row (channelId : Z) (usingKey : string) (status : Z) (reason : string) : MW bool :=
  r ← attempt (GetChannelById channelId true);
  match r with
  | Err _ => mret false
  | Ok l =>
      c ← deref l;
      if cn_Status c =? status then mret false
      else
        shouldUpdateAbilities ← set_row_status l usingKey status reason;
        r ← attempt (SaveWithoutKey l);
        (if shouldUpdateAbilities : bool
         then ignore_err (UpdateAbilityStatus channelId (status =? ChannelStatusEnabled)) else mret tt) ;;
        mret (match r with Ok _ => true | Err _ => false end)
  end.
Definition UpdateChannelStatus (channelId : Z) (usingKey : string) (status : Z) (reason : string) : MW bool :=
  cache ← gets (fun w => MemoryCacheEnabled (w_cfg w));
  continue ← (if cache : bool then update_cached_status channelId usingKey status reason else mret true);
  if negb continue then mret false else update_status_row channelId usingKey status reason.

(** ** Tags *)

Definition tagged_as (tag : string) (c : Channel) : bool := bool_decide (cn_Tag c = Some tag).
Definition EnableChannelByTag (tag : string) : MW unit :=
  db_exec HDB (update_channels (tagged_as tag) (fun c => c <| cn_Status := ChannelStatusEnabled |>)) ;;
  UpdateAbilityStatusByTag tag true.
Definition DisableChannelByTag (tag : string) : MW unit :=
  db_exec HDB (update_channels (tagged_as tag) (fun c => c <| cn_Status := ChannelStatusManuallyDisabled |>)) ;;
  UpdateAbilityStatusByTag tag false.

Record TagEdit := mkTagEdit {
  tg_newTag : option string;
  tg_modelMapping : option string;
  tg_models : option string;
  tg_group : option string;
  tg_priority : option Z;
  tg_weight : option Z;
  tg_paramOverride : option string;
  tg_headerOverride : option string;
}.
Definition given (o : option string) : bool :=
  match o with Some s => negb (bool_decide (s = "")) | None => false end.
Definition edit_data (tag : string) (e : TagEdit) : Channel :=
  zero_channel <| cn_Tag := match tg_newTag e with
                            | Some t => if decide (t = tag) then None else Some t
                            | None => None
                            end |>
    <| cn_ModelMapping := tg_modelMapping e |>
    <| cn_Models := if given (tg_models e) then default "" (tg_models e) else "" |>
    <| cn_Group := if given (tg_group e) then default "" (tg_group e) else "" |>
    <| cn_Priority := tg_priority e |> <| cn_Weight := tg_weight e |>
    <| cn_ParamOverride := tg_paramOverride e |> <| cn_HeaderOverride := tg_headerOverride e |>.

(** No field of the struct is set, so that Updates executes nothing. *)
Definition no_edit (data : Channel) : bool :=
  bool_decide (cn_Tag data = None) && bool_decide (cn_ModelMapping data = None)
  && bool_decide (cn_Models data = "") && bool_decide (cn_Group data = "")
  && bool_decide (cn_Priority data = None) && bool_decide (cn_Weight data = None)
  && bool_decide (cn_ParamOverride data = None) && bool_decide (cn_HeaderOverride data = None).

Context (order_rows : string * bool -> list Channel -> list Channel).
Definition EditChannelByTag (tag : string) (e : TagEdit) : MW unit :=
  let data := edit_data tag e in
  let updatedTag := default tag (cn_Tag data) in
  (if no_edit data then mret tt
   else db_exec HDB (update_channels (tagged_as tag) (merge_channel data))) ;;
  if given (tg_models e) || given (tg_group e) then
    r ← attempt (GetChannelsByTag order_rows updatedTag false false None);
    match r with
    | Err _ => mret tt
    | Ok channels => forM_ channels (fun c => ignore_err (UpdateAbilities false c))
    end
  else UpdateAbilityByTag tag (tg_newTag e) (tg_priority e) (tg_weight e).

(** The rows are read through the global handle, outside the transaction. *)
Definition BatchSetChannelTag (ids : list Z) (tag : option string) : MW unit :=
  Transaction (
    db_exec HTX (update_channels (fun c => bool_decide (cn_Id c ∈ ids)) (fun c => c <| cn_Tag := tag |>)) ;;
    channels ← GetChannelsByIds ids;
    forM_ channels (UpdateAbilities true)).

(** ** Repair *)

Context (compile : string -> option (string -> bool)) (Intn : Z -> Z) (sort_slice : (Z -> Z) -> list Z -> list Z).

Fixpoint fix_chunk (channels : list Channel) (counts : Z * Z) : MW (Z * Z) :=
  match channels with
  | [] => mret counts
  | c :: channels =>
      r ← attempt (AddAbilities HDB c);
      fix_chunk channels (match r with
                          | Ok _ => (counts.1 + 1, counts.2)
                          | Err _ => (counts.1, counts.2 + 1)
                          end)
  end.
Fixpoint fix_chunks (chunks : list (list Channel)) (counts : Z * Z) : MW (Z * Z) :=
  match chunks with
  | [] => mret counts
  | chunk :: chunks =>
      r ← attempt (db_exec HDB (delete_abilities (fun a => bool_decide (ab_ChannelId a ∈ (cn_Id <$> chunk)))));
      counts ← (match r with
                | Ok _ => fix_chunk chunk counts
                | Err _ => mret (counts.1, counts.2 + Z.of_nat (length chunk))
                end);
      fix_chunks chunks counts
  end.
(** The caller holds [fixLock]; a second caller is refused. *)
Definition FixAbility (locked : bool) : MW (Z * Z) :=
  guard_err locked (ErrNew "已经有一个修复任务在运行中，请稍后再试") ;;
  db_exec HDB (delete_abilities (fun _ => true)) ;;
  channels ← db_find HDB all_channels;
  match channels with
  | [] => mret (0, 0)
  | _ =>
      counts ← fix_chunks (Chunk channels 50) (0, 0);
      InitChannelCache sort_slice ;;
      mret counts
  end.
End admin.
