(* ===== verification/RoutingProofs.v ===== *)
(** * Facts about the choice of a channel

    The weighted draws count exactly; the cached choice returns a channel of the
    right group, model and priority. *)

From S2P Require Import Prelude GoStd GoFloat World Sample ModelUtils SubscriptionTime Subscription AdvancedCustom ChannelModel Ability ChannelCache.

(** ** Stable sorting permutes *)

Lemma insert_from_right_perm {A} (less : A -> A -> bool) x l : insert_from_right less x l ≡ₚ x :: l.
Proof.
  induction l as [|y l IH]; simpl; [done|]. destruct (less x y); [|done].
  rewrite IH. apply Permutation_swap.
Qed.
Lemma SliceStable_perm {A} (less : A -> A -> bool) (l : list A) : SliceStable less l ≡ₚ l.
Proof.
  unfold SliceStable. rewrite <- Permutation_rev.
  assert (H : forall acc, fold_left (fun acc x => insert_from_right less x acc) l acc ≡ₚ l ++ acc).
  { induction l as [|x l IH]; intros acc; simpl; [done|].
    rewrite IH, insert_from_right_perm. by rewrite Permutation_middle. }
  by rewrite H, app_nil_r.
Qed.

(** Elements of a list with distinct keys are determined by their key. *)
Lemma keys_determine {A B} (f : A -> B) l x y : NoDup (f <$> l) -> x ∈ l -> y ∈ l -> f y = f x -> y = x.
Proof.
  induction l as [|z l IH]; [by intros _ ?%elem_of_nil|]. rewrite fmap_cons, NoDup_cons.
  intros [Hn Hnd] [->|Hx]%elem_of_cons [->|Hy]%elem_of_cons E; auto.
  - destruct Hn. rewrite <- E. by apply list_elem_of_fmap_2.
  - destruct Hn. rewrite E. by apply list_elem_of_fmap_2.
Qed.

(** ** Counting the draws *)

Lemma sumZ_app' {A} (f : A -> Z) l1 l2 : sumZ f (l1 ++ l2) = sumZ f l1 + sumZ f l2.
Proof. induction l1 as [|x l1 IH]; simpl; [lia|]. rewrite IH. lia. Qed.
Lemma sumZ_nonneg {A} (f : A -> Z) l : (forall x, x ∈ l -> 0 <= f x) -> 0 <= sumZ f l.
Proof.
  induction l as [|x l IH]; simpl; [lia|]. intros H.
  specialize (IH ltac:(intros y Hy; apply H; by right)). specialize (H x ltac:(by left)). lia.
Qed.

(** How many of the numbers below [n] satisfy [P]. *)
Definition count_below (n : Z) (P : Z -> bool) : Z :=
  Z.of_nat (length (List.filter P (Z.of_nat <$> seq 0 (Z.to_nat n)))).

Lemma count_below_succ (n : nat) P :
  count_below (Z.of_nat (S n)) P = count_below (Z.of_nat n) P + if P (Z.of_nat n) then 1 else 0.
Proof.
  unfold count_below. rewrite !Nat2Z.id, seq_S, fmap_app, List.filter_app, length_app. simpl.
  destruct (P (Z.of_nat n)); simpl; lia.
Qed.
Lemma count_below_interval n a b P : 0 <= a <= b -> b <= n ->
  (forall r, 0 <= r < n -> P r = true <-> a <= r < b) -> count_below n P = b - a.
Proof.
  intros Hab Hbn HP. replace n with (Z.of_nat (Z.to_nat n)) in * by lia.
  generalize dependent (Z.to_nat n). clear n. intros n Hbn HP.
  assert (H : forall m, (m <= n)%nat -> count_below (Z.of_nat m) P = Z.max 0 (Z.min (Z.of_nat m) b - a)).
  { induction m as [|m IH]; intros Hm; [unfold count_below; simpl; lia|].
    rewrite count_below_succ, IH by lia. specialize (HP (Z.of_nat m) ltac:(lia)).
    destruct (P (Z.of_nat m)); [assert (a <= Z.of_nat m < b) by (by apply HP); lia|].
    assert (~ a <= Z.of_nat m < b) by (intros H; apply HP in H; done). lia. }
  rewrite H by lia. lia.
Qed.

Section weighted.
Context {A : Type} (w : A -> Z).

Lemma pick_weighted_at l1 x l2 r : (forall y, y ∈ l1 -> 0 <= w y) ->
  sumZ w l1 <= r < sumZ w l1 + w x -> pick_weighted w r (l1 ++ x :: l2) = Some x.
Proof.
  revert r. induction l1 as [|y l1 IH]; simpl; intros r Hw Hr.
  - destruct (Z.ltb_spec (r - w x) 0); [done|lia].
  - assert (0 <= sumZ w l1) by (apply sumZ_nonneg; intros z Hz; apply Hw; by right).
    destruct (Z.ltb_spec (r - w y) 0); [lia|]. apply IH; [|lia].
    intros z Hz. apply Hw. by right.
Qed.
Lemma pick_weighted_split l r : (forall y, y ∈ l -> 0 <= w y) -> 0 <= r < sumZ w l ->
  exists l1 x l2, l = l1 ++ x :: l2 /\ sumZ w l1 <= r < sumZ w l1 + w x.
Proof.
  revert r. induction l as [|y l IH]; simpl; intros r Hw Hr; [lia|].
  destruct (Z.ltb_spec r (w y)).
  - exists [], y, l. simpl. split; [done|lia].
  - destruct (IH (r - w y)) as (l1 & x & l2 & -> & Hx); [|lia|].
    + intros z Hz. apply Hw. by right.
    + exists (y :: l1), x, l2. simpl. split; [done|lia].
Qed.

(** An element is drawn by exactly the numbers of its interval. *)
Lemma pick_weighted_iff l1 x l2 r : NoDup (l1 ++ x :: l2) -> (forall y, y ∈ l1 ++ x :: l2 -> 0 <= w y) ->
  0 <= r < sumZ w (l1 ++ x :: l2) ->
  pick_weighted w r (l1 ++ x :: l2) = Some x <-> sumZ w l1 <= r < sumZ w l1 + w x.
Proof.
  intros Hnd Hw Hr. split.
  - intros Hp. destruct (pick_weighted_split _ _ Hw Hr) as (k1 & y & k2 & E & Hy).
    rewrite E in Hp. rewrite pick_weighted_at in Hp.
    2:{ intros z Hz. apply Hw. rewrite E. apply elem_of_app. by left. } 2:{ done. }
    simplify_eq. enough (l1 = k1) as -> by done. clear - Hnd E.
    revert k1 E. induction l1 as [|a l1 IH]; intros [|b k1] E; simpl in *; simplify_eq; [done| | |].
    + apply NoDup_cons in Hnd as [Hn _]. destruct Hn. apply elem_of_app. right. by left.
    + apply NoDup_cons in Hnd as [Hn _]. destruct Hn. apply elem_of_app. right. by left.
    + f_equal. apply IH; [by apply NoDup_cons in Hnd as [_ ?]|done].
  - intros Hx. apply pick_weighted_at; [|done]. intros z Hz. apply Hw, elem_of_app. by left.
Qed.

Lemma pick_weighted_total l r : (forall y, y ∈ l -> 0 <= w y) -> 0 <= r < sumZ w l ->
  exists x, pick_weighted w r l = Some x /\ x ∈ l /\ 0 < w x.
Proof.
  intros Hw Hr. destruct (pick_weighted_split _ _ Hw Hr) as (l1 & x & l2 & -> & Hx).
  exists x. split; [|split; [|lia]].
  - apply pick_weighted_at; [|done]. intros z Hz. apply Hw, elem_of_app. by left.
  - apply elem_of_app. right. by left.
Qed.

Context `{EqDecision A}.
Definition shares (total : Z) (draw : Z -> option A) (x : A) : Z :=
  count_below total (fun r => bool_decide (draw r = Some x)).

Lemma pick_weighted_share l x : NoDup l -> (forall y, y ∈ l -> 0 <= w y) -> x ∈ l ->
  shares (sumZ w l) (fun r => pick_weighted w r l) x = w x.
Proof.
  intros Hnd Hw (l1 & l2 & ->)%list_elem_of_split. unfold shares.
  pose proof (sumZ_nonneg w l1 ltac:(intros z Hz; apply Hw, elem_of_app; by left)).
  pose proof (sumZ_nonneg w l2 ltac:(intros z Hz; apply Hw, elem_of_app; right; by right)).
  pose proof (Hw x ltac:(apply elem_of_app; right; by left)).
  rewrite (count_below_interval _ (sumZ w l1) (sumZ w l1 + w x)); [lia|lia| |].
  - rewrite sumZ_app'. simpl. lia.
  - intros r Hr. rewrite bool_decide_eq_true. by apply pick_weighted_iff.
Qed.
End weighted.

(** ** The cached draw *)

Lemma smoothing_total (target : list (positive * Channel)) :
  target <> [] -> (forall p, p ∈ target -> 0 <= GetWeight p.2) ->
  let '(sumWeight, factor, adjustment) :=
    smoothing (sumZ (fun p => GetWeight p.2) target) (Z.of_nat (length target)) in
  0 < factor /\ 0 <= adjustment /\ 0 < sumWeight * factor /\
  sumZ (fun p => effective factor adjustment p.2) target = sumWeight * factor.
Proof.
  intros Hne Hw. pose proof (sumZ_nonneg _ _ Hw) as Hs.
  assert (Hsum : forall factor adjustment, sumZ (fun p => effective factor adjustment p.2) target
    = sumZ (fun p => GetWeight p.2) target * factor + Z.of_nat (length target) * adjustment).
  { intros f a. clear. induction target as [|p l IH]; simpl; [lia|]. rewrite IH. unfold effective. lia. }
  assert (Hlen : 0 < Z.of_nat (length target)) by (destruct target; simpl; lia || done).
  unfold smoothing. destruct (Z.eqb_spec (sumZ (fun p => GetWeight p.2) target) 0) as [E|E];
    [|destruct (_ <? 10)]; rewrite ?Hsum; repeat split; lia.
Qed.

Lemma effective_nonneg (target : list (positive * Channel)) f a :
  (forall p, p ∈ target -> 0 <= GetWeight p.2) -> 0 < f -> 0 <= a ->
  forall p, p ∈ target -> 0 <= effective f a p.2.
Proof. intros Hw Hf Ha p Hp. specialize (Hw p Hp). unfold effective. nia. Qed.

(** The cached choice draws every channel of the priority with exactly its weight:
    of the numbers the generator can return, as many select a channel as its weight
    times the smoothing factor, or 100 for each channel when all weights are 0.  So
    the order by latency that precedes the draw has no influence on the odds, and a
    channel without weight is never drawn beside one that has some. *)
Theorem weighted_choice_exact (target : list (positive * Channel)) l c :
  NoDup (fst <$> target) -> (forall p, p ∈ target -> 0 <= GetWeight p.2) -> (l, c) ∈ target ->
  let '(sumWeight, factor, adjustment) :=
    smoothing (sumZ (fun p => GetWeight p.2) target) (Z.of_nat (length target)) in
  0 < sumWeight * factor /\
  shares (sumWeight * factor) (fun r => draw_target (fun _ => r) target) l = effective factor adjustment c.
Proof.
  intros Hnd Hw Hin. assert (Hne : target <> []) by (by intros ->; apply elem_of_nil in Hin).
  pose proof (smoothing_total target Hne Hw) as Ht. unfold draw_target.
  destruct (smoothing _ _) as [[sumWeight factor] adjustment]. destruct Ht as (Hf & Ha & Hpos & Hsum).
  split; [done|]. set (sorted := SliceStable _ _).
  assert (Hperm : sorted ≡ₚ target) by apply SliceStable_perm.
  set (weight := fun p : positive * Channel => effective factor adjustment p.2) in *.
  rewrite <- Hsum, <- (sumZ_perm weight _ _ Hperm).
  assert (Hsh : forall x : positive * Channel, x ∈ sorted ->
    count_below (sumZ weight sorted) (fun r => bool_decide (fst <$> pick_weighted weight r sorted = Some x.1)) = weight x).
  { assert (Hnd' : NoDup (fst <$> sorted)) by by rewrite Hperm.
    assert (Hw' : forall y, y ∈ sorted -> 0 <= weight y).
    { intros y Hy. rewrite Hperm in Hy. by apply (effective_nonneg target). }
    clear - Hnd' Hw'. intros x Hx.
    assert (Hfst : forall y, y ∈ sorted -> y.1 = x.1 -> y = x).
    { intros y Hy E. by apply (keys_determine fst sorted). }
    apply list_elem_of_split in Hx as (l1 & l2 & Es). 
    pose proof (sumZ_nonneg weight l1 ltac:(intros z Hz; apply Hw'; rewrite Es; apply elem_of_app; by left)).
    pose proof (sumZ_nonneg weight l2 ltac:(intros z Hz; apply Hw'; rewrite Es; apply elem_of_app; right; by right)).
    pose proof (Hw' x ltac:(rewrite Es; apply elem_of_app; right; by left)).
    rewrite (count_below_interval _ (sumZ weight l1) (sumZ weight l1 + weight x)); [lia|lia| |].
    { rewrite Es, sumZ_app'. simpl. lia. }
    intros r Hr. rewrite bool_decide_eq_true.
    rewrite <- (pick_weighted_iff weight l1 x l2 r); rewrite <- Es; [| |done|done].
    - split; [|by intros ->]. intros E.
      destruct (pick_weighted_total weight sorted r Hw' Hr) as (y & Hy & Hin & _).
      rewrite Hy in *. simpl in E. f_equal. apply Hfst; [done|congruence].
    - by apply (NoDup_fmap_1 fst). }
  assert (Hx : (l, c) ∈ sorted) by by rewrite Hperm. exact (Hsh _ Hx).
Qed.

(** ** The draw in the database *)

Lemma pick_ability_shift r l :
  pick_ability r l = ab_ChannelId <$> pick_weighted (fun a => ab_Weight a + 10) (r - 1) l.
Proof.
  revert r. induction l as [|a l IH]; intros r; simpl; [done|].
  destruct (Z.leb_spec (r - (ab_Weight a + 10)) 0), (Z.ltb_spec (r - 1 - (ab_Weight a + 10)) 0); try lia; [done|].
  rewrite IH. do 2 f_equal. lia.
Qed.

(** The odds of the database path are the weights plus 10, except that the first
    channel of the order gets one number more and the last one less: the scan stops
    at 0 where it should stop below. *)
Theorem db_choice_off_by_one l1 a l2 :
  NoDup (ab_ChannelId <$> l1 ++ a :: l2) -> (forall b, b ∈ l1 ++ a :: l2 -> 0 <= ab_Weight b) ->
  shares (weightSum (l1 ++ a :: l2)) (fun r => pick_ability r (l1 ++ a :: l2)) (ab_ChannelId a)
    = ab_Weight a + 10 + (if decide (l1 = []) then 1 else 0) - (if decide (l2 = []) then 1 else 0).
Proof.
  intros Hnd Hw. set (w := fun b => ab_Weight b + 10).
  assert (Hw' : forall b, b ∈ l1 ++ a :: l2 -> 10 <= w b) by (intros b Hb; specialize (Hw b Hb); unfold w; lia).
  assert (H1 : (if decide (l1 = []) then 0 else 10) <= sumZ w l1).
  { destruct l1 as [|b l1]; simpl; [lia|].
    assert (0 <= sumZ w l1); [apply sumZ_nonneg; intros z Hz; specialize (Hw' z ltac:(right; apply elem_of_app; by left)); lia|].
    specialize (Hw' b ltac:(by left)). lia. }
  assert (H2 : (if decide (l2 = []) then 0 else 10) <= sumZ w l2).
  { destruct l2 as [|b l2]; simpl; [lia|].
    assert (0 <= sumZ w l2); [apply sumZ_nonneg; intros z Hz; specialize (Hw' z ltac:(apply elem_of_app; right; right; by right)); lia|].
    specialize (Hw' b ltac:(apply elem_of_app; right; right; by left)). lia. }
  pose proof (Hw' a ltac:(apply elem_of_app; right; by left)) as Ha.
  assert (Hs : weightSum (l1 ++ a :: l2) = sumZ w l1 + w a + sumZ w l2).
  { unfold weightSum. fold w. rewrite sumZ_app'. simpl. lia. }
  assert (E1 : l1 = [] -> sumZ w l1 = 0) by by intros ->.
  assert (E2 : l2 = [] -> sumZ w l2 = 0) by by intros ->.
  unfold shares.
  rewrite (count_below_interval _ (if decide (l1 = []) then 0 else sumZ w l1 + 1)
             (sumZ w l1 + w a + if decide (l2 = []) then 0 else 1)).
  - unfold w in *. destruct (decide (l1 = [])) as [e1|], (decide (l2 = [])) as [e2|];
      try (specialize (E1 e1)); try (specialize (E2 e2)); lia.
  - destruct (decide (l1 = [])), (decide (l2 = [])); lia.
  - rewrite Hs. destruct (decide (l2 = [])) as [e2|]; [specialize (E2 e2); lia|lia].
  - intros r Hr. rewrite Hs in Hr. rewrite bool_decide_eq_true, pick_ability_shift.
    assert (Hinj : forall b, b ∈ l1 ++ a :: l2 -> ab_ChannelId b = ab_ChannelId a -> b = a).
    { intros b Hb E. apply (keys_determine ab_ChannelId _ a b Hnd); [|done|done].
      apply elem_of_app. right. by left. }
    destruct (decide (r = 0)) as [->|Hr0].
    + assert (Hfirst : exists b l, l1 ++ a :: l2 = b :: l).
      { destruct l1 as [|b l1]; simpl; eauto. }
      destruct Hfirst as (b & l & El).
      assert (Hp : pick_weighted w (0 - 1) (l1 ++ a :: l2) = Some b).
      { rewrite El. simpl. specialize (Hw' b ltac:(rewrite El; by left)).
        destruct (Z.ltb_spec (0 - 1 - w b) 0); [done|lia]. }
      fold w. rewrite Hp. simpl. split.
      * intros [= E]. assert (b = a) as -> by (apply Hinj; [rewrite El; by left|done]).
        destruct l1 as [|b' l1]; [rewrite decide_True by done; destruct (decide (l2 = [])); simpl; lia|].
        exfalso. simpl in El. simplify_eq. apply (NoDup_fmap_1 ab_ChannelId) in Hnd.
        apply NoDup_cons in Hnd as [Hn _]. destruct Hn. apply elem_of_app. right. by left.
      * intros Hx. destruct l1 as [|b' l1]; [by simplify_eq/=|].
        rewrite decide_False in Hx by done. simpl in *. lia.
    + fold w.
      assert (Hiff : pick_weighted w (r - 1) (l1 ++ a :: l2) = Some a <-> sumZ w l1 <= r - 1 < sumZ w l1 + w a).
      { apply pick_weighted_iff.
        - by apply (NoDup_fmap_1 ab_ChannelId).
        - intros y Hy. specialize (Hw' y Hy). lia.
        - rewrite sumZ_app'. simpl. lia. }
      assert (Hsome : ab_ChannelId <$> pick_weighted w (r - 1) (l1 ++ a :: l2) = Some (ab_ChannelId a)
                      <-> pick_weighted w (r - 1) (l1 ++ a :: l2) = Some a).
      { split; [|by intros ->]. destruct (pick_weighted_total w (l1 ++ a :: l2) (r - 1)) as (y & -> & Hy & _).
        - intros y Hy. specialize (Hw' y Hy). lia.
        - rewrite sumZ_app'. simpl. lia.
        - simpl. intros [= E]. f_equal. by apply Hinj. }
      rewrite Hsome, Hiff.
      destruct (decide (l1 = [])) as [e1|], (decide (l2 = [])) as [e2|];
        try (specialize (E1 e1)); try (specialize (E2 e2)); lia.
Qed.

(** ** Priorities *)

#[local] Instance Z_ge_total : Total Z.ge.
Proof. intros a b. lia. Qed.
#[local] Instance Z_ge_trans : Transitive Z.ge.
Proof. intros a b c. lia. Qed.

Lemma desc_perm l : desc l ≡ₚ l.
Proof. apply merge_sort_Permutation. Qed.
Lemma desc_sorted l : StronglySorted Z.ge (desc l).
Proof. apply StronglySorted_merge_sort; apply _. Qed.

(** How many of the priorities are higher. *)
Definition higher (p : Z) (ps : list Z) : nat := length (List.filter (fun q => p <? q) ps).

Lemma filter_none (p : Z) l : Forall (fun q => q <= p) l -> List.filter (fun q => p <? q) l = [].
Proof.
  induction 1 as [|q l Hq Hl IH]; simpl; [done|]. destruct (Z.ltb_spec p q); [lia|done].
Qed.
Lemma higher_nth l k : StronglySorted Z.ge l -> NoDup l -> (k < length l)%nat ->
  higher (nth k l 0) l = k.
Proof.
  intros Hs. revert k. induction Hs as [|x l Hs IH Hx]; intros k Hnd Hk; simpl in *; [lia|].
  apply NoDup_cons in Hnd as [Hn Hnd]. unfold higher in *. simpl. destruct k as [|k].
  - destruct (Z.ltb_spec x x); [lia|]. rewrite filter_none; [done|].
    apply (Forall_impl _ _ _ Hx). intros q. lia.
  - assert (Hin : nth k l 0 ∈ l) by (apply list_elem_of_In, nth_In; lia).
    rewrite Forall_forall in Hx. specialize (Hx _ Hin).
    destruct (Z.ltb_spec (nth k l 0) x) as [Hlt|Hge].
    + simpl. f_equal. apply IH; [done|lia].
    + assert (nth k l 0 = x) as E by lia. rewrite E in Hin. done.
Qed.

Lemma target_priority_rank retry (objects : list (positive * Channel)) :
  objects <> [] -> 0 <= retry ->
  let ps := remove_dups ((fun p => GetPriority p.2) <$> objects) in
  target_priority retry objects ∈ ps /\
  Z.of_nat (higher (target_priority retry objects) ps) = Z.min retry (Z.of_nat (length ps) - 1).
Proof.
  intros Hne Hr ps. unfold target_priority. fold ps.
  assert (Hlen : length (desc ps) = length ps) by (by rewrite desc_perm).
  assert (Hps : ps <> []).
  { unfold ps. destruct objects as [|p l]; [done|]. intros E.
    assert (Hin : GetPriority p.2 ∈ remove_dups ((fun p => GetPriority p.2) <$> p :: l)).
    { rewrite elem_of_remove_dups. rewrite fmap_cons. by left. }
    rewrite E in Hin. by apply elem_of_nil in Hin. }
  assert (Hpos : 0 < Z.of_nat (length ps)) by (destruct ps; simpl in *; [done|lia]).
  rewrite Hlen. set (k := if retry >=? _ then _ else _).
  assert (Hk : k = Z.min retry (Z.of_nat (length ps) - 1)).
  { unfold k. rewrite Z.geb_leb. destruct (Z.leb_spec (Z.of_nat (length ps)) retry); lia. }
  assert (Hlt : (Z.to_nat k < length (desc ps))%nat) by lia.
  split.
  - apply (elem_of_Permutation_proper _ _ _ (desc_perm ps)). by apply list_elem_of_In, nth_In.
  - assert (Hh : higher (nth (Z.to_nat k) (desc ps) 0) (desc ps) = Z.to_nat k).
    { apply higher_nth; [apply desc_sorted| |done]. rewrite desc_perm. apply NoDup_remove_dups. }
    assert (Hperm : higher (nth (Z.to_nat k) (desc ps) 0) ps = higher (nth (Z.to_nat k) (desc ps) 0) (desc ps)).
    { unfold higher. generalize (fun q => nth (Z.to_nat k) (desc ps) 0 <? q). intros P.
      assert (Hp : forall l l', l ≡ₚ l' -> length (List.filter P l) = length (List.filter P l')).
      { clear. induction 1; simpl; repeat (case_match; simpl); congruence || lia. }
      apply Hp. symmetry. apply desc_perm. }
    rewrite Hperm, Hh. lia.
Qed.

(** ** The cached choice *)

Section chosen.
Context `{ChannelJson} (compile : string -> option (string -> bool)) (Intn : Z -> Z).
(** rand.Intn: a number below its argument. *)
Hypothesis Intn_below : forall n, 0 < n -> 0 <= Intn n < n.

(** The candidates have objects, distinct ones, and weights are unsigned. *)
Definition consistent (w : World) (ids : list Z) : Prop :=
  NoDup ids /\ (forall id, id ∈ ids -> is_Some (cached w id)) /\
  (forall id l c, cached w id = Some (l, c) -> 0 <= GetWeight c) /\
  (forall id id' l c c', cached w id = Some (l, c) -> cached w id' = Some (l, c') -> id = id').

Lemma cached_all_ok w ids : (forall id, id ∈ ids -> is_Some (cached w id)) ->
  exists objects, cached_all w ids = Ok objects /\ Forall2 (fun id p => cached w id = Some p) ids objects.
Proof.
  induction ids as [|id ids IH]; intros Hs; simpl; [eauto|].
  destruct (Hs id ltac:(by left)) as [p Hp]. rewrite Hp.
  destruct IH as (objects & -> & H2); [intros x Hx; apply Hs; by right|]. eauto.
Qed.

(** The priority a request with this retry number is served at. *)
Definition right_priority (w : World) (retry : Z) (ids : list Z) (c : Channel) : Prop :=
  exists objects, cached_all w ids = Ok objects /\
    let ps := remove_dups ((fun p => GetPriority p.2) <$> objects) in
    Z.of_nat (higher (GetPriority c) ps) = Z.min retry (Z.of_nat (length ps) - 1) /\
    (0 < GetWeight c \/ forall id l c', id ∈ ids -> cached w id = Some (l, c') ->
                        GetPriority c' = GetPriority c -> GetWeight c' = 0).

Lemma draw_target_ok target : NoDup (fst <$> target) -> (forall p, p ∈ target -> 0 <= GetWeight p.2) ->
  target <> [] -> exists l c, draw_target Intn target = Some l /\ (l, c) ∈ target /\
    (0 < GetWeight c \/ forall p, p ∈ target -> GetWeight p.2 = 0).
Proof.
  intros Hnd Hw Hne. pose proof (smoothing_total target Hne Hw) as Ht. unfold draw_target.
  destruct (smoothing _ _) as [[sumWeight factor] adjustment] eqn:Es. destruct Ht as (Hf & Ha & Hpos & Hsum).
  pose proof (SliceStable_perm (fun a b => routing_less a.2 b.2) target) as Hperm.
  set (weight := fun p : positive * Channel => effective factor adjustment p.2) in *.
  destruct (pick_weighted_total weight (SliceStable (fun a b => routing_less a.2 b.2) target)
              (Intn (sumWeight * factor))) as ([l c] & Hp & Hin & Hpos').
  - intros y Hy. rewrite Hperm in Hy. by apply (effective_nonneg target).
  - rewrite (sumZ_perm weight _ _ Hperm), Hsum. by apply Intn_below.
  - exists l, c. rewrite Hp. rewrite Hperm in Hin. split; [done|]. split; [done|].
    unfold weight, effective in Hpos'. simpl in Hpos'.
    unfold smoothing in Es.
    destruct (Z.eqb_spec (sumZ (fun p => GetWeight p.2) target) 0) as [E|E].
    + right. clear - E Hw. induction target as [|q l IH]; [by intros p ?%elem_of_nil|]. simpl in E.
      pose proof (Hw q ltac:(by left)).
      pose proof (sumZ_nonneg (fun p => GetWeight p.2) l ltac:(intros y Hy; apply Hw; by right)).
      intros p [->|Hp]%elem_of_cons; [lia|]. apply IH; [|lia|done]. intros y Hy. apply Hw. by right.
    + left. specialize (Hw _ Hin). simpl in Hw. destruct (_ <? 10); simplify_eq; nia.
Qed.

Lemma Forall2_elem_r {A B} (R : A -> B -> Prop) l k y : Forall2 R l k -> y ∈ k -> exists x, x ∈ l /\ R x y.
Proof.
  induction 1 as [|a b l k Hab Hlk IH]; [by intros ?%elem_of_nil|].
  intros [->|Hy]%elem_of_cons; [exists a; split; [by left|done]|].
  destruct (IH Hy) as (x & Hx & Hr). exists x. split; [by right|done].
Qed.
Lemma Forall2_elem_l {A B} (R : A -> B -> Prop) l k x : Forall2 R l k -> x ∈ l -> exists y, y ∈ k /\ R x y.
Proof.
  induction 1 as [|a b l k Hab Hlk IH]; [by intros ?%elem_of_nil|].
  intros [->|Hy]%elem_of_cons; [exists b; split; [by left|done]|].
  destruct (IH Hy) as (y & Hx & Hr). exists y. split; [by right|done].
Qed.
Lemma objects_distinct w ids objects : consistent w ids ->
  Forall2 (fun id p => cached w id = Some p) ids objects -> NoDup (fst <$> objects).
Proof.
  intros (Hnd & _ & _ & Hinj) H2. induction H2 as [|id [l c] ids objects Hid H2 IH]; [constructor|].
  apply NoDup_cons in Hnd as [Hn Hnd]. rewrite fmap_cons. apply NoDup_cons. split; [|by apply IH].
  intros ([l' c'] & E & Hin)%list_elem_of_fmap. simpl in E. subst l'.
  destruct (Forall2_elem_r _ _ _ _ H2 Hin) as (id' & Hid' & Hc').
  by rewrite (Hinj _ _ _ _ _ Hid Hc') in Hn.
Qed.

(** With a consistent cache, a request gets a channel exactly when the cache lists
    one for its group and model: one of the listed ones, of the priority of its retry
    (the retry-th highest, at last the lowest), and one with weight 0 only when all
    channels of that priority have weight 0. *)
Theorem cached_choice_spec w group model retry requestPath :
  0 <= retry -> consistent w (candidates compile w group model requestPath) ->
  match pick_cached compile Intn w group model retry requestPath with
  | (None, None) => candidates compile w group model requestPath = []
  | (Some l, None) => exists id c, id ∈ candidates compile w group model requestPath /\
      cached w id = Some (l, c) /\
      ((1 < length (candidates compile w group model requestPath))%nat ->
       right_priority w retry (candidates compile w group model requestPath) c)
  | (_, Some _) => False
  end.
Proof.
  intros Hr Hcons. unfold pick_cached. destruct (candidates compile w group model requestPath)
    as [|id [|id2 ids]] eqn:Ec; [done| |].
  { destruct Hcons as (_ & Hs & _). destruct (Hs id ltac:(by left)) as [[l c] Hl]. rewrite Hl.
    exists id, c. split; [by left|]. split; [done|]. simpl. lia. }
  pose proof Hcons as (Hnd & Hs & Hw & Hinj).
  destruct (cached_all_ok w (id :: id2 :: ids) Hs) as (objects & E & H2). rewrite E.
  pose proof (objects_distinct _ _ _ Hcons H2) as Hdist.
  assert (Hne : objects <> []) by (inversion H2; done).
  destruct (target_priority_rank retry objects Hne Hr) as [Hin Hrank].
  assert (Htn : targets retry objects <> []).
  { rewrite elem_of_remove_dups in Hin. apply list_elem_of_fmap in Hin as (p & Ep & Hp). intros Et.
    assert (Hpt : p ∈ targets retry objects).
    { apply list_elem_of_In, filter_In. split; [by apply list_elem_of_In|]. by apply Z.eqb_eq. }
    rewrite Et in Hpt. by apply elem_of_nil in Hpt. }
  assert (Hsub : forall p, p ∈ targets retry objects -> p ∈ objects /\ GetPriority p.2 = target_priority retry objects).
  { intros p Hp. apply list_elem_of_In, filter_In in Hp as [Hp1 Hp2]. apply Z.eqb_eq in Hp2.
    split; [by apply list_elem_of_In|done]. }
  destruct (draw_target_ok (targets retry objects)) as (l & c & Hd & Hlc & Hwt); [| |done|].
  { unfold targets. generalize (target_priority retry objects). intros tp. clear - Hdist. induction objects as [|p l IH]; [constructor|].
    rewrite fmap_cons in Hdist. apply NoDup_cons in Hdist as [Hn Hd]. simpl. destruct (_ =? _); [|by apply IH].
    rewrite fmap_cons. apply NoDup_cons. split; [|by apply IH]. intros (q & Eq & Hq)%list_elem_of_fmap.
    apply list_elem_of_In, filter_In in Hq as [Hq _]. apply Hn. rewrite Eq.
    apply list_elem_of_fmap_2. by apply list_elem_of_In. }
  { intros [l c] Hp. destruct (Hsub _ Hp) as [Ho _].
    destruct (Forall2_elem_r _ _ _ _ H2 Ho) as (id' & _ & Hid'). by eapply Hw. }
  destruct (targets retry objects) as [|p0 ps0] eqn:Etargets; [done|]. rewrite Hd.
  destruct (Hsub _ Hlc) as [Ho Hp]. simpl in Hp.
  destruct (Forall2_elem_r _ _ _ _ H2 Ho) as (id' & Hid' & Hc').
  exists id', c. split; [done|]. split; [done|]. intros _. exists objects. split; [done|].
  rewrite Hp. split; [done|]. destruct Hwt as [?|Hall]; [by left|right].
  intros id'' l' c' Hin'' Hc'' Hpr. destruct (Forall2_elem_l _ _ _ _ H2 Hin'') as (p & Hpo & Hpc).
  rewrite Hpc in Hc''. simplify_eq. apply (Hall (l', c')). rewrite <- Etargets.
  apply list_elem_of_In, filter_In. split; [by apply list_elem_of_In|]. apply Z.eqb_eq. simpl. congruence.
Qed.
End chosen.
