(* ===== verification/RoutingSync.v ===== *)
(** * The cache and the database route alike

    After [InitChannelCache] the cache lists, for every group and model, the channels
    that the abilities table lists, and both ways of choosing a channel draw from the
    same channels. *)

From S2P Require Import Prelude GoStd GoFloat World Sample ModelUtils SubscriptionTime Subscription AdvancedCustom ChannelModel Ability ChannelCache RoutingProofs.
Import GoStrings GoText.

(** ** Abilities that agree with the channels *)

Definition with_priority (a : Ability) : Ability := a <| ab_Priority := Some (default 0 (ab_Priority a)) |>.
Definition pairs_of (c : Channel) : list (string * string) := fresh_pairs [] (channel_pairs c).
(** The table holds exactly the rows that [AddAbilities] makes of the channels. *)
Definition agree (d : DB) : Prop :=
  (forall id c, d_channels d !! id = Some c -> cn_Id c = id) /\
  forall g m id, d_abilities d !! (g, m, id) =
    match d_channels d !! id with
    | Some c => if decide ((m, g) ∈ pairs_of c) then Some (with_priority (ability_of c m g)) else None
    | None => None
    end.

(** No group or model is listed twice, and no name holds the separator of the keys of
    [abilitySet]. *)
Definition bar : Ascii.ascii := Ascii.ascii_of_nat 124.
Definition sane (c : Channel) : Prop :=
  NoDup (SplitByte (cn_Group c) comma) /\ NoDup (SplitByte (cn_Models c) comma) /\
  all_bytes (not_byte bar) (cn_Group c) = true.

Lemma elem_of_channel_pairs c m g :
  (m, g) ∈ channel_pairs c <-> m ∈ SplitByte (cn_Models c) comma /\ g ∈ SplitByte (cn_Group c) comma.
Proof.
  unfold channel_pairs. split.
  - intros (m' & H & Hm)%list_elem_of_bind. apply list_elem_of_bind in H as (g' & H & Hg).
    apply list_elem_of_singleton in H. by simplify_eq.
  - intros [Hm Hg]. apply list_elem_of_bind. exists m. split; [|done].
    apply list_elem_of_bind. exists g. split; [by apply list_elem_of_singleton|done].
Qed.
Lemma elem_of_group_models c g m :
  (g, m) ∈ group_models c <-> g ∈ SplitByte (cn_Group c) comma /\ m ∈ SplitByte (cn_Models c) comma.
Proof.
  unfold group_models. split.
  - intros (g' & H & Hg)%list_elem_of_bind. apply list_elem_of_bind in H as (m' & H & Hm).
    apply list_elem_of_singleton in H. by simplify_eq.
  - intros [Hg Hm]. apply list_elem_of_bind. exists g. split; [|done].
    apply list_elem_of_bind. exists m. split; [by apply list_elem_of_singleton|done].
Qed.

(** The key of a pair determines it when the group holds no separator. *)
Lemma app_bar_inj g g' m m' : all_bytes (not_byte bar) g = true -> all_bytes (not_byte bar) g' = true ->
  g +:+ String bar m = g' +:+ String bar m' -> g = g' /\ m = m'.
Proof.
  revert g'. induction g as [|a g IH]; intros [|b g']; cbn [all_bytes String.append]; rewrite ?andb_true_iff.
  - by intros _ _ [= ->].
  - intros _ [Hb _] [= <- _]. unfold not_byte in Hb. by rewrite bool_decide_eq_true_2 in Hb.
  - intros [Ha _] _ [= -> _]. unfold not_byte in Ha. by rewrite bool_decide_eq_true_2 in Ha.
  - intros [_ Hg] [_ Hg'] [= -> E]. destruct (IH g' Hg Hg' E) as [-> ->]. done.
Qed.
Lemma all_bytes_split P s c x : all_bytes P s = true -> x ∈ SplitByte s c -> all_bytes P x = true.
Proof.
  revert x. induction s as [|a s IH]; intros x Hs Hx; simpl in *.
  - apply list_elem_of_singleton in Hx as ->. done.
  - apply andb_true_iff in Hs as [Ha Hs]. case_decide.
    + apply elem_of_cons in Hx as [->|Hx]; [done|by apply IH].
    + destruct (SplitByte s c) as [|hd tl] eqn:E.
      * apply list_elem_of_singleton in Hx as ->. simpl. by rewrite Ha.
      * apply elem_of_cons in Hx as [->|Hx]; [|apply IH; [done|by right]].
        simpl. rewrite Ha. apply IH; [done|by left].
Qed.

Lemma fresh_pairs_all seen pairs m g :
  (forall m g, (m, g) ∈ pairs -> all_bytes (not_byte bar) g = true) ->
  (m, g) ∈ pairs -> (g +:+ String bar m) ∉ seen -> (m, g) ∈ fresh_pairs seen pairs.
Proof.
  revert seen. induction pairs as [|[m' g'] pairs IH]; intros seen Hb Hin Hn; [by apply elem_of_nil in Hin|].
  simpl. change (g' +:+ "|" +:+ m') with (g' +:+ String bar m').
  apply elem_of_cons in Hin as [E|Hin].
  - simplify_eq. rewrite decide_False by done. by left.
  - assert (Hb' : forall m g, (m, g) ∈ pairs -> all_bytes (not_byte bar) g = true)
      by (intros; eapply Hb; by right).
    case_decide as Hs; [by apply IH|].
    destruct (decide ((m, g) = (m', g'))) as [->|Hne]; [by left|]. right. apply IH; [done..|].
    intros [E|?]%elem_of_cons; [|done]. apply app_bar_inj in E as [-> ->]; [done| |].
    + apply (Hb m). by right.
    + apply (Hb m'). by left.
Qed.
Lemma fresh_pairs_sub seen pairs p : p ∈ fresh_pairs seen pairs -> p ∈ pairs.
Proof.
  revert seen. induction pairs as [|[m g] pairs IH]; intros seen; simpl; [done|].
  case_decide; [intros H1; right; by eapply IH|].
  intros [->|H1]%elem_of_cons; [by left|right; by eapply IH].
Qed.
Lemma elem_of_pairs c m g : sane c ->
  (m, g) ∈ pairs_of c <-> (g, m) ∈ group_models c.
Proof.
  intros (_ & _ & Hb). rewrite elem_of_group_models. unfold pairs_of. split.
  - intros H%fresh_pairs_sub. by apply elem_of_channel_pairs in H as [? ?].
  - intros [Hg Hm]. apply fresh_pairs_all; [|by apply elem_of_channel_pairs|by intros ?%elem_of_nil].
    intros m' g' [_ Hg']%elem_of_channel_pairs. by eapply all_bytes_split.
Qed.

Lemma NoDup_group_models c : sane c -> NoDup (group_models c).
Proof.
  intros (Hg & Hm & _). unfold group_models.
  assert (H : forall gs ms, NoDup gs -> NoDup ms ->
    NoDup (g ← gs; m ← ms; [(g, m)] : list (string * string))).
  { clear. intros gs ms Hgs Hms.
    assert (Hmap : forall g : string, (m ← ms; [(g, m)]) = (fun m : string => (g, m)) <$> ms).
    { intros g. clear. induction ms as [|m ms IH]; [done|]. cbn. by f_equal. }
    induction Hgs as [|g gs Hn Hgs IH]; [constructor|]. cbn. apply NoDup_app.
    split; [|split; [|done]].
    - rewrite Hmap. apply NoDup_fmap_2; [by intros ? ? [= ->]|done].
    - intros [g' m'] H1 H2. rewrite Hmap in H1. apply list_elem_of_fmap in H1 as (? & [= -> ->] & _).
      apply list_elem_of_bind in H2 as (g2 & H2 & Hg2). rewrite Hmap in H2.
      apply list_elem_of_fmap in H2 as (? & [= -> ->] & _). done. }
  by apply H.
Qed.

(** ** The index of the enabled channels *)

Definition get2 (m : gmap string (gmap string (list Z))) (g n : string) : list Z :=
  default [] (default ∅ (m !! g) !! n).

Lemma append_channel_ok id m gm : is_Some (m !! gm.1) ->
  exists m', append_channel id m gm = Ok m' /\ (forall g, is_Some (m' !! g) <-> is_Some (m !! g)) /\
    forall g n, get2 m' g n = get2 m g n ++ if decide ((g, n) = gm) then [id] else [].
Proof.
  destruct gm as [g0 n0]. intros [m2 Hm2]. simpl in Hm2. unfold append_channel. simpl. rewrite Hm2.
  eexists. split; [done|]. split.
  - intros g. destruct (decide (g = g0)) as [->|].
    + rewrite lookup_insert_eq, Hm2. split; eauto.
    + by rewrite lookup_insert_ne.
  - intros g n. unfold get2. destruct (decide (g = g0)) as [->|Hg].
    + rewrite lookup_insert_eq, Hm2. simpl. destruct (decide (n = n0)) as [->|Hn].
      * rewrite lookup_insert_eq. by rewrite decide_True.
      * rewrite lookup_insert_ne by done. rewrite decide_False by congruence. by rewrite app_nil_r.
    + rewrite lookup_insert_ne by done. rewrite decide_False by congruence. by rewrite app_nil_r.
Qed.
Lemma append_all_ok id gms m : NoDup gms -> (forall gm, gm ∈ gms -> is_Some (m !! gm.1)) ->
  exists m', append_all id gms m = Ok m' /\ (forall g, is_Some (m' !! g) <-> is_Some (m !! g)) /\
    forall g n, get2 m' g n = get2 m g n ++ if decide ((g, n) ∈ gms) then [id] else [].
Proof.
  revert m. induction gms as [|gm gms IH]; intros m Hnd Hs; simpl.
  - exists m. split; [done|]. split; [done|]. intros g n.
    by rewrite app_nil_r.
  - apply NoDup_cons in Hnd as [Hn Hnd].
    destruct (append_channel_ok id m gm (Hs gm ltac:(by left))) as (m1 & -> & Hd1 & Hg1).
    destruct (IH m1 Hnd) as (m2 & E2 & Hd2 & Hg2).
    { intros gm' Hin. apply Hd1, Hs. by right. }
    exists m2. split; [done|]. split; [intros g; by rewrite Hd2|]. intros g n.
    rewrite Hg2, Hg1, <- app_assoc. f_equal.
    pose proof (elem_of_cons gms (g, n) gm) as Hcons.
    destruct (decide ((g, n) = gm)) as [E|E], (decide ((g, n) ∈ gms)) as [Hi|Hi],
      (decide ((g, n) ∈ gm :: gms)) as [Hc|Hc]; simpl; try done; exfalso; naive_solver congruence.
Qed.

(** The channels of a list that serve a group and model. *)
Definition enabled_for (g n : string) (c : Channel) : bool :=
  (cn_Status c =? ChannelStatusEnabled) && bool_decide ((g, n) ∈ group_models c).
Lemma index_channels_ok channels m : Forall sane channels ->
  (forall c, c ∈ channels -> cn_Status c = ChannelStatusEnabled ->
     forall gm, gm ∈ group_models c -> is_Some (m !! gm.1)) ->
  exists m', index_channels channels m = Ok m' /\
    forall g n, get2 m' g n = get2 m g n ++ (cn_Id <$> List.filter (enabled_for g n) channels).
Proof.
  revert m. induction channels as [|c channels IH]; intros m Hsane Hs; simpl.
  - exists m. split; [done|]. intros. by rewrite app_nil_r.
  - apply Forall_cons in Hsane as [Hc Hsane]. unfold enabled_for at 1.
    destruct (Z.eqb_spec (cn_Status c) ChannelStatusEnabled) as [He|He]; simpl.
    + destruct (append_all_ok (cn_Id c) (group_models c) m) as (m1 & -> & Hd & Hg).
      { by apply NoDup_group_models. } { intros gm. apply Hs; [by left|done]. }
      destruct (IH m1 Hsane) as (m2 & E2 & Hg2).
      { intros c' Hc' He' gm Hin. apply Hd. eapply Hs; [by right|done|done]. }
      exists m2. split; [done|]. intros g n. rewrite Hg2, Hg, <- app_assoc. f_equal.
      destruct (Z.eqb_spec (cn_Status c) ChannelStatusEnabled); [|done]. simpl.
      case_bool_decide; case_decide; done.
    + destruct (IH m Hsane) as (m2 & E2 & Hg2); [intros; eapply Hs; [by right|done|done]|].
      exists m2. split; [done|]. intros g n. rewrite Hg2. done.
Qed.

(** ** Lists of rows *)

Lemma NoDup_fmap_filter {A B} (f : A -> B) (P : A -> bool) l : NoDup (f <$> l) -> NoDup (f <$> List.filter P l).
Proof.
  induction l as [|x l IH]; [done|]. rewrite fmap_cons, NoDup_cons. intros [Hn Hnd]. simpl.
  destruct (P x); [|by apply IH]. rewrite fmap_cons, NoDup_cons. split; [|by apply IH].
  intros (y & E & Hy)%list_elem_of_fmap. apply Hn. rewrite E. apply list_elem_of_fmap_2.
  apply list_elem_of_In, filter_In in Hy as [Hy _]. by apply list_elem_of_In.
Qed.
Lemma elem_of_filter' {A} (P : A -> bool) l x : x ∈ List.filter P l <-> x ∈ l /\ P x = true.
Proof. rewrite !list_elem_of_In. apply filter_In. Qed.

Lemma elem_of_all_channels d c : (forall id c, d_channels d !! id = Some c -> cn_Id c = id) ->
  c ∈ all_channels d <-> d_channels d !! cn_Id c = Some c.
Proof.
  intros Hk. unfold all_channels. split.
  - intros ([id c'] & -> & Hin)%list_elem_of_fmap. apply elem_of_map_to_list in Hin. simpl.
    by rewrite (Hk _ _ Hin).
  - intros Hc. apply list_elem_of_fmap. exists (cn_Id c, c). split; [done|]. by apply elem_of_map_to_list.
Qed.
Lemma all_channels_ids d : (forall id c, d_channels d !! id = Some c -> cn_Id c = id) ->
  NoDup (cn_Id <$> all_channels d).
Proof.
  intros Hk. unfold all_channels. rewrite <- list_fmap_compose.
  replace ((cn_Id ∘ snd) <$> map_to_list (d_channels d)) with (fst <$> map_to_list (d_channels d));
    [apply NoDup_fst_map_to_list|].
  apply Forall_fmap_ext_1. apply Forall_forall. intros [id c] Hin%elem_of_map_to_list. simpl.
  symmetry. by apply Hk.
Qed.

Section tables.
Context (d : DB) (Hd : agree d).

Lemma agree_key k a : d_abilities d !! k = Some a -> ability_key a = k.
Proof.
  destruct Hd as [Hc Ha]. destruct k as [[g m] id]. rewrite Ha.
  destruct (d_channels d !! id) as [c|] eqn:E; [|done]. case_decide; [|done]. intros [= <-].
  unfold ability_key. simpl. by rewrite (Hc _ _ E).
Qed.
Lemma elem_of_served g m a : a ∈ where_abilities (serves g m) d <->
  d_abilities d !! (g, m, ab_ChannelId a) = Some a /\ ab_Enabled a = true.
Proof.
  unfold where_abilities, all_abilities. rewrite elem_of_filter'. unfold serves. split.
  - intros [([k a'] & -> & Hin)%list_elem_of_fmap Hs]. simpl in *. apply elem_of_map_to_list in Hin.
    bools. repeat match goal with H : bool_decide _ = true |- _ => apply bool_decide_eq_true in H end. subst.
    split; [|done]. pose proof (agree_key _ _ Hin) as Hk. unfold ability_key in Hk. by rewrite Hk.
  - intros [Hl He]. split.
    + apply list_elem_of_fmap. exists ((g, m, ab_ChannelId a), a). split; [done|]. by apply elem_of_map_to_list.
    + pose proof (agree_key _ _ Hl) as Hk. unfold ability_key in Hk. simplify_eq.
      rewrite !bool_decide_eq_true_2 by done. by rewrite He.
Qed.
Lemma served_ids_NoDup g m : NoDup (ab_ChannelId <$> where_abilities (serves g m) d).
Proof.
  apply (NoDup_fmap_1 (fun id => (g, m, id))). rewrite <- list_fmap_compose.
  replace (_ <$> where_abilities (serves g m) d) with (ability_key <$> where_abilities (serves g m) d).
  - apply NoDup_fmap_filter. unfold all_abilities. rewrite <- list_fmap_compose.
    replace (_ <$> map_to_list (d_abilities d)) with (fst <$> map_to_list (d_abilities d));
      [apply NoDup_fst_map_to_list|].
    apply Forall_fmap_ext_1, Forall_forall. intros [k a] Hin%elem_of_map_to_list. symmetry. by apply agree_key.
  - apply Forall_fmap_ext_1, Forall_forall. intros a Ha%elem_of_served.
    destruct Ha as [Hl _]. by rewrite (agree_key _ _ Hl).
Qed.

Context (Hsane : forall id c, d_channels d !! id = Some c -> sane c).

Lemma served_by_channel g m id :
  id ∈ ab_ChannelId <$> where_abilities (serves g m) d <->
  exists c, d_channels d !! id = Some c /\ enabled_for g m c = true.
Proof.
  destruct Hd as [Hc Ha]. rewrite list_elem_of_fmap. unfold enabled_for. split.
  - intros (a & -> & [Hl He]%elem_of_served). rewrite Ha in Hl.
    destruct (d_channels d !! ab_ChannelId a) as [c|] eqn:E; [|done]. exists c. split; [done|].
    case_decide as Hp; [|done]. simplify_eq. simpl in He. rewrite He. simpl.
    apply bool_decide_eq_true. apply elem_of_pairs; [by eapply Hsane|done].
  - intros (c & E & Hen). bools.
    apply elem_of_pairs in H0; [|by eapply Hsane].
    exists (with_priority (ability_of c m g)). simpl. split; [by rewrite (Hc _ _ E)|].
    apply elem_of_served. simpl. rewrite (Hc _ _ E), Ha, E. rewrite decide_True by done. split; [done|by apply Z.eqb_eq].
Qed.
Lemma served_ids_perm g m :
  cn_Id <$> List.filter (enabled_for g m) (all_channels d) ≡ₚ ab_ChannelId <$> where_abilities (serves g m) d.
Proof.
  destruct Hd as [Hc Ha]. apply NoDup_Permutation.
  - by apply NoDup_fmap_filter, all_channels_ids.
  - apply served_ids_NoDup.
  - intros id. rewrite served_by_channel, list_elem_of_fmap. split.
    + intros (c & -> & [Hin Hen]%elem_of_filter'). exists c. split; [|done].
      by apply elem_of_all_channels.
    + intros (c & E & Hen). exists c. split; [symmetry; by apply Hc|]. apply elem_of_filter'.
      split; [|done]. apply elem_of_all_channels; [done|]. by rewrite (Hc _ _ E).
Qed.

(** The priority of a channel, as both tables have it. *)
Definition priority_of (id : Z) : Z :=
  match d_channels d !! id with Some c => GetPriority c | None => 0 end.
Lemma served_priority g m a : a ∈ where_abilities (serves g m) d ->
  ab_Priority a = Some (priority_of (ab_ChannelId a)).
Proof.
  destruct Hd as [Hc Ha]. intros [Hl _]%elem_of_served. rewrite Ha in Hl. unfold priority_of.
  destruct (d_channels d !! ab_ChannelId a) as [c|]; [|done]. case_decide; [|done]. by simplify_eq.
Qed.
Lemma served_priorities g m :
  omap ab_Priority (where_abilities (serves g m) d)
  = priority_of <$> (ab_ChannelId <$> where_abilities (serves g m) d).
Proof.
  pose proof (served_priority g m) as Hp. revert Hp.
  generalize (where_abilities (serves g m) d). intros l Hp. induction l as [|a l IH]; [done|].
  cbn. rewrite (Hp a ltac:(by left)). cbn. f_equal. apply IH. intros b Hb. apply Hp. by right.
Qed.
Lemma at_priority_ids g m p :
  ab_ChannelId <$> at_priority g m (Some p) d
  = List.filter (fun id => priority_of id =? p) (ab_ChannelId <$> where_abilities (serves g m) d).
Proof.
  assert (E : at_priority g m (Some p) d
    = List.filter (fun a => bool_decide (ab_Priority a = Some p)) (where_abilities (serves g m) d)).
  { unfold at_priority, where_abilities. generalize (all_abilities d). intros l.
    induction l as [|a l IH]; [done|]. simpl. destruct (serves g m a); simpl; [|done].
    case_bool_decide; by rewrite IH. }
  rewrite E. pose proof (served_priority g m) as Hp. revert Hp.
  generalize (where_abilities (serves g m) d). intros l Hp. induction l as [|a l IH]; [done|].
  rewrite fmap_cons. simpl. rewrite (Hp a ltac:(by left)).
  assert (IH' := IH ltac:(intros b Hb; apply Hp; by right)).
  destruct (Z.eqb_spec (priority_of (ab_ChannelId a)) p) as [->|Hne].
  - rewrite bool_decide_eq_true_2 by done. rewrite fmap_cons. by f_equal.
  - rewrite bool_decide_eq_false_2 by congruence. done.
Qed.
End tables.

(** ** Loading the objects *)

(** What of a channel matters for routing: not its parsed keys nor its polling position. *)
Definition routing_view (c : Channel) : Channel :=
  c <| cn_Keys := [] |> <| cn_ChannelInfo := cn_ChannelInfo c <| ci_MultiKeyPollingIndex := 0 |> |>.
Definition set_heap (h : gmap positive Channel) (n : positive) (w : World) : World :=
  w <| w_routing := w_routing w <| rt_heap := h |> <| rt_next := n |> |>.

Section loading.
Context `{ChannelJson}.

Definition settings_ok (c : Channel) : Prop :=
  cn_Type c = ChannelTypeAdvancedCustom ->
  cn_OtherSettings c = "" \/ (parse_other_settings (cn_OtherSettings c)).2 = None.

Lemma GetOtherSettings_ok l w c : object w l = c -> cn_Type c = ChannelTypeAdvancedCustom -> settings_ok c ->
  exists s, GetOtherSettings l w = (Ok s, w).
Proof.
  intros Ho Ht Hs. unfold GetOtherSettings, deref. run_unfold. rewrite Ho.
  destruct (decide (cn_OtherSettings c = "")); [eauto|].
  destruct (Hs Ht) as [?|Hn]; [done|]. destruct (parse_other_settings _) as [s e]. simpl in Hn. subst. eauto.
Qed.

Lemma set_heap_twice h n h' n' w : set_heap h n (set_heap h' n' w) = set_heap h n w.
Proof. done. Qed.

(** The loaded objects: one for each channel, all distinct and new. *)
Definition loaded (w : World) (channels : list Channel) (idm : gmap Z positive)
    (h : gmap positive Channel) (n : positive) : Prop :=
  (rt_next (w_routing w) <= n)%positive /\
  (forall id, is_Some (idm !! id) <-> id ∈ cn_Id <$> channels) /\
  (forall c, c ∈ channels -> exists l, idm !! cn_Id c = Some l /\ h !! l = Some c) /\
  (forall id l, idm !! id = Some l -> (l < n)%positive) /\
  (forall id id' l, idm !! id = Some l -> idm !! id' = Some l -> id = id').

Lemma load_step c w : settings_ok c ->
  exists advanced' : gmap Z AdvancedCustomConfig -> gmap Z AdvancedCustomConfig,
  forall advanced : gmap Z AdvancedCustomConfig,
  (l ← new_channel c;
   advanced ← (if cn_Type c =? ChannelTypeAdvancedCustom then
                 setting ← GetOtherSettings l;
                 mret (match os_AdvancedCustom setting with
                       | Some config => <[cn_Id c := config]> advanced
                       | None => advanced
                       end)
               else mret advanced);
   mret (l, advanced)) w
  = (Ok (rt_next (w_routing w), advanced' advanced),
     set_heap (<[rt_next (w_routing w) := c]> (rt_heap (w_routing w))) (Pos.succ (rt_next (w_routing w))) w).
Proof.
  intros Hs. destruct (Z.eqb_spec (cn_Type c) ChannelTypeAdvancedCustom) as [Ht|Ht].
  - set (w1 := set_heap (<[rt_next (w_routing w) := c]> (rt_heap (w_routing w))) (Pos.succ (rt_next (w_routing w))) w).
    destruct (GetOtherSettings_ok (rt_next (w_routing w)) w1 c) as (s & E); [|done|done|].
    { unfold w1, object, set_heap. simpl. by rewrite lookup_insert_eq. }
    exists (fun advanced => match os_AdvancedCustom s with Some config => <[cn_Id c := config]> advanced | None => advanced end).
    intros advanced. rewrite run_bind. unfold new_channel. fold w1. change (upd _ _ w) with w1.
    rewrite !run_bind, E. done.
  - exists (fun a => a). intros advanced. done.
Qed.

(** [load_objects] in terms of its first step. *)
Lemma load_objects_cons c channels idm advanced w :
  load_objects (c :: channels) idm advanced w =
  ((l ← new_channel c;
    advanced ← (if cn_Type c =? ChannelTypeAdvancedCustom then
                 setting ← GetOtherSettings l;
                 mret (match os_AdvancedCustom setting with
                       | Some config => <[cn_Id c := config]> advanced
                       | None => advanced
                       end)
               else mret advanced);
    mret (l, advanced) : MW (positive * gmap Z AdvancedCustomConfig)) ≫= fun p => load_objects channels (<[cn_Id c := p.1]> idm) p.2) w.
Proof.
  simpl. rewrite !run_bind. destruct (new_channel c w) as [[l|e] w1]; [|done].
  rewrite !run_bind. match goal with |- match ?x with _ => _ end = _ => by destruct x as [[a|e] w2] end.
Qed.

Lemma load_objects_ok channels idm advanced w : Forall settings_ok channels -> NoDup (cn_Id <$> channels) ->
  (forall id l, idm !! id = Some l -> (id ∉ cn_Id <$> channels) /\ (l < rt_next (w_routing w))%positive) ->
  (forall id id' l, idm !! id = Some l -> idm !! id' = Some l -> id = id') ->
  exists idm' advanced' h n, load_objects channels idm advanced w = (Ok (idm', advanced'), set_heap h n w) /\
    (rt_next (w_routing w) <= n)%positive /\
    (forall id, is_Some (idm' !! id) <-> is_Some (idm !! id) \/ id ∈ cn_Id <$> channels) /\
    (forall id l, idm !! id = Some l -> idm' !! id = Some l) /\
    (forall c, c ∈ channels -> exists l, idm' !! cn_Id c = Some l /\ h !! l = Some c) /\
    (forall l, (l < rt_next (w_routing w))%positive -> h !! l = rt_heap (w_routing w) !! l) /\
    (forall id id' l, idm' !! id = Some l -> idm' !! id' = Some l -> id = id').
Proof.
  revert idm advanced w. induction channels as [|c channels IH]; intros idm advanced w Hs Hnd Hold Hinj.
  - exists idm, advanced, (rt_heap (w_routing w)), (rt_next (w_routing w)). split; [by destruct w as [?????????????[]]|].
    split; [done|]. split; [|split; [done|split; [|done]]].
    + intros id. split; [by left|]. intros [?|?%elem_of_nil]; done.
    + by intros c ?%elem_of_nil.
  - apply Forall_cons in Hs as [Hc Hs]. rewrite fmap_cons in Hnd. apply NoDup_cons in Hnd as [Hn Hnd].
    rewrite load_objects_cons. destruct (load_step c w Hc) as (advanced' & E).
    rewrite run_bind, E. cbn [fst snd].
    set (l := rt_next (w_routing w)) in *. set (w1 := set_heap _ _ w).
    assert (Hnew : forall id l', idm !! id = Some l' -> l' <> l).
    { intros id l' Hl ->. destruct (Hold _ _ Hl) as [_ Hlt]. lia. }
    destruct (IH (<[cn_Id c := l]> idm) (advanced' advanced) w1 Hs Hnd)
      as (idm' & adv' & h & n & E' & Hle & Hdom & Hkeep & Hobj & Hheap & Hinj').
    + intros id l' [[<- <-]|[Hne Hl]]%lookup_insert_Some; [split; [done|unfold w1; simpl; lia]|].
      destruct (Hold _ _ Hl) as [Hnin Hlt]. split; [|unfold w1; simpl; lia].
      intros Hin. apply Hnin. rewrite fmap_cons. by right.
    + intros id id' l' H1 H2. apply lookup_insert_Some in H1 as [[<- <-]|[Hne1 H1]];
        apply lookup_insert_Some in H2 as [[<- E2]|[Hne2 H2]]; [done| | |by eapply Hinj].
      * by destruct (Hnew _ _ H2).
      * subst. by destruct (Hnew _ _ H1).
    + exists idm', adv', h, n. split; [done|]. unfold w1 in Hle. simpl in Hle. split; [lia|].
      assert (Hlast : idm' !! cn_Id c = Some l) by (apply Hkeep; by rewrite lookup_insert_eq).
      split; [|split; [|split; [|split; [|done]]]].
      * intros id. rewrite Hdom, fmap_cons, elem_of_cons.
        rewrite (lookup_insert_is_Some idm (cn_Id c) id l). split.
        -- intros [[->|[_ ?]]|?]; tauto.
        -- destruct (decide (cn_Id c = id)); intros [?|[?|?]]; naive_solver.
      * intros id l' Hl. apply Hkeep. rewrite lookup_insert_ne; [done|].
        intros <-. destruct (Hold _ _ Hl) as [Hnin _]. apply Hnin. rewrite fmap_cons. by left.
      * intros c' [->|Hin]%elem_of_cons; [|by apply Hobj]. exists l. split; [done|].
        rewrite Hheap by (unfold w1; simpl; lia). unfold w1. simpl. by rewrite lookup_insert_eq.
      * intros l' Hlt. rewrite Hheap by (unfold w1; simpl; lia). unfold w1. simpl.
        rewrite lookup_insert_ne; [done|]. lia.
Qed.

(** ** Carrying the keys over *)

Lemma take_over_view old c : routing_view (take_over old c) = routing_view c.
Proof.
  unfold take_over. destruct (negb _); [done|]. case_decide; [|by destruct c].
  destruct old as [o|]; [|by destruct c]. destruct (_ && _); by destruct c.
Qed.
Lemma forM_heap {A} (xs : list A) (body : A -> MW unit) w h :
  (forall x h, exists h', body x (set_heap h (rt_next (w_routing w)) w)
     = (Ok tt, set_heap h' (rt_next (w_routing w)) w) /\
     forall l, routing_view <$> h' !! l = routing_view <$> h !! l) ->
  exists h', forM_ xs body (set_heap h (rt_next (w_routing w)) w)
    = (Ok tt, set_heap h' (rt_next (w_routing w)) w) /\
    forall l, routing_view <$> h' !! l = routing_view <$> h !! l.
Proof.
  intros Hb. revert h. induction xs as [|x xs IH]; intros h; simpl; [eauto|].
  destruct (Hb x h) as (h1 & E1 & H1). rewrite run_bind, E1.
  destruct (IH h1) as (h2 & E2 & H2). exists h2. split; [done|]. intros l. by rewrite H2.
Qed.
Lemma take_over_all_ok idm w :
  exists h', take_over_all idm w = (Ok tt, set_heap h' (rt_next (w_routing w)) w) /\
    forall l, routing_view <$> h' !! l = routing_view <$> rt_heap (w_routing w) !! l.
Proof.
  assert (Hw : w = set_heap (rt_heap (w_routing w)) (rt_next (w_routing w)) w) by (by destruct w as [?????????????[]]).
  destruct (forM_heap (map_to_list idm) (fun p : Z * positive =>
    old ← gets (fun w => snd <$> cached w p.1); assign p.2 (take_over old)) w (rt_heap (w_routing w)))
    as (h' & E & Hv).
  - intros [id l] h.
    exists (alter (take_over (snd <$> cached (set_heap h (rt_next (w_routing w)) w) id)) l h).
    split; [done|]. intros l'.
    destruct (decide (l' = l)) as [->|].
    + rewrite lookup_alter_eq. destruct (h !! l); simpl; [|done]. f_equal. apply take_over_view.
    + by rewrite lookup_alter_ne.
  - exists h'. split; [|done]. rewrite <- Hw in E. exact E.
Qed.
End loading.

(** ** After a synchronisation *)

Section synced.
Context `{ChannelJson} (compile : string -> option (string -> bool)).
Context (sort_slice : (Z -> Z) -> list Z -> list Z).
(** sort.Slice permutes. *)
Hypothesis sort_slice_perm : forall f l, sort_slice f l ≡ₚ l.

(** What the rows of the channels must satisfy. *)
Definition rows_ok (d : DB) : Prop :=
  forall id c, d_channels d !! id = Some c -> sane c /\ settings_ok c /\ 0 <= GetWeight c.

(** The cache holds the rows of [d] and lists what the abilities of [d] list. *)
Definition synced (d : DB) (w : World) : Prop :=
  (forall id c, d_channels d !! id = Some c -> exists l c', cached w id = Some (l, c') /\
     routing_view c' = routing_view c) /\
  (forall id p, cached w id = Some p -> is_Some (d_channels d !! id)) /\
  (forall id id' l c c', cached w id = Some (l, c) -> cached w id' = Some (l, c') -> id = id') /\
  forall g m, lookup_models w g m ≡ₚ ab_ChannelId <$> where_abilities (serves g m) d.

Lemma get2_fmap (f : list Z -> list Z) (m : gmap string (gmap string (list Z))) g n :
  f [] ≡ₚ [] -> get2 (fmap (M := gmap string) f <$> m) g n ≡ₚ f (get2 m g n).
Proof.
  intros Hf. unfold get2. rewrite lookup_fmap. destruct (m !! g) as [m2|]; simpl.
  - rewrite lookup_fmap. destruct (m2 !! n); simpl; [done|by rewrite Hf].
  - rewrite !lookup_empty. simpl. by rewrite Hf.
Qed.
Lemma ability_groups_empty l g n : get2 (ability_groups l) g n = [].
Proof.
  unfold get2, ability_groups. destruct (list_to_map _ !! g) as [m|] eqn:E; simpl; [|done].
  apply elem_of_list_to_map_2, list_elem_of_fmap in E as (a & [= _ ->] & _). done.
Qed.
Lemma ability_groups_dom l g : g ∈ ab_Group <$> l -> is_Some (ability_groups l !! g).
Proof.
  unfold ability_groups. induction l as [|a l IH]; [by intros ?%elem_of_nil|].
  rewrite fmap_cons. intros Hin. simpl. destruct (decide (ab_Group a = g)) as [->|Hne].
  - rewrite lookup_insert_eq. eauto.
  - rewrite lookup_insert_ne by done. apply IH. by apply elem_of_cons in Hin as [?|?].
Qed.
Lemma group_has_ability d c g m : agree d -> sane c -> d_channels d !! cn_Id c = Some c ->
  (g, m) ∈ group_models c -> g ∈ ab_Group <$> all_abilities d.
Proof.
  intros [Hc Ha] Hs E Hin. apply list_elem_of_fmap.
  exists (with_priority (ability_of c m g)). split; [done|]. unfold all_abilities.
  apply list_elem_of_fmap. exists ((g, m, cn_Id c), with_priority (ability_of c m g)). split; [done|].
  apply elem_of_map_to_list. rewrite Ha, E. rewrite decide_True; [done|]. by apply elem_of_pairs.
Qed.

Lemma InitChannelCache_ok w : w_faults w = [] -> MemoryCacheEnabled (w_cfg w) = true ->
  agree (w_db w) -> rows_ok (w_db w) ->
  exists w', InitChannelCache sort_slice w = (Ok tt, w') /\ synced (w_db w) w' /\
    w_db w' = w_db w /\ w_faults w' = [] /\ w_cfg w' = w_cfg w.
Proof.
  intros Hf Hm Hag Hrows. destruct Hag as [Hc Ha] eqn:Hag'. set (d := w_db w) in *.
  assert (Hall : forall c, c ∈ all_channels d -> d_channels d !! cn_Id c = Some c)
    by (intros c; by apply elem_of_all_channels).
  assert (Hsane : Forall sane (all_channels d)) by (apply Forall_forall; intros c Hin; by destruct (Hrows _ _ (Hall c Hin))).
  assert (Hset : Forall settings_ok (all_channels d)) by (apply Forall_forall; intros c Hin; by destruct (Hrows _ _ (Hall c Hin)) as (_ & ? & _)).
  destruct (load_objects_ok (all_channels d) ∅ ∅ w Hset (all_channels_ids d Hc))
    as (idm & adv & h & n & Eload & _ & Hdom & _ & Hobj & _ & Hinj).
  { by intros id l ?%lookup_empty_Some. } { by intros id id' l ?%lookup_empty_Some. }
  destruct (index_channels_ok (all_channels d) (ability_groups (all_abilities d)) Hsane) as (g2 & Eidx & Hg2).
  { intros c Hin _ [g m] Hgm. apply ability_groups_dom. simpl. eapply group_has_ability; [by split| |by apply Hall|done].
    rewrite Forall_forall in Hsane. by apply Hsane. }
  destruct (take_over_all_ok idm (set_heap h n w)) as (h' & Etake & Hview).
  eexists. split; [|split; [|split; [|split]]].
  - unfold InitChannelCache. rewrite run_bind. unfold gets at 1. rewrite Hm. cbn [negb].
    assert (Hfind : forall {A} (x : A) (q : DB -> A) w, w_faults w = [] -> or_zero x (db_find HDB q) w = (Ok (q (w_db w)), w)).
    { clear. intros A x q w Hf. unfold or_zero, db_find. run_unfold. by rewrite ext_call_ok. }
    rewrite run_bind, Hfind by done. rewrite run_bind. fold d. rewrite Eload.
    rewrite run_bind, Hfind by done. simpl w_db. fold d.
    rewrite run_bind. unfold of_result. rewrite Eidx. rewrite run_bind, Etake. unfold modify. reflexivity.
  - assert (Hget : forall c, c ∈ all_channels d -> exists l c', idm !! cn_Id c = Some l /\ h' !! l = Some c' /\
              routing_view c' = routing_view c).
    { intros c Hin. destruct (Hobj c Hin) as (l & Hl & Hh). specialize (Hview l). simpl in Hview.
      rewrite Hh in Hview. destruct (h' !! l) as [c'|] eqn:E; [|done]. apply (inj Some) in Hview. by exists l, c'. }
    split; [|split; [|split]].
    + intros id c Hid. pose proof (Hc _ _ Hid) as <-. assert (Hin : c ∈ all_channels d) by by apply elem_of_all_channels.
      destruct (Hget c Hin) as (l & c' & Hl & Hh & Hv). exists l, c'. split; [|done].
      unfold cached, object. simpl. by rewrite Hl, Hh.
    + intros id p Hp. unfold cached in Hp. simpl in Hp. destruct (idm !! id) eqn:E; [|done].
      destruct (proj1 (Hdom id) ltac:(eauto)) as [[? He]|Hin]; [by apply lookup_empty_Some in He|].
      apply list_elem_of_fmap in Hin as (c & -> & Hin). rewrite (Hall c Hin). eauto.
    + intros id id' l c c'. unfold cached. simpl. destruct (idm !! id) eqn:E1; [|done].
      destruct (idm !! id') eqn:E2; [|done]. intros [= -> _] [= -> _]. by eapply Hinj.
    + intros g m. unfold lookup_models. simpl. fold (get2 (fmap (M := gmap string) (sort_slice
        (fun id => match find (fun c => cn_Id c =? id) (all_channels d) with Some c => GetPriority c | None => 0 end)) <$> g2) g m).
      rewrite get2_fmap by apply sort_slice_perm. rewrite sort_slice_perm, Hg2, ability_groups_empty. simpl.
      apply served_ids_perm; [by split|]. intros id c Hid. by destruct (Hrows _ _ Hid).
  - done.
  - exact Hf.
  - done.
Qed.

(** ** Both ways draw from the same channels *)

#[local] Instance Z_ge_antisymm : AntiSymm (=) Z.ge.
Proof. intros a b. lia. Qed.
Lemma desc_unique l l' : l ≡ₚ l' -> desc l = desc l'.
Proof.
  intros Hp. apply (StronglySorted_unique Z.ge); [apply desc_sorted|apply desc_sorted|].
  by rewrite !desc_perm.
Qed.
Lemma remove_dups_perm (l l' : list Z) : l ≡ₚ l' -> remove_dups l ≡ₚ remove_dups l'.
Proof.
  intros Hp. apply NoDup_Permutation; [apply NoDup_remove_dups|apply NoDup_remove_dups|].
  intros x. rewrite !elem_of_remove_dups. by rewrite Hp.
Qed.

Lemma view_priority c c' : routing_view c' = routing_view c -> GetPriority c' = GetPriority c.
Proof. intros E. change (GetPriority (routing_view c') = GetPriority (routing_view c)). by rewrite E. Qed.
Lemma view_weight c c' : routing_view c' = routing_view c -> GetWeight c' = GetWeight c.
Proof. intros E. change (GetWeight (routing_view c') = GetWeight (routing_view c)). by rewrite E. Qed.
Lemma view_id c c' : routing_view c' = routing_view c -> cn_Id c' = cn_Id c.
Proof. intros E. change (cn_Id (routing_view c') = cn_Id (routing_view c)). by rewrite E. Qed.

Lemma synced_consistent d w g m : agree d -> rows_ok d -> synced d w -> consistent w (lookup_models w g m).
Proof.
  intros Hag Hrows (Hrow & Hback & Hinj & Hids). unfold consistent. split; [|split; [|split; [|done]]].
  - rewrite Hids. by apply served_ids_NoDup.
  - intros id Hin. rewrite Hids in Hin. apply served_by_channel in Hin as (c & Hc & _); [|done|].
    + destruct (Hrow _ _ Hc) as (l & c' & -> & _). eauto.
    + intros id' c' Hc'. by destruct (Hrows _ _ Hc').
  - intros id l c Hc. destruct (Hback _ _ Hc) as [row Hr].
    destruct (Hrow _ _ Hr) as (l' & c' & Hc' & Hv). rewrite Hc in Hc'. injection Hc' as <- <-.
    rewrite (view_weight _ _ Hv). by destruct (Hrows _ _ Hr) as (_ & _ & ?).
Qed.

(** The objects of cached ids carry their ids and priorities. *)
Lemma synced_objects d w ids objects : agree d -> synced d w ->
  Forall2 (fun id p => cached w id = Some p) ids objects ->
  (fun p => GetPriority p.2) <$> objects = priority_of d <$> ids /\
  forall tp, (fun p => cn_Id p.2) <$> List.filter (fun p => GetPriority p.2 =? tp) objects
             = List.filter (fun id => priority_of d id =? tp) ids.
Proof.
  intros [Hc _] (Hrow & Hback & _). induction 1 as [|id [l c] ids objects Hid _ [IH1 IH2]]; [done|].
  destruct (Hback _ _ Hid) as [row Hr]. destruct (Hrow _ _ Hr) as (l' & c' & Hc' & Hv).
  rewrite Hid in Hc'. injection Hc' as <- <-.
  assert (Hp : GetPriority c = priority_of d id).
  { unfold priority_of. rewrite Hr. by apply view_priority. }
  split; [rewrite !fmap_cons, IH1; by f_equal|]. intros tp. simpl. rewrite Hp.
  destruct (priority_of d id =? tp); [|done]. rewrite fmap_cons, IH2. f_equal. simpl.
  rewrite (view_id _ _ Hv). by apply Hc.
Qed.

Lemma getChannelQuery_ok g m retry w : w_faults w = [] -> 0 <= retry ->
  where_abilities (serves g m) (w_db w) <> [] -> agree (w_db w) ->
  exists query, getChannelQuery g m retry w = (Ok query, w) /\
    let ps := priorities g m (w_db w) in
    let n := Z.of_nat (length ps) in
    query (w_db w) = at_priority g m (Some (nth (Z.to_nat (if retry >=? n then n - 1 else retry)) ps 0)) (w_db w).
Proof.
  intros Hf Hr Hne Hag.
  assert (Hps : priorities g m (w_db w) <> []).
  { unfold priorities. destruct (where_abilities (serves g m) (w_db w)) as [|a l] eqn:E; [done|]. intros Hd.
    assert (Hin : priority_of (w_db w) (ab_ChannelId a) ∈ desc (remove_dups (omap ab_Priority (a :: l)))).
    { rewrite <- E, served_priorities by done. rewrite desc_perm, elem_of_remove_dups, E. by left. }
    rewrite Hd in Hin. by apply elem_of_nil in Hin. }
  unfold getChannelQuery. destruct (Z.eqb_spec retry 0) as [->|Hr0].
  - eexists. split; [done|]. cbv zeta beta.
    destruct (priorities g m (w_db w)) as [|p ps]; [done|]. simpl.
    destruct (Z.geb_spec 0 (Z.of_nat (S (length ps)))); [lia|done].
  - assert (Hget : getPriority g m retry w = (Ok (nth (Z.to_nat (if retry >=? Z.of_nat (length (priorities g m (w_db w)))
        then Z.of_nat (length (priorities g m (w_db w))) - 1 else retry)) (priorities g m (w_db w)) 0), w)).
    { unfold getPriority, db_find. run_unfold. rewrite ext_call_ok by done. simpl.
      rewrite bool_decide_eq_false_2 by done. run_unfold. do 2 f_equal.
      destruct (retry >=? _); [|done].
      destruct (priorities g m (w_db w)) as [|p ps] eqn:E; [done|]. clear.
      replace (Z.to_nat (Z.of_nat (length (p :: ps)) - 1)) with (length ps) by (simpl; lia).
      revert p. induction ps as [|q ps IH]; intros p; [done|].
      change (List.last (p :: q :: ps) 0) with (List.last (q :: ps) 0). by rewrite IH. }
    eexists. rewrite run_bind, Hget. by split.
Qed.

End synced.
