(* ===== verification/ChannelAdminProofs.v ===== *)
(** * The abilities follow the channels

    Every administrative operation that succeeds leaves the abilities table with
    exactly the rows that its channels call for; the repair restores that from any
    state.  The exceptions found are at the end. *)

From S2P Require Import Prelude GoStd GoFloat World Sample ModelUtils SubscriptionTime Subscription AdvancedCustom ChannelModel Ability ChannelCache ChannelAdmin RoutingProofs RoutingSync.
Import GoStrings GoText.

(** ** Tables with some channels still to be entered *)

Definition expected (d : DB) (g m : string) (id : Z) : option Ability :=
  match d_channels d !! id with
  | Some c => if decide ((m, g) ∈ pairs_of c) then Some (with_priority (ability_of c m g)) else None
  | None => None
  end.
(** The channels [S] have no abilities, the others have theirs. *)
Definition agree_but (S : list Z) (d : DB) : Prop :=
  (forall id c, d_channels d !! id = Some c -> cn_Id c = id /\ id <> 0) /\
  forall g m id, d_abilities d !! (g, m, id) = if decide (id ∈ S) then None else expected d g m id.

Lemma agree_but_nil d : agree_but [] d -> agree d.
Proof.
  intros [Hk Ha]. split; [intros id c Hc; by destruct (Hk _ _ Hc)|]. intros g m id. rewrite Ha.
  by rewrite decide_False by by intros ?%elem_of_nil.
Qed.

(** A channel that is entered: its row was stored and it had no abilities. *)
Lemma insert_abilities_lookup c ps d g m id :
  (forall g m, d_abilities d !! (g, m, cn_Id c) = None \/
               d_abilities d !! (g, m, cn_Id c) = Some (with_priority (ability_of c m g))) ->
  d_abilities (insert_abilities ((fun p => ability_of c p.1 p.2) <$> ps) d) !! (g, m, id)
  = if decide (id = cn_Id c /\ (m, g) ∈ ps) then Some (with_priority (ability_of c m g))
    else d_abilities d !! (g, m, id).
Proof.
  unfold insert_abilities. revert d. induction ps as [|[m0 g0] ps IH]; intros d Hd.
  - rewrite decide_False; [done|]. by intros [_ ?%elem_of_nil].
  - simpl. set (d1 := insert_ability (ability_of c m0 g0) d).
    assert (H1 : forall k, d_abilities d1 !! k = if decide (k = (g0, m0, cn_Id c))
        then Some (with_priority (ability_of c m0 g0)) else d_abilities d !! k).
    { intros k. unfold d1, insert_ability. change (ability_key (ability_of c m0 g0)) with (g0, m0, cn_Id c).
      destruct (Hd g0 m0) as [E|E]; rewrite E; simpl.
      - destruct (decide (k = (g0, m0, cn_Id c))) as [->|Hne].
        + by rewrite lookup_insert_eq.
        + by rewrite lookup_insert_ne.
      - by destruct (decide (k = (g0, m0, cn_Id c))) as [->|]. }
    rewrite IH.
    + pose proof (elem_of_cons ps (m, g) (m0, g0)) as Hcons. rewrite H1.
      destruct (decide (id = cn_Id c /\ (m, g) ∈ ps)) as [[-> Hin]|Hn].
      * rewrite decide_True; [done|]. split; [done|]. by apply Hcons; right.
      * destruct (decide ((g, m, id) = (g0, m0, cn_Id c))) as [E|E].
        -- simplify_eq. rewrite decide_True; [done|]. split; [done|]. by apply Hcons; left.
        -- rewrite decide_False; [done|]. intros [-> Hx]. apply Hcons in Hx as [Hx|Hx]; [apply E; congruence|by apply Hn].
    + intros g' m'. rewrite H1. destruct (decide ((g', m', cn_Id c) = (g0, m0, cn_Id c))) as [E|E]; [|apply Hd].
      right. by injection E as -> ->.
Qed.
Lemma insert_abilities_channels l d : d_channels (insert_abilities l d) = d_channels d.
Proof.
  unfold insert_abilities. revert d. induction l as [|a l IH]; intros d; simpl; [done|].
  rewrite IH. unfold insert_ability. by destruct (_ !! _).
Qed.

Lemma enter_channel c d S : agree_but S d -> d_channels d !! cn_Id c = Some (row_of c) -> cn_Id c ∈ S ->
  agree_but (List.filter (fun id => negb (id =? cn_Id c)) S) (insert_abilities (abilities_of c) d).
Proof.
  intros [Hk Ha] Hc Hin. split.
  { intros id c'. rewrite insert_abilities_channels. apply Hk. }
  intros g m id. unfold abilities_of. rewrite insert_abilities_lookup.
  2:{ intros g' m'. left. rewrite Ha. by rewrite decide_True. }
  unfold expected. rewrite insert_abilities_channels. fold (expected d g m id). rewrite Ha.
  destruct (decide (id = cn_Id c)) as [->|Hne].
  - rewrite (decide_False (P := cn_Id c ∈ List.filter _ S)).
    2:{ rewrite elem_of_filter'. intros [_ Hx]. by rewrite Z.eqb_refl in Hx. }
    rewrite (decide_True (P := cn_Id c ∈ S)) by done. unfold expected. rewrite Hc.
    change (pairs_of (row_of c)) with (fresh_pairs [] (channel_pairs c)).
    change (ability_of (row_of c) m g) with (ability_of c m g).
    destruct (decide ((m, g) ∈ fresh_pairs [] (channel_pairs c))).
    + by rewrite decide_True.
    + rewrite decide_False; [done|]. by intros [_ ?].
  - rewrite decide_False by by intros [? _].
    destruct (decide (id ∈ S)) as [Hs|Hs].
    + rewrite decide_True; [done|]. apply elem_of_filter'. split; [done|].
      by apply negb_true_iff, Z.eqb_neq.
    + rewrite decide_False; [done|]. intros [? _]%elem_of_filter'. done.
Qed.

Lemma concat_chunk_fuel {A} fuel n (l : list A) : (0 < n)%nat -> (length l <= fuel)%nat ->
  concat (chunk_fuel fuel n l) = l.
Proof.
  intros Hn. revert l. induction fuel as [|fuel IH]; intros l Hl; [by destruct l; simpl in *; [|lia]|].
  destruct l as [|x l]; [done|]. cbn [chunk_fuel concat]. rewrite IH.
  - apply take_drop.
  - rewrite length_drop. simpl in *. lia.
Qed.
Lemma concat_Chunk {A} n (l : list A) : (0 < n)%nat -> concat (Chunk l n) = l.
Proof. intros. by apply concat_chunk_fuel. Qed.

(** ** Runs without failing calls *)

(** The world with other tables, as [h] sees them. *)
Definition quiet (w : World) : Prop := w_faults w = [].
Lemma db_exec_ok h f w : quiet w -> db_exec h f w = (Ok tt, exec_write h f w).
Proof. intros Hf. unfold db_exec. run_unfold. by rewrite ext_call_ok. Qed.
Lemma exec_write_view h f w : view h (exec_write h f w) = f (view h w).
Proof. destruct h; simpl; [done|]. unfold apply_log. by rewrite fold_left_app. Qed.
Lemma exec_write_quiet h f w : quiet w -> quiet (exec_write h f w).
Proof. by destruct h. Qed.

(** A computation that only writes through [h], to the tables [f] makes. *)
Definition writes {A} (h : handle) (m : MW A) (w : World) (a : A) (d : DB) : Prop :=
  exists w', m w = (Ok a, w') /\ quiet w' /\ view h w' = d /\ w_next_id w' = w_next_id w /\
    (h = HTX -> w_db w' = w_db w).

Lemma create_abilities_writes h c w : quiet w ->
  writes h (create_abilities h c) w tt (insert_abilities (abilities_of c) (view h w)).
Proof.
  unfold create_abilities. rewrite <- (concat_Chunk 50 (abilities_of c)) at 2 by lia.
  generalize (Chunk (abilities_of c) 50). intros chunks. revert w.
  induction chunks as [|l chunks IH]; intros w Hq; simpl; [by eexists|].
  destruct (IH (exec_write h (insert_abilities l) w)) as (w' & E & Hq' & Hv & Hn & Hdb).
  { by apply exec_write_quiet. }
  exists w'. rewrite run_bind, db_exec_ok by done. split; [done|]. split; [done|]. split.
  - rewrite Hv, exec_write_view. unfold insert_abilities. by rewrite fold_left_app.
  - split; [by rewrite Hn; destruct h|]. intros ->. by apply Hdb.
Qed.

(** ** Deleting and replacing *)

Lemma delete_abilities_lookup cond d k : d_abilities (delete_abilities cond d) !! k
  = match d_abilities d !! k with Some a => if cond a then None else Some a | None => None end.
Proof.
  unfold delete_abilities. simpl. rewrite map_lookup_filter. destruct (d_abilities d !! k) as [a|]; simpl; [|done].
  destruct (cond a) eqn:E; [by rewrite option_guard_False by congruence|by rewrite option_guard_True].
Qed.
Lemma delete_channels_lookup cond d id : d_channels (delete_channels cond d) !! id
  = match d_channels d !! id with Some c => if cond c then None else Some c | None => None end.
Proof.
  unfold delete_channels. simpl. rewrite map_lookup_filter. destruct (d_channels d !! id) as [c|]; simpl; [|done].
  destruct (cond c) eqn:E; [by rewrite option_guard_False by congruence|by rewrite option_guard_True].
Qed.

Lemma expected_id d g m id a : (forall id c, d_channels d !! id = Some c -> cn_Id c = id /\ id <> 0) ->
  expected d g m id = Some a -> ab_ChannelId a = id.
Proof.
  unfold expected. intros Hk. destruct (d_channels d !! id) as [c|] eqn:E; [|done].
  case_decide; [|done]. intros [= <-]. simpl. by destruct (Hk _ _ E).
Qed.
(** Deleting the abilities of some channels. *)
Lemma drop_abilities (cond : Z -> bool) (S ids : list Z) d : agree_but S d ->
  (forall id, is_Some (d_channels d !! id) -> cond id = true -> id ∈ ids) ->
  (forall id, id ∈ ids -> cond id = true) ->
  agree_but (ids ++ S) (delete_abilities (fun a => cond (ab_ChannelId a)) d).
Proof.
  intros [Hk Ha] Hc Hc'. split; [done|]. intros g m id. rewrite delete_abilities_lookup, Ha.
  unfold expected. change (d_channels (delete_abilities _ d)) with (d_channels d). fold (expected d g m id).
  destruct (decide (id ∈ S)) as [Hs|Hs].
  { rewrite decide_True; [done|]. apply elem_of_app. by right. }
  destruct (decide (id ∈ ids ++ S)) as [Hi|Hi].
  - apply elem_of_app in Hi as [Hi|?]; [|done]. destruct (expected d g m id) as [a|] eqn:E; [|done].
    by rewrite (expected_id _ _ _ _ _ Hk E), Hc'.
  - destruct (expected d g m id) as [a|] eqn:E; [|done]. rewrite (expected_id _ _ _ _ _ Hk E).
    destruct (cond id) eqn:Ec; [|done]. destruct Hi. apply elem_of_app. left. apply Hc; [|done].
    unfold expected in E. destruct (d_channels d !! id); [by eexists|done].
Qed.
(** Changing or deleting the rows of channels that have no abilities. *)
Lemma change_rows (f : option Channel -> option Channel) S d d' : agree_but S d ->
  d_abilities d' = d_abilities d ->
  (forall id, d_channels d' !! id = if decide (id ∈ S) then f (d_channels d !! id) else d_channels d !! id) ->
  (forall id c, id ∈ S -> f (d_channels d !! id) = Some c -> cn_Id c = id /\ id <> 0) ->
  agree_but S d'.
Proof.
  intros [Hk Ha] Hab Hch Hf. split.
  - intros id c. rewrite Hch. case_decide; [by apply Hf|by apply Hk].
  - intros g m id. rewrite Hab, Ha. case_decide; [done|]. unfold expected. rewrite Hch.
    by rewrite decide_False.
Qed.
(** A deleted channel needs no abilities. *)
Lemma agree_but_gone S d : agree_but S d -> (forall id, id ∈ S -> d_channels d !! id = None) -> agree_but [] d.
Proof.
  intros [Hk Ha] Hn. split; [done|]. intros g m id. rewrite Ha.
  rewrite (decide_False (P := id ∈ [])) by by intros ?%elem_of_nil.
  case_decide; [|done]. unfold expected. by rewrite Hn.
Qed.

(** ** The operations *)

(** No call fails, ids are handed out from 1, and the tables agree. *)
Definition Inv (w : World) : Prop := quiet w /\ 0 < w_next_id w /\ agree_but [] (w_db w).

Lemma agree_but_put c d S : agree_but S d -> cn_Id c <> 0 -> d_channels d !! cn_Id c = None ->
  agree_but (cn_Id c :: S) (put_channel c d).
Proof.
  intros [Hk Ha] H0 Hn. unfold put_channel. split; simpl.
  - intros id c' [[<- <-]|[? ?]]%lookup_insert_Some; [done|by apply Hk].
  - intros g m id. rewrite Ha. pose proof (elem_of_cons S id (cn_Id c)) as Hcons. unfold expected. simpl.
    destruct (decide (id = cn_Id c)) as [->|Hne].
    + rewrite (decide_True (P := _ ∈ _ :: _)) by (by left). case_decide; [done|]. by rewrite Hn.
    + rewrite lookup_insert_ne by done.
      destruct (decide (id ∈ S)), (decide (id ∈ cn_Id c :: S)); naive_solver.
Qed.
Lemma agree_but_sub S T d : agree_but S d -> (forall id, id ∈ S <-> id ∈ T) -> agree_but T d.
Proof.
  intros [Hk Ha] H. split; [done|]. intros g m id. rewrite Ha.
  destruct (decide (id ∈ S)), (decide (id ∈ T)); naive_solver.
Qed.

(** A new row with its abilities. *)
Lemma agree_insert c d : agree_but [] d -> cn_Id c <> 0 -> d_channels d !! cn_Id c = None ->
  agree_but [] (insert_abilities (abilities_of c) (put_channel c d)).
Proof.
  intros Hd H0 Hn. pose proof (agree_but_put c d [] Hd H0 Hn) as H1.
  apply (enter_channel c) in H1; [|by simpl; rewrite lookup_insert_eq|by left].
  eapply agree_but_sub; [done|]. intros id. rewrite elem_of_filter'. split; [|by intros ?%elem_of_nil].
  intros [Hi%list_elem_of_singleton Hx]. subst. by rewrite Z.eqb_refl in Hx.
Qed.
(** Rows and abilities that are deleted together. *)
Lemma agree_delete (cond : Z -> bool) d S : agree_but S d ->
  agree_but S (delete_abilities (fun a => cond (ab_ChannelId a)) (delete_channels (fun c => cond (cn_Id c)) d)).
Proof.
  intros [Hk Ha]. split.
  - intros id c. change (d_channels (delete_abilities _ ?x)) with (d_channels x).
    rewrite delete_channels_lookup. destruct (d_channels d !! id) as [c'|] eqn:E; [|done].
    destruct (cond _); [done|]. intros [= <-]. by apply Hk.
  - intros g m id. rewrite delete_abilities_lookup.
    change (d_abilities (delete_channels ?c ?x)) with (d_abilities x). rewrite Ha.
    unfold expected at 2. change (d_channels (delete_abilities _ ?x)) with (d_channels x).
    rewrite delete_channels_lookup. case_decide; [done|]. unfold expected.
    destruct (d_channels d !! id) as [c|] eqn:E; [|done]. destruct (Hk _ _ E) as [<- _].
    case_decide; simpl; destruct (cond (cn_Id c)) eqn:Ec; try done; simpl; try by rewrite decide_True.
    all: by rewrite ?decide_False.
Qed.
(** The abilities of a stored channel are replaced. *)
Lemma agree_replace c d : (forall id c, d_channels d !! id = Some c -> cn_Id c = id /\ id <> 0) ->
  (forall g m id, id <> cn_Id c -> d_abilities d !! (g, m, id) = expected d g m id) ->
  (forall g m a, d_abilities d !! (g, m, cn_Id c) = Some a -> ab_ChannelId a = cn_Id c) ->
  d_channels d !! cn_Id c = Some (row_of c) ->
  agree_but [] (insert_abilities (abilities_of c) (delete_abilities (of_channel (cn_Id c)) d)).
Proof.
  intros Hk Ha Ho Hc.
  assert (H1 : agree_but [cn_Id c] (delete_abilities (of_channel (cn_Id c)) d)).
  { split; [done|]. intros g m id. rewrite delete_abilities_lookup.
    unfold expected. change (d_channels (delete_abilities _ d)) with (d_channels d). fold (expected d g m id).
    pose proof (list_elem_of_singleton id (cn_Id c)) as Hs. unfold of_channel. case_decide.
    - destruct (d_abilities d !! (g, m, id)) as [a|] eqn:E; [|done].
      assert (id = cn_Id c) as -> by tauto. by rewrite (Ho _ _ _ E), Z.eqb_refl.
    - rewrite Ha by tauto. destruct (expected d g m id) as [a|] eqn:E; [|done].
      rewrite (expected_id _ _ _ _ _ Hk E). by rewrite (proj2 (Z.eqb_neq _ _)) by tauto. }
  apply (enter_channel c) in H1; [|done|by left].
  eapply agree_but_sub; [done|]. intros id. rewrite elem_of_filter'. split; [|by intros ?%elem_of_nil].
  intros [Hi%list_elem_of_singleton Hx]. subst. by rewrite Z.eqb_refl in Hx.
Qed.
(** Rows and abilities that change alike. *)
Lemma agree_map (F : Channel -> Channel) (G : Ability -> Ability) d d' : agree_but [] d ->
  (forall id, d_channels d' !! id = F <$> d_channels d !! id) ->
  (forall k, d_abilities d' !! k = G <$> d_abilities d !! k) ->
  (forall c, d_channels d !! cn_Id c = Some c ->
     cn_Id (F c) = cn_Id c /\ pairs_of (F c) = pairs_of c /\
     forall m g, with_priority (ability_of (F c) m g) = G (with_priority (ability_of c m g))) ->
  agree_but [] d'.
Proof.
  intros [Hk Ha] Hc Hab HF.
  assert (HF' : forall id c, d_channels d !! id = Some c -> cn_Id (F c) = id /\ pairs_of (F c) = pairs_of c /\
     forall m g, with_priority (ability_of (F c) m g) = G (with_priority (ability_of c m g))).
  { intros id c E. destruct (Hk _ _ E) as [<- _]. by apply HF. }
  split.
  - intros id c. rewrite Hc. destruct (d_channels d !! id) as [c0|] eqn:E; [|done]. intros [= <-].
    split; [by apply HF'|by eapply Hk].
  - intros g m id. rewrite Hab, Ha. unfold expected. rewrite Hc.
    rewrite !(decide_False (P := id ∈ [])) by by intros ?%elem_of_nil.
    destruct (d_channels d !! id) as [c|] eqn:E; [|done]. simpl. destruct (HF' _ _ E) as (_ & Hp & Hr).
    rewrite Hp. case_decide; [|done]. simpl. by rewrite Hr.
Qed.

Section operations.
Context `{ChannelJson}.

(** Only the counter of the ids moved. *)
Definition counted (w w' : World) : Prop :=
  quiet w' /\ 0 < w_next_id w' /\ w_db w' = w_db w /\ w_log w' = w_log w /\ w_routing w' = w_routing w /\
  w_cfg w' = w_cfg w.

Lemma insert_channel_cases h c w : quiet w -> 0 < w_next_id w ->
  exists id w', counted w w' /\ id <> 0 /\
    (insert_channel h c w = (Err ErrDuplicatedKey, w') \/
     let c' := with_defaults c <| cn_Id := id |> in
     d_channels (view h w) !! id = None /\ insert_channel h c w = (Ok c', exec_write h (put_channel c') w')).
Proof.
  intros Hq Hn. unfold insert_channel.
  exists (if cn_Id c =? 0 then w_next_id w else cn_Id c).
  exists (if cn_Id c =? 0 then w <| w_next_id := w_next_id w + 1 |> else w).
  destruct (Z.eqb_spec (cn_Id c) 0) as [E|E]; (split; [unfold counted; repeat split; try done; simpl; lia|]);
    (split; [lia|]); run_unfold.
  - change (view h (w <| w_next_id := w_next_id w + 1 |>)) with (view h w).
    case_bool_decide as Ht; [by left|right]. split; [by apply eq_None_not_Some|done].
  - case_bool_decide as Ht; [by left|right]. split; [by apply eq_None_not_Some|done].
Qed.

(** Inserting the object at [l]. *)
Lemma InsertChannel_Inv l w : Inv w -> is_Some (rt_heap (w_routing w) !! l) -> Inv (InsertChannel l w).2.
Proof.
  intros (Hq & Hn & Hd) [c0 Hl]. unfold InsertChannel, deref. rewrite run_bind. unfold gets at 1.
  unfold create_channels. rewrite !run_bind, ext_call_ok by done. simpl. rewrite run_bind.
  destruct (insert_channel_cases HDB (object w l) w Hq Hn) as (id & w' & (Hq' & Hn' & Hdb & _ & Hr & _) & Hid & [->|[Ht ->]]).
  { unfold Inv. simpl. by rewrite Hdb. }
  set (c' := with_defaults _ <| cn_Id := id |> : Channel).
  set (w1 := exec_write HDB (put_channel c') w').
  set (w2 := w1 <| w_routing := w_routing w1 <| rt_heap := alter (fun _ : Channel => (c' : Channel)) l (rt_heap (w_routing w1)) |> |>).
  change (Inv (create_abilities HDB (object w2 l) w2).2).
  assert (Ho : object w2 l = c').
  { unfold object, w2, w1. simpl. by rewrite Hr, lookup_alter_eq, Hl. }
  rewrite Ho. destruct (create_abilities_writes HDB c' w2 Hq') as (w3 & E & Hq3 & Hv & Hn3 & _).
  rewrite E. split; [done|]. split; [simpl; by rewrite Hn3|].
  simpl. change (w_db w3) with (view HDB w3). rewrite Hv. apply (agree_insert c'); [|done|by rewrite Hdb].
  by rewrite Hdb.
Qed.
Lemma DeleteChannel_Inv l w : Inv w -> Inv (DeleteChannel l w).2.
Proof.
  intros (Hq & Hn & Hd). unfold DeleteChannel, deref. rewrite run_bind. unfold gets.
  rewrite run_bind, db_exec_ok by done. unfold DeleteAbilities. rewrite db_exec_ok by done.
  split; [done|]. split; [done|]. simpl. 
  by apply (agree_delete (fun id => id =? cn_Id (object w l))).
Qed.


(** *** Updating *)

(** Only the objects changed. *)
Definition same_tables (w w' : World) : Prop :=
  w_db w' = w_db w /\ w_log w' = w_log w /\ w_faults w' = w_faults w /\ w_next_id w' = w_next_id w /\
  w_cfg w' = w_cfg w.
#[local] Instance same_tables_preorder : PreOrder same_tables.
Proof. split; unfold same_tables; repeat intro; intuition congruence. Qed.
Lemma same_tables_Inv w w' : same_tables w w' -> Inv w -> Inv w'.
Proof. intros (Hd & _ & Hf & Hn & _). unfold Inv, quiet. by rewrite Hd, Hf, Hn. Qed.

Lemma assign_run l f w : exists w', (assign l f : MW unit) w = (Ok tt, w') /\ same_tables w w' /\
  rt_next (w_routing w') = rt_next (w_routing w) /\ rt_channelsIDM (w_routing w') = rt_channelsIDM (w_routing w) /\
  forall l', object w' l' = default zero_channel ((if decide (l' = l) then f <$> rt_heap (w_routing w) !! l
                                                   else rt_heap (w_routing w) !! l')).
Proof.
  eexists. split; [done|]. split; [done|]. split; [done|]. split; [done|]. intros l'. unfold object. simpl.
  case_decide as E; [by rewrite E, lookup_alter_eq|by rewrite lookup_alter_ne].
Qed.
Lemma GetChannelById_run id b w : quiet w ->
  match d_channels (w_db w) !! id with
  | Some c => exists w', GetChannelById id b w = (Ok (rt_next (w_routing w)), w') /\ same_tables w w' /\
      rt_next (w_routing w') = Pos.succ (rt_next (w_routing w)) /\
      rt_channelsIDM (w_routing w') = rt_channelsIDM (w_routing w) /\
      object w' (rt_next (w_routing w)) = (if b then c else omit_key c) /\
      rt_heap (w_routing w') !! rt_next (w_routing w) = Some (if b then c else omit_key c) /\
      forall l, l <> rt_next (w_routing w) -> object w' l = object w l
  | None => GetChannelById id b w = (Err ErrRecordNotFound, w)
  end.
Proof.
  intros Hq. unfold GetChannelById, db_first, db_find. rewrite !run_bind, ext_call_ok by done. run_unfold.
  destruct (d_channels (w_db w) !! id) as [c|]; [|done]. eexists. split; [done|]. split; [done|].
  split; [done|]. split; [done|]. unfold object. simpl. rewrite lookup_insert_eq. split; [done|]. split; [done|].
  intros l Hl. by rewrite lookup_insert_ne.
Qed.

Lemma Transaction_writes fn w d : quiet w -> writes HTX fn (w <| w_log := [] |>) tt d ->
  exists w', Transaction fn w = (Ok tt, w') /\ quiet w' /\ w_next_id w' = w_next_id w /\ w_db w' = d.
Proof.
  intros Hq (w' & E & Hq' & Hv & Hn & Hd). eexists. split; [exact (Transaction_ok fn w _ _ Hq E Hq')|]. done.
Qed.
Lemma UpdateAbilities_run c w : quiet w -> exists w', UpdateAbilities false c w = (Ok tt, w') /\ quiet w' /\
  w_next_id w' = w_next_id w /\
  w_db w' = insert_abilities (abilities_of c) (delete_abilities (of_channel (cn_Id c)) (w_db w)).
Proof.
  intros Hq. apply Transaction_writes; [done|]. unfold update_abilities_tx.
  set (w0 := w <| w_log := [] |> : World).
  destruct (create_abilities_writes HTX c (exec_write HTX (delete_abilities (of_channel (cn_Id c))) w0) Hq) as (w' & E & Hq' & Hv & Hn & Hd).
  exists w'. rewrite run_bind, db_exec_ok by done. split; [done|]. split; [done|].
  split; [by rewrite Hv, exec_write_view|]. split; [done|]. intros _. by rewrite Hd.
Qed.

(** The key text of a multi-key channel, read from its row when it is not given. *)
Lemma key_text_run l w : quiet w -> l <> rt_next (w_routing w) ->
  exists k w', (if decide (cn_Key (object w l) = "") then
      r ← attempt (GetChannelById (cn_Id (object w l)) true);
      match r with
      | Ok l' => c' ← deref l'; mret (cn_Key c')
      | Err _ => mret ""
      end
    else mret (cn_Key (object w l)) : MW string) w = (Ok k, w') /\ same_tables w w' /\
    cn_Id (object w' l) = cn_Id (object w l).
Proof.
  intros Hq Hl. case_decide; [|by eexists _, w].
  pose proof (GetChannelById_run (cn_Id (object w l)) true w Hq) as HG.
  rewrite run_bind. unfold attempt.
  destruct (d_channels (w_db w) !! cn_Id (object w l)) as [c|].
  - destruct HG as (w' & -> & Hs & _ & _ & _ & _ & Ho). eexists _, w'. split; [done|]. split; [done|].
    by rewrite Ho.
  - rewrite HG. by eexists _, w.
Qed.

Lemma resize_keys_run l w : quiet w -> l <> rt_next (w_routing w) ->
  exists w', resize_keys l w = (Ok tt, w') /\ same_tables w w' /\ cn_Id (object w' l) = cn_Id (object w l).
Proof.
  intros Hq Hl. unfold resize_keys. rewrite run_bind. unfold deref at 1, gets at 1.
  destruct (ci_IsMultiKey _); [|by exists w].
  destruct (key_text_run l w Hq Hl) as (k & w1 & E & Hs & Hi). rewrite run_bind, E.
  set (f := fun c : Channel => c <| cn_ChannelInfo := resize _ (cn_ChannelInfo c) |> : Channel).
  destruct (assign_run l f w1) as (w2 & -> & Hs2 & _ & _ & Ho). exists w2. split; [done|].
  split; [by transitivity w1|]. rewrite Ho, decide_True by done. rewrite <- Hi. unfold object.
  by destruct (_ !! l).
Qed.

Lemma agree_but_stored d id c : agree_but [] d -> d_channels d !! id = Some c -> cn_Id c = id.
Proof. intros [Hk _] E. by destruct (Hk _ _ E). Qed.
(** The abilities follow a row that is saved with its id. *)
Lemma agree_save (f : Channel -> Channel) id r d c : agree_but [] d -> d_channels d !! id = Some r ->
  cn_Id (f r) = id -> row_of c = f r -> cn_Id c = id ->
  agree_but [] (insert_abilities (abilities_of c) (delete_abilities (of_channel (cn_Id c)) (update_channel id f d))).
Proof.
  intros Hd Hr Hf Hc Hi. destruct Hd as [Hk Ha]. apply agree_replace.
  - intros id' c'. simpl. destruct (decide (id' = id)) as [->|].
    + rewrite lookup_alter_eq, Hr. intros [= <-]. split; [done|]. by destruct (Hk _ _ Hr).
    + rewrite lookup_alter_ne by done. apply Hk.
  - intros g m id' Hne. rewrite Hi in Hne. simpl. rewrite Ha. rewrite decide_False by by intros ?%elem_of_nil.
    unfold expected. simpl. by rewrite lookup_alter_ne.
  - intros g m a. simpl. rewrite Ha, decide_False by by intros ?%elem_of_nil. by apply expected_id.
  - simpl. rewrite Hi, lookup_alter_eq, Hr. simpl. by rewrite Hc.
Qed.

(** Saving the non-zero fields of an object and its abilities. *)
Lemma UpdateChannel_Inv l w : Inv w -> l <> rt_next (w_routing w) ->
  is_Some (d_channels (w_db w) !! cn_Id (object w l)) -> Inv (UpdateChannel l w).2.
Proof.
  intros HI Hl [r Hr]. unfold UpdateChannel. rewrite run_bind.
  destruct (resize_keys_run l w) as (w1 & -> & Hs1 & Hi); [apply HI|done|].
  apply (same_tables_Inv _ _ Hs1) in HI. destruct Hs1 as (Hd1 & _). rewrite <- Hi, <- Hd1 in Hr. clear w Hl Hi Hd1.
  set (c := object w1 l) in *. set (f := merge_channel c).
  assert (Hid : cn_Id r = cn_Id c /\ cn_Id c <> 0).
  { destruct HI as (_ & _ & Hk & _). by apply Hk. }
  set (w2 := exec_write HDB (update_channel (cn_Id c) f) w1).
  destruct HI as (Hq & Hn & Ha).
  destruct (assign_run l (fun c : Channel => (f r <| cn_Keys := cn_Keys c |> : Channel)) w2) as (w3 & E3 & Hs3 & _ & _ & Ho).
  destruct (UpdateAbilities_run (object w3 l) w3) as (w4 & E4 & Hq4 & Hn4 & Hd4).
  { unfold quiet. by destruct Hs3 as (_ & _ & -> & _). }
  assert (Hrow : d_channels (w_db w2) !! cn_Id c = Some (f r)).
  { simpl. by rewrite lookup_alter_eq, Hr. }
  assert (E : (deref l ≫= fun c => db_exec HDB (update_channel (cn_Id c) (merge_channel c)) ≫= fun _ =>
    attempt (db_first HDB (fun d => d_channels d !! cn_Id c)) ≫= fun r =>
    match r with
    | Ok row => assign l (fun c => row <| cn_Keys := cn_Keys c |>)
    | Err _ => mret tt
    end ≫= fun _ => deref l ≫= fun c => UpdateAbilities false c) w1 = (Ok tt, w4)).
  { unfold deref. rewrite run_bind. unfold gets at 1. rewrite run_bind, db_exec_ok by done.
    assert (E2 : db_first HDB (fun d => d_channels d !! cn_Id c) w2 = (Ok (f r), w2)).
    { unfold db_first, db_find. rewrite !run_bind, ext_call_ok by done. unfold gets.
      change (view HDB w2) with (w_db w2). by rewrite Hrow. }
    change (exec_write HDB _ w1) with w2. rewrite run_bind. unfold attempt.
    change (object w1 l) with c. rewrite E2, run_bind, E3, run_bind. exact E4. }
  rewrite E. split; [done|]. destruct Hs3 as (Hd3 & _ & _ & Hn3 & _). split; [simpl; by rewrite Hn4, Hn3|].
  simpl. rewrite Hd4, Hd3. simpl.
  assert (Hc : row_of (object w3 l) = f r /\ cn_Id (object w3 l) = cn_Id c).
  { rewrite Ho, decide_True by done. unfold w2. simpl.
    unfold c, object in Hid |- *. destruct (_ !! l); [|by destruct Hid]. simpl. by destruct Hid. }
  destruct Hc as [Hc Hc']. rewrite Hc'. rewrite <- Hc' at 1. rewrite Hc' at 1.
  pose proof (agree_save f (cn_Id c) r (w_db w1) (object w3 l) Ha Hr) as HA. rewrite Hc' in HA. apply HA; [by apply Hid|done|done].
Qed.

(** *** Status *)

Lemma key_index_range i usingKey keys idx : key_index i usingKey keys = Some idx ->
  i <= idx < i + Z.of_nat (length keys).
Proof.
  revert i. induction keys as [|k keys IH]; intros i; simpl; [done|].
  case_decide; [intros [= <-]; lia|]. intros ?%IH. lia.
Qed.
Lemma multi_key_update_frame now usingKey status reason c :
  let c' := multi_key_update now usingKey status reason c in
  cn_Id c' = cn_Id c /\ cn_Models c' = cn_Models c /\ cn_Group c' = cn_Group c /\
  cn_Priority c' = cn_Priority c /\ cn_Weight c' = cn_Weight c /\ cn_Tag c' = cn_Tag c.
Proof.
  unfold multi_key_update, stamp_status. destruct (GetKeys c); [done|].
  destruct (key_index _ _ _); [|by case_decide]. destruct (negb _); [done|]. by destruct (_ =? _).
Qed.
(** A status that changes becomes enabled exactly when that was asked for. *)
Lemma multi_key_update_status now usingKey status reason c :
  let c' := multi_key_update now usingKey status reason c in
  cn_Status c' <> cn_Status c -> (cn_Status c' =? ChannelStatusEnabled) = (status =? ChannelStatusEnabled).
Proof.
  unfold multi_key_update, stamp_status. destruct (GetKeys c) as [|k keys] eqn:Ek; [done|].
  destruct (key_index _ _ _) as [idx|] eqn:Ei; [|by case_decide].
  set (c1 := c <| cn_ChannelInfo := _ |> : Channel). destruct (negb _) eqn:En; simpl.
  - intros _. destruct (Z.eqb_spec status ChannelStatusEnabled) as [->|]; [|done]. exfalso.
    apply negb_true_iff in En. unfold hasEnabledMultiKey in En.
    apply key_index_range in Ei. assert (Hx : existsb (key_enabled (ci_MultiKeyStatusList (cn_ChannelInfo c1)))
      (indexes (k :: keys)) = true); [|congruence].
    apply existsb_exists. exists idx. split.
    + apply list_elem_of_In. unfold indexes. apply list_elem_of_fmap. exists (Z.to_nat idx). split; [lia|].
      apply elem_of_seq. lia.
    + unfold key_enabled, getStatus, c1. simpl. unfold set_key_status. simpl. by rewrite lookup_delete_eq.
  - destruct (Z.eqb_spec status ChannelStatusEnabled) as [->|]; done.
Qed.

Lemma CacheUpdateChannelStatus_tables id status w : same_tables w (CacheUpdateChannelStatus id status w).2.
Proof.
  unfold CacheUpdateChannelStatus. rewrite run_bind. unfold gets at 1. destruct (negb _); [done|].
  rewrite run_bind. unfold gets at 1. rewrite run_bind. destruct (cached w id) as [[l c]|]; simpl; by destruct (_ =? _).
Qed.
Lemma update_cached_status_tables id usingKey status reason w : MemoryCacheEnabled (w_cfg w) = true ->
  same_tables w (update_cached_status id usingKey status reason w).2.
Proof.
  intros Hm. unfold update_cached_status, CacheGetChannel. rewrite run_bind. unfold attempt. rewrite run_bind.
  unfold gets at 1. rewrite Hm, run_bind. unfold gets at 1. destruct (cached w id) as [[l c]|]; [|done].
  cbn [mret M_ret]. rewrite run_bind. unfold deref at 1, gets at 1.
  pose proof (CacheUpdateChannelStatus_tables id) as HC.
  destruct (ci_IsMultiKey _).
  - unfold handlerMultiKeyUpdate. rewrite !run_bind. unfold GetTimestamp, gets at 1.
    destruct (assign_run l (multi_key_update (w_now w) usingKey status reason) w) as (w1 & -> & Hs & _).
    rewrite run_bind. unfold deref, gets at 1. rewrite run_bind. destruct (negb _); [|done].
    specialize (HC (cn_Status (object w1 l)) w1).
    destruct (CacheUpdateChannelStatus _ _ w1) as [[|] ?]; simpl in *; by transitivity w1.
  - destruct (_ =? _); [done|]. rewrite run_bind. specialize (HC status w).
    by destruct (CacheUpdateChannelStatus _ _ w) as [[|] ?].
Qed.

Lemma SaveWithoutKey_run l w r : quiet w -> cn_Id (object w l) <> 0 ->
  d_channels (w_db w) !! cn_Id (object w l) = Some r ->
  SaveWithoutKey l w = (Ok tt, exec_write HDB (update_channel (cn_Id (object w l))
    (fun r => row_of (object w l) <| cn_Key := cn_Key r |>)) w).
Proof.
  intros Hq H0 Hr. unfold SaveWithoutKey, deref. rewrite run_bind. unfold gets at 1.
  rewrite (proj2 (Z.eqb_neq _ _) H0). rewrite run_bind. unfold guard_err at 1. cbn [mret M_ret].
  unfold db_update. rewrite !run_bind, ext_call_ok by done. unfold gets at 1.
  rewrite run_bind. change (view HDB w) with (w_db w). rewrite Hr. by rewrite bool_decide_eq_true_2 by by eexists.
Qed.
(** The status of the row and of its abilities. *)
Definition save_status (id : Z) (c : Channel) (update : bool) (enabled : bool) (d : DB) : DB :=
  let d : DB := update_channel id (fun r => row_of c <| cn_Key := cn_Key r |>) d in
  if update then update_abilities (of_channel id) (fun a => a <| ab_Enabled := enabled |>) d else d.
Lemma agree_status id c r d (update enabled : bool) : agree_but [] d -> d_channels d !! id = Some r ->
  cn_Id c = cn_Id r -> cn_Models c = cn_Models r -> cn_Group c = cn_Group r -> cn_Priority c = cn_Priority r ->
  cn_Weight c = cn_Weight r -> cn_Tag c = cn_Tag r ->
  (if update then (cn_Status c =? ChannelStatusEnabled) = enabled else cn_Status c = cn_Status r) ->
  agree_but [] (save_status id c update enabled d).
Proof.
  intros Hd Hr Ei Em Eg Ep Ew Et Hs.
  assert (Hid : cn_Id r = id) by by eapply agree_but_stored.
  pose (F := fun x : Channel => if cn_Id x =? id then (row_of c <| cn_Key := cn_Key x |> : Channel) else x).
  pose (G := fun a : Ability => if update && of_channel id a then (a <| ab_Enabled := enabled |> : Ability) else a).
  apply (agree_map F G d); [done| | |].
  - intros id'. assert (E : d_channels (save_status id c update enabled d)
      = alter (fun r : Channel => (row_of c <| cn_Key := cn_Key r |> : Channel)) id (d_channels d)).
    { unfold save_status. by destruct update. }
    rewrite E. unfold F. destruct (decide (id' = id)) as [->|Hne].
    + rewrite lookup_alter_eq, Hr. simpl. by rewrite Hid, Z.eqb_refl.
    + rewrite lookup_alter_ne by done. destruct (d_channels d !! id') as [x|] eqn:E'; [|done]. simpl.
      rewrite (agree_but_stored _ _ _ Hd E'). by rewrite (proj2 (Z.eqb_neq _ _) Hne).
  - intros k. unfold save_status, G. destruct update; simpl.
    + by rewrite lookup_fmap.
    + by destruct (d_abilities d !! k).
  - intros x Hx. unfold F. destruct (Z.eqb_spec (cn_Id x) id) as [E|E].
    + assert (x = r) as -> by (rewrite E in Hx; congruence).
      change (cn_Id (row_of c <| cn_Key := cn_Key r |>)) with (cn_Id c).
      split; [done|]. split.
      { unfold pairs_of, channel_pairs. simpl. by rewrite Em, Eg. }
      intros m g. unfold G, of_channel. simpl. rewrite Hid, Z.eqb_refl, andb_true_r.
      unfold with_priority, ability_of. simpl. unfold GetWeight. simpl. rewrite Ei, Hid, Ep, Ew, Et.
      destruct update; simpl; by rewrite Hs.
    + split; [done|]. split; [done|]. intros m g. unfold G, of_channel. simpl.
      rewrite (proj2 (Z.eqb_neq _ _) E). by rewrite andb_false_r.
Qed.
Lemma set_row_status_run l usingKey status reason w r : object w l = r -> is_Some (rt_heap (w_routing w) !! l) ->
  exists b w', set_row_status l usingKey status reason w = (Ok b, w') /\ same_tables w w' /\
    let c := object w' l in
    cn_Id c = cn_Id r /\ cn_Models c = cn_Models r /\ cn_Group c = cn_Group r /\ cn_Priority c = cn_Priority r /\
    cn_Weight c = cn_Weight r /\ cn_Tag c = cn_Tag r /\
    (if b : bool then (cn_Status c =? ChannelStatusEnabled) = (status =? ChannelStatusEnabled)
     else cn_Status c = cn_Status r).
Proof.
  intros Hr [c0 Hl]. assert (c0 = r) as -> by (unfold object in Hr; by rewrite Hl in Hr).
  unfold set_row_status. rewrite run_bind. change (deref l w) with (Ok (E := error) (object w l), w). rewrite Hr.
  destruct (ci_IsMultiKey _).
  - unfold handlerMultiKeyUpdate. rewrite !run_bind. change (GetTimestamp w) with (Ok (E := error) (w_now w), w).
    destruct (assign_run l (multi_key_update (w_now w) usingKey status reason) w) as (w1 & -> & Hs & _ & _ & Ho).
    rewrite run_bind. change (deref l w1) with (Ok (E := error) (object w1 l), w1).
    eexists _, w1. split; [done|]. split; [done|]. rewrite (Ho l), decide_True, Hl by done. simpl.
    destruct (multi_key_update_frame (w_now w) usingKey status reason r) as (?&?&?&?&?&?).
    repeat split; try done. destruct (Z.eqb_spec (cn_Status r)
      (cn_Status (multi_key_update (w_now w) usingKey status reason r))); [done|].
    by apply multi_key_update_status.
  - rewrite !run_bind. change (GetTimestamp w) with (Ok (E := error) (w_now w), w).
    cbn beta iota. match goal with |- context [assign l ?f] =>
      destruct (assign_run l f w) as (w1 & E & Hs & _ & _ & Ho) end. rewrite run_bind, E.
    eexists _, w1. split; [done|]. split; [done|]. rewrite (Ho l), decide_True, Hl by done. done.
Qed.
Lemma update_status_row_Inv id usingKey status reason w1 : Inv w1 ->
  Inv (update_status_row id usingKey status reason w1).2.
Proof.
  intros HI. pose proof HI as (Hq & Hn & Ha). unfold update_status_row.
  pose proof (GetChannelById_run id true w1 Hq) as HG. rewrite run_bind. unfold attempt at 1.
  destruct (d_channels (w_db w1) !! id) as [r|] eqn:Er; [|by rewrite HG].
  destruct HG as (w2 & -> & Hs2 & _ & _ & Ho2 & Hh2 & _). set (l := rt_next (w_routing w1)) in *.
  rewrite run_bind. change (deref l w2) with (Ok (E := error) (object w2 l), w2). rewrite Ho2.
  destruct (Z.eqb_spec (cn_Status r) status) as [|Hne]; [by apply (same_tables_Inv w1)|].
  assert (Hid : cn_Id r = id /\ id <> 0) by by apply Ha.
  destruct (set_row_status_run l usingKey status reason w2 r Ho2) as (b & w3 & E3 & Hs3 & Hc); [by eexists|].
  rewrite run_bind, E3. apply (same_tables_Inv _ _ Hs2), (same_tables_Inv _ _ Hs3) in HI.
  destruct Hc as (Ei & Em & Eg & Ep & Ew & Et & Es). assert (Er3 : d_channels (w_db w3) !! id = Some r).
  { destruct Hs3 as (-> & _). by destruct Hs2 as (-> & _). }
  destruct HI as (Hq3 & Hn3 & Ha3). assert (Eid : cn_Id (object w3 l) = id) by (rewrite Ei; apply Hid).
  rewrite run_bind. unfold attempt.
  rewrite (SaveWithoutKey_run l w3 r Hq3) by (rewrite Eid; tauto). rewrite Eid.
  pose proof (agree_status id (object w3 l) r (w_db w3) b (status =? ChannelStatusEnabled) Ha3 Er3
    Ei Em Eg Ep Ew Et Es) as HA.
  rewrite run_bind. destruct b; [|done]. unfold ignore_err, UpdateAbilityStatus. by rewrite db_exec_ok.
Qed.
Lemma UpdateChannelStatus_Inv id usingKey status reason w : Inv w ->
  Inv (UpdateChannelStatus id usingKey status reason w).2.
Proof.
  intros HI. unfold UpdateChannelStatus. rewrite run_bind. unfold gets at 1.
  assert (H1 : exists b w1, (if MemoryCacheEnabled (w_cfg w) then update_cached_status id usingKey status reason
     else mret true : MW bool) w = (b, w1) /\ same_tables w w1).
  { destruct (MemoryCacheEnabled (w_cfg w)) eqn:Em; [|by eexists _, w].
    eexists _, _. split; [apply surjective_pairing|]. by apply update_cached_status_tables. }
  destruct H1 as (b & w1 & E1 & Hs). rewrite run_bind, E1.
  apply (same_tables_Inv _ _ Hs) in HI. clear Hs E1. destruct b as [[|]|]; [|done..]. simpl.
  by apply update_status_row_Inv.
Qed.

(** *** Tags *)

Lemma agree_tag tag status d : agree_but [] d ->
  agree_but [] (update_abilities (has_tag tag) (fun a => a <| ab_Enabled := status =? ChannelStatusEnabled |>)
    (update_channels (tagged_as tag) (fun c => c <| cn_Status := status |>) d)).
Proof.
  intros Hd. pose (F := fun c : Channel => if tagged_as tag c then (c <| cn_Status := status |> : Channel) else c).
  pose (G := fun a : Ability => if has_tag tag a
    then (a <| ab_Enabled := status =? ChannelStatusEnabled |> : Ability) else a).
  apply (agree_map F G d); [done|intros; apply lookup_fmap..|].
  intros c _. unfold F. destruct (tagged_as tag c) eqn:E.
  - split; [done|]. split; [done|]. intros m g. unfold G, has_tag. simpl.
    unfold tagged_as in E. by rewrite E.
  - split; [done|]. split; [done|]. intros m g. unfold G, has_tag. simpl. unfold tagged_as in E. by rewrite E.
Qed.
Lemma EnableChannelByTag_Inv tag w : Inv w -> Inv (EnableChannelByTag tag w).2.
Proof.
  intros (Hq & Hn & Ha). unfold EnableChannelByTag, UpdateAbilityStatusByTag.
  rewrite run_bind, !db_exec_ok by done. split; [done|]. split; [done|].
  exact (agree_tag tag ChannelStatusEnabled _ Ha).
Qed.
Lemma DisableChannelByTag_Inv tag w : Inv w -> Inv (DisableChannelByTag tag w).2.
Proof.
  intros (Hq & Hn & Ha). unfold DisableChannelByTag, UpdateAbilityStatusByTag.
  rewrite run_bind, !db_exec_ok by done. split; [done|]. split; [done|].
  exact (agree_tag tag ChannelStatusManuallyDisabled _ Ha).
Qed.

(** *** Batches *)

Lemma forM_ok {A} (P : World -> Prop) (xs : list A) (body : A -> MW unit) w : P w ->
  (forall x w, P w -> exists w', body x w = (Ok tt, w') /\ P w') ->
  exists w', forM_ xs body w = (Ok tt, w') /\ P w'.
Proof.
  intros Hw Hb. revert w Hw. induction xs as [|x xs IH]; intros w Hw; simpl; [by eexists|].
  destruct (Hb x w Hw) as (w1 & E & H1). rewrite run_bind, E. by apply IH.
Qed.
(** Inside a transaction on the tables [d0]: the view has channels [S] to be entered. *)
Definition InvTX (d0 : DB) (S : list Z) (w : World) : Prop :=
  quiet w /\ 0 < w_next_id w /\ w_db w = d0 /\ agree_but S (view HTX w).

Lemma BatchDeleteChannels_Inv ids w : Inv w -> Inv (BatchDeleteChannels ids w).2.
Proof.
  intros HI. unfold BatchDeleteChannels. destruct ids as [|id ids]; [done|].
  generalize (Chunk (id :: ids) 200). intros chunks. destruct HI as (Hq & Hn & Ha).
  pose (w0 := w <| w_log := [] |> : World).
  match goal with |- context [forM_ chunks ?body] =>
    destruct (forM_ok (InvTX (w_db w) []) chunks body w0) as (w1 & E & Hq1 & Hn1 & Hd1 & Ha1) end.
  - done.
  - intros chunk w' (Hq' & Hn' & Hd' & Ha'). rewrite run_bind, !db_exec_ok by done.
    eexists. split; [done|]. split; [done|]. split; [done|]. split; [done|].
    rewrite !exec_write_view. exact (agree_delete (fun id : Z => bool_decide (id ∈ chunk)) _ [] Ha').
  - rewrite (Transaction_ok _ w _ _ Hq E Hq1). split; [done|]. split; [simpl; lia|]. exact Ha1.
Qed.

(** Entering several channels. *)
Lemma AddAbilities_all h cs S w : quiet w -> agree_but S (view h w) -> NoDup (cn_Id <$> cs) ->
  (forall c, c ∈ cs -> cn_Id c ∈ S /\ d_channels (view h w) !! cn_Id c = Some (row_of c)) ->
  exists w', forM_ cs (AddAbilities h) w = (Ok tt, w') /\ quiet w' /\ w_next_id w' = w_next_id w /\
    (h = HTX -> w_db w' = w_db w) /\ d_channels (view h w') = d_channels (view h w) /\
    agree_but (List.filter (fun id => negb (bool_decide (id ∈ cn_Id <$> cs))) S) (view h w').
Proof.
  revert S w. induction cs as [|c cs IH]; intros S w Hq Ha Hnd Hrow.
  { exists w. split; [done|]. split; [done|]. split; [done|]. split; [done|]. split; [done|].
    eapply agree_but_sub; [done|]. intros id. rewrite elem_of_filter', negb_true_iff, bool_decide_eq_false.
    pose proof (not_elem_of_nil id). tauto. }
  rewrite fmap_cons in Hnd. apply NoDup_cons in Hnd as [Hnin Hnd].
  destruct (Hrow c ltac:(by left)) as [Hin Hc].
  destruct (create_abilities_writes h c w Hq) as (w1 & E1 & Hq1 & Hv1 & Hn1 & Hd1).
  pose proof (enter_channel _ _ _ Ha Hc Hin) as Ha1. rewrite <- Hv1 in Ha1.
  assert (Hch : d_channels (view h w1) = d_channels (view h w)) by (by rewrite Hv1, insert_abilities_channels).
  destruct (IH _ w1 Hq1 Ha1 Hnd) as (w2 & E2 & Hq2 & Hn2 & Hd2 & Hch2 & Ha2).
  { intros c' Hc'. destruct (Hrow c' ltac:(by right)) as [Hin' Hrow']. rewrite Hch. split; [|done].
    apply elem_of_filter'. split; [done|]. apply negb_true_iff, Z.eqb_neq. intros E. apply Hnin.
    rewrite <- E. by apply list_elem_of_fmap_2. }
  exists w2. simpl. rewrite run_bind. unfold AddAbilities at 1. rewrite E1. split; [done|]. split; [done|].
  split; [by rewrite Hn2|]. split; [intros Hh; by rewrite Hd2, Hd1|]. split; [by rewrite Hch2|].
  eapply agree_but_sub; [done|]. intros id.
  rewrite !elem_of_filter', !negb_true_iff, !bool_decide_eq_false, Z.eqb_neq, elem_of_cons. tauto.
Qed.

(** Inserted rows: their ids are new, and they wait for their abilities. *)
Lemma insert_channels_tx d0 cs S w : InvTX d0 S w ->
  let '(r, w') := insert_channels HTX cs w in
  quiet w' /\ 0 < w_next_id w' /\ w_db w' = d0 /\
  match r with
  | Ok created => NoDup (cn_Id <$> created) /\ agree_but ((cn_Id <$> created) ++ S) (view HTX w') /\
      (forall c, c ∈ created -> d_channels (view HTX w') !! cn_Id c = Some (row_of c)) /\
      (forall id c, d_channels (view HTX w) !! id = Some c ->
         d_channels (view HTX w') !! id = Some c /\ id ∉ cn_Id <$> created)
  | Err _ => True
  end.
Proof.
  revert S w. induction cs as [|c cs IH]; intros S w (Hq & Hn & Hd & Ha).
  { split; [done|]. split; [done|]. split; [done|]. split; [constructor|]. split; [done|].
    split; [by intros c ?%elem_of_nil|]. intros id c E. split; [done|]. by intros ?%elem_of_nil. }
  cbn [insert_channels]. rewrite run_bind.
  destruct (insert_channel_cases HTX c w Hq Hn) as (id & w1 & (Hq1 & Hn1 & Hd1 & Hl1 & _) & Hid & HC).
  destruct HC as [->|[Hfree ->]]; [by rewrite Hd1, Hd|].
  set (c' := with_defaults c <| cn_Id := id |> : Channel).
  assert (Hv : view HTX (exec_write HTX (put_channel c') w1) = put_channel c' (view HTX w)).
  { rewrite exec_write_view. simpl. by rewrite Hd1, Hl1. }
  assert (Hput : agree_but (id :: S) (put_channel c' (view HTX w))) by by apply (agree_but_put c').
  specialize (IH (id :: S) (exec_write HTX (put_channel c') w1)). rewrite run_bind.
  destruct (insert_channels HTX cs _) as [[created|e] w2].
  - destruct IH as (Hq2 & Hn2 & Hd2 & Hnd & Ha2 & Hrows & Hold).
    { split; [done|]. split; [done|]. split; [by rewrite <- Hd|]. by rewrite Hv. }
    rewrite Hv in Hold. destruct (Hold id (row_of c')) as [Hc' Hnin]; [apply lookup_insert_eq|].
    split; [done|]. split; [done|]. split; [done|]. rewrite fmap_cons. split; [by constructor|].
    split; [|split].
    + eapply agree_but_sub; [exact Ha2|]. intros x. change (cn_Id c') with id.
      cbn [app]. rewrite !elem_of_app, !elem_of_cons, elem_of_app. tauto.
    + intros x [->|Hx]%elem_of_cons; [done|by apply Hrows].
    + intros x cx Ex. destruct (Hold x cx) as [? Hx].
      { simpl. rewrite lookup_insert_ne; [done|]. intros <-. by rewrite Hfree in Ex. }
      split; [done|]. intros [E|?]%elem_of_cons; [|done]. change (cn_Id c') with id in E. congruence.
  - destruct IH as (Hq2 & Hn2 & Hd2 & _); [|done].
    split; [done|]. split; [done|]. split; [by rewrite <- Hd|]. by rewrite Hv.
Qed.

Lemma insert_chunk_tx d0 chunk w : InvTX d0 [] w ->
  let '(r, w') := (created ← create_channels HTX chunk; forM_ created (AddAbilities HTX)) w in
  match r with Ok _ => InvTX d0 [] w' | Err _ => quiet w' /\ 0 < w_next_id w' /\ w_db w' = d0 end.
Proof.
  intros HI. pose proof HI as (Hq & _). unfold create_channels. rewrite !run_bind, ext_call_ok by done.
  pose proof (insert_channels_tx d0 chunk [] w HI) as HT.
  destruct (insert_channels HTX chunk w) as [[created|e] w1]; [|by destruct HT as (? & ? & ? & _)].
  destruct HT as (Hq1 & Hn1 & Hd1 & Hnd & Ha1 & Hrows & _). rewrite app_nil_r in Ha1.
  destruct (AddAbilities_all HTX created (cn_Id <$> created) w1 Hq1 Ha1 Hnd) as (w2 & -> & Hq2 & Hn2 & Hd2 & _ & Ha2).
  { intros c Hc. split; [by apply list_elem_of_fmap_2|by apply Hrows]. }
  split; [done|]. split; [by rewrite Hn2|]. split; [by rewrite Hd2|].
  eapply agree_but_sub; [exact Ha2|]. intros id. rewrite elem_of_filter', negb_true_iff, bool_decide_eq_false.
  pose proof (not_elem_of_nil id). tauto.
Qed.
Lemma insert_chunks_tx d0 chunks w : InvTX d0 [] w ->
  let '(r, w') := forM_ chunks (fun chunk => created ← create_channels HTX chunk; forM_ created (AddAbilities HTX)) w in
  match r with Ok _ => InvTX d0 [] w' | Err _ => quiet w' /\ 0 < w_next_id w' /\ w_db w' = d0 end.
Proof.
  revert w. induction chunks as [|chunk chunks IH]; intros w HI; [done|]. cbn [forM_]. rewrite run_bind.
  pose proof (insert_chunk_tx d0 chunk w HI) as HC.
  match type of HC with (let (_, _) := ?x in _) => destruct x as [[u|e] w1] end; [by apply IH|done].
Qed.
Lemma BatchInsertChannels_Inv cs w : Inv w -> Inv (BatchInsertChannels cs w).2.
Proof.
  intros HI. unfold BatchInsertChannels. destruct cs as [|c cs]; [done|].
  pose proof HI as (Hq & Hn & Ha). pose (w0 := w <| w_log := [] |> : World).
  pose proof (insert_chunks_tx (w_db w) (Chunk (c :: cs) 50) w0) as HC.
  destruct (forM_ _ _ w0) as [r w1] eqn:E.
  assert (Hq1 : quiet w1) by (destruct r; by destruct HC).
  rewrite (Transaction_ok _ w _ _ Hq E Hq1). destruct r as [u|e].
  - destruct HC as (_ & Hn1 & Hd1 & Ha1); [done|]. split; [done|]. by split.
  - destruct HC as (_ & Hn1 & Hd1); [done|]. split; [done|]. split; [done|]. simpl. by rewrite Hd1.
Qed.

(** *** Any sequence of operations *)

Inductive admin_op : Type :=
| OpInsert (c : Channel)
| OpBatchInsert (cs : list Channel)
| OpUpdate (c : Channel)                 (** an edited object, after its row was read *)
| OpDelete (id : Z)
| OpBatchDelete (ids : list Z)
| OpStatus (id : Z) (usingKey : string) (status : Z) (reason : string)
| OpEnableTag (tag : string)
| OpDisableTag (tag : string).
Definition run_op (op : admin_op) : MW unit :=
  match op with
  | OpInsert c => l ← new_channel c; InsertChannel l
  | OpBatchInsert cs => BatchInsertChannels cs
  | OpUpdate c => GetChannelById (cn_Id c) true ;; l ← new_channel c; UpdateChannel l
  | OpDelete id => l ← new_channel (zero_channel <| cn_Id := id |>); DeleteChannel l
  | OpBatchDelete ids => BatchDeleteChannels ids
  | OpStatus id usingKey status reason => ignore_err (UpdateChannelStatus id usingKey status reason)
  | OpEnableTag tag => EnableChannelByTag tag
  | OpDisableTag tag => DisableChannelByTag tag
  end.

Lemma new_channel_run c w : exists w', new_channel c w = (Ok (rt_next (w_routing w)), w') /\ same_tables w w' /\
  rt_heap (w_routing w') !! rt_next (w_routing w) = Some c /\
  object w' (rt_next (w_routing w)) = c /\ rt_next (w_routing w) <> rt_next (w_routing w').
Proof.
  eexists. split; [done|]. split; [done|]. unfold object. simpl. rewrite lookup_insert_eq. split; [done|].
  split; [done|]. lia.
Qed.
Lemma run_op_Inv op w : Inv w -> Inv (run_op op w).2.
Proof.
  intros HI. destruct op as [c|cs|c|id|ids|id k status reason|tag|tag]; simpl.
  - destruct (new_channel_run c w) as (w1 & E & Hs & Hl & _). rewrite run_bind, E.
    apply InsertChannel_Inv; [by apply (same_tables_Inv w)|by eexists].
  - by apply BatchInsertChannels_Inv.
  - pose proof (GetChannelById_run (cn_Id c) true w (proj1 HI)) as HG. rewrite run_bind.
    destruct (d_channels (w_db w) !! cn_Id c) as [r|] eqn:Er; [|by rewrite HG].
    destruct HG as (w1 & -> & Hs1 & _). destruct (new_channel_run c w1) as (w2 & E & Hs & _ & Ho & Hne).
    rewrite run_bind, E. apply UpdateChannel_Inv; [|done|].
    + by apply (same_tables_Inv w1), (same_tables_Inv w).
    + rewrite Ho. destruct Hs as (-> & _), Hs1 as (-> & _). by eexists.
  - destruct (new_channel_run (zero_channel <| cn_Id := id |>) w) as (w1 & E & Hs & _). rewrite run_bind, E.
    apply DeleteChannel_Inv. by apply (same_tables_Inv w).
  - by apply BatchDeleteChannels_Inv.
  - by apply UpdateChannelStatus_Inv.
  - by apply EnableChannelByTag_Inv.
  - by apply DisableChannelByTag_Inv.
Qed.

(** The administration of channels, one operation after the other. *)
Fixpoint administrate (ops : list admin_op) (w : World) : World :=
  match ops with
  | [] => w
  | op :: ops => administrate ops (run_op op w).2
  end.
Lemma administrate_Inv ops w : Inv w -> Inv (administrate ops w).
Proof. revert w. induction ops as [|op ops IH]; intros w HI; [done|]. by apply IH, run_op_Inv. Qed.

Lemma agree_agree_but d : agree d -> d_channels d !! 0 = None -> agree_but [] d.
Proof.
  intros [Hk Ha] H0. split.
  - intros id c E. split; [by apply Hk|]. intros ->. by rewrite H0 in E.
  - intros g m id. rewrite Ha. by rewrite decide_False by by intros ?%elem_of_nil.
Qed.

(** C33 Whatever sequence of inserts, updates, deletes, status changes and tag switches
    runs, refused ones included, without a failing call: the abilities table stays
    exactly the rows that the channels call for. *)
Theorem abilities_follow_channels ops w : w_faults w = [] -> 0 < w_next_id w ->
  agree (w_db w) -> d_channels (w_db w) !! 0 = None -> agree (w_db (administrate ops w)).
Proof.
  intros Hf Hn Ha H0. apply agree_but_nil. apply (administrate_Inv ops w). split; [done|].
  split; [done|]. by apply agree_agree_but.
Qed.

(** ** The repair *)

Lemma fix_chunk_run cs counts S w : quiet w -> agree_but S (w_db w) -> NoDup (cn_Id <$> cs) ->
  (forall c, c ∈ cs -> cn_Id c ∈ S /\ d_channels (w_db w) !! cn_Id c = Some (row_of c)) ->
  exists w', fix_chunk cs counts w = (Ok (counts.1 + Z.of_nat (length cs), counts.2), w') /\ quiet w' /\
    d_channels (w_db w') = d_channels (w_db w) /\
    agree_but (List.filter (fun id => negb (bool_decide (id ∈ cn_Id <$> cs))) S) (w_db w').
Proof.
  intros Hq Ha Hnd Hrow. destruct (AddAbilities_all HDB cs S w Hq Ha Hnd Hrow) as (w' & E & Hq' & _ & _ & Hch & Ha').
  exists w'. split; [|done]. clear Ha Hnd Hrow Hq' Hch Ha'. revert counts w Hq E.
  induction cs as [|c cs IH]; intros [n e] w Hq E.
  { injection E as <-. simpl. by rewrite Z.add_0_r. }
  cbn [forM_ fix_chunk] in E |- *. destruct (create_abilities_writes HDB c w Hq) as (w1 & E1 & Hq1 & _).
  change (AddAbilities HDB c) with (create_abilities HDB c) in *.
  rewrite run_bind, E1 in E. rewrite run_bind. unfold attempt. rewrite E1.
  simpl. rewrite (IH (n + 1, e) w1 Hq1 E). simpl. do 3 f_equal. lia.
Qed.

(** Chunk by chunk; the channels [S] still wait, those of the chunks among them. *)
Lemma fix_chunks_run chunks counts S w : quiet w -> agree_but S (w_db w) ->
  NoDup (cn_Id <$> concat chunks) ->
  (forall c, c ∈ concat chunks -> cn_Id c ∈ S /\ d_channels (w_db w) !! cn_Id c = Some (row_of c)) ->
  exists w', fix_chunks chunks counts w = (Ok (counts.1 + Z.of_nat (length (concat chunks)), counts.2), w') /\
    quiet w' /\ d_channels (w_db w') = d_channels (w_db w) /\
    agree_but (List.filter (fun id => negb (bool_decide (id ∈ cn_Id <$> concat chunks))) S) (w_db w').
Proof.
  revert counts S w. induction chunks as [|chunk chunks IH]; intros [n e] S w Hq Ha Hnd Hrow.
  { exists w. simpl. rewrite Z.add_0_r. split; [done|]. split; [done|]. split; [done|].
    eapply agree_but_sub; [done|]. intros id. rewrite elem_of_filter'. tauto. }
  cbn [concat] in *. rewrite fmap_app in Hnd. apply NoDup_app in Hnd as (Hnd1 & Hdisj & Hnd2).
  pose (cond := fun id : Z => bool_decide (id ∈ cn_Id <$> chunk)).
  pose (w1 := exec_write HDB (delete_abilities (fun a => cond (ab_ChannelId a))) w).
  assert (Ha1 : agree_but S (w_db w1)).
  { eapply agree_but_sub; [apply (drop_abilities cond S (cn_Id <$> chunk) _ Ha)|].
    - intros id _ Hc. by apply bool_decide_eq_true in Hc.
    - intros id Hc. by apply bool_decide_eq_true.
    - intros id. rewrite elem_of_app. split; [|by right]. intros [(c & -> & Hc)%list_elem_of_fmap|?]; [|done].
      apply Hrow. apply elem_of_app. by left. }
  destruct (fix_chunk_run chunk (n, e) S w1 Hq Ha1 Hnd1) as (w2 & E2 & Hq2 & Hch2 & Ha2).
  { intros c Hc. apply Hrow. apply elem_of_app. by left. }
  destruct (IH (n + Z.of_nat (length chunk), e) _ w2 Hq2 Ha2 Hnd2) as (w3 & E3 & Hq3 & Hch3 & Ha3).
  { intros c Hc. destruct (Hrow c) as [Hin Hc']; [apply elem_of_app; by right|]. rewrite Hch2. split; [|done].
    apply elem_of_filter'. split; [done|]. apply negb_true_iff, bool_decide_eq_false. intros Hx.
    apply (Hdisj _ Hx). by apply list_elem_of_fmap_2. }
  exists w3. split.
  - cbn [fix_chunks]. rewrite run_bind. unfold attempt. rewrite db_exec_ok by done.
    rewrite run_bind. change (exec_write HDB _ w) with w1. rewrite E2. simpl. simpl in E3. rewrite E3.
    do 3 f_equal. rewrite length_app. lia.
  - split; [done|]. split; [by rewrite Hch3, Hch2|]. eapply agree_but_sub; [done|]. intros id.
    rewrite !elem_of_filter', !negb_true_iff, !bool_decide_eq_false, fmap_app, elem_of_app. tauto.
Qed.
Lemma fix_chunks_cfg chunks counts cfg : preserves (fun w => w_cfg w = cfg) (fix_chunks chunks counts).
Proof.
  revert counts. induction chunks as [|chunk chunks IH]; intros counts; simpl; [pres|].
  assert (Hc : forall cs counts, preserves (fun w => w_cfg w = cfg) (fix_chunk cs counts)).
  { clear. induction cs as [|c cs IH]; intros counts; simpl; [pres|]. unfold AddAbilities, create_abilities.
    pres; apply IH. }
  pres; first [apply Hc|apply IH].
Qed.

Context (sort_slice : (Z -> Z) -> list Z -> list Z).
Hypothesis sort_slice_perm : forall f l, sort_slice f l ≡ₚ l.

(** Whatever the abilities table holds, the repair leaves it with exactly the rows that
    the channels call for, counts every channel as repaired, leaves the channels
    alone, and the cache agrees with them afterwards. *)
Theorem FixAbility_repairs w : w_faults w = [] -> MemoryCacheEnabled (w_cfg w) = true ->
  d_channels (w_db w) <> ∅ -> d_channels (w_db w) !! 0 = None ->
  (forall id c, d_channels (w_db w) !! id = Some c -> cn_Id c = id /\ cn_Keys c = []) -> rows_ok (w_db w) ->
  exists w', FixAbility sort_slice false w = (Ok (Z.of_nat (size (d_channels (w_db w))), 0), w') /\
    d_channels (w_db w') = d_channels (w_db w) /\ agree (w_db w') /\ synced (w_db w') w'.
Proof.
  intros Hq Hm Hne H0 Hrows Hok. unfold FixAbility. cbn [guard_err]. rewrite run_bind. cbn [mret M_ret].
  rewrite run_bind, db_exec_ok by done. pose (w1 := exec_write HDB (delete_abilities (fun _ => true)) w).
  change (exec_write HDB _ w) with w1. rewrite run_bind.
  assert (Hfind : db_find HDB all_channels w1 = (Ok (all_channels (w_db w)), w1)).
  { unfold db_find. by rewrite run_bind, ext_call_ok. }
  rewrite Hfind. set (cs := all_channels (w_db w)).
  assert (Hk : forall id c, d_channels (w_db w) !! id = Some c -> cn_Id c = id) by (intros id c E; by destruct (Hrows _ _ E)).
  assert (Hcs : forall c, c ∈ cs <-> d_channels (w_db w) !! cn_Id c = Some c) by (intros c; by apply elem_of_all_channels).
  destruct (fix_chunks_run (Chunk cs 50) (0, 0) (cn_Id <$> cs) w1) as (w2 & E2 & Hq2 & Hch2 & Ha2); try done.
  all: rewrite ?concat_Chunk in * by lia.
  { split; [intros id c E; change (d_channels (w_db w) !! id = Some c) in E; split; [by apply Hk|]; intros ->; by rewrite H0 in E|]. intros g m id.
    assert (E1 : d_abilities (w_db w1) !! (g, m, id) = None).
    { unfold w1. cbn [exec_write w_db upd]. rewrite (delete_abilities_lookup (fun _ => true) (w_db w)).
      by destruct (d_abilities (w_db w) !! _). }
    rewrite E1. case_decide as Hx; [done|].
    unfold expected. simpl. destruct (d_channels (w_db w) !! id) as [c|] eqn:E; [|done]. destruct Hx.
    rewrite <- (Hk _ _ E). apply list_elem_of_fmap_2, Hcs. by rewrite (Hk _ _ E). }
  { by apply all_channels_ids. }
  { intros c Hc. split; [by apply list_elem_of_fmap_2|]. apply Hcs in Hc. change (d_channels (w_db w1)) with (d_channels (w_db w)).
    rewrite Hc. f_equal. destruct (Hrows _ _ Hc) as [_ Hkeys]. destruct c. simpl in Hkeys. by subst. }
  assert (Hag : agree (w_db w2)).
  { apply agree_but_nil. eapply agree_but_sub; [exact Ha2|]. intros id.
    rewrite elem_of_filter', negb_true_iff, bool_decide_eq_false. pose proof (not_elem_of_nil id). tauto. }
  change (d_channels (w_db w1)) with (d_channels (w_db w)) in Hch2.
  destruct (InitChannelCache_ok sort_slice sort_slice_perm w2) as (w3 & E3 & Hs3 & Hdb3 & _ & _); [done| |done| |].
  { pose proof (fix_chunks_cfg (Chunk cs 50) (0, 0) (w_cfg w) w1 eq_refl) as Hcfg. rewrite E2 in Hcfg.
    simpl in Hcfg. by rewrite Hcfg. }
  { intros id c E. apply (Hok id). by rewrite <- Hch2. }
  exists w3. rewrite Hdb3. split; [|split; [done|by split]].
  destruct cs as [|c0 cs0] eqn:Ecs.
  { destruct Hne. apply map_empty. intros id. destruct (_ !! id) as [c|] eqn:E; [|done].
    rewrite <- (Hk _ _ E) in E. apply Hcs, elem_of_nil in E. done. }
  rewrite run_bind, E2, run_bind, E3. unfold mret, M_ret. simpl fst. simpl snd. do 3 f_equal.
  rewrite <- Ecs. unfold cs, all_channels. by rewrite length_fmap, length_map_to_list.
Qed.
End operations.
