(* ===== verification/KeyProofs.v ===== *)
(** * The rotation of the keys of a channel

    In polling mode a channel's enabled keys are used in turn. *)

From S2P Require Import Prelude GoStd GoFloat QuotaMath ApiError World Sample ModelUtils ChannelModel Ability ChannelCache.

Section rotation.
Context (n : Z) (en : Z -> bool).
Hypothesis Hn : 0 < n.

(** All positions, starting from [s]; the enabled ones among them. *)
Definition positions (s k : Z) : list Z := (fun i => (s + i) mod n) <$> seqZ 0 k.
Definition turn (s : Z) : list Z := List.filter en (positions s n).

Lemma positions_mod s k : positions (s mod n) k = positions s k.
Proof.
  unfold positions. apply list_fmap_ext. intros _ i _. by rewrite Zplus_mod_idemp_l.
Qed.
Lemma positions_succ s k : 0 <= k -> positions s (k + 1) = s mod n :: positions (s + 1) k.
Proof.
  intros Hk. unfold positions. rewrite seqZ_cons by lia. rewrite fmap_cons. f_equal; [f_equal; lia|].
  replace (Z.pred (k + 1)) with k by lia.
  change (Z.succ 0) with (1 + 0). rewrite <- fmap_add_seqZ, <- list_fmap_compose.
  apply list_fmap_ext. intros _ i _. cbn -[Z.modulo Z.add]. f_equal. lia.
Qed.
Lemma positions_app s k m : 0 <= k -> 0 <= m -> positions s (k + m) = positions s k ++ positions (s + k) m.
Proof.
  intros Hk Hm. unfold positions. rewrite seqZ_app, fmap_app by lia. f_equal.
  replace (0 + k) with (k + 0) by lia. rewrite <- fmap_add_seqZ, <- list_fmap_compose.
  apply list_fmap_ext. intros _ i _. cbn -[Z.modulo Z.add]. f_equal. lia.
Qed.

Lemma positions_one s : positions s 1 = [s mod n].
Proof. unfold positions. simpl. do 2 f_equal. lia. Qed.

Lemma scan_keys_head (k : nat) s :
  scan_keys k s n en = head (List.filter en (positions s (Z.of_nat k))).
Proof.
  revert s. induction k as [|k IH]; intros s; [done|].
  replace (Z.of_nat (S k)) with (Z.of_nat k + 1) by lia. rewrite positions_succ by lia. simpl.
  destruct (en (s mod n)); [done|]. apply IH.
Qed.

(** Starting behind a position moves it, and the positions before it, to the end. *)
Lemma positions_rotate s k : 0 <= k < n ->
  positions (s + k + 1) n = positions (s + k + 1) (n - k - 1) ++ positions s (k + 1).
Proof.
  intros Hk. replace n with ((n - k - 1) + (k + 1)) at 1 by lia. rewrite positions_app by lia. f_equal.
  rewrite <- (positions_mod s). rewrite <- (positions_mod (_ + _ + _ + _)). f_equal.
  replace (s + k + 1 + (n - k - 1)) with (s + 1 * n) by lia. by rewrite Z_mod_plus_full.
Qed.
Lemma positions_cut s k : 0 <= k < n ->
  positions s n = positions s (k + 1) ++ positions (s + k + 1) (n - k - 1).
Proof.
  intros Hk. replace n with ((k + 1) + (n - k - 1)) at 1 by lia. rewrite positions_app by lia.
  f_equal. f_equal. lia.
Qed.

Lemma turn_next s idx rest : turn s = idx :: rest -> turn ((idx + 1) mod n) = rest ++ [idx].
Proof.
  intros Ht. unfold turn in *.
  assert (Hex : exists k, 0 <= k < n /\ idx = (s + k) mod n /\
    List.filter en (positions s (k + 1)) = [idx]).
  { assert (Hgen : forall m, (Z.of_nat m <= n) ->
      (List.filter en (positions s (Z.of_nat m)) = [] \/
       exists k x, 0 <= k < Z.of_nat m /\ x = (s + k) mod n /\
         List.filter en (positions s (k + 1)) = [x] /\
         head (List.filter en (positions s (Z.of_nat m))) = Some x)).
    { induction m as [|m IH]; intros Hm; [by left|].
      replace (Z.of_nat (S m)) with (Z.of_nat m + 1) by lia.
      rewrite positions_app, List.filter_app by lia.
      destruct (IH ltac:(lia)) as [E|(k & x & Hk & -> & H1 & H2)].
      - rewrite E, positions_one. simpl.
        destruct (en ((s + Z.of_nat m) mod n)) eqn:Ee; [|by left].
        right. exists (Z.of_nat m), ((s + Z.of_nat m) mod n). split; [lia|]. split; [done|].
        rewrite positions_app, List.filter_app, E, positions_one by lia. simpl. by rewrite Ee.
      - right. exists k, ((s + k) mod n). split; [lia|]. split; [done|]. split; [done|].
        destruct (List.filter en (positions s (Z.of_nat m))); [done|]. simpl in *. done. }
    destruct (Hgen (Z.to_nat n) ltac:(lia)) as [E|(k & x & Hk & Hx & H1 & H2)]; rewrite Z2Nat.id in * by lia.
    - by rewrite E in Ht.
    - rewrite Ht in H2. simpl in H2. simplify_eq. by exists k. }
  destruct Hex as (k & Hk & -> & Hone).
  rewrite (positions_cut s k Hk), List.filter_app, Hone in Ht. simpl in Ht. simplify_eq.
  rewrite positions_mod. replace (positions ((s + k) mod n + 1) n) with (positions (s + k + 1) n).
  - rewrite positions_rotate, List.filter_app, Hone by done. done.
  - rewrite <- (positions_mod ((s + k) mod n + 1)), <- (positions_mod (s + k + 1)).
    by rewrite Zplus_mod_idemp_l.
Qed.

(** Following the rotation for [m] steps. *)
Fixpoint rotate (m : nat) (l : list Z) : list Z :=
  match m with
  | O => []
  | S m => match l with [] => [] | x :: l => x :: rotate m (l ++ [x]) end
  end.
Lemma rotate_prefix l k : rotate (length l) (l ++ k) = l.
Proof.
  revert k. induction l as [|x l IH]; intros k; simpl; [done|]. by rewrite <- app_assoc, IH.
Qed.
Lemma rotate_app l1 l2 k : rotate (length l1 + k) (l1 ++ l2) = l1 ++ rotate k (l2 ++ l1).
Proof.
  revert l2. induction l1 as [|x l1 IH]; intros l2; simpl; [by rewrite app_nil_r|].
  by rewrite <- app_assoc, IH, <- app_assoc.
Qed.
End rotation.

Lemma positions_all n : 0 < n -> positions n 0 n = seqZ 0 n.
Proof.
  intros Hn. unfold positions. rewrite <- (list_fmap_id (seqZ 0 n)) at 2. apply list_fmap_ext.
  intros i x Hx. apply lookup_seqZ in Hx as [-> Hi]. simpl. rewrite Z.mod_small; lia.
Qed.
Lemma turn_perm n en s : 0 < n -> 0 <= s < n -> turn n en s ≡ₚ List.filter en (seqZ 0 n).
Proof.
  intros Hn Hs. unfold turn.
  assert (Hp : positions n s n ≡ₚ seqZ 0 n).
  { rewrite <- (positions_all n Hn). destruct (decide (s = 0)) as [->|]; [done|].
    replace s with (0 + (s - 1) + 1) at 1 by lia.
    rewrite positions_rotate by lia. rewrite Permutation_app_comm.
    rewrite <- (positions_cut n 0 (s - 1)) by lia. done. }
  assert (Hf : forall l l', l ≡ₚ l' -> List.filter en l ≡ₚ List.filter en l').
  { clear. induction 1 as [| | |l1 l2 l3 _ IH1 _ IH2]; simpl; repeat case_match; try done.
    - by f_equiv. - apply Permutation_swap. - by rewrite IH1. }
  by apply Hf.
Qed.

(** ** The calls *)

Section calls.
Context `{ChannelJson} (Intn : Z -> Z).

(** A polling channel whose object is the cached one. *)
Definition polls (w : World) (l : positive) (c : Channel) : Prop :=
  MemoryCacheEnabled (w_cfg w) = true /\ cached w (cn_Id c) = Some (l, c) /\
  is_Some (rt_heap (w_routing w) !! l) /\
  ci_IsMultiKey (cn_ChannelInfo c) = true /\ ci_MultiKeyMode (cn_ChannelInfo c) = MultiKeyModePolling.
Definition start_of (c : Channel) : Z :=
  let i := ci_MultiKeyPollingIndex (cn_ChannelInfo c) in
  if (i <? 0) || (i >=? Z.of_nat (length (GetKeys c))) then 0 else i.
Definition key_turn (c : Channel) : list Z :=
  turn (Z.of_nat (length (GetKeys c))) (key_enabled (ci_MultiKeyStatusList (cn_ChannelInfo c))) (start_of c).
Definition moved (idx : Z) (c : Channel) : Channel :=
  c <| cn_ChannelInfo := cn_ChannelInfo c
    <| ci_MultiKeyPollingIndex := (idx + 1) mod Z.of_nat (length (GetKeys c)) |> |>.

Lemma indexes_seqZ {A} (l : list A) : indexes l = seqZ 0 (Z.of_nat (length l)).
Proof. unfold indexes, seqZ. rewrite Nat2Z.id. apply list_fmap_ext. intros _ i _. lia. Qed.
Lemma keys_moved idx c : GetKeys (moved idx c) = GetKeys c.
Proof. done. Qed.

Lemma start_range c : GetKeys c <> [] -> 0 <= start_of c < Z.of_nat (length (GetKeys c)).
Proof.
  intros Hk. assert (0 < Z.of_nat (length (GetKeys c))) by (destruct (GetKeys c); simpl; lia || done).
  unfold start_of. rewrite Z.geb_leb.
  destruct (Z.ltb_spec (ci_MultiKeyPollingIndex (cn_ChannelInfo c)) 0), (Z.leb_spec (Z.of_nat (length (GetKeys c))) (ci_MultiKeyPollingIndex (cn_ChannelInfo c))); simpl; lia.
Qed.
Lemma key_turn_enabled c : GetKeys c <> [] -> key_turn c ≡ₚ enabledIdx c (GetKeys c).
Proof.
  intros Hk. unfold key_turn, enabledIdx. rewrite indexes_seqZ. apply turn_perm; [|by apply start_range].
  destruct (GetKeys c); simpl; lia || done.
Qed.

Lemma object_assign w l f c : rt_heap (w_routing w) !! l = Some c ->
  forall l', object (w <| w_routing := w_routing w <| rt_heap := alter f l (rt_heap (w_routing w)) |> |>) l'
    = if decide (l' = l) then f c else object w l'.
Proof.
  intros Hl l'. unfold object. simpl. case_decide as E; subst.
  - by rewrite lookup_alter_eq, Hl.
  - by rewrite lookup_alter_ne.
Qed.

(** One call hands out the head of the turn and moves the position behind it. *)
Lemma GetNextEnabledKey_polls w l c idx rest : polls w l c -> key_turn c = idx :: rest ->
  exists w', GetNextEnabledKey Intn l w = (Ok (Ok (key_at (GetKeys c) idx, idx)), w') /\
    polls w' l (moved idx c) /\ key_turn (moved idx c) = rest ++ [idx].
Proof.
  intros (Hcache & Hc & [c0 Hl] & Hm & Hp) Ht.
  assert (Hobj : object w l = c /\ c0 = c).
  { unfold cached in Hc. destruct (rt_channelsIDM _ !! _) eqn:E; [|done]. simplify_eq.
    unfold object in *. by rewrite Hl. }
  destruct Hobj as [Hobj ->].
  assert (Hk : GetKeys c <> []).
  { intros E. unfold key_turn in Ht. rewrite E in Ht. done. }
  assert (Hn : 0 < Z.of_nat (length (GetKeys c))) by (destruct (GetKeys c); simpl; lia || done).
  pose proof (key_turn_enabled c Hk) as Hperm. rewrite Ht in Hperm.
  destruct (enabledIdx c (GetKeys c)) as [|first more] eqn:Een; [by apply Permutation_nil_r in Hperm|].
  assert (Hnext : next_polling_key (ci_MultiKeyPollingIndex (cn_ChannelInfo c)) (GetKeys c)
                    (ci_MultiKeyStatusList (cn_ChannelInfo c)) = Some idx).
  { unfold next_polling_key. rewrite scan_keys_head by done. fold (start_of c). fold (turn (Z.of_nat (length (GetKeys c))) (key_enabled (ci_MultiKeyStatusList (cn_ChannelInfo c))) (start_of c)).
    fold (key_turn c). by rewrite Ht. }
  eexists. split; [|split].
  - unfold GetNextEnabledKey. rewrite run_bind. unfold deref, gets. rewrite Hobj, Hm. simpl.
    destruct (GetKeys c) as [|k ks] eqn:Ek; [done|]. rewrite <- Ek in *. rewrite Een.
    rewrite Hp. rewrite decide_False by done. rewrite decide_True by done.
    assert (Hinfo : CacheGetChannelInfo (cn_Id c) w = (Ok (cn_ChannelInfo c), w)).
    { unfold CacheGetChannelInfo, CacheGetChannel. rewrite !run_bind. unfold gets. rewrite Hcache, run_bind, Hc.
      unfold deref, gets, mret, M_ret. rewrite run_bind. by rewrite Hobj. }
    rewrite run_bind. unfold attempt. rewrite Hinfo. cbv beta iota. rewrite Hnext.
    run_unfold. rewrite Hcache. reflexivity.
  - unfold polls. simpl. split; [done|]. split; [|split; [|done]].
    + unfold cached in *. simpl. destruct (rt_channelsIDM _ !! _) eqn:E; [|done]. simplify_eq.
      erewrite object_assign by done. by rewrite decide_True.
    + rewrite lookup_alter_eq, Hl. eauto.
  - unfold key_turn in *. rewrite keys_moved. rewrite <- (turn_next _ _ Hn _ _ _ Ht). f_equal.
    unfold start_of. rewrite keys_moved. simpl.
    pose proof (Z.mod_pos_bound (idx + 1) _ Hn). rewrite Z.geb_leb.
    destruct (Z.ltb_spec ((idx + 1) mod Z.of_nat (length (GetKeys c))) 0),
      (Z.leb_spec (Z.of_nat (length (GetKeys c))) ((idx + 1) mod Z.of_nat (length (GetKeys c)))); lia || done.
Qed.

(** A number of requests, one after the other. *)
Fixpoint poll_keys (m : nat) (l : positive) : MW (list (result NewAPIError (string * Z))) :=
  match m with
  | O => mret []
  | S m => r ← GetNextEnabledKey Intn l; rs ← poll_keys m l; mret (r :: rs)
  end.

Lemma poll_keys_rotate m w l c : polls w l c -> key_turn c <> [] ->
  exists w', poll_keys m l w = (Ok ((fun i => Ok (key_at (GetKeys c) i, i)) <$> rotate m (key_turn c)), w').
Proof.
  revert w c. induction m as [|m IH]; intros w c Hp Hne; simpl; [eauto|].
  destruct (key_turn c) as [|idx rest] eqn:Et; [done|].
  destruct (GetNextEnabledKey_polls w l c idx rest Hp Et) as (w1 & E1 & Hp1 & Ht1).
  rewrite run_bind, E1. destruct (IH w1 (moved idx c) Hp1) as (w2 & E2).
  { rewrite Ht1. by destruct rest. }
  rewrite run_bind, E2, Ht1. eexists. by rewrite keys_moved.
Qed.

End calls.
