(* ===== verification/RoutingSamples.v ===== *)
(** * Concrete channels

    Three channels and a world that holds them; the theorems on routing applied to it. *)

From S2P Require Import Prelude GoStd GoFloat World Sample ModelUtils SubscriptionTime Subscription AdvancedCustom ChannelModel Ability ChannelCache ChannelAdmin RoutingProofs RoutingSync KeyProofs ChannelAdminProofs.
Import GoStrings GoText.

(** No column of the samples holds JSON. *)
Definition sample_json : ChannelJson := {|
  parse_keys _ := None;
  parse_other_settings _ := (no_other_settings, None);
  parse_setting_error _ := None;
  put_status_info _ reason _ := reason;
|}.
#[local] Existing Instance sample_json.
Definition sample_compile (_ : string) : option (string -> bool) := None.

Definition sample_channel (id weight priority : Z) : Channel :=
  zero_channel <| cn_Id := id |> <| cn_Type := 1 |> <| cn_Key := "sk" |> <| cn_Name := "up" |>
    <| cn_Status := 1 |> <| cn_Weight := Some weight |> <| cn_Priority := Some priority |>
    <| cn_Models := "gpt-4o,o3" |> <| cn_Group := "default,vip" |>.
Definition cache_cfg : Config :=
  mkConfig false false (F64.of_Z 500000) (fun s => "hmac:" +:+ s) 28800 false true.
Definition empty_world : World := sample_world <| w_cfg := cache_cfg |>.
Definition sample_ops : list admin_op :=
  [OpInsert (sample_channel 11 0 0); OpBatchInsert [sample_channel 12 5 7; sample_channel 13 15 7];
   OpStatus 11 "" 2 "test"; OpStatus 11 "" 1 "again"; OpInsert (sample_channel 12 1 1)].
Definition channel_world : World := administrate sample_ops empty_world.

Lemma sample_rows : w_faults channel_world = [] /\ MemoryCacheEnabled (w_cfg channel_world) = true /\
  size (d_channels (w_db channel_world)) = 3%nat /\ size (d_abilities (w_db channel_world)) = 12%nat.
Proof. by vm_compute. Qed.

(** ** The channels of the world *)

Lemma empty_inv : Inv empty_world.
Proof.
  split; [done|]. split; [done|]. split.
  - intros id c. change (d_channels _) with (∅ : gmap Z Channel). by rewrite lookup_empty.
  - intros g m id. unfold expected. change (d_abilities _) with (∅ : gmap (string * string * Z) Ability).
    change (d_channels _) with (∅ : gmap Z Channel). by rewrite !lookup_empty.
Qed.
Lemma channel_world_inv : Inv channel_world.
Proof. apply administrate_Inv, empty_inv. Qed.

Lemma sample_row_ok id weight priority : 0 <= weight ->
  sane (sample_channel id weight priority) /\ settings_ok (sample_channel id weight priority) /\
  0 <= GetWeight (sample_channel id weight priority).
Proof.
  intros Hw. repeat split.
  - change (cn_Group _) with "default,vip". apply (bool_decide_unpack _). by vm_compute.
  - change (cn_Models _) with "gpt-4o,o3". apply (bool_decide_unpack _). by vm_compute.
  - discriminate.
  - done.
Qed.
Definition row_check (c : Channel) : bool :=
  bool_decide (cn_Group c = "default,vip") && bool_decide (cn_Models c = "gpt-4o,o3") &&
  (cn_Type c =? 1) && (0 <=? GetWeight c) && bool_decide (cn_Keys c = []).
Lemma rows_checked : map_Forall (fun _ c => row_check c = true) (d_channels (w_db channel_world)).
Proof. apply map_Forall_to_list. vm_compute. repeat constructor. Qed.
Lemma channel_world_rows : rows_ok (w_db channel_world).
Proof.
  intros id c Hc. pose proof (rows_checked id c Hc) as Hr. unfold row_check in Hr. bools.
  unfold sane, settings_ok. repeat match goal with E : _ = _ :> string |- _ => rewrite E end. split; [|split; [unfold ChannelTypeAdvancedCustom; lia|done]].
  split; [|split; [|done]]; apply (bool_decide_unpack _); by vm_compute.
Qed.
Definition no_sort (f : Z -> Z) (l : list Z) : list Z := l.
Lemma no_sort_perm f l : no_sort f l ≡ₚ l.
Proof. done. Qed.

Lemma abilities_follow_channels_witness : agree (w_db (administrate sample_ops empty_world)).
Proof.
  apply (abilities_follow_channels sample_ops empty_world); [done|done| |done].
  apply agree_but_nil, empty_inv.
Defined.
Lemma FixAbility_repairs_witness :
  exists w', FixAbility no_sort false channel_world = (Ok (Z.of_nat (size (d_channels (w_db channel_world))), 0), w') /\
    d_channels (w_db w') = d_channels (w_db channel_world) /\ agree (w_db w') /\ synced (w_db w') w'.
Proof.
  apply (FixAbility_repairs no_sort no_sort_perm channel_world).
  - apply sample_rows.
  - apply sample_rows.
  - intros E. destruct sample_rows as (_ & _ & Hs & _). by rewrite E in Hs.
  - by vm_compute.
  - intros id c Hc. pose proof (rows_checked id c Hc) as Hr. unfold row_check in Hr. bools.
    split; [|done]. destruct channel_world_inv as (_ & _ & Hk & _). by apply Hk.
  - apply channel_world_rows.
Defined.

(** ** The cached world *)

Definition cached_world : World := (InitChannelCache no_sort channel_world).2.
Lemma cached_synced : synced (w_db channel_world) cached_world.
Proof.
  destruct (InitChannelCache_ok no_sort no_sort_perm channel_world) as (w' & E & Hs & _).
  - apply sample_rows.
  - apply sample_rows.
  - apply agree_but_nil, channel_world_inv.
  - apply channel_world_rows.
  - unfold cached_world. by rewrite E.
Qed.
Lemma cached_candidates : candidates sample_compile cached_world "default" "gpt-4o" "/v1/chat/completions"
  = lookup_models cached_world "default" "gpt-4o".
Proof. by vm_compute. Qed.
Lemma cached_consistent : consistent cached_world (lookup_models cached_world "default" "gpt-4o").
Proof.
  apply (synced_consistent (w_db channel_world)); [|apply channel_world_rows|apply cached_synced].
  apply agree_but_nil, channel_world_inv.
Qed.
Definition half (n : Z) : Z := n / 2.
Lemma half_below n : 0 < n -> 0 <= half n < n.
Proof. unfold half. intros. split; [apply Z.div_pos; lia|apply Z.div_lt; lia]. Qed.

Lemma cached_choice_spec_witness :
  match pick_cached sample_compile half cached_world "default" "gpt-4o" 0 "/v1/chat/completions" with
  | (None, None) => candidates sample_compile cached_world "default" "gpt-4o" "/v1/chat/completions" = []
  | (Some l, None) => exists id c,
      id ∈ candidates sample_compile cached_world "default" "gpt-4o" "/v1/chat/completions" /\
      cached cached_world id = Some (l, c) /\
      ((1 < length (candidates sample_compile cached_world "default" "gpt-4o" "/v1/chat/completions"))%nat ->
       right_priority cached_world 0 (candidates sample_compile cached_world "default" "gpt-4o" "/v1/chat/completions") c)
  | (_, Some _) => False
  end.
Proof.
  apply (cached_choice_spec sample_compile half half_below cached_world "default" "gpt-4o" 0 "/v1/chat/completions").
  - lia.
  - rewrite cached_candidates. apply cached_consistent.
Defined.
(** The first choice is a channel of priority 7. *)
Lemma first_choice : option_map (fun l => GetPriority (object cached_world l))
  (pick_cached sample_compile half cached_world "default" "gpt-4o" 0 "/v1/chat/completions").1 = Some 7.
Proof. by vm_compute. Qed.

(** ** The draw *)

Definition draw_from : list (positive * Channel) :=
  [(1%positive, sample_channel 12 5 7); (2%positive, sample_channel 13 15 7); (3%positive, sample_channel 14 0 7)].
Lemma weighted_choice_exact_witness :
  let '(sumWeight, factor, adjustment) :=
    smoothing (sumZ (fun p => GetWeight p.2) draw_from) (Z.of_nat (length draw_from)) in
  0 < sumWeight * factor /\
  shares (sumWeight * factor) (fun r => draw_target (fun _ => r) draw_from) 2%positive
    = effective factor adjustment (sample_channel 13 15 7).
Proof.
  apply (weighted_choice_exact draw_from 2%positive (sample_channel 13 15 7)).
  - apply (bool_decide_unpack _). by vm_compute.
  - intros p Hp. unfold draw_from in Hp. repeat (apply elem_of_cons in Hp as [->|Hp]; [done|]).
    by apply elem_of_nil in Hp.
  - right. left.
Defined.

(** ** The keys of a channel *)

Definition polling_channel : Channel :=
  sample_channel 21 1 0 <| cn_Keys := ["k0"; "k1"; "k2"; "k3"] |>
    <| cn_ChannelInfo := mkChannelInfo true 4 {[1 := 2]} ∅ ∅ 3 MultiKeyModePolling |>.
Definition polling_world : World :=
  empty_world <| w_routing := mkRouting {[1%positive := polling_channel]} 2 ∅ {[21 := 1%positive]} ∅ ∅ ∅ ∅ |>.

(** ** A route configuration *)

Definition sample_url (_ : string) : option (string * string) := Some ("https", "up.example").
Definition named_route : AdvancedCustomRoute :=
  mkRoute "/v1/chat/completions" "/v1/messages" "openai_chat_completions_to_anthropic_messages" ["claude"; "opus "] None.
Definition sample_routes : list AdvancedCustomRoute :=
  [mkRoute "/v1/chat/completions" "https://up.example/chat" "" ["gpt-4o"] None; named_route;
   mkRoute "/v1/chat/completions" "/v1/chat" "none" [] None; mkRoute "/v1/embeddings" "/e" "" [] None].
Lemma listed_model_is_served_witness :
  MatchPathForModel sample_compile (Some sample_routes) "/v1/chat/completions" "opus" = Some named_route.
Proof.
  apply (listed_model_is_served sample_compile sample_url sample_routes named_route "opus" "/v1/chat/completions").
  - by vm_compute.
  - right. left.
  - right. left.
  - by vm_compute.
  - by vm_compute.
  - by vm_compute.
  - intros r' Hin. unfold sample_routes in Hin. repeat (apply elem_of_cons in Hin as [->|Hin]; [by vm_compute|]).
    by apply elem_of_nil in Hin.
  - intros r' rule Hin. unfold sample_routes in Hin.
    repeat (apply elem_of_cons in Hin as [->|Hin];
      [intros Hr; repeat (apply elem_of_cons in Hr as [->|Hr]; [by vm_compute|]); by apply elem_of_nil in Hr|]).
    by apply elem_of_nil in Hin.
Defined.

(** ** Behaviour that the abilities do not follow

    The operations that [abilities_follow_channels] leaves out, on small worlds. *)

Definition in_order (_ : string * bool) (l : list Channel) : list Channel := l.
Definition tagged_world : World :=
  administrate [OpInsert (sample_channel 31 5 0 <| cn_Tag := Some "t" |>)] empty_world.
Definition no_edit_of : TagEdit := mkTagEdit None None None None None None None None.

(** A weight of 0 reaches the channels of a tag but not their abilities. *)
Theorem tag_weight_zero_lost :
  let w := (EditChannelByTag in_order "t" (mkTagEdit None None None None None (Some 0) None None) tagged_world).2 in
  (cn_Weight <$> d_channels (w_db w) !! 31) = Some (Some 0) /\
  (ab_Weight <$> d_abilities (w_db w) !! ("default", "o3", 31)) = Some 5.
Proof. by vm_compute. Qed.
(** Setting the tag of channels leaves the old tag in their abilities: the rows are
    read outside the transaction. *)
Theorem batch_tag_stale :
  let w := (BatchSetChannelTag [31] (Some "new") tagged_world).2 in
  (cn_Tag <$> d_channels (w_db w) !! 31) = Some (Some "new") /\
  (ab_Tag <$> d_abilities (w_db w) !! ("default", "o3", 31)) = Some (Some "t").
Proof. by vm_compute. Qed.
(** Deleting the disabled channels leaves their abilities behind. *)
Theorem deleted_channels_leave_abilities :
  let w := (DeleteDisabledChannel (administrate [OpDisableTag "t"] tagged_world)).2 in
  d_channels (w_db w) !! 31 = None /\ is_Some (d_abilities (w_db w) !! ("default", "o3", 31)).
Proof. split; [by vm_compute|]. eexists. by vm_compute. Qed.
(** Two pairs whose keys coincide: one of them gets no ability. *)
Theorem colliding_names_lose_ability :
  ab_Group <$> abilities_of (sample_channel 31 5 0 <| cn_Models := "c,b|c" |> <| cn_Group := "a|b,a" |>)
  = ["a|b"; "a"; "a|b"].
Proof. by vm_compute. Qed.

(** A key that is enabled again while its channel is enabled is enabled only in the
    cache: the row keeps the key disabled, and the next synchronisation disables it. *)
Definition polling_stored : World :=
  polling_world <| w_db := put_channel (polling_channel <| cn_Key := "k0" +:+ String newline "k1" |>) (w_db polling_world) |>.
Theorem enabled_key_not_stored :
  let r := UpdateChannelStatus 21 "k1" ChannelStatusEnabled "" polling_stored in
  r.1 = Ok false /\
  ci_MultiKeyStatusList (cn_ChannelInfo (object r.2 1)) !! 1 = None /\
  (d_channels (w_db r.2) !! 21 ≫= fun c => ci_MultiKeyStatusList (cn_ChannelInfo c) !! 1) = Some 2.
Proof. by vm_compute. Qed.

(** A failing query of the abilities makes the synchronisation panic. *)
Theorem failed_query_panics :
  (InitChannelCache no_sort (channel_world <| w_faults := [None; Some "timeout"] |>)).1
  = Err (ErrPanic "assignment to entry in nil map").
Proof. by vm_compute. Qed.
