(* ===== verification/ChannelHealth.v ===== *)
(** * Health and rate limits of channels (src/service/channel_health.go, channel_rate_limit.go)

    A channel whose last three requests failed rests for half a minute.  A limiter
    keeps the requests of the last minute, in the process or in Redis. *)

From S2P Require Import Prelude GoStd GoFloat World ChannelModel.

(** ** Health *)

Definition channelFailureThreshold : Z := 3.
Definition channelCooldown : Z := 30.
(** uint64 *)
Definition u64 (n : Z) : Z := n mod 2 ^ 64.

Definition no_health : channelHealthState := mkHealth 0 0 0 0 0 0.
Definition health_of (w : World) (channelID : Z) : channelHealthState :=
  default no_health (rt_health (w_routing w) !! channelID).
Definition put_health (channelID : Z) (s : channelHealthState) (w : World) : World :=
  w <| w_routing := w_routing w <| rt_health := <[channelID := s]> (rt_health (w_routing w)) |> |>.

Definition fail_health (now : Z) (s : channelHealthState) : channelHealthState * bool :=
  let n := hs_consecutiveFailures s + 1 in
  let s : channelHealthState := s <| hs_requests := u64 (hs_requests s + 1) |>
    <| hs_failures := u64 (hs_failures s + 1) |> <| hs_consecutiveFailures := n |> <| hs_lastFailureAt := now |> in
  if channelFailureThreshold <=? n then
    (s <| hs_cooldownEnd := now + channelCooldown |> <| hs_consecutiveFailures := 0 |>, true)
  else (s, false).
Definition succeed_health (s : channelHealthState) : channelHealthState :=
  s <| hs_requests := u64 (hs_requests s + 1) |> <| hs_successes := u64 (hs_successes s + 1) |>
    <| hs_consecutiveFailures := 0 |> <| hs_cooldownEnd := 0 |>.

Definition RecordChannelHealthFailure (channelID : Z) : MW bool :=
  if channelID <=? 0 then mret false
  else
    now ← GetTimestamp;
    s ← gets (fun w => fail_health now (health_of w channelID));
    modify (put_health channelID s.1) ;;
    mret s.2.
Definition RecordChannelHealthSuccess (channelID : Z) : MW unit :=
  if channelID <=? 0 then mret tt
  else modify (fun w => put_health channelID (succeed_health (health_of w channelID)) w).

Record ChannelHealthSnapshot := mkHealthSnapshot {
  sn_ChannelID : Z;
  sn_Requests : Z;
  sn_Successes : Z;
  sn_Failures : Z;
  sn_ErrorRate : F64.float64;
  sn_ConsecutiveFailures : Z;
  sn_LastFailureAt : Z;
  sn_CooldownUntil : Z;
}.
Definition GetChannelHealthSnapshot (channelID : Z) (w : World) : ChannelHealthSnapshot :=
  let s := health_of w channelID in
  mkHealthSnapshot channelID (hs_requests s) (hs_successes s) (hs_failures s)
    (if 0 <? hs_requests s then F64.div (F64.of_Z (hs_failures s)) (F64.of_Z (hs_requests s)) else F64.zero)
    (hs_consecutiveFailures s) (hs_lastFailureAt s) (hs_cooldownEnd s).

Definition cooling (w : World) (channelID : Z) : bool :=
  match rt_health (w_routing w) !! channelID with
  | Some s => w_now w <? hs_cooldownEnd s
  | None => false
  end.
Definition IsChannelCoolingDown (channelID : Z) : MW bool := gets (fun w => cooling w channelID).

(** ** The limiter *)

Definition channelRateLimitWindow : Z := 60.
Record ChannelRateLimitConfig := mkRateLimit {
  rl_RequestRPM : Z;
  rl_SuccessfulRPM : Z;
}.
Definition ChannelRateLimitConfigFromSettings (settings : ChannelOtherSettings) : ChannelRateLimitConfig :=
  mkRateLimit (os_ChannelRequestRateLimitCount settings) (os_ChannelRequestRateLimitSuccessCount settings).
Definition rate_limit_enabled (c : ChannelRateLimitConfig) : bool :=
  (rl_RequestRPM c >? 0) || (rl_SuccessfulRPM c >? 0).

Definition no_window : channelRateLimitWindowState := mkWindow [] [].
Definition saturated (c : ChannelRateLimitConfig) (s : channelRateLimitWindowState) : bool :=
  ((rl_RequestRPM c >? 0) && (Z.of_nat (length (wi_total s)) >=? rl_RequestRPM c))
  || ((rl_SuccessfulRPM c >? 0) && (Z.of_nat (length (wi_success s)) >=? rl_SuccessfulRPM c)).

(** *** In the process *)

Fixpoint prune_after (cutoff : Z) (samples : list Z) : list Z :=
  match samples with
  | [] => []
  | t :: rest => if cutoff <? t then samples else prune_after cutoff rest
  end.
Definition pruneChannelRateLimitSamples (samples : list Z) (now : Z) : list Z :=
  prune_after (now - channelRateLimitWindow) samples.
Definition prune_window (now : Z) (s : channelRateLimitWindowState) : channelRateLimitWindowState :=
  mkWindow (pruneChannelRateLimitSamples (wi_total s) now) (pruneChannelRateLimitSamples (wi_success s) now).

Definition put_window (channelID : Z) (s : channelRateLimitWindowState) (w : World) : World :=
  w <| w_routing := w_routing w <| rt_limiter := <[channelID := s]> (rt_limiter (w_routing w)) |> |>.
Definition localSaturated (channelID : Z) (c : ChannelRateLimitConfig) : MW bool := fun w =>
  match rt_limiter (w_routing w) !! channelID with
  | None => (Ok false, w)
  | Some s => let s := prune_window (w_now w) s in (Ok (saturated c s), put_window channelID s w)
  end.
Definition localAcquire (channelID : Z) (c : ChannelRateLimitConfig) : MW bool := fun w =>
  let s := prune_window (w_now w) (default no_window (rt_limiter (w_routing w) !! channelID)) in
  if saturated c s then (Ok false, put_window channelID s w)
  else (Ok true, put_window channelID (s <| wi_total := wi_total s ++ [w_now w] |>) w).
Definition localRecordSuccess (channelID : Z) : MW unit := modify (fun w =>
  let s := default no_window (rt_limiter (w_routing w) !! channelID) in
  put_window channelID
    (s <| wi_success := pruneChannelRateLimitSamples (wi_success s) (w_now w) ++ [w_now w] |>) w).

(** *** In Redis: the Lua scripts

    The scores of the two sorted sets of a channel, in milliseconds.  The members are
    unique, so that ZADD adds an element.  The keys expire 120 s after the last write,
    when all their scores are out of the window. *)

Definition UnixMilli (t : Z) : Z := 1000 * t.
Definition zremrangebyscore (cutoff : Z) (set : list Z) : list Z := List.filter (fun score => cutoff <? score) set.
Definition trim_sets (cutoff : Z) (s : channelRateLimitWindowState) : channelRateLimitWindowState :=
  mkWindow (zremrangebyscore cutoff (wi_total s)) (zremrangebyscore cutoff (wi_success s)).
Definition put_sets (channelID : Z) (s : channelRateLimitWindowState) (w : World) : World :=
  w <| w_routing := w_routing w <| rt_redis_limiter := <[channelID := s]> (rt_redis_limiter (w_routing w)) |> |>.
Definition sets_of (w : World) (channelID : Z) : channelRateLimitWindowState :=
  default no_window (rt_redis_limiter (w_routing w) !! channelID).
Definition redis_cutoff (w : World) : Z := UnixMilli (w_now w - channelRateLimitWindow).

(** channelRateLimitSaturatedLua *)
Definition redisSaturated (channelID : Z) (c : ChannelRateLimitConfig) : MW bool :=
  ext_call ;;
  s ← gets (fun w => trim_sets (redis_cutoff w) (sets_of w channelID));
  modify (put_sets channelID s) ;;
  mret (saturated c s).
(** channelRateLimitAcquireLua *)
Definition redisAcquire (channelID : Z) (c : ChannelRateLimitConfig) : MW bool :=
  ext_call ;;
  s ← gets (fun w => trim_sets (redis_cutoff w) (sets_of w channelID));
  now ← gets w_now;
  if saturated c s then modify (put_sets channelID s) ;; mret false
  else modify (put_sets channelID (s <| wi_total := wi_total s ++ [UnixMilli now] |>)) ;; mret true.
(** channelRateLimitSuccessLua *)
Definition redisRecordSuccess (channelID : Z) : MW unit :=
  ext_call ;;
  modify (fun w =>
    let s := sets_of w channelID in
    put_sets channelID
      (s <| wi_success := zremrangebyscore (redis_cutoff w) (wi_success s) ++ [UnixMilli (w_now w)] |>) w).

(** *** The entry points *)

Definition redis_enabled : MW bool := gets (fun w => RedisEnabled (w_cfg w)).
Definition IsChannelRateLimited (channelID : Z) (c : ChannelRateLimitConfig) : MW bool :=
  if (channelID <=? 0) || negb (rate_limit_enabled c) then mret false
  else redis ← redis_enabled;
       if redis : bool then redisSaturated channelID c else localSaturated channelID c.
Definition TryAcquireChannelRequest (channelID : Z) (c : ChannelRateLimitConfig) : MW bool :=
  if (channelID <=? 0) || negb (rate_limit_enabled c) then mret true
  else redis ← redis_enabled;
       if redis : bool then redisAcquire channelID c else localAcquire channelID c.
Definition RecordChannelRequestSuccess (channelID : Z) (c : ChannelRateLimitConfig) : MW unit :=
  if (channelID <=? 0) || (rl_SuccessfulRPM c <=? 0) then mret tt
  else redis ← redis_enabled;
       if redis : bool then redisRecordSuccess channelID else localRecordSuccess channelID.

(** The settings that the gin context holds, if any. *)
Definition channelRateLimitConfigFromContext (settings : option ChannelOtherSettings) : ChannelRateLimitConfig :=
  match settings with
  | Some s => ChannelRateLimitConfigFromSettings s
  | None => mkRateLimit 0 0
  end.
Definition TryAcquireChannelRequestForContext (settings : option ChannelOtherSettings) (channelID : Z) : MW bool :=
  TryAcquireChannelRequest channelID (channelRateLimitConfigFromContext settings).
Definition RecordChannelRequestSuccessForContext (settings : option ChannelOtherSettings) (channelID : Z) : MW unit :=
  RecordChannelRequestSuccess channelID (channelRateLimitConfigFromContext settings).
