(* ===== verification/HealthProofs.v ===== *)
(** * What rests and what is limited

    A channel cools down exactly after every third failure in a row; the limiter never
    grants more requests in a minute than it is set to, and Redis decides as the
    process does. *)

From S2P Require Import Prelude GoStd GoFloat World Sample ChannelModel ChannelHealth.

(** ** Health *)

Inductive health_call :=
| HFailure (channelID now : Z)
| HSuccess (channelID now : Z).
Definition at_time (now : Z) (w : World) : World := w <| w_now := now |>.
Definition run_health (w : World) (c : health_call) : World :=
  match c with
  | HFailure id now => (RecordChannelHealthFailure id (at_time now w)).2
  | HSuccess id now => (RecordChannelHealthSuccess id (at_time now w)).2
  end.
Definition run_healths (calls : list health_call) (w : World) : World := fold_left run_health calls w.

(** The times of the failures of a channel since its last success. *)
Definition streak_step (id : Z) (ts : list Z) (c : health_call) : list Z :=
  match c with
  | HFailure i now => if i =? id then ts ++ [now] else ts
  | HSuccess i _ => if i =? id then [] else ts
  end.
Definition streak (id : Z) (calls : list health_call) : list Z := fold_left (streak_step id) calls [].
(** The end of the rest: half a minute after the last third failure in a row. *)
Definition rest_until (ts : list Z) : Z :=
  let n := length ts in
  if (n <? 3)%nat then 0 else nth (n / 3 * 3 - 1) ts 0 + channelCooldown.

(** Requests, successes and failures of a channel. *)
Definition counts_step (id : Z) (n : Z * Z) (c : health_call) : Z * Z :=
  match c with
  | HFailure i _ => if i =? id then (n.1, n.2 + 1) else n
  | HSuccess i _ => if i =? id then (n.1 + 1, n.2) else n
  end.
Definition counts (id : Z) (calls : list health_call) : Z * Z := fold_left (counts_step id) calls (0, 0).

Lemma run_healths_snoc calls c w : run_healths (calls ++ [c]) w = run_health (run_healths calls w) c.
Proof. unfold run_healths. by rewrite fold_left_app. Qed.
Lemma streak_snoc id calls c : streak id (calls ++ [c]) = streak_step id (streak id calls) c.
Proof. unfold streak. by rewrite fold_left_app. Qed.
Lemma counts_snoc id calls c : counts id (calls ++ [c]) = counts_step id (counts id calls) c.
Proof. unfold counts. by rewrite fold_left_app. Qed.

Lemma put_health_of id id' s w : health_of (put_health id s w) id' = if decide (id' = id) then s else health_of w id'.
Proof.
  unfold health_of, put_health. simpl. case_decide as E; [by rewrite E, lookup_insert_eq|by rewrite lookup_insert_ne].
Qed.
Lemma run_health_of w c id : 0 < id ->
  health_of (run_health w c) id =
    match c with
    | HFailure i now => if i =? id then (fail_health now (health_of w id)).1 else health_of w id
    | HSuccess i now => if i =? id then succeed_health (health_of w id) else health_of w id
    end.
Proof.
  intros Hid. destruct c as [i now|i now]; simpl.
  - unfold RecordChannelHealthFailure. destruct (Z.leb_spec i 0).
    + by rewrite (proj2 (Z.eqb_neq i id)) by lia.
    + rewrite run_bind. change (GetTimestamp (at_time now w)) with (Ok (E := error) now, at_time now w).
      run_unfold. rewrite put_health_of. destruct (Z.eqb_spec i id) as [->|].
      * by rewrite decide_True.
      * by rewrite decide_False.
  - unfold RecordChannelHealthSuccess. destruct (Z.leb_spec i 0).
    + by rewrite (proj2 (Z.eqb_neq i id)) by lia.
    + unfold modify. simpl. rewrite put_health_of. destruct (Z.eqb_spec i id) as [->|].
      * by rewrite decide_True.
      * by rewrite decide_False.
Qed.

(** The state in terms of the history. *)
Definition health_matches (ts : list Z) (n : Z * Z) (s : channelHealthState) : Prop :=
  hs_consecutiveFailures s = Z.of_nat (length ts mod 3) /\ hs_cooldownEnd s = rest_until ts /\
  hs_successes s = u64 n.1 /\ hs_failures s = u64 n.2 /\ hs_requests s = u64 (n.1 + n.2).

Lemma u64_succ n : u64 (u64 n + 1) = u64 (n + 1).
Proof. unfold u64. by rewrite Zplus_mod_idemp_l. Qed.
Lemma rest_until_snoc ts t : rest_until (ts ++ [t])
  = if (length ts mod 3 =? 2)%nat then t + channelCooldown else rest_until ts.
Proof.
  unfold rest_until. rewrite length_app. simpl length.
  pose proof (Nat.div_mod_eq (length ts) 3) as Hd. pose proof (Nat.mod_upper_bound (length ts) 3 ltac:(lia)) as Hm.
  set (q := (length ts / 3)%nat) in *. set (r := (length ts mod 3)%nat) in *.
  assert (Hq : ((length ts + 1) / 3 = if r =? 2 then q + 1 else q)%nat).
  { destruct (Nat.eqb_spec r 2).
    - symmetry. apply (Nat.div_unique _ _ _ 0); lia.
    - symmetry. apply (Nat.div_unique _ _ _ (r + 1)); lia. }
  rewrite Hq. destruct (Nat.eqb_spec r 2) as [E|E].
  - destruct (Nat.ltb_spec (length ts + 1) 3); [lia|].
    rewrite app_nth2 by lia. replace ((q + 1) * 3 - 1 - length ts)%nat with 0%nat by lia. done.
  - destruct (Nat.ltb_spec (length ts + 1) 3), (Nat.ltb_spec (length ts) 3); try lia; try done.
    rewrite app_nth1; [done|lia].
Qed.
Lemma fail_health_matches now ts n s : health_matches ts n s ->
  health_matches (ts ++ [now]) (n.1, n.2 + 1) (fail_health now s).1.
Proof.
  intros (Hc & Hr & Hs & Hf & Hq). unfold fail_health. rewrite Hc.
  pose proof (Nat.mod_upper_bound (length ts) 3 ltac:(lia)) as Hm.
  pose proof (Nat.div_mod_eq (length ts) 3) as Hd.
  assert (Hlen : (length (ts ++ [now]) mod 3 = if length ts mod 3 =? 2 then 0 else length ts mod 3 + 1)%nat).
  { rewrite length_app. simpl length. destruct (Nat.eqb_spec (length ts mod 3) 2).
    - symmetry. apply (Nat.mod_unique _ _ (length ts / 3 + 1)); lia.
    - symmetry. apply (Nat.mod_unique _ _ (length ts / 3)); lia. }
  unfold health_matches. rewrite rest_until_snoc, Hlen. unfold channelFailureThreshold.
  destruct (Nat.eqb_spec (length ts mod 3) 2) as [E|E].
  - rewrite (proj2 (Z.leb_le 3 _)) by lia. simpl. rewrite Hs, Hf, Hq, !u64_succ.
    repeat split; try done. f_equal. lia.
  - rewrite (proj2 (Z.leb_gt 3 _)) by lia. simpl. rewrite Hs, Hf, Hq, !u64_succ.
    repeat split; try done; [lia|]. f_equal. lia.
Qed.

(** C30 The health of a channel is a function of its history: it rests exactly for half a
    minute after the third, sixth, ... failure in a row, a success ends the rest, and
    its counters count its requests, whatever happens to other channels in between. *)
Theorem health_follows_history calls w id now : 0 < id -> 0 <= now -> rt_health (w_routing w) = ∅ ->
  let w' := run_healths calls w in
  (IsChannelCoolingDown id (at_time now w')).1 = Ok (now <? rest_until (streak id calls)) /\
  hs_successes (health_of w' id) = u64 (counts id calls).1 /\
  hs_failures (health_of w' id) = u64 (counts id calls).2 /\
  hs_requests (health_of w' id) = u64 ((counts id calls).1 + (counts id calls).2).
Proof.
  intros Hid Hnow Hw w'.
  assert (HM : health_matches (streak id calls) (counts id calls) (health_of w' id)).
  { unfold w'. clear w'. induction calls as [|c calls IH] using rev_ind.
    - unfold health_of. simpl. by rewrite Hw.
    - rewrite run_healths_snoc, streak_snoc, counts_snoc, run_health_of by done.
      destruct c as [i t|i t]; simpl; destruct (i =? id); try done.
      + by apply fail_health_matches.
      + destruct IH as (_ & _ & Hs & Hf & Hq). unfold health_matches. simpl. rewrite Hs, Hf, Hq, !u64_succ.
        repeat split; try done. f_equal. lia. }
  destruct HM as (_ & Hr & Hs & Hf & Hq). split; [|done]. unfold IsChannelCoolingDown, gets, cooling. simpl. f_equal.
  unfold health_of in Hr. destruct (rt_health (w_routing w') !! id) as [s|]; simpl in Hr.
  - by rewrite Hr.
  - rewrite <- Hr. symmetry. apply Z.ltb_ge. done.
Qed.

Lemma health_follows_history_witness :
  let calls := [HFailure 4 100; HFailure 4 101; HSuccess 9 101; HFailure 4 110; HFailure 9 112] in
  let w' := run_healths calls sample_world in
  (IsChannelCoolingDown 4 (at_time 130 w')).1 = Ok (130 <? rest_until (streak 4 calls)) /\
  hs_successes (health_of w' 4) = u64 (counts 4 calls).1 /\
  hs_failures (health_of w' 4) = u64 (counts 4 calls).2 /\
  hs_requests (health_of w' 4) = u64 ((counts 4 calls).1 + (counts 4 calls).2).
Proof.
  apply (health_follows_history [HFailure 4 100; HFailure 4 101; HSuccess 9 101; HFailure 4 110; HFailure 9 112]
    sample_world 4 130); [lia|lia|done].
Defined.

(** ** The limiter *)

Inductive limiter_call :=
| LAcquire (channelID : Z)
| LSuccess (channelID : Z)
| LCheck (channelID : Z).

Section limiter.
(** The settings of the channels. *)
Context (conf : Z -> ChannelRateLimitConfig).

(** A call after some seconds; the grants so far, as channels with times. *)
Definition run_limiter (st : World * list (Z * Z)) (c : Z * limiter_call) : World * list (Z * Z) :=
  let w := at_time (w_now st.1 + c.1) st.1 in
  match c.2 with
  | LAcquire id =>
      let '(r, w') := TryAcquireChannelRequest id (conf id) w in
      (w', match r with Ok true => st.2 ++ [(id, w_now w)] | _ => st.2 end)
  | LSuccess id => ((RecordChannelRequestSuccess id (conf id) w).2, st.2)
  | LCheck id => ((IsChannelRateLimited id (conf id) w).2, st.2)
  end.
Definition run_limiters (calls : list (Z * limiter_call)) (w : World) : World * list (Z * Z) :=
  fold_left run_limiter calls (w, []).
Definition grants_of (id : Z) (grants : list (Z * Z)) : list Z :=
  snd <$> List.filter (fun g => g.1 =? id) grants.

(** How many of the times lie in the minute that ends at [t]. *)
Definition in_minute (t : Z) (x : Z) : bool := (t - channelRateLimitWindow <? x) && (x <=? t).
Definition within_minute (t : Z) (times : list Z) : Z := Z.of_nat (length (List.filter (in_minute t) times)).

(** *** Windows of sorted times *)

Definition ascending (l : list Z) : Prop := forall l1 x l2, l = l1 ++ x :: l2 -> forall y, y ∈ l1 -> y <= x.
Lemma ascending_snoc l x : ascending l -> (forall y, y ∈ l -> y <= x) -> ascending (l ++ [x]).
Proof.
  intros Hl Hx l1 z l2 E y Hy. destruct l2 as [|z' l2] using rev_ind.
  - apply app_inj_tail in E as [-> ->]. by apply Hx.
  - clear IHl2. rewrite app_comm_cons, app_assoc in E. apply app_inj_tail in E as [-> ->]. by eapply Hl.
Qed.
Lemma ascending_app_l l k : ascending (l ++ k) -> ascending l.
Proof. intros H l1 x l2 -> . apply (H l1 x (l2 ++ k)). by rewrite <- app_assoc. Qed.
Lemma ascending_app_r l k : ascending (l ++ k) -> ascending k.
Proof.
  intros H l1 x l2 -> y Hy. apply (H (l ++ l1) x l2); [by rewrite app_assoc|].
  apply elem_of_app. by right.
Qed.
Lemma ascending_last l x : ascending (l ++ [x]) -> forall y, y ∈ l -> y <= x.
Proof. intros H y Hy. by apply (H l x []). Qed.

Lemma filter_drops_all (P : Z -> bool) (l : list Z) : (forall x, x ∈ l -> P x = false) -> List.filter P l = [].
Proof.
  induction l as [|x l IH]; intros H; simpl; [done|]. rewrite H by by left. apply IH. intros y Hy. apply H. by right.
Qed.
Lemma filter_keeps_all (P : Z -> bool) (l : list Z) : (forall x, x ∈ l -> P x = true) -> List.filter P l = l.
Proof.
  induction l as [|x l IH]; intros H; simpl; [done|]. rewrite H by by left. f_equal. apply IH. intros y Hy. apply H. by right.
Qed.
Lemma length_filter_mono (P Q : Z -> bool) (l : list Z) : (forall x, x ∈ l -> P x = true -> Q x = true) ->
  (length (List.filter P l) <= length (List.filter Q l))%nat.
Proof.
  induction l as [|x l IH]; intros H; simpl; [done|].
  specialize (IH ltac:(intros y Hy; apply H; by right)). specialize (H x ltac:(by left)).
  destruct (P x), (Q x); simpl; lia.
Qed.

(** On ascending samples the loop drops exactly the old ones. *)
Lemma prune_after_filter cutoff l : ascending l -> prune_after cutoff l = List.filter (fun t => cutoff <? t) l.
Proof.
  induction l as [|x l IH]; intros Hl; simpl; [done|]. destruct (Z.ltb_spec cutoff x).
  - f_equal. symmetry. apply filter_keeps_all. intros y Hy. apply Z.ltb_lt.
    apply list_elem_of_split in Hy as (l1 & l2 & ->).
    pose proof (Hl (x :: l1) y l2 eq_refl x ltac:(by left)). lia.
  - apply IH. exact (ascending_app_r [x] l Hl).
Qed.
Lemma prune_after_split cutoff l : ascending l ->
  exists old, l = old ++ prune_after cutoff l /\ forall x, x ∈ old -> x <= cutoff.
Proof.
  induction l as [|x l IH]; intros Hl; simpl; [exists []; split; [done|by intros x ?%elem_of_nil]|].
  destruct (Z.ltb_spec cutoff x).
  - exists []. split; [done|by intros y ?%elem_of_nil].
  - destruct IH as (old & E & Hold); [exact (ascending_app_r [x] l Hl)|]. exists (x :: old). simpl. split; [by f_equal|].
    intros y [->|Hy]%elem_of_cons; [done|by apply Hold].
Qed.

(** Every grant left at most [n] grants in its last minute. *)
Inductive windows_ok (n : Z) : list Z -> Prop :=
| windows_nil : windows_ok n []
| windows_snoc g u : windows_ok n g -> within_minute u (g ++ [u]) <= n -> windows_ok n (g ++ [u]).

Lemma windows_bound n g t : 0 <= n -> windows_ok n g -> ascending g -> within_minute t g <= n.
Proof.
  intros Hn. induction 1 as [|g u Hg IH Hu]; intros Hasc; [done|].
  specialize (IH (ascending_app_l _ _ Hasc)). pose proof (ascending_last _ _ Hasc) as Hlast.
  destruct (in_minute t u) eqn:Et.
  - unfold in_minute in Et. bools. etransitivity; [|exact Hu]. unfold within_minute.
    apply Nat2Z.inj_le, length_filter_mono. intros x Hx. unfold in_minute. rewrite !andb_true_iff.
    intros [H1 _]. bools. split; [apply Z.ltb_lt|apply Z.leb_le].
    + lia.
    + apply elem_of_app in Hx as [Hx|Hx]; [by apply Hlast|]. apply list_elem_of_singleton in Hx. lia.
  - unfold within_minute. rewrite List.filter_app, length_app. simpl. rewrite Et. simpl. rewrite Nat.add_0_r. exact IH.
Qed.

(** *** The state of a channel *)

(** What the window of a channel knows of the grants [g] at the time [now]: all but the
    old ones. *)
Definition window_knows (now : Z) (g samples : list Z) : Prop :=
  exists old, g = old ++ samples /\ forall x, x ∈ old -> x <= now - channelRateLimitWindow.

Lemma window_knows_prune now now' g samples : ascending g -> now <= now' -> window_knows now g samples ->
  window_knows now' g (pruneChannelRateLimitSamples samples now').
Proof.
  intros Hasc Hle (old & -> & Hold).
  destruct (prune_after_split (now' - channelRateLimitWindow) samples) as (old' & E & Hold').
  { by apply ascending_app_r in Hasc. }
  exists (old ++ old'). rewrite <- app_assoc. split; [by f_equal|].
  intros x [Hx|Hx]%elem_of_app; [specialize (Hold _ Hx); lia|by apply Hold'].
Qed.
(** After pruning the window holds the grants of the last minute. *)
Lemma window_knows_count now g samples : ascending g -> (forall x, x ∈ g -> x <= now) ->
  window_knows now g samples -> pruneChannelRateLimitSamples samples now = samples ->
  Z.of_nat (length samples) = within_minute now g.
Proof.
  intros Hasc Hnow (old & -> & Hold) Hp. unfold within_minute. rewrite List.filter_app, length_app.
  rewrite (filter_drops_all _ old).
  2:{ intros x Hx. unfold in_minute. specialize (Hold _ Hx). by rewrite (proj2 (Z.ltb_ge _ _) Hold). }
  rewrite filter_keeps_all; [done|]. intros x Hx. unfold in_minute. apply andb_true_iff. split.
  - unfold pruneChannelRateLimitSamples in Hp. rewrite prune_after_filter in Hp by by apply ascending_app_r in Hasc.
    rewrite <- Hp in Hx. apply list_elem_of_In, filter_In in Hx. tauto.
  - apply Z.leb_le, Hnow, elem_of_app. by right.
Qed.

Lemma prune_idem now l : ascending l ->
  pruneChannelRateLimitSamples (pruneChannelRateLimitSamples l now) now = pruneChannelRateLimitSamples l now.
Proof.
  intros Hl. unfold pruneChannelRateLimitSamples. destruct (prune_after_split (now - channelRateLimitWindow) l Hl) as (old & E & _).
  assert (Ha : ascending (prune_after (now - channelRateLimitWindow) l)).
  { rewrite E in Hl. by apply ascending_app_r in Hl. }
  rewrite prune_after_filter by done. apply filter_keeps_all. intros x Hx.
  rewrite prune_after_filter in Hx by done. apply list_elem_of_In, filter_In in Hx. tauto.
Qed.

Definition samples_of (w : World) (id : Z) : list Z :=
  wi_total (default no_window (rt_limiter (w_routing w) !! id)).
(** The invariant of a channel with a request limit. *)
Definition limited (w : World) (id : Z) (g : list Z) : Prop :=
  ascending g /\ (forall x, x ∈ g -> x <= w_now w) /\ window_knows (w_now w) g (samples_of w id) /\
  windows_ok (rl_RequestRPM (conf id)) g.

Lemma limited_later w id g dt : 0 <= dt -> limited w id g -> limited (at_time (w_now w + dt) w) id g.
Proof.
  intros Hdt (Ha & Hx & Hk & Hw). split; [done|]. split; [|split; [|done]].
  - intros x Hin. specialize (Hx x Hin). simpl. lia.
  - destruct Hk as (old & -> & Hold). exists old. split; [done|]. intros x Hin. specialize (Hold x Hin). simpl. lia.
Qed.
Lemma limited_pruned w w' id g : limited w id g -> w_now w' = w_now w ->
  samples_of w' id = pruneChannelRateLimitSamples (samples_of w id) (w_now w) -> limited w' id g.
Proof.
  intros (Ha & Hx & Hk & Hw) Hn Hs. unfold limited. rewrite Hn, Hs. split; [done|]. split; [done|]. split; [|done].
  by apply (window_knows_prune (w_now w)).
Qed.
Lemma limited_same w w' id g : limited w id g -> w_now w' = w_now w -> samples_of w' id = samples_of w id -> limited w' id g.
Proof. unfold limited. intros H -> ->. done. Qed.
Lemma samples_put id id' s w : samples_of (put_window id s w) id' = if decide (id' = id) then wi_total s else samples_of w id'.
Proof.
  unfold samples_of, put_window. simpl. case_decide as E; [by rewrite E, lookup_insert_eq|by rewrite lookup_insert_ne].
Qed.

(** A granted request fits into the limit. *)
Lemma limited_grant w id g : limited w id g -> 0 < rl_RequestRPM (conf id) ->
  let samples := pruneChannelRateLimitSamples (samples_of w id) (w_now w) in
  Z.of_nat (length samples) < rl_RequestRPM (conf id) ->
  forall w', w_now w' = w_now w -> samples_of w' id = samples ++ [w_now w] -> limited w' id (g ++ [w_now w]).
Proof.
  intros (Ha & Hx & Hk & Hw) Hpos samples Hlen w' Hn Hs.
  assert (Hk' : window_knows (w_now w) g samples) by by apply (window_knows_prune (w_now w)).
  assert (Hsa : ascending (samples_of w id)).
  { destruct Hk as (old & -> & _). by apply ascending_app_r in Ha. }
  assert (Hcnt : Z.of_nat (length samples) = within_minute (w_now w) g).
  { apply window_knows_count; try done. by apply prune_idem. }
  split; [by apply ascending_snoc|]. split; [|split].
  - intros x [Hin|Hin]%elem_of_app; rewrite Hn; [by apply Hx|]. apply list_elem_of_singleton in Hin. lia.
  - rewrite Hn, Hs. destruct Hk' as (old & -> & Hold). exists old. by rewrite <- app_assoc.
  - constructor; [done|]. unfold within_minute in *. rewrite List.filter_app, length_app. simpl.
    destruct (in_minute _ _); simpl; lia.
Qed.

Lemma grants_snoc id i t g : grants_of id (g ++ [(i, t)]) = if i =? id then grants_of id g ++ [t] else grants_of id g.
Proof.
  unfold grants_of. rewrite List.filter_app, fmap_app. simpl. destruct (i =? id); simpl; [done|by rewrite app_nil_r].
Qed.

(** The calls of a process without Redis, as pure steps of the window of their channel. *)
Lemma TryAcquire_local i c w : RedisEnabled (w_cfg w) = false ->
  TryAcquireChannelRequest i c w = if (i <=? 0) || negb (rate_limit_enabled c) then (Ok true, w) else localAcquire i c w.
Proof. intros Hr. unfold TryAcquireChannelRequest. destruct (_ || _); [done|]. run_unfold. by rewrite Hr. Qed.
Lemma IsLimited_local i c w : RedisEnabled (w_cfg w) = false ->
  IsChannelRateLimited i c w = if (i <=? 0) || negb (rate_limit_enabled c) then (Ok false, w) else localSaturated i c w.
Proof. intros Hr. unfold IsChannelRateLimited. destruct (_ || _); [done|]. run_unfold. by rewrite Hr. Qed.
Lemma RecordSuccess_local i c w : RedisEnabled (w_cfg w) = false ->
  RecordChannelRequestSuccess i c w
  = if (i <=? 0) || (rl_SuccessfulRPM c <=? 0) then (Ok tt, w) else localRecordSuccess i w.
Proof. intros Hr. unfold RecordChannelRequestSuccess. destruct (_ || _); [done|]. run_unfold. by rewrite Hr. Qed.

Lemma saturated_total c s : saturated c s = false -> 0 < rl_RequestRPM c -> Z.of_nat (length (wi_total s)) < rl_RequestRPM c.
Proof.
  unfold saturated. intros H%orb_false_iff Hp. destruct H as [H _]. rewrite Z.gtb_ltb, (proj2 (Z.ltb_lt _ _) Hp) in H.
  simpl in H. rewrite Z.geb_leb in H. by apply Z.leb_gt in H.
Qed.
Lemma limited_acquire w id i g : RedisEnabled (w_cfg w) = false -> 0 < id -> 0 < rl_RequestRPM (conf id) ->
  limited w id (grants_of id g) ->
  let '(r, w') := TryAcquireChannelRequest i (conf i) w in
  limited w' id (grants_of id (match r with Ok true => g ++ [(i, w_now w)] | _ => g end)) /\ w_cfg w' = w_cfg w.
Proof.
  intros Hr Hid Hpos HL. rewrite TryAcquire_local by done.
  destruct ((i <=? 0) || negb (rate_limit_enabled (conf i))) eqn:Eoff.
  - split; [|done]. rewrite grants_snoc. destruct (Z.eqb_spec i id) as [->|]; [|done]. exfalso.
    apply orb_true_iff in Eoff as [?|Eoff]; bools; [lia|]. unfold rate_limit_enabled in Eoff. bools. lia.
  - unfold localAcquire. set (s := prune_window (w_now w) (default no_window (rt_limiter (w_routing w) !! i))).
    assert (Hs : wi_total s = pruneChannelRateLimitSamples (samples_of w i) (w_now w)) by done.
    destruct (saturated (conf i) s) eqn:Es; (split; [|done]).
    + destruct (decide (id = i)) as [<-|Hne].
      * apply (limited_pruned w); [done|done|]. rewrite samples_put, decide_True by done. done.
      * apply (limited_same w); [done|done|]. by rewrite samples_put, decide_False.
    + rewrite grants_snoc. destruct (Z.eqb_spec i id) as [->|Hne].
      * pose proof (saturated_total _ _ Es Hpos) as Hlt. rewrite Hs in Hlt.
        apply limited_grant; [done|done|done|done|]. rewrite samples_put, decide_True by done. simpl. by rewrite <- Hs.
      * apply (limited_same w); [done|done|]. by rewrite samples_put, decide_False.
Qed.
Lemma run_limiter_limited w g dt call id : RedisEnabled (w_cfg w) = false -> 0 < id -> 0 < rl_RequestRPM (conf id) ->
  0 <= dt -> limited w id (grants_of id g) ->
  let st := run_limiter (w, g) (dt, call) in limited st.1 id (grants_of id st.2) /\ w_cfg st.1 = w_cfg w.
Proof.
  intros Hr Hid Hpos Hdt HL. apply (limited_later _ _ _ _ Hdt) in HL. unfold run_limiter. cbn [fst snd].
  set (w1 := at_time (w_now w + dt) w) in *.
  assert (Hr1 : RedisEnabled (w_cfg w1) = false) by done. destruct call as [i|i|i].
  - pose proof (limited_acquire w1 id i g Hr1 Hid Hpos HL) as HA.
    by destruct (TryAcquireChannelRequest i (conf i) w1) as [r w2].
  - rewrite RecordSuccess_local by done. destruct (_ || _); [done|]. split; [|done].
    apply (limited_same w1); [done|done|]. unfold localRecordSuccess, modify. simpl.
    rewrite samples_put. case_decide as E; [|done]. by rewrite E.
  - rewrite IsLimited_local by done. destruct (_ || _); [done|]. unfold localSaturated.
    destruct (rt_limiter (w_routing w1) !! i) as [s|] eqn:Es; [|done]. split; [|done]. cbn [fst snd].
    destruct (decide (id = i)) as [<-|Hne].
    + apply (limited_pruned w1); [done|done|]. rewrite samples_put, decide_True by done.
      unfold samples_of. by rewrite Es.
    + apply (limited_same w1); [done|done|]. by rewrite samples_put, decide_False.
Qed.
Lemma run_limiters_limited calls w id : RedisEnabled (w_cfg w) = false -> rt_limiter (w_routing w) = ∅ -> 0 < id ->
  0 < rl_RequestRPM (conf id) -> Forall (fun c => 0 <= c.1) calls ->
  let st := run_limiters calls w in limited st.1 id (grants_of id st.2) /\ RedisEnabled (w_cfg st.1) = false.
Proof.
  intros Hr Hl Hid Hpos. induction calls as [|[dt call] calls IH] using rev_ind; intros Hc.
  - split; [|done]. unfold limited, grants_of, samples_of. simpl. rewrite Hl. split; [|split; [|split]].
    + intros l1 x l2 E. by destruct l1.
    + by intros x ?%elem_of_nil.
    + exists []. split; [done|]. by intros x ?%elem_of_nil.
    + constructor.
  - apply Forall_app in Hc as [Hc Hd]. apply Forall_cons in Hd as [Hd _]. destruct (IH Hc) as [HL Hr'].
    unfold run_limiters. rewrite fold_left_app. cbn [fold_left]. fold (run_limiters calls w).
    destruct (run_limiters calls w) as [w1 g]. pose proof (run_limiter_limited w1 g dt call id Hr' Hid Hpos Hd HL) as [HL' Hc'].
    split; [exact HL'|]. by rewrite Hc'.
Qed.

(** Whatever requests, successes and checks of all channels arrive while the clock moves
    on, no minute holds more granted requests of a channel than its limit; and while
    only the request limit is set, a request is refused exactly when its minute is full. *)
Theorem limiter_bounds_minute calls w id : RedisEnabled (w_cfg w) = false -> rt_limiter (w_routing w) = ∅ -> 0 < id ->
  0 < rl_RequestRPM (conf id) -> Forall (fun c => 0 <= c.1) calls ->
  let st := run_limiters calls w in
  (forall t, within_minute t (grants_of id st.2) <= rl_RequestRPM (conf id)) /\
  (rl_SuccessfulRPM (conf id) <= 0 ->
   (TryAcquireChannelRequest id (conf id) st.1).1
   = Ok (within_minute (w_now st.1) (grants_of id st.2) <? rl_RequestRPM (conf id))).
Proof.
  intros Hr Hl Hid Hpos Hc st. destruct (run_limiters_limited calls w id Hr Hl Hid Hpos Hc) as [HL Hr'].
  fold st in HL, Hr'. pose proof HL as (Ha & Hx & Hk & Hw). split.
  - intros t. apply windows_bound; [lia|done|done].
  - intros Hs. rewrite TryAcquire_local by done. rewrite (proj2 (Z.leb_gt _ _) Hid). unfold rate_limit_enabled.
    rewrite Z.gtb_ltb, (proj2 (Z.ltb_lt _ _) Hpos). simpl. unfold localAcquire, saturated. simpl.
    rewrite !Z.gtb_ltb, (proj2 (Z.ltb_lt _ _) Hpos), (proj2 (Z.ltb_ge _ _) Hs). simpl. rewrite orb_false_r.
    fold (samples_of (st.1) id). rewrite (window_knows_count (w_now st.1) (grants_of id st.2)).
    + rewrite Z.geb_leb. destruct (Z.leb_spec (rl_RequestRPM (conf id)) (within_minute (w_now st.1) (grants_of id st.2))), 
        (Z.ltb_spec (within_minute (w_now st.1) (grants_of id st.2)) (rl_RequestRPM (conf id))); try lia; done.
    + done.
    + done.
    + by apply (window_knows_prune (w_now st.1)).
    + apply prune_idem. destruct Hk as (old & E & _). rewrite E in Ha. by apply ascending_app_r in Ha.
Qed.

(** *** Redis *)

Definition in_ms (s : channelRateLimitWindowState) : channelRateLimitWindowState :=
  mkWindow (UnixMilli <$> wi_total s) (UnixMilli <$> wi_success s).
Definition window_of (w : World) (id : Z) : channelRateLimitWindowState :=
  default no_window (rt_limiter (w_routing w) !! id).
Definition timely (now : Z) (l : list Z) : Prop := ascending l /\ forall x, x ∈ l -> x <= now.
(** The process [wl] without Redis and the process [wr] with it know the same. *)
Definition same_windows (wl wr : World) : Prop :=
  RedisEnabled (w_cfg wl) = false /\ RedisEnabled (w_cfg wr) = true /\ w_faults wr = [] /\ w_now wl = w_now wr /\
  forall id, sets_of wr id = in_ms (window_of wl id) /\
    timely (w_now wl) (wi_total (window_of wl id)) /\ timely (w_now wl) (wi_success (window_of wl id)).

Lemma timely_later now now' l : now <= now' -> timely now l -> timely now' l.
Proof. intros Hle [Ha Hx]. split; [done|]. intros x Hin. specialize (Hx x Hin). lia. Qed.
Lemma timely_prune now l : timely now l -> timely now (pruneChannelRateLimitSamples l now).
Proof.
  intros [Ha Hx]. destruct (prune_after_split (now - channelRateLimitWindow) l Ha) as (old & E & _).
  fold (pruneChannelRateLimitSamples l now) in E. rewrite E in Ha, Hx. split; [by apply ascending_app_r in Ha|].
  intros x Hin. apply Hx, elem_of_app. by right.
Qed.
Lemma timely_snoc now l : timely now l -> timely now (l ++ [now]).
Proof.
  intros [Ha Hx]. split; [by apply ascending_snoc|]. intros x [Hin|Hin]%elem_of_app; [by apply Hx|].
  apply list_elem_of_singleton in Hin. lia.
Qed.
Lemma filter_ms cutoff l : List.filter (fun score => UnixMilli cutoff <? score) (UnixMilli <$> l)
  = UnixMilli <$> List.filter (fun t => cutoff <? t) l.
Proof.
  induction l as [|x l IH]; [done|]. rewrite fmap_cons. simpl. rewrite IH.
  assert (E : (UnixMilli cutoff <? UnixMilli x) = (cutoff <? x)).
  { unfold UnixMilli. destruct (Z.ltb_spec (1000 * cutoff) (1000 * x)), (Z.ltb_spec cutoff x); lia || done. }
  rewrite E. by destruct (cutoff <? x).
Qed.
Lemma trim_ms now l : ascending l ->
  zremrangebyscore (UnixMilli (now - channelRateLimitWindow)) (UnixMilli <$> l)
  = UnixMilli <$> pruneChannelRateLimitSamples l now.
Proof. intros Ha. unfold zremrangebyscore, pruneChannelRateLimitSamples. by rewrite filter_ms, prune_after_filter. Qed.
Lemma saturated_ms c s : saturated c (in_ms s) = saturated c s.
Proof. unfold saturated, in_ms. cbn [wi_total wi_success]. by rewrite !length_fmap. Qed.

Lemma window_of_put id s w id' : window_of (put_window id s w) id' = if decide (id' = id) then s else window_of w id'.
Proof.
  unfold window_of, put_window. simpl. case_decide as E; [by rewrite E, lookup_insert_eq|by rewrite lookup_insert_ne].
Qed.
Lemma sets_of_put id s w id' : sets_of (put_sets id s w) id' = if decide (id' = id) then s else sets_of w id'.
Proof.
  unfold sets_of, put_sets. simpl. case_decide as E; [by rewrite E, lookup_insert_eq|by rewrite lookup_insert_ne].
Qed.
(** Both store what belongs together for one channel. *)
Lemma same_windows_put wl wr id s : same_windows wl wr -> timely (w_now wl) (wi_total s) ->
  timely (w_now wl) (wi_success s) -> same_windows (put_window id s wl) (put_sets id (in_ms s) wr).
Proof.
  intros (Hl & Hr & Hf & Hn & Hw) Ht Hs. split; [done|]. split; [done|]. split; [done|]. split; [done|].
  intros id'. rewrite window_of_put, sets_of_put. case_decide; [done|apply Hw].
Qed.
(** Reading a channel leaves what the process that has no Redis keeps of it. *)
Lemma same_windows_read wl wr id s : same_windows wl wr -> window_of wl id = s -> timely (w_now wl) (wi_total s) ->
  timely (w_now wl) (wi_success s) -> same_windows wl (put_sets id (in_ms s) wr).
Proof.
  intros (Hl & Hr & Hf & Hn & Hw) E Ht Hs. split; [done|]. split; [done|]. split; [done|]. split; [done|].
  intros id'. rewrite sets_of_put. case_decide as Ei; [|apply Hw]. by rewrite Ei, E.
Qed.
Lemma trim_sets_ms wl wr id : same_windows wl wr ->
  trim_sets (redis_cutoff wr) (sets_of wr id) = in_ms (prune_window (w_now wl) (window_of wl id)).
Proof.
  intros (_ & _ & _ & Hn & Hw). destruct (Hw id) as (E & [Ha _] & [Hb _]). rewrite E. unfold redis_cutoff, trim_sets, in_ms.
  cbn [wi_total wi_success prune_window]. rewrite <- Hn. by rewrite !trim_ms.
Qed.
Lemma timely_window wl wr id : same_windows wl wr ->
  timely (w_now wl) (wi_total (prune_window (w_now wl) (window_of wl id))) /\
  timely (w_now wl) (wi_success (prune_window (w_now wl) (window_of wl id))).
Proof. intros (_ & _ & _ & _ & Hw). destruct (Hw id) as (_ & Ht & Hs). split; by apply timely_prune. Qed.

Lemma redis_acquire_run wl wr id c : same_windows wl wr ->
  let s := prune_window (w_now wl) (window_of wl id) in
  redisAcquire id c wr
  = if saturated c s then (Ok false, put_sets id (in_ms s) wr)
    else (Ok true, put_sets id (in_ms (s <| wi_total := wi_total s ++ [w_now wl] |>)) wr).
Proof.
  intros HS s. pose proof (trim_sets_ms wl wr id HS) as Ht. pose proof HS as (_ & _ & Hf & Hn & _).
  unfold redisAcquire. rewrite run_bind, ext_call_ok by done. rewrite run_bind. unfold gets at 1. cbv beta iota.
  rewrite Ht, run_bind. unfold gets at 1. cbv beta iota. rewrite saturated_ms. fold s. destruct (saturated c s); [done|].
  rewrite <- Hn, run_bind. unfold modify, in_ms. cbn. by rewrite fmap_app.
Qed.
Lemma redis_saturated_run wl wr id c : same_windows wl wr ->
  let s := prune_window (w_now wl) (window_of wl id) in
  redisSaturated id c wr = (Ok (saturated c s), put_sets id (in_ms s) wr).
Proof.
  intros HS s. pose proof (trim_sets_ms wl wr id HS) as Ht. pose proof HS as (_ & _ & Hf & _).
  unfold redisSaturated. rewrite run_bind, ext_call_ok by done. rewrite run_bind. unfold gets at 1. cbv beta iota.
  rewrite Ht, run_bind. unfold modify. by rewrite saturated_ms.
Qed.
Lemma same_acquire wl wr id c : same_windows wl wr ->
  (localAcquire id c wl).1 = (redisAcquire id c wr).1 /\
  same_windows (localAcquire id c wl).2 (redisAcquire id c wr).2.
Proof.
  intros HS. destruct (timely_window wl wr id HS) as [H1 H2]. rewrite (redis_acquire_run wl) by done.
  unfold localAcquire. fold (window_of wl id). set (s := prune_window _ _) in *.
  destruct (saturated c s); (split; [done|]); apply same_windows_put; try done. by apply timely_snoc.
Qed.
Lemma same_saturated wl wr id c : same_windows wl wr -> rate_limit_enabled c = true ->
  (localSaturated id c wl).1 = (redisSaturated id c wr).1 /\
  same_windows (localSaturated id c wl).2 (redisSaturated id c wr).2.
Proof.
  intros HS Hc. destruct (timely_window wl wr id HS) as [H1 H2]. rewrite (redis_saturated_run wl) by done.
  unfold localSaturated. destruct (rt_limiter (w_routing wl) !! id) as [s|] eqn:E.
  - assert (Ew : window_of wl id = s) by (unfold window_of; by rewrite E). rewrite Ew in *.
    split; [done|]. by apply same_windows_put.
  - assert (Ew : window_of wl id = no_window) by (unfold window_of; by rewrite E). rewrite Ew in *.
    split; [cbn [fst]; f_equal; unfold saturated, rate_limit_enabled in *; simpl; symmetry|].
    + destruct (rl_RequestRPM c) eqn:E1, (rl_SuccessfulRPM c) eqn:E2; done.
    + by apply (same_windows_read wl wr id no_window).
Qed.
Lemma same_success wl wr id : same_windows wl wr ->
  same_windows (localRecordSuccess id wl).2 (redisRecordSuccess id wr).2.
Proof.
  intros HS. pose proof HS as (_ & _ & Hf & Hn & Hw). destruct (Hw id) as (E & [Ha Hx] & [Hb Hy]).
  unfold localRecordSuccess, redisRecordSuccess. rewrite run_bind, ext_call_ok by done. unfold modify. cbn [snd].
  fold (window_of wl id). set (s := window_of wl id) in *. rewrite E. unfold redis_cutoff. rewrite <- Hn.
  assert (Hms : in_ms s <| wi_success := zremrangebyscore (UnixMilli (w_now wl - channelRateLimitWindow)) (wi_success (in_ms s))
      ++ [UnixMilli (w_now wl)] |>
    = in_ms (s <| wi_success := pruneChannelRateLimitSamples (wi_success s) (w_now wl) ++ [w_now wl] |>)).
  { unfold in_ms. cbn -[UnixMilli zremrangebyscore fmap app]. rewrite trim_ms by done. by rewrite fmap_app. }
  rewrite Hms. apply same_windows_put; [done|by split|]. apply timely_snoc. by apply timely_prune.
Qed.

Lemma same_later wl wr dt : 0 <= dt -> same_windows wl wr ->
  same_windows (at_time (w_now wl + dt) wl) (at_time (w_now wr + dt) wr).
Proof.
  intros Hdt (Hl & Hr & Hf & Hn & Hw). split; [done|]. split; [done|]. split; [done|].
  split; [simpl; by rewrite Hn|]. intros id. destruct (Hw id) as (E & Ht & Hs).
  split; [exact E|]. split; (eapply timely_later; [|eassumption]); simpl; lia.
Qed.
(** What a request of the limiter answers, whatever it changes. *)
Lemma TryAcquire_same wl wr id c : same_windows wl wr ->
  (TryAcquireChannelRequest id c wl).1 = (TryAcquireChannelRequest id c wr).1 /\
  same_windows (TryAcquireChannelRequest id c wl).2 (TryAcquireChannelRequest id c wr).2.
Proof.
  intros HS. pose proof HS as (Hl & Hr & _). rewrite TryAcquire_local by done. unfold TryAcquireChannelRequest.
  destruct (_ || _); [done|]. run_unfold. rewrite Hr. by apply same_acquire.
Qed.
Lemma IsLimited_same wl wr id c : same_windows wl wr ->
  (IsChannelRateLimited id c wl).1 = (IsChannelRateLimited id c wr).1 /\
  same_windows (IsChannelRateLimited id c wl).2 (IsChannelRateLimited id c wr).2.
Proof.
  intros HS. pose proof HS as (Hl & Hr & _). rewrite IsLimited_local by done. unfold IsChannelRateLimited.
  destruct (_ || _) eqn:E; [done|]. run_unfold. rewrite Hr. apply same_saturated; [done|].
  apply orb_false_iff in E as [_ E]. by apply negb_false_iff in E.
Qed.
Lemma RecordSuccess_same wl wr id c : same_windows wl wr ->
  same_windows (RecordChannelRequestSuccess id c wl).2 (RecordChannelRequestSuccess id c wr).2.
Proof.
  intros HS. pose proof HS as (Hl & Hr & _). rewrite RecordSuccess_local by done. unfold RecordChannelRequestSuccess.
  destruct (_ || _); [done|]. run_unfold. rewrite Hr. by apply same_success.
Qed.
Lemma run_limiter_same wl wr g c : 0 <= c.1 -> same_windows wl wr ->
  (run_limiter (wl, g) c).2 = (run_limiter (wr, g) c).2 /\
  same_windows (run_limiter (wl, g) c).1 (run_limiter (wr, g) c).1.
Proof.
  intros Hc HS%(same_later _ _ _ Hc). pose proof HS as (_ & _ & _ & Hn & _). destruct c as [dt call].
  unfold run_limiter. cbn [fst snd] in *. destruct call as [id|id|id]; cbn [fst snd].
  - destruct (TryAcquire_same _ _ id (conf id) HS) as [E HS'].
    destruct (TryAcquireChannelRequest _ _ _) as [r1 w1], (TryAcquireChannelRequest _ _ _) as [r2 w2].
    cbn [fst snd] in *. rewrite E, Hn. by destruct r2 as [[]|].
  - split; [done|]. by apply RecordSuccess_same.
  - split; [done|]. by apply IsLimited_same.
Qed.
Lemma run_limiters_same calls wl wr : Forall (fun c => 0 <= c.1) calls -> same_windows wl wr ->
  (run_limiters calls wl).2 = (run_limiters calls wr).2 /\
  same_windows (run_limiters calls wl).1 (run_limiters calls wr).1.
Proof.
  intros Hc HS. induction calls as [|c calls IH] using rev_ind; [done|].
  apply Forall_app in Hc as [Hc Hd]. apply Forall_cons in Hd as [Hd _]. destruct (IH Hc) as [E HS'].
  unfold run_limiters. rewrite !fold_left_app. cbn [fold_left]. fold (run_limiters calls wl) (run_limiters calls wr).
  destruct (run_limiters calls wl) as [w1 g1], (run_limiters calls wr) as [w2 g2]. cbn [fst snd] in *. subst g2.
  by apply run_limiter_same.
Qed.

(** A process that keeps its limits in Redis grants, refuses and reports exactly what one
    that keeps them in its memory does, for every sequence of requests, successes and
    checks of all channels, as long as Redis answers. *)
Theorem redis_limiter_agrees calls wl wr id :
  RedisEnabled (w_cfg wl) = false -> RedisEnabled (w_cfg wr) = true -> w_faults wr = [] -> w_now wl = w_now wr ->
  rt_limiter (w_routing wl) = ∅ -> rt_redis_limiter (w_routing wr) = ∅ -> Forall (fun c => 0 <= c.1) calls ->
  (run_limiters calls wl).2 = (run_limiters calls wr).2 /\
  (IsChannelRateLimited id (conf id) (run_limiters calls wl).1).1
  = (IsChannelRateLimited id (conf id) (run_limiters calls wr).1).1.
Proof.
  intros Hl Hr Hf Hn El Er Hc. assert (HS : same_windows wl wr).
  { split; [done|]. split; [done|]. split; [done|]. split; [done|]. intros i. unfold sets_of, window_of. rewrite El, Er.
    split; [done|]. split; (split; [intros l1 x l2 E; by destruct l1|by intros x ?%elem_of_nil]). }
  destruct (run_limiters_same calls wl wr Hc HS) as [E HS']. split; [done|]. by apply IsLimited_same.
Qed.
End limiter.

Definition sample_limit (channelID : Z) : ChannelRateLimitConfig := mkRateLimit 2 0.
Definition sample_calls : list (Z * limiter_call) :=
  [(0, LAcquire 4); (20, LAcquire 4); (5, LAcquire 4); (0, LAcquire 9); (35, LAcquire 4); (1, LCheck 4); (0, LSuccess 4)].
Definition redis_sample_world : World := sample_world <| w_cfg :=
  mkConfig true false (F64.of_Z 500000) (fun s => "hmac:" +:+ s)%string 28800 false false |>.

Example sample_grants : (run_limiters sample_limit sample_calls sample_world).2
  = [(4, 1700000000); (4, 1700000020); (9, 1700000025); (4, 1700000060)].
Proof. reflexivity. Qed.

Lemma limiter_bounds_minute_witness :
  let st := run_limiters sample_limit sample_calls sample_world in
  (forall t, within_minute t (grants_of 4 st.2) <= 2) /\
  (rl_SuccessfulRPM (sample_limit 4) <= 0 ->
   (TryAcquireChannelRequest 4 (sample_limit 4) st.1).1
   = Ok (within_minute (w_now st.1) (grants_of 4 st.2) <? 2)).
Proof.
  apply (limiter_bounds_minute sample_limit sample_calls sample_world 4); [done|done|lia|done|].
  unfold sample_calls. by repeat constructor.
Defined.
Lemma redis_limiter_agrees_witness :
  (run_limiters sample_limit sample_calls sample_world).2 = (run_limiters sample_limit sample_calls redis_sample_world).2 /\
  (IsChannelRateLimited 4 (sample_limit 4) (run_limiters sample_limit sample_calls sample_world).1).1
  = (IsChannelRateLimited 4 (sample_limit 4) (run_limiters sample_limit sample_calls redis_sample_world).1).1.
Proof.
  apply (redis_limiter_agrees sample_limit sample_calls sample_world redis_sample_world 4); try done.
  unfold sample_calls. by repeat constructor.
Defined.
