(* ===== verification/ChannelSelect.v ===== *)
(** * Choosing a channel for a request (src/service/group.go, channel_select.go,
    src/middleware/distributor.go, SetupContextForSelectedChannel)

    The groups a user may use, the search of the groups of an "auto" token, and what
    a chosen channel leaves in the request's context.  The state is the world, the
    keys of the gin context and the retry parameter of the request. *)

From S2P Require Import Prelude GoStd GoFloat ApiError World ModelUtils AdvancedCustom ChannelModel Ability RatioSetting ChannelCache ChannelHealth.
Import GoStrings.

(** ** Groups of a user *)

Record GroupSettings := mkGroupSettings {
  userUsableGroups : gmap string string;                        (** name to description *)
  GroupSpecialUsableGroup : gmap string (gmap string string);   (** by the group of the user *)
}.

Section groups.
Context (gs : GroupSettings) (rs : RatioSettings).
(** The order in which a map is iterated. *)
Context (range : gmap string string -> list (string * string)).

Definition apply_special (groups : gmap string string) (special : string * string) : gmap string string :=
  if HasPrefix special.1 "-:" then delete (TrimPrefix special.1 "-:") groups
  else if HasPrefix special.1 "+:" then <[TrimPrefix special.1 "+:" := special.2]> groups
  else <[special.1 := special.2]> groups.
Definition GetUserUsableGroups (userGroup : string) : gmap string string :=
  let groups := userUsableGroups gs in
  if decide (userGroup = "") then groups
  else
    let groups := match GroupSpecialUsableGroup gs !! userGroup with
                  | Some specials => fold_left apply_special (range specials) groups
                  | None => groups
                  end in
    match groups !! userGroup with
    | Some _ => groups
    | None => <[userGroup := "用户分组"]> groups
    end.
Definition GroupInUserUsableGroups (userGroup groupName : string) : bool :=
  bool_decide (is_Some (GetUserUsableGroups userGroup !! groupName)).

Definition GetUserGroupRatio (userGroup group : string) : F64.float64 :=
  let '(ratio, ok) := GetGroupGroupRatio rs userGroup group in
  if ok then ratio else GetGroupRatio rs group.

Definition group_less (userGroup a b : string) : bool :=
  let left_ := GetUserGroupRatio userGroup a in
  let right_ := GetUserGroupRatio userGroup b in
  if F64.eqb left_ right_ then String.ltb a b else F64.ltb left_ right_.
Definition GetUserAutoGroup (userGroup : string) : list string :=
  SliceStable (group_less userGroup)
    (List.filter (fun g => negb (bool_decide (g = "auto"))) (fst <$> range (GetUserUsableGroups userGroup))).
End groups.

(** ** The retry parameter *)

Record RetryParam := mkRetryParam {
  rp_TokenGroup : string;
  rp_ModelName : string;
  rp_RequestPath : string;
  rp_Retry : option Z;
  rp_resetNextTry : bool;
}.
#[export] Instance RetryParam_settable : Settable RetryParam :=
  fields_of mkRetryParam < rp_TokenGroup; rp_ModelName; rp_RequestPath; rp_Retry; rp_resetNextTry >.

Definition GetRetry (p : RetryParam) : Z := default 0 (rp_Retry p).
Definition SetRetry (retry : Z) (p : RetryParam) : RetryParam := p <| rp_Retry := Some retry |>.
Definition IncreaseRetry (p : RetryParam) : RetryParam :=
  if rp_resetNextTry p then p <| rp_resetNextTry := false |>
  else p <| rp_Retry := Some (GetRetry p + 1) |>.
Definition ResetRetryNextTry (p : RetryParam) : RetryParam := p <| rp_resetNextTry := true |>.

(** ** The context of a request *)

(** buildRouteReason formats these into one line for the log. *)
Record RouteReason := mkReason {
  re_mode : string;
  re_group : string;
  re_user_ratio : F64.float64;
  re_model_price : option F64.float64;
  re_retry : Z;
}.
(** The gin keys of the search. *)
Record SelectKeys := mkSelectKeys {
  sk_UserGroup : string;
  sk_TokenCrossGroupRetry : bool;
  sk_AutoGroupIndex : option Z;
  sk_AutoGroupRetryIndex : option Z;
  sk_AutoGroup : option string;
  sk_RouteReason : option RouteReason;
}.
#[export] Instance SelectKeys_settable : Settable SelectKeys :=
  fields_of mkSelectKeys < sk_UserGroup; sk_TokenCrossGroupRetry; sk_AutoGroupIndex;
    sk_AutoGroupRetryIndex; sk_AutoGroup; sk_RouteReason >.

(** The gin keys of the chosen channel; [cx_Other] are api_version, region, plugin and
    bot_id.  The decoded settings and the parameter and header overrides are left out. *)
Record ChannelKeys := mkChannelKeys {
  cx_OriginalModel : string;
  cx_Id : Z;
  cx_Name : string;
  cx_Type : Z;
  cx_CreateTime : Z;
  cx_OtherSetting : option ChannelOtherSettings;
  cx_Organization : string;
  cx_AutoBan : bool;
  cx_ModelMapping : string;
  cx_StatusCodeMapping : string;
  cx_IsMultiKey : bool;
  cx_MultiKeyIndex : Z;
  cx_Key : string;
  cx_BaseUrl : string;
  cx_Other : gmap string string;
}.
#[export] Instance ChannelKeys_settable : Settable ChannelKeys :=
  fields_of mkChannelKeys < cx_OriginalModel; cx_Id; cx_Name; cx_Type; cx_CreateTime; cx_OtherSetting;
    cx_Organization; cx_AutoBan; cx_ModelMapping; cx_StatusCodeMapping; cx_IsMultiKey; cx_MultiKeyIndex;
    cx_Key; cx_BaseUrl; cx_Other >.
Definition no_channel_keys : ChannelKeys := mkChannelKeys "" 0 "" 0 0 None "" false "" "" false 0 "" "" ∅.

Record Sel := mkSel {
  sl_w : World;
  sl_keys : SelectKeys;
  sl_param : RetryParam;
  sl_channel : ChannelKeys;
}.
#[export] Instance Sel_settable : Settable Sel := fields_of mkSel < sl_w; sl_keys; sl_param; sl_channel >.

Definition in_world {A} (m : MW A) : M Sel error A := fun st =>
  let '(r, w') := m (sl_w st) in (r, st <| sl_w := w' |>).
Definition set_keys (f : SelectKeys -> SelectKeys) : M Sel error unit :=
  modify (fun st => st <| sl_keys := f (sl_keys st) |>).
Definition set_param (f : RetryParam -> RetryParam) : M Sel error unit :=
  modify (fun st => st <| sl_param := f (sl_param st) |>).

(** ** The search *)

Section select.
Context `{ChannelJson} (compile : string -> option (string -> bool)).
Context (gs : GroupSettings) (rs : RatioSettings) (range : gmap string string -> list (string * string)).
Context (RetryTimes : Z).

Definition buildRouteReason (mode group : string) (retry : Z) (userGroup modelName : string) : RouteReason :=
  let '(modelPrice, configured) := GetModelPrice rs modelName in
  mkReason mode group (GetUserGroupRatio rs userGroup group) (if configured then Some modelPrice else None) retry.

(** The random numbers of the search in the i-th group. *)
Context (Intn : Z -> Z -> Z).

(** [groups] are the groups from index [i] on, and the search began at [start]. *)
Fixpoint auto_loop (start : Z) (groups : list string) (i : Z) : M Sel error (option (positive * string)) :=
  match groups with
  | [] => mret None
  | autoGroup :: groups =>
      keys ← gets sl_keys;
      param ← gets sl_param;
      let priorityRetry := if i >? start then 0 else GetRetry param in
      '(channel, _) ← in_world (GetRandomSatisfiedChannel compile (Intn i) autoGroup (rp_ModelName param)
                                  priorityRetry (rp_RequestPath param));
      match channel with
      | None =>
          set_keys (fun k => k <| sk_AutoGroupIndex := Some (i + 1) |> <| sk_AutoGroupRetryIndex := Some 0 |>) ;;
          set_param (SetRetry 0) ;;
          auto_loop start groups (i + 1)
      | Some l =>
          c ← in_world (deref l);
          cooling ← in_world (IsChannelCoolingDown (cn_Id c));
          if cooling : bool then
            set_param (fun p => SetRetry (GetRetry p + 1) p) ;;
            auto_loop start groups (i + 1)
          else
            set_keys (fun k => k <| sk_AutoGroup := Some autoGroup |>
              <| sk_RouteReason := Some (buildRouteReason "auto" autoGroup (GetRetry param) (sk_UserGroup k)
                                           (rp_ModelName param)) |>) ;;
            (if sk_TokenCrossGroupRetry keys && (priorityRetry >=? RetryTimes) then
               set_keys (fun k => k <| sk_AutoGroupIndex := Some (i + 1) |>) ;;
               set_param (fun p => ResetRetryNextTry (SetRetry 0 p))
             else set_keys (fun k => k <| sk_AutoGroupIndex := Some i |>)) ;;
            mret (Some (l, autoGroup))
      end
  end.

(** The three results of the Go function. *)
Definition CacheGetRandomSatisfiedChannel : M Sel error (option positive * string * option error) :=
  keys ← gets sl_keys;
  param ← gets sl_param;
  if decide (rp_TokenGroup param = "auto") then
    let autoGroups := GetUserAutoGroup gs rs range (sk_UserGroup keys) in
    let start := default 0 (sk_AutoGroupIndex keys) in
    found ← auto_loop start (drop (Z.to_nat start) autoGroups) start;
    mret (match found with
          | Some (l, group) => (Some l, group, None)
          | None => (None, rp_TokenGroup param, None)
          end)
  else
    '(channel, err) ← in_world (GetRandomSatisfiedChannel compile (Intn 0) (rp_TokenGroup param)
                                  (rp_ModelName param) (GetRetry param) (rp_RequestPath param));
    match err, channel with
    | Some e, _ => mret (None, rp_TokenGroup param, Some e)
    | None, None => mret (None, rp_TokenGroup param, None)
    | None, Some l =>
        c ← in_world (deref l);
        cooling ← in_world (IsChannelCoolingDown (cn_Id c));
        if cooling : bool then mret (None, rp_TokenGroup param, None)
        else
          set_keys (fun k => k <| sk_RouteReason := Some (buildRouteReason "explicit" (rp_TokenGroup param)
                                     (GetRetry param) (sk_UserGroup keys) (rp_ModelName param)) |>) ;;
          mret (Some l, rp_TokenGroup param, None)
    end.
End select.

(** ** The chosen channel *)

Definition ChannelTypeAzure : Z := 3.
Definition ChannelTypeAli : Z := 17.
Definition ChannelTypeXunfei : Z := 18.
Definition ChannelTypeGemini : Z := 24.
Definition ChannelCloudflare : Z := 39.
Definition ChannelTypeVertexAi : Z := 41.
Definition ChannelTypeMokaAI : Z := 44.
Definition ChannelTypeCoze : Z := 49.

(** The key under which the column [Other] of a channel is passed on. *)
Definition other_key (channelType : Z) : option string :=
  if bool_decide (channelType ∈ [ChannelTypeAzure; ChannelTypeXunfei; ChannelTypeGemini; ChannelCloudflare; ChannelTypeMokaAI])
  then Some "api_version"
  else if channelType =? ChannelTypeVertexAi then Some "region"
  else if channelType =? ChannelTypeAli then Some "plugin"
  else if channelType =? ChannelTypeCoze then Some "bot_id"
  else None.

Section setup.
Context `{ChannelJson} (ChannelBaseURLs : Z -> string).
Context (Intn : Z -> Z).

(** Settings that do not parse are removed and the object is saved; the decoded
    settings are left out. *)
Definition GetSetting (l : positive) : MW unit :=
  c ← deref l;
  match cn_Setting c with
  | Some s =>
      if decide (s = "") then mret tt
      else match parse_setting_error s with
           | Some _ => assign l (fun c => c <| cn_Setting := None |>) ;; ignore_err (SaveChannel l)
           | None => mret tt
           end
  | None => mret tt
  end.

Definition set_channel (f : ChannelKeys -> ChannelKeys) : M Sel error unit :=
  modify (fun st => st <| sl_channel := f (sl_channel st) |>).
Definition channel_is_nil : NewAPIError :=
  NewError (GPlain (ErrNew "channel is nil")) ErrorCodeGetChannelFailed [ErrOptionWithSkipRetry].

Definition SetupContextForSelectedChannel (channel : option positive) (modelName : string)
    : M Sel error (option NewAPIError) :=
  set_channel (fun k => k <| cx_OriginalModel := modelName |>) ;;
  match channel with
  | None => mret (Some channel_is_nil)
  | Some l =>
      c ← in_world (deref l);
      set_channel (fun k => k <| cx_Id := cn_Id c |> <| cx_Name := cn_Name c |> <| cx_Type := cn_Type c |>
        <| cx_CreateTime := cn_CreatedTime c |>) ;;
      in_world (GetSetting l) ;;
      setting ← in_world (GetOtherSettings l);
      set_channel (fun k => k <| cx_OtherSetting := Some setting |>) ;;
      (match cn_OpenAIOrganization c with
       | Some o => if decide (o = "") then mret tt else set_channel (fun k => k <| cx_Organization := o |>)
       | None => mret tt
       end) ;;
      set_channel (fun k => k <| cx_AutoBan := GetAutoBan c |> <| cx_ModelMapping := GetModelMapping c |>
        <| cx_StatusCodeMapping := GetStatusCodeMapping c |>) ;;
      r ← in_world (GetNextEnabledKey Intn l);
      match r with
      | Err e => mret (Some e)
      | Ok (key, index) =>
          (if ci_IsMultiKey (cn_ChannelInfo c)
           then set_channel (fun k => k <| cx_IsMultiKey := true |> <| cx_MultiKeyIndex := index |>)
           else set_channel (fun k => k <| cx_IsMultiKey := false |>)) ;;
          set_channel (fun k => k <| cx_Key := key |> <| cx_BaseUrl := GetBaseURL ChannelBaseURLs c |>) ;;
          (match other_key (cn_Type c) with
           | Some key => set_channel (fun k => k <| cx_Other := <[key := cn_Other c]> (cx_Other k) |>)
           | None => mret tt
           end) ;;
          mret None
      end
  end.
End setup.
