(* ===== verification/SelectProofs.v ===== *)
(** * Facts about the search for a channel

    The order of the groups of an automatic token, the safety of a chosen channel and
    the progress that the search makes. *)

From Stdlib Require Import SpecFloat.
From stdpp Require Import sorting.
From S2P Require Import Prelude GoStd GoFloat ApiError World Sample ModelUtils SubscriptionTime Subscription AdvancedCustom ChannelModel Ability RatioSetting ChannelCache RoutingProofs ChannelHealth ChannelSelect.
Import GoStrings.

(** ** Sorting by a strict order *)

Section sorting.
Context {A : Type} (less : A -> A -> bool) (P : A -> Prop).
Hypothesis less_total : forall x y, P x -> P y -> x <> y -> less x y = false -> less y x = true.
Hypothesis less_trans : forall x y z, P x -> P y -> P z -> less x y = true -> less y z = true -> less x z = true.

Lemma insert_from_right_sorted x l : Forall P (x :: l) -> x ∉ l ->
  StronglySorted (fun a b => less b a = true) l ->
  StronglySorted (fun a b => less b a = true) (insert_from_right less x l).
Proof.
  intros HP Hn. apply Forall_cons in HP as [Hx HP]. induction 1 as [|y l Hs IH Hy]; simpl; [by repeat constructor|].
  apply Forall_cons in HP as [HPy HP]. apply not_elem_of_cons in Hn as [Hne Hn].
  destruct (less x y) eqn:E; constructor.
  - by apply IH.
  - rewrite insert_from_right_perm. by constructor.
  - by constructor.
  - assert (Hyx : less y x = true) by by apply less_total. constructor; [done|].
    rewrite Forall_forall in Hy, HP |- *. intros z Hz. apply (less_trans z y x); auto.
Qed.
Lemma SliceStable_sorted l : Forall P l -> NoDup l -> StronglySorted (fun a b => less a b = true) (SliceStable less l).
Proof.
  intros HP Hnd. unfold SliceStable.
  assert (H : forall acc, Forall P acc -> NoDup (l ++ acc) -> StronglySorted (fun a b => less b a = true) acc ->
    StronglySorted (fun a b => less b a = true) (fold_left (fun acc x => insert_from_right less x acc) l acc)).
  { clear Hnd. induction l as [|x l IH]; intros acc Hacc Hnd Hs; simpl; [done|].
    apply Forall_cons in HP as [Hx HP]. apply NoDup_cons in Hnd as [Hn Hnd]. apply not_elem_of_app in Hn as [Hn Hna].
    apply IH; [done| | |].
    - rewrite insert_from_right_perm. by constructor.
    - rewrite insert_from_right_perm, <- Permutation_middle. apply NoDup_cons. split; [|done].
      by apply not_elem_of_app.
    - by apply insert_from_right_sorted; [constructor| |]. }
  specialize (H [] ltac:(constructor)). rewrite app_nil_r in H. specialize (H Hnd ltac:(constructor)).
  clear HP Hnd. generalize dependent (fold_left (fun acc x => insert_from_right less x acc) l []). intros k Hk.
  induction Hk as [|x k Hk IH Hx]; simpl; [constructor|].
  apply StronglySorted_app. split; [|split; [done|by repeat constructor]].
  intros y z Hy Hz. apply list_elem_of_singleton in Hz as ->. rewrite Forall_forall in Hx. apply Hx.
  rewrite <- Permutation_rev in Hy. exact Hy.
Qed.
End sorting.

(** ** Comparing float64 *)

Definition key_compare (a b : Z * Z * Z) : comparison :=
  match a.1.1 ?= b.1.1 with
  | Eq => match a.1.2 ?= b.1.2 with Eq => a.2 ?= b.2 | r => r end
  | r => r
  end.
Definition float_key (x : F64.float64) : Z * Z * Z :=
  match x with
  | S754_infinity s => (if s then -2 else 2, 0, 0)
  | S754_finite s m e => if s then (-1, - e, Zneg m) else (1, e, Zpos m)
  | _ => (0, 0, 0)
  end.
Lemma SFcompare_key x y : F64.IsNaN x = false -> F64.IsNaN y = false ->
  SFcompare x y = Some (key_compare (float_key x) (float_key y)).
Proof.
  destruct x as [sx|sx| |sx mx ex], y as [sy|sy| |sy my ey]; try done; intros _ _;
    destruct sx; try done; destruct sy; try done; unfold key_compare; simpl.
  - rewrite Z.compare_opp, (Z.compare_antisym ex ey). by destruct (ex ?= ey).
Qed.

Lemma key_compare_eq a b : key_compare a b = Eq <-> a = b.
Proof.
  destruct a as [[a1 a2] a3], b as [[b1 b2] b3]. unfold key_compare. simpl.
  destruct (Z.compare_spec a1 b1), (Z.compare_spec a2 b2), (Z.compare_spec a3 b3); split; intros; simplify_eq; try done; lia.
Qed.
Lemma key_compare_lt_trans a b c : key_compare a b = Lt -> key_compare b c = Lt -> key_compare a c = Lt.
Proof.
  destruct a as [[a1 a2] a3], b as [[b1 b2] b3], c as [[c1 c2] c3]. unfold key_compare. simpl.
  destruct (Z.compare_spec a1 b1), (Z.compare_spec b1 c1), (Z.compare_spec a1 c1); try done; try lia;
    destruct (Z.compare_spec a2 b2), (Z.compare_spec b2 c2), (Z.compare_spec a2 c2); try done; try lia;
    destruct (Z.compare_spec a3 b3), (Z.compare_spec b3 c3), (Z.compare_spec a3 c3); try done; lia.
Qed.
Lemma key_compare_antisym a b : key_compare b a = CompOpp (key_compare a b).
Proof.
  destruct a as [[a1 a2] a3], b as [[b1 b2] b3]. unfold key_compare. simpl.
  rewrite (Z.compare_antisym a1 b1), (Z.compare_antisym a2 b2), (Z.compare_antisym a3 b3).
  by destruct (a1 ?= b1); simpl; try done; destruct (a2 ?= b2).
Qed.

(** ** The order of the groups *)

Section group_order.
Context (rs : RatioSettings) (userGroup : string).
#[local] Abbreviation ratio := (GetUserGroupRatio rs userGroup).
#[local] Abbreviation less := (group_less rs userGroup).
Definition comparable (g : string) : Prop := F64.IsNaN (ratio g) = false.

Lemma group_less_key a b : comparable a -> comparable b ->
  less a b = match key_compare (float_key (ratio a)) (float_key (ratio b)) with
             | Lt => true
             | Eq => String.ltb a b
             | Gt => false
             end.
Proof.
  intros Ha Hb. unfold group_less, F64.eqb, F64.ltb, SFeqb, SFltb. rewrite SFcompare_key by done.
  by destruct (key_compare _ _).
Qed.
Lemma string_ltb_total a b : a <> b -> String.ltb a b = false -> String.ltb b a = true.
Proof.
  intros Hne. unfold String.ltb. rewrite (String.compare_antisym b a).
  destruct (String.compare a b) eqn:E; try done. by apply String.compare_eq_iff in E.
Qed.
Lemma string_ltb_trans a b c : String.ltb a b = true -> String.ltb b c = true -> String.ltb a c = true.
Proof.
  assert (Hlt : forall x y, String.ltb x y = true <-> String.le x y /\ x <> y).
  { intros x y. unfold String.ltb, String.le, String.leb. destruct (String.compare x y) eqn:E.
    - apply String.compare_eq_iff in E as ->. naive_solver.
    - split; [intros _; split; [done|]|done]. intros ->.
      pose proof (String.compare_antisym y y) as E'. by rewrite E in E'.
    - split; [done|]. by intros [? _]. }
  rewrite !Hlt. intros [H1 N1] [H2 N2]. split; [by etrans|]. intros ->. apply N1. by apply (anti_symm String.le).
Qed.
Lemma group_less_total a b : comparable a -> comparable b -> a <> b -> less a b = false -> less b a = true.
Proof.
  intros Ha Hb Hne. rewrite !group_less_key by done. rewrite (key_compare_antisym (float_key (ratio a))).
  destruct (key_compare _ _); simpl; try done. by apply string_ltb_total.
Qed.
Lemma group_less_trans a b c : comparable a -> comparable b -> comparable c ->
  less a b = true -> less b c = true -> less a c = true.
Proof.
  intros Ha Hb Hc. rewrite !group_less_key by done.
  destruct (key_compare (float_key (ratio a)) (float_key (ratio b))) eqn:E1; [| |done];
    destruct (key_compare (float_key (ratio b)) (float_key (ratio c))) eqn:E2; try done.
  - apply key_compare_eq in E1 as ->. rewrite E2. by apply string_ltb_trans.
  - apply key_compare_eq in E1 as ->. by rewrite E2.
  - apply key_compare_eq in E2 as <-. by rewrite E1.
  - by rewrite (key_compare_lt_trans _ _ _ E1 E2).
Qed.
Lemma group_less_asym a b : comparable a -> comparable b -> less a b = true -> less b a = true -> a = b.
Proof.
  intros Ha Hb. rewrite !group_less_key by done. rewrite (key_compare_antisym (float_key (ratio a))).
  destruct (key_compare _ _); simpl; try done. unfold String.ltb. rewrite (String.compare_antisym b a).
  by destruct (String.compare a b).
Qed.
End group_order.

(** ** Groups *)

Section group_facts.
Context (gs : GroupSettings) (rs : RatioSettings).
Implicit Types range : gmap string string -> list (string * string).
(** A map is iterated in some order. *)
Definition iterates range : Prop := forall m, range m ≡ₚ map_to_list m.

(** The group that a special setting adds or removes. *)
Definition special_target (special : string * string) : string :=
  if HasPrefix special.1 "-:" then TrimPrefix special.1 "-:"
  else if HasPrefix special.1 "+:" then TrimPrefix special.1 "+:"
  else special.1.
Lemma apply_special_comm groups a b : special_target a <> special_target b ->
  apply_special (apply_special groups a) b = apply_special (apply_special groups b) a.
Proof.
  unfold apply_special, special_target. intros Hne.
  repeat case_match; first [by apply delete_delete | by rewrite delete_insert_ne by congruence
    | by rewrite delete_insert_ne by congruence | by apply insert_insert_ne].
Qed.
Lemma specials_perm groups l k : NoDup (special_target <$> l) -> l ≡ₚ k ->
  fold_left apply_special l groups = fold_left apply_special k groups.
Proof.
  intros Hnd Hp. revert groups Hnd.
  induction Hp as [|x l k Hp IH|x y l|l k m Hp1 IH1 Hp2 IH2]; intros groups Hnd; simpl.
  - done.
  - rewrite fmap_cons in Hnd. apply NoDup_cons in Hnd as [_ Hnd]. by apply IH.
  - rewrite !fmap_cons in Hnd. apply NoDup_cons in Hnd as [Hn _]. f_equal. apply apply_special_comm.
    intros E. apply Hn. rewrite E. by left.
  - rewrite IH1 by done. apply IH2. by rewrite <- Hp1.
Qed.
(** The special settings of the group name every group once. *)
Definition specials_agree (userGroup : string) : Prop :=
  forall specials, GroupSpecialUsableGroup gs !! userGroup = Some specials ->
    NoDup (special_target <$> map_to_list specials).
Lemma usable_groups_range range1 range2 userGroup : iterates range1 -> iterates range2 -> specials_agree userGroup ->
  GetUserUsableGroups gs range1 userGroup = GetUserUsableGroups gs range2 userGroup.
Proof.
  unfold iterates. intros H1 H2 Hs. unfold GetUserUsableGroups. destruct (decide _); [done|].
  destruct (GroupSpecialUsableGroup gs !! userGroup) as [specials|] eqn:E; [|done].
  rewrite (specials_perm _ (range1 specials) (range2 specials)); [done| |by rewrite H1, H2].
  rewrite H1. by apply Hs.
Qed.

Lemma auto_groups_perm range userGroup : iterates range ->
  GetUserAutoGroup gs rs range userGroup
  ≡ₚ List.filter (fun g => negb (bool_decide (g = "auto"))) (map_to_list (GetUserUsableGroups gs range userGroup)).*1.
Proof.
  unfold iterates. intros Hr. unfold GetUserAutoGroup. rewrite SliceStable_perm.
  assert (Hp : forall (f : string -> bool) l k, l ≡ₚ k -> List.filter f l ≡ₚ List.filter f k).
  { intros f l k. induction 1; simpl; repeat case_match; try done; [by constructor|by apply Permutation_swap|by etrans]. }
  apply Hp. by rewrite Hr.
Qed.
Lemma auto_groups_elem range userGroup g : iterates range ->
  g ∈ GetUserAutoGroup gs rs range userGroup <-> g <> "auto" /\ is_Some (GetUserUsableGroups gs range userGroup !! g).
Proof.
  intros Hr. rewrite auto_groups_perm by done. rewrite list_elem_of_In, filter_In, <- list_elem_of_In.
  rewrite negb_true_iff, bool_decide_eq_false, list_elem_of_fmap. split.
  - intros [([k d] & -> & Hin) Hne]. apply elem_of_map_to_list in Hin. simpl in *. rewrite Hin. eauto.
  - intros [Hne [d Hd]]. split; [|done]. exists (g, d). split; [done|]. by apply elem_of_map_to_list.
Qed.
Lemma auto_groups_nodup range userGroup : iterates range -> NoDup (GetUserAutoGroup gs rs range userGroup).
Proof.
  intros Hr. rewrite auto_groups_perm by done. apply NoDup_ListNoDup, List.NoDup_filter, NoDup_ListNoDup, NoDup_fst_map_to_list.
Qed.
Lemma auto_groups_sorted range userGroup : iterates range ->
  (forall g, comparable rs userGroup g) ->
  StronglySorted (fun a b => group_less rs userGroup a b = true) (GetUserAutoGroup gs rs range userGroup).
Proof.
  intros Hr Hc. unfold GetUserAutoGroup. apply (SliceStable_sorted _ (comparable rs userGroup)).
  - intros x y. apply group_less_total.
  - intros x y z. apply group_less_trans.
  - apply Forall_forall. intros; apply Hc.
  - pose proof (auto_groups_nodup range userGroup Hr) as H. unfold GetUserAutoGroup in H. by rewrite SliceStable_perm in H.
Qed.

(** An automatic token tries the groups its user may use, each once and cheapest first
    (by the ratio the user pays, then by name), whatever the order in which the maps of the
    settings are iterated. *)
Theorem auto_groups_cheapest_first range1 range2 userGroup :
  iterates range1 -> iterates range2 -> specials_agree userGroup -> (forall g, comparable rs userGroup g) ->
  GetUserAutoGroup gs rs range1 userGroup = GetUserAutoGroup gs rs range2 userGroup /\
  StronglySorted (fun a b => group_less rs userGroup a b = true) (GetUserAutoGroup gs rs range1 userGroup) /\
  (forall g, g ∈ GetUserAutoGroup gs rs range1 userGroup <->
             g <> "auto" /\ GroupInUserUsableGroups gs range1 userGroup g = true) /\
  (userGroup <> "" -> userGroup <> "auto" -> userGroup ∈ GetUserAutoGroup gs rs range1 userGroup).
Proof.
  intros H1 H2 Hs Hc. split; [|split; [by apply auto_groups_sorted|split]].
  - apply (StronglySorted_unique_strong (fun a b => group_less rs userGroup a b = true)).
    + intros x y _ _. by apply group_less_asym.
    + by apply auto_groups_sorted.
    + by apply auto_groups_sorted.
    + rewrite !auto_groups_perm by done. by rewrite (usable_groups_range range1 range2).
  - intros g. rewrite auto_groups_elem by done. unfold GroupInUserUsableGroups. by rewrite bool_decide_eq_true.
  - intros Hne Ha. apply auto_groups_elem; [done|]. split; [done|]. unfold GetUserUsableGroups.
    rewrite decide_False by done. case_match eqn:E; [by rewrite E; eexists|rewrite lookup_insert_eq; eauto].
Qed.
End group_facts.

(** ** One search *)

Section search.
Context `{ChannelJson} (compile : string -> option (string -> bool)).
Context (gs : GroupSettings) (rs : RatioSettings) (range : gmap string string -> list (string * string)).
Context (RetryTimes : Z) (Intn : Z -> Z -> Z).
#[local] Abbreviation auto_loop := (auto_loop compile rs RetryTimes Intn).
#[local] Abbreviation search := (CacheGetRandomSatisfiedChannel compile gs rs range RetryTimes Intn).

(** What a search does not change. *)
Definition same_request (st st' : Sel) : Prop :=
  sk_UserGroup (sl_keys st') = sk_UserGroup (sl_keys st) /\
  sk_TokenCrossGroupRetry (sl_keys st') = sk_TokenCrossGroupRetry (sl_keys st) /\
  rp_TokenGroup (sl_param st') = rp_TokenGroup (sl_param st) /\
  rp_ModelName (sl_param st') = rp_ModelName (sl_param st) /\
  rp_RequestPath (sl_param st') = rp_RequestPath (sl_param st) /\
  sl_channel st' = sl_channel st.
Lemma same_request_trans st1 st2 st3 : same_request st1 st2 -> same_request st2 st3 -> same_request st1 st3.
Proof. unfold same_request. intuition congruence. Qed.

Lemma in_world_inv {A} (m : MW A) st a st' : in_world m st = (Ok a, st') ->
  exists w', m (sl_w st) = (Ok a, w') /\ st' = st <| sl_w := w' |>.
Proof. unfold in_world. destruct (m (sl_w st)) as [r w']. intros [= -> <-]. eauto. Qed.

Lemma in_world_pure {A} (m : MW A) st a : m (sl_w st) = (Ok a, sl_w st) -> in_world m st = (Ok a, st).
Proof. unfold in_world. intros ->. by destruct st. Qed.

Definition rests (w : World) (l : positive) : bool := cooling w (cn_Id (object w l)).

(** Where the next search begins: at the group of this one, or after it when its
    retries are used up. *)
Definition continues (st st' : Sel) (j : Z) : Prop :=
  (sk_AutoGroupIndex (sl_keys st') = Some j /\ rp_resetNextTry (sl_param st') = rp_resetNextTry (sl_param st)) \/
  (sk_AutoGroupIndex (sl_keys st') = Some (j + 1) /\ GetRetry (sl_param st') = 0 /\
   rp_resetNextTry (sl_param st') = true).

Lemma auto_loop_spec start groups i st r st' :
  auto_loop start groups i st = (Ok r, st') -> start <= i -> 0 <= GetRetry (sl_param st) ->
  same_request st st' /\ 0 <= GetRetry (sl_param st') /\
  match r with
  | None => True
  | Some (l, g) => exists j, i <= j /\ groups !! Z.to_nat (j - i) = Some g /\
      sk_AutoGroup (sl_keys st') = Some g /\ rests (sl_w st') l = false /\ continues st st' j /\
      (j = start -> GetRetry (sl_param st') = GetRetry (sl_param st) \/ rp_resetNextTry (sl_param st') = true)
  end.
Proof.
  revert i st. induction groups as [|g groups IH]; intros i st Hrun Hi Hretry.
  { by apply run_ret_inv in Hrun as [-> ->]. }
  cbn [auto_loop ChannelSelect.auto_loop] in Hrun.
  apply run_bind_inv in Hrun as (keys & s1 & [-> ->]%gets_inv & Hrun).
  apply run_bind_inv in Hrun as (param & s1 & [-> ->]%gets_inv & Hrun).
  apply run_bind_inv in Hrun as ([channel err] & s1 & (w1 & _ & ->)%in_world_inv & Hrun).
  (** the recursion from a state with another retry number *)
  assert (Hnext : forall st1, same_request st st1 -> 0 <= GetRetry (sl_param st1) ->
    rp_resetNextTry (sl_param st1) = rp_resetNextTry (sl_param st) ->
    auto_loop start groups (i + 1) st1 = (Ok r, st') ->
    same_request st st' /\ 0 <= GetRetry (sl_param st') /\
    match r with
    | None => True
    | Some (l, g') => exists j, i <= j /\ (g :: groups) !! Z.to_nat (j - i) = Some g' /\
        sk_AutoGroup (sl_keys st') = Some g' /\ rests (sl_w st') l = false /\ continues st st' j /\
        (j = start -> GetRetry (sl_param st') = GetRetry (sl_param st) \/ rp_resetNextTry (sl_param st') = true)
    end).
  { intros st1 Hs H0 Hreset H1. destruct (IH (i + 1) st1 H1 ltac:(lia) H0) as (Hs' & H0' & Hr).
    split; [by eapply same_request_trans|]. split; [done|]. destruct r as [[l g']|]; [|done].
    destruct Hr as (j & Hj & Hg & Ha & Hc & Hcont & _). exists j. split; [lia|].
    replace (Z.to_nat (j - i)) with (S (Z.to_nat (j - (i + 1)))) by lia. split; [done|]. split; [done|]. split; [done|].
    split; [|lia]. unfold continues in *. by rewrite Hreset in Hcont. }
  destruct channel as [l|].
  - apply run_bind_inv in Hrun as (c & s1 & (w2 & [-> ->]%gets_inv & ->)%in_world_inv & Hrun).
    apply run_bind_inv in Hrun as (cool & s1 & (w2 & [Hcool ->]%gets_inv & ->)%in_world_inv & Hrun).
    destruct cool; [apply run_bind_inv in Hrun as (u & s1 & [= _ <-] & Hrun)|].
    + eapply Hnext; [..|exact Hrun]; [by repeat split| |done]. unfold GetRetry in *. simpl in *. lia.
    + apply run_bind_inv in Hrun as (u & s1 & [= _ <-] & Hrun).
      apply run_bind_inv in Hrun as (u' & s1 & Hset & Hrun). apply run_ret_inv in Hrun as [-> ->].
      destruct (sk_TokenCrossGroupRetry _ && _).
      * apply run_bind_inv in Hset as (u1 & s2 & [= _ <-] & [= _ <-]).
        split; [by repeat split|]. split; [done|]. exists i. replace (i - i) with 0 by lia.
        repeat (split; [done || lia|]). split; [by right|]. intros _. by right.
      * injection Hset as _ <-. split; [by repeat split|]. split; [done|]. exists i. replace (i - i) with 0 by lia.
        repeat (split; [done || lia|]). split; [by left|]. intros _. by left.
  - apply run_bind_inv in Hrun as (u & s1 & [= _ <-] & Hrun).
    apply run_bind_inv in Hrun as (u' & s1 & [= _ <-] & Hrun).
    eapply Hnext; [..|exact Hrun]; [by repeat split|done|done].
Qed.

Definition auto_groups (st : Sel) : list string := GetUserAutoGroup gs rs range (sk_UserGroup (sl_keys st)).
Definition start_index (st : Sel) : Z := default 0 (sk_AutoGroupIndex (sl_keys st)).
Lemma search_spec st c g e st' : search st = (Ok (c, g, e), st') -> 0 <= start_index st -> 0 <= GetRetry (sl_param st) ->
  same_request st st' /\ 0 <= GetRetry (sl_param st') /\
  match c with
  | None => True
  | Some l => e = None /\ rests (sl_w st') l = false /\
      if decide (rp_TokenGroup (sl_param st) = "auto") then
        g ∈ auto_groups st /\ sk_AutoGroup (sl_keys st') = Some g /\
        exists j, start_index st <= j < Z.of_nat (length (auto_groups st)) /\ continues st st' j /\
          (j = start_index st -> GetRetry (sl_param st') = GetRetry (sl_param st) \/ rp_resetNextTry (sl_param st') = true)
      else g = rp_TokenGroup (sl_param st) /\ sl_param st' = sl_param st /\ start_index st' = start_index st
  end.
Proof.
  intros Hrun Hstart Hretry. unfold CacheGetRandomSatisfiedChannel in Hrun.
  apply run_bind_inv in Hrun as (keys & s1 & [-> ->]%gets_inv & Hrun).
  apply run_bind_inv in Hrun as (param & s1 & [-> ->]%gets_inv & Hrun).
  destruct (decide (rp_TokenGroup (sl_param st) = "auto")) as [Ha|Ha].
  - apply run_bind_inv in Hrun as (found & s1 & Hloop & [E ->]%run_ret_inv).
    fold (start_index st) (auto_groups st) in Hloop. apply auto_loop_spec in Hloop as (Hs & H0 & Hr); [|lia|done].
    destruct found as [[l g']|]; simplify_eq; (split; [done|]); (split; [done|]); [|done].
    destruct Hr as (j & Hj & Hg & Hk & Hc & Hcont & Hsame). split; [done|]. split; [done|]. split.
    + apply list_elem_of_lookup_2 in Hg. by apply (subseteq_drop (Z.to_nat (start_index st))).
    + split; [done|]. exists j. split; [|done]. apply lookup_lt_Some in Hg. rewrite length_drop in Hg. lia.
  - apply run_bind_inv in Hrun as ([channel err] & s1 & (w1 & _ & ->)%in_world_inv & Hrun).
    destruct err as [err|]; [apply run_ret_inv in Hrun as [E ->]; by simplify_eq|].
    destruct channel as [l|]; [|apply run_ret_inv in Hrun as [E ->]; by simplify_eq].
    apply run_bind_inv in Hrun as (c' & s1 & (w2 & [-> ->]%gets_inv & ->)%in_world_inv & Hrun).
    apply run_bind_inv in Hrun as (cool & s1 & (w2 & [Hcool ->]%gets_inv & ->)%in_world_inv & Hrun).
    destruct cool; [apply run_ret_inv in Hrun as [E ->]; by simplify_eq|].
    apply run_bind_inv in Hrun as (u & s1 & [= _ <-] & [E ->]%run_ret_inv). by simplify_eq.
Qed.

(** *** With the memory cache *)

(** The cached choice in the i-th group of the search that starts at [start] with the
    retry number [retry]. *)
Definition tried (st : Sel) (start retry i : Z) (g : string) : option positive * option error :=
  pick_cached compile (Intn i) (sl_w st) g (rp_ModelName (sl_param st)) (if i >? start then 0 else retry)
    (rp_RequestPath (sl_param st)).
(** It gives no channel, or one that rests. *)
Definition in_vain (st : Sel) (start retry i : Z) (g : string) : Prop :=
  match tried st start retry i g with (Some l, _) => rests (sl_w st) l = true | (None, _) => True end.

Lemma auto_loop_cached start retry groups i st : MemoryCacheEnabled (w_cfg (sl_w st)) = true ->
  start <= i -> (i = start -> GetRetry (sl_param st) = retry) ->
  exists r st', auto_loop start groups i st = (Ok r, st') /\ sl_w st' = sl_w st /\
  match r with
  | None => forall k g, groups !! k = Some g -> in_vain st start retry (i + Z.of_nat k) g
  | Some (l, g) => exists k, groups !! k = Some g /\ (tried st start retry (i + Z.of_nat k) g).1 = Some l /\
      rests (sl_w st) l = false /\ forall k' g', (k' < k)%nat -> groups !! k' = Some g' -> in_vain st start retry (i + Z.of_nat k') g'
  end.
Proof.
  intros Hm. revert i st Hm. induction groups as [|g groups IH]; intros i st Hm Hi Hretry.
  { exists None, st. repeat split. intros k g. by rewrite lookup_nil. }
  cbn [auto_loop ChannelSelect.auto_loop]. rewrite !run_bind. unfold gets at 1. rewrite run_bind. unfold gets at 1.
  assert (Hpick : GetRandomSatisfiedChannel compile (Intn i) g (rp_ModelName (sl_param st))
      (if i >? start then 0 else GetRetry (sl_param st)) (rp_RequestPath (sl_param st)) (sl_w st)
    = (Ok (tried st start retry i g), sl_w st)).
  { unfold GetRandomSatisfiedChannel. rewrite run_bind. unfold gets at 1. rewrite Hm. unfold gets, tried.
    destruct (Z.gtb_spec i start) as [|Hle]; [done|]. by rewrite Hretry by lia. }
  rewrite run_bind, (in_world_pure _ _ _ Hpick).
  assert (Hnext : in_vain st start retry i g -> forall st1, sl_w st1 = sl_w st ->
    rp_ModelName (sl_param st1) = rp_ModelName (sl_param st) ->
    rp_RequestPath (sl_param st1) = rp_RequestPath (sl_param st) ->
    exists r st', auto_loop start groups (i + 1) st1 = (Ok r, st') /\ sl_w st' = sl_w st /\
    match r with
    | None => forall k g', (g :: groups) !! k = Some g' -> in_vain st start retry (i + Z.of_nat k) g'
    | Some (l, g') => exists k, (g :: groups) !! k = Some g' /\ (tried st start retry (i + Z.of_nat k) g').1 = Some l /\
        rests (sl_w st) l = false /\ forall k' g'', (k' < k)%nat -> (g :: groups) !! k' = Some g'' -> in_vain st start retry (i + Z.of_nat k') g''
    end).
  { intros Hv st1 Hw Hmod Hpath. destruct (IH (i + 1) st1 ltac:(by rewrite Hw) ltac:(lia) ltac:(intros; exfalso; lia))
      as (r & st' & Hrun & Hw' & Hr). exists r, st'. split; [done|]. split; [congruence|].
    assert (Et : forall k g', tried st1 start retry (i + 1 + Z.of_nat k) g' = tried st start retry (i + Z.of_nat (S k)) g').
    { intros k g'. unfold tried. rewrite Hw, Hmod, Hpath. by replace (i + 1 + Z.of_nat k) with (i + Z.of_nat (S k)) by lia. }
    assert (Ev : forall k g', in_vain st1 start retry (i + 1 + Z.of_nat k) g' -> in_vain st start retry (i + Z.of_nat (S k)) g').
    { intros k g'. unfold in_vain. by rewrite Et, Hw. }
    assert (E0 : i + Z.of_nat 0 = i) by lia.
    destruct r as [[l g']|].
    - destruct Hr as (k & Hg & Ht & Hrest & Hb). exists (S k). split; [done|]. rewrite <- Et. split; [done|].
      split; [by rewrite <- Hw|].
      intros [|k'] g'' Hlt Hg'; simpl in Hg'; [by simplify_eq; rewrite E0|]. apply Ev, (Hb k'); [lia|done].
    - intros [|k] g' Hg; simpl in Hg; [by simplify_eq; rewrite E0|]. by apply Ev, Hr. }
  unfold in_vain in Hnext. destruct (tried st start retry i g) as [[l|] err] eqn:Et.
  - rewrite run_bind, (in_world_pure (deref l) st (object (sl_w st) l)) by done.
    rewrite run_bind, (in_world_pure _ st (rests (sl_w st) l)) by done.
    destruct (rests (sl_w st) l) eqn:Er.
    + rewrite run_bind. by apply Hnext.
    + rewrite run_bind. cbn [set_keys modify]. rewrite run_bind.
      destruct (_ && _); eexists (Some (l, g)), _; (split; [reflexivity|]); (split; [done|]);
        exists 0%nat; (split; [done|]); replace (i + Z.of_nat 0) with i by lia; rewrite Et; split; try split; try done; intros; lia.
  - rewrite run_bind. by apply Hnext.
Qed.

End search.
