(* ===== verification/Distributor.v ===== *)
(** * The channel of a request (src/middleware/distributor.go,
    src/model/channel_satisfy.go, src/common/model.go)

    [Distribute] runs before the relay handler: it checks the limits of the token and
    leaves a channel in the context.  The parsing of the request is an argument, as
    is the channel that the affinity cache prefers. *)

From S2P Require Import Prelude GoStd GoFloat ApiError World ModelUtils AdvancedCustom ChannelModel Ability RatioSetting ChannelCache ChannelHealth ChannelSelect SelectProofs.
Import GoStrings GoText.

(** ** Kinds of models *)

Definition OpenAIResponseOnlyModels : list string := ["o3-pro"; "o3-deep-research"; "o4-mini-deep-research"].
Definition ImageGenerationModels : list string :=
  ["dall-e-3"; "dall-e-2"; "gpt-image-1"; "prefix:imagen-"; "flux-"; "flux.1-"].
Definition OpenAITextModels : list string := ["gpt-"; "o1"; "o3"; "o4"; "chatgpt"].
Definition IsOpenAIResponseOnlyModel (modelName : string) : bool :=
  existsb (Contains modelName) OpenAIResponseOnlyModels.
Definition IsImageGenerationModel (modelName : string) : bool :=
  let modelName := lower_ascii modelName in
  existsb (fun m => Contains modelName m || (HasPrefix m "prefix:" && HasPrefix modelName (TrimPrefix m "prefix:")))
    ImageGenerationModels.
Definition IsOpenAITextModel (modelName : string) : bool :=
  existsb (Contains (lower_ascii modelName)) OpenAITextModels.

(** ** Whether a channel serves a group and model *)

Definition isChannelIDInList (ids : list Z) (channelID : Z) : bool := existsb (fun id => id =? channelID) ids.
Definition has_ability (group modelName : string) (channelID : Z) (d : DB) : bool :=
  match d_abilities d !! (group, modelName, channelID) with Some a => ab_Enabled a | None => false end.
(** COUNT of the matching rows; a failing query counts as none. *)
Definition isChannelEnabledForGroupModelDB (group modelName : string) (channelID : Z) : MW bool :=
  hit ← attempt (db_find HDB (has_ability group modelName channelID));
  match hit with
  | Ok true => mret true
  | _ =>
      let normalized := FormatMatchingModelName modelName in
      if bool_decide (normalized = "") || bool_decide (normalized = modelName) then mret false
      else hit ← attempt (db_find HDB (has_ability group normalized channelID));
           mret (match hit with Ok b => b | Err _ => false end)
  end.
Definition IsChannelEnabledForGroupModel (group modelName : string) (channelID : Z) : MW bool :=
  if bool_decide (group = "") || bool_decide (modelName = "") || (channelID <=? 0) then mret false
  else
    cache ← gets (fun w => MemoryCacheEnabled (w_cfg w));
    if negb cache then isChannelEnabledForGroupModelDB group modelName channelID
    else gets (fun w =>
      if isChannelIDInList (lookup_models w group modelName) channelID then true
      else
        let normalized := FormatMatchingModelName modelName in
        if bool_decide (normalized = "") || bool_decide (normalized = modelName) then false
        else isChannelIDInList (lookup_models w group normalized) channelID).
(** The first of the groups, and whether there is one. *)
Fixpoint first_enabled_group (groups : list string) (modelName : string) (channelID : Z) : MW (option string) :=
  match groups with
  | [] => mret None
  | g :: groups =>
      enabled ← IsChannelEnabledForGroupModel g modelName channelID;
      if enabled : bool then mret (Some g) else first_enabled_group groups modelName channelID
  end.
Definition IsChannelEnabledForAnyGroupModel (groups : list string) (modelName : string) (channelID : Z) : MW bool :=
  r ← first_enabled_group groups modelName channelID;
  mret (bool_decide (is_Some r)).

(** ** The model in a Gemini path *)

(** What follows the first occurrence, if any (strings.Index). *)
Fixpoint after (sub s : string) : option string :=
  match drop_prefix sub s with
  | Some rest => Some rest
  | None => match s with EmptyString => None | String _ s => after sub s end
  end.
Fixpoint before_colon (s : string) : string :=
  match s with
  | EmptyString => EmptyString
  | String a s => if decide (a = Ascii.ascii_of_nat 58) then EmptyString else String a (before_colon s)
  end.
Definition extractModelNameFromGeminiPath (path : string) : string :=
  match after "/models/" path with
  | None => ""
  | Some rest => before_colon rest
  end.
Example gemini_path : extractModelNameFromGeminiPath "/v1beta/models/gemini-2.0-flash:generateContent" = "gemini-2.0-flash".
Proof. by vm_compute. Qed.

(** ** Distribute *)

(** The request as the handler sees it: the channel that the token pins ([Some None]:
    not a text), the model of the request and whether it needs a channel, the model
    limits of the token, the group in the body of a playground request, the channel of
    the affinity cache. *)
Record DistributeRequest := mkDistribute {
  dq_SpecificChannelId : option (option string);
  dq_modelRequest : result error (string * bool);
  dq_ModelLimitEnabled : bool;
  dq_ModelLimit : option (gmap string bool);
  dq_UsingGroup : string;
  dq_Path : string;
  dq_PlaygroundGroup : result error string;
  dq_PreferredChannel : option Z;
}.
(** The answer: an error with its status and the key of its message, or the request goes
    on with a channel (none when it needs none) for the using group. *)
Definition refusal : Type := Z * string.
Inductive distribute_outcome :=
| DAbort (e : refusal)
| DNext (channel : option positive) (usingGroup : string).

Section distribute.
Context `{ChannelJson} (compile : string -> option (string -> bool)) (ChannelBaseURLs : Z -> string).
Context (gs : GroupSettings) (rs : RatioSettings) (range : gmap string string -> list (string * string)).
Context (RetryTimes : Z) (Intn : Z -> Z -> Z) (keyIntn : Z -> Z).

Definition channelSupportsRequestPath (l : positive) (requestPath requestModel : string) : MW bool :=
  c ← deref l;
  if negb (cn_Type c =? ChannelTypeAdvancedCustom) then mret true
  else
    setting ← GetOtherSettings l;
    mret (match os_AdvancedCustom setting with
          | Some config => SupportsPathForModel compile (Some config) requestPath requestModel
          | None => false
          end).

(** Errors are [inl]. *)
Definition pinned_channel (channelIDText : option string) : MW (refusal + positive) :=
  let invalid := mret (inl (StatusBadRequest, "distributor.invalid_channel_id")) in
  match channelIDText with
  | None => invalid
  | Some text =>
      if decide (TrimSpace text = "") then invalid
      else match Atoi text with
      | None => invalid
      | Some id =>
          r ← attempt (GetChannelById id true);
          match r with
          | Err _ => invalid
          | Ok l =>
              c ← deref l;
              mret (if negb (cn_Status c =? ChannelStatusEnabled)
                    then inl (StatusForbidden, "distributor.channel_disabled") else inr l)
          end
      end
  end.
Definition check_model_limit (dq : DistributeRequest) (model : string) : option refusal :=
  if negb (dq_ModelLimitEnabled dq) then None
  else match dq_ModelLimit dq with
       | None => Some (StatusForbidden, "distributor.token_no_model_access")
       | Some limit => match limit !! FormatMatchingModelName model with
                       | Some _ => None
                       | None => Some (StatusForbidden, "distributor.token_model_forbidden")
                       end
       end.
Definition request_group (dq : DistributeRequest) (userGroup model : string) : refusal + string :=
  let usingGroup := dq_UsingGroup dq in
  let usingGroup :=
    if IsImageGenerationModel model && bool_decide (usingGroup = "default")
       && GroupInUserUsableGroups gs range userGroup "gpt" then "gpt" else usingGroup in
  if HasPrefix (dq_Path dq) "/pg/chat/completions" then
    match dq_PlaygroundGroup dq with
    | Err _ => inl (StatusBadRequest, "distributor.invalid_playground_request")
    | Ok group =>
        if decide (group = "") then inr usingGroup
        else if negb (GroupInUserUsableGroups gs range usingGroup group) && negb (bool_decide (group = usingGroup))
        then inl (StatusForbidden, "distributor.group_access_denied")
        else inr group
    end
  else inr usingGroup.

(** The channel of the affinity cache, when it is usable; for an automatic token with
    its group.  Marking and clearing the cache are left out. *)
Definition preferred_channel (dq : DistributeRequest) (userGroup usingGroup model : string)
    : MW (option (positive * option string)) :=
  match dq_PreferredChannel dq with
  | None => mret None
  | Some id =>
      r ← attempt (CacheGetChannel id);
      match r with
      | Err _ => mret None
      | Ok l =>
          c ← deref l;
          supported ← (if cn_Status c =? ChannelStatusEnabled
                       then channelSupportsRequestPath l (dq_Path dq) model else mret false);
          if negb supported then mret None
          else if decide (usingGroup = "auto") then
            g ← first_enabled_group (GetUserAutoGroup gs rs range userGroup) model (cn_Id c);
            mret ((fun g => (l, Some g)) <$> g)
          else
            enabled ← IsChannelEnabledForGroupModel usingGroup model (cn_Id c);
            mret (if enabled : bool then Some (l, None) else None)
      end
  end.

Definition choose_channel (dq : DistributeRequest) (usingGroup model : string) : M Sel error (refusal + positive) :=
  keys ← gets sl_keys;
  preferred ← in_world (preferred_channel dq (sk_UserGroup keys) usingGroup model);
  match preferred with
  | Some (l, group) =>
      (match group with Some g => set_keys (fun k => k <| sk_AutoGroup := Some g |>) | None => mret tt end) ;;
      mret (inr l)
  | None =>
      set_param (fun _ => mkRetryParam usingGroup model (dq_Path dq) (Some 0) false) ;;
      '(channel, _, err) ← CacheGetRandomSatisfiedChannel compile gs rs range RetryTimes Intn;
      mret (match err, channel with
            | Some _, _ => inl (StatusServiceUnavailable, "distributor.get_channel_failed")
            | None, None => inl (StatusServiceUnavailable, "distributor.no_available_channel")
            | None, Some l => inr l
            end)
  end.

Definition select_channel (dq : DistributeRequest) : M Sel error distribute_outcome :=
  match dq_modelRequest dq with
  | Err _ => mret (DAbort (StatusBadRequest, "distributor.invalid_request"))
  | Ok (model, shouldSelectChannel) =>
      match dq_SpecificChannelId dq with
      | Some channelIDText =>
          r ← in_world (pinned_channel channelIDText);
          mret (match r with inl e => DAbort e | inr l => DNext (Some l) (dq_UsingGroup dq) end)
      | None =>
          match check_model_limit dq model with
          | Some e => mret (DAbort e)
          | None =>
              if negb shouldSelectChannel then mret (DNext None (dq_UsingGroup dq))
              else if decide (model = "") then mret (DAbort (StatusBadRequest, "distributor.model_name_required"))
              else
                keys ← gets sl_keys;
                match request_group dq (sk_UserGroup keys) model with
                | inl e => mret (DAbort e)
                | inr usingGroup =>
                    r ← choose_channel dq usingGroup model;
                    mret (match r with inl e => DAbort e | inr l => DNext (Some l) usingGroup end)
                end
          end
      end
  end.
(** The error of [SetupContextForSelectedChannel] is not looked at. *)
Definition Distribute (dq : DistributeRequest) : M Sel error distribute_outcome :=
  o ← select_channel dq;
  match o with
  | DAbort _ => mret o
  | DNext channel usingGroup =>
      _ ← SetupContextForSelectedChannel ChannelBaseURLs keyIntn channel
            (match dq_modelRequest dq with Ok (model, _) => model | Err _ => "" end);
      mret o
  end.
End distribute.

(** ** What a distributed channel satisfies *)

Section facts.
Context `{ChannelJson} (compile : string -> option (string -> bool)) (ChannelBaseURLs : Z -> string).
Context (gs : GroupSettings) (rs : RatioSettings) (range : gmap string string -> list (string * string)).
Context (RetryTimes : Z) (Intn : Z -> Z -> Z) (keyIntn : Z -> Z).
#[local] Abbreviation select_channel := (select_channel compile gs rs range RetryTimes Intn).

Lemma pinned_channel_spec text w l w' : pinned_channel text w = (Ok (inr l), w') ->
  exists t id c, text = Some t /\ Atoi t = Some id /\ d_channels (w_db w) !! id = Some c /\
    cn_Status c = ChannelStatusEnabled /\ object w' l = c.
Proof.
  unfold pinned_channel. destruct text as [t|]; [|by intros [? _]%run_ret_inv].
  case_decide; [by intros [? _]%run_ret_inv|]. destruct (Atoi t) as [id|] eqn:Ea; [|by intros [? _]%run_ret_inv].
  intros (r & w1 & Hr & Hrun)%run_bind_inv. unfold attempt in Hr.
  destruct (GetChannelById id true w) as [r' w2] eqn:Eg. injection Hr as <- <-.
  destruct r' as [l'|e]; [|by apply run_ret_inv in Hrun as [? _]].
  apply run_bind_inv in Hrun as (c & w3 & [-> ->]%gets_inv & [E ->]%run_ret_inv).
  destruct (Z.eqb_spec (cn_Status (object w2 l')) ChannelStatusEnabled) as [Es|]; [|done]. injection E as <-.
  unfold GetChannelById in Eg. apply run_bind_inv in Eg as (c & w3 & Hf & Hnew).
  unfold db_first, db_find in Hf. apply run_bind_inv in Hf as (o & w4 & Hq & Ho).
  apply run_bind_inv in Hq as (u & w5 & He & [-> ->]%gets_inv).
  assert (Hdb : w_db w5 = w_db w).
  { destruct (ext_call_cases w) as (fs & E & _). rewrite He in E. simpl in E. by rewrite E. }
  simpl in Ho. rewrite Hdb in Ho. destruct (d_channels (w_db w) !! id) as [row|] eqn:Erow; [|done].
  apply run_ret_inv in Ho as [-> ->]. injection Hnew as <- <-.
  unfold object in *. simpl in *. rewrite lookup_insert_eq in *. simpl in *. by exists t, id, row.
Qed.
Lemma preferred_channel_spec dq ug g model w p w' : preferred_channel compile gs rs range dq ug g model w = (Ok p, w') ->
  match p with
  | None => True
  | Some (l, _) => exists id w1, dq_PreferredChannel dq = Some id /\ (CacheGetChannel id w).1 = Ok l /\
      w1 = (CacheGetChannel id w).2 /\ cn_Status (object w1 l) = ChannelStatusEnabled
  end.
Proof.
  unfold preferred_channel. destruct (dq_PreferredChannel dq) as [id|]; [|by intros [-> _]%run_ret_inv].
  intros (r & w1 & Hr & Hrun)%run_bind_inv. unfold attempt in Hr.
  destruct (CacheGetChannel id w) as [r' w2] eqn:Eg. injection Hr as <- <-.
  destruct r' as [l|e]; [|by apply run_ret_inv in Hrun as [-> _]].
  apply run_bind_inv in Hrun as (c & w3 & [-> ->]%gets_inv & Hrun).
  apply run_bind_inv in Hrun as (supported & w3 & Hs & Hrun).
  destruct (Z.eqb_spec (cn_Status (object w2 l)) ChannelStatusEnabled) as [Es|].
  2:{ apply run_ret_inv in Hs as [-> ->]. by apply run_ret_inv in Hrun as [-> _]. }
  destruct supported; [|by apply run_ret_inv in Hrun as [-> _]]. case_decide.
  - apply run_bind_inv in Hrun as (g' & w4 & _ & [-> ->]%run_ret_inv). destruct g'; [|done]. simpl.
    exists id, w2. by rewrite Eg.
  - apply run_bind_inv in Hrun as (b & w4 & _ & [-> ->]%run_ret_inv). destruct b; [|done].
    exists id, w2. by rewrite Eg.
Qed.

(** A request that goes on to the relay with a channel was allowed to: either its token
    pins a channel whose row is enabled, or its model is named and within the limits of the
    token, its group is the using group or one that the playground body may ask for, and the
    channel is either the enabled one of the affinity cache or one that the search found
    (and that is not resting). *)
Theorem distributed_channel_allowed dq st l g st' : 0 <= start_index st ->
  select_channel dq st = (Ok (DNext (Some l) g), st') ->
  match dq_SpecificChannelId dq with
  | Some text => exists t id c, text = Some t /\ Atoi t = Some id /\ d_channels (w_db (sl_w st)) !! id = Some c /\
      cn_Status c = ChannelStatusEnabled /\ object (sl_w st') l = c
  | None => exists model, dq_modelRequest dq = Ok (model, true) /\ model <> "" /\
      (dq_ModelLimitEnabled dq = true -> exists limit, dq_ModelLimit dq = Some limit /\
         is_Some (limit !! FormatMatchingModelName model)) /\
      request_group gs range dq (sk_UserGroup (sl_keys st)) model = inr g /\
      ((exists id, dq_PreferredChannel dq = Some id /\ (CacheGetChannel id (sl_w st)).1 = Ok l /\
          cn_Status (object (CacheGetChannel id (sl_w st)).2 l) = ChannelStatusEnabled) \/
       cooling (sl_w st') (cn_Id (object (sl_w st') l)) = false)
  end.
Proof.
  intros Hidx. unfold Distributor.select_channel. destruct (dq_modelRequest dq) as [[model should]|e]; [|by intros [? _]%run_ret_inv].
  destruct (dq_SpecificChannelId dq) as [text|].
  - intros (r & s1 & (w' & Hp & ->)%in_world_inv & [E ->]%run_ret_inv)%run_bind_inv.
    destruct r as [o|l']; [done|]. injection E as -> ->. by apply pinned_channel_spec in Hp.
  - destruct (check_model_limit dq model) as [o|] eqn:El; [by intros [? _]%run_ret_inv|].
    destruct should; [|by intros [? _]%run_ret_inv]. cbn [negb].
    case_decide as Em; [by intros [? _]%run_ret_inv|].
    intros (keys & s1 & [-> ->]%gets_inv & Hrun)%run_bind_inv.
    destruct (request_group _ _ _ _ _) as [o|g'] eqn:Eg; [by apply run_ret_inv in Hrun as [? _]|].
    apply run_bind_inv in Hrun as (r & s1 & Hc & [E ->]%run_ret_inv).
    destruct r as [o|l']; [done|]. injection E as -> ->.
    exists model. split; [done|]. split; [done|]. split; [|split; [done|]].
    + unfold check_model_limit in El. intros Hl. rewrite Hl in El. simpl in El.
      destruct (dq_ModelLimit dq) as [limit|]; [|done]. destruct (limit !! _) eqn:E; [|done]. exists limit. by rewrite E.
    + unfold choose_channel in Hc. apply run_bind_inv in Hc as (keys & s2 & [-> ->]%gets_inv & Hc).
      apply run_bind_inv in Hc as (p & s2 & (w' & Hp & ->)%in_world_inv & Hc). apply preferred_channel_spec in Hp.
      destruct p as [[l0 go]|].
      * apply run_bind_inv in Hc as (u & s3 & _ & [E ->]%run_ret_inv). injection E as <-.
        destruct Hp as (id & w1 & Hid & Hget & -> & Hst). left. by exists id.
      * apply run_bind_inv in Hc as (u & s3 & [= _ <-] & Hc).
        apply run_bind_inv in Hc as ([[c g0] err] & s3 & Hs & [E ->]%run_ret_inv).
        destruct err as [err|]; [done|]. destruct c as [c|]; [|done]. injection E as <-. right.
        apply search_spec in Hs as (_ & _ & _ & Hrest & _); [exact Hrest|exact Hidx|done].
Qed.
End facts.
