(* ===== verification/Redemption.v ===== *)
(** * Redemption codes (src/model/redemption.go)

    A code credits its quota to the first user who redeems it.  What LIKE
    matches depends on the database, so it is a parameter of the search. *)

From S2P Require Import Prelude GoStd World Sample ModelUtils UserModel SubscriptionTime Subscription.

Definition RedemptionCodeStatusEnabled : Z := 1.
Definition RedemptionCodeStatusDisabled : Z := 2.
Definition RedemptionCodeStatusUsed : Z := 3.
Definition ErrRedeemFailed : error := ErrNew "redeem.failed".

(** ** Rows *)

(** Soft-deleted rows are invisible to every query. *)
Definition live_redemption (d : DB) (id : Z) : option Redemption :=
  r ← d_redemptions d !! id;
  match rd_DeletedAt r with None => Some r | Some _ => None end.
Definition live_redemptions (d : DB) : list Redemption :=
  List.filter (fun r => bool_decide (rd_DeletedAt r = None)) (snd <$> map_to_list (d_redemptions d)).
Definition redemption_by_key (key : string) (d : DB) : option Redemption :=
  head (order_by (fun r => [rd_Id r])
          (List.filter (fun r => bool_decide (rd_Key r = key)) (live_redemptions d))).
Definition update_redemption (id : Z) (f : Redemption -> Redemption) (d : DB) : DB :=
  d <| d_redemptions := alter f id (d_redemptions d) |>.
Definition has_redemption (id : Z) (d : DB) : bool :=
  match live_redemption d id with Some _ => true | None => false end.

(** ** Listing *)

Definition list_redemptions (cond : Redemption -> bool) (startIdx num : Z) : MW (list Redemption * Z) :=
  Transaction (
    total ← db_find HTX (fun d => Z.of_nat (length (List.filter cond (live_redemptions d))));
    rows ← db_find HTX (fun d =>
      page startIdx num (order_by (fun r => [- rd_Id r]) (List.filter cond (live_redemptions d))));
    mret (rows, total)).

Definition GetAllRedemptions (startIdx num : Z) : MW (list Redemption * Z) :=
  list_redemptions (fun _ => true) startIdx num.

Section search.
Context (like : string -> string -> bool).

Definition matches_keyword (keyword : string) (r : Redemption) : bool :=
  if decide (keyword = "") then true
  else match GoText.Atoi keyword with
       | Some id => (rd_Id r =? id) || like (rd_Name r) (keyword +:+ "%")
       | None => like (rd_Name r) (keyword +:+ "%")
       end.
Definition expired_at (now : Z) (r : Redemption) : bool :=
  negb (rd_ExpiredTime r =? 0) && (rd_ExpiredTime r <? now).
Definition matches_status (status : string) (now : Z) (r : Redemption) : bool :=
  if decide (status = "") then true
  else if decide (status = "expired") then
    (rd_Status r =? RedemptionCodeStatusEnabled) && expired_at now r
  else if decide (status = "1") then
    (rd_Status r =? RedemptionCodeStatusEnabled)
    && ((rd_ExpiredTime r =? 0) || (rd_ExpiredTime r >=? now))
  else if decide (status = "2") then rd_Status r =? RedemptionCodeStatusDisabled
  else if decide (status = "3") then rd_Status r =? RedemptionCodeStatusUsed
  else true.
Definition SearchRedemptions (keyword status : string) (startIdx num : Z) : MW (list Redemption * Z) :=
  now ← GetTimestamp;
  list_redemptions (fun r => matches_keyword keyword r && matches_status status now r) startIdx num.
End search.

Definition GetRedemptionById (id : Z) : MW Redemption :=
  guard_err (id =? 0) (ErrNew "id 为空！") ;;
  db_first HDB (fun d => live_redemption d id).

(** ** Redeeming *)

(** The compare-and-swap on the status and the credit, for the copy of the row
    that was read before. *)
Definition redeem_apply (redemption : Redemption) (userId : Z) : MW unit :=
  guard_err (negb (rd_Status redemption =? RedemptionCodeStatusEnabled)) (ErrNew "该兑换码已被使用") ;;
  now ← GetTimestamp;
  guard_err (expired_at now redemption) (ErrNew "该兑换码已过期") ;;
  hit ← db_update HTX
    (fun d => match live_redemption d (rd_Id redemption) with
              | Some r => rd_Status r =? RedemptionCodeStatusEnabled
              | None => false
              end)
    (update_redemption (rd_Id redemption) (fun r =>
       r <| rd_RedeemedTime := now |> <| rd_Status := RedemptionCodeStatusUsed |>
         <| rd_UsedUserId := userId |>));
  guard_err (negb hit) (ErrNew "该兑换码已被使用") ;;
  hit ← db_update HTX (has_user userId)
          (update_user userId (fun u => u <| u_Quota := u_Quota u + rd_Quota redemption |>));
  guard_err (negb hit) (ErrNew "用户不存在").

Definition Redeem (key : string) (userId : Z) : MW Z :=
  guard_err (bool_decide (key = "")) (ErrNew "未提供兑换码") ;;
  guard_err (userId =? 0) (ErrNew "无效的 user id") ;;
  map_err (fun _ => ErrRedeemFailed) (Transaction (
    redemption ← map_err (fun _ => ErrNew "无效的兑换码") (db_first HTX (redemption_by_key key));
    redeem_apply redemption userId ;;
    mret (rd_Quota redemption))).

(** ** Administration *)

(** Create: zero columns take their defaults; the unique index on [key] also
    covers soft-deleted rows. *)
Definition InsertRedemption (r : Redemption) : MW Redemption :=
  taken ← db_find HDB (fun d =>
    existsb (fun r' => bool_decide (rd_Key r' = rd_Key r)) (snd <$> map_to_list (d_redemptions d)));
  guard_err (taken : bool) ErrDuplicatedKey ;;
  id ← (if rd_Id r =? 0 then next_id else mret (rd_Id r));
  let r : Redemption := r <| rd_Id := id |>
             <| rd_Status := if rd_Status r =? 0 then RedemptionCodeStatusEnabled else rd_Status r |>
             <| rd_Quota := if rd_Quota r =? 0 then 100 else rd_Quota r |> in
  modify (exec_write HDB (fun d => d <| d_redemptions := <[id := r]> (d_redemptions d) |>)) ;;
  mret r.

(** UPDATE by primary key; a struct without one is gorm.ErrMissingWhereClause. *)
Definition write_redemption (r : Redemption) (f : Redemption -> Redemption) : MW unit :=
  guard_err (rd_Id r =? 0) (ErrNew "WHERE conditions required") ;;
  db_update HDB (has_redemption (rd_Id r)) (update_redemption (rd_Id r) f) ;; mret tt.
Definition SelectUpdate (r : Redemption) : MW unit :=
  write_redemption r (fun r' =>
    r' <| rd_RedeemedTime := rd_RedeemedTime r |> <| rd_Status := rd_Status r |>).
Definition UpdateRedemption (r : Redemption) : MW unit :=
  write_redemption r (fun r' =>
    r' <| rd_Name := rd_Name r |> <| rd_Status := rd_Status r |> <| rd_Quota := rd_Quota r |>
       <| rd_RedeemedTime := rd_RedeemedTime r |> <| rd_ExpiredTime := rd_ExpiredTime r |>).
Definition DeleteRedemption (r : Redemption) : MW unit :=
  now ← GetTimestamp;
  write_redemption r (fun r' => r' <| rd_DeletedAt := Some now |>).
Definition DeleteRedemptionById (id : Z) : MW unit :=
  guard_err (id =? 0) (ErrNew "id 为空！") ;;
  r ← db_first HDB (fun d => live_redemption d id);
  DeleteRedemption r.

Definition invalid_redemption (now : Z) (r : Redemption) : bool :=
  (rd_Status r =? RedemptionCodeStatusUsed) || (rd_Status r =? RedemptionCodeStatusDisabled)
  || ((rd_Status r =? RedemptionCodeStatusEnabled) && expired_at now r).
Definition DeleteInvalidRedemptions : MW Z :=
  now ← GetTimestamp;
  n ← db_find HDB (fun d => Z.of_nat (length (List.filter (invalid_redemption now) (live_redemptions d))));
  modify (exec_write HDB (fun d => d <| d_redemptions :=
    (fun r => if bool_decide (rd_DeletedAt r = None) && invalid_redemption now r
              then r <| rd_DeletedAt := Some now |> else r) <$> d_redemptions d |>)) ;;
  mret n.

(** ** What redeeming does *)

Definition used_by (userId now : Z) (r : Redemption) : Redemption :=
  r <| rd_RedeemedTime := now |> <| rd_Status := RedemptionCodeStatusUsed |> <| rd_UsedUserId := userId |>.
(** The tables after a redemption of [r] by [userId]. *)
Definition redeemed_db (r : Redemption) (userId now : Z) (d : DB) : DB :=
  update_user userId (fun u => u <| u_Quota := u_Quota u + rd_Quota r |>)
    (update_redemption (rd_Id r) (used_by userId now) d).
(** What has to hold of the row [r] that was read and of the stored row. *)
Definition redeemable (r : Redemption) (userId now : Z) (d : DB) : Prop :=
  rd_Status r = RedemptionCodeStatusEnabled /\ expired_at now r = false /\
  (exists r', live_redemption d (rd_Id r) = Some r' /\ rd_Status r' = RedemptionCodeStatusEnabled) /\
  has_user userId d = true.

Lemma redeem_apply_db r userId d : preserves (fun w => w_db w = d) (redeem_apply r userId).
Proof. unfold redeem_apply. by pres. Qed.

Lemma redeem_apply_inv r userId w u w' :
  redeem_apply r userId w = (Ok u, w') ->
  redeemable r userId (w_now w) (view HTX w) /\
  view HTX w' = redeemed_db r userId (w_now w) (view HTX w).
Proof.
  unfold redeem_apply. intros Hr. inv_bind Hr as u1 w1 E. apply guard_err_inv in E as [Hs ->].
  inv_bind Hr as now w2 E. apply gets_inv in E as [-> ->].
  inv_bind Hr as u2 w3 E. apply guard_err_inv in E as [He ->].
  inv_bind Hr as b w4 E. apply db_update_inv in E as (Hb & Hv & _ & _).
  inv_bind Hr as u3 w5 E. apply guard_err_inv in E as [Hb' ->].
  inv_bind Hr as b2 w6 E. apply db_update_inv in E as (Hb2 & Hv2 & _ & _).
  apply guard_err_inv in Hr as [Hb2' ->]. bools. subst b b2.
  rewrite Hb2' in Hv2. rewrite Hv2. destruct (live_redemption _ _) as [r'|] eqn:Hl; [|discriminate].
  rewrite Hb' in Hv. bools. rewrite Hv. split; [|done].
  split; [done|]. split; [done|]. split; [by exists r'|]. rewrite <- Hb2', Hv. done.
Qed.

(** The closure as a transaction of its own, for a row read at any earlier time. *)
Definition redeem_tx (r : Redemption) (userId : Z) : MW unit := Transaction (redeem_apply r userId).

Lemma redeem_tx_run r userId w :
  match redeem_tx r userId w with
  | (Ok _, w') => redeemable r userId (w_now w) (w_db w) /\
                  w_db w' = redeemed_db r userId (w_now w) (w_db w)
  | (Err _, w') => w_db w' = w_db w
  end.
Proof.
  unfold redeem_tx. pose proof (Transaction_atomic _ w (redeem_apply_db r userId)) as Ha.
  destruct (Transaction _ w) as [[u|e] w'] eqn:E; [|done].
  apply (Transaction_inv _ _ _ _ (redeem_apply_db r userId)) in E
    as (w1 & w2 & Hv & _ & (_ & Hn & _) & Hrun & Hd).
  apply redeem_apply_inv in Hrun as [Hok Hv2]. rewrite Hn, Hv in *. by rewrite Hd.
Qed.

Fixpoint run_redeems (xs : list (Redemption * Z)) (w : World) : list (Redemption * Z) * World :=
  match xs with
  | [] => ([], w)
  | (r, userId) :: xs =>
      let '(o, w1) := redeem_tx r userId w in
      let '(ev, w') := run_redeems xs w1 in
      (match o with Ok _ => (r, userId) :: ev | Err _ => ev end, w')
  end.

Definition enabled (d : DB) (id : Z) : Prop :=
  exists r, live_redemption d id = Some r /\ rd_Status r = RedemptionCodeStatusEnabled.

Lemma redeemed_enabled r userId now d id :
  enabled (redeemed_db r userId now d) id -> enabled d id /\ id <> rd_Id r.
Proof.
  unfold enabled, live_redemption, redeemed_db, update_redemption. simpl.
  intros (r' & Hl & Hs). rewrite lookup_alter in Hl. case_decide as Hid.
  - destruct (d_redemptions d !! rd_Id r) as [x|]; [|discriminate]. simpl in Hl.
    change (rd_DeletedAt (used_by userId now x)) with (rd_DeletedAt x) in Hl.
    destruct (rd_DeletedAt x); [discriminate|]. injection Hl as <-. discriminate.
  - split; [by exists r'|done].
Qed.

Lemma run_redeems_enabled xs : forall w x,
  x ∈ (run_redeems xs w).1 -> enabled (w_db w) (rd_Id x.1).
Proof.
  induction xs as [|[r u] xs IH]; simpl; intros w x Hin; [by inversion Hin|].
  pose proof (redeem_tx_run r u w) as Hr. destruct (redeem_tx r u w) as [[o|e] w1];
    specialize (IH w1 x); destruct (run_redeems xs w1) as [ev w']; simpl in *.
  - destruct Hr as [(_ & _ & Hen & _) Hd]. apply elem_of_cons in Hin as [->|Hin]; [exact Hen|].
    rewrite Hd in IH. by apply (redeemed_enabled r u (w_now w)), IH.
  - rewrite <- Hr. by apply IH.
Qed.

Lemma redeemed_quota r userId now d id :
  has_user userId d = true ->
  select_quota id (redeemed_db r userId now d)
  = select_quota id d + if decide (id = userId) then rd_Quota r else 0.
Proof. intros Hu. unfold redeemed_db. by rewrite select_quota_credit. Qed.

Definition credited_to (id : Z) (x : Redemption * Z) : Z :=
  if decide (id = x.2) then rd_Quota x.1 else 0.

(** C38 However redemptions interleave, also when every redeemer acts on a stale
    copy of the row that it read before any of the others wrote, and whatever
    database calls fail: every code is credited at most once, only codes that
    were enabled are credited, and every user's balance grows by exactly the
    codes credited to them. *)
Theorem redeems_once xs w :
  let ev := (run_redeems xs w).1 in let w' := (run_redeems xs w).2 in
  NoDup ((rd_Id ∘ fst) <$> ev) /\
  (forall x, x ∈ ev -> enabled (w_db w) (rd_Id x.1)) /\
  (forall id, select_quota id (w_db w') = select_quota id (w_db w) + sumZ (credited_to id) ev).
Proof.
  split; [|split; [intros x; apply run_redeems_enabled|]].
  - revert w. induction xs as [|[r u] xs IH]; simpl; intros w; [constructor|].
    pose proof (redeem_tx_run r u w) as Hr. pose proof (run_redeems_enabled xs) as Hen.
    destruct (redeem_tx r u w) as [[o|e] w1]; specialize (IH w1); specialize (Hen w1);
      destruct (run_redeems xs w1) as [ev w']; simpl in *; [|done].
    constructor; [|done]. intros ([r' u'] & Hid & Hin)%list_elem_of_fmap. simpl in Hid.
    destruct Hr as [_ Hd]. specialize (Hen _ Hin). rewrite Hd in Hen.
    by apply redeemed_enabled in Hen as [_ []].
  - intros id. revert w. induction xs as [|[r u] xs IH]; simpl; intros w; [lia|].
    pose proof (redeem_tx_run r u w) as Hr.
    destruct (redeem_tx r u w) as [[o|e] w1]; specialize (IH w1);
      destruct (run_redeems xs w1) as [ev w']; simpl in *; rewrite IH.
    + destruct Hr as [(_ & _ & _ & Hu) ->]. rewrite redeemed_quota by done. unfold credited_to at 2. simpl. lia.
    + by rewrite Hr.
Qed.

(** Every row is stored under its id. *)
Definition redemptions_keyed (d : DB) : Prop :=
  forall id r, d_redemptions d !! id = Some r -> rd_Id r = id.

Lemma redemption_by_key_live key d r :
  redemptions_keyed d -> redemption_by_key key d = Some r ->
  live_redemption d (rd_Id r) = Some r /\ rd_Key r = key.
Proof.
  intros Hk Hh. unfold redemption_by_key in Hh. apply head_Some_elem_of in Hh.
  unfold order_by in Hh. rewrite merge_sort_Permutation in Hh.
  apply list_elem_of_In, filter_In in Hh as [Hh Hkey]. apply filter_In in Hh as [Hh Hd]. bools.
  apply list_elem_of_In, list_elem_of_fmap in Hh as ([id r'] & -> & Hh). simpl in *.
  apply elem_of_map_to_list in Hh. unfold live_redemption. rewrite (Hk _ _ Hh), Hh. simpl.
  by rewrite Hd.
Qed.

Lemma Redeem_inv key userId w :
  match Redeem key userId w with
  | (Ok q, w') => exists r, redemption_by_key key (w_db w) = Some r /\ q = rd_Quota r /\
      redeemable r userId (w_now w) (w_db w) /\ w_db w' = redeemed_db r userId (w_now w) (w_db w)
  | (Err _, w') => w_db w' = w_db w
  end.
Proof.
  unfold Redeem. rewrite run_bind. unfold guard_err at 1. case_bool_decide; [done|]. simpl.
  rewrite run_bind. unfold guard_err. destruct (userId =? 0); [done|]. simpl. unfold map_err at 1.
  set (body := _ ≫= _).
  assert (Hp : forall d, preserves (fun w => w_db w = d) body).
  { intros d. unfold body. apply preserves_bind; [by pres|]. intros r.
    apply preserves_bind; [apply redeem_apply_db|by pres]. }
  pose proof (Transaction_atomic body w Hp) as Ha.
  destruct (Transaction body w) as [[q|e] w'] eqn:E; [|done].
  apply (Transaction_inv _ _ _ _ Hp) in E as (w1 & w2 & Hv & _ & (_ & Hn & _) & Hrun & Hd).
  unfold body in Hrun. inv_bind Hrun as r w3 E. unfold map_err in E.
  destruct (db_first _ _ w1) as [[r'|] w4] eqn:E1; [|discriminate]. injection E as -> ->.
  apply db_first_inv in E1 as [Hr [fs ->]]. inv_bind Hrun as u w5 E.
  apply redeem_apply_inv in E as [Hok Hv5]. apply run_ret_inv in Hrun as [-> ->].
  change (view HTX (w1 <| w_faults := fs |>)) with (view HTX w1) in *. simpl in Hok, Hv5.
  change (apply_log (w_log w1) (w_db w1)) with (view HTX w1) in *.
  rewrite Hn, Hv in *. rewrite Hd. exists r. done.
Qed.

(** The redemption succeeds when nothing fails and the code is redeemable. *)
Lemma Redeem_total key userId w r :
  w_faults w = [] -> key <> "" -> userId <> 0 -> redemptions_keyed (w_db w) ->
  redemption_by_key key (w_db w) = Some r -> rd_Status r = RedemptionCodeStatusEnabled ->
  expired_at (w_now w) r = false -> has_user userId (w_db w) = true ->
  (Redeem key userId w).1 = Ok (rd_Quota r).
Proof.
  intros Hf Hkey Hid Hk Hr Hs He Hu. pose proof (redemption_by_key_live _ _ _ Hk Hr) as [Hl _].
  apply Z.eqb_neq in Hid. unfold Redeem, redeem_apply, Transaction.
  rewrite bool_decide_eq_false_2 by done. rewrite Hid. run_unfold.
  rewrite ext_call_ok by done. unfold db_first, db_find, db_update, GetTimestamp. run_unfold.
  repeat (rewrite ext_call_ok by done; simpl). rewrite Hr. simpl. rewrite Hs. simpl. rewrite He.
  simpl. repeat (rewrite ext_call_ok by done; simpl). rewrite Hl, Hs. simpl.
  repeat (rewrite ext_call_ok by done; simpl).
  match goal with |- context [has_user userId ?d] =>
    change (has_user userId d) with (has_user userId (w_db w)) end.
  rewrite Hu. simpl. by rewrite ext_call_ok.
Qed.

(** Redeem credits exactly the code's quota to exactly the redeeming user and
    marks exactly that code as used, in one step; every error leaves the tables
    unchanged.  A stored, enabled, unexpired code is always redeemed when no
    database call fails. *)
Theorem Redeem_spec key userId w :
  redemptions_keyed (w_db w) ->
  (match Redeem key userId w with
   | (Ok q, w') => exists r, redemption_by_key key (w_db w) = Some r /\ q = rd_Quota r /\
       redeemable r userId (w_now w) (w_db w) /\ w_db w' = redeemed_db r userId (w_now w) (w_db w)
   | (Err _, w') => w_db w' = w_db w
   end) /\
  (forall r, w_faults w = [] -> key <> "" -> userId <> 0 ->
     redemption_by_key key (w_db w) = Some r -> rd_Status r = RedemptionCodeStatusEnabled ->
     expired_at (w_now w) r = false -> has_user userId (w_db w) = true ->
     (Redeem key userId w).1 = Ok (rd_Quota r)).
Proof. intros Hk. split; [apply Redeem_inv|]. intros r ?????? ?. by eapply Redeem_total. Qed.

Definition sample_code : Redemption := mkRedemption 4 2 "code" 1 "gift" 700 0 0 0 None 0.
Definition code_world : World :=
  sample_world <| w_db := sample_db <| d_redemptions := {[4 := sample_code]} |> |>.
Lemma Redeem_spec_witness :
  (Redeem "code" 1 code_world).1 = Ok 700 /\
  select_quota 1 (w_db (Redeem "code" 1 code_world).2) = 100700.
Proof.
  split; [|vm_compute; reflexivity].
  assert (Hk : redemptions_keyed (w_db code_world)).
  { intros id r Hr. change (({[4 := sample_code]} : gmap Z Redemption) !! id = Some r) in Hr. apply lookup_singleton_Some in Hr as [<- <-]. reflexivity. }
  exact (proj2 (Redeem_spec "code" 1 code_world Hk) sample_code eq_refl ltac:(discriminate)
           ltac:(discriminate) ltac:(vm_compute; reflexivity) eq_refl eq_refl
           ltac:(vm_compute; reflexivity)).
Defined.
