(* ===== verification/Checkin.v ===== *)
(** * Daily check-in (src/model/checkin.go)

    One reward per user and calendar day of the server's time zone.  MySQL and
    PostgreSQL run the two writes in a transaction, SQLite runs them in sequence
    and deletes the record by hand when the credit fails. *)

From S2P Require Import Prelude GoStd World Sample ModelUtils UserModel.

Import GoTime.

(** src/setting/operation_setting/checkin_setting.go *)
Record CheckinSetting := mkCheckinSetting {
  cs_Enabled : bool;
  cs_MinQuota : Z;
  cs_MaxQuota : Z;
}.

(** ** The date, t.Format("2006-01-02") *)

Definition pad (n : nat) (z : Z) : string :=
  let s := pretty z in
  String.concat "" (replicate (n - String.length s) "0") +:+ s.
Definition format_date (tz t : Z) : string :=
  let dn := day_number tz t in
  let '(y, m) := month_of_day dn in
  pad 4 y +:+ "-" +:+ pad 2 m +:+ "-" +:+ pad 2 (day_of_month dn).
Example format_date_ex : format_date 28800 1709222400 = "2024-03-01".
Proof. vm_compute. reflexivity. Qed.

Definition today : MW string := gets (fun w => format_date (TimeZone (w_cfg w)) (w_now w)).

(** ** Queries *)

Definition user_checkins (userId : Z) (d : DB) : list Checkin :=
  List.filter (fun c => ck_UserId c =? userId) (snd <$> map_to_list (d_checkins d)).

(** checkin_date is a string column: dates compare as strings. *)
Definition date_desc (a b : Checkin) : Prop := String.leb (ck_CheckinDate b) (ck_CheckinDate a) = true.
#[export] Instance date_desc_dec : RelDecision date_desc.
Proof. intros a b. unfold date_desc. apply bool_eq_dec. Defined.
Definition GetUserCheckinRecords (userId : Z) (startDate endDate : string) : MW (list Checkin) :=
  db_find HDB (fun d => merge_sort date_desc (List.filter (fun c =>
    String.leb startDate (ck_CheckinDate c) && String.leb (ck_CheckinDate c) endDate)
    (user_checkins userId d))).

Definition HasCheckedInToday (userId : Z) : MW bool :=
  date ← today;
  db_find HDB (fun d => match d_checkins d !! (userId, date) with Some _ => true | None => false end).

(** ** Checking in *)

Definition put_checkin (c : Checkin) (d : DB) : DB :=
  d <| d_checkins := <[(ck_UserId c, ck_CheckinDate c) := c]> (d_checkins d) |>.
Definition delete_checkin (c : Checkin) (d : DB) : DB :=
  d <| d_checkins := delete (ck_UserId c, ck_CheckinDate c) (d_checkins d) |>.
(** Create: the pair (user_id, checkin_date) is a unique index. *)
Definition create_checkin (h : handle) (c : Checkin) : MW unit :=
  old ← db_find h (fun d => d_checkins d !! (ck_UserId c, ck_CheckinDate c));
  match old with
  | Some _ => fail ErrDuplicatedKey
  | None => modify (exec_write h (put_checkin c))
  end.

Definition checkin_failed : error := ErrNew "签到失败，请稍后重试".
Definition credit_failed : error := ErrNew "签到失败：更新额度出错".

Definition userCheckinWithTransaction (checkin : Checkin) (userId quotaAwarded : Z) : MW Checkin :=
  Transaction (
    map_err (fun _ => checkin_failed) (create_checkin HTX checkin) ;;
    hit ← map_err (fun _ => credit_failed) (db_update HTX (has_user userId)
            (update_user userId (fun u => u <| u_Quota := u_Quota u + quotaAwarded |>)));
    guard_err (negb hit) credit_failed) ;;
  go_job (JobCacheIncrUserQuota userId quotaAwarded) ;;
  mret checkin.

Definition userCheckinWithoutTransaction (checkin : Checkin) (userId quotaAwarded : Z) : MW Checkin :=
  map_err (fun _ => checkin_failed) (create_checkin HDB checkin) ;;
  r ← attempt (IncreaseUserQuota userId quotaAwarded true);
  match r with
  | Ok _ => mret checkin
  | Err _ => ignore_err (db_exec HDB (delete_checkin checkin)) ;; fail credit_failed
  end.

(** [rnd] is the result of rand.Intn. *)
Definition reward (setting : CheckinSetting) (rnd : Z) : Z :=
  if cs_MaxQuota setting >? cs_MinQuota setting then cs_MinQuota setting + rnd else cs_MinQuota setting.

Definition UserCheckin (setting : CheckinSetting) (rnd userId : Z) : MW Checkin :=
  guard_err (negb (cs_Enabled setting)) (ErrNew "签到功能未启用") ;;
  hasChecked ← HasCheckedInToday userId;
  guard_err (hasChecked : bool) (ErrNew "今日已签到") ;;
  date ← today;
  now ← GetTimestamp;
  let quotaAwarded := reward setting rnd in
  let checkin := mkCheckin userId date quotaAwarded now in
  sqlite ← gets (fun w => UsingSQLite (w_cfg w));
  if sqlite : bool then userCheckinWithoutTransaction checkin userId quotaAwarded
  else userCheckinWithTransaction checkin userId quotaAwarded.

(** ** Statistics; errors of the last three queries are ignored *)

Record CheckinStats := mkCheckinStats {
  st_total_quota : Z;
  st_total_checkins : Z;
  st_checkin_count : Z;
  st_checked_in_today : bool;
  st_records : list (string * Z);
}.
Definition GetUserCheckinStats (userId : Z) (month : string) : MW CheckinStats :=
  records ← GetUserCheckinRecords userId (month +:+ "-01") (month +:+ "-31");
  hasCheckedToday ← or_zero false (HasCheckedInToday userId);
  totalCheckins ← or_zero 0 (db_find HDB (fun d => Z.of_nat (length (user_checkins userId d))));
  totalQuota ← or_zero 0 (db_find HDB (fun d => sumZ ck_QuotaAwarded (user_checkins userId d)));
  mret (mkCheckinStats totalQuota totalCheckins (Z.of_nat (length records)) hasCheckedToday
          ((fun c => (ck_CheckinDate c, ck_QuotaAwarded c)) <$> records)).

(** ** What a check-in does *)

Definition today_of (w : World) : string := format_date (TimeZone (w_cfg w)) (w_now w).
Definition checkin_of (setting : CheckinSetting) (rnd userId : Z) (w : World) : Checkin :=
  mkCheckin userId (today_of w) (reward setting rnd) (w_now w).
Definition checked_in (userId : Z) (w : World) : option Checkin :=
  d_checkins (w_db w) !! (userId, today_of w).
(** The record is stored and its reward credited. *)
Definition credited_db (c : Checkin) (d : DB) : DB :=
  update_user (ck_UserId c) (fun u => u <| u_Quota := u_Quota u + ck_QuotaAwarded c |>)
    (put_checkin c d).

Lemma create_checkin_cases h c w :
  match create_checkin h c w with
  | (Ok _, w') => d_checkins (view h w) !! (ck_UserId c, ck_CheckinDate c) = None /\
      exists fs, w' = exec_write h (put_checkin c) (w <| w_faults := fs |>)
  | (Err _, w') => exists fs, w' = w <| w_faults := fs |>
  end.
Proof.
  unfold create_checkin, db_find. run_unfold. destruct (ext_call_cases w) as (fs & Hw & Hr).
  destruct (ext_call w) as [r1 w1]; simpl in *; subst w1.
  destruct Hr as [->|[msg ->]]; [|by eexists]. simpl.
  replace (view h (w <| w_faults := fs |>)) with (view h w) by by destruct h.
  destruct (d_checkins _ !! _); [by eexists|]. simpl. split; [done|by eexists].
Qed.

Lemma delete_put_checkin c d :
  d_checkins d !! (ck_UserId c, ck_CheckinDate c) = None -> delete_checkin c (put_checkin c d) = d.
Proof.
  intros Hn. destruct d. unfold delete_checkin, put_checkin. simpl in *.
  by rewrite delete_insert_id.
Qed.

Lemma increase_db id quota w :
  match IncreaseUserQuota id quota true w with
  | (Ok _, w') => has_user id (w_db w) = true /\
      w_db w' = update_user id (fun u => u <| u_Quota := u_Quota u + quota |>) (w_db w) /\ w_cfg w' = w_cfg w /\ w_now w' = w_now w
  | (Err _, w') => exists fs, w' = w <| w_faults := fs |>
  end.
Proof.
  unfold IncreaseUserQuota, increaseUserQuota, db_update, go_job. run_unfold.
  destruct (quota <? 0); [exists (w_faults w); by destruct w|]. simpl.
  destruct (ext_call_cases w) as (fs & Hw & Hr).
  destruct (ext_call w) as [r1 w1]; simpl in *; subst w1.
  destruct Hr as [->|[msg ->]]; [|by eexists]. simpl.
  destruct (has_user id (w_db w)); simpl; [done|by eexists].
Qed.

(** Every outcome of a check-in; the last case is a SQLite credit whose hand-made
    rollback failed as well. *)
Definition checkin_outcome (setting : CheckinSetting) (rnd userId : Z) (w : World)
    (r : result error Checkin) (w' : World) : Prop :=
  let c := checkin_of setting rnd userId w in
  (w_cfg w' = w_cfg w /\ w_now w' = w_now w) /\
  match r with
  | Ok c' => c' = c /\ cs_Enabled setting = true /\ checked_in userId w = None /\
      has_user userId (w_db w) = true /\ w_db w' = credited_db c (w_db w)
  | Err _ => w_db w' = w_db w \/
      UsingSQLite (w_cfg w) = true /\ checked_in userId w = None /\ w_db w' = put_checkin c (w_db w)
  end.

Lemma tx_keeps_clock {A} (fn : MW A) cfg now :
  preserves (fun w => w_cfg w = cfg /\ w_now w = now) fn ->
  preserves (fun w => w_cfg w = cfg /\ w_now w = now) (Transaction fn).
Proof.
  intros Hfn w Hw. unfold Transaction. destruct (ext_call_cases w) as (fs & Hw1 & Hr).
  destruct (ext_call w) as [r1 w1]; simpl in *; subst w1.
  destruct Hr as [->|[msg ->]]; [|done].
  match goal with |- context [fn ?x] =>
    specialize (Hfn x Hw); destruct (fn x) as [[a|e] w2] end; simpl in *; [|done].
  destruct (ext_call_cases w2) as (fs2 & Hw3 & Hr3).
  destruct (ext_call w2) as [r3 w3]; simpl in *; subst w3. by destruct Hr3 as [->|[msg3 ->]].
Qed.

Lemma checkin_tx_run c userId w :
  userId = ck_UserId c ->
  match userCheckinWithTransaction c userId (ck_QuotaAwarded c) w with
  | (Ok c', w') => c' = c /\ d_checkins (w_db w) !! (ck_UserId c, ck_CheckinDate c) = None /\
      has_user userId (w_db w) = true /\ w_db w' = credited_db c (w_db w)
  | (Err _, w') => w_db w' = w_db w
  end.
Proof.
  intros ->. unfold userCheckinWithTransaction.
  match goal with |- context [Transaction ?m] => set (body := m) end.
  assert (Hp : forall d, preserves (fun w => w_db w = d) body).
  { intros d. unfold body, create_checkin. by pres. }
  rewrite run_bind. pose proof (Transaction_atomic body w Hp) as Ha.
  destruct (Transaction body w) as [[u|e] w1] eqn:E; [|done]. simpl.
  apply (Transaction_inv _ _ _ _ Hp) in E as (w2 & w3 & Hv & _ & _ & Hrun & Hd).
  unfold body in Hrun. inv_bind Hrun as u1 w4 E. unfold map_err in E.
  pose proof (create_checkin_cases HTX c w2) as Hc. destruct (create_checkin HTX c w2) as [[|] w5]; [|discriminate].
  injection E as -> ->. destruct Hc as [Hn [fs ->]].
  inv_bind Hrun as b w6 E. unfold map_err in E.
  destruct (db_update _ _ _ _) as [[b'|] w7] eqn:E2; [|discriminate]. injection E as -> ->.
  apply db_update_inv in E2 as (Hb & Hv6 & _). apply guard_err_inv in Hrun as [Hb' ->]. bools. subst b.
  rewrite Hb' in Hv6. rewrite tx_write_view in Hv6, Hb'.
  change (view HTX (w2 <| w_faults := fs |>)) with (view HTX w2) in *. rewrite Hv in *.
  rewrite Hd, Hv6. done.
Qed.

Lemma checkin_sqlite_run c userId w :
  userId = ck_UserId c ->
  match userCheckinWithoutTransaction c userId (ck_QuotaAwarded c) w with
  | (Ok c', w') => c' = c /\ d_checkins (w_db w) !! (ck_UserId c, ck_CheckinDate c) = None /\
      has_user userId (w_db w) = true /\ w_db w' = credited_db c (w_db w)
  | (Err _, w') => w_db w' = w_db w \/
      d_checkins (w_db w) !! (ck_UserId c, ck_CheckinDate c) = None /\ w_db w' = put_checkin c (w_db w)
  end.
Proof.
  intros ->. unfold userCheckinWithoutTransaction. rewrite run_bind. unfold map_err.
  pose proof (create_checkin_cases HDB c w) as Hc. destruct (create_checkin HDB c w) as [[|] w1].
  2: { destruct Hc as [fs ->]. by left. }
  destruct Hc as [Hn [fs ->]]. simpl in Hn. rewrite run_bind. unfold attempt.
  match goal with |- context [IncreaseUserQuota ?a ?b true ?x] => pose proof (increase_db a b x) as Hi;
    destruct (IncreaseUserQuota a b true x) as [[|] w2] end; simpl.
  - destruct Hi as (Hu & Hd & _). done.
  - destruct Hi as [fs2 ->]. unfold db_exec, ignore_err, mbind, M_bind, modify, fail. simpl.
    match goal with |- context [ext_call ?x] => destruct (ext_call_cases x) as (fs3 & Hw & Hr);
      destruct (ext_call x) as [r1 w1] end; simpl in *; subst w1.
    destruct Hr as [->|[msg ->]]; simpl; [left; by apply delete_put_checkin|by right].
Qed.

Lemma UserCheckin_outcome setting rnd userId w :
  checkin_outcome setting rnd userId w (UserCheckin setting rnd userId w).1
    (UserCheckin setting rnd userId w).2.
Proof.
  assert (Hclock : preserves (fun w' => w_cfg w' = w_cfg w /\ w_now w' = w_now w)
                     (UserCheckin setting rnd userId)).
  { unfold UserCheckin, HasCheckedInToday, today, GetTimestamp, userCheckinWithoutTransaction,
      userCheckinWithTransaction, create_checkin, IncreaseUserQuota, increaseUserQuota, go_job, addNewRecord.
    repeat first [pres_step | apply tx_keeps_clock | (apply preserves_modify; intros w' Hw'; by destruct (w_batch w' _ !! _))]. }
  split; [by apply Hclock|]. clear Hclock.
  unfold UserCheckin, HasCheckedInToday, today, GetTimestamp, db_find. run_unfold.
  destruct (cs_Enabled setting); simpl; [|by left].
  destruct (ext_call_cases w) as (fs & Hw & Hr).
  destruct (ext_call w) as [r1 w1]; simpl in *; subst w1.
  destruct Hr as [->|[msg ->]]; simpl; [|by left].
  destruct (d_checkins (w_db w) !! _) as [c|] eqn:Hold; simpl; [by left|].
  set (c := checkin_of setting rnd userId w).
  change (mkCheckin _ _ _ _) with c. change (reward setting rnd) with (ck_QuotaAwarded c).
  destruct (UsingSQLite (w_cfg w)); simpl.
  - pose proof (checkin_sqlite_run c userId (w <| w_faults := fs |>) eq_refl) as Hs.
    destruct (userCheckinWithoutTransaction _ _ _ _) as [[|] w']; simpl in *; naive_solver.
  - pose proof (checkin_tx_run c userId (w <| w_faults := fs |>) eq_refl) as Hs.
    destruct (userCheckinWithTransaction _ _ _ _) as [[|] w']; simpl in *; naive_solver.
Qed.

(** ** Sequences of check-ins while the clock moves *)

Inductive checkin_op :=
| CkUser (rnd userId : Z)
| CkTime (now : Z).

Fixpoint run_checkins (setting : CheckinSetting) (ops : list checkin_op) (w : World)
    : list Checkin * World :=
  match ops with
  | [] => ([], w)
  | CkTime now :: ops => run_checkins setting ops (w <| w_now := now |>)
  | CkUser rnd userId :: ops =>
      let '(r, w1) := UserCheckin setting rnd userId w in
      let '(ev, w') := run_checkins setting ops w1 in
      (match r with Ok c => c :: ev | Err _ => ev end, w')
  end.

Definition checkin_key (c : Checkin) : Z * string := (ck_UserId c, ck_CheckinDate c).
Definition award_of (id : Z) (c : Checkin) : Z :=
  if decide (id = ck_UserId c) then ck_QuotaAwarded c else 0.

(** A stored record is never lost, and a rewarded one is new. *)
Lemma checkin_step_dom setting rnd userId w :
  let w' := (UserCheckin setting rnd userId w).2 in
  (forall k, is_Some (d_checkins (w_db w) !! k) -> is_Some (d_checkins (w_db w') !! k)) /\
  match (UserCheckin setting rnd userId w).1 with
  | Ok c => d_checkins (w_db w) !! checkin_key c = None /\ is_Some (d_checkins (w_db w') !! checkin_key c)
  | Err _ => True
  end.
Proof.
  pose proof (UserCheckin_outcome setting rnd userId w) as [_ Ho].
  destruct (UserCheckin setting rnd userId w) as [[c|e] w']; simpl in *.
  - destruct Ho as (-> & _ & Hn & _ & ->). split; [|split; [exact Hn|]].
    + intros k Hk. simpl. rewrite lookup_insert. case_decide; eauto.
    + simpl. rewrite lookup_insert_eq. eauto.
  - split; [|done]. intros k Hk. destruct Ho as [->|(_ & _ & ->)]; [done|].
    simpl. rewrite lookup_insert. case_decide; eauto.
Qed.

Lemma run_checkins_new setting ops : forall w c,
  c ∈ (run_checkins setting ops w).1 -> d_checkins (w_db w) !! checkin_key c = None.
Proof.
  induction ops as [|[rnd u|now] ops IH]; simpl; intros w c Hin; [by inversion Hin| |by apply (IH _ _ Hin)].
  pose proof (checkin_step_dom setting rnd u w) as [Hd Hk].
  destruct (UserCheckin setting rnd u w) as [[c0|e] w1]; specialize (IH w1 c);
    destruct (run_checkins setting ops w1) as [ev w']; simpl in *.
  - apply elem_of_cons in Hin as [->|Hin]; [apply Hk|]. apply eq_None_not_Some. intros Hs.
    specialize (Hd _ Hs). rewrite (IH Hin) in Hd. by destruct Hd.
  - apply eq_None_not_Some. intros Hs. specialize (Hd _ Hs). rewrite (IH Hin) in Hd. by destruct Hd.
Qed.

(** Whatever users check in, in whatever order, while the clock moves and
    database calls fail: no user is rewarded twice for the same calendar day of
    the server, a day that already has a record is not rewarded, and every
    balance grows by exactly the rewards returned to its owner. *)
Theorem checkins_once setting ops w :
  let ev := (run_checkins setting ops w).1 in let w' := (run_checkins setting ops w).2 in
  NoDup (checkin_key <$> ev) /\
  (forall c, c ∈ ev -> d_checkins (w_db w) !! checkin_key c = None) /\
  (forall id, select_quota id (w_db w') = select_quota id (w_db w) + sumZ (award_of id) ev).
Proof.
  split; [|split; [intros c; apply run_checkins_new|]].
  - revert w. induction ops as [|[rnd u|now] ops IH]; simpl; intros w; [constructor| |apply IH].
    pose proof (checkin_step_dom setting rnd u w) as [_ Hk]. pose proof (run_checkins_new setting ops) as Hn.
    destruct (UserCheckin setting rnd u w) as [[c0|e] w1]; specialize (IH w1); specialize (Hn w1);
      destruct (run_checkins setting ops w1) as [ev w']; simpl in *; [|done].
    constructor; [|done]. intros (c & Hid & Hin)%list_elem_of_fmap. destruct Hk as [_ Hk].
    rewrite Hid, (Hn _ Hin) in Hk. by destruct Hk.
  - intros id. revert w. induction ops as [|[rnd u|now] ops IH]; simpl; intros w; [lia| |exact (IH (w <| w_now := now |>))].
    pose proof (UserCheckin_outcome setting rnd u w) as [_ Ho].
    destruct (UserCheckin setting rnd u w) as [[c0|e] w1]; specialize (IH w1);
      destruct (run_checkins setting ops w1) as [ev w']; simpl in *; rewrite IH.
    + destruct Ho as (-> & _ & _ & Hu & ->). unfold credited_db.
      rewrite select_quota_credit by done. unfold award_of at 2. simpl.
      change (select_quota id (put_checkin _ (w_db w))) with (select_quota id (w_db w)). lia.
    + by destruct Ho as [->|(_ & _ & ->)].
Qed.

(** A check-in either stores today's record and credits its reward to the user,
    which must exist, have no record of today and have the feature enabled, or
    fails and leaves the tables unchanged; only on SQLite, when the credit and the
    rollback that follows both fail, the record stays without a reward. *)
Theorem UserCheckin_spec setting rnd userId w :
  checkin_outcome setting rnd userId w (UserCheckin setting rnd userId w).1
    (UserCheckin setting rnd userId w).2.
Proof. apply UserCheckin_outcome. Qed.

(** The reward stays within the configured range. *)
Lemma reward_bounds setting rnd :
  cs_MinQuota setting <= cs_MaxQuota setting ->
  0 <= rnd < cs_MaxQuota setting - cs_MinQuota setting + 1 ->
  cs_MinQuota setting <= reward setting rnd <= cs_MaxQuota setting.
Proof. unfold reward. destruct (_ >? _) eqn:E; bools; lia. Qed.

(** On SQLite a check-in can be lost: the credit fails, the rollback fails, and the
    record of today blocks every later attempt of the day. *)
Definition lossy_world : World :=
  sample_world <| w_cfg := mkConfig false false (GoFloat.F64.of_Z 500000) (fun s => s) 28800 true false |>
    <| w_faults := [None; None; Some "io"; Some "io"] |>.
Lemma checkin_lost :
  let setting := mkCheckinSetting true 10 10 in
  let r := run_checkins setting [CkUser 0 1; CkUser 0 1] lossy_world in
  r.1 = [] /\ w_faults r.2 = [] /\ select_quota 1 (w_db r.2) = 100000 /\
  is_Some (d_checkins (w_db r.2) !! (1, today_of lossy_world)).
Proof. vm_compute. by eauto. Qed.
