(* ===== verification/TaskModel.v ===== *)
(** * Asynchronous tasks (src/model/task.go)

    Rows of the tasks table, the queries of the pollers and the guarded update
    that decides which process bills a finished task.  The created_at and
    updated_at stamps are left out. *)

From S2P Require Import Prelude GoStd GoFloat World ModelUtils UserModel SubscriptionTime Subscription.

(** ** Status *)

Definition TaskStatusNotStart : string := "NOT_START".
Definition TaskStatusSubmitted : string := "SUBMITTED".
Definition TaskStatusQueued : string := "QUEUED".
Definition TaskStatusInProgress : string := "IN_PROGRESS".
Definition TaskStatusFailure : string := "FAILURE".
Definition TaskStatusSuccess : string := "SUCCESS".
Definition TaskStatusUnknown : string := "UNKNOWN".

Definition ToVideoStatus (t : string) : string :=
  if decide (t = TaskStatusQueued \/ t = TaskStatusSubmitted) then "queued"
  else if decide (t = TaskStatusInProgress) then "in_progress"
  else if decide (t = TaskStatusSuccess) then "completed"
  else if decide (t = TaskStatusFailure) then "failed"
  else "unknown".

Definition finished (status : string) : bool :=
  bool_decide (status = TaskStatusFailure) || bool_decide (status = TaskStatusSuccess).

Definition GetUpstreamTaskID (t : Task) : string :=
  if decide (pv_UpstreamTaskID (tk_PrivateData t) = "") then tk_TaskID t
  else pv_UpstreamTaskID (tk_PrivateData t).
Definition GetResultURL (t : Task) : string :=
  if decide (pv_ResultURL (tk_PrivateData t) = "") then tk_FailReason t
  else pv_ResultURL (tk_PrivateData t).

(** ** Queries *)

Definition all_tasks (d : DB) : list Task := snd <$> map_to_list (d_tasks d).
Definition where_tasks (cond : Task -> bool) (d : DB) : list Task := List.filter cond (all_tasks d).

Definition unfinished (t : Task) : bool :=
  negb (bool_decide (tk_Progress t = "100%")) && negb (finished (tk_Status t)).
Definition timed_out (cutoffUnix : Z) (t : Task) : bool := unfinished t && (tk_SubmitTime t <? cutoffUnix).

(** ORDER BY submit_time leaves the order of ties to the database; here it is by id. *)
Definition GetTimedOutUnfinishedTasks (cutoffUnix limit : Z) : MW (list Task) :=
  or_zero [] (db_find HDB (fun d => page 0 limit
    (order_by (fun t => [tk_SubmitTime t; tk_ID t]) (where_tasks (timed_out cutoffUnix) d)))).
Definition GetAllUnFinishSyncTasks (limit : Z) : MW (list Task) :=
  or_zero [] (db_find HDB (fun d => page 0 limit
    (order_by (fun t => [tk_ID t]) (where_tasks unfinished d)))).
Definition HasUnfinishedSyncTasks : MW bool :=
  or_zero false (db_find HDB (fun d => existsb (fun t => negb (tk_ID t =? 0)) (where_tasks unfinished d))).

(** First: the lowest id; RecordExist turns a missing row into [exist = false]. *)
Definition first_task (cond : Task -> bool) : MW (option Task) :=
  r ← attempt (db_first HDB (fun d => head (order_by (fun t => [tk_ID t]) (where_tasks cond d))));
  match r with
  | Ok t => mret (Some t)
  | Err ErrRecordNotFound => mret None
  | Err e => fail e
  end.
Definition GetByOnlyTaskId (taskId : string) : MW (option Task) :=
  if decide (taskId = "") then mret None
  else first_task (fun t => bool_decide (tk_TaskID t = taskId)).
Definition GetByTaskId (userId : Z) (taskId : string) : MW (option Task) :=
  if decide (taskId = "") then mret None
  else first_task (fun t => (tk_UserId t =? userId) && bool_decide (tk_TaskID t = taskId)).
Definition GetByTaskIds (userId : Z) (taskIds : list string) : MW (list Task) :=
  match taskIds with
  | [] => mret []
  | _ => db_find HDB (where_tasks (fun t =>
           (tk_UserId t =? userId) && bool_decide (tk_TaskID t ∈ taskIds)))
  end.

(** *** Listing *)

Record SyncTaskQueryParams := mkTaskQuery {
  q_Platform : string;
  q_ChannelID : string;
  q_TaskID : string;
  q_UserID : string;
  q_Action : string;
  q_Status : string;
  q_StartTimestamp : Z;
  q_EndTimestamp : Z;
  q_UserIDs : list Z;
}.
(** [if v != "" { query = query.Where("column = ?", v) }] *)
Definition if_set (v column : string) : bool := bool_decide (v = "") || bool_decide (column = v).
Definition user_filter (q : SyncTaskQueryParams) (t : Task) : bool :=
  if_set (q_TaskID q) (tk_TaskID t) && if_set (q_Action q) (tk_Action t)
  && if_set (q_Status q) (tk_Status t) && if_set (q_Platform q) (tk_Platform t)
  && ((q_StartTimestamp q =? 0) || (tk_SubmitTime t >=? q_StartTimestamp q))
  && ((q_EndTimestamp q =? 0) || (tk_SubmitTime t <=? q_EndTimestamp q)).
(** Ids arrive as text and compare with the decimal form of the column. *)
Definition admin_filter (q : SyncTaskQueryParams) (t : Task) : bool :=
  if_set (q_ChannelID q) (pretty (tk_ChannelId t)) && if_set (q_UserID q) (pretty (tk_UserId t))
  && (match q_UserIDs q with [] => true | ids => bool_decide (tk_UserId t ∈ ids) end)
  && user_filter q t.

Definition newest (l : list Task) : list Task := order_by (fun t => [- tk_ID t]) l.
(** Omit("channel_id") *)
Definition TaskGetAllUserTask (userId startIdx num : Z) (q : SyncTaskQueryParams) : MW (list Task) :=
  or_zero [] (db_find HDB (fun d => (fun t : Task => t <| tk_ChannelId := 0 |> : Task) <$>
    page startIdx num (newest (where_tasks (fun t => (tk_UserId t =? userId) && user_filter q t) d)))).
Definition TaskGetAllTasks (startIdx num : Z) (q : SyncTaskQueryParams) : MW (list Task) :=
  or_zero [] (db_find HDB (fun d =>
    page startIdx num (newest (where_tasks (admin_filter q) d)))).
Definition TaskCountAllTasks (q : SyncTaskQueryParams) : MW Z :=
  or_zero 0 (db_find HDB (fun d => Z.of_nat (length (where_tasks (admin_filter q) d)))).
Definition TaskCountAllUserTask (userId : Z) (q : SyncTaskQueryParams) : MW Z :=
  or_zero 0 (db_find HDB (fun d =>
    Z.of_nat (length (where_tasks (fun t => (tk_UserId t =? userId) && user_filter q t) d)))).

(** ** Writes *)

Definition put_task (t : Task) (d : DB) : DB := d <| d_tasks := <[tk_ID t := t]> (d_tasks d) |>.
Definition update_task (id : Z) (f : Task -> Task) (d : DB) : DB :=
  d <| d_tasks := alter f id (d_tasks d) |>.
Definition has_task (id : Z) (d : DB) : bool := bool_decide (is_Some (d_tasks d !! id)).

(** Create: a row without an id gets the next one. *)
Definition InsertTask (t : Task) : MW Task :=
  ext_call ;;
  id ← (if tk_ID t =? 0 then next_id else mret (tk_ID t));
  let t : Task := t <| tk_ID := id |> in
  modify (exec_write HDB (put_task t)) ;;
  mret t.

Record taskSnapshot := mkSnapshot {
  sn_Status : string;
  sn_Progress : string;
  sn_StartTime : Z;
  sn_FinishTime : Z;
  sn_FailReason : string;
  sn_ResultURL : string;
  sn_Data : string;
}.
Definition Snapshot (t : Task) : taskSnapshot :=
  mkSnapshot (tk_Status t) (tk_Progress t) (tk_StartTime t) (tk_FinishTime t) (tk_FailReason t)
    (pv_ResultURL (tk_PrivateData t)) (tk_Data t).
Definition snapshot_Equal (s other : taskSnapshot) : bool :=
  bool_decide (sn_Status s = sn_Status other) && bool_decide (sn_Progress s = sn_Progress other)
  && (sn_StartTime s =? sn_StartTime other) && (sn_FinishTime s =? sn_FinishTime other)
  && bool_decide (sn_FailReason s = sn_FailReason other)
  && bool_decide (sn_ResultURL s = sn_ResultURL other) && bool_decide (sn_Data s = sn_Data other).

(** Save: an UPDATE by id that falls back to an INSERT. *)
Definition UpdateTask (t : Task) : MW unit := db_exec HDB (put_task t).
Definition UpdateTaskQuota (t : Task) : MW unit :=
  db_update HDB (has_task (tk_ID t)) (update_task (tk_ID t) (fun r => r <| tk_Quota := tk_Quota t |>)) ;;
  mret tt.

(** The compare-and-swap: the row is written only while its status is still
    [fromStatus]. *)
Definition status_is (id : Z) (fromStatus : string) (d : DB) : bool :=
  match d_tasks d !! id with
  | Some r => bool_decide (tk_Status r = fromStatus)
  | None => false
  end.
Definition UpdateWithStatus (t : Task) (fromStatus : string) : MW bool :=
  db_update HDB (status_is (tk_ID t) fromStatus) (put_task t).

(** UPDATE of several rows, without a guard. *)
Definition bulk_update (hits : Task -> bool) (f : Task -> Task) : MW unit :=
  db_exec HDB (fun d => d <| d_tasks := (fun t => if hits t then f t else t) <$> d_tasks d |>).
Definition TaskBulkUpdate (taskIds : list string) (f : Task -> Task) : MW unit :=
  match taskIds with
  | [] => mret tt
  | _ => bulk_update (fun t => bool_decide (tk_TaskID t ∈ taskIds)) f
  end.
Definition TaskBulkUpdateByID (ids : list Z) (f : Task -> Task) : MW unit :=
  match ids with
  | [] => mret tt
  | _ => bulk_update (fun t => bool_decide (tk_ID t ∈ ids)) f
  end.
