(* ===== verification/SubscriptionProofs.v ===== *)
(** * Facts about subscription quota

    The quota invariant of the subscription table and how every statement keeps
    it; what the transactions of [Subscription] do to the tables they see. *)

From S2P Require Import Prelude GoStd GoFloat World Sample ModelUtils UserModel SubscriptionTime Subscription.

(** ** The invariant *)

(** A row stores a used amount between 0 and the total of a limited plan. *)
Definition row_ok (s : UserSubscription) : Prop :=
  0 <= s_AmountUsed s /\ (0 < s_AmountTotal s -> s_AmountUsed s <= s_AmountTotal s).
Definition subs_ok (d : DB) : Prop :=
  map_Forall (fun id s => s_Id s = id /\ row_ok s) (d_subs d).

Lemma subs_ok_lookup d id s : subs_ok d -> d_subs d !! id = Some s -> s_Id s = id /\ row_ok s.
Proof. intros H Hs. by apply (H id s). Qed.
Lemma subs_ok_put s d : row_ok s -> subs_ok d -> subs_ok (put_sub s d).
Proof. intros Hs Hd. by apply map_Forall_insert_2. Qed.

Lemma order_by_perm {A} (key : A -> list Z) l : order_by key l ≡ₚ l.
Proof. apply merge_sort_Permutation. Qed.

Lemma where_subs_elem s cond d :
  s ∈ where_subs cond d <-> cond s = true /\ exists id, d_subs d !! id = Some s.
Proof.
  unfold where_subs, all_subs. rewrite list_elem_of_In, filter_In, <- list_elem_of_In.
  rewrite list_elem_of_fmap. split.
  - intros [([id s'] & -> & H%elem_of_map_to_list) Hc]. split; [done|]. by exists id.
  - intros [Hc [id H]]. split; [|done]. exists (id, s). split; [done|].
    by apply elem_of_map_to_list.
Qed.

Lemma ordered_subs_elem s key cond d :
  s ∈ order_by key (where_subs cond d) <-> cond s = true /\ exists id, d_subs d !! id = Some s.
Proof. rewrite order_by_perm. apply where_subs_elem. Qed.

Lemma reset_plan_ok tz sub plan now s' :
  row_ok sub -> reset_plan tz sub plan now = Ok (Some s') ->
  row_ok s' /\ s_Id s' = s_Id sub /\ s_UserId s' = s_UserId sub /\ s_PlanId s' = s_PlanId sub /\
  s_AmountTotal s' = s_AmountTotal sub /\ s_Status s' = s_Status sub /\
  s_EndTime s' = s_EndTime sub /\
  (s_AmountUsed s' = s_AmountUsed sub \/ s_AmountUsed s' = 0).
Proof.
  intros [H1 H2] H. unfold reset_plan in H.
  destruct (_ && _); [discriminate|]. destruct (decide (NormalizeResetPeriod _ = _)); [discriminate|].
  destruct (catch_up _ _ _ _ _) as [[[b n0] adv]|]; [|discriminate].
  destruct adv; simpl in H.
  - injection H as <-. unfold row_ok; simpl. repeat split; auto; lia.
  - destruct (_ && _); [|discriminate]. injection H as <-. unfold row_ok; simpl.
    repeat split; auto; lia.
Qed.

(** ** Every step keeps the invariant *)

Lemma SaveSub_ok h s : row_ok s -> preserves (db_inv subs_ok) (SaveSub h s).
Proof.
  intros Hs. unfold SaveSub, GetTimestamp. apply preserves_bind; [apply preserves_gets|].
  intros now. apply db_inv_exec. intros d. by apply subs_ok_put.
Qed.
Lemma put_record_ok r d : subs_ok d -> subs_ok (put_record r d).
Proof. done. Qed.
Lemma SaveRecord_ok h r : preserves (db_inv subs_ok) (SaveRecord h r).
Proof.
  unfold SaveRecord, GetTimestamp. apply preserves_bind; [apply preserves_gets|].
  intros now. by apply db_inv_exec.
Qed.
Lemma CreateRecord_ok h r : preserves (db_inv subs_ok) (CreateRecord h r).
Proof.
  unfold CreateRecord, GetTimestamp. apply preserves_bind; [apply preserves_gets|].
  intros now. apply preserves_bind.
  - apply preserves_db_find. intros. by apply db_inv_faults.
  - intros [old|]; [apply preserves_fail|]. apply preserves_modify.
    intros w Hw. by apply db_inv_write.
Qed.

(** The cache and the clocks are not part of any table. *)
Lemma cache_call_inv P : preserves (db_inv P) cache_call.
Proof.
  unfold cache_call. apply preserves_bind; [apply preserves_gets|].
  intros []; [apply db_inv_ext_call|apply preserves_ret].
Qed.
Lemma GetDBTimestamp_inv P : preserves (db_inv P) GetDBTimestamp.
Proof.
  unfold GetDBTimestamp. apply preserves_bind.
  - apply preserves_attempt. intros w Hw. by apply db_inv_ext_call.
  - intros r. repeat (apply preserves_bind; [apply preserves_gets|intros ?]). apply preserves_ret.
Qed.
Lemma getPlan_inv P h id : preserves (db_inv P) (getSubscriptionPlanByIdTx h id).
Proof.
  unfold getSubscriptionPlanByIdTx, plan_cache_get, plan_cache_set.
  apply preserves_bind; [apply preserves_guard|]. intros _. apply preserves_bind.
  - apply preserves_bind; [apply preserves_attempt; intros w Hw; by apply cache_call_inv|].
    intros []; [apply preserves_gets|apply preserves_ret].
  - intros [p|]; [apply preserves_ret|]. apply preserves_bind.
    + apply preserves_db_first. intros. by apply db_inv_faults.
    + intros p. apply preserves_bind; [|intros; apply preserves_ret].
      apply preserves_ignore. apply preserves_bind; [apply cache_call_inv|].
      intros _. by apply preserves_modify.
Qed.

Lemma maybeReset_ok h sub plan now :
  row_ok sub -> keeps (db_inv subs_ok) row_ok (maybeResetUserSubscriptionWithPlanTx h sub plan now).
Proof.
  intros Hs. unfold maybeResetUserSubscriptionWithPlanTx.
  apply keeps_seq; [apply preserves_gets|]. intros tz.
  apply (keeps_bind _ (fun r => match r with Some s' => row_ok s' | None => True end)).
  - apply keeps_of_result. destruct (reset_plan tz sub plan now) as [[s'|]|] eqn:E; try done.
    by destruct (reset_plan_ok _ _ _ _ _ Hs E).
  - intros [s'|] Hs'; [|by apply keeps_ret].
    apply keeps_seq; [by apply SaveSub_ok|]. intros _. by apply keeps_ret.
Qed.

Lemma consume_from_ok rid uid amount sub :
  row_ok sub -> 0 < amount -> lacks sub amount = false ->
  preserves (db_inv subs_ok) (consume_from rid uid amount sub).
Proof.
  intros [H1 H2] Ha Hl. unfold consume_from. apply preserves_bind.
  { apply preserves_attempt. intros w Hw. by apply CreateRecord_ok. }
  intros [u|e].
  - apply preserves_bind; [|intros; apply preserves_ret]. apply SaveSub_ok.
    unfold row_ok, lacks in *; simpl. apply andb_false_iff in Hl as [Hl|Hl]; bools; lia.
  - apply preserves_bind.
    + apply preserves_attempt. intros w Hw.
      apply (preserves_db_first (db_inv subs_ok)); [intros; by apply db_inv_faults|done].
    + intros [dup|]; [|apply preserves_fail].
      apply preserves_bind; [apply preserves_guard|intros; apply preserves_ret].
Qed.

Lemma try_candidates_ok rid uid amount now subs :
  0 < amount -> Forall row_ok subs ->
  preserves (db_inv subs_ok) (try_candidates rid uid amount now subs).
Proof.
  intros Ha. induction 1 as [|c rest Hc Hrest IH]; simpl; [apply preserves_fail|].
  apply preserves_bind; [apply getPlan_inv|]. intros plan.
  eapply keeps_preserves, (keeps_bind _ row_ok _ _ _ (maybeReset_ok _ c plan now Hc)).
  intros sub Hsub. apply preserves_keeps. destruct (lacks sub amount) eqn:Hl; [done|].
  by apply consume_from_ok.
Qed.

Lemma ordered_subs_ok key cond d : subs_ok d -> Forall row_ok (order_by key (where_subs cond d)).
Proof.
  intros Hd. apply Forall_forall. intros s. rewrite ordered_subs_elem. intros [_ [id Hs]].
  by apply (subs_ok_lookup d id).
Qed.

Lemma pre_consume_tx_ok rid uid amount now :
  0 < amount -> preserves (db_inv subs_ok) (pre_consume_tx rid uid amount now).
Proof.
  intros Ha. unfold pre_consume_tx.
  apply preserves_bind; [apply preserves_db_find; intros; by apply db_inv_faults|].
  intros [r|].
  - apply preserves_bind; [apply preserves_guard|]. intros _.
    apply preserves_bind; [apply preserves_db_first; intros; by apply db_inv_faults|].
    intros; apply preserves_ret.
  - eapply keeps_preserves, (keeps_bind _ (Forall row_ok)).
    + apply keeps_map_err. apply (db_inv_find subs_ok). intros d. by apply ordered_subs_ok.
    + intros subs Hsubs. apply preserves_keeps.
      apply preserves_bind; [apply preserves_guard|]. intros _. by apply try_candidates_ok.
Qed.

Lemma PreConsume_ok rid uid model qt amount :
  preserves (db_inv subs_ok) (PreConsumeUserSubscription rid uid model qt amount).
Proof.
  unfold PreConsumeUserSubscription.
  do 2 (apply preserves_bind; [apply preserves_guard|intros _]).
  destruct (amount <=? 0) eqn:Ha.
  { intros w Hw. exact Hw. }
  bools. apply preserves_bind; [apply preserves_guard|]. intros _.
  apply preserves_bind; [apply GetDBTimestamp_inv|]. intros now.
  apply db_inv_Transaction. by apply pre_consume_tx_ok.
Qed.

Lemma PostConsume_ok id delta : preserves (db_inv subs_ok) (PostConsumeUserSubscriptionDelta id delta).
Proof.
  unfold PostConsumeUserSubscriptionDelta. apply preserves_bind; [apply preserves_guard|].
  intros _. destruct (delta =? 0); [apply preserves_ret|]. apply db_inv_Transaction.
  eapply keeps_preserves, (keeps_bind _ row_ok).
  { apply (db_inv_first subs_ok). intros d s Hd Hs. by apply (subs_ok_lookup d id). }
  intros s [H1 H2]. apply preserves_keeps.
  set (u := if _ <? 0 then 0 else _). destruct (_ && (u >? _)) eqn:E; [apply preserves_fail|].
  apply preserves_bind; [apply preserves_ret|]. intros _. apply SaveSub_ok.
  unfold row_ok; simpl. assert (0 <= u) by (unfold u; destruct (_ <? 0) eqn:?; bools; lia).
  apply andb_false_iff in E as [E|E]; bools; lia.
Qed.

Lemma Refund_ok rid : preserves (db_inv subs_ok) (RefundSubscriptionPreConsume rid).
Proof.
  unfold RefundSubscriptionPreConsume. apply preserves_bind; [apply preserves_guard|]. intros _.
  apply db_inv_Transaction.
  apply preserves_bind; [apply preserves_db_first; intros; by apply db_inv_faults|]. intros r.
  destruct (decide _); [apply preserves_ret|]. destruct (_ <=? 0); [apply SaveRecord_ok|].
  apply preserves_bind; [apply PostConsume_ok|]. intros _. apply SaveRecord_ok.
Qed.

Lemma reset_each_ok now subs n : preserves (db_inv subs_ok) (reset_each now subs n).
Proof.
  revert n. induction subs as [|s rest IH]; intros n; simpl; [apply preserves_ret|].
  apply preserves_bind; [apply preserves_attempt; intros w Hw; by apply getPlan_inv|].
  intros [plan|]; [|apply IH]. apply preserves_bind.
  - apply db_inv_TransactionC. apply preserves_bind; [|intros; apply preserves_ret].
    eapply keeps_preserves, (keeps_bind _ (fun r => match r with Ok s => row_ok s | Err _ => True end)).
    + apply keeps_attempt. apply (db_inv_first subs_ok). intros d s' Hd.
      destruct (d_subs d !! s_Id s) as [s0|] eqn:E; [|done]. destruct (_ && _); [|done].
      intros [= <-]. by apply (subs_ok_lookup d (s_Id s)).
    + intros [locked|] Hl; [|by apply (keeps_ret _ (fun _ => True))].
      apply preserves_keeps. apply preserves_bind; [|intros; apply preserves_ret].
      by eapply keeps_preserves, maybeReset_ok.
  - intros [k []]; [apply IH|apply preserves_ret].
Qed.

Lemma ResetDue_ok limit : preserves (db_inv subs_ok) (ResetDueSubscriptions limit).
Proof.
  unfold ResetDueSubscriptions. apply preserves_bind; [apply GetDBTimestamp_inv|]. intros now.
  apply preserves_bind.
  - apply preserves_attempt. intros w Hw.
    apply (preserves_db_find (db_inv subs_ok)); [intros; by apply db_inv_faults|done].
  - intros []; [apply reset_each_ok|apply preserves_ret].
Qed.

Lemma Cleanup_ok secs : preserves (db_inv subs_ok) (CleanupSubscriptionPreConsumeRecords secs).
Proof.
  unfold CleanupSubscriptionPreConsumeRecords.
  apply preserves_bind; [apply GetDBTimestamp_inv|]. intros ts.
  apply preserves_bind; [apply preserves_db_find; intros; by apply db_inv_faults|]. intros n.
  apply preserves_bind; [|intros; apply preserves_ret].
  apply preserves_modify. intros w Hw. by apply db_inv_write.
Qed.

(** ** What the transactions do *)

(** A transaction body that only uses [tx] leaves the committed tables alone. *)
Lemma SaveSub_tx d s : preserves (fun w => w_db w = d) (SaveSub HTX s).
Proof. unfold SaveSub, GetTimestamp. pres. Qed.
Lemma SaveRecord_tx d r : preserves (fun w => w_db w = d) (SaveRecord HTX r).
Proof. unfold SaveRecord, GetTimestamp. pres. Qed.
Lemma CreateRecord_tx d r : preserves (fun w => w_db w = d) (CreateRecord HTX r).
Proof. unfold CreateRecord, GetTimestamp. pres. Qed.
Lemma getPlan_tx d h id : preserves (fun w => w_db w = d) (getSubscriptionPlanByIdTx h id).
Proof. unfold getSubscriptionPlanByIdTx, plan_cache_get, plan_cache_set, cache_call. pres. Qed.
Lemma maybeReset_tx d sub plan now :
  preserves (fun w => w_db w = d) (maybeResetUserSubscriptionWithPlanTx HTX sub plan now).
Proof. unfold maybeResetUserSubscriptionWithPlanTx. pose proof SaveSub_tx. pres. Qed.
#[export] Hint Resolve SaveSub_tx SaveRecord_tx CreateRecord_tx getPlan_tx maybeReset_tx : preserves.

Lemma try_candidates_tx d rid uid amount now subs :
  preserves (fun w => w_db w = d) (try_candidates rid uid amount now subs).
Proof.
  induction subs as [|c rest IH]; simpl; [apply preserves_fail|]. unfold consume_from. pres.
Qed.
Lemma pre_consume_tx_tx rid uid amount now d :
  preserves (fun w => w_db w = d) (pre_consume_tx rid uid amount now).
Proof. unfold pre_consume_tx. pose proof try_candidates_tx. pres. Qed.

Lemma SaveSub_inv s w u w' :
  SaveSub HTX s w = (Ok u, w') ->
  view HTX w' = put_sub (s <| s_UpdatedAt := w_now w |>) (view HTX w) /\ tx_env w w'.
Proof.
  unfold SaveSub, GetTimestamp. intros H. inv_bind H. apply gets_inv in E as [-> ->].
  by apply db_exec_inv in H.
Qed.
Lemma SaveRecord_inv r w u w' :
  SaveRecord HTX r w = (Ok u, w') ->
  view HTX w' = put_record (r <| r_UpdatedAt := w_now w |>) (view HTX w) /\ tx_env w w'.
Proof.
  unfold SaveRecord, GetTimestamp. intros H. inv_bind H. apply gets_inv in E as [-> ->].
  by apply db_exec_inv in H.
Qed.
Lemma CreateRecord_run r w :
  match CreateRecord HTX r w with
  | (Ok _, w') => d_records (view HTX w) !! r_RequestId r = None /\ tx_env w w' /\
      view HTX w' = put_record (r <| r_CreatedAt := w_now w |> <| r_UpdatedAt := w_now w |>)
                      (view HTX w)
  | (Err _, w') => exists fs, w' = w <| w_faults := fs |>
  end.
Proof.
  unfold CreateRecord, GetTimestamp, db_find. run_unfold.
  destruct (ext_call_cases w) as (fs & Hw1 & Hr).
  destruct (ext_call w) as [r1 w1]; simpl in *; subst w1.
  destruct Hr as [->|[msg ->]]; [|by exists fs]. simpl.
  destruct (d_records _ !! _) eqn:E; [by exists fs|]. simpl.
  split; [done|]. split; [done|]. apply apply_log_app.
Qed.

(** The calls to the plan cache leave the tables and the open transaction alone. *)
Definition same_tables (w w' : World) : Prop := w_log w' = w_log w /\ tx_env w w'.
Lemma same_tables_view h w w' : same_tables w w' -> view h w' = view h w.
Proof. intros (Hl & Hd & _). destruct h; simpl; by rewrite ?Hl, Hd. Qed.
Lemma getPlan_same h id w : same_tables w (getSubscriptionPlanByIdTx h id w).2.
Proof.
  assert (H : preserves (same_tables w) (getSubscriptionPlanByIdTx h id)); [|by apply H].
  unfold getSubscriptionPlanByIdTx, plan_cache_get, plan_cache_set, cache_call. pres.
Qed.

Lemma getPlan_next h id w :
  w_next_id (getSubscriptionPlanByIdTx h id w).2 = w_next_id w.
Proof.
  assert (H : preserves (fun w' => w_next_id w' = w_next_id w) (getSubscriptionPlanByIdTx h id));
    [|by apply H].
  unfold getSubscriptionPlanByIdTx, plan_cache_get, plan_cache_set, cache_call. pres.
Qed.

(** A row is kept up to a quota reset. *)
Definition sub_kept (o o' : option UserSubscription) : Prop :=
  o' = o \/ exists s s', o = Some s /\ o' = Some s' /\ s_UserId s' = s_UserId s /\
    s_Id s' = s_Id s /\ s_PlanId s' = s_PlanId s /\ s_Status s' = s_Status s /\
    s_EndTime s' = s_EndTime s /\ s_AmountTotal s' = s_AmountTotal s /\
    (s_AmountUsed s' = s_AmountUsed s \/ s_AmountUsed s' = 0).
(** Tables equal but for the subscription rows and the records. *)
Definition rest_kept (d d' : DB) : Prop :=
  d_users d' = d_users d /\ d_tokens d' = d_tokens d /\ d_plans d' = d_plans d /\
  d_orders d' = d_orders d /\ d_topups d' = d_topups d /\ d_channels d' = d_channels d /\
  d_abilities d' = d_abilities d.
#[export] Instance rest_kept_preorder : PreOrder rest_kept.
Proof. split; unfold rest_kept; repeat intro; intuition congruence. Qed.

Lemma maybeReset_inv sub plan now w sub' w' :
  row_ok sub -> d_subs (view HTX w) !! s_Id sub = Some sub ->
  maybeResetUserSubscriptionWithPlanTx HTX sub plan now w = (Ok sub', w') ->
  row_ok sub' /\ tx_env w w' /\ d_records (view HTX w') = d_records (view HTX w) /\
  rest_kept (view HTX w) (view HTX w') /\
  (forall id, id <> s_Id sub -> d_subs (view HTX w') !! id = d_subs (view HTX w) !! id) /\
  sub_kept (Some sub) (Some sub') /\ sub_kept (Some sub) (d_subs (view HTX w') !! s_Id sub).
Proof.
  intros Hok Hrow H. unfold maybeResetUserSubscriptionWithPlanTx in H.
  inv_bind H. apply gets_inv in E as [-> ->]. inv_bind H.
  unfold of_result in E. injection E as Hp <-. destruct a as [s'|].
  - destruct (reset_plan_ok _ _ _ _ _ Hok Hp) as (Hok' & Hid & Hu & Hpl & Ht & Hst & He & Hused).
    inv_bind H. apply SaveSub_inv in E as [Hv Henv]. apply run_ret_inv in H as [-> ->].
    rewrite Hv. split; [done|]. split; [done|]. split; [done|]. split; [done|].
    split; [|split].
    + intros id Hne. simpl. apply lookup_insert_ne. congruence.
    + right. exists sub, s'. auto 10.
    + right. exists sub, (s' <| s_UpdatedAt := w_now w |>). simpl. rewrite Hid, lookup_insert_eq. auto 10.
  - apply run_ret_inv in H as [-> ->]. repeat split; try apply Hok; try done.
    + by left.
    + by left.
Qed.

#[local] Arguments view : simpl never.

(** What a successful pre-consume transaction wrote. *)
Definition pre_consumed (rid : string) (uid amount now : Z) (c : UserSubscription)
    (res : SubscriptionPreConsumeResult) (d d' : DB) : Prop :=
  res = mkPreResult (s_Id c) amount (s_AmountTotal c) (pr_AmountUsedBefore res)
          (pr_AmountUsedBefore res + amount) /\
  (pr_AmountUsedBefore res = s_AmountUsed c \/ pr_AmountUsedBefore res = 0) /\
  (0 < s_AmountTotal c -> pr_AmountUsedAfter res <= s_AmountTotal c) /\
  (exists s', d_subs d' !! s_Id c = Some s' /\ s_AmountUsed s' = pr_AmountUsedAfter res /\
     s_Id s' = s_Id c /\ s_UserId s' = s_UserId c /\ s_AmountTotal s' = s_AmountTotal c /\
     s_Status s' = s_Status c) /\
  (forall id, id <> s_Id c -> sub_kept (d_subs d !! id) (d_subs d' !! id)) /\
  d_records d' = <[rid := mkPreRecord rid uid (s_Id c) amount "consumed" now now]> (d_records d) /\
  rest_kept d d'.

Lemma consume_from_inv rid uid amount sub w res w' :
  d_records (view HTX w) !! rid = None -> row_ok sub -> lacks sub amount = false ->
  consume_from rid uid amount sub w = (Ok res, w') ->
  tx_env w w' /\
  res = mkPreResult (s_Id sub) amount (s_AmountTotal sub) (s_AmountUsed sub)
          (s_AmountUsed sub + amount) /\
  (0 < s_AmountTotal sub -> s_AmountUsed sub + amount <= s_AmountTotal sub) /\
  view HTX w' = put_sub (sub <| s_AmountUsed := s_AmountUsed sub + amount |>
                             <| s_UpdatedAt := w_now w |>)
    (put_record (mkPreRecord rid uid (s_Id sub) amount "consumed" (w_now w) (w_now w)) (view HTX w)).
Proof.
  intros Hfresh Hok Hl H. unfold consume_from in H. inv_bind H.
  set (r := mkPreRecord rid uid (s_Id sub) amount "consumed" 0 0) in *.
  pose proof (CreateRecord_run r w) as Hc. unfold attempt in E.
  destruct (CreateRecord HTX r w) as [[u|e] w1]; injection E as <- <-.
  - destruct Hc as (_ & Henv & Hv). inv_bind H. apply SaveSub_inv in E as [Hv2 Henv2].
    apply run_ret_inv in H as [-> ->]. split; [by transitivity w1|]. split; [done|].
    split.
    { unfold lacks in Hl. apply andb_false_iff in Hl as [Hl|Hl]; bools; lia. }
    rewrite Hv2, Hv. destruct Henv as (_ & -> & _). done.
  - destruct Hc as [fs ->]. inv_bind H. unfold attempt in E.
    destruct (db_first HTX _ _) as [[dup|e2] w2] eqn:Ed; injection E as <- <-; [|discriminate].
    apply db_first_inv in Ed as [Hd _].
    change (d_records (view HTX w) !! rid = Some dup) in Hd. congruence.
Qed.

Lemma try_candidates_inv rid uid amount now subs w res w' :
  Forall row_ok subs -> NoDup (s_Id <$> subs) ->
  Forall (fun c => d_subs (view HTX w) !! s_Id c = Some c) subs ->
  d_records (view HTX w) !! rid = None ->
  try_candidates rid uid amount now subs w = (Ok res, w') ->
  exists c, c ∈ subs /\ tx_env w w' /\
    pre_consumed rid uid amount (w_now w) c res (view HTX w) (view HTX w').
Proof.
  revert w. induction subs as [|c rest IH]; intros w Hok Hnd Hrows Hfresh H; [discriminate|].
  apply Forall_cons in Hok as [Hc Hok]. apply Forall_cons in Hrows as [Hrow Hrows].
  rewrite fmap_cons in Hnd. apply NoDup_cons in Hnd as [Hnin Hnd]. simpl in H.
  inv_bind H as plan w0 E. pose proof (getPlan_same HTX (s_PlanId c) w) as Hsame. rewrite E in Hsame. simpl in Hsame.
  pose proof (same_tables_view HTX _ _ Hsame) as Hv0. destruct Hsame as [_ Henv0].
  inv_bind H as sub w1 E0. rewrite <- Hv0 in Hrow, Hrows, Hfresh.
  destruct (maybeReset_inv _ _ _ _ _ _ Hc Hrow E0) as (Hok' & Henv1 & Hrec & Hrest & Hoth & Hkc & Hkrow).
  assert (Henv : tx_env w w1) by (by transitivity w0).
  destruct (lacks sub amount) eqn:Hl.
  - destruct (IH w1) as (c' & Hin & Henv' & Hres & Hb & Hlim & (s' & Hs') & Hkept & Hr & Hrk); try done.
    { apply Forall_forall. intros x Hx. rewrite Forall_forall in Hrows.
      rewrite Hoth; [by apply Hrows|]. intros Heq. apply Hnin. rewrite <- Heq.
      by apply list_elem_of_fmap_2. }
    { by rewrite Hrec. }
    exists c'. split; [set_solver|]. split; [by transitivity w1|].
    assert (Hnow : w_now w1 = w_now w) by apply Henv.
    unfold pre_consumed. rewrite <- Hnow, <- Hv0. do 3 (split; [done|]). split; [by exists s'|].
    split; [|split; [by rewrite Hr, Hrec|by transitivity (view HTX w1)]].
    intros id Hid. destruct (decide (id = s_Id c)) as [->|Hne].
    + rewrite Hrow. specialize (Hkept (s_Id c) Hid).
      destruct Hkept as [->|Hkept]; [done|].
      destruct Hkrow as [Hkrow|Hkrow]; [rewrite Hkrow in Hkept; by right|].
      destruct Hkrow as (s0 & s1 & [= <-] & Hs1 & Hk1). rewrite Hs1 in Hkept.
      destruct Hkept as (s2 & s3 & [= <-] & Hs3 & Hk3). right. exists c, s3. rewrite Hs3.
      repeat split; intuition congruence.
    + rewrite <- (Hoth id Hne). by apply Hkept.
  - apply consume_from_inv in H as (Henv2 & Hres & Hlim & Hv); [|by rewrite Hrec|done|done].
    exists c. split; [set_solver|]. split; [by transitivity w1|].
    assert (Hsid : s_Id sub = s_Id c /\ s_UserId sub = s_UserId c /\ s_AmountTotal sub = s_AmountTotal c
      /\ s_Status sub = s_Status c /\ (s_AmountUsed sub = s_AmountUsed c \/ s_AmountUsed sub = 0)).
    { destruct Hkc as [[= <-]|(s0 & s1 & [= <-] & [= <-] & Hk)]; [repeat split; by left|intuition congruence]. }
    destruct Hsid as (Hi & Hu & Ht & Hst & Hused). rewrite Hres. unfold pre_consumed. simpl.
    rewrite Hi, Ht in *. split; [done|]. split; [done|]. split; [done|].
    assert (Hnow : w_now w1 = w_now w) by apply Henv. rewrite Hnow in Hv.
    rewrite Hv. simpl. split.
    { eexists. rewrite Hi, lookup_insert_eq. split; [done|]. by simpl. }
    split; [|split; [by rewrite Hrec, Hv0|by rewrite <- Hv0]].
    intros id Hid. rewrite Hi, lookup_insert_ne by done. rewrite <- Hv0. left. by apply Hoth.
Qed.

Lemma GetDBTimestamp_run w :
  exists t fs, GetDBTimestamp w = (Ok t, w <| w_faults := fs |>) /\ (t = w_now w \/ t = w_dbnow w).
Proof.
  unfold GetDBTimestamp. run_unfold. destruct (ext_call_cases w) as (fs & Hw1 & Hr).
  destruct (ext_call w) as [r1 w1]; simpl in *; subst w1.
  do 2 eexists. split; [reflexivity|]. simpl. destruct r1; [destruct (_ <=? 0)|]; auto.
Qed.

Lemma candidates_rows uid now d :
  subs_ok d ->
  let subs := order_by end_asc (where_subs (active_for uid now) d) in
  Forall row_ok subs /\ NoDup (s_Id <$> subs) /\ Forall (fun c => d_subs d !! s_Id c = Some c) subs.
Proof.
  intros Hd subs. split; [by apply ordered_subs_ok|]. split.
  - unfold subs. rewrite order_by_perm. unfold where_subs, all_subs.
    assert (Hnd : forall l : list (Z * UserSubscription), NoDup l.*1 ->
      (forall k s, (k, s) ∈ l -> s_Id s = k) ->
      NoDup (s_Id <$> List.filter (active_for uid now) l.*2)).
    { induction l as [|[k s] l IH]; intros Hn Hk; simpl; [constructor|].
      simpl in Hn. apply NoDup_cons in Hn as [Hnin Hn].
      assert (IH' : NoDup (s_Id <$> List.filter (active_for uid now) l.*2))
        by (apply IH; [done|intros; apply Hk; by right]).
      destruct (active_for uid now s); [|done]. simpl. apply NoDup_cons. split; [|done].
      rewrite (Hk k s) by left. intros Hin. apply Hnin.
      apply list_elem_of_fmap in Hin as (s' & -> & Hin).
      apply list_elem_of_In, filter_In in Hin as [Hin _]. apply list_elem_of_In in Hin.
      apply list_elem_of_fmap in Hin as ([k' s''] & -> & Hin). simpl.
      rewrite (Hk k' s'') by (by right). apply list_elem_of_fmap. by exists (k', s''). }
    apply Hnd; [apply NoDup_fst_map_to_list|]. intros k s Hin%elem_of_map_to_list.
    by apply (subs_ok_lookup d k s).
  - apply Forall_forall. intros s. unfold subs. rewrite ordered_subs_elem. intros [_ [id Hs]].
    destruct (subs_ok_lookup d id s Hd Hs) as [-> _]. done.
Qed.

Lemma active_for_true uid now s :
  active_for uid now s = true <-> s_UserId s = uid /\ s_Status s = "active" /\ now < s_EndTime s.
Proof.
  unfold active_for. rewrite !andb_true_iff, Z.eqb_eq, bool_decide_eq_true, Z.gtb_lt. tauto.
Qed.

Lemma pre_consume_tx_inv rid uid amount now w res w' :
  subs_ok (view HTX w) -> d_records (view HTX w) !! rid = None ->
  pre_consume_tx rid uid amount now w = (Ok res, w') ->
  exists c, d_subs (view HTX w) !! s_Id c = Some c /\ active_for uid now c = true /\
    pre_consumed rid uid amount (w_now w) c res (view HTX w) (view HTX w').
Proof.
  intros Hd Hfresh H. unfold pre_consume_tx in H. inv_bind H as ex w1 E.
  apply db_find_inv in E as [-> [fs1 ->]]. rewrite Hfresh in H.
  inv_bind H as subs w2 E.
  assert (Hf : subs = order_by end_asc (where_subs (active_for uid now) (view HTX w)) /\
               exists fs, w2 = w <| w_faults := fs |>).
  { unfold map_err in E. destruct (db_find HTX _ _) as [[x|e] w3] eqn:Ef; [|discriminate].
    apply db_find_inv in Ef as [-> [fs2 ->]]. injection E as <- <-. split; [done|by exists fs2]. }
  destruct Hf as [-> [fs2 ->]]. inv_bind H as u w3 E2. apply guard_err_inv in E2 as [_ ->].
  destruct (candidates_rows uid now (view HTX w) Hd) as (Hok & Hnd & Hrows).
  apply try_candidates_inv in H as (c & Hin & _ & Hpre); try done.
  rewrite Forall_forall in Hrows. exists c. split; [by apply Hrows|]. split; [|done].
  by apply ordered_subs_elem in Hin as [Hact _].
Qed.

(** An error of any kind leaves the database as it was. *)
Lemma PreConsume_err rid uid model qt amount w e w' :
  PreConsumeUserSubscription rid uid model qt amount w = (Err e, w') -> w_db w' = w_db w.
Proof.
  unfold PreConsumeUserSubscription. run_unfold.
  destruct (uid <=? 0); [by intros [= _ <-]|]. simpl.
  destruct (bool_decide (GoStrings.TrimSpace _ = _)); [by intros [= _ <-]|].
  simpl. destruct (amount <=? 0); [by intros [= _ <-]|]. simpl.
  destruct (GetDBTimestamp_run w) as (t & fs & -> & _).
  intros Htx. pose proof (Transaction_atomic _ (w <| w_faults := fs |>)
    (pre_consume_tx_tx rid uid amount t)) as Ha. by rewrite Htx in Ha.
Qed.

(** The clocks and the settings are not touched, and no transaction stays open. *)
Lemma PreConsume_env rid uid model qt amount w :
  let w' := (PreConsumeUserSubscription rid uid model qt amount w).2 in
  w_now w' = w_now w /\ w_dbnow w' = w_dbnow w /\ w_cfg w' = w_cfg w.
Proof.
  set (I := fun w' => w_now w' = w_now w /\ w_dbnow w' = w_dbnow w /\ w_cfg w' = w_cfg w).
  assert (HI : forall A (fn : MW A), preserves I fn -> preserves I (Transaction fn)).
  { intros A fn Hfn w1 Hw1. unfold Transaction.
    destruct (ext_call_cases w1) as (fs & Hw2 & Hr).
    destruct (ext_call w1) as [r1 w2]; simpl in *; subst w2.
    destruct Hr as [->|[msg ->]]; [|exact Hw1].
    specialize (Hfn (w1 <| w_faults := fs |> <| w_log := [] |>)). specialize (Hfn Hw1).
    destruct (fn _) as [[a|e] w2]; simpl in *; [|exact Hfn].
    destruct (ext_call_cases w2) as (fs2 & Hw3 & Hr3).
    destruct (ext_call w2) as [r3 w3]; simpl in *; subst w3.
    destruct Hr3 as [->|[msg3 ->]]; exact Hfn. }
  assert (Htry : forall t subs, preserves I (try_candidates rid uid amount t subs)).
  { intros t subs. induction subs as [|c rest IH]; simpl; [apply preserves_fail|].
    unfold consume_from, getSubscriptionPlanByIdTx, plan_cache_get, plan_cache_set, cache_call,
      maybeResetUserSubscriptionWithPlanTx, SaveSub, CreateRecord, GetTimestamp.
    pres. }
  assert (H : preserves I (PreConsumeUserSubscription rid uid model qt amount)); [|by apply H].
  unfold PreConsumeUserSubscription, GetDBTimestamp.
  repeat (first [apply HI; unfold pre_consume_tx|pres_step]).
Qed.

Lemma PreConsume_inv rid uid model qt amount w :
  subs_ok (w_db w) -> d_records (w_db w) !! rid = None ->
  match PreConsumeUserSubscription rid uid model qt amount w with
  | (Ok res, w') => 0 < amount /\
      exists c, d_subs (w_db w) !! s_Id c = Some c /\ s_UserId c = uid /\ s_Status c = "active" /\
        pre_consumed rid uid amount (w_now w) c res (w_db w) (w_db w')
  | (Err _, w') => w_db w' = w_db w
  end.
Proof.
  intros Hd Hfresh.
  destruct (PreConsumeUserSubscription rid uid model qt amount w) as [[res|e] w'] eqn:H.
  - unfold PreConsumeUserSubscription in H.
    do 3 (inv_bind H; apply guard_err_inv in E as [? ->]). bools. split; [done|].
    inv_bind H as now w1 E. destruct (GetDBTimestamp_run w) as (t & fs & Ht & _).
    rewrite Ht in E. injection E as <- <-.
    apply Transaction_inv in H as (w1 & w2 & Hv1 & _ & (_ & Hnow & _) & Hrun & Hdb);
      [|intros d; apply pre_consume_tx_tx].
    apply pre_consume_tx_inv in Hrun as (c & Hc & Hact & Hpre); [|by rewrite Hv1|by rewrite Hv1].
    rewrite Hv1 in Hc, Hpre. rewrite <- Hdb in Hpre. rewrite Hnow in Hpre.
    exists c. apply active_for_true in Hact as (? & ? & _). done.
  - revert H. unfold PreConsumeUserSubscription. run_unfold.
    repeat (destruct (_ <=? 0) || destruct (bool_decide _); simpl; try (by intros [= _ <-])).
    destruct (GetDBTimestamp_run w) as (t & fs & -> & _).
    intros Htx. pose proof (Transaction_atomic _ (w <| w_faults := fs |>)
      (pre_consume_tx_tx rid uid amount t)) as Ha. by rewrite Htx in Ha.
Qed.

(** The invariant of the committed rows, whatever transaction was open. *)
Lemma PreConsume_subs_ok rid uid model qt amount w :
  subs_ok (w_db w) -> subs_ok (w_db (PreConsumeUserSubscription rid uid model qt amount w).2).
Proof.
  intros Hd. destruct (PreConsumeUserSubscription rid uid model qt amount w) as [[res|e] w'] eqn:E; simpl.
  - unfold PreConsumeUserSubscription in E.
    do 3 (inv_bind E; apply guard_err_inv in E0 as [? ->]). bools.
    inv_bind E as now w1 E1. destruct (GetDBTimestamp_run w) as (t & fs & Ht & _).
    rewrite Ht in E1. injection E1 as <- <-.
    apply Transaction_inv in E as (w1 & w2 & Hv1 & Hl1 & (Hdb1 & _) & Hrun & Hdb);
      [|intros d; apply pre_consume_tx_tx].
    pose proof (pre_consume_tx_ok rid uid amount t ltac:(done) w1) as Hok. rewrite Hrun in Hok.
    rewrite Hdb. apply db_inv_view. apply Hok. split; [by rewrite Hdb1|by rewrite Hl1].
  - apply PreConsume_err in E. by rewrite E.
Qed.

(** ** Properties *)


Lemma sample_subs_ok : subs_ok sample_db.
Proof. apply map_Forall_singleton. split; [done|]. unfold row_ok; simpl; lia. Qed.


(** A repeated request id is never charged twice: whatever calls fail, the
    database stays as it was; a success reports the amount charged the first
    time, and a refunded request is refused. *)
Theorem PreConsumeUserSubscription_replay rid uid model qt amount w r :
  d_records (w_db w) !! rid = Some r ->
  match PreConsumeUserSubscription rid uid model qt amount w with
  | (Ok res, w') => w_db w' = w_db w /\ r_Status r <> "refunded" /\
      pr_PreConsumed res = r_PreConsumed r /\ pr_AmountUsedBefore res = pr_AmountUsedAfter res /\
      exists s, d_subs (w_db w) !! r_UserSubscriptionId r = Some s /\
        pr_UserSubscriptionId res = s_Id s /\ pr_AmountUsedAfter res = s_AmountUsed s
  | (Err _, w') => w_db w' = w_db w
  end.
Proof.
  intros Hr. unfold PreConsumeUserSubscription. run_unfold.
  destruct (uid <=? 0); [done|]. simpl. destruct (bool_decide (GoStrings.TrimSpace _ = _)); [done|].
  simpl. destruct (amount <=? 0); [done|]. simpl.
  destruct (GetDBTimestamp_run w) as (t & fs & -> & _).
  destruct (Transaction _ _) as [[res|e] w'] eqn:Htx.
  - apply Transaction_inv in Htx as (w1 & w2 & Hv1 & _ & _ & Hrun & Hdb);
      [|intros d; apply pre_consume_tx_tx].
    simpl in Hv1. unfold pre_consume_tx in Hrun. inv_bind Hrun as ex w3 E.
    apply db_find_inv in E as [-> [fs3 ->]]. rewrite Hv1, Hr in Hrun.
    inv_bind Hrun as u w4 E. apply guard_err_inv in E as [Hst ->]. bools.
    inv_bind Hrun as s w5 E. apply db_first_inv in E as [Hs [fs5 ->]].
    apply run_ret_inv in Hrun as [-> ->].
    change (view HTX (w1 <| w_faults := fs3 |>)) with (view HTX w1) in Hs. rewrite Hv1 in Hs.
    split; [by rewrite Hdb|]. split; [done|]. simpl. split; [done|]. split; [done|]. by exists s.
  - pose proof (Transaction_atomic _ (w <| w_faults := fs |>)
      (pre_consume_tx_tx rid uid amount t)) as Ha. by rewrite Htx in Ha.
Qed.

Definition sample_record : PreConsumeRecord :=
  mkPreRecord "req" 1 5 200 "consumed" 1700000000 1700000000.
Definition sample_consumed_world : World :=
  sample_world <| w_db := sample_db <| d_records := {["req" := sample_record]} |>
                            <| d_subs := {[5 := (sample_sub <| s_AmountUsed := 300 |> : UserSubscription)]} |> |>.

Lemma PreConsumeUserSubscription_replay_witness :
  exists res w', PreConsumeUserSubscription "req" 1 "m" 0 200 sample_consumed_world = (Ok res, w') /\
    w_db w' = w_db sample_consumed_world /\ pr_PreConsumed res = 200.
Proof.
  pose proof (PreConsumeUserSubscription_replay "req" 1 "m" 0 200 sample_consumed_world sample_record
                ltac:(reflexivity)) as H.
  destruct (PreConsumeUserSubscription "req" 1 "m" 0 200 sample_consumed_world) as [[res|e] w'] eqn:E.
  - destruct H as (Hdb & _ & Hp & _). exists res, w'. split; [reflexivity|]. by split.
  - exfalso. vm_compute in E. discriminate.
Defined.

Lemma PostConsume_run id delta w :
  match PostConsumeUserSubscriptionDelta id delta w with
  | (Ok _, w') => w_log w' = w_log w /\ (delta = 0 /\ w' = w \/
      exists s, d_subs (w_db w) !! id = Some s /\
        (0 < s_AmountTotal s -> Z.max 0 (s_AmountUsed s + delta) <= s_AmountTotal s) /\
        w_db w' = put_sub (s <| s_AmountUsed := Z.max 0 (s_AmountUsed s + delta) |>
                             <| s_UpdatedAt := w_now w |>) (w_db w))
  | (Err _, w') => w_db w' = w_db w
  end.
Proof.
  unfold PostConsumeUserSubscriptionDelta.
  destruct (id <=? 0); [done|]. rewrite run_bind. simpl.
  destruct (delta =? 0) eqn:Hz; bools; [by split; [|left]|].
  set (body := db_first HTX (fun d => d_subs d !! id) ≫= _).
  assert (Hbody : forall d, preserves (fun w => w_db w = d) body) by (intros d; unfold body; pres).
  destruct (Transaction body w) as [[u|e] w'] eqn:Htx.
  - split.
    { unfold Transaction in Htx. destruct (ext_call w) as [[]]; [|discriminate].
      destruct (body _) as [[] w2]; [|discriminate]. destruct (ext_call w2) as [[]]; [|discriminate].
      by injection Htx as _ <-. }
    right. apply Transaction_inv in Htx as (w1 & w2 & Hv1 & _ & (_ & Hnow & _) & Hrun & Hdb); [|done].
    unfold body in Hrun. inv_bind Hrun as s w3 E. apply db_first_inv in E as [Hs [fs ->]].
    rewrite Hv1 in Hs. inv_bind Hrun as u2 w4 E. apply guard_err_inv in E as [Hg ->].
    apply SaveSub_inv in Hrun as [Hv _].
    change (view HTX (w1 <| w_faults := fs |>)) with (view HTX w1) in Hv.
    exists s. rewrite Hdb, Hv, Hv1. simpl in *. rewrite Hnow.
    assert (Hm : (if s_AmountUsed s + delta <? 0 then 0 else s_AmountUsed s + delta)
                 = Z.max 0 (s_AmountUsed s + delta)) by (destruct (_ <? 0) eqn:?; bools; lia).
    rewrite Hm in *. split; [done|]. split; [|done]. intros Ht.
    apply andb_false_iff in Hg as [Hg|Hg]; bools; lia.
  - pose proof (Transaction_atomic body w Hbody) as Ha. by rewrite Htx in Ha.
Qed.

(** Settling a subscription: whatever calls fail, success means that exactly
    the one row was changed, its used amount moved by [delta] and stopped at 0,
    and never past the total of a limited plan; an error changes nothing. *)
Theorem PostConsumeUserSubscriptionDelta_spec id delta w :
  match PostConsumeUserSubscriptionDelta id delta w with
  | (Ok _, w') => delta = 0 /\ w_db w' = w_db w \/
      exists s, d_subs (w_db w) !! id = Some s /\
        (0 < s_AmountTotal s -> Z.max 0 (s_AmountUsed s + delta) <= s_AmountTotal s) /\
        w_db w' = put_sub (s <| s_AmountUsed := Z.max 0 (s_AmountUsed s + delta) |>
                             <| s_UpdatedAt := w_now w |>) (w_db w)
  | (Err _, w') => w_db w' = w_db w
  end.
Proof.
  pose proof (PostConsume_run id delta w) as H. case_run H; [|done].
  destruct H as [_ [[-> ->]|H]]; auto.
Qed.

Lemma PostConsume_total id delta s w :
  w_faults w = [] -> 0 < id -> delta <> 0 -> d_subs (w_db w) !! id = Some s ->
  (0 < s_AmountTotal s -> Z.max 0 (s_AmountUsed s + delta) <= s_AmountTotal s) ->
  PostConsumeUserSubscriptionDelta id delta w =
  (Ok tt, w <| w_db := put_sub (s <| s_AmountUsed := Z.max 0 (s_AmountUsed s + delta) |>
                                  <| s_UpdatedAt := w_now w |>) (w_db w) |>).
Proof.
  intros Hf Hid Hdz Hs Hlim. unfold PostConsumeUserSubscriptionDelta.
  assert ((id <=? 0) = false) as -> by (apply Z.leb_gt; lia).
  assert ((delta =? 0) = false) as -> by (by apply Z.eqb_neq). simpl.
  rewrite run_bind. simpl. erewrite Transaction_ok; [|done| |].
  2:{ unfold db_first, db_find, SaveSub, GetTimestamp, db_exec. run_unfold.
      rewrite ext_call_ok by done. unfold view. simpl. rewrite Hs. simpl.
      assert (Hm : (if s_AmountUsed s + delta <? 0 then 0 else s_AmountUsed s + delta)
                   = Z.max 0 (s_AmountUsed s + delta)) by (destruct (_ <? 0) eqn:?; bools; lia).
      rewrite Hm.
      assert ((s_AmountTotal s >? 0) && (Z.max 0 (s_AmountUsed s + delta) >? s_AmountTotal s) = false) as ->.
      { destruct (s_AmountTotal s >? 0) eqn:Ht; [|done]. simpl. rewrite Z.gtb_ltb in *. bools.
        apply Z.ltb_ge. lia. }
      cbn. rewrite ext_call_ok by done. reflexivity. }
  - simpl. by destruct w.
  - done.
Qed.

Lemma Refund_total rid r s w :
  w_faults w = [] -> GoStrings.TrimSpace rid <> "" ->
  d_records (w_db w) !! rid = Some r -> r_Status r <> "refunded" -> 0 < r_PreConsumed r ->
  0 < r_UserSubscriptionId r -> d_subs (w_db w) !! r_UserSubscriptionId r = Some s -> row_ok s ->
  RefundSubscriptionPreConsume rid w =
  (Ok tt, w <| w_db := put_record (r <| r_Status := "refunded" |> <| r_UpdatedAt := w_now w |>)
     (put_sub (s <| s_AmountUsed := Z.max 0 (s_AmountUsed s - r_PreConsumed r) |>
                 <| s_UpdatedAt := w_now w |>) (w_db w)) |>).
Proof.
  intros Hf Hrid Hr Hst Hpre Hid Hs [Hu1 Hu2]. unfold RefundSubscriptionPreConsume.
  rewrite bool_decide_eq_false_2 by done. rewrite run_bind. simpl.
  erewrite Transaction_ok; [|done| |].
  2:{ unfold db_first, db_find. run_unfold. rewrite ext_call_ok by done.
      unfold view. simpl. rewrite Hr. simpl. rewrite decide_False by done.
      assert ((r_PreConsumed r <=? 0) = false) as -> by (apply Z.leb_gt; lia).
      rewrite (PostConsume_total _ _ s) by (simpl; try done; lia). simpl.
      unfold SaveRecord, GetTimestamp, db_exec. run_unfold. rewrite ext_call_ok by done. reflexivity. }
  - simpl. by destruct w.
  - done.
Qed.

Lemma Refund_again rid r w :
  w_faults w = [] -> GoStrings.TrimSpace rid <> "" ->
  d_records (w_db w) !! rid = Some r -> r_Status r = "refunded" ->
  RefundSubscriptionPreConsume rid w = (Ok tt, w).
Proof.
  intros Hf Hrid Hr Hst. unfold RefundSubscriptionPreConsume.
  rewrite bool_decide_eq_false_2 by done. rewrite run_bind. simpl.
  erewrite Transaction_ok; [|done| |].
  2:{ unfold db_first, db_find. run_unfold. rewrite ext_call_ok by done.
      unfold view. simpl. rewrite Hr. simpl. rewrite decide_True by done. reflexivity. }
  - simpl. by destruct w.
  - done.
Qed.

(** Pre-consume and refund cancel out when no call fails: after a request was
    charged to a subscription, refunding it succeeds, gives the subscription
    back exactly the used amount it had before, marks the request refunded, and
    refunding again changes nothing. *)
Theorem subscription_refund_roundtrip rid uid model qt amount w res w1 :
  subs_ok (w_db w) -> d_records (w_db w) !! rid = None -> map_Forall (fun id _ => 0 < id) (d_subs (w_db w)) ->
  PreConsumeUserSubscription rid uid model qt amount w = (Ok res, w1) ->
  w_faults w1 = [] ->
  exists w2, RefundSubscriptionPreConsume rid w1 = (Ok tt, w2) /\
    RefundSubscriptionPreConsume rid w2 = (Ok tt, w2) /\
    (exists s, d_subs (w_db w2) !! pr_UserSubscriptionId res = Some s /\
       s_AmountUsed s = pr_AmountUsedBefore res) /\
    (exists r, d_records (w_db w2) !! rid = Some r /\ r_Status r = "refunded" /\
       r_PreConsumed r = amount) /\
    (forall id, id <> pr_UserSubscriptionId res ->
       sub_kept (d_subs (w_db w) !! id) (d_subs (w_db w2) !! id)) /\
    d_users (w_db w2) = d_users (w_db w).
Proof.
  intros Hd Hfresh Hpos Hrun Hf.
  assert (Hrid : GoStrings.TrimSpace rid <> "").
  { unfold PreConsumeUserSubscription in Hrun. do 2 (inv_bind Hrun; apply guard_err_inv in E as [? ->]).
    by bools. }
  pose proof (PreConsume_inv rid uid model qt amount w Hd Hfresh) as H. rewrite Hrun in H.
  destruct H as (Ha & c & Hc & _ & _ & Hres & Hb & Hlim & (s' & Hs' & Hu & Hid' & _ & Ht & _) & Hk & Hr & Hrest).
  set (r := mkPreRecord rid uid (s_Id c) amount "consumed" (w_now w) (w_now w)) in *.
  assert (Hr1 : d_records (w_db w1) !! rid = Some r) by (rewrite Hr; apply lookup_insert_eq).
  assert (Hafter : pr_AmountUsedAfter res = pr_AmountUsedBefore res + amount) by (by rewrite Hres at 1).
  assert (Hsid : pr_UserSubscriptionId res = s_Id c) by (by rewrite Hres).
  assert (Hb0 : 0 <= pr_AmountUsedBefore res).
  { destruct (subs_ok_lookup _ _ _ Hd Hc) as [_ [Hc0 _]]. lia. }
  assert (Hrow : row_ok s') by (split; [lia|rewrite Ht, Hu; lia]).
  pose proof (Refund_total rid r s' w1 Hf Hrid Hr1 ltac:(discriminate) Ha (Hpos _ _ Hc) Hs' Hrow) as Href.
  rewrite Href. eexists. split; [reflexivity|]. rewrite Hsid. simpl.
  split; [|split; [|split; [|split]]].
  - eapply Refund_again; [exact Hf|exact Hrid| |]; [simpl; by apply lookup_insert_eq|done].
  - eexists. rewrite Hid', lookup_insert_eq. split; [done|]. simpl. lia.
  - eexists. rewrite lookup_insert_eq. done.
  - intros id Hne. rewrite Hid', lookup_insert_ne by done. by apply Hk.
  - apply Hrest.
Qed.

Lemma subscription_refund_roundtrip_witness :
  exists w1 w2, PreConsumeUserSubscription "req" 1 "m" 0 200 sample_world
                = (Ok (mkPreResult 5 200 1000 100 300), w1) /\
    RefundSubscriptionPreConsume "req" w1 = (Ok tt, w2) /\
    exists s, d_subs (w_db w2) !! 5 = Some s /\ s_AmountUsed s = 100.
Proof.
  destruct (PreConsumeUserSubscription "req" 1 "m" 0 200 sample_world) as [r1 w1] eqn:E1.
  assert (Hf : w_faults w1 = []) by (change w1 with (r1, w1).2; rewrite <- E1; reflexivity).
  assert (r1 = Ok (mkPreResult 5 200 1000 100 300)) as ->
    by (change r1 with (r1, w1).1; rewrite <- E1; reflexivity).
  destruct (subscription_refund_roundtrip "req" 1 "m" 0 200 sample_world _ w1 sample_subs_ok
    ltac:(reflexivity) ltac:(apply map_Forall_singleton; lia) E1 Hf) as (w2 & H1 & _ & H2 & _).
  exists w1, w2. split; [reflexivity|]. split; [exact H1|exact H2].
Defined.

(** Refunding can credit a subscription twice.  The refund calls
    PostConsumeUserSubscriptionDelta, which commits on its own connection; when
    the surrounding transaction then fails to commit, the record still says
    consumed, and the retry the billing session makes credits the same 200
    units again: the used amount drops from 500 to 100 instead of 300. *)
Theorem refund_credits_twice :
  let w := sample_consumed_world
             <| w_db := w_db sample_consumed_world
                          <| d_subs := {[5 := (sample_sub <| s_AmountUsed := 500 |> : UserSubscription)]} |> |>
             <| w_faults := [None; None; None; None; None; None; None; Some "commit failed"] |> in
  let '(r1, w1) := RefundSubscriptionPreConsume "req" w in
  let '(r2, w2) := RefundSubscriptionPreConsume "req" w1 in
  r1 = Err (ErrDB "commit failed") /\ r2 = Ok tt /\ w_faults w1 = [] /\
  (s_AmountUsed <$> d_subs (w_db w) !! 5) = Some 500 /\
  (s_AmountUsed <$> d_subs (w_db w1) !! 5) = Some 300 /\
  (s_AmountUsed <$> d_subs (w_db w2) !! 5) = Some 100.
Proof. vm_compute. repeat split. Qed.

(** ** Progress *)

(** Plans that can be looked up, with a reset period that fits a Duration. *)
Definition plan_known (w : World) (id : Z) : Prop :=
  0 < id /\ (is_Some (w_plan_cache w !! id) \/ is_Some (d_plans (view HTX w) !! id)).
Definition plans_ok (w : World) : Prop :=
  map_Forall (fun _ p => reset_seconds_ok p) (w_plan_cache w) /\
  map_Forall (fun _ p => reset_seconds_ok p) (d_plans (view HTX w)).

Lemma cache_call_quiet w : w_faults w = [] -> cache_call w = (Ok tt, w).
Proof. intros Hf. unfold cache_call. run_unfold. destruct (RedisEnabled _); [by apply ext_call_ok|done]. Qed.

Lemma getPlan_quiet id w :
  w_faults w = [] -> plan_known w id -> plans_ok w ->
  exists p w', getSubscriptionPlanByIdTx HTX id w = (Ok p, w') /\ w_faults w' = [] /\
    reset_seconds_ok p /\ same_tables w w' /\ plans_ok w' /\
    (forall i, is_Some (w_plan_cache w !! i) -> is_Some (w_plan_cache w' !! i)).
Proof.
  intros Hf [Hid Hk] [Hc Hd]. unfold getSubscriptionPlanByIdTx.
  assert ((id <=? 0) = false) as -> by (apply Z.leb_gt; lia).
  rewrite run_bind. cbn [guard_err]. rewrite run_ret. unfold plan_cache_get. rewrite run_bind.
  assert (Hget : (r ← attempt (E' := error) cache_call;
    match r with Ok _ => gets (fun w => w_plan_cache w !! id) | Err _ => mret None end) w
    = (Ok (w_plan_cache w !! id), w)).
  { rewrite run_bind. unfold attempt. by rewrite cache_call_quiet. }
  rewrite Hget. destruct (w_plan_cache w !! id) as [p|] eqn:Ep.
  - exists (NormalizeDefaults p), w. split; [done|]. split; [done|].
    split; [apply (Hc id p Ep)|]. split; [split; [done|done]|]. by split.
  - destruct Hk as [[p Hp]|[p Hp]]; [congruence|].
    unfold db_first, db_find. rewrite !run_bind, ext_call_ok by done. cbn [gets]. rewrite Hp.
    rewrite run_ret, run_bind. unfold plan_cache_set, ignore_err. rewrite run_bind, cache_call_quiet by done.
    cbn [modify]. eexists _, _. split; [reflexivity|]. split; [done|].
    split; [apply (Hd id p Hp)|]. split; [by split|]. split.
    + split; [|done]. simpl. apply map_Forall_insert_2; [|done]. apply (Hd id p Hp).
    + intros i Hi. simpl. destruct (decide (i = id)) as [->|]; [by rewrite lookup_insert_eq|].
      by rewrite lookup_insert_ne.
Qed.

Lemma reset_plan_total tz sub plan now :
  reset_seconds_ok plan -> 0 <= now -> exists r, reset_plan tz sub plan now = Ok r.
Proof.
  intros Hok Hnow. unfold reset_plan. destruct (_ && _); [by eexists|].
  destruct (decide _); [by eexists|].
  set (b := if s_LastResetTime sub <=? 0 then _ else _).
  destruct (catch_up_loop tz plan (s_EndTime sub) now b Hok Hnow) as (b' & nx & adv & -> & _).
  destruct (negb adv); [destruct (_ && _)|]; by eexists.
Qed.

Lemma SaveSub_quiet s w :
  w_faults w = [] -> exists w', SaveSub HTX s w = (Ok tt, w') /\ w_faults w' = [] /\
    w_plan_cache w' = w_plan_cache w.
Proof.
  intros Hf. unfold SaveSub, GetTimestamp, db_exec. run_unfold. rewrite ext_call_ok by done.
  eexists. by split.
Qed.

Lemma maybeReset_quiet sub plan now w :
  w_faults w = [] -> reset_seconds_ok plan -> 0 <= now ->
  exists sub' w', maybeResetUserSubscriptionWithPlanTx HTX sub plan now w = (Ok sub', w') /\
    w_faults w' = [] /\ w_plan_cache w' = w_plan_cache w.
Proof.
  intros Hf Hok Hnow. unfold maybeResetUserSubscriptionWithPlanTx. rewrite run_bind. cbn [gets].
  destruct (reset_plan_total (TimeZone (w_cfg w)) sub plan now Hok Hnow) as [r Hr].
  rewrite run_bind. unfold of_result. rewrite Hr. destruct r as [s'|]; [|by exists sub, w].
  destruct (SaveSub_quiet s' w Hf) as (w' & Hs & Hf' & Hc).
  erewrite run_bind_ok by apply Hs. by exists s', w'.
Qed.

Lemma CreateRecord_quiet r w :
  w_faults w = [] -> d_records (view HTX w) !! r_RequestId r = None ->
  exists w', CreateRecord HTX r w = (Ok tt, w') /\ w_faults w' = [].
Proof.
  intros Hf Hr. unfold CreateRecord, GetTimestamp, db_find.
  rewrite run_bind. cbn [gets]. rewrite !run_bind, ext_call_ok by done. cbn [gets]. rewrite Hr.
  eexists. split; [reflexivity|done].
Qed.

Lemma consume_from_quiet rid uid amount sub w :
  w_faults w = [] -> d_records (view HTX w) !! rid = None ->
  exists res w', consume_from rid uid amount sub w = (Ok res, w') /\ w_faults w' = [].
Proof.
  intros Hf Hr. unfold consume_from.
  set (r := mkPreRecord _ _ _ _ _ _ _).
  destruct (CreateRecord_quiet r w Hf Hr) as (w1 & Hc & Hf1).
  assert (Ha : attempt (E' := error) (CreateRecord HTX r) w = (Ok (Ok tt), w1))
    by (unfold attempt; by rewrite Hc).
  erewrite run_bind_ok by apply Ha.
  destruct (SaveSub_quiet (sub <| s_AmountUsed := s_AmountUsed sub + amount |>) w1 Hf1)
    as (w' & Hs & Hf' & _).
  erewrite run_bind_ok by apply Hs. eexists _, _. split; [reflexivity|done].
Qed.

Lemma lacks_kept sub sub' amount :
  row_ok sub -> sub_kept (Some sub) (Some sub') -> lacks sub amount = false -> lacks sub' amount = false.
Proof.
  intros [Hu _] Hk. destruct Hk as [[= ->]|(s & s' & [= <-] & [= <-] & _ & _ & _ & _ & _ & Ht & Hused)];
    [done|].
  unfold lacks. rewrite Ht. destruct (s_AmountTotal sub >? 0); simpl; [|done].
  intros H. bools. apply Z.ltb_ge. lia.
Qed.

Lemma try_candidates_quiet rid uid amount now subs w :
  w_faults w = [] -> 0 <= now -> Forall row_ok subs -> NoDup (s_Id <$> subs) ->
  Forall (fun c => d_subs (view HTX w) !! s_Id c = Some c) subs ->
  d_records (view HTX w) !! rid = None -> plans_ok w ->
  Forall (fun c => plan_known w (s_PlanId c)) subs ->
  Exists (fun c => lacks c amount = false) subs ->
  exists res w', try_candidates rid uid amount now subs w = (Ok res, w') /\ w_faults w' = [].
Proof.
  revert w. induction subs as [|c rest IH]; intros w Hf Hnow Hok Hnd Hrows Hfresh Hpl Hkn Hex;
    [by apply Exists_nil in Hex|].
  apply Forall_cons in Hok as [Hc Hok], Hrows as [Hrow Hrows], Hkn as [Hk Hkn].
  rewrite fmap_cons in Hnd. apply NoDup_cons in Hnd as [Hnin Hnd]. simpl.
  destruct (getPlan_quiet (s_PlanId c) w Hf Hk Hpl) as (p & w0 & E0 & Hf0 & Hp & Hsame & Hpl0 & Hcache).
  erewrite run_bind_ok by apply E0.
  pose proof (same_tables_view HTX _ _ Hsame) as Hv0. rewrite <- Hv0 in Hrow, Hrows, Hfresh.
  destruct (maybeReset_quiet c p now w0 Hf0 Hp Hnow) as (sub & w1 & E1 & Hf1 & Hc1).
  erewrite run_bind_ok by apply E1.
  destruct (maybeReset_inv _ _ _ _ _ _ Hc Hrow E1) as (Hok' & _ & Hrec & Hrest & Hoth & Hkc & _).
  destruct (lacks sub amount) eqn:Hl; [|apply consume_from_quiet; [done|by rewrite Hrec]].
  apply Exists_cons in Hex as [Hlc|Hex]; [by rewrite (lacks_kept c sub) in Hl|].
  destruct Hrest as (_ & _ & Hplans & _). apply IH; try done.
  - apply Forall_forall. intros x Hx. rewrite Forall_forall in Hrows.
    rewrite Hoth; [by apply Hrows|]. intros Heq. apply Hnin. rewrite <- Heq.
    by apply list_elem_of_fmap_2.
  - by rewrite Hrec.
  - destruct Hpl0 as [H1 H2]. split; [by rewrite Hc1|by rewrite Hplans].
  - eapply Forall_impl; [exact Hkn|]. intros x [Hx1 Hx2]. split; [done|].
    rewrite Hc1, Hplans, Hv0. destruct Hx2; [left; by apply Hcache|by right].
Qed.

(** A pre-consume succeeds whenever it can: if no call fails, the request is
    new and well formed, the plans of the user's active subscriptions exist, and
    some active subscription has room for the amount, the call returns a result
    (the search does not stop at a subscription that is full). *)
Theorem PreConsumeUserSubscription_progress rid uid model qt amount w :
  w_faults w = [] -> 0 < w_now w -> subs_ok (w_db w) -> d_records (w_db w) !! rid = None ->
  GoStrings.TrimSpace rid <> "" -> 0 < uid -> 0 < amount ->
  map_Forall (fun _ p => reset_seconds_ok p) (w_plan_cache w) ->
  map_Forall (fun _ p => reset_seconds_ok p) (d_plans (w_db w)) ->
  (forall id s, d_subs (w_db w) !! id = Some s ->
     0 < s_PlanId s /\ is_Some (d_plans (w_db w) !! s_PlanId s)) ->
  (exists id s, d_subs (w_db w) !! id = Some s /\
     active_for uid (if w_dbnow w <=? 0 then w_now w else w_dbnow w) s = true /\ lacks s amount = false) ->
  exists res w', PreConsumeUserSubscription rid uid model qt amount w = (Ok res, w').
Proof.
  intros Hf Hn Hd Hfresh Hrid Hu Ha Hpc Hpd Hplans (id0 & s0 & Hs0 & Hact0 & Hl0).
  unfold PreConsumeUserSubscription.
  assert ((uid <=? 0) = false) as -> by (apply Z.leb_gt; lia).
  assert ((amount <=? 0) = false) as -> by (apply Z.leb_gt; lia).
  rewrite bool_decide_eq_false_2 by done. cbn [guard_err]. rewrite !run_bind, !run_ret.
  rewrite run_bind, run_ret, run_bind, run_ret, run_bind.
  set (now := if w_dbnow w <=? 0 then w_now w else w_dbnow w) in *.
  assert (Hnow : 0 <= now) by (unfold now; destruct (_ <=? 0) eqn:?; bools; lia).
  assert (GetDBTimestamp w = (Ok now, w)) as ->.
  { unfold GetDBTimestamp. run_unfold. by rewrite ext_call_ok. }
  set (w0 := w <| w_log := [] |>). assert (Hv : view HTX w0 = w_db w) by done.
  destruct (candidates_rows uid now (w_db w) Hd) as (Hok & Hnd & Hrows).
  set (subs := order_by end_asc (where_subs (active_for uid now) (w_db w))) in *.
  assert (Hin : s0 ∈ subs) by (unfold subs; rewrite ordered_subs_elem; eauto).
  destruct (try_candidates_quiet rid uid amount now subs w0) as (res & w1 & Hrun & Hf1); try done.
  { apply Forall_forall. intros c. unfold subs. rewrite ordered_subs_elem. intros [_ [id Hc]].
    destruct (Hplans id c Hc). split; [done|]. by right. }
  { apply Exists_exists. by exists s0. }
  assert (Htx : pre_consume_tx rid uid amount now w0 = (Ok res, w1)).
  { unfold pre_consume_tx, db_find. rewrite !run_bind, ext_call_ok by done. cbn [gets].
    rewrite Hv, Hfresh. rewrite run_bind. unfold map_err. rewrite run_bind, ext_call_ok by done.
    cbn [gets]. rewrite Hv. fold subs. rewrite run_bind, bool_decide_eq_false_2; [done|].
    intros Hnil. rewrite Hnil in Hin. set_solver. }
  rewrite (Transaction_ok _ w (Ok res) w1 Hf Htx Hf1). eauto.
Qed.

Lemma PreConsumeUserSubscription_progress_witness :
  exists res w', PreConsumeUserSubscription "req" 1 "m" 0 200 sample_world = (Ok res, w').
Proof.
  apply (PreConsumeUserSubscription_progress "req" 1 "m" 0 200 sample_world);
    [reflexivity|reflexivity|exact sample_subs_ok|reflexivity|vm_compute; discriminate|lia|lia| | | |].
  - apply map_Forall_empty.
  - apply map_Forall_singleton. reflexivity.
  - intros id s Hs. apply (lookup_singleton_Some 5 id sample_sub s) in Hs as [<- <-].
    split; [reflexivity|]. by exists sample_plan.
  - exists 5, sample_sub. repeat split; reflexivity.
Defined.
