(* ===== verification/SubscriptionOrder.v ===== *)
(** * Subscription orders and administration (src/model/subscription.go)

    Creating a subscription from a plan, completing and expiring orders, buying
    with the wallet, admin operations, and the expiry task. *)

From S2P Require Import Prelude GoStd GoFloat QuotaMath World Sample ModelUtils UserModel SubscriptionTime Subscription SubscriptionProofs.

Definition ErrSubscriptionOrderNotFound : error := ErrNew "subscription order not found".
Definition ErrSubscriptionOrderStatusInvalid : error := ErrNew "subscription order status invalid".
Definition ErrPaymentMethodMismatch : error := ErrNew "payment method mismatch".

Definition TopUpStatusPending : string := "pending".
Definition TopUpStatusSuccess : string := "success".
Definition TopUpStatusExpired : string := "expired".
Definition PaymentMethodBalance : string := "balance".
Definition PaymentProviderBalance : string := "balance".

(** ** Users' groups *)

Definition select_group (userId : Z) (d : DB) : string :=
  match live_user d userId with Some u => u_Group u | None => "" end.

Definition getUserGroupByIdTx (h : handle) (userId : Z) : MW string :=
  guard_err (userId <=? 0) (ErrNew "invalid userId") ;;
  db_find h (select_group userId).

Definition set_group (group : string) (u : User) : User := u <| u_Group := group |>.
Definition UpdateGroupTx (h : handle) (userId : Z) (group : string) : MW bool :=
  db_update h (has_user userId) (update_user userId (set_group group)).

Definition UpdateUserGroupCache (userId : Z) (group : string) : MW unit :=
  updateUserGroupCache userId group.

Definition other_upgrade (sub : UserSubscription) (now : Z) (s : UserSubscription) : bool :=
  active_for (s_UserId sub) now s && negb (s_Id s =? s_Id sub)
  && negb (bool_decide (s_UpgradeGroup s = "")).

Definition downgradeUserGroupForSubscriptionTx (sub : UserSubscription) (now : Z) : MW string :=
  let downgradeGroup := GoStrings.TrimSpace (s_DowngradeGroup sub) in
  let upgradeGroup := GoStrings.TrimSpace (s_UpgradeGroup sub) in
  if decide (downgradeGroup = "" /\ upgradeGroup = "") then mret ""
  else
    currentGroup ← getUserGroupByIdTx HTX (s_UserId sub);
    active ← attempt (db_find HTX (fun d => where_subs (other_upgrade sub now) d));
    match active with
    | Ok (_ :: _) => mret ""
    | _ =>
        if decide (downgradeGroup = "" /\ currentGroup <> upgradeGroup) then mret ""
        else
          let target := if decide (downgradeGroup = "")
                        then GoStrings.TrimSpace (s_PrevUserGroup sub) else downgradeGroup in
          if decide (target = "" \/ target = currentGroup) then mret ""
          else UpdateGroupTx HTX (s_UserId sub) target ;; mret target
    end.

(** ** Creating a subscription *)

Definition plan_purchases (userId planId : Z) (d : DB) : Z :=
  Z.of_nat (length (where_subs (fun s => (s_UserId s =? userId) && (s_PlanId s =? planId)) d)).

(** The subscription group the plan upgrades to, with the group it replaces. *)
Definition upgrade_group (userId : Z) (upgradeGroup : string) : MW string :=
  if decide (upgradeGroup = "") then mret ""
  else
    currentGroup ← getUserGroupByIdTx HTX userId;
    if decide (currentGroup = upgradeGroup) then mret ""
    else UpdateGroupTx HTX userId upgradeGroup ;; mret currentGroup.

Definition new_subscription (userId : Z) (plan : SubscriptionPlan) (source : string)
    (nowUnix endUnix nextReset : Z) (upgradeGroup prevGroup : string) (stamp id : Z)
    : UserSubscription :=
  mkSub id userId (p_Id plan) (p_TotalAmount plan) 0 nowUnix endUnix "active" source
    (if nextReset >? 0 then nowUnix else 0) nextReset upgradeGroup prevGroup
    (GoStrings.TrimSpace (p_DowngradeGroup plan)) (default true (p_AllowWalletOverflow plan))
    stamp stamp.

Definition CreateUserSubscriptionFromPlanTx (userId : Z) (plan : SubscriptionPlan) (source : string)
    : MW UserSubscription :=
  guard_err (p_Id plan =? 0) (ErrNew "invalid plan") ;;
  guard_err (userId <=? 0) (ErrNew "invalid user id") ;;
  (if p_MaxPurchasePerUser plan >? 0 then
     count ← db_find HTX (plan_purchases userId (p_Id plan));
     guard_err (count >=? p_MaxPurchasePerUser plan) (ErrNew "已达到该套餐购买上限")
   else mret tt) ;;
  nowUnix ← GetDBTimestamp;
  tz ← gets (fun w => TimeZone (w_cfg w));
  endUnix ← of_result (calcPlanEndTime tz nowUnix plan);
  let nextReset := calcNextResetTime tz nowUnix plan endUnix in
  let upgradeGroup := GoStrings.TrimSpace (p_UpgradeGroup plan) in
  prevGroup ← upgrade_group userId upgradeGroup;
  stamp ← GetTimestamp;
  id ← next_id;
  let sub := new_subscription userId plan source nowUnix endUnix nextReset upgradeGroup prevGroup
               stamp id in
  db_exec HTX (put_sub sub) ;;
  mret sub.

(** ** Orders *)

Definition put_order (o : SubscriptionOrder) (d : DB) : DB :=
  d <| d_orders := <[o_TradeNo o := o]> (d_orders d) |>.
Definition put_topup (t : TopUp) (d : DB) : DB :=
  d <| d_topups := <[tu_TradeNo t := t]> (d_topups d) |>.
(** Create: trade_no is a unique index. *)
Definition CreateOrder (h : handle) (o : SubscriptionOrder) : MW unit :=
  old ← db_find h (fun d => d_orders d !! o_TradeNo o);
  match old with
  | Some _ => fail ErrDuplicatedKey
  | None => modify (exec_write h (put_order o))
  end.

Definition InsertOrder (o : SubscriptionOrder) : MW unit :=
  now ← GetTimestamp;
  CreateOrder HDB (if o_CreateTime o =? 0 then o <| o_CreateTime := now |> else o).

Definition GetSubscriptionOrderByTradeNo (tradeNo : string) : MW (option SubscriptionOrder) :=
  if decide (tradeNo = "") then mret None
  else
    r ← attempt (db_first HDB (fun d => d_orders d !! tradeNo));
    mret (match r with Ok o => Some o | Err _ => None end).

Definition upsertSubscriptionTopUpTx (order : SubscriptionOrder) : MW unit :=
  now ← GetTimestamp;
  old ← db_find HTX (fun d => d_topups d !! o_TradeNo order);
  match old with
  | None =>
      db_exec HTX (put_topup (mkTopUp (o_UserId order) 0 (o_Money order) (o_TradeNo order)
        (o_PaymentMethod order) "" (o_CreateTime order) now TopUpStatusSuccess))
  | Some topup =>
      guard_err (negb (bool_decide (tu_PaymentMethod topup = ""))
                 && negb (bool_decide (tu_PaymentMethod topup = o_PaymentMethod order)))
        ErrPaymentMethodMismatch ;;
      db_exec HTX (put_topup (topup
        <| tu_Money := o_Money order |> <| tu_PaymentMethod := o_PaymentMethod order |>
        <| tu_CreateTime := if tu_CreateTime topup =? 0 then o_CreateTime order
                            else tu_CreateTime topup |>
        <| tu_CompleteTime := now |> <| tu_Status := TopUpStatusSuccess |>))
  end.

Definition find_order (tradeNo : string) : MW SubscriptionOrder :=
  map_err (fun _ => ErrSubscriptionOrderNotFound)
    (db_first HTX (fun d => d_orders d !! tradeNo)).

Definition provider_mismatch (expected : string) (o : SubscriptionOrder) : bool :=
  negb (bool_decide (expected = "")) && negb (bool_decide (o_PaymentProvider o = expected)).

Definition completed_order (o : SubscriptionOrder) (payload actualMethod : string) (now : Z)
    : SubscriptionOrder :=
  o <| o_Status := TopUpStatusSuccess |> <| o_CompleteTime := now |>
    <| o_ProviderPayload := if decide (payload = "") then o_ProviderPayload o else payload |>
    <| o_PaymentMethod := if decide (actualMethod = "") then o_PaymentMethod o else actualMethod |>.

(** The body returns the user and the group whose cache entry has to follow. *)
Definition complete_order_tx (tradeNo payload expectedProvider actualMethod : string)
    : MW (option (Z * string)) :=
  order ← find_order tradeNo;
  guard_err (provider_mismatch expectedProvider order) ErrPaymentMethodMismatch ;;
  if decide (o_Status order = TopUpStatusSuccess) then mret None
  else
    guard_err (negb (bool_decide (o_Status order = TopUpStatusPending)))
      ErrSubscriptionOrderStatusInvalid ;;
    plan ← GetSubscriptionPlanById (o_PlanId order);
    CreateUserSubscriptionFromPlanTx (o_UserId order) plan "order" ;;
    upsertSubscriptionTopUpTx order ;;
    now ← GetTimestamp;
    db_exec HTX (put_order (completed_order order payload actualMethod now)) ;;
    mret (Some (o_UserId order, GoStrings.TrimSpace (p_UpgradeGroup plan))).

Definition CompleteSubscriptionOrder (tradeNo providerPayload expectedPaymentProvider
    actualPaymentMethod : string) : MW unit :=
  guard_err (bool_decide (tradeNo = "")) (ErrNew "tradeNo is empty") ;;
  r ← Transaction (complete_order_tx tradeNo providerPayload expectedPaymentProvider
                     actualPaymentMethod);
  match r with
  | Some (logUserId, upgradeGroup) =>
      if negb (bool_decide (upgradeGroup = "")) && (logUserId >? 0)
      then ignore_err (UpdateUserGroupCache logUserId upgradeGroup) else mret tt
  | None => mret tt
  end.

Definition ExpireSubscriptionOrder (tradeNo expectedPaymentProvider : string) : MW unit :=
  guard_err (bool_decide (tradeNo = "")) (ErrNew "tradeNo is empty") ;;
  Transaction (
    order ← find_order tradeNo;
    guard_err (provider_mismatch expectedPaymentProvider order) ErrPaymentMethodMismatch ;;
    if decide (o_Status order <> TopUpStatusPending) then mret tt
    else
      now ← GetTimestamp;
      db_exec HTX (put_order (order <| o_Status := TopUpStatusExpired |>
                                    <| o_CompleteTime := now |>))).

(** ** Wallet purchase *)

Section purchase.
Context `{Decimal D}.

Definition calcSubscriptionBalanceQuota (QuotaPerUnit priceAmount : F64.float64) : result error Z :=
  if F64.leb priceAmount F64.zero then Ok 0
  else if F64.leb QuotaPerUnit F64.zero then Err (ErrNew "额度单位配置错误")
  else Ok (dIntPart (dCeil (dMul (NewFromFloat (D := D) priceAmount) (NewFromFloat QuotaPerUnit)))).

(** [tradeNo] is the trade number drawn for the order: user id, random letters
    and the clock. *)
Definition purchase_tx (userId planId : Z) (tradeNo : string) : MW (Z * string) :=
  plan ← getSubscriptionPlanByIdTx HTX planId;
  guard_err (negb (p_Enabled plan)) (ErrNew "套餐未启用") ;;
  guard_err (F64.ltb (p_PriceAmount plan) F64.zero) (ErrNew "套餐价格不能为负数") ;;
  guard_err (bool_decide (p_AllowBalancePay plan = Some false)) (ErrNew "该套餐不允许使用余额兑换") ;;
  perUnit ← gets (fun w => QuotaPerUnit (w_cfg w));
  requiredQuota ← of_result (calcSubscriptionBalanceQuota perUnit (p_PriceAmount plan));
  user ← db_first HTX (fun d => live_user d userId);
  guard_err ((requiredQuota >? 0) && (u_Quota user <? requiredQuota)) (ErrNew "余额不足") ;;
  (if requiredQuota >? 0 then
     db_update HTX (has_user userId)
       (update_user userId (fun u => u <| u_Quota := u_Quota u - requiredQuota |>)) ;; mret tt
   else mret tt) ;;
  CreateUserSubscriptionFromPlanTx userId plan PaymentMethodBalance ;;
  now ← GetTimestamp;
  CreateOrder HTX (mkOrder userId (p_Id plan) (p_PriceAmount plan) tradeNo PaymentMethodBalance
    PaymentProviderBalance TopUpStatusSuccess now now ("charged_quota=" +:+ pretty requiredQuota)) ;;
  mret (requiredQuota, GoStrings.TrimSpace (p_UpgradeGroup plan)).

Definition PurchaseSubscriptionWithBalance (userId planId : Z) (tradeNo : string) : MW unit :=
  guard_err ((userId <=? 0) || (planId <=? 0)) (ErrNew "invalid userId or planId") ;;
  '(chargedQuota, upgradeGroup) ← Transaction (purchase_tx userId planId tradeNo);
  (if chargedQuota >? 0 then ignore_err (cacheDecrUserQuota userId chargedQuota) else mret tt) ;;
  if decide (upgradeGroup = "") then mret tt
  else ignore_err (UpdateUserGroupCache userId upgradeGroup).
End purchase.

(** ** Administration *)

Definition AdminBindSubscription (userId planId : Z) (sourceNote : string) : MW string :=
  guard_err ((userId <=? 0) || (planId <=? 0)) (ErrNew "invalid userId or planId") ;;
  plan ← GetSubscriptionPlanById planId;
  Transaction (CreateUserSubscriptionFromPlanTx userId plan "admin") ;;
  if decide (GoStrings.TrimSpace (p_UpgradeGroup plan) = "") then mret ""
  else
    ignore_err (UpdateUserGroupCache userId (p_UpgradeGroup plan)) ;;
    mret ("用户分组将升级到 " +:+ p_UpgradeGroup plan).

(** After a downgrade: the cache follows and the message names the group. *)
Definition report_downgrade (userId : Z) (group : string) : MW string :=
  if decide (group = "") then mret ""
  else
    (if userId >? 0 then ignore_err (UpdateUserGroupCache userId group) else mret tt) ;;
    mret ("用户分组将回退到 " +:+ group).

Definition cancel_sub (now : Z) (s : UserSubscription) : UserSubscription :=
  s <| s_Status := "cancelled" |> <| s_EndTime := now |> <| s_UpdatedAt := now |>.

Definition AdminInvalidateUserSubscription (userSubscriptionId : Z) : MW string :=
  guard_err (userSubscriptionId <=? 0) (ErrNew "invalid userSubscriptionId") ;;
  now ← GetTimestamp;
  '(userId, group) ← Transaction (
    sub ← db_first HTX (fun d => d_subs d !! userSubscriptionId);
    db_exec HTX (fun d => d <| d_subs := alter (cancel_sub now) (s_Id sub) (d_subs d) |>) ;;
    target ← downgradeUserGroupForSubscriptionTx sub now;
    mret (s_UserId sub, target));
  report_downgrade userId group.

Definition AdminDeleteUserSubscription (userSubscriptionId : Z) : MW string :=
  guard_err (userSubscriptionId <=? 0) (ErrNew "invalid userSubscriptionId") ;;
  now ← GetTimestamp;
  '(userId, group) ← Transaction (
    sub ← db_first HTX (fun d => d_subs d !! userSubscriptionId);
    target ← downgradeUserGroupForSubscriptionTx sub now;
    db_exec HTX (fun d => d <| d_subs := delete userSubscriptionId (d_subs d) |>) ;;
    mret (s_UserId sub, target));
  report_downgrade userId group.

Definition resetUserSubscriptionTx (sub : UserSubscription) (plan : SubscriptionPlan) (now : Z)
    (advanceResetTime : bool) : MW unit :=
  tz ← gets (fun w => TimeZone (w_cfg w));
  let sub := sub <| s_AmountUsed := 0 |> in
  let nextReset := calcNextResetTime tz now plan (s_EndTime sub) in
  SaveSub HTX (if advanceResetTime
    then sub <| s_NextResetTime := nextReset |>
             <| s_LastResetTime := if nextReset >? 0 then now else 0 |>
    else sub).

Record SubscriptionResetResult := mkResetResult {
  rr_PlanId : Z;
  rr_MatchedCount : Z;
  rr_ResetCount : Z;
  rr_UserCount : Z;
  rr_AdvanceResetTime : bool;
  rr_PlanTitle : string;
  rr_AffectedUserIds : list Z;
}.

(** The user ids in order of first appearance. *)
Fixpoint unique_users (subs : list UserSubscription) (seen : list Z) : list Z :=
  match subs with
  | [] => []
  | s :: rest =>
      if decide (s_UserId s ∈ seen) then unique_users rest seen
      else s_UserId s :: unique_users rest (s_UserId s :: seen)
  end.

Definition buildSubscriptionResetResult (plan : SubscriptionPlan) (subs : list UserSubscription)
    (advanceResetTime : bool) : SubscriptionResetResult :=
  let userIds := unique_users subs [] in
  mkResetResult (p_Id plan) (Z.of_nat (length subs)) (Z.of_nat (length subs))
    (Z.of_nat (length userIds)) advanceResetTime (p_Title plan) userIds.

Definition adminResetUserSubscriptionsByPlanTx (userId : Z) (plan : SubscriptionPlan) (now : Z)
    (advanceResetTime : bool) : MW SubscriptionResetResult :=
  subs ← db_find HTX (fun d => order_by end_asc (where_subs (fun s =>
    active_for userId now s && (s_PlanId s =? p_Id plan)) d));
  guard_err (bool_decide (subs = [])) (ErrNew "该用户没有有效的此套餐订阅") ;;
  forM_ subs (fun s => resetUserSubscriptionTx s plan now advanceResetTime) ;;
  mret (buildSubscriptionResetResult plan subs advanceResetTime).

Definition adminResetPlanSubscriptionsTx (plan : SubscriptionPlan) (now : Z)
    (advanceResetTime : bool) : MW SubscriptionResetResult :=
  subs ← db_find HTX (fun d => order_by (fun s => [s_UserId s; s_EndTime s; s_Id s])
    (where_subs (fun s => active_for (s_UserId s) now s && (s_PlanId s =? p_Id plan)) d));
  forM_ subs (fun s => resetUserSubscriptionTx s plan now advanceResetTime) ;;
  mret (buildSubscriptionResetResult plan subs advanceResetTime).

Definition AdminResetUserSubscriptionsByPlan (userId planId : Z) (advanceResetTime : bool)
    : MW SubscriptionResetResult :=
  guard_err ((userId <=? 0) || (planId <=? 0)) (ErrNew "invalid userId or planId") ;;
  now ← GetDBTimestamp;
  Transaction (
    plan ← getSubscriptionPlanByIdTx HTX planId;
    adminResetUserSubscriptionsByPlanTx userId plan now advanceResetTime).

Definition AdminResetPlanSubscriptions (planId : Z) (advanceResetTime : bool)
    : MW SubscriptionResetResult :=
  guard_err (planId <=? 0) (ErrNew "invalid planId") ;;
  now ← GetDBTimestamp;
  Transaction (
    plan ← getSubscriptionPlanByIdTx HTX planId;
    adminResetPlanSubscriptionsTx plan now advanceResetTime).

(** ** The expiry task *)

Definition due (now : Z) (s : UserSubscription) : bool :=
  bool_decide (s_Status s = "active") && (s_EndTime s >? 0) && (s_EndTime s <=? now).

Definition expire_row (userId now stamp : Z) (s : UserSubscription) : UserSubscription :=
  if (s_UserId s =? userId) && due now s
  then s <| s_Status := "expired" |> <| s_UpdatedAt := stamp |> else s.

(** UPDATE of the user's due rows; RowsAffected. *)
Definition expire_rows (userId now : Z) : MW Z :=
  stamp ← GetTimestamp;
  n ← db_find HTX (fun d => Z.of_nat (length
        (where_subs (fun s => (s_UserId s =? userId) && due now s) d)));
  modify (exec_write HTX (fun d => d <| d_subs := expire_row userId now stamp <$> d_subs d |>)) ;;
  mret n.

(** The group change after the rows of a user expired. *)
Definition expire_downgrade (userId now : Z) : MW string :=
  active ← attempt (db_find HTX (fun d => where_subs (fun s =>
    active_for userId now s && negb (bool_decide (s_UpgradeGroup s = ""))) d));
  match active with
  | Ok (_ :: _) => mret ""
  | _ =>
      expired ← attempt (db_find HTX (fun d => order_by end_desc (where_subs (fun s =>
        (s_UserId s =? userId) && bool_decide (s_Status s = "expired")
        && (negb (bool_decide (s_DowngradeGroup s = "")) || negb (bool_decide (s_UpgradeGroup s = "")))) d)));
      match expired with
      | Ok (lastExpired :: _) =>
          currentGroup ← getUserGroupByIdTx HTX userId;
          let explicit := GoStrings.TrimSpace (s_DowngradeGroup lastExpired) in
          let upgradeGroup := GoStrings.TrimSpace (s_UpgradeGroup lastExpired) in
          let prevGroup := GoStrings.TrimSpace (s_PrevUserGroup lastExpired) in
          if decide (explicit = "" /\ (upgradeGroup = "" \/ prevGroup = "" \/ currentGroup <> upgradeGroup))
          then mret ""
          else
            let target := if decide (explicit = "") then prevGroup else explicit in
            if decide (target = "" \/ target = currentGroup) then mret ""
            else UpdateGroupTx HTX userId target ;; mret target
      | _ => mret ""
      end
  end.

Fixpoint expire_users (now : Z) (userIds : list Z) (expiredCount : Z) : MW (Z * option error) :=
  match userIds with
  | [] => mret (expiredCount, None)
  | userId :: rest =>
      '(n, r) ← TransactionC 0 (expire_rows userId now) (fun _ => expire_downgrade userId now);
      match r with
      | Err e => mret (expiredCount + n, Some e)
      | Ok cacheGroup =>
          (if decide (cacheGroup = "") then mret tt
           else ignore_err (UpdateUserGroupCache userId cacheGroup)) ;;
          expire_users now rest (expiredCount + n)
      end
  end.

(** [range] enumerates the keys of the Go map of user ids. *)
Definition ExpireDueSubscriptions (range : list Z -> list Z) (limit : Z) : MW (Z * option error) :=
  let limit := if limit <=? 0 then 200 else limit in
  now ← GetDBTimestamp;
  subs ← attempt (db_find HDB (fun d =>
    take (Z.to_nat limit) (order_by end_asc (where_subs (due now) d))));
  match subs with
  | Err e => mret (0, Some e)
  | Ok subs =>
      expire_users now (range (remove_dups (List.filter (fun id => id >? 0) (List.map s_UserId subs)))) 0
  end.
