(* ===== verification/TopUp.v ===== *)
(** * Top-ups (src/model/topup.go)

    Orders that credit a wallet when a payment arrives.  The payment webhooks,
    the reconciliation job and the administrator complete an order in one
    transaction that checks its provider and status.  Log rows are left out. *)

From S2P Require Import Prelude GoStd GoFloat QuotaMath World Sample ModelUtils UserModel SubscriptionTime Subscription SubscriptionOrder.

Definition PaymentProviderEpay : string := "epay".
Definition PaymentProviderStripe : string := "stripe".
Definition PaymentProviderCreem : string := "creem".
Definition PaymentProviderWaffo : string := "waffo".
Definition PaymentProviderWaffoPancake : string := "waffo_pancake".

Definition ErrTopUpNotFound : error := ErrNew "topup not found".
Definition ErrTopUpStatusInvalid : error := ErrNew "topup status invalid".
Definition no_order : error := ErrNew "充值订单不存在".
Definition bad_status : error := ErrNew "充值订单状态错误".
Definition no_user : error := ErrNew "用户不存在".
Definition recharge_failed : error := ErrNew "充值失败，请稍后重试".
Definition bad_amount : error := ErrNew "无效的充值额度".

(** Create: trade_no is a unique index. *)
Definition InsertTopUp (t : TopUp) : MW unit :=
  old ← db_find HDB (fun d => d_topups d !! tu_TradeNo t);
  match old with
  | Some _ => fail ErrDuplicatedKey
  | None => modify (exec_write HDB (put_topup t))
  end.
Definition UpdateTopUp (t : TopUp) : MW unit := db_exec HDB (put_topup t).

Definition GetTopUpByTradeNo (tradeNo : string) : MW (option TopUp) :=
  r ← attempt (db_first HDB (fun d => d_topups d !! tradeNo));
  mret (match r with Ok t => Some t | Err _ => None end).

(** lockForUpdate(tx).Where("trade_no = ?", tradeNo).First(topUp), whose errors all
    become [e]. *)
Definition lock_topup (tradeNo : string) (e : error) : MW TopUp :=
  map_err (fun _ => e) (db_first HTX (fun d => d_topups d !! tradeNo)).

Definition credit (quota : Z) (u : User) : User := u <| u_Quota := u_Quota u + quota |>.
(** UPDATE users ... WHERE id = ?, which must hit a row. *)
Definition update_one_user (userId : Z) (f : User -> User) : MW unit :=
  hit ← db_update HTX (has_user userId) (update_user userId f);
  guard_err (negb hit) no_user.
Definition addUserQuota (userID quota : Z) : MW unit := update_one_user userID (credit quota).

Definition completed (now : Z) (t : TopUp) : TopUp :=
  t <| tu_CompleteTime := now |> <| tu_Status := TopUpStatusSuccess |>.
Definition is_pending (t : TopUp) : bool := bool_decide (tu_Status t = TopUpStatusPending).

Section topup.
Context `{Decimal D}.
(** How the database evaluates [quota + x] for a float64 [x] in an integer
    column. *)
Context (add_float : Z -> F64.float64 -> Z).

(** Amount units of the currency, in quota. *)
Definition amount_quota (perUnit : F64.float64) (amount : Z) : Z :=
  dIntPart (dMul (NewFromInt (D := D) amount) (NewFromFloat perUnit)).
Definition money_quota (perUnit money : F64.float64) : Z :=
  dIntPart (dMul (NewFromFloat (D := D) money) (NewFromFloat perUnit)).

Definition CompleteEpayTopUp (tradeNo actualPaymentMethod : string) : MW unit :=
  Transaction (
    topUp ← lock_topup tradeNo ErrTopUpNotFound;
    guard_err (negb (bool_decide (tu_PaymentProvider topUp = PaymentProviderEpay)))
      ErrPaymentMethodMismatch ;;
    if decide (tu_Status topUp = TopUpStatusSuccess) then mret tt
    else
      guard_err (negb (is_pending topUp)) ErrTopUpStatusInvalid ;;
      now ← GetTimestamp;
      let topUp := completed now topUp in
      let topUp := if decide (actualPaymentMethod = "") then topUp
                   else topUp <| tu_PaymentMethod := actualPaymentMethod |> in
      db_exec HTX (put_topup topUp) ;;
      perUnit ← gets (fun w => QuotaPerUnit (w_cfg w));
      addUserQuota (tu_UserId topUp) (amount_quota perUnit (tu_Amount topUp))).

Definition UpdatePendingTopUpStatus (tradeNo expectedPaymentProvider targetStatus : string) : MW unit :=
  guard_err (bool_decide (tradeNo = "")) (ErrNew "未提供支付单号") ;;
  Transaction (
    topUp ← lock_topup tradeNo ErrTopUpNotFound;
    guard_err (negb (bool_decide (expectedPaymentProvider = ""))
               && negb (bool_decide (tu_PaymentProvider topUp = expectedPaymentProvider)))
      ErrPaymentMethodMismatch ;;
    guard_err (negb (is_pending topUp)) ErrTopUpStatusInvalid ;;
    db_exec HTX (put_topup (topUp <| tu_Status := targetStatus |>))).

(** Stripe *)
Definition Recharge (referenceId customerId : string) : MW unit :=
  guard_err (bool_decide (referenceId = "")) (ErrNew "未提供支付单号") ;;
  map_err (fun _ => recharge_failed) (Transaction (
    topUp ← lock_topup referenceId no_order;
    guard_err (negb (bool_decide (tu_PaymentProvider topUp = PaymentProviderStripe)))
      ErrPaymentMethodMismatch ;;
    guard_err (negb (is_pending topUp)) bad_status ;;
    now ← GetTimestamp;
    db_exec HTX (put_topup (completed now topUp)) ;;
    perUnit ← gets (fun w => QuotaPerUnit (w_cfg w));
    let quota := F64.mul (tu_Money topUp) perUnit in
    update_one_user (tu_UserId topUp) (fun u =>
      u <| u_StripeCustomer := customerId |> <| u_Quota := add_float (u_Quota u) quota |>))).

Definition manual_quota (perUnit : F64.float64) (topUp : TopUp) : Z :=
  if decide (tu_PaymentProvider topUp = PaymentProviderStripe)
  then money_quota perUnit (tu_Money topUp) else amount_quota perUnit (tu_Amount topUp).

Definition ManualCompleteTopUp (tradeNo : string) : MW unit :=
  guard_err (bool_decide (tradeNo = "")) (ErrNew "未提供订单号") ;;
  Transaction (
    topUp ← lock_topup tradeNo no_order;
    if decide (tu_Status topUp = TopUpStatusSuccess) then mret tt
    else
      guard_err (negb (is_pending topUp)) (ErrNew "订单状态不是待支付，无法补单") ;;
      perUnit ← gets (fun w => QuotaPerUnit (w_cfg w));
      let quotaToAdd := manual_quota perUnit topUp in
      guard_err (quotaToAdd <=? 0) bad_amount ;;
      now ← GetTimestamp;
      db_exec HTX (put_topup (completed now topUp)) ;;
      addUserQuota (tu_UserId topUp) quotaToAdd).

(** Creem: the amount is the quota itself; an empty e-mail address is filled in. *)
Definition RechargeCreem (referenceId customerEmail : string) : MW unit :=
  guard_err (bool_decide (referenceId = "")) (ErrNew "未提供支付单号") ;;
  map_err (fun _ => recharge_failed) (Transaction (
    topUp ← lock_topup referenceId no_order;
    guard_err (negb (bool_decide (tu_PaymentProvider topUp = PaymentProviderCreem)))
      ErrPaymentMethodMismatch ;;
    guard_err (negb (is_pending topUp)) bad_status ;;
    now ← GetTimestamp;
    db_exec HTX (put_topup (completed now topUp)) ;;
    let quota := tu_Amount topUp in
    set_email ← (if decide (customerEmail = "") then mret false
                 else
                   user ← db_first HTX (fun d => live_user d (tu_UserId topUp));
                   mret (bool_decide (u_Email user = "")));
    update_one_user (tu_UserId topUp) (fun u =>
      let u := credit quota u in
      if set_email : bool then u <| u_Email := customerEmail |> else u))).

(** Waffo and Waffo Pancake: the same steps for two providers. *)
Definition recharge_amount (provider tradeNo : string) : MW unit :=
  guard_err (bool_decide (tradeNo = "")) (ErrNew "未提供支付单号") ;;
  map_err (fun _ => recharge_failed) (Transaction (
    topUp ← lock_topup tradeNo no_order;
    guard_err (negb (bool_decide (tu_PaymentProvider topUp = provider))) ErrPaymentMethodMismatch ;;
    if decide (tu_Status topUp = TopUpStatusSuccess) then mret tt
    else
      guard_err (negb (is_pending topUp)) bad_status ;;
      perUnit ← gets (fun w => QuotaPerUnit (w_cfg w));
      let quotaToAdd := amount_quota perUnit (tu_Amount topUp) in
      guard_err (quotaToAdd <=? 0) bad_amount ;;
      now ← GetTimestamp;
      db_exec HTX (put_topup (completed now topUp)) ;;
      addUserQuota (tu_UserId topUp) quotaToAdd)).
Definition RechargeWaffo (tradeNo : string) : MW unit := recharge_amount PaymentProviderWaffo tradeNo.
Definition RechargeWaffoPancake (tradeNo : string) : MW unit :=
  recharge_amount PaymentProviderWaffoPancake tradeNo.
End topup.
