(* ===== verification/SubscriptionOrderProofs.v ===== *)
(** * Facts about subscription orders

    The quota invariant over every sequence of operations, and what completing
    an order and buying with the wallet do. *)

From S2P Require Import Prelude GoStd GoFloat QuotaMath World Sample ModelUtils UserModel SubscriptionTime Subscription SubscriptionProofs SubscriptionOrder.

(** ** The invariant is kept by every operation *)

Ltac pres_inv := repeat (first [ by apply db_inv_exec | by apply db_inv_update
  | apply db_inv_Transaction | apply db_inv_TransactionC | pres_step ]).

Lemma CreateUserSubscription_ok uid plan source :
  preserves (db_inv subs_ok) (CreateUserSubscriptionFromPlanTx uid plan source).
Proof.
  unfold CreateUserSubscriptionFromPlanTx, upgrade_group, UpdateGroupTx, getUserGroupByIdTx,
    GetTimestamp, next_id.
  pose proof (GetDBTimestamp_inv subs_ok).
  assert (Hexec : forall s, s_AmountUsed s = 0 -> preserves (db_inv subs_ok) (db_exec HTX (put_sub s))).
  { intros s Hs. apply db_inv_exec. intros d. apply subs_ok_put. unfold row_ok. lia. }
  assert (Hnext : preserves (db_inv subs_ok) (fun w => (Ok (w_next_id w) : result error Z,
    w <| w_next_id := w_next_id w + 1 |>))) by (by intros w).
  pres_inv; by apply Hexec.
Qed.
#[export] Hint Resolve CreateUserSubscription_ok getPlan_inv GetDBTimestamp_inv : preserves.

Lemma downgrade_ok sub now :
  preserves (db_inv subs_ok) (downgradeUserGroupForSubscriptionTx sub now).
Proof. unfold downgradeUserGroupForSubscriptionTx, getUserGroupByIdTx, UpdateGroupTx. pres_inv. Qed.

Lemma redis_update_inv P {V} (get : World -> gmap Z V) put key f :
  (forall m w, db_inv P w -> db_inv P (put m w)) ->
  preserves (db_inv P) (RedisHUpdateField get put key f).
Proof.
  intros Hput. unfold RedisHUpdateField. pose proof (db_inv_ext_call P).
  pres; apply preserves_modify; intros; by apply Hput.
Qed.
Lemma group_cache_inv P uid g : preserves (db_inv P) (UpdateUserGroupCache uid g).
Proof.
  unfold UpdateUserGroupCache, updateUserGroupCache, if_redis. pres.
  by apply redis_update_inv.
Qed.
Lemma quota_cache_inv P uid delta : preserves (db_inv P) (cacheDecrUserQuota uid delta).
Proof.
  unfold cacheDecrUserQuota, cacheIncrUserQuota, if_redis. pres. by apply redis_update_inv.
Qed.
#[export] Hint Resolve downgrade_ok group_cache_inv quota_cache_inv : preserves.

Lemma CompleteOrder_ok t p e a : preserves (db_inv subs_ok) (CompleteSubscriptionOrder t p e a).
Proof.
  unfold CompleteSubscriptionOrder, complete_order_tx, find_order, GetSubscriptionPlanById,
    upsertSubscriptionTopUpTx, GetTimestamp. pres_inv.
Qed.
Lemma ExpireOrder_ok t e : preserves (db_inv subs_ok) (ExpireSubscriptionOrder t e).
Proof. unfold ExpireSubscriptionOrder, find_order, GetTimestamp. pres_inv. Qed.
Lemma InsertOrder_ok o : preserves (db_inv subs_ok) (InsertOrder o).
Proof.
  unfold InsertOrder, CreateOrder, GetTimestamp. pres_inv.
  all: apply preserves_modify; intros w Hw; by apply db_inv_write.
Qed.
Lemma Purchase_ok `{Decimal D} uid pid t :
  preserves (db_inv subs_ok) (PurchaseSubscriptionWithBalance (D := D) uid pid t).
Proof.
  unfold PurchaseSubscriptionWithBalance, purchase_tx, CreateOrder, GetTimestamp. pres_inv.
  all: apply preserves_modify; intros w Hw; by apply db_inv_write.
Qed.
Lemma AdminBind_ok uid pid note : preserves (db_inv subs_ok) (AdminBindSubscription uid pid note).
Proof. unfold AdminBindSubscription, GetSubscriptionPlanById. pres_inv. Qed.

Lemma subs_ok_cancel now id d :
  subs_ok d -> subs_ok (d <| d_subs := alter (cancel_sub now) id (d_subs d) |>).
Proof.
  intros Hd i s Hs. simpl in Hs. rewrite lookup_alter in Hs. destruct (decide (id = i)) as [->|].
  - apply fmap_Some in Hs as (s0 & Hs0 & ->). by apply (Hd i s0).
  - by apply Hd.
Qed.
Lemma subs_ok_delete id d : subs_ok d -> subs_ok (d <| d_subs := delete id (d_subs d) |>).
Proof. intros Hd. by apply map_Forall_delete. Qed.
Lemma subs_ok_expire uid now stamp d :
  subs_ok d -> subs_ok (d <| d_subs := expire_row uid now stamp <$> d_subs d |>).
Proof.
  intros Hd i s Hs. simpl in Hs. rewrite lookup_fmap in Hs. apply fmap_Some in Hs as (s0 & Hs0 & ->).
  destruct (Hd i s0 Hs0). unfold expire_row. by destruct (_ && _).
Qed.

Lemma AdminInvalidate_ok id : preserves (db_inv subs_ok) (AdminInvalidateUserSubscription id).
Proof.
  unfold AdminInvalidateUserSubscription, report_downgrade, GetTimestamp. pres_inv.
  apply db_inv_exec. intros d. apply subs_ok_cancel.
Qed.
Lemma AdminDelete_ok id : preserves (db_inv subs_ok) (AdminDeleteUserSubscription id).
Proof.
  unfold AdminDeleteUserSubscription, report_downgrade, GetTimestamp. pres_inv.
  apply db_inv_exec. intros d. apply subs_ok_delete.
Qed.
Lemma resetSub_ok s plan now adv : preserves (db_inv subs_ok) (resetUserSubscriptionTx s plan now adv).
Proof.
  unfold resetUserSubscriptionTx. apply preserves_bind; [apply preserves_gets|]. intros tz.
  apply SaveSub_ok. destruct adv; split; simpl; lia.
Qed.
#[export] Hint Resolve resetSub_ok : preserves.
Lemma AdminResetUser_ok uid pid adv :
  preserves (db_inv subs_ok) (AdminResetUserSubscriptionsByPlan uid pid adv).
Proof. unfold AdminResetUserSubscriptionsByPlan, adminResetUserSubscriptionsByPlanTx. pres_inv. Qed.
Lemma AdminResetPlan_ok pid adv : preserves (db_inv subs_ok) (AdminResetPlanSubscriptions pid adv).
Proof. unfold AdminResetPlanSubscriptions, adminResetPlanSubscriptionsTx. pres_inv. Qed.

Lemma expire_users_ok now ids n : preserves (db_inv subs_ok) (expire_users now ids n).
Proof.
  revert n. induction ids as [|i ids IH]; intros n; simpl; [apply preserves_ret|].
  unfold expire_rows, expire_downgrade, getUserGroupByIdTx, UpdateGroupTx, GetTimestamp.
  pres_inv. apply preserves_modify. intros w Hw. apply db_inv_write; [|done].
  intros d. apply subs_ok_expire.
Qed.
Lemma ExpireDue_ok range limit : preserves (db_inv subs_ok) (ExpireDueSubscriptions range limit).
Proof. unfold ExpireDueSubscriptions. pose proof expire_users_ok. pres_inv. Qed.

(** ** All operations as steps of one machine *)

Section machine.
Context `{Decimal D} (range : list Z -> list Z).

Inductive sub_call :=
| CPreConsume (requestId : string) (userId : Z) (modelName : string) (quotaType amount : Z)
| CPostConsume (userSubscriptionId delta : Z)
| CRefund (requestId : string)
| CResetDue (limit : Z)
| CExpireDue (limit : Z)
| CCleanup (olderThanSeconds : Z)
| CInsertOrder (o : SubscriptionOrder)
| CCompleteOrder (tradeNo payload provider method : string)
| CExpireOrder (tradeNo provider : string)
| CPurchase (userId planId : Z) (tradeNo : string)
| CAdminBind (userId planId : Z) (note : string)
| CAdminInvalidate (userSubscriptionId : Z)
| CAdminDelete (userSubscriptionId : Z)
| CAdminResetUser (userId planId : Z) (advance : bool)
| CAdminResetPlan (planId : Z) (advance : bool).

(** The world a call leaves, whatever it returns. *)
Definition exec_call (c : sub_call) (w : World) : World :=
  match c with
  | CPreConsume rid uid m qt a => (PreConsumeUserSubscription rid uid m qt a w).2
  | CPostConsume id delta => (PostConsumeUserSubscriptionDelta id delta w).2
  | CRefund rid => (RefundSubscriptionPreConsume rid w).2
  | CResetDue n => (ResetDueSubscriptions n w).2
  | CExpireDue n => (ExpireDueSubscriptions range n w).2
  | CCleanup secs => (CleanupSubscriptionPreConsumeRecords secs w).2
  | CInsertOrder o => (InsertOrder o w).2
  | CCompleteOrder t p e m => (CompleteSubscriptionOrder t p e m w).2
  | CExpireOrder t e => (ExpireSubscriptionOrder t e w).2
  | CPurchase uid pid t => (PurchaseSubscriptionWithBalance (D := D) uid pid t w).2
  | CAdminBind uid pid n => (AdminBindSubscription uid pid n w).2
  | CAdminInvalidate id => (AdminInvalidateUserSubscription id w).2
  | CAdminDelete id => (AdminDeleteUserSubscription id w).2
  | CAdminResetUser uid pid adv => (AdminResetUserSubscriptionsByPlan uid pid adv w).2
  | CAdminResetPlan pid adv => (AdminResetPlanSubscriptions pid adv w).2
  end.

(** Between calls the clocks move, cache entries come and go, and which
    external calls fail next is up to the environment. *)
Inductive sub_step : World -> World -> Prop :=
| step_call c w : sub_step w (exec_call c w)
| step_env fs now dbnow plans w :
    sub_step w (w <| w_faults := fs |> <| w_now := now |> <| w_dbnow := dbnow |>
                  <| w_plan_cache := plans |>).

Lemma exec_call_ok c w : db_inv subs_ok w -> db_inv subs_ok (exec_call c w).
Proof.
  intros Hw. destruct c; simpl.
  - by apply PreConsume_ok.
  - by apply PostConsume_ok.
  - by apply Refund_ok.
  - by apply ResetDue_ok.
  - by apply ExpireDue_ok.
  - by apply Cleanup_ok.
  - by apply InsertOrder_ok.
  - by apply CompleteOrder_ok.
  - by apply ExpireOrder_ok.
  - by apply Purchase_ok.
  - by apply AdminBind_ok.
  - by apply AdminInvalidate_ok.
  - by apply AdminDelete_ok.
  - by apply AdminResetUser_ok.
  - by apply AdminResetPlan_ok.
Qed.

(** C40 In every state reachable by any interleaving of the subscription
    operations, with any failures of the database and of Redis, any clock and
    any cache contents, every subscription has used between 0 and its total
    (between 0 and anything, if it is unlimited), and rows are stored under
    their own id. *)
Theorem subscription_quota_invariant w w' :
  rtc sub_step w w' -> subs_ok (w_db w) -> w_log w = [] ->
  forall id s, d_subs (w_db w') !! id = Some s ->
    s_Id s = id /\ 0 <= s_AmountUsed s /\ (0 < s_AmountTotal s -> s_AmountUsed s <= s_AmountTotal s).
Proof.
  intros Hsteps Hd Hl. assert (Hw : db_inv subs_ok w) by (split; [done|by rewrite Hl]).
  clear Hd Hl. assert (Hw' : db_inv subs_ok w').
  { induction Hsteps as [|w1 w2 w3 Hstep _ IH]; [done|]. apply IH. destruct Hstep; [|done].
    by apply exec_call_ok. }
  intros id s Hs. apply (proj1 Hw' id s Hs).
Qed.
End machine.

Lemma subscription_quota_invariant_witness :
  let w1 := exec_call (D := QArith_base.Q) (fun l => l) (CPreConsume "r1" 1 "m" 0 200) sample_world in
  let w2 := exec_call (D := QArith_base.Q) (fun l => l) (CPostConsume 5 (-50)) w1 in
  d_subs (w_db w2) !! 5 = Some (sample_sub <| s_AmountUsed := 250 |> <| s_UpdatedAt := 1700000000 |> : UserSubscription) /\
  (0 <= 250 /\ (0 < 1000 -> 250 <= 1000)).
Proof.
  intros w1 w2.
  assert (H2 : d_subs (w_db w2) !! 5
    = Some (sample_sub <| s_AmountUsed := 250 |> <| s_UpdatedAt := 1700000000 |> : UserSubscription)) by reflexivity.
  split; [exact H2|].
  assert (Hr : rtc (sub_step (D := QArith_base.Q) (fun l => l)) sample_world w2).
  { eapply rtc_l; [apply (step_call _ (CPreConsume "r1" 1 "m" 0 200))|].
    eapply rtc_l; [apply (step_call _ (CPostConsume 5 (-50)))|]. apply rtc_refl. }
  exact (proj2 (subscription_quota_invariant (D := QArith_base.Q) (fun l => l) sample_world w2 Hr sample_subs_ok
           ltac:(reflexivity) 5 _ H2)).
Defined.

(** ** Orders *)

Lemma GetDBTimestamp_tx d : preserves (fun w => w_db w = d) GetDBTimestamp.
Proof. unfold GetDBTimestamp. pres. Qed.
#[export] Hint Resolve GetDBTimestamp_tx : preserves.
Lemma CreateSub_tx d uid plan source :
  preserves (fun w => w_db w = d) (CreateUserSubscriptionFromPlanTx uid plan source).
Proof.
  unfold CreateUserSubscriptionFromPlanTx, upgrade_group, UpdateGroupTx, getUserGroupByIdTx,
    GetTimestamp, next_id.
  assert (Hnext : preserves (fun w => w_db w = d) (fun w => (Ok (w_next_id w) : result error Z,
    w <| w_next_id := w_next_id w + 1 |>))) by (by intros w).
  pres.
Qed.
#[export] Hint Resolve CreateSub_tx : preserves.
Lemma complete_order_tx_tx d t p e a : preserves (fun w => w_db w = d) (complete_order_tx t p e a).
Proof.
  unfold complete_order_tx, find_order, GetSubscriptionPlanById, upsertSubscriptionTopUpTx, GetTimestamp.
  pres.
Qed.
Lemma purchase_tx_tx `{Decimal D} d uid pid t :
  preserves (fun w => w_db w = d) (purchase_tx (D := D) uid pid t).
Proof. unfold purchase_tx, CreateOrder, GetTimestamp. pres. Qed.

(** Redis updates after the commit do not touch the database. *)
Lemma redis_update_db d {V} (get : World -> gmap Z V) put key f :
  (forall m w, w_db (put m w) = w_db w) ->
  preserves (fun w => w_db w = d) (RedisHUpdateField get put key f).
Proof.
  intros Hput. unfold RedisHUpdateField. pres. apply preserves_modify. intros. by rewrite Hput.
Qed.
Lemma group_cache_db d uid g : preserves (fun w => w_db w = d) (UpdateUserGroupCache uid g).
Proof. unfold UpdateUserGroupCache, updateUserGroupCache, if_redis. pres. by apply redis_update_db. Qed.
Lemma quota_cache_db d uid delta : preserves (fun w => w_db w = d) (cacheDecrUserQuota uid delta).
Proof. unfold cacheDecrUserQuota, cacheIncrUserQuota, if_redis. pres. by apply redis_update_db. Qed.

#[local] Arguments view : simpl never.

(** What creating a subscription writes: one new row, and at most the group of
    the buyer. *)
Definition sub_created (uid : Z) (plan : SubscriptionPlan) (id : Z) (d d' : DB) : Prop :=
  exists sub, d_subs d' = <[id := sub]> (d_subs d) /\
    s_Id sub = id /\ s_UserId sub = uid /\ s_PlanId sub = p_Id plan /\ s_Status sub = "active" /\
    s_AmountUsed sub = 0 /\ s_AmountTotal sub = p_TotalAmount plan.
Definition only_groups (d d' : DB) : Prop :=
  (forall i, live_user d' i = live_user d i \/
     exists u g, live_user d i = Some u /\ live_user d' i = Some (set_group g u)).

Lemma only_groups_quota d d' i : only_groups d d' -> select_quota i d' = select_quota i d.
Proof.
  intros H. unfold select_quota. destruct (H i) as [->|(u & g & -> & ->)]; done.
Qed.
Lemma only_groups_update uid g d : only_groups d (update_user uid (set_group g) d).
Proof.
  intros i. rewrite live_update_user by done. case_decide; [|by left].
  destruct (live_user d i) as [u|]; [right|by left]. by exists u, g.
Qed.

Lemma upgrade_group_inv uid g w p w' :
  upgrade_group uid g w = (Ok p, w') ->
  tx_env w w' /\ w_next_id w' = w_next_id w /\
  (view HTX w' = view HTX w \/ view HTX w' = update_user uid (set_group g) (view HTX w)).
Proof.
  unfold upgrade_group. case_decide as Hg.
  { intros [-> ->]%run_ret_inv. split; [done|]. split; [done|]. by left. }
  intros H. inv_bind H as cur w1 E. unfold getUserGroupByIdTx in E.
  inv_bind E as u w2 E2. apply guard_err_inv in E2 as [_ ->].
  apply db_find_inv in E as [_ [fs ->]].
  destruct (decide (cur = g)).
  { apply run_ret_inv in H as [-> ->]. split; [done|]. split; [done|]. by left. }
  inv_bind H as b w3 E3. apply run_ret_inv in H as [-> ->].
  apply db_update_inv in E3 as (_ & Hv & Henv & Hn). split; [done|]. split; [done|].
  rewrite Hv. destruct b; auto.
Qed.

Lemma CreateSub_inv uid plan source w sub w' :
  CreateUserSubscriptionFromPlanTx uid plan source w = (Ok sub, w') ->
  let d := view HTX w in let d' := view HTX w' in
  sub_created uid plan (w_next_id w) d d' /\ only_groups d d' /\ tx_env w w' /\
  (0 < p_MaxPurchasePerUser plan -> plan_purchases uid (p_Id plan) d < p_MaxPurchasePerUser plan) /\
  d_records d' = d_records d /\ d_orders d' = d_orders d /\ d_topups d' = d_topups d /\
  d_tokens d' = d_tokens d.
Proof.
  unfold CreateUserSubscriptionFromPlanTx. intros H.
  do 2 (inv_bind H; apply guard_err_inv in E as [_ ->]).
  inv_bind H as u w1 E1.
  assert (Hmax : (exists fs, w1 = w <| w_faults := fs |>) /\
    (0 < p_MaxPurchasePerUser plan ->
     plan_purchases uid (p_Id plan) (view HTX w) < p_MaxPurchasePerUser plan)).
  { destruct (p_MaxPurchasePerUser plan >? 0) eqn:Hm; bools.
    - inv_bind E1 as c w2 E2. apply db_find_inv in E2 as [-> [fs ->]].
      apply guard_err_inv in E1 as [Hg ->]. bools. split; [by exists fs|]. lia.
    - apply run_ret_inv in E1 as [_ ->]. split; [exists (w_faults w); by destruct w|]. lia. }
  destruct Hmax as [[fs ->] Hmax]. inv_bind H as now w2 E2.
  destruct (GetDBTimestamp_run (w <| w_faults := fs |>)) as (t & fs2 & Ht & _).
  rewrite Ht in E2. injection E2 as <- <-.
  inv_bind H as tz w3 E3. apply gets_inv in E3 as [-> ->].
  inv_bind H as endU w4 E4. unfold of_result in E4. injection E4 as _ <-.
  inv_bind H as prev w5 E5. apply upgrade_group_inv in E5 as (Henv5 & Hn5 & Hv5).
  inv_bind H as stamp w6 E6. apply gets_inv in E6 as [-> ->].
  inv_bind H as id w7 E7. unfold next_id in E7. injection E7 as <- <-.
  inv_bind H as u8 w8 E8. apply run_ret_inv in H as [-> ->].
  apply db_exec_inv in E8 as [Hv8 Henv8]. simpl in Hn5.
  change (view HTX (w5 <| w_next_id := w_next_id w5 + 1 |>)) with (view HTX w5) in Hv8.
  change (view HTX (w <| w_faults := fs |> <| w_faults := fs2 |>)) with (view HTX w) in Hv5.
  cbv zeta. rewrite Hv8. rewrite Hn5.
  assert (Hd5 : d_subs (view HTX w5) = d_subs (view HTX w)) by (by destruct Hv5 as [->| ->]).
  split; [|split; [|split; [|split; [done|]]]].
  - eexists. simpl. rewrite Hd5. split; [reflexivity|]. by simpl.
  - destruct Hv5 as [->| ->]; intros i; simpl; [by left|]. apply only_groups_update.
  - transitivity w5; [exact Henv5|exact Henv8].
  - destruct Hv5 as [->| ->]; by repeat split.
Qed.

Lemma find_order_inv t w o w' :
  find_order t w = (Ok o, w') -> d_orders (view HTX w) !! t = Some o /\ exists fs, w' = w <| w_faults := fs |>.
Proof.
  unfold find_order, map_err. destruct (db_first HTX _ w) as [[x|e] w1] eqn:E; [|discriminate].
  intros [= -> <-]. by apply db_first_inv in E.
Qed.

Lemma upsert_inv o w u w' :
  upsertSubscriptionTopUpTx o w = (Ok u, w') ->
  tx_env w w' /\ exists t, view HTX w' = put_topup t (view HTX w).
Proof.
  unfold upsertSubscriptionTopUpTx. intros H. inv_bind H as now w1 E.
  apply gets_inv in E as [-> ->]. inv_bind H as old w2 E2. apply db_find_inv in E2 as [_ [fs ->]].
  destruct old as [t|].
  - inv_bind H as u2 w3 E3. apply guard_err_inv in E3 as [_ ->].
    apply db_exec_inv in H as [Hv Henv]. split; [done|]. by eexists.
  - apply db_exec_inv in H as [Hv Henv]. split; [done|]. by eexists.
Qed.

Lemma complete_order_tx_inv t p e a w r w' :
  complete_order_tx t p e a w = (Ok r, w') ->
  let d := view HTX w in let d' := view HTX w' in
  exists o, d_orders d !! t = Some o /\ (e = "" \/ o_PaymentProvider o = e) /\
    (o_Status o = TopUpStatusSuccess /\ d' = d \/
     o_Status o = TopUpStatusPending /\ (exists plan,
       sub_created (o_UserId o) plan (w_next_id w) d d' /\
       (0 < p_MaxPurchasePerUser plan ->
          plan_purchases (o_UserId o) (p_Id plan) d < p_MaxPurchasePerUser plan)) /\
     only_groups d d' /\ d_records d' = d_records d /\
     d_orders d' = <[o_TradeNo o := completed_order o p a (w_now w)]> (d_orders d)).
Proof.
  unfold complete_order_tx. intros H. inv_bind H as o w1 E1.
  apply find_order_inv in E1 as [Ho [fs1 ->]].
  inv_bind H as u w2 E2. apply guard_err_inv in E2 as [Hg ->].
  cbv zeta. exists o. split; [done|]. split.
  { unfold provider_mismatch in Hg. apply andb_false_iff in Hg as [Hg|Hg]; bools; auto. }
  case_decide as Hs.
  { apply run_ret_inv in H as [-> ->]. by left. }
  right. inv_bind H as u2 w3 E3. apply guard_err_inv in E3 as [Hp ->]. bools.
  split; [done|]. inv_bind H as plan w4 E4.
  pose proof (getPlan_same HDB (o_PlanId o) (w <| w_faults := fs1 |>)) as Hsame.
  unfold GetSubscriptionPlanById in E4. rewrite E4 in Hsame. simpl in Hsame.
  pose proof (getPlan_next HDB (o_PlanId o) (w <| w_faults := fs1 |>)) as Hnx. rewrite E4 in Hnx. simpl in Hnx.
  pose proof (same_tables_view HTX _ _ Hsame) as Hv4.
  change (view HTX (w <| w_faults := fs1 |>)) with (view HTX w) in Hv4.
  inv_bind H as sub w5 E5. apply CreateSub_inv in E5 as (Hcr & Hgr & Henv5 & Hmax & Hrec & Hord & _).
  inv_bind H as u6 w6 E6. apply upsert_inv in E6 as [Henv6 [tu Hv6]].
  inv_bind H as now w7 E7. apply gets_inv in E7 as [-> ->].
  inv_bind H as u8 w8 E8. apply run_ret_inv in H as [-> ->].
  apply db_exec_inv in E8 as [Hv8 _]. rewrite Hv8, Hv6. simpl.
  rewrite Hv4, Hnx in *.
  assert (Hnow : w_now w6 = w_now w).
  { destruct Hsame as (_ & _ & H1 & _), Henv5 as (_ & H2 & _), Henv6 as (_ & H3 & _). simpl in H1. congruence. }
  rewrite Hnow, Hord. split; [|done].
  exists plan. split; [exact Hcr|done].
Qed.

Lemma after_commit_db {A} (m : MW A) (k : A -> MW unit) w :
  (forall a d, preserves (fun w => w_db w = d) (k a)) -> (forall a w, exists w', k a w = (Ok tt, w')) ->
  match m w with
  | (Ok a, w1) => exists w2, (m ≫= k) w = (Ok tt, w2) /\ w_db w2 = w_db w1
  | (Err e, w1) => (m ≫= k) w = (Err e, w1)
  end.
Proof.
  intros Hdb Hok. rewrite run_bind. destruct (m w) as [[a|e] w1]; [|done].
  destruct (Hok a w1) as [w2 Hw2]. exists w2. split; [done|].
  pose proof (Hdb a (w_db w1) w1 eq_refl) as H. by rewrite Hw2 in H.
Qed.

Lemma CompleteOrder_run t p e a w :
  match CompleteSubscriptionOrder t p e a w with
  | (Err _, w') => w_db w' = w_db w
  | (Ok _, w') => exists o, d_orders (w_db w) !! t = Some o /\
      (e = "" \/ o_PaymentProvider o = e) /\
      (o_Status o = TopUpStatusSuccess /\ w_db w' = w_db w \/
       o_Status o = TopUpStatusPending /\
       (exists plan id, sub_created (o_UserId o) plan id (w_db w) (w_db w') /\
          (0 < p_MaxPurchasePerUser plan ->
             plan_purchases (o_UserId o) (p_Id plan) (w_db w) < p_MaxPurchasePerUser plan)) /\
       only_groups (w_db w) (w_db w') /\
       d_orders (w_db w') = <[o_TradeNo o := completed_order o p a (w_now w)]> (d_orders (w_db w)))
  end.
Proof.
  unfold CompleteSubscriptionOrder. destruct (bool_decide (t = "")); [done|].
  cbn [guard_err]. rewrite run_bind, run_ret.
  set (k := fun r : option (Z * string) => match r with
    | Some (logUserId, upgradeGroup) =>
        if negb (bool_decide (upgradeGroup = "")) && (logUserId >? 0)
        then ignore_err (UpdateUserGroupCache logUserId upgradeGroup) else mret tt
    | None => mret tt end : MW unit).
  pose proof (after_commit_db (Transaction (complete_order_tx t p e a)) k w) as Hc.
  destruct (Transaction (complete_order_tx t p e a) w) as [[r|err] w1] eqn:Htx.
  - destruct Hc as (w2 & -> & Hdb2).
    { intros [[i g]|] d; [|apply preserves_ret]. simpl. pose proof group_cache_db. pres. }
    { intros [[i g]|] w0; simpl; [|by eexists]. destruct (_ && _); by eexists. }
    apply Transaction_inv in Htx as (w3 & w4 & Hv & _ & (_ & Hnow & _) & Hrun & Hdb);
      [|intros d; apply complete_order_tx_tx].
    apply complete_order_tx_inv in Hrun as (o & Ho & He & Hcase).
    rewrite Hv in *. rewrite <- Hdb in *. rewrite Hdb2. exists o. split; [done|]. split; [done|].
    destruct Hcase as [?|(Hst & (plan & Hcr & Hmax) & Hg & _ & Hord)]; [by left|right].
    rewrite Hnow in Hord. split; [done|]. split; [|done]. by exists plan, (w_next_id w3).
  - rewrite Hc.
    + pose proof (Transaction_atomic _ w (fun d => complete_order_tx_tx d t p e a)) as Ha.
      by rewrite Htx in Ha.
    + intros [[i g]|] d; [|apply preserves_ret]. simpl. pose proof group_cache_db. pres.
    + intros [[i g]|] w0; simpl; [|by eexists]. destruct (_ && _); by eexists.
Qed.

(** Completing a subscription order is atomic and guarded, under any failure:
    an error leaves the database untouched.  A success on a pending order
    creates exactly one active subscription with nothing used, for the buyer of
    the order, within the purchase limit of its plan, and marks the order
    successful; no wallet changes; a success on a completed order changes
    nothing.  An order of another payment provider is never completed. *)
Theorem CompleteSubscriptionOrder_spec t payload provider method w :
  match CompleteSubscriptionOrder t payload provider method w with
  | (Err _, w') => w_db w' = w_db w
  | (Ok _, w') => exists o, d_orders (w_db w) !! t = Some o /\
      (provider = "" \/ o_PaymentProvider o = provider) /\
      (o_Status o = TopUpStatusSuccess /\ w_db w' = w_db w \/
       o_Status o = TopUpStatusPending /\
       (exists plan id, sub_created (o_UserId o) plan id (w_db w) (w_db w') /\
          (0 < p_MaxPurchasePerUser plan ->
             plan_purchases (o_UserId o) (p_Id plan) (w_db w) < p_MaxPurchasePerUser plan)) /\
       (forall i, select_quota i (w_db w') = select_quota i (w_db w)) /\
       d_orders (w_db w') =
         <[o_TradeNo o := completed_order o payload method (w_now w)]> (d_orders (w_db w)))
  end.
Proof.
  pose proof (CompleteOrder_run t payload provider method w) as H. case_run H; [|done].
  destruct H as (o & Ho & Hp & [Hc|(Hst & Hcr & Hg & Hord)]); exists o; [by auto|].
  split; [done|]. split; [done|]. right. split; [done|]. split; [done|]. split; [|done].
  intros i. by apply only_groups_quota.
Qed.

(** Completing the same order again changes nothing: a webhook delivered
    twice grants one subscription. *)
Theorem CompleteSubscriptionOrder_idempotent t p1 e1 a1 p2 e2 a2 w w1 w2 u :
  map_Forall (fun k o => o_TradeNo o = k) (d_orders (w_db w)) ->
  CompleteSubscriptionOrder t p1 e1 a1 w = (Ok u, w1) ->
  (CompleteSubscriptionOrder t p2 e2 a2 w1).2 = w2 ->
  w_db w2 = w_db w1.
Proof.
  intros Hkeys H1 <-.
  assert (Hdone : exists o, d_orders (w_db w1) !! t = Some o /\ o_Status o = TopUpStatusSuccess).
  { pose proof (CompleteOrder_run t p1 e1 a1 w) as H. rewrite H1 in H.
    destruct H as (o & Ho & _ & [[Hs Hdb]|(_ & _ & _ & Hord)]).
    - exists o. by rewrite Hdb.
    - pose proof (Hkeys t o Ho) as Hk. simpl in Hk. rewrite Hord, Hk, lookup_insert_eq. by eexists. }
  destruct Hdone as (o & Ho & Hs).
  pose proof (CompleteOrder_run t p2 e2 a2 w1) as H. case_run H; simpl; [|done].
  destruct H as (o' & Ho' & _ & [[_ Hdb]|(Hst & _)]); [done|].
  rewrite Ho in Ho'. injection Ho' as <-. rewrite Hs in Hst. discriminate.
Qed.

Definition sample_order : SubscriptionOrder :=
  mkOrder 1 3 (F64.of_Z 1) "T1" "alipay" "epay" "pending" 1699999000 0 "".
Definition sample_order_world : World :=
  sample_world <| w_db := sample_db <| d_subs := ∅ |> <| d_orders := {["T1" := sample_order]} |> |>.

Lemma CompleteSubscriptionOrder_idempotent_witness :
  exists u w1, CompleteSubscriptionOrder "T1" "" "epay" "" sample_order_world = (Ok u, w1) /\
    w_db (CompleteSubscriptionOrder "T1" "" "epay" "" w1).2 = w_db w1.
Proof.
  destruct (CompleteSubscriptionOrder "T1" "" "epay" "" sample_order_world) as [r w1] eqn:E.
  assert (r = Ok tt) as -> by (change r with (r, w1).1; rewrite <- E; vm_compute; reflexivity).
  exists tt, w1. split; [reflexivity|].
  apply (CompleteSubscriptionOrder_idempotent "T1" "" "epay" "" "" "epay" "" sample_order_world w1 _ tt);
    [apply map_Forall_singleton; reflexivity|exact E|reflexivity].
Defined.

(** ** Wallet purchase *)

Lemma debit_quota uid q d i :
  has_user uid d = true ->
  select_quota i (update_user uid (fun u => u <| u_Quota := u_Quota u - q |>) d)
  = select_quota i d - if decide (i = uid) then q else 0.
Proof.
  intros Hu. unfold select_quota. rewrite live_update_user by done.
  destruct (decide (uid = i)) as [->|]; [rewrite decide_True by done|rewrite decide_False by done].
  - unfold has_user in Hu. destruct (live_user d i); simpl; [done|discriminate].
  - destruct (live_user d i); lia.
Qed.

Section purchase.
Context `{Decimal D}.

Lemma CreateOrder_inv o w u w' :
  CreateOrder HTX o w = (Ok u, w') -> view HTX w' = put_order o (view HTX w) /\ tx_env w w'.
Proof.
  unfold CreateOrder. intros Hr. inv_bind Hr as old w1 E. apply db_find_inv in E as [_ [fs ->]].
  destruct old; [discriminate|]. unfold modify in Hr. injection Hr as _ <-.
  split; [apply apply_log_app|done].
Qed.

Lemma purchase_tx_inv uid pid t w q g w' :
  purchase_tx (D := D) uid pid t w = (Ok (q, g), w') ->
  let d := view HTX w in let d' := view HTX w' in
  exists plan u id, p_Enabled plan = true /\ live_user d uid = Some u /\
    calcSubscriptionBalanceQuota (D := D) (QuotaPerUnit (w_cfg w)) (p_PriceAmount plan) = Ok q /\
    (0 < q -> q <= u_Quota u) /\ sub_created uid plan id d d' /\
    (0 < p_MaxPurchasePerUser plan -> plan_purchases uid (p_Id plan) d < p_MaxPurchasePerUser plan) /\
    forall i, select_quota i d' = select_quota i d - if decide (i = uid) then Z.max 0 q else 0.
Proof.
  unfold purchase_tx. intros Hr. inv_bind Hr as plan w1 E1.
  pose proof (getPlan_same HTX pid w) as Hsame. rewrite E1 in Hsame. simpl in Hsame.
  pose proof (same_tables_view HTX _ _ Hsame) as Hv1.
  inv_bind Hr as u0 w2 E2. apply guard_err_inv in E2 as [Hen ->]. bools.
  do 2 (inv_bind Hr; apply guard_err_inv in E as [_ ->]).
  inv_bind Hr as per w3 E3. apply gets_inv in E3 as [-> ->].
  inv_bind Hr as q' w4 E4. unfold of_result in E4. injection E4 as Hq <-.
  inv_bind Hr as u w5 E5. apply db_first_inv in E5 as [Hu [fs5 ->]].
  inv_bind Hr as u6 w6 E6. apply guard_err_inv in E6 as [Hg ->].
  inv_bind Hr as u7 w7 E7.
  assert (Hv7 : tx_env w1 w7 /\ view HTX w7 = if q' >? 0
      then update_user uid (fun u => u <| u_Quota := u_Quota u - q' |>) (view HTX w1) else view HTX w1).
  { destruct (q' >? 0) eqn:Hq0.
    - inv_bind E7 as b w8 E8. apply db_update_inv in E8 as (Hb & Hv & Henv & _).
      apply run_ret_inv in E7 as [_ ->]. split; [done|]. rewrite Hv, Hb.
      change (view HTX (w1 <| w_faults := fs5 |>)) with (view HTX w1).
      unfold has_user. by rewrite Hu.
    - apply run_ret_inv in E7 as [_ ->]. done. }
  destruct Hv7 as [Henv7 Hv7].
  inv_bind Hr as sub w8 E8. apply CreateSub_inv in E8 as (Hcr & Hgr & _ & Hmax & _).
  inv_bind Hr as now w9 E9. apply gets_inv in E9 as [-> ->].
  inv_bind Hr as u10 w10 E10. apply CreateOrder_inv in E10 as [Hv10 _].
  apply run_ret_inv in Hr as [Heq ->]. injection Heq as -> ->.
  cbv zeta. rewrite Hv10. exists plan, u, (w_next_id w7).
  rewrite Hv1 in Hu. split; [done|]. split; [done|].
  assert (Hcfg : w_cfg w1 = w_cfg w) by apply Hsame. rewrite Hcfg in Hq. split; [done|].
  split. { intros Hq0. apply andb_false_iff in Hg as [Hg|Hg]; bools; lia. }
  assert (Hs7 : d_subs (view HTX w7) = d_subs (view HTX w)).
  { rewrite Hv7. destruct (q' >? 0); simpl; by rewrite Hv1. }
  split. { destruct Hcr as (s & Hs & Hrest). exists s. simpl. rewrite Hs, Hs7. done. }
  split. { unfold plan_purchases, where_subs, all_subs in *. by rewrite <- Hs7. }
  intros i. change (select_quota i (put_order _ ?d)) with (select_quota i d).
  rewrite (only_groups_quota _ _ i Hgr), Hv7, Hv1.
  destruct (q' >? 0) eqn:Hq0; bools.
  - rewrite debit_quota by (unfold has_user; by rewrite Hu). rewrite Z.max_r by lia. done.
  - case_decide; lia.
Qed.

(** Buying a plan with the wallet is atomic: an error leaves the database as
    it was, whatever failed.  A success charged exactly the price of an enabled
    plan in quota units, no more than the buyer had, to the buyer alone, and
    created one active subscription with nothing used, within the purchase
    limit of the plan. *)
Theorem PurchaseSubscriptionWithBalance_spec uid pid t w :
  match PurchaseSubscriptionWithBalance (D := D) uid pid t w with
  | (Err _, w') => w_db w' = w_db w
  | (Ok _, w') => exists plan u id q, p_Enabled plan = true /\ live_user (w_db w) uid = Some u /\
      calcSubscriptionBalanceQuota (D := D) (QuotaPerUnit (w_cfg w)) (p_PriceAmount plan) = Ok q /\
      (0 < q -> q <= u_Quota u) /\ sub_created uid plan id (w_db w) (w_db w') /\
      (0 < p_MaxPurchasePerUser plan ->
         plan_purchases uid (p_Id plan) (w_db w) < p_MaxPurchasePerUser plan) /\
      forall i, select_quota i (w_db w') =
        select_quota i (w_db w) - if decide (i = uid) then Z.max 0 q else 0
  end.
Proof.
  unfold PurchaseSubscriptionWithBalance. destruct (_ || _); [done|].
  cbn [guard_err]. rewrite run_bind, run_ret.
  set (k := fun '(chargedQuota, upgradeGroup) => _ : MW unit).
  assert (Hk1 : forall a d, preserves (fun w => w_db w = d) (k a)).
  { intros [q g] d. unfold k. pose proof group_cache_db. pose proof quota_cache_db. pres. }
  assert (Hk2 : forall a w, exists w', k a w = (Ok tt, w')).
  { intros [q g] w0. unfold k. rewrite run_bind.
    destruct (q >? 0); simpl; case_decide; by eexists. }
  pose proof (after_commit_db (Transaction (purchase_tx uid pid t)) k w Hk1 Hk2) as Hc.
  destruct (Transaction (purchase_tx uid pid t) w) as [[[q g]|err] w1] eqn:Htx.
  - destruct Hc as (w2 & -> & Hdb2).
    apply Transaction_inv in Htx as (w3 & w4 & Hv & _ & (_ & _ & _ & Hcfg) & Hrun & Hdb);
      [|intros d; apply purchase_tx_tx].
    apply purchase_tx_inv in Hrun as (plan & u & id & Hrun). rewrite Hv, Hcfg in Hrun.
    rewrite <- Hdb, <- Hdb2 in Hrun. by exists plan, u, id, q.
  - rewrite Hc. pose proof (Transaction_atomic _ w (fun d => purchase_tx_tx d uid pid t)) as Ha.
    by rewrite Htx in Ha.
Qed.
End purchase.
