(* ===== verification/TopUpProofs.v ===== *)
(** * Facts about top-ups

    Each completion is atomic and credits exactly one wallet; over any sequence of
    completions by webhooks, reconciliation and administrators an order is
    credited at most once. *)

From Stdlib Require Import SpecFloat QArith.
From S2P Require Import Prelude GoStd GoFloat QuotaMath World Sample ModelUtils UserModel SubscriptionTime Subscription SubscriptionOrder TopUp.
#[local] Open Scope Z_scope.

(** ** Running the bodies *)

Lemma lock_topup_inv t e w o w' :
  lock_topup t e w = (Ok o, w') ->
  d_topups (view HTX w) !! t = Some o /\ exists fs, w' = w <| w_faults := fs |>.
Proof.
  unfold lock_topup, map_err. destruct (db_first _ _ w) as [[o'|e'] w1] eqn:E; [|discriminate].
  intros [= -> ->]. by apply db_first_inv in E.
Qed.
Lemma update_one_user_inv id f w u w' :
  update_one_user id f w = (Ok u, w') ->
  has_user id (view HTX w) = true /\ view HTX w' = update_user id f (view HTX w).
Proof.
  unfold update_one_user. intros H. inv_bind H as b w1 E. apply db_update_inv in E as (Hb & Hv & _ & _).
  apply guard_err_inv in H as [Hg ->]. apply negb_false_iff in Hg. subst b. rewrite Hg in Hv. done.
Qed.

(** One step of the inversion of a completed transaction body. *)
Ltac topup_step H :=
  lazymatch type of H with
  | (lock_topup _ _ ≫= _) _ = _ =>
      let o := fresh "o" in let w := fresh "w" in let E := fresh "E" in
      inv_bind H as o w E; apply lock_topup_inv in E as [? [? ->]]
  | (guard_err _ _ ≫= _) _ = _ =>
      let E := fresh "E" in let u := fresh "u" in let w := fresh "w" in
      inv_bind H as u w E; apply guard_err_inv in E as [? ->]
  | (gets _ ≫= _) _ = _ => let E := fresh "E" in let u := fresh "u" in let w := fresh "w" in
      inv_bind H as u w E; apply gets_inv in E as [-> ->]
  | (GetTimestamp ≫= _) _ = _ =>
      let E := fresh "E" in let u := fresh "u" in let w := fresh "w" in
      inv_bind H as u w E; apply gets_inv in E as [-> ->]
  | (db_exec HTX _ ≫= _) _ = _ =>
      let w := fresh "w" in let E := fresh "E" in let u := fresh "u" in
      inv_bind H as u w E; apply db_exec_inv in E as [? ?]
  | (if decide ?P then _ else _) _ = _ => destruct (decide P)
  | mret _ _ = _ => apply run_ret_inv in H as [_ ->]
  end.

(** ** The calls *)

Inductive topup_call :=
| TCEpay (tradeNo method : string)
| TCUpdatePending (tradeNo provider target : string)
| TCStripe (tradeNo customer : string)
| TCManual (tradeNo : string)
| TCCreem (tradeNo email : string)
| TCWaffo (tradeNo : string)
| TCWaffoPancake (tradeNo : string).

Definition call_trade (c : topup_call) : string :=
  match c with
  | TCEpay t _ | TCUpdatePending t _ _ | TCStripe t _ | TCManual t | TCCreem t _ | TCWaffo t
  | TCWaffoPancake t => t
  end.

Section topup.
Context `{Decimal D} (add_float : Z -> F64.float64 -> Z).

Definition exec_topup (c : topup_call) : MW unit :=
  match c with
  | TCEpay t m => CompleteEpayTopUp (D := D) t m
  | TCUpdatePending t p s => UpdatePendingTopUpStatus t p s
  | TCStripe t cust => Recharge add_float t cust
  | TCManual t => ManualCompleteTopUp (D := D) t
  | TCCreem t email => RechargeCreem t email
  | TCWaffo t => RechargeWaffo (D := D) t
  | TCWaffoPancake t => RechargeWaffoPancake (D := D) t
  end.

(** The orders a call may complete. *)
Definition call_accepts (c : topup_call) (perUnit : F64.float64) (o : TopUp) : Prop :=
  match c with
  | TCEpay _ _ => tu_PaymentProvider o = PaymentProviderEpay
  | TCUpdatePending _ p _ => p = "" \/ tu_PaymentProvider o = p
  | TCStripe _ _ => tu_PaymentProvider o = PaymentProviderStripe
  | TCManual _ => 0 < manual_quota (D := D) perUnit o
  | TCCreem _ _ => tu_PaymentProvider o = PaymentProviderCreem
  | TCWaffo _ => tu_PaymentProvider o = PaymentProviderWaffo
                 /\ 0 < amount_quota (D := D) perUnit (tu_Amount o)
  | TCWaffoPancake _ => tu_PaymentProvider o = PaymentProviderWaffoPancake
                        /\ 0 < amount_quota (D := D) perUnit (tu_Amount o)
  end.

(** The order's row afterwards. *)
Definition call_row (c : topup_call) (now : Z) (o : TopUp) : TopUp :=
  match c with
  | TCEpay _ m => let o := completed now o in
                  if decide (m = "") then o else o <| tu_PaymentMethod := m |>
  | TCUpdatePending _ _ s => o <| tu_Status := s |>
  | _ => completed now o
  end.

(** What happens to the buyer's row [u]; nothing when the order is only marked. *)
Definition call_user (c : topup_call) (perUnit : F64.float64) (o : TopUp) (u : User)
    : option (User -> User) :=
  match c with
  | TCEpay _ _ | TCWaffo _ | TCWaffoPancake _ => Some (credit (amount_quota (D := D) perUnit (tu_Amount o)))
  | TCUpdatePending _ _ _ => None
  | TCStripe _ cust => Some (fun v => v <| u_StripeCustomer := cust |>
                               <| u_Quota := add_float (u_Quota v) (F64.mul (tu_Money o) perUnit) |>)
  | TCManual _ => Some (credit (manual_quota (D := D) perUnit o))
  | TCCreem _ email => Some (fun v => let v := credit (tu_Amount o) v in
      if negb (bool_decide (email = "")) && bool_decide (u_Email u = "")
      then v <| u_Email := email |> else v)
  end.

Definition topup_settled (c : topup_call) (perUnit : F64.float64) (now : Z) (d d' : DB) : Prop :=
  exists o, d_topups d !! call_trade c = Some o /\ tu_Status o = TopUpStatusPending /\
    call_accepts c perUnit o /\
    ((exists u f, live_user d (tu_UserId o) = Some u /\ call_user c perUnit o u = Some f /\
       d' = update_user (tu_UserId o) f (put_topup (call_row c now o) d)) \/
     ((forall u, call_user c perUnit o u = None) /\ d' = put_topup (call_row c now o) d)).

Definition topup_outcome (c : topup_call) (w : World) (r : result error unit) (w' : World) : Prop :=
  match r with
  | Err _ => w_db w' = w_db w
  | Ok _ =>
      (exists o, d_topups (w_db w) !! call_trade c = Some o /\ tu_Status o = TopUpStatusSuccess) /\
      w_db w' = w_db w \/
      topup_settled c (QuotaPerUnit (w_cfg w)) (w_now w) (w_db w) (w_db w')
  end.

(** A transaction whose body, on success, takes the view from [d] to a related
    one. *)
Lemma topup_tx c (body : MW unit) w :
  (forall d, preserves (fun w => w_db w = d) body) ->
  (forall w1 u w2, w_cfg w1 = w_cfg w -> w_now w1 = w_now w -> body w1 = (Ok u, w2) ->
     (exists o, d_topups (view HTX w1) !! call_trade c = Some o /\ tu_Status o = TopUpStatusSuccess) /\
     view HTX w2 = view HTX w1 \/
     topup_settled c (QuotaPerUnit (w_cfg w)) (w_now w) (view HTX w1) (view HTX w2)) ->
  topup_outcome c w (Transaction body w).1 (Transaction body w).2.
Proof.
  intros Hp Hb. pose proof (Transaction_atomic body w Hp) as Ha.
  destruct (Transaction body w) as [[u|e] w'] eqn:E; simpl; [|done].
  apply (Transaction_inv _ _ _ _ Hp) in E as (w1 & w2 & Hv & _ & (_ & Hn & _ & Hc) & Hrun & Hd).
  rewrite Hd, <- Hv. by eapply Hb.
Qed.

Lemma outcome_guard c b e (m : MW unit) w :
  topup_outcome c w (m w).1 (m w).2 ->
  topup_outcome c w ((guard_err b e ;; m) w).1 ((guard_err b e ;; m) w).2.
Proof. intros Hm. rewrite run_bind. unfold guard_err. by destruct b. Qed.
Lemma outcome_map_err c f (m : MW unit) w :
  topup_outcome c w (m w).1 (m w).2 ->
  topup_outcome c w (map_err f m w).1 (map_err f m w).2.
Proof. unfold map_err. by destruct (m w) as [[]]. Qed.

Lemma pending_status o : negb (is_pending o) = false -> tu_Status o = TopUpStatusPending.
Proof. unfold is_pending. intros Hn. apply negb_false_iff in Hn. by apply bool_decide_eq_true in Hn. Qed.
Lemma same_string (a b : string) : negb (bool_decide (a = b)) = false -> a = b.
Proof. intros Hn. apply negb_false_iff in Hn. by apply bool_decide_eq_true in Hn. Qed.

Lemma topup_credits c o u0 perUnit now f w1 w2 w3 u :
  d_topups (view HTX w1) !! call_trade c = Some o -> tu_Status o = TopUpStatusPending ->
  call_accepts c perUnit o ->
  view HTX w2 = put_topup (call_row c now o) (view HTX w1) ->
  live_user (view HTX w1) (tu_UserId o) = Some u0 -> call_user c perUnit o u0 = Some f ->
  update_one_user (tu_UserId o) f w2 = (Ok u, w3) ->
  topup_settled c perUnit now (view HTX w1) (view HTX w3).
Proof.
  intros Ho Hs Hok Hv Hu Hf Hr. apply update_one_user_inv in Hr as [_ Hv3].
  exists o. split; [done|]. split; [done|]. split; [done|]. left. exists u0, f.
  split; [done|]. split; [done|]. by rewrite Hv3, Hv.
Qed.
(** The buyer's row exists when the update hit it. *)
Lemma update_one_user_live id f g w1 w2 w3 u :
  view HTX w2 = put_topup g (view HTX w1) -> update_one_user id f w2 = (Ok u, w3) ->
  exists u0, live_user (view HTX w1) id = Some u0.
Proof.
  intros Hv Hr. apply update_one_user_inv in Hr as [Hh _]. rewrite Hv in Hh.
  unfold has_user in Hh. change (live_user (put_topup g (view HTX w1)) id) with (live_user (view HTX w1) id) in Hh.
  destruct (live_user (view HTX w1) id); [eauto|done].
Qed.

Lemma creem_email w (email : string) id b w' :
  (if decide (email = "") then mret false
   else user ← db_first HTX (fun d => live_user d id); mret (bool_decide (u_Email user = ""))) w
  = (Ok b, w') ->
  view HTX w' = view HTX w /\
  (forall u, live_user (view HTX w) id = Some u ->
     b = negb (bool_decide (email = "")) && bool_decide (u_Email u = "")).
Proof.
  intros Hr. case_decide as He.
  - apply run_ret_inv in Hr as [? ->]; subst b. split; [done|]. intros u _. by rewrite bool_decide_eq_true_2.
  - inv_bind Hr as u0 w1 E. apply db_first_inv in E as [Hu [fs ->]].
    apply run_ret_inv in Hr as [? ->]; subst b. split; [done|]. intros u Hu'.
    rewrite (bool_decide_eq_false_2 (email = "")) by done. simpl. assert (u = u0) by congruence. by subst.
Qed.

(** Worlds that differ in the fault list only. *)
Ltac norm_topup Hn Hc :=
  repeat match goal with
  | Hx : context [view HTX (?w <| w_faults := ?x |>)] |- _ =>
      change (view HTX (w <| w_faults := x |>)) with (view HTX w) in Hx
  | Hx : context [w_now (?w <| w_faults := ?x |>)] |- _ =>
      change (w_now (w <| w_faults := x |>)) with (w_now w) in Hx
  | Hx : context [w_cfg (?w <| w_faults := ?x |>)] |- _ =>
      change (w_cfg (w <| w_faults := x |>)) with (w_cfg w) in Hx
  | Hx : w_cfg _ = w_cfg _ |- _ => first [constr_eq Hx Hc; fail 1 | rewrite Hx in *; clear Hx]
  | Hx : w_now _ = w_now _ |- _ => first [constr_eq Hx Hn; fail 1 | clear Hx]
  end;
  rewrite ?Hn, ?Hc in *.
Ltac settle_topup Hr :=
  let u := fresh "u" in let Hu := fresh "Hu" in
  edestruct update_one_user_live as [u Hu]; [eassumption|exact Hr|];
  eapply topup_credits; try exact Hr; try exact Hu; by eauto.

Lemma exec_topup_outcome c w : topup_outcome c w (exec_topup c w).1 (exec_topup c w).2.
Proof.
  destruct c as [t m|t p s|t cust|t|t email|t|t]; simpl;
    unfold CompleteEpayTopUp, UpdatePendingTopUpStatus, Recharge, ManualCompleteTopUp, RechargeCreem,
      RechargeWaffo, RechargeWaffoPancake, recharge_amount;
    repeat first [apply outcome_guard | apply outcome_map_err]; apply topup_tx;
    try (intros d; unfold lock_topup, addUserQuota, update_one_user; by pres);
    intros w1 u w2 Hc Hn Hr; repeat topup_step Hr;
    repeat match goal with
    | Hx : negb (is_pending _) = false |- _ => apply pending_status in Hx
    | Hx : negb (bool_decide (tu_PaymentProvider _ = _)) = false |- _ => apply same_string in Hx
    | Hx : (_ <=? 0) = false |- _ => apply Z.leb_gt in Hx
    | Hx : tx_env _ _ |- _ => destruct Hx as (_ & ? & _ & ?)
    end.
  all: try (left; split; [by eauto|done]).
  all: right; norm_topup Hn Hc.
  - replace (tu_UserId (if decide (m = "") then _ else _)) with (tu_UserId o) in Hr by by case_decide.
    replace (tu_Amount (if decide (m = "") then _ else _)) with (tu_Amount o) in Hr by by case_decide.
    settle_topup Hr.
  - apply db_exec_inv in Hr as [Hv _]. exists o. do 2 (split; [done|]). split.
    { simpl. match goal with Hx : _ && _ = false |- _ => apply andb_false_iff in Hx as [Hx|Hx] end;
        [left|right]; by apply same_string. }
    right. split; [done|exact Hv].
  - settle_topup Hr.
  - settle_topup Hr.
  - inv_bind Hr as b w3 E. apply creem_email in E as [Hv3 Hb].
    match goal with Hx : view HTX w0 = _ |- _ => rewrite Hx in Hv3, Hb; simpl in Hb end.
    edestruct update_one_user_live as [u' Hu]; [exact Hv3|exact Hr|].
    rewrite (Hb u' Hu) in Hr. eapply (topup_credits (TCCreem t email)); by eauto.
  - settle_topup Hr.
  - settle_topup Hr.
Qed.

(** ** Sequences of calls *)

Definition credits (c : topup_call) : bool :=
  match c with TCUpdatePending _ _ _ => false | _ => true end.
(** The order a call credits, if it does: its own, pending before. *)
Definition credited (c : topup_call) (w : World) : list string :=
  match (exec_topup c w).1, d_topups (w_db w) !! call_trade c with
  | Ok _, Some o => if credits c && is_pending o then [call_trade c] else []
  | _, _ => []
  end.
Fixpoint run_topups (cs : list topup_call) (w : World) : list string * World :=
  match cs with
  | [] => ([], w)
  | c :: cs =>
      let '(ev, w') := run_topups cs (exec_topup c w).2 in (credited c w ++ ev, w')
  end.

(** trade_no is the key of its row. *)
Definition topups_keyed (d : DB) : Prop :=
  forall t o, d_topups d !! t = Some o -> tu_TradeNo o = t.

Lemma call_row_frame c now o :
  tu_TradeNo (call_row c now o) = tu_TradeNo o /\ tu_UserId (call_row c now o) = tu_UserId o.
Proof. destruct c; simpl; try case_decide; done. Qed.
Lemma call_user_frame c perUnit o u f :
  call_user c perUnit o u = Some f ->
  (forall v, u_DeletedAt (f v) = u_DeletedAt v) /\
  (forall now, tu_Status (call_row c now o) = TopUpStatusSuccess).
Proof.
  destruct c; intros [= <-]; split; intros; simpl; try case_decide; try done.
  by destruct (_ && _).
Qed.

(** What a call does to the tables, and which order it counts as credited. *)
Lemma exec_topup_db c w :
  let d := w_db w in let d' := w_db (exec_topup c w).2 in
  (credited c w = [] /\ d' = d) \/
  exists o, d_topups d !! call_trade c = Some o /\ tu_Status o = TopUpStatusPending /\
    ((credited c w = [] /\ d' = put_topup (call_row c (w_now w) o) d) \/
     (exists u f, credited c w = [call_trade c] /\
        call_user c (QuotaPerUnit (w_cfg w)) o u = Some f /\
        d' = update_user (tu_UserId o) f (put_topup (call_row c (w_now w) o) d))).
Proof.
  pose proof (exec_topup_outcome c w) as Hr. unfold credited.
  destruct (exec_topup c w) as [[u|e] w']; simpl in *; [|by left].
  destruct Hr as [[(o & Ho & Hs) Hd]|(o & Ho & Hs & _ & Hr)]; rewrite Ho; unfold is_pending; rewrite Hs.
  - left. by rewrite andb_false_r.
  - right. exists o. rewrite bool_decide_eq_true_2, andb_true_r by done. do 2 (split; [done|]).
    destruct Hr as [(u0 & f & _ & Hf & Hd)|[Hn Hd]].
    + right. exists u0, f. by destruct c.
    + left. split; [|done]. by destruct c; try specialize (Hn sample_user).
Qed.

Lemma exec_topup_rows c w t o' :
  topups_keyed (w_db w) -> d_topups (w_db (exec_topup c w).2) !! t = Some o' ->
  exists o, d_topups (w_db w) !! t = Some o /\ tu_TradeNo o' = t /\ tu_UserId o' = tu_UserId o /\
    (tu_Status o = TopUpStatusPending \/ o' = o) /\
    (t ∈ credited c w -> tu_Status o' = TopUpStatusSuccess).
Proof.
  intros Hk Ho'. destruct (exec_topup_db c w) as [[Hc Hd]|(o & Ho & Hs & Hr)].
  { rewrite Hd in Ho'. exists o'. rewrite Hc. split; [done|]. split; [by apply Hk|].
    do 2 (split; [by auto|]). intros Hin. by inversion Hin. }
  assert (Hd : d_topups (w_db (exec_topup c w).2)
               = <[call_trade c := call_row c (w_now w) o]> (d_topups (w_db w))).
  { rewrite <- (Hk _ _ Ho). destruct (call_row_frame c (w_now w) o) as [<- _].
    by destruct Hr as [[_ ->]|(u & f & _ & _ & ->)]. }
  rewrite Hd in Ho'. apply lookup_insert_Some in Ho' as [[<- <-]|[Hne Ho']].
  - exists o. destruct (call_row_frame c (w_now w) o) as [-> ->]. split; [done|].
    split; [by apply Hk|]. split; [done|]. split; [by left|]. intros Hin.
    destruct Hr as [[Hc _]|(u & f & _ & Hf & _)]; [rewrite Hc in Hin; by inversion Hin|].
    by apply (proj2 (call_user_frame _ _ _ _ _ Hf)).
  - exists o'. split; [done|]. split; [by apply Hk|]. do 2 (split; [by auto|]). intros Hin.
    destruct Hr as [[Hc _]|(u & f & Hc & _)]; rewrite Hc in Hin; [by inversion Hin|].
    by apply list_elem_of_singleton in Hin.
Qed.

Lemma credited_pending c w t :
  t ∈ credited c w -> exists o, d_topups (w_db w) !! t = Some o /\ tu_Status o = TopUpStatusPending.
Proof.
  destruct (exec_topup_db c w) as [[-> _]|(o & Ho & Hs & [[-> _]|(u & f & -> & _)])];
    intros Hin; [by inversion Hin..|]. apply list_elem_of_singleton in Hin as ->. by exists o.
Qed.
Lemma exec_topup_keyed c w : topups_keyed (w_db w) -> topups_keyed (w_db (exec_topup c w).2).
Proof. intros Hk t o' Ho'. by destruct (exec_topup_rows c w t o' Hk Ho') as (o & _ & Ht & _). Qed.

(** An order that is credited later was pending from the start. *)
Lemma run_topups_pending cs : forall w t,
  topups_keyed (w_db w) -> t ∈ (run_topups cs w).1 ->
  exists o, d_topups (w_db w) !! t = Some o /\ tu_Status o = TopUpStatusPending.
Proof.
  induction cs as [|c cs IH]; simpl; intros w t Hk Hin; [by inversion Hin|].
  specialize (IH _ t (exec_topup_keyed c w Hk)). destruct (run_topups cs _) as [ev w']; simpl in *.
  apply elem_of_app in Hin as [Hin|Hin]; [by eapply credited_pending|].
  destruct (IH Hin) as (o' & Ho' & Hs). destruct (exec_topup_rows c w t o' Hk Ho') as (o & Ho & _ & _ & [Hp| ->] & _);
    by eauto.
Qed.

Lemma run_topups_once cs : forall w, topups_keyed (w_db w) -> NoDup (run_topups cs w).1.
Proof.
  induction cs as [|c cs IH]; simpl; intros w Hk; [constructor|].
  specialize (IH _ (exec_topup_keyed c w Hk)).
  pose proof (fun t => run_topups_pending cs (exec_topup c w).2 t (exec_topup_keyed c w Hk)) as Hlater.
  destruct (run_topups cs _) as [ev w']; simpl in *. apply NoDup_app. split_and!; [|..|done].
  - destruct (exec_topup_db c w) as [[-> _]|(o & _ & _ & [[-> _]|(u & f & -> & _)])];
      [constructor..|apply NoDup_singleton].
  - intros t Hc Hev. destruct (Hlater t Hev) as (o' & Ho' & Hs).
    destruct (exec_topup_rows c w t o' Hk Ho') as (_ & _ & _ & _ & _ & Hsucc).
    rewrite (Hsucc Hc) in Hs. discriminate.
Qed.

(** The buyers of the listed orders. *)
Definition owns (d : DB) (ev : list string) (id : Z) : Prop :=
  exists t o, t ∈ ev /\ d_topups d !! t = Some o /\ tu_UserId o = id.

Lemma exec_topup_users c w id :
  ~ owns (w_db w) (credited c w) id ->
  live_user (w_db (exec_topup c w).2) id = live_user (w_db w) id.
Proof.
  intros Hno. destruct (exec_topup_db c w) as [[_ ->]|(o & Ho & _ & [[_ ->]|(u & f & Hc & Hf & ->)])];
    [done..|]. rewrite live_update_user by apply (call_user_frame _ _ _ _ _ Hf).
  case_decide as Hid; [|done]. destruct Hno. exists (call_trade c), o. rewrite Hc. split; [by left|done].
Qed.
Lemma run_topups_users cs id : forall w,
  topups_keyed (w_db w) -> ~ owns (w_db w) (run_topups cs w).1 id ->
  live_user (w_db (run_topups cs w).2) id = live_user (w_db w) id.
Proof.
  induction cs as [|c cs IH]; simpl; intros w Hk Hno; [done|].
  specialize (IH _ (exec_topup_keyed c w Hk)). pose proof (exec_topup_rows c w) as Hrows.
  destruct (run_topups cs _) as [ev w']; simpl in *. rewrite IH.
  - apply exec_topup_users. intros (t & o & Hin & Ho). apply Hno. exists t, o. rewrite elem_of_app. naive_solver.
  - intros (t & o' & Hin & Ho' & Hid). destruct (Hrows _ _ Hk Ho') as (o & Ho & _ & Hu & _).
    apply Hno. exists t, o. rewrite elem_of_app. split; [by right|]. by rewrite <- Hu.
Qed.

(** A completion of a top-up order (by any provider's webhook, by the
    administrator, or by marking it) is atomic: on every error, injected database
    failures included, the committed tables are unchanged.  On success the order
    was already completed and nothing changes, or it was pending and of the call's
    provider, its row is the one the code writes, and exactly its buyer's row is
    credited with the order's quota. *)
Theorem topup_call_spec c w : topup_outcome c w (exec_topup c w).1 (exec_topup c w).2.
Proof. apply exec_topup_outcome. Qed.

(** C37 Whatever sequence of completions runs, repeated webhooks, administrator
    and webhook on the same order, any database failures, no order is credited
    twice, only orders that were pending are credited, and a wallet that owns none
    of them is unchanged. *)
Theorem topups_credit_once cs w :
  topups_keyed (w_db w) ->
  let ev := (run_topups cs w).1 in let w' := (run_topups cs w).2 in
  NoDup ev /\
  (forall t, t ∈ ev -> exists o, d_topups (w_db w) !! t = Some o /\ tu_Status o = TopUpStatusPending) /\
  (forall id, ~ owns (w_db w) ev id -> live_user (w_db w') id = live_user (w_db w) id).
Proof.
  intros Hk. split; [by apply run_topups_once|]. split; [|intros id; by apply run_topups_users].
  intros t. by apply run_topups_pending.
Qed.
End topup.

Definition sample_topup : TopUp :=
  mkTopUp 1 2 (F64.of_Z 2) "t1" "" PaymentProviderEpay 0 0 TopUpStatusPending.
Definition topup_world : World :=
  sample_world <| w_db := put_topup sample_topup sample_db |>.
Definition plain_add (q : Z) (x : F64.float64) : Z :=
  q + F64.to_Z x.

Lemma topups_credit_once_witness :
  let cs := [TCEpay "t1" "alipay"; TCManual "t1"; TCEpay "t1" ""; TCUpdatePending "t1" "" "failed"] in
  let r := run_topups (D := Q) plain_add cs topup_world in
  r.1 = ["t1"] /\ select_quota 1 (w_db r.2) = 1100000 /\ NoDup r.1.
Proof.
  intros cs r. split; [vm_compute; reflexivity|]. split; [vm_compute; reflexivity|].
  apply (topups_credit_once (D := Q) plain_add cs topup_world).
  intros t o Ho. change (<["t1" := sample_topup]> (∅ : gmap string TopUp) !! t = Some o) in Ho.
  rewrite insert_empty in Ho. apply lookup_singleton_Some in Ho as [<- <-]. reflexivity.
Defined.

(** RechargeCreem credits an order's amount as it is, ManualCompleteTopUp credits the
    same order's amount multiplied by the quota per unit. *)
Theorem manual_overcredits_creem :
  let creem := sample_topup <| tu_PaymentProvider := PaymentProviderCreem |> in
  let w := sample_world <| w_db := put_topup creem sample_db |> in
  select_quota 1 (w_db (RechargeCreem "t1" "" w).2) = 100002 /\
  select_quota 1 (w_db (ManualCompleteTopUp (D := Q) "t1" w).2) = 1100000.
Proof. vm_compute. done. Qed.
