(* ===== verification/Funding.v ===== *)
(** * Funding sources (src/service/funding_source.go)

    The Go interface FundingSource as a class, its two implementations, and the
    contract the billing session relies on. *)

From S2P Require Import Prelude GoStd GoFloat World Sample ModelUtils UserModel TokenModel SubscriptionTime Subscription SubscriptionProofs.

Definition BillingSourceWallet : string := "wallet".
Definition BillingSourceSubscription : string := "subscription".

(** The methods; PreConsume returns the receiver with the fields it assigned. *)
Class Funding (F : Type) := {
  Source : F -> string;
  fPreConsume : F -> Z -> MW F;
  fSettle : F -> Z -> MW unit;
  fRefund : F -> MW unit;
}.

(** ** The wallet *)

Definition Wallet_PreConsume (f : WalletFunding) (amount : Z) : MW WalletFunding :=
  if amount <=? 0 then mret f
  else
    DecreaseUserQuota (wf_userId f) amount false ;;
    mret (f <| wf_consumed := amount |> : WalletFunding).

Definition Wallet_Settle (f : WalletFunding) (delta : Z) : MW unit :=
  if delta =? 0 then mret tt
  else if delta >? 0 then DecreaseUserQuota (wf_userId f) delta false
  else IncreaseUserQuota (wf_userId f) (- delta) false.

Definition Wallet_Refund (f : WalletFunding) : MW unit :=
  if wf_consumed f <=? 0 then mret tt
  else IncreaseUserQuota (wf_userId f) (wf_consumed f) false.

#[export] Instance Wallet_Funding : Funding WalletFunding := {|
  Source := fun _ => BillingSourceWallet;
  fPreConsume := Wallet_PreConsume;
  fSettle := Wallet_Settle;
  fRefund := Wallet_Refund;
|}.

(** ** The subscription *)

(** At most [attempts] tries; the last error is the one returned. *)
Fixpoint retry (attempts : nat) (fn : MW unit) (lastErr : result error unit) : MW unit :=
  match attempts with
  | O => of_result lastErr
  | S n =>
      r ← attempt fn;
      match r with
      | Ok _ => mret tt
      | Err e => retry n fn (Err e)
      end
  end.
Definition refundWithRetry (fn : MW unit) : MW unit := retry 3 fn (Ok tt).

(** The amount argument is ignored: the amount of the receiver is charged.  A
    failure to read the plan's title is ignored. *)
Definition Subscription_PreConsume (f : SubscriptionFunding) (_ : Z) : MW SubscriptionFunding :=
  res ← PreConsumeUserSubscription (sf_requestId f) (sf_userId f) (sf_modelName f) 0 (sf_amount f);
  let f := f <| sf_subscriptionId := pr_UserSubscriptionId res |>
             <| sf_preConsumed := pr_PreConsumed res |>
             <| sf_AmountTotal := pr_AmountTotal res |>
             <| sf_AmountUsedAfter := pr_AmountUsedAfter res |> in
  info ← attempt (GetSubscriptionPlanInfoByUserSubscriptionId (pr_UserSubscriptionId res));
  mret (match info with
        | Ok (planId, title) => f <| sf_PlanId := planId |> <| sf_PlanTitle := title |>
        | Err _ => f
        end : SubscriptionFunding).

Definition Subscription_Settle (f : SubscriptionFunding) (delta : Z) : MW unit :=
  if delta =? 0 then mret tt
  else PostConsumeUserSubscriptionDelta (sf_subscriptionId f) delta.

Definition Subscription_Refund (f : SubscriptionFunding) : MW unit :=
  if sf_preConsumed f <=? 0 then mret tt
  else refundWithRetry (RefundSubscriptionPreConsume (sf_requestId f)).

#[export] Instance Subscription_Funding : Funding SubscriptionFunding := {|
  Source := fun _ => BillingSourceSubscription;
  fPreConsume := Subscription_PreConsume;
  fSettle := Subscription_Settle;
  fRefund := Subscription_Refund;
|}.

(** ** The interface value: dynamic dispatch on the implementation *)

#[export] Instance FundingSource_Funding : Funding FundingSource := {|
  Source := fun f => match f with FWallet x => Source x | FSubscription x => Source x end;
  fPreConsume := fun f amount => match f with
    | FWallet x => x' ← fPreConsume x amount; mret (FWallet x')
    | FSubscription x => x' ← fPreConsume x amount; mret (FSubscription x')
    end;
  fSettle := fun f delta => match f with
    | FWallet x => fSettle x delta | FSubscription x => fSettle x delta end;
  fRefund := fun f => match f with FWallet x => fRefund x | FSubscription x => fRefund x end;
|}.

(** ** The contract

    [balance f w] is what the source still has: the wallet's quota, or minus the
    used amount of the subscription.  A settlement that reports success moved it
    by exactly [delta]; one that reports an error moved nothing; no token is
    touched.  A subscription stops at 0 used, so giving back more than is used
    (a quota reset came in between) is excluded by [exact]. *)
Class FundingLaws (F : Type) `{Funding F} := {
  balance : F -> World -> Z;
  exact : F -> Z -> World -> Prop;
  settle_law f delta w : exact f delta w ->
    match fSettle f delta w with
    | (Ok _, w') => balance f w' = balance f w - delta
    | (Err _, w') => balance f w' = balance f w
    end;
  settle_tokens f delta w : same_tokens w (fSettle f delta w).2;
  balance_frame f w w' : same_wallets w w' -> same_subs w w' -> balance f w' = balance f w;
}.

(** *** Wallet *)

Lemma wallet_moved_tokens id delta w w' : wallet_moved id delta w w' -> same_tokens w w'.
Proof. intros (_ & H & _). done. Qed.
Lemma same_tokens_faults w fs : same_tokens w (w <| w_faults := fs |>).
Proof. done. Qed.

(** A settlement of the wallet in one statement. *)
Lemma Wallet_Settle_run f delta w :
  match Wallet_Settle f delta w with
  | (Ok _, w') => wallet_moved (wf_userId f) (- delta) w w'
  | (Err _, w') => exists fs, w' = w <| w_faults := fs |>
  end.
Proof.
  unfold Wallet_Settle. destruct (delta =? 0) eqn:H0; bools.
  { subst. split; [|by repeat split]. intros id. case_decide; lia. }
  destruct (delta >? 0) eqn:H1; bools.
  - pose proof (DecreaseUserQuota_run (wf_userId f) delta false w) as H. case_run H; [|done].
    by destruct H as (_ & H & _).
  - pose proof (IncreaseUserQuota_run (wf_userId f) (- delta) false w) as H. case_run H; [|done].
    by destruct H as (_ & H & _).
Qed.

#[export, refine] Instance Wallet_FundingLaws : FundingLaws WalletFunding := {|
  balance := fun f w => wallet w (wf_userId f);
  exact := fun _ _ _ => True;
|}.
Proof.
  - intros f delta w _. pose proof (Wallet_Settle_run f delta w) as H. simpl in *.
    case_run H; simpl; [|by destruct H as [fs ->]].
    destruct H as (H & _). rewrite H, decide_True by done. lia.
  - intros f delta w. pose proof (Wallet_Settle_run f delta w) as H. simpl in *.
    case_run H; simpl; [by eapply wallet_moved_tokens|by destruct H as [fs ->]].
  - intros f w w' Hw _. apply Hw.
Defined.

(** *** Subscription *)

Definition used_of (d : DB) (id : Z) : Z :=
  match d_subs d !! id with Some s => s_AmountUsed s | None => 0 end.

(** The ledger of wallets and tokens only depends on these parts. *)
Lemma same_ledger w w' :
  d_users (w_db w') = d_users (w_db w) -> d_tokens (w_db w') = d_tokens (w_db w) ->
  w_batch w' = w_batch w -> same_wallets w w' /\ same_tokens w w'.
Proof.
  intros Hu Ht Hb. split; [|split]; intros id; unfold wallet, token_remain, token_used, pending,
    select_quota, select_remain, select_used, live_user, live_token; by rewrite ?Hu, ?Ht, Hb.
Qed.

(** Subscription operations only touch the subscription tables. *)
Definition ledger_of (w w' : World) : Prop :=
  d_users (w_db w') = d_users (w_db w) /\ d_tokens (w_db w') = d_tokens (w_db w) /\
  w_batch w' = w_batch w /\
  Forall (fun f => forall d, d_users (f d) = d_users d /\ d_tokens (f d) = d_tokens d) (w_log w').

Lemma apply_log_ledger log d :
  Forall (fun f => forall d, d_users (f d) = d_users d /\ d_tokens (f d) = d_tokens d) log ->
  d_users (apply_log log d) = d_users d /\ d_tokens (apply_log log d) = d_tokens d.
Proof.
  unfold apply_log. revert d. induction log as [|f log IH]; intros d; [done|].
  intros [Hf Hl]%Forall_cons. simpl. destruct (IH (f d) Hl) as [-> ->]. apply Hf.
Qed.

Lemma ledger_write w0 h f w :
  (forall d, d_users (f d) = d_users d /\ d_tokens (f d) = d_tokens d) ->
  ledger_of w0 w -> ledger_of w0 (exec_write h f w).
Proof.
  intros Hf (Hu & Ht & Hb & Hl). destruct h; simpl.
  - destruct (Hf (w_db w)) as [Hfu Hft]. split; [simpl; congruence|]. split; [simpl; congruence|].
    by split.
  - repeat split; try done. apply Forall_app. split; [done|]. by constructor.
Qed.

Lemma ledger_Transaction w0 {A} (fn : MW A) :
  preserves (ledger_of w0) fn -> preserves (ledger_of w0) (Transaction fn).
Proof.
  intros Hfn w (Hu & Ht & Hb & Hl). unfold Transaction.
  destruct (ext_call_cases w) as (fs & Hw1 & Hr).
  destruct (ext_call w) as [r1 w1]; simpl in *; subst w1.
  destruct Hr as [->|[msg ->]]; [|done].
  specialize (Hfn (w <| w_faults := fs |> <| w_log := [] |>)).
  destruct (fn _) as [[a|e] w2]; simpl in Hfn; destruct Hfn as (Hu2 & Ht2 & Hb2 & Hl2); try done.
  destruct (ext_call_cases w2) as (fs2 & Hw3 & Hr3).
  destruct (ext_call w2) as [r3 w3]; simpl in *; subst w3.
  destruct (apply_log_ledger _ (w_db w2) Hl2) as [Hau Hat].
  destruct Hr3 as [->|[msg3 ->]]; repeat split; simpl; try done; congruence.
Qed.

(** The same without an open transaction. *)
Definition ledger_db (w w' : World) : Prop :=
  d_users (w_db w') = d_users (w_db w) /\ d_tokens (w_db w') = d_tokens (w_db w) /\
  w_batch w' = w_batch w.
Lemma ledger_Transaction_db w0 {A} (fn : MW A) :
  preserves (ledger_of w0) fn -> preserves (ledger_db w0) (Transaction fn).
Proof.
  intros Hfn w (Hu & Ht & Hb).
  pose proof (ledger_Transaction w0 fn Hfn (w <| w_log := [] |>)) as H.
  assert (Heq : (Transaction fn w).2 = (Transaction fn (w <| w_log := [] |>)).2 <| w_log := w_log w |>).
  { unfold Transaction, ext_call. simpl. destruct (w_faults w) as [|[msg|] fs]; simpl; try done;
      (destruct (fn _) as [[a|e] w2]; simpl; [|done]);
      by destruct (w_faults w2) as [|[msg2|] fs2]. }
  rewrite Heq. destruct H as (H1 & H2 & H3 & _); [by repeat split|]. done.
Qed.

Ltac pres_ledger :=
  repeat (first [ apply ledger_Transaction | apply ledger_Transaction_db
    | apply preserves_modify; intros ? ?; by apply ledger_write
    | apply preserves_db_exec; [by intros|intros ? ?; by apply ledger_write]
    | pres_step ]).

Lemma SaveSub_ledger w0 s : preserves (ledger_of w0) (SaveSub HTX s).
Proof. unfold SaveSub, GetTimestamp. pres_ledger. Qed.
Lemma SaveRecord_ledger w0 r : preserves (ledger_of w0) (SaveRecord HTX r).
Proof. unfold SaveRecord, GetTimestamp. pres_ledger. Qed.
Lemma CreateRecord_ledger w0 r : preserves (ledger_of w0) (CreateRecord HTX r).
Proof. unfold CreateRecord, GetTimestamp. pres_ledger. Qed.
Lemma getPlan_ledger w0 h id : preserves (ledger_of w0) (getSubscriptionPlanByIdTx h id).
Proof. unfold getSubscriptionPlanByIdTx, plan_cache_get, plan_cache_set, cache_call. pres_ledger. Qed.
Lemma getPlan_ledger_db w0 h id : preserves (ledger_db w0) (getSubscriptionPlanByIdTx h id).
Proof. unfold getSubscriptionPlanByIdTx, plan_cache_get, plan_cache_set, cache_call. pres_ledger. Qed.
#[export] Hint Resolve SaveSub_ledger SaveRecord_ledger CreateRecord_ledger getPlan_ledger
  getPlan_ledger_db : preserves.
Lemma PostConsume_ledger w0 id delta : preserves (ledger_of w0) (PostConsumeUserSubscriptionDelta id delta).
Proof. unfold PostConsumeUserSubscriptionDelta. pres_ledger. Qed.
#[export] Hint Resolve PostConsume_ledger : preserves.
Lemma PostConsume_ledger_db w0 id delta : preserves (ledger_db w0) (PostConsumeUserSubscriptionDelta id delta).
Proof. unfold PostConsumeUserSubscriptionDelta. pres_ledger. Qed.
Lemma Refund_ledger_db w0 rid : preserves (ledger_db w0) (RefundSubscriptionPreConsume rid).
Proof. unfold RefundSubscriptionPreConsume. pres_ledger. Qed.
Lemma maybeReset_ledger w0 sub plan now :
  preserves (ledger_of w0) (maybeResetUserSubscriptionWithPlanTx HTX sub plan now).
Proof. unfold maybeResetUserSubscriptionWithPlanTx. pres_ledger. Qed.
#[export] Hint Resolve PostConsume_ledger_db Refund_ledger_db maybeReset_ledger : preserves.
Lemma try_candidates_ledger w0 rid uid amount now subs :
  preserves (ledger_of w0) (try_candidates rid uid amount now subs).
Proof. induction subs as [|c rest IH]; simpl; [apply preserves_fail|]. unfold consume_from. pres_ledger. Qed.
Lemma PreConsume_ledger_db w0 rid uid m qt a :
  preserves (ledger_db w0) (PreConsumeUserSubscription rid uid m qt a).
Proof.
  unfold PreConsumeUserSubscription, pre_consume_tx, GetDBTimestamp.
  pose proof (try_candidates_ledger w0). pres_ledger.
Qed.
Lemma PlanInfo_ledger_db w0 id : preserves (ledger_db w0) (GetSubscriptionPlanInfoByUserSubscriptionId id).
Proof. unfold GetSubscriptionPlanInfoByUserSubscriptionId, cache_call. pres_ledger. Qed.

Lemma ledger_db_same w w' : ledger_db w w' -> same_wallets w w' /\ same_tokens w w'.
Proof. intros (? & ? & ?). by apply same_ledger. Qed.

Lemma retry_preserves I n fn r : preserves I fn -> preserves I (retry n fn r).
Proof.
  intros Hfn. revert r. induction n as [|n IH]; intros r; simpl; pres.
Qed.

Lemma Subscription_ledger f delta w0 :
  preserves (ledger_db w0) (Subscription_Settle f delta) /\
  preserves (ledger_db w0) (Subscription_Refund f) /\
  preserves (ledger_db w0) (Subscription_PreConsume f delta).
Proof.
  pose proof (PreConsume_ledger_db w0). pose proof (PlanInfo_ledger_db w0). split; [|split].
  - unfold Subscription_Settle. pres_ledger.
  - unfold Subscription_Refund, refundWithRetry. destruct (_ <=? 0); [apply preserves_ret|].
    apply retry_preserves. apply Refund_ledger_db.
  - unfold Subscription_PreConsume. pres_ledger.
Qed.

#[export, refine] Instance Subscription_FundingLaws : FundingLaws SubscriptionFunding := {|
  balance := fun f w => - used_of (w_db w) (sf_subscriptionId f);
  exact := fun f delta w => subs_ok (w_db w) /\ 0 <= used_of (w_db w) (sf_subscriptionId f) + delta;
|}.
Proof.
  - intros f delta w [Hd Hx]. simpl. unfold Subscription_Settle.
    destruct (delta =? 0) eqn:Hz; bools; [simpl; lia|].
    pose proof (PostConsume_run (sf_subscriptionId f) delta w) as H.
    case_run H; [|by rewrite H].
    destruct H as [_ [[Hd0 _]|(s & Hs & _ & Hdb)]]; [done|].
    destruct (subs_ok_lookup _ _ _ Hd Hs) as [Hid _]. unfold used_of in *.
    rewrite Hs in Hx. rewrite Hdb, Hs. simpl. rewrite Hid, lookup_insert_eq. simpl. lia.
  - intros f delta w. apply ledger_db_same. by apply (Subscription_ledger f delta w).
  - intros f w w' _ (Hs & _). simpl. unfold used_of. by rewrite Hs.
Defined.

#[export, refine] Instance FundingSource_FundingLaws : FundingLaws FundingSource := {|
  balance := fun f => match f with FWallet x => balance x | FSubscription x => balance x end;
  exact := fun f => match f with FWallet x => exact x | FSubscription x => exact x end;
|}.
Proof.
  - intros [f|f]; exact (settle_law f).
  - intros [f|f]; exact (settle_tokens f).
  - intros [f|f]; exact (balance_frame f).
Defined.
