(* ===== verification/TaskBilling.v ===== *)
(** * Billing of asynchronous tasks (src/service/task_billing.go)

    A task is charged when it is submitted; when it ends, the poller refunds it
    or settles the difference to the actual quota.  Log rows are returned; their
    text and JSON columns, and with them the reasons, are left out. *)

From S2P Require Import Prelude GoStd GoFloat QuotaMath PriceData RatioSetting World Sample ModelUtils UserModel TokenModel BatchUpdate SubscriptionTime Subscription TaskModel Funding.

Definition LogTypeConsume : Z := 2.
Definition LogTypeRefund : Z := 6.

(** src/model/log.go, RecordTaskBillingLogParams *)
Record TaskBillingLog := mkTaskLog {
  tl_UserId : Z;
  tl_LogType : Z;
  tl_ChannelId : Z;
  tl_ModelName : string;
  tl_Quota : Z;
  tl_TokenId : Z;
  tl_Group : string;
  tl_NodeName : string;
}.

(** An empty key when the token is gone or the query fails. *)
Definition resolveTokenKey (tokenId : Z) : MW string :=
  r ← attempt (GetTokenById tokenId);
  mret (match r with Ok token => t_Key token | Err _ => "" end).

Definition taskIsSubscription (task : Task) : bool :=
  bool_decide (pv_BillingSource (tk_PrivateData task) = BillingSourceSubscription)
  && (pv_SubscriptionId (tk_PrivateData task) >? 0).

(** [delta > 0] charges, [delta < 0] refunds. *)
Definition taskAdjustFunding (task : Task) (delta : Z) : MW unit :=
  if taskIsSubscription task
  then PostConsumeUserSubscriptionDelta (pv_SubscriptionId (tk_PrivateData task)) delta
  else if delta >? 0 then DecreaseUserQuota (tk_UserId task) delta false
  else IncreaseUserQuota (tk_UserId task) (- delta) false.

(** Errors are only logged. *)
Definition taskAdjustTokenQuota (task : Task) (delta : Z) : MW unit :=
  let tokenId := pv_TokenId (tk_PrivateData task) in
  if (tokenId <=? 0) || (delta =? 0) then mret tt
  else
    tokenKey ← resolveTokenKey tokenId;
    if decide (tokenKey = "") then mret tt
    else ignore_err (if delta >? 0 then DecreaseTokenQuota tokenId tokenKey delta
                     else IncreaseTokenQuota tokenId tokenKey (- delta)).

Definition taskModelName (task : Task) : string :=
  match pv_BillingContext (tk_PrivateData task) with
  | Some bc => if decide (bc_OriginModelName bc = "") then pr_OriginModelName (tk_Properties task)
               else bc_OriginModelName bc
  | None => pr_OriginModelName (tk_Properties task)
  end.

Definition RefundTaskQuota (task : Task) : MW (option TaskBillingLog) :=
  let quota := tk_Quota task in
  if quota =? 0 then mret None
  else
    r ← attempt (taskAdjustFunding task (- quota));
    match r with
    | Err _ => mret None
    | Ok _ =>
        taskAdjustTokenQuota task (- quota) ;;
        mret (Some (mkTaskLog (tk_UserId task) LogTypeRefund (tk_ChannelId task) (taskModelName task)
                      quota (pv_TokenId (tk_PrivateData task)) (tk_Group task) ""))
    end.

(** The task object is updated in memory, then its quota column. *)
Definition RecalculateTaskQuota (task : Task) (actualQuota : Z) : MW (Task * option TaskBillingLog) :=
  if actualQuota <=? 0 then mret (task, None)
  else
    let quotaDelta := actualQuota - tk_Quota task in
    if quotaDelta =? 0 then mret (task, None)
    else
      r ← attempt (taskAdjustFunding task quotaDelta);
      match r with
      | Err _ => mret (task, None)
      | Ok _ =>
          taskAdjustTokenQuota task quotaDelta ;;
          let task : Task := task <| tk_Quota := actualQuota |> in
          ignore_err (UpdateTaskQuota task) ;;
          (if quotaDelta >? 0 then
             UpdateUserUsedQuotaAndRequestCount (tk_UserId task) quotaDelta ;;
             UpdateChannelUsedQuota (tk_ChannelId task) quotaDelta
           else mret tt) ;;
          mret (task, Some (mkTaskLog (tk_UserId task)
            (if quotaDelta >? 0 then LogTypeConsume else LogTypeRefund) (tk_ChannelId task)
            (taskModelName task) (Z.abs quotaDelta) (pv_TokenId (tk_PrivateData task)) (tk_Group task)
            (pv_NodeName (tk_PrivateData task))))
      end.

Section recalculate.
Context (rs : RatioSettings) (range : gmap string F64.float64 -> list (string * F64.float64)).

Definition taskBillingContextPriceData (bc : option TaskBillingContext) : option PriceData :=
  match bc with
  | None => None
  | Some bc =>
      if decide (bc_OtherRatios bc = ∅) then None
      else let '(priceData, ok) := ReplaceOtherRatios range zero_PriceData (bc_OtherRatios bc) in
           if ok : bool then Some priceData else None
  end.

(** The group of the task, or else of its user. *)
Definition task_group (task : Task) : MW string :=
  if decide (tk_Group task = "") then
    r ← attempt (GetUserById (tk_UserId task));
    mret (match r with Ok user => u_Group user | Err _ => "" end)
  else mret (tk_Group task).

Definition tokens_quota (totalTokens : Z) (modelRatio : F64.float64) (group : string) (task : Task) : Z :=
  let '(userGroupRatio, hasUserGroupRatio) := GetGroupGroupRatio rs group group in
  let finalGroupRatio := if hasUserGroupRatio : bool then userGroupRatio else GetGroupRatio rs group in
  let otherMultiplier :=
    match taskBillingContextPriceData (pv_BillingContext (tk_PrivateData task)) with
    | Some priceData => OtherRatioMultiplier range priceData
    | None => F64.one
    end in
  Quota.QuotaFromFloat
    (F64.mul (F64.mul (F64.mul (F64.of_Z totalTokens) modelRatio) finalGroupRatio) otherMultiplier).

Definition RecalculateTaskQuotaByTokens (task : Task) (totalTokens : Z)
    : MW (Task * option TaskBillingLog) :=
  if totalTokens <=? 0 then mret (task, None)
  else
    let '(modelRatio, hasRatioSetting, _) := GetModelRatio rs (taskModelName task) in
    if negb hasRatioSetting || F64.leb modelRatio F64.zero then mret (task, None)
    else
      group ← task_group task;
      if decide (group = "") then mret (task, None)
      else RecalculateTaskQuota task (tokens_quota totalTokens modelRatio group task).
End recalculate.
