(* ===== verification/TaskPolling.v ===== *)
(** * Polling of asynchronous tasks (src/service/task_polling.go)

    A poller reads unfinished rows, asks the upstream for each of them and writes
    the new status back.  The row in memory is a copy that other pollers may have
    overtaken.  JSON decoding, the redaction of response bodies, channel lookup and
    the platform adaptors are parameters.  Cancellation of the context is a
    predicate on the position in a loop. *)

From S2P Require Import Prelude GoStd GoFloat QuotaMath PriceData RatioSetting World Sample ModelUtils UserModel TokenModel BatchUpdate SubscriptionTime Subscription TaskModel Funding TaskBilling.

(** ** Data *)

(** src/relay/common/relay_info.go *)
Record TaskInfo := mkTaskInfo {
  ti_Code : Z;
  ti_TaskID : string;
  ti_Status : string;
  ti_Reason : string;
  ti_Url : string;
  ti_RemoteUrl : string;
  ti_Progress : string;
  ti_CompletionTokens : Z;
  ti_TotalTokens : Z;
}.
#[export] Instance TaskInfo_settable : Settable TaskInfo :=
  fields_of mkTaskInfo < ti_Code; ti_TaskID; ti_Status; ti_Reason; ti_Url; ti_RemoteUrl;
    ti_Progress; ti_CompletionTokens; ti_TotalTokens >.
Definition FailTaskInfo (reason : string) : TaskInfo :=
  mkTaskInfo 0 "" "FAILURE" reason "" "" "" 0 0.

(** src/dto/suno.go *)
Record SunoDataResponse := mkSuno {
  sd_TaskID : string;
  sd_Action : string;
  sd_Status : string;
  sd_FailReason : string;
  sd_SubmitTime : Z;
  sd_StartTime : Z;
  sd_FinishTime : Z;
  sd_Data : string;
}.

(** What polling reads of a channel. *)
Record PollChannel := mkPollChannel {
  ch_BaseURL : string;             (** GetBaseURL, or the default of the type *)
  ch_Key : string;
  ch_Proxy : string;
}.
(** The request of FetchTask and its answer: the status code and the body, whose
    read can fail. *)
Record FetchRequest := mkFetch {
  fq_BaseURL : string;
  fq_Key : string;
  fq_TaskIds : list string;
  fq_Action : string;
  fq_Proxy : string;
}.
Definition HTTPResponse : Type := Z * result error string.

Record TaskPollingAdaptor := mkAdaptor {
  FetchTask : FetchRequest -> result error HTTPResponse;
  ParseTaskResult : string -> result error TaskInfo;
  AdjustBillingOnComplete : Task -> TaskInfo -> Z;
}.

Definition ProgressSubmitted : string := "10%".
Definition ProgressQueued : string := "20%".
Definition ProgressInProgress : string := "30%".
Definition ProgressComplete : string := "100%".

Definition maxTaskPollingResponseBytes : Z := 1048576.
Definition readTaskPollingBody (body : result error string) : result error string :=
  match body with
  | Err e => Err e
  | Ok data => if Z.of_nat (String.length data) >? maxTaskPollingResponseBytes
               then Err (ErrNew "task polling response exceeds 1048576 bytes") else Ok data
  end.

(** ** Timed-out tasks *)

Definition legacyTaskCutoff : Z := 1740182400.
Definition isLegacy (task : Task) : bool :=
  (tk_SubmitTime task >? 0) && (tk_SubmitTime task <? legacyTaskCutoff).
Definition timeout_reason (minutes : Z) : string := "任务超时（" +:+ pretty minutes +:+ "分钟）".
Definition legacyReason : string := "任务超时（旧系统遗留任务，不进行退款，请联系管理员）".

Definition timed_out_task (minutes now : Z) (task : Task) : Task :=
  task <| tk_Status := TaskStatusFailure |> <| tk_Progress := "100%" |> <| tk_FinishTime := now |>
       <| tk_FailReason := if isLegacy task then legacyReason else timeout_reason minutes |>.

(** One iteration: whether this process moved the task, and its refund. *)
Definition sweep_task (minutes now : Z) (task : Task) : MW bool :=
  let oldStatus := tk_Status task in
  let task' := timed_out_task minutes now task in
  r ← attempt (UpdateWithStatus task' oldStatus);
  match r with
  | Ok true =>
      (if negb (isLegacy task) && negb (tk_Quota task =? 0)
       then ignore_err (RefundTaskQuota task') else mret tt) ;;
      mret true
  | _ => mret false
  end.

Fixpoint sweep_tasks (minutes now : Z) (tasks : list Task) (timedOutCount : Z) : MW Z :=
  match tasks with
  | [] => mret timedOutCount
  | task :: tasks =>
      won ← sweep_task minutes now task;
      sweep_tasks minutes now tasks (if won : bool then timedOutCount + 1 else timedOutCount)
  end.

Definition sweepTimedOutTasks (TaskTimeoutMinutes : Z) : MW Z :=
  if TaskTimeoutMinutes <=? 0 then mret 0
  else
    now ← GetTimestamp;
    tasks ← GetTimedOutUnfinishedTasks (now - TaskTimeoutMinutes * 60) 100;
    sweep_tasks TaskTimeoutMinutes now tasks 0.

Section polling.
Context (rs : RatioSettings) (range : gmap string F64.float64 -> list (string * F64.float64)).
(** common.Unmarshal of the body into TaskResponse[model.Task]: its code and data. *)
Context (unmarshal_task : string -> option (string * Task)).
(** common.Unmarshal into GeneralErrorResponse and TryToOpenAIError: the code of the
    error, when it is a string. *)
Context (unmarshal_error : string -> option (option (option string))).
Context (redactVideoResponseBody : string -> string) (ServerAddress : string).

Definition BuildProxyURL (taskID : string) : string :=
  ServerAddress +:+ "/v1/videos/" +:+ taskID +:+ "/content".

(** ** Video tasks *)

Definition settleTaskBillingOnComplete (adaptor : TaskPollingAdaptor) (task : Task) (taskResult : TaskInfo)
    : MW (Task * option TaskBillingLog) :=
  if match pv_BillingContext (tk_PrivateData task) with Some bc => bc_PerCallBilling bc | None => false end
  then mret (task, None)
  else
    let actualQuota := AdjustBillingOnComplete adaptor task taskResult in
    if actualQuota >? 0 then RecalculateTaskQuota task actualQuota
    else if ti_TotalTokens taskResult >? 0
    then RecalculateTaskQuotaByTokens rs range task (ti_TotalTokens taskResult)
    else mret (task, None).

Definition parse_body (adaptor : TaskPollingAdaptor) (body : string) : result error TaskInfo :=
  match unmarshal_task body with
  | Some (code, t) =>
      if decide (code = "success")
      then Ok (mkTaskInfo 0 (tk_TaskID t) (tk_Status t) (tk_FailReason t) (GetResultURL t) ""
                 (tk_Progress t) 0 0)
      else ParseTaskResult adaptor body
  | None => ParseTaskResult adaptor body
  end.

(** An empty status: [None] waits for the next round. *)
Definition check_status (body : string) (taskResult : TaskInfo) : option TaskInfo :=
  if decide (ti_Status taskResult = "") then
    match unmarshal_error body with
    | None => Some taskResult
    | Some (Some (Some "429")) => None
    | Some (Some _) => Some (FailTaskInfo "upstream returned error")
    | Some None => Some (FailTaskInfo "upstream returned unrecognized message")
    end
  else Some taskResult.

Definition result_url (task : Task) (taskResult : TaskInfo) : string :=
  if GoStrings.HasPrefix (ti_Url taskResult) "data:" then BuildProxyURL (tk_TaskID task)
  else if decide (ti_Url taskResult = "") then BuildProxyURL (tk_TaskID task)
  else ti_Url taskResult.
Definition if_zero (old now : Z) : Z := if old =? 0 then now else old.

(** The switch on the new status: the task, shouldSettle and shouldRefund; [None] for
    an unknown status. *)
Definition apply_status (now : Z) (taskResult : TaskInfo) (task : Task) : option (Task * bool * bool) :=
  let status := ti_Status taskResult in
  let task : Task := task <| tk_Status := status |> in
  let set_progress (p : string) (t : Task) : Task :=
    t <| tk_Progress := if decide (ti_Progress taskResult = "") then p else ti_Progress taskResult |> in
  if decide (status = TaskStatusSubmitted) then Some (set_progress ProgressSubmitted task, false, false)
  else if decide (status = TaskStatusQueued) then Some (set_progress ProgressQueued task, false, false)
  else if decide (status = TaskStatusInProgress) then
    Some (set_progress ProgressInProgress task <| tk_StartTime := if_zero (tk_StartTime task) now |>, false, false)
  else if decide (status = TaskStatusSuccess) then
    Some (set_progress ProgressComplete task <| tk_FinishTime := if_zero (tk_FinishTime task) now |>
            <| tk_PrivateData := tk_PrivateData task <| pv_ResultURL := result_url task taskResult |> |>,
          true, false)
  else if decide (status = TaskStatusFailure) then
    Some (task <| tk_Progress := ProgressComplete |> <| tk_FinishTime := if_zero (tk_FinishTime task) now |>
            <| tk_FailReason := ti_Reason taskResult |>,
          false, negb (tk_Quota task =? 0))
  else None.

(** What a poll leaves: the task object, the returned error, and whether it went on
    to settle or refund. *)
Record poll_outcome := mkPoll {
  po_task : Task;
  po_err : option error;
  po_settle : bool;
  po_refund : bool;
}.

Definition write_back (snap : taskSnapshot) (task : Task) (shouldSettle shouldRefund : bool) : MW (bool * bool) :=
  if finished (tk_Status task) && negb (bool_decide (sn_Status snap = tk_Status task)) then
    r ← attempt (UpdateWithStatus task (sn_Status snap));
    mret (match r with
          | Ok true => (shouldSettle, shouldRefund)
          | _ => (false, false)
          end)
  else if negb (snapshot_Equal snap (Snapshot task)) then
    ignore_err (UpdateWithStatus task (sn_Status snap)) ;;
    mret (shouldSettle, shouldRefund)
  else mret (shouldSettle, shouldRefund).

Definition bill_finished (adaptor : TaskPollingAdaptor) (taskResult : TaskInfo) (task : Task)
    (shouldSettle shouldRefund : bool) : MW Task :=
  task ← (if shouldSettle then '(t, _) ← settleTaskBillingOnComplete adaptor task taskResult; mret t
          else mret task);
  (if shouldRefund then ignore_err (RefundTaskQuota task) else mret tt) ;;
  mret task.

Definition fetch_of (ch : PollChannel) (task : Task) : FetchRequest :=
  mkFetch (ch_BaseURL ch)
    (if decide (pv_Key (tk_PrivateData task) = "") then ch_Key ch else pv_Key (tk_PrivateData task))
    [GetUpstreamTaskID task] (tk_Action task) (ch_Proxy ch).

(** The rest of updateVideoSingleTask once the body was parsed. *)
Definition poll_parsed (adaptor : TaskPollingAdaptor) (task : Task) (body : string) (taskResult : TaskInfo)
    : MW poll_outcome :=
  let snap := Snapshot task in
  let task : Task := task <| tk_Data := redactVideoResponseBody body |> in
  now ← GetTimestamp;
  match check_status body taskResult with
  | None => mret (mkPoll task None false false)
  | Some taskResult =>
      match apply_status now taskResult task with
      | None =>
          mret (mkPoll (task <| tk_Status := ti_Status taskResult |>)
            (Some (ErrNew ("unknown task status " +:+ ti_Status taskResult +:+ " for task "
                           +:+ tk_TaskID task))) false false)
      | Some (task, shouldSettle, shouldRefund) =>
          '(settle, refund) ← write_back snap task shouldSettle shouldRefund;
          task ← bill_finished adaptor taskResult task settle refund;
          mret (mkPoll task None settle refund)
      end
  end.

Definition updateVideoSingleTask (adaptor : TaskPollingAdaptor) (ch : PollChannel) (task : Task)
    : MW poll_outcome :=
  match FetchTask adaptor (fetch_of ch task) with
  | Err e => mret (mkPoll task (Some e) false false)
  | Ok (_, resp) =>
      match readTaskPollingBody resp with
      | Err e => mret (mkPoll task (Some e) false false)
      | Ok body =>
          match parse_body adaptor body with
          | Err e => mret (mkPoll task (Some e) false false)
          | Ok taskResult => poll_parsed adaptor task body taskResult
          end
      end
  end.

(** ** One pass

    [taskM] maps upstream ids to the task objects of the pass; a poll updates its
    object in place.  [CacheGetChannel] and [GetTaskAdaptorFunc] are parameters, as
    is the order in which maps are iterated. *)

Context (CacheGetChannel : Z -> result error PollChannel)
  (GetTaskAdaptorFunc : string -> option TaskPollingAdaptor)
  (ctx_done : nat -> bool).

Definition context_canceled : error := ErrNew "context canceled".

Definition mark_failed (reason : option string) (t : Task) : Task :=
  let t : Task := t <| tk_Status := "FAILURE" |> <| tk_Progress := "100%" |> in
  match reason with Some r => t <| tk_FailReason := r |> | None => t end.
(** The channel is gone: every task of it fails, without a refund. *)
Definition fail_channel_tasks (reason : string) (taskIds : list string) (taskM : gmap string Task) : MW unit :=
  TaskBulkUpdateByID (omap (fun upstreamID => tk_ID <$> taskM !! upstreamID) taskIds)
    (mark_failed (Some reason)).

Fixpoint poll_each (adaptor : TaskPollingAdaptor) (ch : PollChannel) (i : nat) (taskIds : list string)
    (taskM : gmap string Task) : MW (gmap string Task * option error) :=
  match taskIds with
  | [] => mret (taskM, None)
  | taskId :: taskIds =>
      if ctx_done i then mret (taskM, Some context_canceled)
      else
        taskM ← (match taskM !! taskId with
                 | None => mret taskM
                 | Some task =>
                     o ← updateVideoSingleTask adaptor ch task;
                     mret (<[taskId := po_task o]> taskM)
                 end);
        poll_each adaptor ch (S i) taskIds taskM
  end.

Definition updateVideoTasks (platform : string) (channelId : Z) (taskIds : list string)
    (taskM : gmap string Task) : MW (gmap string Task * option error) :=
  if ctx_done 0 then mret (taskM, Some context_canceled)
  else match taskIds with
  | [] => mret (taskM, None)
  | _ =>
      match CacheGetChannel channelId with
      | Err e =>
          ignore_err (fail_channel_tasks ("Failed to get channel info, channel ID: " +:+ pretty channelId)
                        taskIds taskM) ;;
          mret (taskM, Some (ErrNew ("CacheGetChannel failed: " +:+ error_text e)))
      | Ok ch =>
          match GetTaskAdaptorFunc platform with
          | None => mret (taskM, Some (ErrNew "video adaptor not found"))
          | Some adaptor => poll_each adaptor ch 0 taskIds taskM
          end
      end
  end.

(** The goroutines of the channels touch different tasks unless two channels share
    an upstream id; they run here one after the other, by channel id. *)
Fixpoint update_channels (platform : string) (taskChannelM : list (Z * list string))
    (taskM : gmap string Task) : MW (gmap string Task) :=
  match taskChannelM with
  | [] => mret taskM
  | (channelId, taskIds) :: rest =>
      '(taskM, _) ← updateVideoTasks platform channelId taskIds taskM;
      update_channels platform rest taskM
  end.
Definition UpdateVideoTasks (platform : string) (taskChannelM : gmap Z (list string))
    (taskM : gmap string Task) : MW (gmap string Task) :=
  update_channels platform (order_by (fun kv => [kv.1]) (map_to_list taskChannelM)) taskM.

(** ** Suno *)

(** common.Marshal of raw JSON, and the decoded list of a Suno answer: its code and
    items. *)
Context (marshal_raw : string -> string)
  (unmarshal_suno : string -> option (string * list SunoDataResponse)).

(** sort.Slice on the bytes, then a comparison: the same bytes with the same
    multiplicities. *)
Definition sorted_bytes (s : string) : list N := merge_sort N.le (Strings.Ascii.N_of_ascii <$> String.list_ascii_of_string s).

Definition taskNeedsUpdate (oldTask : Task) (newTask : SunoDataResponse) : bool :=
  negb (tk_SubmitTime oldTask =? sd_SubmitTime newTask)
  || negb (tk_StartTime oldTask =? sd_StartTime newTask)
  || negb (tk_FinishTime oldTask =? sd_FinishTime newTask)
  || negb (bool_decide (tk_Status oldTask = sd_Status newTask))
  || negb (bool_decide (tk_FailReason oldTask = sd_FailReason newTask))
  || (finished (tk_Status oldTask) && negb (bool_decide (tk_Progress oldTask = "100%")))
  || negb (bool_decide (sorted_bytes (marshal_raw (tk_Data oldTask))
                        = sorted_bytes (marshal_raw (sd_Data newTask)))).

Definition or_old (new old : string) : string := if decide (new = "") then old else new.
Definition or_oldZ (new old : Z) : Z := if new =? 0 then old else new.
Definition merge_suno (task : Task) (r : SunoDataResponse) : Task :=
  task <| tk_Status := or_old (sd_Status r) (tk_Status task) |>
       <| tk_FailReason := or_old (sd_FailReason r) (tk_FailReason task) |>
       <| tk_SubmitTime := or_oldZ (sd_SubmitTime r) (tk_SubmitTime task) |>
       <| tk_StartTime := or_oldZ (sd_StartTime r) (tk_StartTime task) |>
       <| tk_FinishTime := or_oldZ (sd_FinishTime r) (tk_FinishTime task) |>.

(** One item of the answer: the refund comes before the row is written. *)
Definition suno_item (task : Task) (r : SunoDataResponse) : MW Task :=
  if negb (taskNeedsUpdate task r) then mret task
  else
    let task := merge_suno task r in
    task ← (if negb (bool_decide (sd_FailReason r = "")) || bool_decide (tk_Status task = TaskStatusFailure)
            then let task : Task := task <| tk_Progress := "100%" |> in
                 ignore_err (RefundTaskQuota task) ;; mret task
            else mret task);
    let task : Task := if decide (sd_Status r = TaskStatusSuccess) then task <| tk_Progress := "100%" |> else task in
    let task : Task := task <| tk_Data := sd_Data r |> in
    ignore_err (UpdateTask task) ;;
    mret task.

Fixpoint suno_items (i : nat) (items : list SunoDataResponse) (taskM : gmap string Task)
    : MW (gmap string Task * option error) :=
  match items with
  | [] => mret (taskM, None)
  | r :: items =>
      if ctx_done i then mret (taskM, Some context_canceled)
      else match taskM !! sd_TaskID r with
      | None => suno_items (S i) items taskM
      | Some task =>
          task ← suno_item task r;
          suno_items (S i) items (<[sd_TaskID r := task]> taskM)
      end
  end.

Definition updateSunoTasks (channelId : Z) (taskIds : list string) (taskM : gmap string Task)
    : MW (gmap string Task * option error) :=
  if ctx_done 0 then mret (taskM, Some context_canceled)
  else match taskIds with
  | [] => mret (taskM, None)
  | _ =>
      match CacheGetChannel channelId with
      | Err _ =>
          r ← attempt (fail_channel_tasks ("获取渠道信息失败，请联系管理员，渠道ID：" +:+ pretty channelId) taskIds taskM);
          mret (taskM, match r with Ok _ => None | Err e => Some e end)
      | Ok ch =>
          match GetTaskAdaptorFunc "suno" with
          | None => mret (taskM, Some (ErrNew "adaptor not found"))
          | Some adaptor =>
              match FetchTask adaptor (mkFetch (ch_BaseURL ch) (ch_Key ch) taskIds "" (ch_Proxy ch)) with
              | Err e => mret (taskM, Some e)
              | Ok (status, resp) =>
                  if negb (status =? 200)
                  then mret (taskM, Some (ErrNew ("Get Task status code: " +:+ pretty status)))
                  else match readTaskPollingBody resp with
                  | Err e => mret (taskM, Some e)
                  | Ok body =>
                      match unmarshal_suno body with
                      | None => mret (taskM, Some (ErrNew "invalid JSON"))
                      | Some (code, items) =>
                          if decide (code = "success") then suno_items 0 items taskM
                          else mret (taskM, None)
                      end
                  end
              end
          end
      end
  end.
Fixpoint UpdateSunoTasks (taskChannelM : list (Z * list string)) (taskM : gmap string Task)
    : MW (gmap string Task) :=
  match taskChannelM with
  | [] => mret taskM
  | (channelId, taskIds) :: rest =>
      '(taskM, _) ← updateSunoTasks channelId taskIds taskM;
      UpdateSunoTasks rest taskM
  end.

(** ** The pass over all platforms *)

Record TaskPollSummary := mkSummaryOf {
  UnfinishedTasks : Z;
  PlatformsScanned : Z;
  NullTasksFailed : Z;
}.
#[local] Instance TaskPollSummary_settable : Settable TaskPollSummary :=
  fields_of mkSummaryOf < UnfinishedTasks; PlatformsScanned; NullTasksFailed >.

(** [m[k] = append(m[k], v)] *)
Definition append_at `{Countable K} {V} (k : K) (v : V) (m : gmap K (list V)) : gmap K (list V) :=
  <[k := default [] (m !! k) ++ [v]]> m.

(** The tables of one platform: tasks without an upstream id, task objects by
    upstream id, upstream ids by channel. *)
Definition index_task (acc : list Z * gmap string Task * gmap Z (list string)) (task : Task)
    : list Z * gmap string Task * gmap Z (list string) :=
  let '(nullTaskIds, taskM, taskChannelM) := acc in
  let upstreamID := GetUpstreamTaskID task in
  if decide (upstreamID = "") then (nullTaskIds ++ [tk_ID task], taskM, taskChannelM)
  else (nullTaskIds, <[upstreamID := task]> taskM, append_at (tk_ChannelId task) upstreamID taskChannelM).
Definition index_tasks (tasks : list Task) : list Z * gmap string Task * gmap Z (list string) :=
  fold_left index_task tasks ([], ∅, ∅).

Context (range_platforms : gmap string (list Task) -> list (string * list Task))
  (range_channels : gmap Z (list string) -> list (Z * list string)).

Definition DispatchPlatformUpdate (platform : string) (taskChannelM : gmap Z (list string))
    (taskM : gmap string Task) : MW unit :=
  if decide (platform = "mj") then mret tt
  else if decide (platform = "suno") then UpdateSunoTasks (range_channels taskChannelM) taskM ;; mret tt
  else UpdateVideoTasks platform taskChannelM taskM ;; mret tt.

Fixpoint poll_platforms (i : nat) (platforms : list (string * list Task)) (summary : TaskPollSummary)
    : MW TaskPollSummary :=
  match platforms with
  | [] => mret summary
  | (platform, tasks) :: rest =>
      if ctx_done i then mret summary
      else
        let summary : TaskPollSummary := summary <| PlatformsScanned := PlatformsScanned summary + 1 |> in
        let '(nullTaskIds, taskM, taskChannelM) := index_tasks tasks in
        let summary : TaskPollSummary :=
          summary <| NullTasksFailed := NullTasksFailed summary + Z.of_nat (length nullTaskIds) |> in
        ignore_err (TaskBulkUpdateByID nullTaskIds (mark_failed None)) ;;
        (if decide (taskChannelM = ∅) then mret tt
         else DispatchPlatformUpdate platform taskChannelM taskM) ;;
        poll_platforms (S i) rest summary
  end.

(** [wired] is GetTaskAdaptorFunc != nil. *)
Definition RunTaskPollingOnce (wired : bool) (TaskTimeoutMinutes TaskQueryLimit : Z) : MW TaskPollSummary :=
  if negb wired then mret (mkSummaryOf 0 0 0)
  else
    sweepTimedOutTasks TaskTimeoutMinutes ;;
    allTasks ← GetAllUnFinishSyncTasks TaskQueryLimit;
    let platformTask := fold_left (fun m t => append_at (tk_Platform t) t m) allTasks ∅ in
    poll_platforms 0 (range_platforms platformTask) (mkSummaryOf (Z.of_nat (length allTasks)) 0 0).
End polling.
