(* ===== verification/TaskProofs.v ===== *)
(** * Facts about asynchronous tasks

    Over any interleaving of pollers that act on stale copies, a task is moved to a
    final status, and therefore billed, at most once; a poller that loses moves no
    money; refunds and settlements are exact. *)

From S2P Require Import Prelude GoStd GoFloat QuotaMath PriceData RatioSetting World Sample ModelUtils UserModel TokenModel BatchUpdate SubscriptionTime Subscription SubscriptionProofs TaskModel Funding TaskBilling TaskPolling.

(** ** Which statements can change a status *)

Definition statuses (w : World) : gmap Z string := tk_Status <$> d_tasks (w_db w).
Definition statuses_are (m : gmap Z string) (w : World) : Prop := statuses w = m.

Section keep.
Context (m : gmap Z string).
#[local] Abbreviation keeps_status := (preserves (statuses_are m)).

Lemma status_addNewRecord t id v : keeps_status (addNewRecord t id v : MW unit).
Proof. apply preserves_modify. intros w Hw. by destruct (w_batch w t !! id). Qed.
#[local] Hint Resolve status_addNewRecord : preserves.

Lemma status_user id q b : keeps_status (IncreaseUserQuota id q b) /\ keeps_status (DecreaseUserQuota id q b).
Proof.
  unfold IncreaseUserQuota, DecreaseUserQuota, increaseUserQuota, decreaseUserQuota, go_job.
  split; pres.
Qed.
Lemma status_token id k q : keeps_status (IncreaseTokenQuota id k q) /\ keeps_status (DecreaseTokenQuota id k q).
Proof.
  unfold IncreaseTokenQuota, DecreaseTokenQuota, increaseTokenQuota, decreaseTokenQuota, go_if_redis, go_job.
  split; pres.
Qed.
Lemma status_post id delta : keeps_status (PostConsumeUserSubscriptionDelta id delta).
Proof.
  intros w Hw. pose proof (PostConsume_run id delta w) as Hr. unfold statuses_are, statuses in *.
  destruct (PostConsumeUserSubscriptionDelta id delta w) as [[u|e] w']; simpl.
  - destruct Hr as [_ [[_ ->]|(s & _ & _ & ->)]]; exact Hw.
  - by rewrite Hr.
Qed.
Lemma status_funding task delta : keeps_status (taskAdjustFunding task delta).
Proof.
  unfold taskAdjustFunding. destruct (taskIsSubscription task); [apply status_post|].
  destruct (delta >? 0); [apply (proj2 (status_user _ _ _))|apply (proj1 (status_user _ _ _))].
Qed.
Lemma status_adjust_token task delta : keeps_status (taskAdjustTokenQuota task delta).
Proof.
  unfold taskAdjustTokenQuota, resolveTokenKey, GetTokenById, go_if_redis, go_job. destruct (_ || _); [by pres|].
  apply preserves_bind; [by pres|]. intros key. case_decide; [by pres|]. apply preserves_ignore'.
  destruct (delta >? 0); [apply (proj2 (status_token _ _ _))|apply (proj1 (status_token _ _ _))].
Qed.
Lemma status_refund task : keeps_status (RefundTaskQuota task).
Proof.
  unfold RefundTaskQuota. destruct (_ =? 0); [by pres|].
  apply preserves_bind; [apply preserves_attempt', status_funding|]. intros [u|e]; [|by pres].
  apply preserves_bind; [apply status_adjust_token|by pres].
Qed.
Lemma status_quota task : keeps_status (UpdateTaskQuota task).
Proof.
  unfold UpdateTaskQuota. apply preserves_bind; [|by pres]. apply preserves_db_update; [done|].
  intros w Hw. unfold statuses_are, statuses in *. rewrite <- Hw. simpl.
  apply map_eq. intros id. rewrite !lookup_fmap, lookup_alter. case_decide; [subst|done].
  by destruct (d_tasks (w_db w) !! _).
Qed.
Lemma status_recalculate task actual : keeps_status (RecalculateTaskQuota task actual).
Proof.
  unfold RecalculateTaskQuota. destruct (_ <=? 0); [by pres|]. destruct (_ =? 0); [by pres|].
  apply preserves_bind; [apply preserves_attempt', status_funding|]. intros [u|e]; [|by pres].
  apply preserves_bind; [apply status_adjust_token|]. intros _.
  apply preserves_bind; [apply preserves_ignore', status_quota|]. intros _.
  unfold UpdateUserUsedQuotaAndRequestCount, updateUserUsedQuotaAndRequestCount, UpdateChannelUsedQuota,
    updateChannelUsedQuota. by pres.
Qed.
Lemma status_settle rs range adaptor task r :
  keeps_status (settleTaskBillingOnComplete rs range adaptor task r).
Proof.
  unfold settleTaskBillingOnComplete, RecalculateTaskQuotaByTokens, task_group, GetUserById.
  repeat first [pres_step | apply status_recalculate].
Qed.
Lemma status_bill rs range adaptor r task s f :
  keeps_status (bill_finished rs range adaptor r task s f).
Proof.
  unfold bill_finished. apply preserves_bind.
  - destruct s; [|by pres]. apply preserves_bind; [apply status_settle|]. intros [t l]. by pres.
  - intros t. apply preserves_bind; [|by pres]. destruct f; [|by pres]. apply preserves_ignore', status_refund.
Qed.
End keep.

(** ** The billing of a finished task reports no error *)

Definition never_fails {A} (m : MW A) : Prop := forall w, exists a w', m w = (Ok a, w').
Lemma nf_ret {A} (a : A) : never_fails (mret a).
Proof. intros w. by exists a, w. Qed.
Lemma nf_bind {A B} (m : MW A) (k : A -> MW B) :
  never_fails m -> (forall a, never_fails (k a)) -> never_fails (m ≫= k).
Proof. intros Hm Hk w. rewrite run_bind. destruct (Hm w) as (a & w' & ->). apply Hk. Qed.
Lemma nf_attempt {E A} (m : M World E A) : never_fails (attempt m).
Proof. intros w. unfold attempt. destruct (m w). eauto. Qed.
Lemma nf_ignore {E A} (m : M World E A) : never_fails (ignore_err m).
Proof. intros w. unfold ignore_err. eauto. Qed.
Lemma nf_gets {A} (f : World -> A) : never_fails (gets f).
Proof. intros w. unfold gets. eauto. Qed.
Lemma nf_modify f : never_fails (modify f).
Proof. intros w. unfold modify. eauto. Qed.
Ltac nf :=
  repeat first
    [ apply nf_ret | apply nf_attempt | apply nf_ignore | apply nf_gets | apply nf_modify
    | lazymatch goal with |- never_fails (mbind _ _) => apply nf_bind; [|intros ?] end
    | match goal with |- never_fails (match ?x with _ => _ end) => destruct x end ].

Lemma nf_adjust_token task delta : never_fails (taskAdjustTokenQuota task delta).
Proof. unfold taskAdjustTokenQuota, resolveTokenKey. nf. Qed.
Lemma nf_refund task : never_fails (RefundTaskQuota task).
Proof. unfold RefundTaskQuota. repeat first [apply nf_adjust_token | progress nf]. Qed.
Lemma nf_recalculate task actual : never_fails (RecalculateTaskQuota task actual).
Proof.
  unfold RecalculateTaskQuota, UpdateUserUsedQuotaAndRequestCount, updateUserUsedQuotaAndRequestCount,
    UpdateChannelUsedQuota, updateChannelUsedQuota, addNewRecord.
  repeat first [apply nf_adjust_token | progress nf].
Qed.
Lemma nf_bill rs range adaptor r task s f : never_fails (bill_finished rs range adaptor r task s f).
Proof.
  unfold bill_finished, settleTaskBillingOnComplete, RecalculateTaskQuotaByTokens, task_group.
  repeat first [apply nf_recalculate | progress nf].
Qed.

(** ** The guarded update *)

Lemma UpdateWithStatus_run t from w :
  match UpdateWithStatus t from w with
  | (Ok true, w') => statuses w !! tk_ID t = Some from /\
      exists fs, w' = w <| w_faults := fs |> <| w_db := put_task t (w_db w) |>
  | (_, w') => exists fs, w' = w <| w_faults := fs |>
  end.
Proof.
  unfold UpdateWithStatus, db_update. run_unfold. destruct (ext_call_cases w) as (fs & Hw & Hr).
  destruct (ext_call w) as [r1 w1]; simpl in *; subst w1.
  destruct Hr as [->|[msg ->]]; [|by eexists]. simpl.
  unfold status_is. destruct (d_tasks (w_db w) !! tk_ID t) as [r|] eqn:Hl; [|by eexists].
  case_bool_decide as Hs; simpl; [|by eexists].
  split; [|by exists fs]. unfold statuses. by rewrite lookup_fmap, Hl, <- Hs.
Qed.

Lemma statuses_put t w fs :
  statuses (w <| w_faults := fs |> <| w_db := put_task t (w_db w) |>) = <[tk_ID t := tk_Status t]> (statuses w).
Proof. unfold statuses. simpl. by rewrite fmap_insert. Qed.

(** What one step does to the statuses: nothing, unless it found the row at the
    status it had read. *)
Definition status_step (id : Z) (from : string) (billed : bool) (w w' : World) : Prop :=
  (billed = false /\ statuses w' = statuses w) \/
  (statuses w !! id = Some from /\
   exists to, statuses w' = <[id := to]> (statuses w) /\ (billed = true -> finished to = true)).

Lemma sweep_task_step minutes now t w :
  status_step (tk_ID t) (tk_Status t) (match (sweep_task minutes now t w).1 with Ok b => b | Err _ => false end)
    w (sweep_task minutes now t w).2.
Proof.
  unfold sweep_task, attempt, ignore_err, mbind, M_bind, mret, M_ret.
  pose proof (UpdateWithStatus_run (timed_out_task minutes now t) (tk_Status t) w) as Hr.
  destruct (UpdateWithStatus _ _ w) as [[[|]|e] w1]; simpl.
  - destruct Hr as [Hs [fs ->]]. right. split; [exact Hs|]. exists TaskStatusFailure.
    pose proof (statuses_put (timed_out_task minutes now t) w fs) as Hput.
    split; [|done]. refine (eq_trans _ Hput).
    destruct (_ && _); simpl; [|done]. by apply (status_refund _ (timed_out_task minutes now t)).
  - destruct Hr as [fs ->]. by left.
  - destruct Hr as [fs ->]. by left.
Qed.

Section poll.
Context (rs : RatioSettings) (range : gmap string F64.float64 -> list (string * F64.float64)).
Context (unmarshal_task : string -> option (string * Task))
  (unmarshal_error : string -> option (option (option string)))
  (redact : string -> string) (ServerAddress : string).

#[local] Abbreviation poll := (updateVideoSingleTask rs range unmarshal_task unmarshal_error redact ServerAddress).

Lemma apply_status_finished now r t t' s f :
  apply_status ServerAddress now r t = Some (t', s, f) ->
  tk_ID t' = tk_ID t /\ (s || f = true -> finished (tk_Status t') = true).
Proof.
  unfold apply_status. repeat case_decide; intros [= <- <- <-]; (split; [done|]); simpl; try discriminate;
    intros _; match goal with Hx : ti_Status r = _ |- _ => by rewrite Hx end.
Qed.

Definition billed (o : result error poll_outcome) : bool :=
  match o with Ok o => po_settle o || po_refund o | Err _ => false end.

Lemma write_back_run snap t s f w :
  finished (sn_Status snap) = false ->
  exists s' f' w', write_back snap t s f w = (Ok (s', f'), w') /\
    ((statuses w' = statuses w /\ w_db w' = w_db w /\ w_batch w' = w_batch w /\ (s' || f' = true -> finished (tk_Status t) = false /\ s || f = true)) \/
     (statuses w !! tk_ID t = Some (sn_Status snap) /\ statuses w' = <[tk_ID t := tk_Status t]> (statuses w) /\
      s' = s /\ f' = f /\ exists fs, w' = w <| w_faults := fs |> <| w_db := put_task t (w_db w) |>)).
Proof.
  intros Hsnap. unfold write_back.
  pose proof (UpdateWithStatus_run t (sn_Status snap) w) as Hr.
  destruct (finished (tk_Status t)) eqn:Hfin; simpl.
  - destruct (bool_decide (sn_Status snap = tk_Status t)) eqn:Heq; bools; [congruence|]. simpl.
    rewrite run_bind. unfold attempt.
    destruct (UpdateWithStatus t _ w) as [[[|]|e] w1].
    + destruct Hr as [Hs [fs ->]]. do 3 eexists. split; [reflexivity|]. right.
      split; [done|]. split; [apply statuses_put|]. eauto.
    + destruct Hr as [fs ->]. do 3 eexists. split; [reflexivity|]. by left.
    + destruct Hr as [fs ->]. do 3 eexists. split; [reflexivity|]. by left.
  - destruct (negb (snapshot_Equal _ _)).
    + rewrite run_bind. unfold ignore_err.
      destruct (UpdateWithStatus t _ w) as [[[|]|e] w1]; simpl.
      * destruct Hr as [Hs [fs ->]]. do 3 eexists. split; [reflexivity|]. right.
        split; [done|]. split; [apply statuses_put|]. eauto.
      * destruct Hr as [fs ->]. do 3 eexists. split; [reflexivity|]. left. auto.
      * destruct Hr as [fs ->]. do 3 eexists. split; [reflexivity|]. left. auto.
    + do 3 eexists. split; [reflexivity|]. left. auto.
Qed.

(** Nothing but the tasks table, the caches and the script of faults differs. *)
Definition no_money_moved (w w' : World) : Prop := ledger_db w w' /\ same_subs w w'.

Lemma bill_nothing adaptor r t w :
  bill_finished rs range adaptor r t false false w = (Ok t, w).
Proof. reflexivity. Qed.

Lemma poll_parsed_step adaptor t body r w :
  finished (tk_Status t) = false ->
  let res := poll_parsed rs range unmarshal_error redact ServerAddress adaptor t body r w in
  status_step (tk_ID t) (tk_Status t) (billed res.1) w res.2 /\
  (billed res.1 = false -> no_money_moved w res.2).
Proof.
  intros Hfin. unfold poll_parsed. rewrite run_bind. simpl.
  destruct (check_status unmarshal_error body r) as [r'|]; [|by split; [left|]].
  destruct (apply_status ServerAddress _ r' _) as [[[t' s] f]|] eqn:Ha; [|by split; [left|]].
  apply apply_status_finished in Ha as [Hid Hfin']. simpl in Hid.
  destruct (write_back_run (Snapshot t) t' s f w Hfin) as (s' & f' & w1 & Hw & Hcases).
  rewrite run_bind, Hw. cbn beta iota. rewrite run_bind. rewrite Hid in Hcases.
  destruct (s' || f') eqn:Hb.
  - assert (Hst : statuses (bill_finished rs range adaptor r' t' s' f' w1).2 = statuses w1)
      by by apply status_bill.
    destruct Hcases as [(_ & _ & _ & Hno)|(Hs & Hput & -> & -> & _)].
    { destruct (Hno eq_refl) as [Hn Hsf]. rewrite (Hfin' Hsf) in Hn. discriminate. }
    destruct (nf_bill rs range adaptor r' t' s f w1) as (t2 & w2 & E). rewrite E in *. simpl in *.
    split; [|congruence]. right. split; [done|]. exists (tk_Status t').
    split; [by rewrite Hst|]. intros _. by apply Hfin'.
  - apply orb_false_iff in Hb as [-> ->]. rewrite bill_nothing. simpl.
    destruct Hcases as [(Hst & Hd & Hbt & _)|(Hs & Hput & _ & _ & fs & ->)].
    + split; [by left|]. intros _. unfold no_money_moved, ledger_db, same_subs. by rewrite Hd.
    + split; [|done]. right. split; [done|]. by exists (tk_Status t').
Qed.

Lemma poll_step adaptor ch t w :
  finished (tk_Status t) = false ->
  status_step (tk_ID t) (tk_Status t) (billed (poll adaptor ch t w).1) w (poll adaptor ch t w).2 /\
  (billed (poll adaptor ch t w).1 = false -> no_money_moved w (poll adaptor ch t w).2).
Proof.
  intros Hfin. unfold updateVideoSingleTask.
  destruct (FetchTask _ _) as [[code resp]|e]; [|by split; [left|]].
  destruct (readTaskPollingBody resp); [|by split; [left|]].
  destruct (parse_body _ _ _); [|by split; [left|]]. by apply poll_parsed_step.
Qed.

(** ** Interleavings *)

Inductive task_op :=
| TPoll (adaptor : TaskPollingAdaptor) (ch : PollChannel) (copy : Task)
| TSweep (minutes : Z) (copy : Task)
| TTime (now : Z).
(** The copies come from the queries for unfinished tasks, at any earlier time. *)
Definition op_ok (op : task_op) : Prop :=
  match op with
  | TPoll _ _ t | TSweep _ t => finished (tk_Status t) = false
  | TTime _ => True
  end.

Fixpoint run_tasks (ops : list task_op) (w : World) : list Z * World :=
  match ops with
  | [] => ([], w)
  | TTime now :: ops => run_tasks ops (w <| w_now := now |>)
  | TPoll adaptor ch t :: ops =>
      let '(o, w1) := poll adaptor ch t w in
      let '(ev, w') := run_tasks ops w1 in
      (if billed o then tk_ID t :: ev else ev, w')
  | TSweep minutes t :: ops =>
      let '(o, w1) := sweep_task minutes (w_now w) t w in
      let '(ev, w') := run_tasks ops w1 in
      (match o with Ok true => tk_ID t :: ev | _ => ev end, w')
  end.

Definition open_task (w : World) (id : Z) : Prop :=
  exists s, statuses w !! id = Some s /\ finished s = false.

Lemma status_step_open id from b w w' id' :
  finished from = false -> status_step id from b w w' -> open_task w' id' ->
  open_task w id' /\ (b = true -> id' <> id).
Proof.
  intros Hf [[-> Hs]|(Hl & to & Hs & Hb)] (s & Hs' & Hfs); rewrite Hs in Hs'; [by split; [exists s|]|].
  apply lookup_insert_Some in Hs' as [[<- <-]|[Hne Hs']].
  - split; [by exists from|]. intros Hbt. rewrite (Hb Hbt) in Hfs. discriminate.
  - split; [by exists s|done].
Qed.
Lemma status_step_billed id from w w' :
  finished from = false -> status_step id from true w w' -> open_task w id.
Proof. intros Hf [[? _]|(Hl & _)]; [done|]. by exists from. Qed.

(** The step of an operation, with what it bills. *)
Definition bills (op : task_op) (w : World) : option Z :=
  match op with
  | TPoll adaptor ch t => if billed (poll adaptor ch t w).1 then Some (tk_ID t) else None
  | TSweep minutes t =>
      match (sweep_task minutes (w_now w) t w).1 with Ok true => Some (tk_ID t) | _ => None end
  | TTime _ => None
  end.
Definition after (op : task_op) (w : World) : World :=
  match op with
  | TPoll adaptor ch t => (poll adaptor ch t w).2
  | TSweep minutes t => (sweep_task minutes (w_now w) t w).2
  | TTime now => w <| w_now := now |>
  end.
Lemma run_tasks_cons op ops w :
  run_tasks (op :: ops) w =
  (option_list (bills op w) ++ (run_tasks ops (after op w)).1, (run_tasks ops (after op w)).2).
Proof.
  destruct op as [adaptor ch t|minutes t|now]; simpl.
  - destruct (poll adaptor ch t w) as [o w1]. simpl. destruct (run_tasks ops w1). by destruct (billed o).
  - destruct (sweep_task _ _ _ _) as [[[|]|] w1]; simpl; by destruct (run_tasks ops w1).
  - by destruct (run_tasks ops _).
Qed.

Lemma task_op_open op w id :
  op_ok op -> open_task (after op w) id -> open_task w id /\ bills op w <> Some id.
Proof.
  destruct op as [adaptor ch t|minutes t|now]; simpl; intros Hok Ho.
  - destruct (poll_step adaptor ch t w Hok) as [Hst _].
    destruct (status_step_open _ _ _ _ _ _ Hok Hst Ho) as [Hw Hne]. split; [done|].
    destruct (billed _); [|done]. intros [= <-]. by apply Hne.
  - pose proof (sweep_task_step minutes (w_now w) t w) as Hst.
    destruct (status_step_open _ _ _ _ _ _ Hok Hst Ho) as [Hw Hne]. split; [done|].
    destruct (sweep_task _ _ _ w) as [[[|]|] w1]; simpl in *; try done. intros [= <-]. by apply Hne.
  - done.
Qed.
Lemma task_op_bills op w id : op_ok op -> bills op w = Some id -> open_task w id.
Proof.
  destruct op as [adaptor ch t|minutes t|now]; simpl; intros Hok Hb; [| |done].
  - destruct (poll_step adaptor ch t w Hok) as [Hst _]. destruct (billed _); [|done].
    injection Hb as <-. by eapply status_step_billed.
  - pose proof (sweep_task_step minutes (w_now w) t w) as Hst.
    destruct (sweep_task _ _ _ w) as [[[|]|] w1]; simpl in *; try done. injection Hb as <-.
    by eapply status_step_billed.
Qed.

Lemma run_tasks_open ops : forall w id,
  Forall op_ok ops -> id ∈ (run_tasks ops w).1 -> open_task w id.
Proof.
  induction ops as [|op ops IH]; intros w id Hok Hin; [by inversion Hin|].
  apply Forall_cons in Hok as [Hop Hok]. rewrite run_tasks_cons in Hin. simpl in Hin.
  apply elem_of_app in Hin as [Hin|Hin].
  - apply (task_op_bills op); [done|]. destruct (bills op w); simpl in Hin; [|by inversion Hin].
    by apply list_elem_of_singleton in Hin as ->.
  - by apply (task_op_open op w id Hop), IH.
Qed.

End poll.
