(* ===== verification/TaskMoney.v ===== *)
(** * What billing a task moves

    Refunds and settlements of asynchronous tasks are exact on the wallet, the
    subscription and the token, on every branch and whatever calls fail. *)

From S2P Require Import Prelude GoStd GoFloat QuotaMath PriceData RatioSetting World Sample ModelUtils UserModel TokenModel BatchUpdate SubscriptionTime Subscription SubscriptionProofs TaskModel Funding TaskBilling TaskPolling TaskProofs.

(** ** Steps that move no balance *)

Definition balances (w w' : World) : Prop := same_wallets w w' /\ same_tokens w w' /\ same_subs w w'.
#[export] Instance balances_equiv : Equivalence balances.
Proof.
  split; unfold balances; [done| |].
  - intros w w' (H1 & H2 & H3). by split_and!; symmetry.
  - intros w1 w2 w3 (H1 & H2 & H3) (H4 & H5 & H6). by split_and!; (transitivity w2).
Qed.

Lemma balances_faults w0 w fs : balances w0 w -> balances w0 (w <| w_faults := fs |>).
Proof. done. Qed.

Lemma balances_addNewRecord w0 t id v :
  t <> BatchUpdateTypeUserQuota -> t <> BatchUpdateTypeTokenQuota ->
  preserves (balances w0) (addNewRecord t id v : MW unit).
Proof.
  intros Ht1 Ht2 w Hw. transitivity w; [done|].
  destruct (addNewRecord_run t id v w) as (w' & -> & Hd & _ & _ & _ & _ & _ & _ & _ & Hp). simpl.
  unfold balances, same_wallets, same_tokens, same_subs, wallet, token_remain, token_used.
  rewrite Hd. split_and!; try done; intros i; rewrite Hp, decide_False by (intros [? _]; congruence); lia.
Qed.

Lemma select_quota_other id f d i :
  (forall u, u_DeletedAt (f u) = u_DeletedAt u /\ u_Quota (f u) = u_Quota u) ->
  select_quota i (update_user id f d) = select_quota i d.
Proof.
  intros Hk. unfold select_quota. rewrite live_update_user by (intros; apply Hk).
  case_decide; [|done]. destruct (live_user d i); simpl; [apply Hk|done].
Qed.

Lemma balances_used w0 id quota : preserves (balances w0) (UpdateUserUsedQuotaAndRequestCount id quota).
Proof.
  unfold UpdateUserUsedQuotaAndRequestCount, updateUserUsedQuotaAndRequestCount.
  apply preserves_bind; [by pres|]. intros [|].
  - apply preserves_bind; [|intros _]; by apply balances_addNewRecord.
  - apply preserves_ignore', preserves_db_update; [done|]. intros w (Hw & Ht & Hs).
    split; [|done]. intros i. rewrite <- (Hw i). unfold wallet. simpl. by rewrite select_quota_other.
Qed.
Lemma balances_channel w0 id quota : preserves (balances w0) (UpdateChannelUsedQuota id quota).
Proof.
  unfold UpdateChannelUsedQuota, updateChannelUsedQuota. apply preserves_bind; [by pres|].
  intros [|]; [by apply balances_addNewRecord|by pres].
Qed.
Lemma balances_task_quota w0 t : preserves (balances w0) (UpdateTaskQuota t).
Proof. unfold UpdateTaskQuota. by pres. Qed.
Lemma balances_token_key w0 id : preserves (balances w0) (resolveTokenKey id).
Proof. unfold resolveTokenKey, GetTokenById, go_if_redis, go_job. by pres. Qed.

(** ** The two adjustments *)

(** The funding source of the task pays [delta] more ([delta < 0]: is refunded). *)
Definition funding_charged (task : Task) (delta : Z) (w w' : World) : Prop :=
  same_tokens w w' /\
  if taskIsSubscription task then
    same_wallets w w' /\
    exists s, d_subs (w_db w) !! pv_SubscriptionId (tk_PrivateData task) = Some s /\
      (0 < s_AmountTotal s -> Z.max 0 (s_AmountUsed s + delta) <= s_AmountTotal s) /\
      d_subs (w_db w') = d_subs (put_sub (s <| s_AmountUsed := Z.max 0 (s_AmountUsed s + delta) |>
                                            <| s_UpdatedAt := w_now w |>) (w_db w))
  else
    (forall id, wallet w' id = wallet w id - if decide (id = tk_UserId task) then delta else 0) /\
    d_subs (w_db w') = d_subs (w_db w).

Lemma taskAdjustFunding_run task delta w :
  delta <> 0 ->
  match taskAdjustFunding task delta w with
  | (Ok _, w') => funding_charged task delta w w'
  | (Err _, w') => balances w w'
  end.
Proof.
  intros Hd. unfold taskAdjustFunding, funding_charged. destruct (taskIsSubscription task).
  - pose proof (PostConsume_run (pv_SubscriptionId (tk_PrivateData task)) delta w) as Hr.
    pose proof (PostConsume_ledger_db w (pv_SubscriptionId (tk_PrivateData task)) delta w) as Hl.
    assert (Hl' : ledger_db w (PostConsumeUserSubscriptionDelta (pv_SubscriptionId (tk_PrivateData task)) delta w).2)
      by by apply Hl.
    destruct (PostConsumeUserSubscriptionDelta _ _ w) as [[u|e] w']; simpl in *;
      destruct (ledger_db_same _ _ Hl') as [Hw Ht].
    + split; [done|]. split; [done|].
      destruct Hr as [_ [[? _]|(s & Hs & Hmax & ->)]]; [done|]. by exists s.
    + split; [done|]. split; [done|]. unfold same_subs. by rewrite Hr.
  - destruct (delta >? 0) eqn:Hp; bools.
    + pose proof (DecreaseUserQuota_run (tk_UserId task) delta false w) as Hr. case_run Hr.
      * destruct Hr as (_ & (Hw & Ht & (Hs & _) & _) & _). split; [done|]. split; [|done].
        intros id. rewrite Hw. case_decide; lia.
      * by destruct Hr as [fs ->].
    + pose proof (IncreaseUserQuota_run (tk_UserId task) (- delta) false w) as Hr. case_run Hr.
      * destruct Hr as (_ & (Hw & Ht & (Hs & _) & _) & _). split; [done|]. split; [|done].
        intros id. rewrite Hw. case_decide; lia.
      * by destruct Hr as [fs ->].
Qed.

(** The token moved with the funding, or, on an error that is only logged, not at
    all. *)
Definition token_followed (task : Task) (delta : Z) (w w' : World) : Prop :=
  same_wallets w w' /\ same_subs w w' /\
  (same_tokens w w' \/
   0 < pv_TokenId (tk_PrivateData task) /\
   forall id, token_remain w' id = token_remain w id -
     (if decide (id = pv_TokenId (tk_PrivateData task)) then delta else 0)).

Lemma taskAdjustTokenQuota_run task delta w :
  exists w', taskAdjustTokenQuota task delta w = (Ok tt, w') /\ token_followed task delta w w'.
Proof.
  unfold taskAdjustTokenQuota. destruct (_ || _) eqn:Hg.
  { exists w. split; [done|]. by split_and!; [..|left]. }
  bools. rewrite run_bind. unfold resolveTokenKey at 1.
  pose proof (balances_token_key w (pv_TokenId (tk_PrivateData task)) w ltac:(reflexivity)) as Hb.
  unfold resolveTokenKey in Hb. rewrite run_bind in *. unfold attempt in *.
  destruct (GetTokenById _ w) as [r w1]. simpl in *. destruct Hb as (Hw & Ht & Hs).
  case_decide; [exists w1; split; [done|]; by split_and!; [..|left]|].
  match goal with |- context [ignore_err ?m w1] => exists (m w1).2; split; [done|] end.
  destruct (delta >? 0) eqn:Hp; bools.
  - pose proof (DecreaseTokenQuota_run (pv_TokenId (tk_PrivateData task))
      (match r with Ok token => t_Key token | Err _ => "" end) delta w1) as Hr. case_run Hr; simpl.
    + destruct Hr as (_ & Hm & _ & Hw' & Hs' & _). split; [by transitivity w1|]. split; [by transitivity w1|].
      right. split; [lia|]. intros id. rewrite Hm, (proj1 Ht). case_decide; lia.
    + destruct Hr as [fs ->]. by split_and!; [..|left].
  - pose proof (IncreaseTokenQuota_run (pv_TokenId (tk_PrivateData task))
      (match r with Ok token => t_Key token | Err _ => "" end) (- delta) w1) as Hr. case_run Hr; simpl.
    + destruct Hr as (_ & Hm & _ & Hw' & Hs' & _). split; [by transitivity w1|]. split; [by transitivity w1|].
      right. split; [lia|]. intros id. rewrite Hm, (proj1 Ht). case_decide; lia.
    + destruct Hr as [fs ->]. by split_and!; [..|left].
Qed.

(** ** Refund and settlement *)

(** The funding moved by [delta], then the token followed. *)
Definition task_charged (task : Task) (delta : Z) (w w' : World) : Prop :=
  exists w1, funding_charged task delta w w1 /\ exists w2, token_followed task delta w1 w2 /\ balances w2 w'.

Lemma Refund_run task w :
  exists log w', RefundTaskQuota task w = (Ok log, w') /\
    match log with
    | Some l => tl_Quota l = tk_Quota task /\ tl_LogType l = LogTypeRefund /\
                tl_UserId l = tk_UserId task /\ task_charged task (- tk_Quota task) w w'
    | None => balances w w'
    end.
Proof.
  unfold RefundTaskQuota. destruct (tk_Quota task =? 0) eqn:Hq; bools; [by exists None, w|].
  rewrite run_bind. unfold attempt.
  pose proof (taskAdjustFunding_run task (- tk_Quota task) w ltac:(lia)) as Hf.
  destruct (taskAdjustFunding task _ w) as [[u|e] w1]; [|by exists None, w1].
  rewrite run_bind. destruct (taskAdjustTokenQuota_run task (- tk_Quota task) w1) as (w2 & -> & Ht).
  do 2 eexists. split; [reflexivity|]. split_and!; [done..|]. exists w1. split; [done|]. by exists w2.
Qed.
(** Refunding a task, whatever calls fail: the log row that is written says that
    exactly the task's quota went back to the wallet or the subscription that paid
    it (a subscription stops at 0) and that the token got the same amount back or
    nothing; when no row is written, no balance moved. *)
Theorem RefundTaskQuota_spec task w :
  exists log w', RefundTaskQuota task w = (Ok log, w') /\
    match log with
    | Some l => tl_Quota l = tk_Quota task /\ tl_LogType l = LogTypeRefund /\
                tl_UserId l = tk_UserId task /\ task_charged task (- tk_Quota task) w w'
    | None => balances w w'
    end.
Proof. apply Refund_run. Qed.

Lemma Recalculate_run task actual w :
  exists task' log w', RecalculateTaskQuota task actual w = (Ok (task', log), w') /\
    match log with
    | Some l => 0 < actual /\ actual <> tk_Quota task /\
                task' = task <| tk_Quota := actual |> /\
                tl_Quota l = Z.abs (actual - tk_Quota task) /\
                tl_LogType l = (if actual >? tk_Quota task then LogTypeConsume else LogTypeRefund) /\
                task_charged task (actual - tk_Quota task) w w'
    | None => task' = task /\ balances w w'
    end.
Proof.
  unfold RecalculateTaskQuota. destruct (actual <=? 0) eqn:Ha; bools; [by exists task, None, w|].
  destruct (actual - tk_Quota task =? 0) eqn:Hd; bools; [by exists task, None, w|].
  rewrite run_bind. unfold attempt.
  pose proof (taskAdjustFunding_run task (actual - tk_Quota task) w ltac:(lia)) as Hf.
  destruct (taskAdjustFunding task _ w) as [[u|e] w1]; [|by exists task, None, w1].
  rewrite run_bind. destruct (taskAdjustTokenQuota_run task (actual - tk_Quota task) w1) as (w2 & -> & Ht).
  rewrite run_bind. unfold ignore_err.
  match goal with |- context [(UpdateTaskQuota ?t w2).2] =>
    pose proof (balances_task_quota w2 t w2 ltac:(reflexivity)) as Hb; set (w3 := (UpdateTaskQuota t w2).2) in * end.
  rewrite run_bind.
  match goal with |- context [(if ?b then ?m else mret tt) w3] =>
    assert (Hm : preserves (balances w2) ((if b then m else mret tt) : MW unit) /\
                 never_fails ((if b then m else mret tt) : MW unit)) end.
  { split; [destruct (_ >? _); [|by pres]; apply preserves_bind; [apply balances_used|intros; apply balances_channel]|].
    unfold UpdateUserUsedQuotaAndRequestCount, updateUserUsedQuotaAndRequestCount,
      UpdateChannelUsedQuota, updateChannelUsedQuota, addNewRecord. nf. }
  destruct Hm as [Hm Hn]. destruct (Hn w3) as ([] & w4 & E). specialize (Hm w3 Hb). rewrite E in *.
  do 3 eexists. split; [reflexivity|]. simpl.
  assert (Hc : (actual - tk_Quota task >? 0) = (actual >? tk_Quota task))
    by (rewrite !Z.gtb_ltb; apply Bool.eq_true_iff_eq; rewrite !Z.ltb_lt; lia).
  rewrite Hc. split_and!; [lia|lia|done..|]. exists w1. split; [done|]. by exists w2.
Qed.
(** Settling a task at its actual quota, whatever calls fail: nothing moves when the
    actual quota is not positive or equals what was charged; otherwise, when a log
    row is written, exactly the difference was charged or refunded, so the task
    has cost its actual quota, and the task object carries it; when no row is
    written no balance moved and the task object is unchanged. *)
Theorem RecalculateTaskQuota_spec task actual w :
  exists task' log w', RecalculateTaskQuota task actual w = (Ok (task', log), w') /\
    match log with
    | Some l => 0 < actual /\ actual <> tk_Quota task /\
                task' = task <| tk_Quota := actual |> /\
                tl_Quota l = Z.abs (actual - tk_Quota task) /\
                tl_LogType l = (if actual >? tk_Quota task then LogTypeConsume else LogTypeRefund) /\
                task_charged task (actual - tk_Quota task) w w'
    | None => task' = task /\ balances w w'
    end.
Proof. apply Recalculate_run. Qed.

(** ** A poll that ends a task *)

Section poll.
Context (rs : RatioSettings) (range : gmap string F64.float64 -> list (string * F64.float64)).
Context (unmarshal_task : string -> option (string * Task))
  (unmarshal_error : string -> option (option (option string)))
  (redact : string -> string) (ServerAddress : string).

#[local] Abbreviation poll := (updateVideoSingleTask rs range unmarshal_task unmarshal_error redact ServerAddress).

Lemma funding_total task delta w :
  delta <> 0 -> w_faults w = [] -> taskIsSubscription task = false -> has_user (tk_UserId task) (w_db w) = true ->
  exists w', taskAdjustFunding task delta w = (Ok tt, w').
Proof.
  intros Hd Hf Hs Hu. unfold taskAdjustFunding. rewrite Hs. destruct (delta >? 0) eqn:Hp; bools.
  - destruct (DecreaseUserQuota_total (tk_UserId task) delta false w) as (w' & -> & _); [lia|done..|]. eauto.
  - destruct (IncreaseUserQuota_total (tk_UserId task) (- delta) false w) as (w' & -> & _); [lia|done..|]. eauto.
Qed.

(** The wallets after a charge of [delta] to a wallet-funded task. *)
Lemma task_charged_wallet task delta w w' :
  taskIsSubscription task = false -> task_charged task delta w w' ->
  forall id, wallet w' id = wallet w id - if decide (id = tk_UserId task) then delta else 0.
Proof.
  intros Hs (w1 & (_ & Hf) & w2 & (Hw & _) & Hb & _) id. rewrite Hs in Hf.
  rewrite (Hb id), (Hw id). apply Hf.
Qed.

Lemma Refund_wallet task w :
  tk_Quota task <> 0 -> w_faults w = [] -> taskIsSubscription task = false ->
  has_user (tk_UserId task) (w_db w) = true ->
  forall id, wallet (RefundTaskQuota task w).2 id
    = wallet w id + if decide (id = tk_UserId task) then tk_Quota task else 0.
Proof.
  intros Hq Hf Hs Hu id. destruct (Refund_run task w) as (log & w' & E & Hlog). rewrite E. simpl.
  destruct log as [l|].
  - destruct Hlog as (_ & _ & _ & Hc). rewrite (task_charged_wallet _ _ _ _ Hs Hc). case_decide; lia.
  - exfalso. unfold RefundTaskQuota in E. apply Z.eqb_neq in Hq as Hq'. rewrite Hq' in E.
    rewrite run_bind in E. unfold attempt in E.
    destruct (funding_total task (- tk_Quota task) w) as [w1 E1]; [lia|done..|]. rewrite E1 in E.
    rewrite run_bind in E. by destruct (taskAdjustTokenQuota _ _ w1) as [[]].
Qed.
Lemma Recalculate_wallet task actual w :
  0 < actual -> w_faults w = [] -> taskIsSubscription task = false ->
  has_user (tk_UserId task) (w_db w) = true ->
  exists task' log w', RecalculateTaskQuota task actual w = (Ok (task', log), w') /\
  forall id, wallet w' id
    = wallet w id + if decide (id = tk_UserId task) then tk_Quota task - actual else 0.
Proof.
  intros Ha Hf Hs Hu. destruct (Recalculate_run task actual w) as (t' & log & w' & E & Hlog).
  exists t', log, w'. split; [done|]. intros id. destruct log as [l|].
  - destruct Hlog as (_ & _ & _ & _ & _ & Hc). rewrite (task_charged_wallet _ _ _ _ Hs Hc). case_decide; lia.
  - destruct (decide (actual = tk_Quota task)) as [->|Hne].
    { destruct Hlog as (_ & Hw & _). rewrite (Hw id). case_decide; lia. }
    exfalso. unfold RecalculateTaskQuota in E.
    replace (actual <=? 0) with false in E by (symmetry; apply Z.leb_gt; lia).
    replace (actual - tk_Quota task =? 0) with false in E by (symmetry; apply Z.eqb_neq; lia).
    rewrite run_bind in E. unfold attempt in E.
    destruct (funding_total task (actual - tk_Quota task) w) as [w1 E1]; [lia|done..|]. rewrite E1 in E.
    rewrite run_bind in E. destruct (taskAdjustTokenQuota _ _ w1) as [[|] w2]; [|done].
    rewrite run_bind in E. unfold ignore_err in E. rewrite run_bind in E. by destruct (_ ((UpdateTaskQuota _ w2).2)) as [[]].
Qed.

(** The task object of a finished task, before billing. *)
Definition ended_task (now : Z) (body : string) (r : TaskInfo) (t : Task) : option (Task * bool * bool) :=
  apply_status ServerAddress now r (t <| tk_Data := redact body |>).

(** The upstream's answer: a readable body that parses to [r]. *)
Definition answers (adaptor : TaskPollingAdaptor) (ch : PollChannel) (t : Task) (body : string) (r : TaskInfo) : Prop :=
  (exists code, FetchTask adaptor (fetch_of ch t) = Ok (code, Ok body)) /\
  readTaskPollingBody (Ok body) = Ok body /\ parse_body unmarshal_task adaptor body = Ok r.

(** The poller that finds the row at the status it read wins and bills. *)
Lemma poll_wins adaptor ch t body r w t' s f :
  w_faults w = [] -> finished (tk_Status t) = false -> statuses w !! tk_ID t = Some (tk_Status t) ->
  answers adaptor ch t body r -> ti_Status r <> "" ->
  ended_task (w_now w) body r t = Some (t', s, f) -> finished (tk_Status t') = true ->
  tk_ID t' = tk_ID t ->
  exists o, poll adaptor ch t w =
    (Ok o, (bill_finished rs range adaptor r t' s f (w <| w_db := put_task t' (w_db w) |>)).2) /\
    po_settle o = s /\ po_refund o = f.
Proof.
  intros Hf Hfin Hst ([code Hfetch] & Hread & Hparse) Hne Hend Hfin' Hid.
  unfold updateVideoSingleTask. rewrite Hfetch, Hread, Hparse. unfold poll_parsed.
  rewrite run_bind. simpl. unfold check_status. rewrite decide_False by done.
  unfold ended_task in Hend. rewrite Hend. unfold write_back. rewrite Hfin'.
  rewrite bool_decide_eq_false_2 by (simpl; congruence). simpl. rewrite !run_bind. unfold attempt.
  unfold UpdateWithStatus, db_update. run_unfold. rewrite ext_call_ok by done. simpl.
  assert (Hs : status_is (tk_ID t') (tk_Status t) (w_db w) = true).
  { unfold status_is. rewrite Hid. unfold statuses in Hst. rewrite lookup_fmap in Hst.
    destruct (d_tasks (w_db w) !! tk_ID t); [|discriminate]. injection Hst as ->. by apply bool_decide_eq_true. }
  rewrite Hs. simpl.
  destruct (nf_bill rs range adaptor r t' s f (w <| w_db := put_task t' (w_db w) |>)) as (t2 & w2 & E).
  rewrite E. simpl. eauto.
Qed.

Lemma wallet_put_task t w id : wallet (w <| w_db := put_task t (w_db w) |>) id = wallet w id.
Proof. reflexivity. Qed.
Lemma status_put_task t w m :
  statuses_are m (w <| w_db := put_task t (w_db w) |>) -> m !! tk_ID t = Some (tk_Status t).
Proof. intros <-. unfold statuses. simpl. by rewrite lookup_fmap, lookup_insert_eq. Qed.

Lemma poll_ends adaptor ch t body r w :
  w_faults w = [] -> finished (tk_Status t) = false -> statuses w !! tk_ID t = Some (tk_Status t) ->
  tk_Quota t <> 0 -> taskIsSubscription t = false -> has_user (tk_UserId t) (w_db w) = true ->
  answers adaptor ch t body r ->
  let w' := (poll adaptor ch t w).2 in
  (ti_Status r = TaskStatusFailure ->
     statuses w' !! tk_ID t = Some TaskStatusFailure /\
     forall id, wallet w' id = wallet w id + if decide (id = tk_UserId t) then tk_Quota t else 0) /\
  (ti_Status r = TaskStatusSuccess ->
   (forall bc, pv_BillingContext (tk_PrivateData t) = Some bc -> bc_PerCallBilling bc = false) ->
   forall actual, 0 < actual -> (forall t', AdjustBillingOnComplete adaptor t' r = actual) ->
     statuses w' !! tk_ID t = Some TaskStatusSuccess /\
     forall id, wallet w' id = wallet w id + if decide (id = tk_UserId t) then tk_Quota t - actual else 0).
Proof.
  intros Hf Hfin Hst Hq Hsub Hu Hans w'. unfold w'. clear w'. split.
  - intros Hr. edestruct (poll_wins adaptor ch t body r w) as (o & -> & _); [done..|by rewrite Hr| | | |].
    { unfold ended_task, apply_status. rewrite Hr. simpl. reflexivity. }
    { done. }
    { done. }
    apply Z.eqb_neq in Hq as Hq'. simpl. rewrite Hq'. unfold bill_finished. run_unfold.
    match goal with |- context [RefundTaskQuota ?t0 _] => set (t1 := t0) end.
    match goal with |- context [RefundTaskQuota t1 ?w0] => set (w1 := w0) end.
    split.
    + rewrite (status_refund (statuses w1) t1 w1 eq_refl). by apply (status_put_task t1 w).
    + intros id. rewrite (Refund_wallet t1 w1) by done. done.
  - intros Hr Hbc actual Hpos Hadj.
    edestruct (poll_wins adaptor ch t body r w) as (o & -> & _); [done..|by rewrite Hr| | | |].
    { unfold ended_task, apply_status. rewrite Hr. simpl. reflexivity. }
    { done. }
    { done. }
    simpl. unfold bill_finished, settleTaskBillingOnComplete. simpl. rewrite Hadj.
    replace (actual >? 0) with true by (symmetry; apply Z.gtb_lt; lia).
    replace (match pv_BillingContext (tk_PrivateData t) with Some bc => bc_PerCallBilling bc | None => false end)
      with false by (destruct (pv_BillingContext _) as [bc|] eqn:E; [symmetry; by apply Hbc|done]).
    match goal with |- context [RecalculateTaskQuota ?t0 actual] => set (t1 := t0) end.
    match goal with |- context [w <| w_db := ?d |>] => set (w1 := w <| w_db := d |>) end.
    destruct (Recalculate_wallet t1 actual w1) as (t2 & log & w2 & E & Hw); [done..|].
    rewrite !run_bind. rewrite E. cbn. split; [|exact Hw].
    assert (Hk : statuses w2 = statuses w1).
    { pose proof (status_recalculate (statuses w1) t1 actual w1 eq_refl) as Hk. by rewrite E in Hk. }
    change (statuses w2 !! tk_ID t = Some TaskStatusSuccess). rewrite Hk. by apply (status_put_task t1 w).
Qed.

(** A task that was paid from a wallet ends at exactly its price.  The poller that
    sees the upstream report the end of an unfinished task, with no call failing,
    refunds the whole quota of a failed task, and on success charges or refunds the
    difference to the quota the adaptor reports; no other wallet changes, and the
    row carries the final status, so no later poll bills it again. *)
Theorem poll_ends_task adaptor ch t body r w :
  w_faults w = [] -> finished (tk_Status t) = false -> statuses w !! tk_ID t = Some (tk_Status t) ->
  tk_Quota t <> 0 -> taskIsSubscription t = false -> has_user (tk_UserId t) (w_db w) = true ->
  answers adaptor ch t body r ->
  let w' := (poll adaptor ch t w).2 in
  (ti_Status r = TaskStatusFailure ->
     statuses w' !! tk_ID t = Some TaskStatusFailure /\
     forall id, wallet w' id = wallet w id + if decide (id = tk_UserId t) then tk_Quota t else 0) /\
  (ti_Status r = TaskStatusSuccess ->
   (forall bc, pv_BillingContext (tk_PrivateData t) = Some bc -> bc_PerCallBilling bc = false) ->
   forall actual, 0 < actual -> (forall t', AdjustBillingOnComplete adaptor t' r = actual) ->
     statuses w' !! tk_ID t = Some TaskStatusSuccess /\
     forall id, wallet w' id = wallet w id + if decide (id = tk_UserId t) then tk_Quota t - actual else 0).
Proof. apply poll_ends. Qed.
End poll.

(** ** Concrete runs *)

Definition sample_task : Task :=
  mkTask 11 "task_a" "kling" 1 "default" 2 300 "generate" TaskStatusQueued "" 1699999000 0 0 "20%"
    (mkProperties "" "" "m") (mkPrivateData "" "up1" "" "wallet" 0 7 "" None) "".
Definition task_world : World :=
  sample_world <| w_db := put_task sample_task sample_db |>.
Definition sample_channel : PollChannel := mkPollChannel "https://u" "k" "".
(** An upstream that answers every request with [r], at a final quota of [actual]. *)
Definition sample_adaptor (r : TaskInfo) (actual : Z) : TaskPollingAdaptor :=
  mkAdaptor (fun _ => Ok (200, Ok "{}")) (fun _ => Ok r) (fun _ _ => actual).
Definition no_json (_ : string) : option (string * Task) := None.
Definition no_error (_ : string) : option (option (option string)) := None.
Definition done_info : TaskInfo := FailTaskInfo "boom" <| ti_Status := TaskStatusSuccess |>.
Definition empty_ratios : RatioSettings :=
  mkRatioSettings ∅ ∅ ∅ ∅ ∅ ∅ ∅ ∅ ∅ ∅ ∅ ∅ false ∅ ∅.

Lemma sample_answers r actual :
  answers no_json (sample_adaptor r actual) sample_channel sample_task "{}" r.
Proof. split; [by exists 200|]. by split. Qed.

Lemma poll_ends_task_witness :
  wallet (updateVideoSingleTask empty_ratios map_to_list no_json no_error (fun s => s) ""
    (sample_adaptor (FailTaskInfo "boom") 0) sample_channel sample_task task_world).2 1 = 100300 /\
  wallet (updateVideoSingleTask empty_ratios map_to_list no_json no_error (fun s => s) ""
    (sample_adaptor done_info 120) sample_channel sample_task task_world).2 1 = 100180.
Proof.
  split.
  - destruct (poll_ends_task empty_ratios map_to_list no_json no_error (fun s => s) ""
      (sample_adaptor (FailTaskInfo "boom") 0) sample_channel sample_task "{}" (FailTaskInfo "boom") task_world
      eq_refl eq_refl ltac:(vm_compute; reflexivity) ltac:(discriminate) eq_refl
      ltac:(vm_compute; reflexivity) (sample_answers _ _)) as [Hfail _].
    destruct (Hfail eq_refl) as [_ Hw]. rewrite Hw. reflexivity.
  - destruct (poll_ends_task empty_ratios map_to_list no_json no_error (fun s => s) ""
      (sample_adaptor done_info 120) sample_channel sample_task "{}" done_info task_world
      eq_refl eq_refl ltac:(vm_compute; reflexivity) ltac:(discriminate) eq_refl
      ltac:(vm_compute; reflexivity) (sample_answers _ _)) as [_ Hok].
    destruct (Hok eq_refl ltac:(discriminate) 120 ltac:(lia) ltac:(reflexivity)) as [_ Hw]. rewrite Hw. reflexivity.
Defined.

(** Three processes hold the same copy; one of them bills. *)
Definition race : list task_op :=
  [TPoll (sample_adaptor (FailTaskInfo "boom") 0) sample_channel sample_task; TSweep 60 sample_task;
   TTime 1700000100; TPoll (sample_adaptor done_info 120) sample_channel sample_task].

(** Two rows with one upstream id: the pass polls the second row twice, and the second
    poll finds its own final status, skips the guard and refunds again. *)
Theorem duplicate_upstream_id_refunds_twice :
  let t2 : Task := sample_task <| tk_ID := 12 |> in
  let w := task_world <| w_db := put_task t2 (w_db task_world) |> in
  let '(_, taskM, channels) := index_tasks [sample_task; t2] in
  let r := UpdateVideoTasks empty_ratios map_to_list no_json no_error (fun s => s) ""
    (fun _ => Ok sample_channel) (fun _ => Some (sample_adaptor (FailTaskInfo "boom") 0)) (fun _ => false)
    "kling" channels taskM w in
  wallet w 1 = 100000 /\ wallet r.2 1 = 100600 /\
  statuses r.2 = {[11 := TaskStatusQueued; 12 := TaskStatusFailure]}.
Proof. vm_compute. done. Qed.

(** A Suno task is refunded before its row is written: when the write fails the next
    pass reads the row unfinished and refunds it again. *)
Definition suno_failed : SunoDataResponse := mkSuno "up1" "MUSIC" "FAILURE" "boom" 0 0 0 "".
Theorem suno_refunds_twice :
  let pass (w : World) := (suno_item (fun s => s) sample_task suno_failed w).2 in
  let w1 := pass (task_world <| w_faults := [None; None; None; Some "io"] |>) in
  wallet task_world 1 = 100000 /\ statuses w1 = statuses task_world /\ w_faults w1 = [] /\
  wallet w1 1 = 100300 /\ wallet (pass w1) 1 = 100600.
Proof. vm_compute. done. Qed.

(** Tasks of a channel that is gone, and tasks without an upstream id, end as failed
    without a refund, and no later poll or sweep sees them. *)
Theorem bulk_failure_keeps_charge :
  let w1 := (fail_channel_tasks "gone" ["up1"] {["up1" := sample_task]} task_world).2 in
  statuses w1 = {[11 := TaskStatusFailure]} /\ wallet w1 1 = wallet task_world 1 /\
  (GetAllUnFinishSyncTasks 1000 w1).1 = Ok [] /\ (GetTimedOutUnfinishedTasks (2 * 10 ^ 9) 100 w1).1 = Ok [].
Proof. vm_compute. done. Qed.
