(* ===== verification/BillingSession.v ===== *)
(** * Billing sessions (src/service/billing_session.go, billing.go, quota.go)

    One session per relayed request: pre-consume before the upstream call,
    settle or refund after it.  The session, the relay info it points to and
    the world are the state of its methods.  An upstream that refuses a request for its
    content can charge for it; the violation fee is passed on to the user after the
    request was refunded. *)

From S2P Require Import Prelude GoStd GoFloat QuotaMath ApiError PriceData BillingExpr World Sample ModelUtils UserModel TokenModel BatchUpdate SubscriptionTime Subscription SubscriptionProofs Funding.

(** ** State *)

Record ChannelMeta := mkChannelMeta {
  cm_ChannelId : Z;
  cm_ChannelType : Z;
}.

(** src/relay/common/relay_info.go, the fields the billing code uses. *)
Record RelayInfo := mkRelayInfo {
  ri_UserId : Z;
  ri_TokenId : Z;
  ri_TokenKey : string;
  ri_TokenUnlimited : bool;
  ri_IsPlayground : bool;
  ri_ForcePreConsume : bool;
  ri_UserQuota : Z;
  ri_RequestId : string;
  ri_OriginModelName : string;
  ri_BillingPreference : string;
  ri_QuotaClamp : option Quota.QuotaClamp;
  ri_FinalPreConsumedQuota : Z;
  ri_BillingSource : string;
  ri_SubscriptionId : Z;
  ri_SubscriptionPreConsumed : Z;
  ri_SubscriptionPostDelta : Z;
  ri_SubscriptionAmountTotal : Z;
  ri_SubscriptionAmountUsedAfterPreConsume : Z;
  ri_SubscriptionPlanId : Z;
  ri_SubscriptionPlanTitle : string;
  ri_UserGroup : string;
  ri_UsingGroup : string;
  ri_AcceptUnsetRatioModel : bool;        (** UserSetting.AcceptUnsetRatioModel *)
  ri_PriceData : PriceData;
  ri_TieredBillingSnapshot : option BillingSnapshot;
  ri_BillingRequestInput : option RequestInput;
  ri_RequestHeaders : gmap string string;
  ri_StartTime : Z;
  ri_IsStream : bool;
  ri_ChannelMeta : option ChannelMeta;
  ri_RelayFormat : string;
  ri_FinalRequestRelayFormat : string;
  ri_RequestConversionChain : list string;
  ri_ResponsesUsageInfo : option (gmap string Z);   (** call count of each built-in tool *)
  ri_estimatePromptTokens : Z;
}.
#[export] Instance RelayInfo_settable : Settable RelayInfo :=
  fields_of mkRelayInfo < ri_UserId; ri_TokenId; ri_TokenKey; ri_TokenUnlimited; ri_IsPlayground;
    ri_ForcePreConsume; ri_UserQuota; ri_RequestId; ri_OriginModelName; ri_BillingPreference;
    ri_QuotaClamp; ri_FinalPreConsumedQuota; ri_BillingSource; ri_SubscriptionId;
    ri_SubscriptionPreConsumed; ri_SubscriptionPostDelta; ri_SubscriptionAmountTotal;
    ri_SubscriptionAmountUsedAfterPreConsume; ri_SubscriptionPlanId; ri_SubscriptionPlanTitle;
    ri_UserGroup; ri_UsingGroup; ri_AcceptUnsetRatioModel; ri_PriceData; ri_TieredBillingSnapshot;
    ri_BillingRequestInput; ri_RequestHeaders; ri_StartTime; ri_IsStream; ri_ChannelMeta;
    ri_RelayFormat; ri_FinalRequestRelayFormat; ri_RequestConversionChain; ri_ResponsesUsageInfo;
    ri_estimatePromptTokens >.

Record BillingSession := mkSession {
  bs_funding : FundingSource;
  bs_preConsumedQuota : Z;
  bs_tokenConsumed : Z;
  bs_extraReserved : Z;
  bs_trusted : bool;
  bs_fundingSettled : bool;
  bs_settled : bool;
  bs_refunded : bool;
}.
#[export] Instance BillingSession_settable : Settable BillingSession :=
  fields_of mkSession < bs_funding; bs_preConsumedQuota; bs_tokenConsumed; bs_extraReserved;
    bs_trusted; bs_fundingSettled; bs_settled; bs_refunded >.

(** The state of a session's methods. *)
Record SS := mkSS {
  ss_w : World;
  ss_info : RelayInfo;
  ss_s : BillingSession;
}.
#[export] Instance SS_settable : Settable SS := fields_of mkSS < ss_w; ss_info; ss_s >.

Definition lift {A} (m : MW A) : M SS error A := fun st =>
  let '(r, w') := m (ss_w st) in (r, st <| ss_w := w' |>).
Definition set_s {E} (f : BillingSession -> BillingSession) : M SS E unit :=
  modify (fun st => st <| ss_s := f (ss_s st) |>).
Definition set_info {E} (f : RelayInfo -> RelayInfo) : M SS E unit :=
  modify (fun st => st <| ss_info := f (ss_info st) |>).

(** ** Token pre-consume (src/service/quota.go) *)

Definition PreConsumeTokenQuota (info : RelayInfo) (quota : Z) : MW unit :=
  guard_err (quota <? 0) (ErrNew "quota 不能为负数！") ;;
  if ri_IsPlayground info then mret tt
  else
    token ← GetTokenByKey (ri_TokenKey info) false;
    guard_err (negb (ri_TokenUnlimited info) && (t_RemainQuota token <? quota))
      (ErrQuota "token quota is not enough, token remain quota: %s, need quota: %s"
         [t_RemainQuota token; quota]) ;;
    DecreaseTokenQuota (ri_TokenId info) (ri_TokenKey info) quota.

(** ** Settle *)

Definition settle_token (info : RelayInfo) (delta : Z) : MW unit :=
  if ri_IsPlayground info then mret tt
  else if delta >? 0 then DecreaseTokenQuota (ri_TokenId info) (ri_TokenKey info) delta
  else IncreaseTokenQuota (ri_TokenId info) (ri_TokenKey info) (- delta).

Definition Settle (actualQuota : Z) : M SS error unit :=
  s ← gets ss_s;
  info ← gets ss_info;
  if bs_settled s then mret tt
  else
    let delta := actualQuota - bs_preConsumedQuota s in
    if delta =? 0 then set_s (fun s => s <| bs_settled := true |>)
    else
      (if negb (bs_fundingSettled s) then
         lift (fSettle (bs_funding s) delta) ;;
         set_s (fun s => s <| bs_fundingSettled := true |>)
       else mret tt) ;;
      tokenErr ← attempt (lift (settle_token info delta));
      (if decide (Source (bs_funding s) = BillingSourceSubscription) then
         set_info (fun i => i <| ri_SubscriptionPostDelta := ri_SubscriptionPostDelta i + delta |>)
       else mret tt) ;;
      set_s (fun s => s <| bs_settled := true |>) ;;
      of_result tokenErr.

(** ** Refund *)

Definition needsRefundLocked (s : BillingSession) : bool :=
  if bs_settled s || bs_refunded s || bs_fundingSettled s then false
  else if bs_tokenConsumed s >? 0 then true
  else match bs_funding s with
       | FSubscription sub => sf_preConsumed sub >? 0
       | FWallet _ => false
       end.
Definition NeedsRefund (s : BillingSession) : bool := needsRefundLocked s.

(** The closure is queued with the values it captures. *)
Definition Refund : M SS error unit :=
  s ← gets ss_s;
  info ← gets ss_info;
  if bs_settled s || bs_refunded s || negb (needsRefundLocked s) then mret tt
  else
    set_s (fun s => s <| bs_refunded := true |>) ;;
    lift (go_job (JobBillingRefund (bs_funding s) (bs_extraReserved s) (ri_SubscriptionId info)
      (ri_TokenId info) (ri_TokenKey info) (ri_IsPlayground info) (bs_tokenConsumed s))).

(** Its body; errors are logged. *)
Definition refund_job (funding : FundingSource) (extraReserved subscriptionId tokenId : Z)
    (tokenKey : string) (isPlayground : bool) (tokenConsumed : Z) : MW unit :=
  ignore_err (fRefund funding) ;;
  (if (extraReserved >? 0) && bool_decide (Source funding = BillingSourceSubscription)
      && (subscriptionId >? 0)
   then ignore_err (PostConsumeUserSubscriptionDelta subscriptionId (- extraReserved))
   else mret tt) ;;
  (if (tokenConsumed >? 0) && negb isPlayground
   then ignore_err (IncreaseTokenQuota tokenId tokenKey tokenConsumed) else mret tt).

(** Running a queued closure. *)
Definition run_job (j : job) : MW unit :=
  match j with
  | JobCacheIncrUserQuota userId delta => ignore_err (cacheIncrUserQuota userId delta)
  | JobUpdateUserQuotaCache userId quota => ignore_err (updateUserQuotaCache userId quota)
  | JobUpdateUserGroupCache userId group => ignore_err (updateUserGroupCache userId group)
  | JobPopulateUserCache u => ignore_err (populateUserCache u)
  | JobCacheSetToken t => ignore_err (cacheSetToken t)
  | JobCacheDeleteTokens keys => forM_ keys (fun k => ignore_err (cacheDeleteToken k))
  | JobCacheIncrTokenQuota key delta => ignore_err (cacheIncrTokenQuota key delta)
  | JobBillingRefund f extra subId tokenId key pg consumed =>
      refund_job f extra subId tokenId key pg consumed
  | JobQuotaNotify _ _ _ _ => mret tt       (** a mail or push message *)
  | JobSubscriptionNotify _ _ => mret tt
  end.

(** ** The relay info's copy of the session *)

Definition sync_info (s : BillingSession) (info : RelayInfo) : RelayInfo :=
  let info := info <| ri_FinalPreConsumedQuota := bs_preConsumedQuota s |>
                   <| ri_BillingSource := Source (bs_funding s) |> in
  match bs_funding s with
  | FSubscription sub =>
      info <| ri_SubscriptionId := sf_subscriptionId sub |>
           <| ri_SubscriptionPreConsumed := sf_preConsumed sub + bs_extraReserved s |>
           <| ri_SubscriptionPostDelta := 0 |>
           <| ri_SubscriptionAmountTotal := sf_AmountTotal sub |>
           <| ri_SubscriptionAmountUsedAfterPreConsume := sf_AmountUsedAfter sub + bs_extraReserved s |>
           <| ri_SubscriptionPlanId := sf_PlanId sub |>
           <| ri_SubscriptionPlanTitle := sf_PlanTitle sub |>
  | FWallet _ => info <| ri_SubscriptionId := 0 |> <| ri_SubscriptionPreConsumed := 0 |>
  end.
Definition syncRelayInfo {E} : M SS E unit :=
  s ← gets ss_s; set_info (sync_info s).

(** ** Reserve *)

Definition quota_denied : list Option_ := [ErrOptionWithSkipRetry; ErrOptionWithNoRecordErrorLog].

(** "订阅额度不足或未配置订阅: " followed by the text of the error *)
Definition subscription_denied (e : error) : NewAPIError :=
  NewErrorWithStatusCode (GPlain (ErrNew ("订阅额度不足或未配置订阅: " +:+ error_text e)))
    ErrorCodeInsufficientUserQuota StatusForbidden quota_denied.
Definition token_denied (e : error) : NewAPIError :=
  NewErrorWithStatusCode (GPlain e) ErrorCodePreConsumeTokenQuotaFailed StatusForbidden quota_denied.

Definition reserveFunding (delta : Z) : M SS NewAPIError unit :=
  s ← gets ss_s;
  match bs_funding s with
  | FWallet f =>
      map_err (fun e => NewError (GPlain e) ErrorCodeUpdateDataError [ErrOptionWithSkipRetry])
        (lift (DecreaseUserQuota (wf_userId f) delta false)) ;;
      set_s (fun s => s <| bs_funding := FWallet (f <| wf_consumed := wf_consumed f + delta |>) |>)
  | FSubscription f =>
      map_err subscription_denied (lift (PostConsumeUserSubscriptionDelta (sf_subscriptionId f) delta))
  end.

Definition rollbackFundingReserve (delta : Z) : M SS NewAPIError unit :=
  s ← gets ss_s;
  match bs_funding s with
  | FWallet f =>
      r ← attempt (lift (IncreaseUserQuota (wf_userId f) delta false));
      match r with
      | Ok _ => set_s (fun s => s <| bs_funding := FWallet (f <| wf_consumed := wf_consumed f - delta |>) |>)
      | Err _ => mret tt
      end
  | FSubscription f =>
      ignore_err (lift (PostConsumeUserSubscriptionDelta (sf_subscriptionId f) (- delta)))
  end.

Definition reserveToken (delta : Z) : M SS NewAPIError unit :=
  info ← gets ss_info;
  if (delta <=? 0) || ri_IsPlayground info then mret tt
  else map_err token_denied (lift (PreConsumeTokenQuota info delta)).

Definition Reserve (targetQuota : Z) : M SS NewAPIError unit :=
  s ← gets ss_s;
  if bs_settled s || bs_refunded s || bs_trusted s || (targetQuota <=? bs_preConsumedQuota s)
  then mret tt
  else
    let delta := targetQuota - bs_preConsumedQuota s in
    if delta <=? 0 then mret tt
    else
      reserveFunding delta ;;
      r ← attempt (reserveToken delta);
      match r with
      | Err e => rollbackFundingReserve delta ;; fail e
      | Ok _ =>
          set_s (fun s => s <| bs_preConsumedQuota := bs_preConsumedQuota s + delta |>
                            <| bs_tokenConsumed := bs_tokenConsumed s + delta |>
                            <| bs_extraReserved := bs_extraReserved s + delta |>) ;;
          syncRelayInfo
      end.

(** ** Pre-consume *)

(** [tokenQuota] is the value the auth middleware stored in the gin context. *)
Definition shouldTrust (tokenQuota : Z) (perUnit : F64.float64) (info : RelayInfo)
    (s : BillingSession) : bool :=
  if ri_ForcePreConsume info then false
  else
    let trustQuota := Quota.GetTrustQuota perUnit in
    if trustQuota <=? 0 then false
    else if negb (ri_TokenUnlimited info || (tokenQuota >? trustQuota)) then false
    else match bs_funding s with
         | FWallet _ => ri_UserQuota info >? trustQuota
         | FSubscription _ => false
         end.

(** What a failing funding source answers with. *)
Definition funding_failed (e : error) : NewAPIError :=
  if GoStrings.Contains (error_text e) "no active subscription"
     || GoStrings.Contains (error_text e) "subscription quota insufficient"
  then subscription_denied e
  else NewError (GPlain e) ErrorCodeUpdateDataError [ErrOptionWithSkipRetry].

Definition preConsume (tokenQuota quota : Z) : M SS NewAPIError unit :=
  info ← gets ss_info;
  trust ← gets (fun st => shouldTrust tokenQuota (QuotaPerUnit (w_cfg (ss_w st))) info (ss_s st));
  (if trust : bool then set_s (fun s => s <| bs_trusted := true |>) else mret tt) ;;
  let effectiveQuota := if trust : bool then 0 else quota in
  (if effectiveQuota >? 0 then
     map_err token_denied (lift (PreConsumeTokenQuota info effectiveQuota)) ;;
     set_s (fun s => s <| bs_tokenConsumed := effectiveQuota |>)
   else mret tt) ;;
  s ← gets ss_s;
  r ← attempt (lift (fPreConsume (bs_funding s) effectiveQuota));
  match r with
  | Err e =>
      (if (bs_tokenConsumed s >? 0) && negb (ri_IsPlayground info) then
         ignore_err (lift (IncreaseTokenQuota (ri_TokenId info) (ri_TokenKey info) (bs_tokenConsumed s))) ;;
         set_s (fun s => s <| bs_tokenConsumed := 0 |>)
       else mret tt) ;;
      fail (funding_failed e)
  | Ok f =>
      set_s (fun s => s <| bs_funding := f |> <| bs_preConsumedQuota := effectiveQuota |>) ;;
      syncRelayInfo
  end.

(** ** Creating a session *)

(** The handler's state: the world, the relay info and its Billing field. *)
Record Ctx := mkCtx {
  c_w : World;
  c_info : RelayInfo;
  c_bill : option BillingSession;
}.
#[export] Instance Ctx_settable : Settable Ctx := fields_of mkCtx < c_w; c_info; c_bill >.

Definition liftC {A} (m : MW A) : M Ctx error A := fun c =>
  let '(r, w') := m (c_w c) in (r, c <| c_w := w' |>).
(** Run a method on the session [s0]; the session it leaves comes back too. *)
Definition on_session {E A} (s0 : BillingSession) (m : M SS E A)
    : M Ctx E (result E A * BillingSession) := fun c =>
  let '(r, st) := m (mkSS (c_w c) (c_info c) s0) in
  (Ok (r, ss_s st), c <| c_w := ss_w st |> <| c_info := ss_info st |>).

Definition NormalizeBillingPreference (pref : string) : string :=
  let p := GoStrings.TrimSpace pref in
  if decide (p ∈ ["subscription_first"; "wallet_first"; "subscription_only"; "wallet_only"])
  then p else "subscription_first".

Definition new_session (f : FundingSource) : BillingSession := mkSession f 0 0 0 false false false false.

Definition start_session (tokenQuota quota : Z) (f : FundingSource) : M Ctx NewAPIError BillingSession :=
  '(r, s) ← on_session (new_session f) (preConsume tokenQuota quota);
  match r with Ok _ => mret s | Err e => fail e end.

Definition query_failed (e : error) : NewAPIError :=
  NewError (GPlain e) ErrorCodeQueryDataError [ErrOptionWithSkipRetry].

Definition tryWallet (tokenQuota preConsumedQuota : Z) : M Ctx NewAPIError BillingSession :=
  info ← gets c_info;
  userQuota ← map_err query_failed (liftC (GetUserQuota (ri_UserId info) false));
  guard_err (userQuota <=? 0)
    (NewErrorWithStatusCode (GPlain (ErrQuota "用户额度不足, 剩余额度: %s" [userQuota]))
       ErrorCodeInsufficientUserQuota StatusForbidden quota_denied) ;;
  guard_err (userQuota - preConsumedQuota <? 0)
    (NewErrorWithStatusCode (GPlain (ErrQuota "预扣费额度失败, 用户剩余额度: %s, 需要预扣费额度: %s"
       [userQuota; preConsumedQuota]))
       ErrorCodeInsufficientUserQuota StatusForbidden quota_denied) ;;
  modify (fun c => c <| c_info := c_info c <| ri_UserQuota := userQuota |> |>) ;;
  start_session tokenQuota preConsumedQuota (FWallet (mkWallet (ri_UserId info) 0)).

Definition trySubscription (tokenQuota preConsumedQuota : Z) : M Ctx NewAPIError BillingSession :=
  info ← gets c_info;
  let subConsume := if preConsumedQuota <=? 0 then 1 else preConsumedQuota in
  start_session tokenQuota subConsume
    (FSubscription (mkSubFunding (ri_RequestId info) (ri_UserId info) (ri_OriginModelName info)
       subConsume 0 0 0 0 0 "")).

Definition is_insufficient (e : NewAPIError) : bool :=
  bool_decide (GetErrorCode (Some e) = ErrorCodeInsufficientUserQuota).

Definition NewBillingSession (tokenQuota preConsumedQuota : Z) : M Ctx NewAPIError BillingSession :=
  info ← gets c_info;
  let pref := NormalizeBillingPreference (ri_BillingPreference info) in
  let wallet_ := tryWallet tokenQuota preConsumedQuota in
  let subscription_ := trySubscription tokenQuota preConsumedQuota in
  if decide (pref = "subscription_only") then subscription_
  else if decide (pref = "wallet_only") then wallet_
  else if decide (pref = "wallet_first") then
    r ← attempt wallet_;
    match r with
    | Ok s => mret s
    | Err e => if is_insufficient e then subscription_ else fail e
    end
  else
    hasSub ← map_err query_failed (liftC (HasActiveUserSubscription (ri_UserId info)));
    if negb hasSub then wallet_
    else
      r ← attempt subscription_;
      match r with
      | Ok s => mret s
      | Err e =>
          if is_insufficient e then
            allowOverflow ← map_err query_failed
              (liftC (UserActiveSubscriptionsAllowWalletOverflow (ri_UserId info)));
            if allowOverflow : bool then wallet_ else fail e
          else fail e
      end.

(** ** The handlers' entry points (src/service/billing.go) *)

Definition PreConsumeBilling (tokenQuota preConsumedQuota : Z) : M Ctx NewAPIError unit :=
  info ← gets c_info;
  match ri_QuotaClamp info with
  | Some clamp => fail (NewErrorWithStatusCode (GClamp clamp) ErrorCodeModelPriceError
                          StatusBadRequest [ErrOptionWithSkipRetry])
  | None =>
      guard_err (preConsumedQuota <? 0)
        (NewErrorWithStatusCode
           (GPlain (ErrNew ("pre-consume quota cannot be negative: " +:+ pretty preConsumedQuota)))
           ErrorCodeModelPriceError StatusBadRequest [ErrOptionWithSkipRetry]) ;;
      session ← NewBillingSession tokenQuota preConsumedQuota;
      modify (fun c => c <| c_bill := Some session |>)
  end.

Definition quota_notify (info : RelayInfo) (quota preConsumedQuota : Z) : MW unit :=
  go_job (JobQuotaNotify (ri_UserId info) (ri_UserQuota info) quota preConsumedQuota).
Definition subscription_notify (info : RelayInfo) : MW unit :=
  go_job (JobSubscriptionNotify (ri_SubscriptionId info)
    (ri_SubscriptionAmountTotal info
     - (ri_SubscriptionAmountUsedAfterPreConsume info + ri_SubscriptionPostDelta info))).

Definition PostConsumeQuota (quota preConsumedQuota : Z) (sendEmail : bool) : M Ctx error unit :=
  info ← gets c_info;
  (if decide (ri_BillingSource info = BillingSourceSubscription) then
     guard_err (ri_SubscriptionId info =? 0) (ErrNew "subscription id is missing") ;;
     if quota =? 0 then mret tt
     else
       liftC (PostConsumeUserSubscriptionDelta (ri_SubscriptionId info) quota) ;;
       modify (fun c => c <| c_info := c_info c
         <| ri_SubscriptionPostDelta := ri_SubscriptionPostDelta (c_info c) + quota |> |>)
   else if quota >? 0 then liftC (DecreaseUserQuota (ri_UserId info) quota false)
   else liftC (IncreaseUserQuota (ri_UserId info) (- quota) false)) ;;
  (if ri_IsPlayground info then mret tt
   else if quota >? 0 then liftC (DecreaseTokenQuota (ri_TokenId info) (ri_TokenKey info) quota)
   else liftC (IncreaseTokenQuota (ri_TokenId info) (ri_TokenKey info) (- quota))) ;;
  info ← gets c_info;
  if sendEmail && negb (quota + preConsumedQuota =? 0)
  then liftC (quota_notify info quota preConsumedQuota) else mret tt.

Definition SettleBilling (actualQuota : Z) : M Ctx error unit :=
  bill ← gets c_bill;
  match bill with
  | Some s =>
      let preConsumed := bs_preConsumedQuota s in
      '(r, s') ← on_session s (Settle actualQuota);
      modify (fun c => c <| c_bill := Some s' |>) ;;
      of_result r ;;
      info ← gets c_info;
      if actualQuota =? 0 then mret tt
      else if decide (ri_BillingSource info = BillingSourceSubscription)
      then liftC (subscription_notify info)
      else liftC (quota_notify info (actualQuota - preConsumed) preConsumed)
  | None =>
      info ← gets c_info;
      let quotaDelta := actualQuota - ri_FinalPreConsumedQuota info in
      if quotaDelta =? 0 then mret tt
      else PostConsumeQuota quotaDelta (ri_FinalPreConsumedQuota info) true
  end.

(** Refund of the handler's session, when it has one. *)
Definition RefundBilling : M Ctx error unit :=
  bill ← gets c_bill;
  match bill with
  | Some s =>
      '(r, s') ← on_session s Refund;
      modify (fun c => c <| c_bill := Some s' |>) ;;
      of_result r
  | None => mret tt
  end.

(** ** Violation fees (src/service/violation_fee.go) *)

Import GoStrings.

Definition ViolationFeeCodePrefix : string := "violation_fee.".
Definition CSAMViolationMarker : string := "Failed check: SAFETY_CHECK_TYPE".
Definition ContentViolatesUsageMarker : string := "Content violates usage guidelines".

(** The Grok settings. *)
Record ViolationSettings := mkViolationSettings {
  ViolationDeductionEnabled : bool;
  ViolationDeductionAmount : F64.float64;
}.

Section violation.
Context (format_g : F64.float64 -> string) (MaskSensitiveInfo : string -> string).
Context `{Decimal D}.

Definition IsViolationFeeCode (code : string) : bool := HasPrefix code ViolationFeeCodePrefix.

Definition HasCSAMViolationMarker (e : NewAPIError) : bool :=
  let text := Error_text format_g e in
  if Contains text CSAMViolationMarker || Contains text ContentViolatesUsageMarker then true
  else Contains (oe_Message (ToOpenAIError format_g MaskSensitiveInfo e)) CSAMViolationMarker
       || Contains text ContentViolatesUsageMarker.
Definition WrapAsViolationFeeGrokCSAM (e : NewAPIError) : NewAPIError :=
  let oai := ToOpenAIError format_g MaskSensitiveInfo e in
  WithOpenAIError (oai <| oe_Type := ErrorCodeViolationFeeGrokCSAM |> <| oe_Code := CString ErrorCodeViolationFeeGrokCSAM |>)
    (ae_StatusCode e) [ErrOptionWithSkipRetry].
Definition NormalizeViolationFeeError (e : NewAPIError) : NewAPIError :=
  if HasCSAMViolationMarker e then WrapAsViolationFeeGrokCSAM e
  else if IsViolationFeeCode (ae_errorCode e) then
    WithOpenAIError (ToOpenAIError format_g MaskSensitiveInfo e) (ae_StatusCode e) [ErrOptionWithSkipRetry]
  else e.
Definition shouldChargeViolationFee (e : NewAPIError) : bool :=
  if decide (ae_errorCode e = ErrorCodeViolationFeeGrokCSAM) then true else HasCSAMViolationMarker e.

(** The product is exact; IntPart converts it to an int64. *)
Definition calcViolationFeeQuota (QuotaPerUnit amount groupRatio : F64.float64) : Z :=
  if F64.leb amount F64.zero then 0
  else if F64.leb groupRatio F64.zero then 0
  else
    let quota := dIntPart (dRound0 (dMul (dMul (NewFromFloat (D := D) amount) (NewFromFloat QuotaPerUnit))
                                      (NewFromFloat groupRatio))) in
    if quota <=? 0 then 0 else quota.

(** The log row is left out.  [ChannelId] is read through the embedded ChannelMeta. *)
Definition ChargeViolationFeeIfNeeded (settings : ViolationSettings) (e : NewAPIError) : M Ctx error bool :=
  if negb (shouldChargeViolationFee e) then mret false
  else if negb (ViolationDeductionEnabled settings) then mret false
  else
    perUnit ← gets (fun c => QuotaPerUnit (w_cfg (c_w c)));
    info ← gets c_info;
    let feeQuota := calcViolationFeeQuota perUnit (ViolationDeductionAmount settings)
                      (GroupRatio (pd_GroupRatioInfo (ri_PriceData info))) in
    if feeQuota <=? 0 then mret false
    else
      r ← attempt (PostConsumeQuota feeQuota 0 true);
      match r with
      | Err _ => mret false
      | Ok _ =>
          liftC (UpdateUserUsedQuotaAndRequestCount (ri_UserId info) feeQuota) ;;
          (match ri_ChannelMeta info with
           | Some ch => liftC (UpdateChannelUsedQuota (cm_ChannelId ch) feeQuota)
           | None => fail (ErrPanic "nil pointer dereference")
           end) ;;
          mret true
      end.
End violation.
