(* ===== verification/BillingProofs.v ===== *)
(** * Facts about billing sessions

    What a session charges, what it gives back, and in which order its methods
    may be called. *)

From S2P Require Import Prelude GoStd GoFloat QuotaMath PriceData World Sample ModelUtils UserModel TokenModel SubscriptionTime Subscription SubscriptionProofs Funding ApiError BillingSession.

#[local] Arguments balance : simpl never.

(** ** Token adjustments *)

(** What [settle_token] moves: nothing for the playground. *)
Definition token_share (info : RelayInfo) (delta : Z) : Z :=
  if ri_IsPlayground info then 0 else delta.

Definition same_ledger_but_tokens (w w' : World) : Prop :=
  same_wallets w w' /\ same_subs w w' /\ same_env w w'.

Lemma token_moved_frame id delta w w' : token_moved id delta w w' -> same_ledger_but_tokens w w'.
Proof. intros (_ & _ & H). exact H. Qed.

Lemma settle_token_run info delta w :
  match settle_token info delta w with
  | (Ok _, w') => same_ledger_but_tokens w w' /\
      forall i, token_remain w' i = token_remain w i -
        if decide (i = ri_TokenId info) then token_share info delta else 0
  | (Err _, w') => exists fs, w' = w <| w_faults := fs |>
  end.
Proof.
  unfold settle_token, token_share. destruct (ri_IsPlayground info).
  { split; [done|]. intros i. case_decide; lia. }
  destruct (delta >? 0).
  - pose proof (DecreaseTokenQuota_run (ri_TokenId info) (ri_TokenKey info) delta w) as H.
    case_run H; [|done]. destruct H as [_ H]. split; [by eapply token_moved_frame|].
    destruct H as (H & _). intros i. rewrite H. case_decide; lia.
  - pose proof (IncreaseTokenQuota_run (ri_TokenId info) (ri_TokenKey info) (- delta) w) as H.
    case_run H; [|done]. destruct H as [_ H]. split; [by eapply token_moved_frame|].
    destruct H as (H & _). intros i. rewrite H. case_decide; lia.
Qed.

(** ** Settle, against the contract of the funding source *)

Lemma Settle_run actual st :
  let s := ss_s st in let f := bs_funding s in
  let delta := actual - bs_preConsumedQuota s in
  let w := ss_w st in
  bs_settled s = false -> bs_fundingSettled s = false -> exact f delta w ->
  match Settle actual st with
  | (Ok _, st') => bs_settled (ss_s st') = true /\ bs_refunded (ss_s st') = bs_refunded s /\
      balance f (ss_w st') = balance f w - delta /\
      forall i, token_remain (ss_w st') i = token_remain w i -
        if decide (i = ri_TokenId (ss_info st)) then token_share (ss_info st) delta else 0
  | (Err _, st') => same_tokens w (ss_w st') /\ bs_refunded (ss_s st') = bs_refunded s /\
      if bs_settled (ss_s st') then balance f (ss_w st') = balance f w - delta
      else balance f (ss_w st') = balance f w
  end.
Proof.
  cbv zeta. intros Hs Hfs Hx. unfold Settle. rewrite run_bind. cbn [gets]. rewrite run_bind. cbn [gets].
  rewrite Hs. set (delta := actual - _) in *. destruct (delta =? 0) eqn:Hz; bools.
  { unfold set_s, modify. simpl. rewrite Hz. split; [done|]. split; [done|]. split; [lia|].
    intros i. unfold token_share. destruct (ri_IsPlayground _); case_decide; lia. }
  rewrite Hfs. cbn [negb].
  pose proof (settle_law (bs_funding (ss_s st)) delta (ss_w st) Hx) as Hlaw.
  pose proof (settle_tokens (bs_funding (ss_s st)) delta (ss_w st)) as Htok.
  rewrite !run_bind. unfold lift at 1.
  destruct (fSettle (bs_funding (ss_s st)) delta (ss_w st)) as [[u|e] w1]; simpl in Htok.
  2:{ cbn. by rewrite Hs. }
  cbn [set_s modify]. rewrite run_bind. unfold attempt, lift. cbn [ss_w ss_info].
  pose proof (settle_token_run (ss_info st) delta w1) as Ht.
  change (ss_w ((st <| ss_w := w1 |>) <| ss_s := (ss_s (st <| ss_w := w1 |>)) <| bs_fundingSettled := true |> |>))
    with w1.
  destruct (settle_token (ss_info st) delta w1) as [rt w2].
  rewrite run_bind. match goal with |- context [decide ?P] => destruct (decide P) end;
    unfold set_info, set_s; cbn [modify]; rewrite ?run_ret, ?run_bind; cbn [modify];
    destruct rt as [u2|e2]; cbn [of_result];
    [destruct Ht as [(Hw & Hsb & _) Ht]|destruct Ht as [fs ->]
    |destruct Ht as [(Hw & Hsb & _) Ht]|destruct Ht as [fs ->]]; simpl.
  1,3: split; [done|]; split; [done|]; split;
    [rewrite <- Hlaw; by apply (balance_frame (bs_funding (ss_s st)))
    |intros i; rewrite Ht; destruct Htok as [-> _]; done].
  all: split; [exact Htok|]; split; [done|]; rewrite <- Hlaw;
    by apply (balance_frame (bs_funding (ss_s st))).
Qed.

(** ** Reads *)

(** Only caches, queued jobs and the fault script differ. *)
Definition inert (w w' : World) : Prop :=
  w_db w' = w_db w /\ w_batch w' = w_batch w /\ same_env w w'.
#[export] Instance inert_preorder : PreOrder inert.
Proof. split; unfold inert, same_env; repeat intro; intuition congruence. Qed.
Lemma inert_ledger w w' : inert w w' -> same_wallets w w' /\ same_tokens w w' /\ same_subs w w'.
Proof.
  intros (Hd & Hb & _). destruct (same_ledger w w') as [? ?]; try by rewrite ?Hd.
  split; [done|]. split; [done|]. unfold same_subs. by rewrite Hd.
Qed.
Lemma GetTokenByKey_inert key fromDB w : inert w (GetTokenByKey key fromDB w).2.
Proof.
  assert (H : preserves (inert w) (GetTokenByKey key fromDB)); [|by apply H].
  unfold GetTokenByKey, cacheGetTokenByKey, RedisHGetObj, go_if_redis, go_job. pres.
Qed.
Lemma GetUserQuota_inert id fromDB w : inert w (GetUserQuota id fromDB w).2.
Proof.
  assert (H : preserves (inert w) (GetUserQuota id fromDB)); [|by apply H].
  unfold GetUserQuota, getUserQuotaCache, GetUserCache, cacheGetUserBase, RedisHGetObj, GetUserById,
    go_job. pres.
Qed.

Lemma PreConsumeTokenQuota_run info quota w :
  match PreConsumeTokenQuota info quota w with
  | (Ok _, w') => 0 <= quota /\ same_ledger_but_tokens w w' /\
      forall i, token_remain w' i = token_remain w i -
        if decide (i = ri_TokenId info) then token_share info quota else 0
  | (Err _, w') => same_ledger_but_tokens w w' /\ same_tokens w w'
  end.
Proof.
  unfold PreConsumeTokenQuota, token_share. rewrite run_bind. unfold guard_err at 1.
  destruct (quota <? 0) eqn:Hq; bools; [done|]. rewrite run_ret.
  destruct (ri_IsPlayground info).
  { split; [done|]. split; [done|]. intros i. case_decide; lia. }
  rewrite run_bind. pose proof (GetTokenByKey_inert (ri_TokenKey info) false w) as Hi.
  destruct (GetTokenByKey _ _ w) as [[t|e] w1]; simpl in Hi;
    destruct (inert_ledger _ _ Hi) as (Hw & Ht & Hs); destruct Hi as (_ & _ & Henv); [|done].
  rewrite run_bind. unfold guard_err. destruct (_ && _); [done|]. rewrite run_ret.
  pose proof (DecreaseTokenQuota_run (ri_TokenId info) (ri_TokenKey info) quota w1) as H.
  case_run H; [|by destruct H as [fs ->]].
  destruct H as (_ & Hrem & _ & Hw2 & Hs2 & Henv2). split; [done|]. split.
  { split; [by transitivity w1|]. split; [by transitivity w1|by transitivity w1]. }
  intros i. rewrite Hrem. destruct Ht as [-> _]. case_decide; lia.
Qed.

Lemma Wallet_PreConsume_run f amount w :
  match Wallet_PreConsume f amount w with
  | (Ok f', w') => wallet_moved (wf_userId f) (- Z.max 0 amount) w w' /\ wf_userId f' = wf_userId f /\
      wf_consumed f' = if amount <=? 0 then wf_consumed f else amount
  | (Err _, w') => exists fs, w' = w <| w_faults := fs |>
  end.
Proof.
  unfold Wallet_PreConsume. destruct (amount <=? 0) eqn:Ha; bools.
  - split; [|done]. rewrite Z.max_l by lia. split; [|by repeat split]. intros i. case_decide; lia.
  - rewrite run_bind. pose proof (DecreaseUserQuota_run (wf_userId f) amount false w) as H.
    case_run H; [|done]. destruct H as (_ & H & _). simpl. rewrite Z.max_r by lia. done.
Qed.

(** ** Starting a wallet session *)

(** The ledger after a wallet session charged [q]. *)
Definition wallet_charged (info : RelayInfo) (q : Z) (w w' : World) : Prop :=
  (forall i, wallet w' i = wallet w i - if decide (i = ri_UserId info) then q else 0) /\
  (forall i, token_remain w' i = token_remain w i -
     if decide (i = ri_TokenId info) then token_share info q else 0) /\
  same_subs w w'.

Lemma run_attempt_lift {A E} (m : MW A) st :
  (attempt (lift m) : M SS E (result error A)) st
  = (Ok (m (ss_w st)).1, st <| ss_w := (m (ss_w st)).2 |>).
Proof. unfold attempt, lift. by destruct (m (ss_w st)). Qed.

(** Step 1 of preConsume: the token. *)
Definition pre_token (info : RelayInfo) (eff : Z) : M SS NewAPIError unit :=
  if eff >? 0 then
    map_err token_denied (lift (PreConsumeTokenQuota info eff)) ;;
    set_s (fun s => s <| bs_tokenConsumed := eff |>)
  else mret tt.

Lemma pre_token_run info eff st :
  0 <= eff -> bs_tokenConsumed (ss_s st) = 0 ->
  match pre_token info eff st with
  | (Ok _, st') => ss_s st' = (ss_s st <| bs_tokenConsumed := eff |>) /\ ss_info st' = ss_info st /\
      same_ledger_but_tokens (ss_w st) (ss_w st') /\
      forall i, token_remain (ss_w st') i = token_remain (ss_w st) i -
        if decide (i = ri_TokenId info) then token_share info eff else 0
  | (Err _, st') => same_ledger_but_tokens (ss_w st) (ss_w st') /\ same_tokens (ss_w st) (ss_w st')
  end.
Proof.
  intros He Ht. unfold pre_token. destruct (eff >? 0) eqn:Hp; bools.
  - rewrite run_bind. unfold map_err, lift.
    pose proof (PreConsumeTokenQuota_run info eff (ss_w st)) as H.
    destruct (PreConsumeTokenQuota info eff (ss_w st)) as [[u|e] w1]; [|done].
    destruct H as (_ & Hf & Hr). by cbn.
  - assert (eff = 0) as -> by lia. rewrite run_ret. split; [destruct st as [? ? []]; by simpl in *; subst|].
    split; [done|]. split; [done|]. intros i. unfold token_share.
    destruct (ri_IsPlayground info); case_decide; lia.
Qed.

(** Step 2: the funding source; a failure gives the token its share back. *)
Definition pre_funding (info : RelayInfo) (eff : Z) : M SS NewAPIError unit :=
  s ← gets ss_s;
  r ← attempt (lift (fPreConsume (bs_funding s) eff));
  match r with
  | Err e =>
      (if (bs_tokenConsumed s >? 0) && negb (ri_IsPlayground info) then
         ignore_err (lift (IncreaseTokenQuota (ri_TokenId info) (ri_TokenKey info) (bs_tokenConsumed s))) ;;
         set_s (fun s => s <| bs_tokenConsumed := 0 |>)
       else mret tt) ;;
      fail (funding_failed e)
  | Ok f =>
      set_s (fun s => s <| bs_funding := f |> <| bs_preConsumedQuota := eff |>) ;;
      syncRelayInfo
  end.

(** The rollback: either the token has its share again, or the call failed and
    nothing moved. *)
Lemma rollback_run info n st :
  let m := (if (n >? 0) && negb (ri_IsPlayground info) then
     ignore_err (lift (IncreaseTokenQuota (ri_TokenId info) (ri_TokenKey info) n)) ;;
     set_s (fun s => s <| bs_tokenConsumed := 0 |>)
   else mret tt) : M SS NewAPIError unit in
  exists st', m st = (Ok tt, st') /\ same_ledger_but_tokens (ss_w st) (ss_w st') /\
    (same_tokens (ss_w st) (ss_w st') \/
     forall i, token_remain (ss_w st') i = token_remain (ss_w st) i +
       if decide (i = ri_TokenId info) then token_share info (Z.max 0 n) else 0).
Proof.
  cbv zeta. destruct ((n >? 0) && negb (ri_IsPlayground info)) eqn:Hc.
  - rewrite run_bind. unfold ignore_err, lift. eexists. split; [reflexivity|]. bools.
    pose proof (IncreaseTokenQuota_run (ri_TokenId info) (ri_TokenKey info) n (ss_w st)) as Hrun.
    destruct (IncreaseTokenQuota _ _ n (ss_w st)) as [[u|e] w1]; simpl.
    + destruct Hrun as (_ & Hr & _ & Hw & Hs & Henv). split; [done|]. right. intros i. rewrite Hr.
      unfold token_share. match goal with Hpl : ri_IsPlayground info = false |- _ => rewrite Hpl end.
      rewrite Z.max_r by lia. done.
    + destruct Hrun as [fs ->]. split; [done|]. by left.
  - exists st. split; [done|]. split; [done|]. left. done.
Qed.

Lemma preConsume_steps tokenQuota quota st :
  let trust := shouldTrust tokenQuota (QuotaPerUnit (w_cfg (ss_w st))) (ss_info st) (ss_s st) in
  let eff := if trust then 0 else quota in
  let st0 := if trust then st <| ss_s := ss_s st <| bs_trusted := true |> |> else st in
  preConsume tokenQuota quota st = (pre_token (ss_info st) eff ≫= fun _ => pre_funding (ss_info st) eff) st0.
Proof. cbv zeta. unfold preConsume. rewrite run_bind. cbn [gets]. rewrite run_bind. cbn [gets].
  destruct (shouldTrust _ _ _ _); reflexivity. Qed.

Lemma preConsume_wallet_run tokenQuota quota st :
  0 <= quota -> bs_funding (ss_s st) = FWallet (mkWallet (ri_UserId (ss_info st)) 0) ->
  bs_tokenConsumed (ss_s st) = 0 ->
  let info := ss_info st in let w := ss_w st in
  match preConsume tokenQuota quota st with
  | (Ok _, st') =>
      let eff := bs_preConsumedQuota (ss_s st') in
      (eff = quota \/ eff = 0 /\ bs_trusted (ss_s st') = true) /\
      wallet_charged info eff w (ss_w st') /\
      ss_info st' = sync_info (ss_s st') info /\
      ss_s st' = ss_s st <| bs_trusted := bs_trusted (ss_s st') |> <| bs_tokenConsumed := eff |>
                         <| bs_funding := FWallet (mkWallet (ri_UserId info) eff) |>
                         <| bs_preConsumedQuota := eff |>
  | (Err _, st') => same_wallets w (ss_w st') /\ same_subs w (ss_w st') /\
      ((forall i, token_remain (ss_w st') i = token_remain w i) \/
       forall i, token_remain (ss_w st') i = token_remain w i -
         if decide (i = ri_TokenId info) then token_share info quota else 0)
  end.
Proof.
  cbv zeta. intros Hq Hf Ht. rewrite preConsume_steps. cbv zeta.
  set (trust := shouldTrust _ _ _ _). set (eff := if trust then 0 else quota).
  set (st0 := if trust then st <| ss_s := ss_s st <| bs_trusted := true |> |> else st).
  assert (He : 0 <= eff) by (unfold eff; destruct trust; lia).
  assert (H0 : ss_w st0 = ss_w st /\ ss_info st0 = ss_info st /\
    ss_s st0 = (ss_s st <| bs_trusted := bs_trusted (ss_s st0) |>) /\ (trust = true -> bs_trusted (ss_s st0) = true)).
  { unfold st0. destruct trust; (split; [done|]; split; [done|]; split; [|done]); by destruct st as [? ? []]. }
  destruct H0 as (Hw0 & Hi0 & Hs0 & Htr).
  pose proof (pre_token_run (ss_info st) eff st0 He) as H1. rewrite Hs0 in H1 at 1. specialize (H1 Ht).
  rewrite run_bind. destruct (pre_token (ss_info st) eff st0) as [[u|e] st1];
    [|rewrite Hw0 in H1; destruct H1 as [(? & ? & _) [? _]]; auto].
  destruct H1 as (Hs1 & Hi1 & (Hw1 & Hsb1 & _) & Hr1). rewrite Hw0 in *. rewrite Hi0 in Hi1.
  unfold pre_funding. rewrite run_bind. cbn [gets]. rewrite run_bind, run_attempt_lift.
  assert (Hf1 : bs_funding (ss_s st1) = FWallet (mkWallet (ri_UserId (ss_info st)) 0))
    by (rewrite Hs1, Hs0; done).
  rewrite Hf1. cbn [fPreConsume FundingSource_Funding Wallet_Funding]. rewrite run_bind.
  pose proof (Wallet_PreConsume_run (mkWallet (ri_UserId (ss_info st)) 0) eff (ss_w st1)) as H2.
  destruct (Wallet_PreConsume _ eff (ss_w st1)) as [[f'|e] w2].
  - destruct H2 as ((Hm & [Htk _] & Hsb2 & _) & Hu & Hc). cbn. unfold syncRelayInfo, set_s, set_info.
    rewrite run_bind. cbn [modify]. rewrite run_bind. cbn [gets modify]. simpl in Hm, Hu, Hc. simpl.
    assert (Hf' : f' = mkWallet (ri_UserId (ss_info st)) eff).
    { destruct f' as [u' c']; simpl in *; subst. f_equal. destruct (eff <=? 0) eqn:?; bools; lia. }
    split. { unfold eff. destruct trust; [right|by left]. split; [done|]. rewrite Hs1. by apply Htr. }
    split.
    { split; [|split].
      - intros i. rewrite Hm. rewrite (Hw1 i). rewrite Z.max_r by lia. case_decide; lia.
      - intros i. rewrite Htk. apply Hr1.
      - by transitivity (ss_w st1). }
    split; [by rewrite Hi1|]. rewrite Hs1, Hf'. rewrite Hs0. done.
  - destruct H2 as [fs ->]. cbn [fst snd]. rewrite run_bind.
    set (st2 := st1 <| ss_w := ss_w st1 <| w_faults := fs |> |>).
    destruct (rollback_run (ss_info st) (bs_tokenConsumed (ss_s st1)) st2) as (st3 & E & (Hw3 & Hsb3 & _) & Hr3).
    cbv zeta in E. rewrite E. cbn [fail].
    change (ss_w st2) with (ss_w st1 <| w_faults := fs |>) in *.
    assert (Hsame : same_wallets (ss_w st) (ss_w st3) /\ same_subs (ss_w st) (ss_w st3)).
    { split; [by transitivity (ss_w st1)|by transitivity (ss_w st1)]. }
    split; [apply Hsame|]. split; [apply Hsame|].
    assert (Htc : bs_tokenConsumed (ss_s st1) = eff) by (by rewrite Hs1). rewrite Htc in Hr3.
    destruct Hr3 as [[Hr3 _]|Hr3].
    + unfold eff in *. destruct trust; [left|right]; intros i; rewrite Hr3;
        change (token_remain (ss_w st1 <| w_faults := fs |>) i) with (token_remain (ss_w st1) i);
        rewrite Hr1; [|done]. unfold token_share. destruct (ri_IsPlayground _); case_decide; lia.
    + left. intros i. rewrite Hr3.
      change (token_remain (ss_w st1 <| w_faults := fs |>) i) with (token_remain (ss_w st1) i).
      rewrite Hr1, Z.max_r by lia. case_decide; lia.
Qed.

(** ** The handlers, on the wallet *)

(** Fields a session never changes. *)
Definition same_identity (i i' : RelayInfo) : Prop :=
  ri_UserId i' = ri_UserId i /\ ri_TokenId i' = ri_TokenId i /\ ri_TokenKey i' = ri_TokenKey i /\
  ri_IsPlayground i' = ri_IsPlayground i /\ ri_TokenUnlimited i' = ri_TokenUnlimited i.
Lemma sync_identity s i : same_identity i (sync_info s i).
Proof. unfold sync_info. by destruct (bs_funding s). Qed.

Definition wallet_session (info : RelayInfo) (trusted : bool) (eff : Z) : BillingSession :=
  mkSession (FWallet (mkWallet (ri_UserId info) eff)) eff eff 0 trusted false false false.

Lemma wallet_charged_identity i i' q w w' :
  same_identity i i' -> wallet_charged i' q w w' -> wallet_charged i q w w'.
Proof. intros (Hu & Ht & _ & Hp & _). unfold wallet_charged, token_share. by rewrite Hu, Ht, Hp. Qed.

Lemma tryWallet_run tq q c :
  0 <= q ->
  match tryWallet tq q c with
  | (Ok s, c') => exists eff tr, s = wallet_session (c_info c) tr eff /\ c_bill c' = c_bill c /\
      (eff = q \/ eff = 0 /\ tr = true) /\ wallet_charged (c_info c) eff (c_w c) (c_w c') /\
      same_identity (c_info c) (c_info c') /\ ri_BillingSource (c_info c') = BillingSourceWallet
  | (Err _, c') => same_wallets (c_w c) (c_w c') /\ same_subs (c_w c) (c_w c')
  end.
Proof.
  intros Hq. unfold tryWallet. rewrite run_bind. cbn [gets]. rewrite run_bind. unfold map_err, liftC.
  pose proof (GetUserQuota_inert (ri_UserId (c_info c)) false (c_w c)) as Hi.
  destruct (GetUserQuota _ false (c_w c)) as [[uq|e] w1]; simpl in Hi;
    destruct (inert_ledger _ _ Hi) as (Hw1 & [Ht1 _] & Hs1); [|done].
  cbn. unfold guard_err. rewrite run_bind. destruct (uq <=? 0); [done|]. rewrite run_ret, run_bind.
  destruct (uq - q <? 0); [done|]. rewrite run_ret, run_bind. cbn [modify].
  unfold start_session, on_session. rewrite run_bind.
  set (info1 := c_info c <| ri_UserQuota := uq |>).
  set (st := mkSS _ _ _).
  pose proof (preConsume_wallet_run tq q st Hq eq_refl eq_refl) as H. cbv zeta in H.
  destruct (preConsume tq q st) as [[u|e] st'].
  - destruct H as (He & Hch & Hinfo & Hs). cbn. exists (bs_preConsumedQuota (ss_s st')), (bs_trusted (ss_s st')).
    split; [exact Hs|]. split; [done|]. split; [done|]. split.
    { destruct Hch as (H1 & H2 & H3). split; [|split].
      - intros i. rewrite H1. cbn. by rewrite (Hw1 i).
      - intros i. rewrite H2. cbn. by rewrite (Ht1 i).
      - transitivity w1; [exact Hs1|exact H3]. }
    rewrite Hinfo. split; [|by rewrite Hs].
    unfold sync_info. by destruct (bs_funding (ss_s st')).
  - destruct H as (H1 & H2 & _). cbn. split.
    + transitivity w1; [exact Hw1|exact H1].
    + transitivity w1; [exact Hs1|exact H2].
Qed.

(** A session that went through PreConsumeBilling on the wallet only. *)
Lemma PreConsumeBilling_wallet tq q c c1 u :
  NormalizeBillingPreference (ri_BillingPreference (c_info c)) = "wallet_only" ->
  PreConsumeBilling tq q c = (Ok u, c1) ->
  0 <= q /\ exists eff tr, c_bill c1 = Some (wallet_session (c_info c) tr eff) /\
    (eff = q \/ eff = 0 /\ tr = true) /\ wallet_charged (c_info c) eff (c_w c) (c_w c1) /\
    same_identity (c_info c) (c_info c1) /\ ri_BillingSource (c_info c1) = BillingSourceWallet.
Proof.
  intros Hp H. unfold PreConsumeBilling in H. inv_bind H as i w0 E. apply gets_inv in E as [-> ->].
  destruct (ri_QuotaClamp (c_info c)); [discriminate|].
  inv_bind H as u1 w1 E1. apply guard_err_inv in E1 as [Hq ->]. bools. split; [done|].
  inv_bind H as s c' E2. unfold NewBillingSession in E2. inv_bind E2 as i' w2 E3.
  apply gets_inv in E3 as [-> ->]. rewrite Hp in E2.
  rewrite decide_False, decide_True in E2 by done.
  pose proof (tryWallet_run tq q c Hq) as Hw. rewrite E2 in Hw.
  destruct Hw as (eff & tr & -> & _ & He & Hch & Hid & Hsrc).
  unfold modify in H. injection H as _ <-. exists eff, tr. done.
Qed.

Lemma run_on_session {E A} s0 (m : M SS E A) c :
  on_session s0 m c =
  let st := mkSS (c_w c) (c_info c) s0 in
  (Ok ((m st).1, ss_s (m st).2), c <| c_w := ss_w (m st).2 |> <| c_info := ss_info (m st).2 |>).
Proof. unfold on_session. by destruct (m _). Qed.

(** Settling a wallet session: the ledger in full. *)
Lemma wallet_Settle_run actual st info tr eff :
  ss_s st = wallet_session info tr eff ->
  match Settle actual st with
  | (Ok _, st') => bs_settled (ss_s st') = true /\
      (forall i, wallet (ss_w st') i = wallet (ss_w st) i -
         if decide (i = ri_UserId info) then actual - eff else 0) /\
      (forall i, token_remain (ss_w st') i = token_remain (ss_w st) i -
         if decide (i = ri_TokenId (ss_info st)) then token_share (ss_info st) (actual - eff) else 0) /\
      same_subs (ss_w st) (ss_w st')
  | (Err _, _) => True
  end.
Proof.
  intros Hs. unfold Settle. rewrite run_bind. cbn [gets]. rewrite run_bind. cbn [gets].
  rewrite Hs. cbn [bs_settled wallet_session bs_preConsumedQuota bs_fundingSettled bs_funding negb].
  destruct (actual - eff =? 0) eqn:Hz; bools.
  { unfold set_s, modify. simpl. rewrite Hz. split; [done|].
    split; [|split; [|done]]; intros i; unfold token_share; repeat case_match; lia. }
  rewrite !run_bind. unfold lift at 1. cbn [fSettle FundingSource_Funding Wallet_Funding].
  pose proof (Wallet_Settle_run (mkWallet (ri_UserId info) eff) (actual - eff) (ss_w st)) as H1.
  destruct (Wallet_Settle _ _ (ss_w st)) as [[u|e] w1]; [|done].
  destruct H1 as (Hm & [Htok _] & Hsb & _). simpl in Hm.
  unfold set_s at 1. cbn [modify]. rewrite run_bind, run_attempt_lift.
  set (st1 := (st <| ss_w := w1 |>) <| ss_s := _ |>). change (ss_w st1) with w1.
  pose proof (settle_token_run (ss_info st) (actual - eff) w1) as H2.
  destruct (settle_token (ss_info st) (actual - eff) w1) as [[u2|e2] w2]; cbn [fst snd].
  2:{ rewrite !run_bind. destruct (decide _); done. }
  destruct H2 as [(Hw2 & Hsb2 & _) Hr]. rewrite run_bind.
  destruct (decide _) as [Hd|_]; [discriminate|]. rewrite run_ret, run_bind. unfold set_s.
  cbn [modify of_result]. simpl. split; [done|]. split; [|split].
  - intros i. rewrite (Hw2 i), Hm. case_decide; lia.
  - intros i. by rewrite Hr, Htok.
  - by transitivity w1.
Qed.

(** Settling the handler's wallet session, on top of what it was charged before. *)
Lemma wallet_SettleBilling_run actual c1 c2 u info tr eff w0 :
  c_bill c1 = Some (wallet_session info tr eff) -> same_identity info (c_info c1) ->
  wallet_charged info eff w0 (c_w c1) ->
  SettleBilling actual c1 = (Ok u, c2) -> wallet_charged info actual w0 (c_w c2).
Proof.
  intros Hb Hid Hch H2.
  unfold SettleBilling in H2. inv_bind H2 as b w E. apply gets_inv in E as [-> ->]. rewrite Hb in H2.
  inv_bind H2 as p w1 E1. rewrite run_on_session in E1. injection E1 as <- <-.
  set (st := mkSS (c_w c1) (c_info c1) (wallet_session info tr eff)) in *.
  inv_bind H2 as u3 w2 E2. unfold modify in E2. injection E2 as _ <-.
  inv_bind H2 as u4 w3 E3. unfold of_result in E3. injection E3 as Hr <-.
  inv_bind H2 as i w4 E4. apply gets_inv in E4 as [-> ->].
  assert (Hend : wallet_charged info actual w0 (ss_w (Settle actual st).2)).
  { pose proof (wallet_Settle_run actual st info tr eff eq_refl) as Hs.
    destruct (Settle actual st) as [r st'] eqn:Est. simpl in Hr. subst r.
    destruct Hs as (_ & Hw & Ht & Hsb). destruct Hch as (Hw1 & Ht1 & Hsb1).
    destruct Hid as (Hu & Htk & _ & Hpl & _). simpl in Hw, Ht, Hsb. cbn [snd].
    split; [|split].
    - intros i. rewrite Hw, Hw1. destruct (decide (i = ri_UserId info)); lia.
    - intros i. rewrite Ht, Ht1, Htk. unfold token_share. rewrite Hpl.
      destruct (ri_IsPlayground info), (decide (i = ri_TokenId info)); lia.
    - by transitivity (c_w c1). }
  destruct (actual =? 0).
  - apply run_ret_inv in H2 as [_ ->]. exact Hend.
  - destruct (decide _); unfold liftC, go_job, subscription_notify, quota_notify, modify in H2;
      cbn in H2; injection H2 as _ <-; exact Hend.
Qed.

(** C1 A request billed to the wallet is charged exactly what it used: whatever
    was pre-consumed (nothing for a trusted user) and whatever calls failed in
    between, if pre-consuming and settling both report success, the wallet of
    this user and the quota of this token (unless it is the playground) went
    down by exactly the actual quota; no other wallet, token or subscription
    moved. *)
Theorem wallet_charge_exact tq q actual c c1 c2 u1 u2 :
  NormalizeBillingPreference (ri_BillingPreference (c_info c)) = "wallet_only" ->
  PreConsumeBilling tq q c = (Ok u1, c1) ->
  SettleBilling actual c1 = (Ok u2, c2) ->
  wallet_charged (c_info c) actual (c_w c) (c_w c2).
Proof.
  intros Hp H1 H2.
  destruct (PreConsumeBilling_wallet tq q c c1 u1 Hp H1) as (_ & eff & tr & Hb & _ & Hch & Hid & _).
  by eapply wallet_SettleBilling_run.
Qed.

Definition sample_info : RelayInfo :=
  mkRelayInfo 1 7 "k7" false false true 0 "req" "gpt" "wallet_only" None 0 "" 0 0 0 0 0 0 ""
    "default" "default" false zero_PriceData None None ∅ 1699999990 false (Some (mkChannelMeta 2 1))
    "openai" "" [] None 0.
Definition sample_ctx : Ctx := mkCtx sample_world sample_info None.

Lemma wallet_charge_exact_witness :
  exists c1 c2, PreConsumeBilling 5000 300 sample_ctx = (Ok tt, c1) /\
    SettleBilling 120 c1 = (Ok tt, c2) /\ wallet_charged sample_info 120 sample_world (c_w c2).
Proof.
  destruct (PreConsumeBilling 5000 300 sample_ctx) as [r1 c1] eqn:E1.
  assert (r1 = Ok tt) as -> by (change r1 with (r1, c1).1; rewrite <- E1; vm_compute; reflexivity).
  destruct (SettleBilling 120 c1) as [r2 c2] eqn:E2.
  assert (r2 = Ok tt) as ->.
  { change r2 with (r2, c2).1. rewrite <- E2. change c1 with (@Ok NewAPIError unit tt, c1).2.
    rewrite <- E1. vm_compute. reflexivity. }
  exists c1, c2. split; [reflexivity|]. split; [exact E2|].
  exact (wallet_charge_exact 5000 300 120 sample_ctx c1 c2 tt tt ltac:(vm_compute; reflexivity) E1 E2).
Defined.

(** C3 Settling against any funding source that keeps its contract: a session
    that is not settled yet charges the source exactly the difference between
    the actual and the pre-consumed quota, and the token the same (the
    playground's token nothing).  When settling fails, the tokens are as
    before, and either the source was not charged and the session stays open,
    or it was charged and the session is closed, so that no refund can follow. *)
Theorem Settle_spec actual st :
  bs_settled (ss_s st) = false -> bs_fundingSettled (ss_s st) = false ->
  exact (bs_funding (ss_s st)) (actual - bs_preConsumedQuota (ss_s st)) (ss_w st) ->
  let f := bs_funding (ss_s st) in
  let delta := actual - bs_preConsumedQuota (ss_s st) in
  match Settle actual st with
  | (Ok _, st') => bs_settled (ss_s st') = true /\
      balance f (ss_w st') = balance f (ss_w st) - delta /\
      forall i, token_remain (ss_w st') i = token_remain (ss_w st) i -
        if decide (i = ri_TokenId (ss_info st)) then token_share (ss_info st) delta else 0
  | (Err _, st') => same_tokens (ss_w st) (ss_w st') /\
      if bs_settled (ss_s st')
      then balance f (ss_w st') = balance f (ss_w st) - delta /\ needsRefundLocked (ss_s st') = false
      else balance f (ss_w st') = balance f (ss_w st)
  end.
Proof.
  intros Hs Hfs Hx. cbv zeta. pose proof (Settle_run actual st Hs Hfs Hx) as H. cbv zeta in H.
  case_run H; [by destruct H as (? & _ & ? & ?)|].
  destruct H as (? & _ & H). split; [done|].
  match goal with |- context [bs_settled ?x] => destruct (bs_settled x) eqn:Hst end; [|done].
  split; [done|]. unfold needsRefundLocked. by rewrite Hst.
Qed.

Definition sample_ss (s : BillingSession) : SS := mkSS sample_world sample_info s.

Lemma Settle_spec_witness :
  let st := sample_ss (wallet_session sample_info false 300) in
  (Settle 450 st).1 = Ok tt /\ wallet (ss_w (Settle 450 st).2) 1 = 99850 /\
  token_remain (ss_w (Settle 450 st).2) 7 = 4850.
Proof.
  intros st. pose proof (Settle_spec 450 st ltac:(reflexivity) ltac:(reflexivity) I) as H.
  cbv zeta in H. destruct (Settle 450 st) as [r st'] eqn:E.
  assert (r = Ok tt) as -> by (change r with (r, st').1; rewrite <- E; vm_compute; reflexivity).
  destruct H as (_ & Hb & Ht). split; [reflexivity|]. split.
  - exact Hb.
  - exact (Ht 7).
Defined.

(** ** Order of the methods *)

Inductive session_call :=
| SCSettle (actualQuota : Z)
| SCRefund
| SCReserve (targetQuota : Z).

Definition exec_session (c : session_call) (st : SS) : SS :=
  match c with
  | SCSettle n => (Settle n st).2
  | SCRefund => (Refund st).2
  | SCReserve n => (Reserve n st).2
  end.

(** A settled session is closed: settling again, refunding and reserving,
    in any order and number, have no effect at all. *)
Theorem settled_session_inert calls st :
  bs_settled (ss_s st) = true -> fold_left (fun st c => exec_session c st) calls st = st.
Proof.
  intros Hs. induction calls as [|c calls IH]; [done|]. simpl.
  assert (exec_session c st = st) as ->; [|done].
  destruct c; simpl.
  - unfold Settle. rewrite run_bind. cbn [gets]. rewrite run_bind. cbn [gets]. by rewrite Hs.
  - unfold Refund. rewrite run_bind. cbn [gets]. rewrite run_bind. cbn [gets]. by rewrite Hs.
  - unfold Reserve. rewrite run_bind. cbn [gets]. by rewrite Hs.
Qed.

Lemma settled_session_inert_witness :
  let st := sample_ss (wallet_session sample_info false 300 <| bs_settled := true |>) in
  fold_left (fun st c => exec_session c st) [SCRefund; SCSettle 700; SCReserve 900] st = st.
Proof.
  intros st. exact (settled_session_inert [SCRefund; SCSettle 700; SCReserve 900] st ltac:(reflexivity)).
Defined.

(** How many refunds are queued. *)
Definition is_refund (j : job) : bool :=
  match j with JobBillingRefund _ _ _ _ _ _ _ => true | _ => false end.
Definition refund_jobs (w : World) : nat := length (List.filter is_refund (w_jobs w)).

Definition refunds_are (n : nat) (w : World) : Prop := refund_jobs w = n.
Lemma refunds_go_job n j : is_refund j = false -> preserves (refunds_are n) (go_job j).
Proof.
  intros Hj. apply preserves_modify. intros w Hw. unfold refunds_are, refund_jobs in *. simpl.
  rewrite List.filter_app, length_app. simpl. rewrite Hj. simpl. lia.
Qed.
Lemma refunds_addNewRecord n t id v : preserves (refunds_are n) (addNewRecord t id v).
Proof.
  apply preserves_modify. intros w Hw. destruct (w_batch w t !! id); exact Hw.
Qed.
Lemma refunds_write n h f w : refunds_are n w -> refunds_are n (exec_write h f w).
Proof. by destruct h. Qed.
Lemma refunds_Transaction n {A} (fn : MW A) :
  preserves (refunds_are n) fn -> preserves (refunds_are n) (Transaction fn).
Proof.
  intros Hfn w Hw. unfold Transaction.
  destruct (ext_call_cases w) as (fs & Hw1 & Hr).
  destruct (ext_call w) as [r1 w1]; simpl in *; subst w1.
  destruct Hr as [->|[msg ->]]; [|done].
  specialize (Hfn (w <| w_faults := fs |> <| w_log := [] |>)). specialize (Hfn Hw).
  destruct (fn _) as [[a|e] w2]; simpl in *; [|exact Hfn].
  destruct (ext_call_cases w2) as (fs2 & Hw3 & Hr3).
  destruct (ext_call w2) as [r3 w3]; simpl in *; subst w3.
  destruct Hr3 as [->|[msg3 ->]]; exact Hfn.
Qed.

Ltac pres_refunds :=
  repeat (first [ apply refunds_Transaction | by apply refunds_go_job | apply refunds_addNewRecord
    | apply preserves_modify; intros ? ?; by apply refunds_write
    | apply preserves_db_exec; [by intros|intros ? ?; by apply refunds_write]
    | apply preserves_db_update; [by intros|intros ? ?; by apply refunds_write]
    | pres_step ]).

Lemma refunds_user n id q b :
  preserves (refunds_are n) (IncreaseUserQuota id q b) /\
  preserves (refunds_are n) (DecreaseUserQuota id q b).
Proof. unfold IncreaseUserQuota, DecreaseUserQuota, increaseUserQuota, decreaseUserQuota. split; pres_refunds. Qed.
Lemma refunds_token n id k q :
  preserves (refunds_are n) (IncreaseTokenQuota id k q) /\
  preserves (refunds_are n) (DecreaseTokenQuota id k q).
Proof.
  unfold IncreaseTokenQuota, DecreaseTokenQuota, increaseTokenQuota, decreaseTokenQuota, go_if_redis,
    GetTimestamp. split; pres_refunds.
Qed.
Lemma refunds_post n id delta : preserves (refunds_are n) (PostConsumeUserSubscriptionDelta id delta).
Proof. unfold PostConsumeUserSubscriptionDelta, SaveSub, GetTimestamp. pres_refunds. Qed.
Lemma refunds_settle n f delta : preserves (refunds_are n) (fSettle (F := FundingSource) f delta).
Proof.
  destruct f as [f|f]; simpl; [unfold Wallet_Settle|unfold Subscription_Settle];
    pose proof (refunds_user n); pose proof (refunds_post n).
  - destruct (_ =? 0); [apply preserves_ret|].
    destruct (_ >? 0); [exact (proj2 (H _ _ _))|exact (proj1 (H _ _ _))].
  - destruct (_ =? 0); [apply preserves_ret|]. apply H0.
Qed.
Lemma refunds_settle_token n info delta : preserves (refunds_are n) (settle_token info delta).
Proof.
  unfold settle_token. destruct (ri_IsPlayground info); [apply preserves_ret|].
  destruct (delta >? 0); [exact (proj2 (refunds_token n _ _ _))|exact (proj1 (refunds_token n _ _ _))].
Qed.
Lemma refunds_pre_token n info q : preserves (refunds_are n) (PreConsumeTokenQuota info q).
Proof.
  unfold PreConsumeTokenQuota, GetTokenByKey, cacheGetTokenByKey, RedisHGetObj, go_if_redis.
  pose proof (refunds_token n (ri_TokenId info) (ri_TokenKey info) q) as [_ H]. pres_refunds.
Qed.

(** The same for the methods of a session. *)
Definition refunds_of (n : nat) (st : SS) : Prop := refund_jobs (ss_w st) = n.
Lemma refunds_lift {A} n (m : MW A) : preserves (refunds_are n) m -> preserves (refunds_of n) (lift m).
Proof. intros Hm st Hst. unfold lift. specialize (Hm _ Hst). by destruct (m (ss_w st)). Qed.

Ltac pres_session n :=
  repeat (first [ by apply refunds_lift | apply refunds_lift; apply (refunds_settle n)
    | apply refunds_lift; apply (refunds_settle_token n)
    | apply refunds_lift; apply (refunds_pre_token n)
    | apply refunds_lift; apply (refunds_post n)
    | apply refunds_lift; exact (proj1 (refunds_user n _ _ _))
    | apply refunds_lift; exact (proj2 (refunds_user n _ _ _))
    | pres_step ]).

Lemma refunds_Settle n actual : preserves (refunds_of n) (Settle actual).
Proof. unfold Settle, set_s, set_info. pres_session n. Qed.
Lemma refunds_Reserve n target : preserves (refunds_of n) (Reserve target).
Proof.
  unfold Reserve, reserveFunding, reserveToken, rollbackFundingReserve, syncRelayInfo, set_s, set_info.
  pres_session n.
Qed.

(** The flag of the session is the number of refunds it queued. *)
Definition flag (b : bool) : nat := if b then 1 else 0.

Lemma refunded_Settle b actual :
  preserves (fun st => bs_refunded (ss_s st) = b) (Settle actual).
Proof.
  assert (Hl : forall A (m : MW A), preserves (fun st => bs_refunded (ss_s st) = b) (lift m)).
  { intros A m st Hst. unfold lift. by destruct (m (ss_w st)). }
  unfold Settle, set_s, set_info. pres.
Qed.
Lemma refunded_Reserve b target :
  preserves (fun st => bs_refunded (ss_s st) = b) (Reserve target).
Proof.
  assert (Hl : forall A (m : MW A), preserves (fun st => bs_refunded (ss_s st) = b) (lift m)).
  { intros A m st Hst. unfold lift. by destruct (m (ss_w st)). }
  unfold Reserve, reserveFunding, reserveToken, rollbackFundingReserve, syncRelayInfo, set_s, set_info.
  pres.
Qed.

Lemma exec_session_refunds c n st :
  refund_jobs (ss_w st) = (n + flag (bs_refunded (ss_s st)))%nat ->
  let st' := exec_session c st in
  refund_jobs (ss_w st') = (n + flag (bs_refunded (ss_s st')))%nat /\
  (bs_refunded (ss_s st) = true -> bs_refunded (ss_s st') = true).
Proof.
  intros H. destruct c; simpl.
  - rewrite (refunds_Settle _ actualQuota st H).
    rewrite (refunded_Settle _ actualQuota st eq_refl). done.
  - unfold Refund. rewrite run_bind. cbn [gets]. rewrite run_bind. cbn [gets].
    destruct (bs_refunded (ss_s st)) eqn:Hr.
    { rewrite orb_true_r. simpl. rewrite Hr. done. }
    destruct (_ || _ || _); simpl; [by rewrite Hr|].
    split; [|done]. unfold refund_jobs in *. simpl.
    rewrite List.filter_app, length_app. simpl in *. lia.
  - rewrite (refunds_Reserve _ targetQuota st H).
    rewrite (refunded_Reserve _ targetQuota st eq_refl). done.
Qed.

(** C4 Whatever sequence of settle, refund and reserve calls a handler makes on
    a session, in any order and with any failures, at most one refund is ever
    queued for it. *)
Theorem at_most_one_refund calls st :
  bs_refunded (ss_s st) = false ->
  let st' := fold_left (fun st c => exec_session c st) calls st in
  refund_jobs (ss_w st') = (refund_jobs (ss_w st) + if bs_refunded (ss_s st') then 1 else 0)%nat.
Proof.
  intros Hr. cbv zeta.
  assert (H : forall n st, refund_jobs (ss_w st) = (n + flag (bs_refunded (ss_s st)))%nat ->
    let st' := fold_left (fun st c => exec_session c st) calls st in
    refund_jobs (ss_w st') = (n + flag (bs_refunded (ss_s st')))%nat).
  { clear. induction calls as [|c calls IH]; intros n st H; [done|]. simpl.
    apply IH. by apply exec_session_refunds. }
  apply H. rewrite Hr. simpl. lia.
Qed.

Lemma at_most_one_refund_witness :
  let st := sample_ss (wallet_session sample_info false 300) in
  let st' := fold_left (fun st c => exec_session c st) [SCRefund; SCRefund; SCReserve 900] st in
  refund_jobs (ss_w st') = (refund_jobs (ss_w st) + if bs_refunded (ss_s st') then 1 else 0)%nat.
Proof.
  exact (at_most_one_refund [SCRefund; SCRefund; SCReserve 900]
           (sample_ss (wallet_session sample_info false 300)) ltac:(reflexivity)).
Defined.

(** ** Refund of a wallet session *)

Lemma refund_job_wallet uid eff subId tid key pg w :
  0 < eff -> w_faults w = [] -> has_user uid (w_db w) = true -> has_token tid (w_db w) = true ->
  exists w', refund_job (FWallet (mkWallet uid eff)) 0 subId tid key pg eff w = (Ok tt, w') /\
    (forall i, wallet w' i = wallet w i + if decide (i = uid) then eff else 0) /\
    (forall i, token_remain w' i = token_remain w i +
       if decide (i = tid) then (if pg then 0 else eff) else 0).
Proof.
  intros He Hf Hu Ht. unfold refund_job.
  destruct (IncreaseUserQuota_total uid eff false w ltac:(lia) Hf Hu) as (w1 & E1 & Hf1).
  pose proof (IncreaseUserQuota_run uid eff false w) as H1. rewrite E1 in H1.
  destruct H1 as (_ & (Hw & [Htk _] & _) & _).
  assert (Er : (ignore_err (fRefund (FWallet (mkWallet uid eff))) : MW unit) w = (Ok tt, w1)).
  { unfold ignore_err. simpl. unfold Wallet_Refund. simpl.
    assert ((eff <=? 0) = false) as -> by (apply Z.leb_gt; lia). by rewrite E1. }
  erewrite run_bind_ok by exact Er. rewrite run_bind. change (0 >? 0) with false.
  cbn [andb]. rewrite run_ret.
  assert ((eff >? 0) = true) as -> by (apply Z.gtb_lt; lia). destruct pg; cbn [negb andb].
  { exists w1. split; [done|]. split; [done|]. intros i. rewrite Htk. case_decide; lia. }
  assert (Ht1 : has_token tid (w_db w1) = true) by (
    unfold has_token, live_token in *; pose proof (IncreaseUserQuota_tokens uid eff false w) as Htt;
    rewrite E1 in Htt; simpl in Htt; by rewrite Htt).
  destruct (IncreaseTokenQuota_total tid key eff w1 ltac:(lia) Hf1 Ht1) as (w2 & E2 & _).
  pose proof (IncreaseTokenQuota_run tid key eff w1) as H2. rewrite E2 in H2.
  destruct H2 as (_ & Hr & _ & Hw2 & _).
  exists w2. split; [unfold ignore_err; by rewrite E2|]. split.
  - intros i. by rewrite (Hw2 i), Hw.
  - intros i. by rewrite Hr, Htk.
Qed.

(** What happened since the quota was taken left the session, the payer and all balances. *)
Definition same_billing (c c' : Ctx) : Prop :=
  c_bill c' = c_bill c /\ same_identity (c_info c) (c_info c') /\ same_wallets (c_w c) (c_w c') /\
  forall i, token_remain (c_w c') i = token_remain (c_w c) i.
Lemma same_billing_refl c : same_billing c c.
Proof. by repeat split. Qed.

Lemma wallet_refund_later tq q c c1 u1 c2 :
  NormalizeBillingPreference (ri_BillingPreference (c_info c)) = "wallet_only" ->
  PreConsumeBilling tq q c = (Ok u1, c1) -> same_billing c1 c2 ->
  w_faults (c_w c2) = [] ->
  has_user (ri_UserId (c_info c)) (w_db (c_w c2)) = true ->
  has_token (ri_TokenId (c_info c)) (w_db (c_w c2)) = true ->
  exists js, w_jobs (c_w (RefundBilling c2).2) = w_jobs (c_w c2) ++ js /\
    let w3 := (forM_ js run_job (c_w (RefundBilling c2).2)).2 in
    (forall i, wallet w3 i = wallet (c_w c) i) /\
    (forall i, token_remain w3 i = token_remain (c_w c) i).
Proof.
  intros Hp H1 (Hb2 & Hid2 & Hw2 & Htk2) Hf Hu Ht.
  destruct (PreConsumeBilling_wallet tq q c c1 u1 Hp H1) as (Hq & eff & tr & Hb & He & Hch & Hid & _).
  rewrite <- Hb2 in Hb. assert (Hid' : same_identity (c_info c) (c_info c2)).
  { unfold same_identity in *. intuition congruence. }
  assert (He0 : 0 <= eff) by lia. destruct Hch as (Hw & Htk & _), Hid' as (Hui & Hti & _ & Hpl & _).
  assert (Hw' : forall i, wallet (c_w c2) i = wallet (c_w c) i - if decide (i = ri_UserId (c_info c)) then eff else 0).
  { intros i. by rewrite Hw2, Hw. }
  assert (Htk' : forall i, token_remain (c_w c2) i = token_remain (c_w c) i -
    if decide (i = ri_TokenId (c_info c)) then token_share (c_info c) eff else 0).
  { intros i. by rewrite Htk2, Htk. }
  unfold RefundBilling. rewrite run_bind. cbn [gets]. rewrite Hb, run_bind, run_on_session. cbv zeta.
  unfold Refund. rewrite !run_bind. cbn [gets]. rewrite !run_bind. cbn [gets].
  cbn [ss_s wallet_session bs_settled bs_refunded needsRefundLocked bs_fundingSettled bs_tokenConsumed
       bs_funding orb].
  destruct (eff >? 0) eqn:Hpos; bools; cbn [negb].
  2:{ assert (eff = 0) as -> by lia. exists []. cbn. rewrite app_nil_r. split; [done|]. split; intros i.
      - rewrite Hw'. case_decide; lia.
      - rewrite Htk'. unfold token_share.
        destruct (ri_IsPlayground (c_info c)), (decide (i = ri_TokenId (c_info c))); lia. }
  unfold set_s, go_job, lift, modify. cbn -[refund_job forM_]. eexists. split; [reflexivity|].
  cbn [forM_ run_job]. rewrite run_bind.
  match goal with |- context [refund_job ?f ?x ?sid ?tid ?k ?pg ?n ?w] =>
    destruct (refund_job_wallet (ri_UserId (c_info c)) eff sid tid k pg w) as (w3 & E3 & Hw3 & Ht3) end;
    [lia|exact Hf|exact Hu|by rewrite Hti|].
  rewrite E3. rewrite run_ret. cbn [snd]. split; intros i.
  - rewrite Hw3. match goal with |- wallet ?x i + _ = _ =>
      change (wallet x i) with (wallet (c_w c2) i) end.
    rewrite Hw'. destruct (decide (i = ri_UserId (c_info c))); lia.
  - rewrite Ht3. match goal with |- token_remain ?x i + _ = _ =>
      change (token_remain x i) with (token_remain (c_w c2) i) end.
    rewrite Hti, Hpl, Htk'. unfold token_share.
    destruct (ri_IsPlayground (c_info c)), (decide (i = ri_TokenId (c_info c))); lia.
Qed.

(** A failed request costs nothing: after a wallet session was pre-consumed,
    refunding it queues exactly what was taken, and running the queued work (no
    call failing, the user and the token still there) brings every wallet and
    every token back to what it was before the request. *)
Theorem wallet_refund_restores tq q c c1 u1 :
  NormalizeBillingPreference (ri_BillingPreference (c_info c)) = "wallet_only" ->
  PreConsumeBilling tq q c = (Ok u1, c1) ->
  w_faults (c_w c1) = [] ->
  has_user (ri_UserId (c_info c)) (w_db (c_w c1)) = true ->
  has_token (ri_TokenId (c_info c)) (w_db (c_w c1)) = true ->
  exists js, w_jobs (c_w (RefundBilling c1).2) = w_jobs (c_w c1) ++ js /\
    let w3 := (forM_ js run_job (c_w (RefundBilling c1).2)).2 in
    (forall i, wallet w3 i = wallet (c_w c) i) /\
    (forall i, token_remain w3 i = token_remain (c_w c) i).
Proof. intros Hp H1. by apply (wallet_refund_later tq q c c1 u1 c1 Hp H1), same_billing_refl. Qed.

Lemma wallet_refund_restores_witness :
  exists c1, PreConsumeBilling 5000 300 sample_ctx = (Ok tt, c1) /\
  exists js, w_jobs (c_w (RefundBilling c1).2) = w_jobs (c_w c1) ++ js /\
    let w3 := (forM_ js run_job (c_w (RefundBilling c1).2)).2 in
    (forall i, wallet w3 i = wallet sample_world i) /\
    (forall i, token_remain w3 i = token_remain sample_world i).
Proof.
  destruct (PreConsumeBilling 5000 300 sample_ctx) as [r1 c1] eqn:E1.
  assert (r1 = Ok tt) as -> by (change r1 with (r1, c1).1; rewrite <- E1; vm_compute; reflexivity).
  exists c1. split; [reflexivity|].
  apply (wallet_refund_restores 5000 300 sample_ctx c1 tt ltac:(vm_compute; reflexivity) E1);
    change c1 with (@Ok NewAPIError unit tt, c1).2; rewrite <- E1; vm_compute; reflexivity.
Defined.

(** ** Subscription sessions *)

Lemma Subscription_PreConsume_err f n w e w' :
  Subscription_PreConsume f n w = (Err e, w') -> w_db w' = w_db w.
Proof.
  unfold Subscription_PreConsume. rewrite run_bind.
  destruct (PreConsumeUserSubscription _ _ _ _ _ w) as [[res|e1] w1] eqn:E.
  - rewrite run_bind. unfold attempt. by destruct (GetSubscriptionPlanInfoByUserSubscriptionId _ w1).
  - intros [= _ <-]. by eapply PreConsume_err.
Qed.

(** The wallets never move; on an error neither do the subscriptions. *)
Lemma preConsume_sub_frame tokenQuota quota st f :
  0 <= quota -> bs_funding (ss_s st) = FSubscription f -> bs_tokenConsumed (ss_s st) = 0 ->
  same_wallets (ss_w st) (ss_w (preConsume tokenQuota quota st).2) /\
  match (preConsume tokenQuota quota st).1 with
  | Ok _ => True
  | Err _ => d_subs (w_db (ss_w (preConsume tokenQuota quota st).2)) = d_subs (w_db (ss_w st))
  end.
Proof.
  intros Hq Hf Ht. rewrite preConsume_steps. cbv zeta.
  assert (shouldTrust tokenQuota (QuotaPerUnit (w_cfg (ss_w st))) (ss_info st) (ss_s st) = false) as ->.
  { unfold shouldTrust. rewrite Hf. repeat case_match; done. }
  rewrite run_bind. pose proof (pre_token_run (ss_info st) quota st Hq Ht) as H1.
  destruct (pre_token (ss_info st) quota st) as [[u|e] st1]; cbn [fst snd].
  2:{ destruct H1 as [(Hw & (Hs & _) & _) _]. done. }
  destruct H1 as (Hs1 & Hi1 & (Hw1 & (Hsb1 & _) & _) & _).
  unfold pre_funding. rewrite run_bind. cbn [gets]. rewrite run_bind, run_attempt_lift.
  assert (Hf1 : bs_funding (ss_s st1) = FSubscription f) by (rewrite Hs1; exact Hf).
  rewrite Hf1. cbn [fPreConsume FundingSource_Funding Subscription_Funding]. rewrite run_bind.
  assert (Hl : preserves (ledger_db (ss_w st1)) (Subscription_PreConsume f quota))
    by apply (Subscription_ledger f quota (ss_w st1)).
  specialize (Hl (ss_w st1) ltac:(done)).
  pose proof (Subscription_PreConsume_err f quota (ss_w st1)) as He.
  destruct (Subscription_PreConsume f quota (ss_w st1)) as [[f'|e] w2]; cbn [fst snd] in *;
    apply ledger_db_same in Hl as [Hw2 _].
  - cbn. unfold syncRelayInfo, set_s, set_info. rewrite run_bind. cbn [modify]. rewrite run_bind.
    cbn [gets modify]. simpl. split; [by transitivity (ss_w st1)|done].
  - specialize (He e w2 eq_refl). rewrite run_bind.
    destruct (rollback_run (ss_info st) (bs_tokenConsumed (ss_s st1)) (st1 <| ss_w := w2 |>))
      as (st3 & E & (Hw3 & (Hsb3 & _) & _) & _).
    cbv zeta in E. rewrite E. cbn [fail fst snd]. split.
    + transitivity w2; [by transitivity (ss_w st1)|exact Hw3].
    + rewrite Hsb3. cbn. by rewrite He.
Qed.

Lemma trySubscription_frame tq q c :
  0 <= q ->
  same_wallets (c_w c) (c_w (trySubscription tq q c).2) /\
  match (trySubscription tq q c).1 with
  | Ok _ => True
  | Err _ => d_subs (w_db (c_w (trySubscription tq q c).2)) = d_subs (w_db (c_w c))
  end.
Proof.
  intros Hq. unfold trySubscription. rewrite run_bind. cbn [gets].
  set (n := if q <=? 0 then 1 else q). assert (0 <= n) by (unfold n; destruct (_ <=? 0) eqn:?; bools; lia).
  unfold start_session. rewrite run_bind, run_on_session. cbv zeta.
  set (st := mkSS _ _ _).
  destruct (preConsume_sub_frame tq n st _ ltac:(done) eq_refl eq_refl) as [Hw Hd].
  destruct (preConsume tq n st) as [[u|e] st']; cbn in *; done.
Qed.

Lemma preConsume_now tq q st : w_now (ss_w (preConsume tq q st).2) = w_now (ss_w st).
Proof.
  set (J := fun w' => w_now w' = w_now (ss_w st)).
  set (I := fun st' : SS => J (ss_w st')).
  assert (Hl : forall A (m : MW A), preserves J m -> preserves I (lift m)).
  { intros A m Hm st' Hst'. unfold lift. specialize (Hm _ Hst'). by destruct (m (ss_w st')). }
  assert (HT : forall A (fn : MW A), preserves J fn -> preserves J (Transaction fn)).
  { intros A fn Hfn w1 Hw1. unfold Transaction.
    destruct (ext_call_cases w1) as (fs & Hw2 & Hr).
    destruct (ext_call w1) as [r1 w2]; simpl in *; subst w2.
    destruct Hr as [->|[msg ->]]; [|exact Hw1].
    specialize (Hfn (w1 <| w_faults := fs |> <| w_log := [] |>)). specialize (Hfn Hw1).
    destruct (fn _) as [[a|e] w2]; simpl in *; [|exact Hfn].
    destruct (ext_call_cases w2) as (fs2 & Hw3 & Hr3).
    destruct (ext_call w2) as [r3 w3]; simpl in *; subst w3.
    destruct Hr3 as [->|[msg3 ->]]; exact Hfn. }
  assert (Hadd : forall t i v, preserves J (addNewRecord t i v)).
  { intros t i v. apply preserves_modify. intros w' Hw'. by destruct (w_batch w' t !! i). }
  assert (Htok : forall i k n, preserves J (DecreaseTokenQuota i k n) /\ preserves J (IncreaseTokenQuota i k n)).
  { intros i k n. unfold DecreaseTokenQuota, IncreaseTokenQuota, decreaseTokenQuota, increaseTokenQuota,
      go_if_redis, go_job, GetTimestamp. split; pres. }
  assert (Hpre : forall info n, preserves J (PreConsumeTokenQuota info n)).
  { intros info n. unfold PreConsumeTokenQuota, GetTokenByKey, cacheGetTokenByKey, RedisHGetObj,
      go_if_redis, go_job. pose proof (proj1 (Htok (ri_TokenId info) (ri_TokenKey info) n)). pres. }
  assert (Hu : forall i n, preserves J (DecreaseUserQuota i n false)).
  { intros i n. unfold DecreaseUserQuota, decreaseUserQuota, go_job. pres. }
  assert (Hps : forall a b c d e, preserves J (PreConsumeUserSubscription a b c d e)).
  { intros a b c d e w1 Hw1. destruct (PreConsume_env a b c d e w1) as [H _]. unfold J in *. congruence. }
  assert (Hf : forall f n, preserves J (fPreConsume (F := FundingSource) f n)).
  { intros [f|f] n; cbn [fPreConsume FundingSource_Funding Wallet_Funding Subscription_Funding];
      [unfold Wallet_PreConsume|unfold Subscription_PreConsume, GetSubscriptionPlanInfoByUserSubscriptionId,
         getSubscriptionPlanByIdTx, plan_cache_get, plan_cache_set, cache_call]; pres. }
  assert (H : preserves I (preConsume tq q)); [|by apply H].
  unfold preConsume, syncRelayInfo, set_s, set_info.
  repeat (first [apply Hl; first [apply Hpre|apply Hf|exact (proj2 (Htok _ _ _))]|pres_step]).
Qed.

Lemma trySubscription_now tq q c : w_now (c_w (trySubscription tq q c).2) = w_now (c_w c).
Proof.
  unfold trySubscription. rewrite run_bind. cbn [gets]. unfold start_session.
  rewrite run_bind, run_on_session. cbv zeta. set (st := mkSS _ _ _).
  match goal with |- context [preConsume tq ?n st] => pose proof (preConsume_now tq n st) as H;
    destruct (preConsume tq n st) as [[u|e] st'] end; exact H.
Qed.

Lemma HasActive_run uid w :
  match HasActiveUserSubscription uid w with
  | (Ok b, w') => (exists fs, w' = w <| w_faults := fs |>) /\
      b = bool_decide (where_subs (active_for uid (w_now w)) (w_db w) <> [])
  | (Err _, w') => exists fs, w' = w <| w_faults := fs |>
  end.
Proof.
  unfold HasActiveUserSubscription, GetTimestamp. rewrite run_bind. unfold guard_err.
  destruct (uid <=? 0); [exists (w_faults w); by destruct w|].
  rewrite run_ret, run_bind. cbn [gets]. rewrite run_bind. unfold db_find. rewrite run_bind.
  destruct (ext_call_cases w) as (fs & Hw1 & Hr).
  destruct (ext_call w) as [r1 w1]; simpl in *; subst w1.
  destruct Hr as [->|[msg ->]]; [|by exists fs]. cbn. split; [by exists fs|].
  destruct (where_subs _ _) as [|s l]; [done|]. rewrite bool_decide_eq_true_2 by done. reflexivity.
Qed.

Lemma AllowOverflow_run uid w :
  match UserActiveSubscriptionsAllowWalletOverflow uid w with
  | (Ok b, w') => (exists fs, w' = w <| w_faults := fs |>) /\
      (b = true -> forall s id, d_subs (w_db w) !! id = Some s ->
         active_for uid (w_now w) s = true -> s_AllowWalletOverflow s = true)
  | (Err _, w') => exists fs, w' = w <| w_faults := fs |>
  end.
Proof.
  unfold UserActiveSubscriptionsAllowWalletOverflow, GetTimestamp. rewrite run_bind. unfold guard_err.
  destruct (uid <=? 0); [exists (w_faults w); by destruct w|].
  rewrite run_ret, run_bind. cbn [gets]. rewrite run_bind. unfold db_find. rewrite run_bind.
  destruct (ext_call_cases w) as (fs & Hw1 & Hr).
  destruct (ext_call w) as [r1 w1]; simpl in *; subst w1.
  destruct Hr as [->|[msg ->]]; [|by exists fs]. cbn. split; [by exists fs|].
  intros Hb s id Hs Ha. destruct (s_AllowWalletOverflow s) eqn:Ho; [done|].
  set (l := where_subs _ _) in Hb.
  assert (Hin : s ∈ l).
  { apply where_subs_elem. rewrite Ha, Ho. split; [done|by exists id]. }
  destruct l; [set_solver|]. discriminate.
Qed.

(** C5 A plan that forbids it never spills over to the wallet: with the default
    preference (subscription first), as long as the user has one active
    subscription that disallows wallet overflow, starting a request moves no
    wallet, whether it succeeds or fails and whatever calls fail. *)
Theorem strict_subscription_blocks_wallet tq q c id s :
  NormalizeBillingPreference (ri_BillingPreference (c_info c)) = "subscription_first" ->
  0 <= q ->
  d_subs (w_db (c_w c)) !! id = Some s ->
  active_for (ri_UserId (c_info c)) (w_now (c_w c)) s = true ->
  s_AllowWalletOverflow s = false ->
  same_wallets (c_w c) (c_w (NewBillingSession tq q c).2).
Proof.
  intros Hp Hq Hs Ha Ho. unfold NewBillingSession. rewrite run_bind. cbn [gets].
  rewrite Hp. rewrite !decide_False by done. rewrite run_bind. unfold map_err at 1, liftC at 1.
  pose proof (HasActive_run (ri_UserId (c_info c)) (c_w c)) as H1.
  destruct (HasActiveUserSubscription _ (c_w c)) as [[b|e] w1]; [|by destruct H1 as [fs ->]].
  destruct H1 as [[fs ->] ->]. rewrite bool_decide_eq_true_2.
  2:{ intros Hnil. assert (Hin : s ∈ where_subs (active_for (ri_UserId (c_info c)) (w_now (c_w c))) (w_db (c_w c)))
        by (apply where_subs_elem; split; [done|by exists id]).
      rewrite Hnil in Hin. set_solver. }
  cbn [negb]. rewrite run_bind. set (c1 := c <| c_w := c_w c <| w_faults := fs |> |>).
  destruct (trySubscription_frame tq q c1 Hq) as [Hw Hd].
  pose proof (trySubscription_now tq q c1) as Hn.
  unfold attempt. destruct (trySubscription tq q c1) as [[s2|e2] c2]; cbn [fst snd] in *; [exact Hw|].
  destruct (is_insufficient e2); [|exact Hw]. rewrite run_bind. unfold map_err, liftC.
  pose proof (AllowOverflow_run (ri_UserId (c_info c)) (c_w c2)) as H2.
  destruct (UserActiveSubscriptionsAllowWalletOverflow _ (c_w c2)) as [[b2|e3] w3];
    [|destruct H2 as [fs3 ->]; exact Hw].
  destruct H2 as [[fs3 ->] Hb]. destruct b2; [|exact Hw]. exfalso.
  change (w_now (c_w c2) = w_now (c_w c)) in Hn. rewrite Hd, Hn in Hb.
  specialize (Hb eq_refl s id Hs Ha). congruence.
Qed.

Definition strict_ctx : Ctx :=
  mkCtx (sample_world <| w_db := sample_db
           <| d_subs := {[5 := (sample_sub <| s_AllowWalletOverflow := false |> : UserSubscription)]} |> |>)
    (sample_info <| ri_BillingPreference := "" |>) None.

Lemma strict_subscription_blocks_wallet_witness :
  same_wallets (c_w strict_ctx) (c_w (NewBillingSession 5000 2000 strict_ctx).2).
Proof.
  exact (strict_subscription_blocks_wallet 5000 2000 strict_ctx 5
    (sample_sub <| s_AllowWalletOverflow := false |>)
    ltac:(vm_compute; reflexivity) ltac:(lia) ltac:(reflexivity) ltac:(reflexivity) ltac:(reflexivity)).
Defined.

(** A subscription session after a fresh pre-consume. *)
Lemma preConsume_sub_run tq amount st :
  let info := ss_info st in let w := ss_w st in
  let f := mkSubFunding (ri_RequestId info) (ri_UserId info) (ri_OriginModelName info) amount 0 0 0 0 0 "" in
  0 < amount -> ss_s st = new_session (FSubscription f) ->
  subs_ok (w_db w) -> d_records (w_db w) !! ri_RequestId info = None ->
  match preConsume tq amount st with
  | (Ok _, st') => exists f' before,
      bs_funding (ss_s st') = FSubscription f' /\ bs_preConsumedQuota (ss_s st') = amount /\
      bs_settled (ss_s st') = false /\ bs_fundingSettled (ss_s st') = false /\
      ss_info st' = sync_info (ss_s st') info /\
      subs_ok (w_db (ss_w st')) /\
      (before = used_of (w_db w) (sf_subscriptionId f') \/ before = 0) /\ 0 <= before /\
      used_of (w_db (ss_w st')) (sf_subscriptionId f') = before + amount /\
      same_wallets w (ss_w st') /\
      (forall i, token_remain (ss_w st') i = token_remain w i -
         if decide (i = ri_TokenId info) then token_share info amount else 0)
  | (Err _, _) => True
  end.
Proof.
  cbv zeta. intros Ha Hs Hd Hfresh. rewrite preConsume_steps. cbv zeta.
  assert (shouldTrust tq (QuotaPerUnit (w_cfg (ss_w st))) (ss_info st) (ss_s st) = false) as ->.
  { unfold shouldTrust. rewrite Hs. cbn. repeat case_match; done. }
  rewrite run_bind. pose proof (pre_token_run (ss_info st) amount st ltac:(lia)) as H1.
  rewrite Hs in H1 at 1. specialize (H1 eq_refl).
  destruct (pre_token (ss_info st) amount st) as [[u|e] st1]; [|done].
  destruct H1 as (Hs1 & Hi1 & (Hw1 & (Hsb1 & Hrc1 & _) & _) & Hr1).
  unfold pre_funding. rewrite run_bind. cbn [gets]. rewrite run_bind, run_attempt_lift.
  set (f := mkSubFunding _ _ _ _ _ _ _ _ _ _) in *.
  assert (Hf1 : bs_funding (ss_s st1) = FSubscription f) by (rewrite Hs1, Hs; reflexivity).
  rewrite Hf1. cbn [fPreConsume FundingSource_Funding Subscription_Funding]. rewrite run_bind.
  assert (Hl : preserves (ledger_db (ss_w st1)) (Subscription_PreConsume f amount))
    by apply (Subscription_ledger f amount (ss_w st1)).
  specialize (Hl (ss_w st1) ltac:(done)).
  destruct (Subscription_PreConsume f amount (ss_w st1)) as [[f'|e] w2] eqn:Ep; cbn [fst snd] in *.
  2:{ rewrite run_bind. destruct (_ && _); cbn; done. }
  apply ledger_db_same in Hl as [Hw2 [Ht2 _]].
  unfold Subscription_PreConsume in Ep. inv_bind Ep as res w3 E1. inv_bind Ep as info w4 E2.
  apply run_ret_inv in Ep as [-> ->].
  assert (Hfid : forall x : result error (Z * string), sf_subscriptionId (match x with
      | Ok (p, t) => f <| sf_subscriptionId := pr_UserSubscriptionId res |>
          <| sf_preConsumed := pr_PreConsumed res |> <| sf_AmountTotal := pr_AmountTotal res |>
          <| sf_AmountUsedAfter := pr_AmountUsedAfter res |> <| sf_PlanId := p |> <| sf_PlanTitle := t |>
      | Err _ => f <| sf_subscriptionId := pr_UserSubscriptionId res |>
          <| sf_preConsumed := pr_PreConsumed res |> <| sf_AmountTotal := pr_AmountTotal res |>
          <| sf_AmountUsedAfter := pr_AmountUsedAfter res |> end : SubscriptionFunding)
      = pr_UserSubscriptionId res) by (by intros [[? ?]|]).
  set (f' := match info with Ok _ => _ | Err _ => _ end) in *.
  assert (Hid : sf_subscriptionId f' = pr_UserSubscriptionId res) by apply Hfid. clear Hfid.
  assert (Hdb4 : w_db w4 = w_db w3).
  { unfold attempt in E2.
    assert (Hp : preserves (fun w => w_db w = w_db w3)
      (GetSubscriptionPlanInfoByUserSubscriptionId (pr_UserSubscriptionId res))).
    { unfold GetSubscriptionPlanInfoByUserSubscriptionId, cache_call. pres. }
    specialize (Hp w3 eq_refl).
    destruct (GetSubscriptionPlanInfoByUserSubscriptionId _ w3) as [r4 w5]. injection E2 as _ <-. exact Hp. }
  assert (Hd1 : subs_ok (w_db (ss_w st1))) by (unfold subs_ok; by rewrite Hsb1).
  pose proof (PreConsume_inv (sf_requestId f) (sf_userId f) (sf_modelName f) 0 (sf_amount f) (ss_w st1) Hd1) as Hi.
  rewrite E1 in Hi. destruct Hi as (_ & c & Hc & _ & _ & Hres & Hb & Hlim & (s' & Hs' & Hu & Hsid & _) & Hk & _).
  { by rewrite Hrc1. }
  assert (Hsub : pr_UserSubscriptionId res = s_Id c) by (by rewrite Hres).
  assert (Haf : pr_AmountUsedAfter res = pr_AmountUsedBefore res + amount) by (by rewrite Hres at 1).
  cbn. unfold syncRelayInfo, set_s, set_info. rewrite run_bind. cbn [modify]. rewrite run_bind.
  cbn [gets modify]. simpl.
  exists f', (pr_AmountUsedBefore res). split; [done|]. split; [done|].
  split; [by rewrite Hs1, Hs|]. split; [by rewrite Hs1, Hs|]. split; [by rewrite Hi1|]. split; [|split; [|split; [|split; [|split]]]].
  - rewrite Hdb4. pose proof (PreConsume_subs_ok (sf_requestId f) (sf_userId f) (sf_modelName f) 0
      (sf_amount f) (ss_w st1) Hd1) as Hp. by rewrite E1 in Hp.
  - rewrite Hid, Hsub. unfold used_of. rewrite <- Hsb1, Hc. exact Hb.
  - destruct (subs_ok_lookup _ _ _ Hd1 Hc) as [_ [Hc0 _]]. lia.
  - rewrite Hid, Hsub, Hdb4. unfold used_of. rewrite Hs'. lia.
  - by transitivity (ss_w st1).
  - intros i. rewrite Ht2. apply Hr1.
Qed.

Lemma sub_Settle_wallets actual st f :
  bs_funding (ss_s st) = FSubscription f -> same_wallets (ss_w st) (ss_w (Settle actual st).2).
Proof.
  intros Hf. unfold Settle. rewrite run_bind. cbn [gets]. rewrite run_bind. cbn [gets].
  destruct (bs_settled (ss_s st)); [done|]. destruct (_ =? 0); [done|].
  assert (H1 : forall st1 : SS, same_wallets (ss_w st) (ss_w st1) -> forall k : unit -> M SS error unit,
    (forall st2 u, same_wallets (ss_w st) (ss_w st2) -> same_wallets (ss_w st) (ss_w (k u st2).2)) ->
    same_wallets (ss_w st) (ss_w (((if negb (bs_fundingSettled (ss_s st)) then
         lift (fSettle (bs_funding (ss_s st)) (actual - bs_preConsumedQuota (ss_s st))) ;;
         set_s (fun s => s <| bs_fundingSettled := true |>)
       else mret tt) ≫= k) st1).2)).
  { intros st1 Hst1 k Hk. rewrite run_bind. destruct (negb _); [|by apply Hk].
    rewrite run_bind. unfold lift. rewrite Hf. cbn [fSettle FundingSource_Funding Subscription_Funding].
    pose proof (proj1 (Subscription_ledger f (actual - bs_preConsumedQuota (ss_s st)) (ss_w st1))
                  (ss_w st1) ltac:(done)) as Hl.
    apply ledger_db_same in Hl as [Hl _].
    destruct (Subscription_Settle f _ (ss_w st1)) as [[u|e] w1]; cbn in *;
      [apply Hk|]; by transitivity (ss_w st1). }
  apply H1; [done|]. intros st2 u Hst2. rewrite run_bind, run_attempt_lift.
  pose proof (settle_token_run (ss_info st) (actual - bs_preConsumedQuota (ss_s st)) (ss_w st2)) as H2.
  set (r := settle_token _ _ (ss_w st2)) in *.
  assert (Hr : same_wallets (ss_w st) r.2).
  { destruct r as [[u2|e2] w2]; [destruct H2 as [(Hw & _) _]|destruct H2 as [fs ->]];
      by transitivity (ss_w st2). }
  rewrite run_bind. destruct (decide _); unfold set_info, set_s; cbn; exact Hr.
Qed.


Definition sample_sub_ctx : Ctx :=
  sample_ctx <| c_info := sample_info <| ri_BillingPreference := "subscription_only" |> |>.

