(* ===== verification/Pricing.v ===== *)
(** * Pricing a request (src/relay/helper/price.go, billing_expr_request.go)

    Before a request is sent upstream its price is frozen on the relay info and
    the quota to pre-consume is computed from it.  The state is the request's
    context and the cache of compiled expressions. *)

From Stdlib Require Import SpecFloat.
From S2P Require Import Prelude GoStd GoFloat QuotaMath PriceData RatioSetting BillingExpr World Sample ModelUtils UserModel Funding ApiError BillingSession.

(** What the code reads of the gin context. *)
Record GinContext := mkGin {
  gk_auto_group : option (option string);      (** [Some None]: set, but not a string *)
  gk_content_type : option string;             (** [None]: no request *)
  gk_body : result error string;               (** the stored body, when it is read *)
}.

(** The operation settings. *)
Record PricingConfig := mkPricingConfig {
  pc_ratios : RatioSettings;
  EnableFreeModelPreConsume : bool;
  PreConsumedQuota : Z;
}.

(** types.TokenCountMeta, the fields pricing uses. *)
Record TokenCountMeta := mkMeta {
  MaxTokens : Z;
  ImagePriceRatio : F64.float64;
  BillingRatios : gmap string F64.float64;
}.

Record PS (Prog : Type) := mkPS {
  ps_ctx : Ctx;
  ps_cache : Cache Prog;
}.
Arguments mkPS {Prog} _ _.
Arguments ps_ctx {Prog} _.
Arguments ps_cache {Prog} _.
#[export] Instance PS_settable Prog : Settable (PS Prog) :=
  fields_of (@mkPS Prog) < ps_ctx; ps_cache >.

Section pricing.
Context `{ExprEngine Prog}.
#[local] Abbreviation PS := (PS Prog).

Definition ps_info (st : PS) : RelayInfo := c_info (ps_ctx st).
Definition set_ps_info {E} (f : RelayInfo -> RelayInfo) : M PS E unit :=
  modify (fun st => st <| ps_ctx := ps_ctx st <| c_info := f (ps_info st) |> |>).
Definition on_world {A} (m : MW A) : M PS error A := fun st =>
  let '(r, c') := liftC m (ps_ctx st) in (r, st <| ps_ctx := c' |>).
Definition on_cache {A} (m : M (Cache Prog) error A) : M PS error A := fun st =>
  let '(r, cache') := m (ps_cache st) in (r, st <| ps_cache := cache' |>).

(** ** Unpriced models *)


Definition modelPriceNotConfiguredError (modelName : string) (userId : Z) : M PS go_error error :=
  admin ← map_err GPlain (on_world (IsAdmin userId));
  mret (if admin : bool
        then ErrNew ("模型 " +:+ modelName +:+ " 的价格未配置。请前往「系统设置 → 运营设置」开启自用模式，或在「系统设置 → 分组与模型定价设置」中为该模型配置价格；Model " +:+ modelName +:+ " price not configured. Go to System Settings → Operation Settings to enable self-use mode, or configure the model price in System Settings → Group & Model Pricing.")
        else ErrNew ("模型 " +:+ modelName +:+ " 的价格尚未由管理员配置，暂时无法使用，请联系站点管理员开启该模型；Model " +:+ modelName +:+ " has not been priced by the administrator yet. Please contact the site administrator to enable this model.")).

(** [return types.PriceData{}, modelPriceNotConfiguredError(...)] *)
Definition not_configured {A} (modelName : string) (userId : Z) : M PS go_error A :=
  e ← modelPriceNotConfiguredError modelName userId;
  fail (GPlain e).

(** ** Group ratio *)

Definition claudeCacheCreation1hMultiplier : F64.float64 := const 600 375.
Definition defaultTieredPreConsumeMaxTokens : Z := 8192.

Context (cfg : PricingConfig) (g : GinContext)
  (range : gmap string F64.float64 -> list (string * F64.float64)).
Let rs := pc_ratios cfg.

Definition HandleGroupRatio {E} : M PS E GroupRatioInfo :=
  (match gk_auto_group g with
   | Some (Some group) =>
       if decide (GoStrings.TrimSpace group <> "")
       then set_ps_info (fun i => i <| ri_UsingGroup := group |>) else mret tt
   | _ => mret tt
   end) ;;
  info ← gets ps_info;
  let '(userGroupRatio, ok) := GetGroupGroupRatio rs (ri_UserGroup info) (ri_UsingGroup info) in
  mret (if ok : bool then mkGroupRatio userGroupRatio userGroupRatio true
        else mkGroupRatio (GetGroupRatio rs (ri_UsingGroup info)) (F64.of_Z (-1)) false).

(** ** The input of a billing expression (billing_expr_request.go) *)

Definition cloneStringMap (src : gmap string string) : gmap string string :=
  filter (fun kv => GoStrings.TrimSpace kv.1 <> "") src.
Definition cloneRequestInput (src : RequestInput) : RequestInput :=
  mkRequestInput (cloneStringMap (rq_Headers src)) (rq_Body src).

Definition isJSONContentType (contentType : string) : bool :=
  GoStrings.HasPrefix (GoStrings.lower_ascii (GoStrings.TrimSpace contentType)) "application/json".
Definition readIncomingBillingExprBody : result error string :=
  match gk_content_type g with
  | Some ct => if isJSONContentType ct then gk_body g else Ok ""
  | None => Ok ""
  end.

Definition ResolveIncomingBillingExprRequestInput (info : RelayInfo) : result error RequestInput :=
  match ri_BillingRequestInput info with
  | Some src =>
      let input := cloneRequestInput src in
      let merged := rq_Headers input ∪ cloneStringMap (ri_RequestHeaders info) in
      Ok (input <| rq_Headers := merged |>)
  | None =>
      match readIncomingBillingExprBody with
      | Err e => Err e
      | Ok body => Ok (mkRequestInput (cloneStringMap (ri_RequestHeaders info)) body)
      end
  end.

(** ** Tiered expressions *)

Definition modelPriceHelperTiered (now promptTokens : Z) (meta : TokenCountMeta)
    (groupRatioInfo : GroupRatioInfo) : M PS go_error PriceData :=
  info ← gets ps_info;
  let name := ri_OriginModelName info in
  match GetBillingExpr rs name with
  | None => fail (GPlain (ErrNew ("model " +:+ name +:+
                    " is configured as tiered_expr but has no billing expression")))
  | Some exprStr =>
      let groupRatio := GroupRatio groupRatioInfo in
      let estimatedCompletionTokens :=
        if (MaxTokens meta =? 0) && negb (F64.eqb groupRatio F64.zero)
        then defaultTieredPreConsumeMaxTokens else MaxTokens meta in
      requestInput ← map_err GPlain (of_result (ResolveIncomingBillingExprRequestInput info));
      '(rawCost, trace) ←
        map_err (fun e => GPlain (ErrNew ("model " +:+ name +:+ " tiered expr run failed: " +:+ error_text e)))
          (on_cache (RunExprWithRequest now exprStr
             (mkTokenParams (F64.of_Z promptTokens) (F64.of_Z estimatedCompletionTokens)
                (F64.of_Z promptTokens) F64.zero F64.zero F64.zero F64.zero F64.zero F64.zero F64.zero)
             requestInput));
      quotaPerUnit ← gets (fun st => QuotaPerUnit (w_cfg (c_w (ps_ctx st))));
      let quotaBeforeGroup := F64.mul (F64.div rawCost (F64.of_Z 1000000)) quotaPerUnit in
      preConsumedQuota ←
        map_err GClamp (of_result (Quota.QuotaRoundStrict (F64.mul quotaBeforeGroup groupRatio)));
      let freeModel := negb (EnableFreeModelPreConsume cfg) && F64.eqb groupRatio F64.zero in
      let preConsumedQuota := if freeModel then 0 else preConsumedQuota in
      version ← map_err GPlain (on_cache (ExprVersion exprStr));
      let snapshot := mkSnapshot BillingModeTieredExpr name exprStr (ExprHashString exprStr)
        groupRatio promptTokens estimatedCompletionTokens quotaBeforeGroup preConsumedQuota
        (MatchedTier trace) quotaPerUnit version in
      let priceData : PriceData :=
        zero_PriceData <| FreeModel := freeModel |> <| pd_GroupRatioInfo := groupRatioInfo |>
          <| QuotaToPreConsume := preConsumedQuota |> in
      set_ps_info (fun i => i <| ri_TieredBillingSnapshot := Some snapshot |>
        <| ri_BillingRequestInput := Some requestInput |> <| ri_PriceData := priceData |>) ;;
      mret priceData
  end.

(** ** Prices by ratio or by call *)

(** The branch of a model priced per token: the ratios, and the quota of the
    estimated tokens. *)
Definition price_by_ratio (info : RelayInfo) (promptTokens : Z) (meta : TokenCountMeta)
    (groupRatioInfo : GroupRatioInfo) : M PS go_error PriceData :=
  let name := ri_OriginModelName info in
  let preConsumedTokens := (if promptTokens >=? PreConsumedQuota cfg then promptTokens
                            else PreConsumedQuota cfg)
                           + (if MaxTokens meta =? 0 then 0 else MaxTokens meta) in
  let '(modelRatio, success, matchName) := GetModelRatio rs name in
  (if negb success && negb (ri_AcceptUnsetRatioModel info)
   then not_configured matchName (ri_UserId info) else mret tt) ;;
  let cacheCreationRatio := (GetCreateCacheRatio rs name).1 in
  let ratio := F64.mul modelRatio (GroupRatio groupRatioInfo) in
  quota ← map_err GClamp
    (of_result (Quota.QuotaFromFloatStrict (F64.mul (F64.of_Z preConsumedTokens) ratio)));
  mret (zero_PriceData
    <| ModelRatio := modelRatio |>
    <| CompletionRatio := GetCompletionRatio rs name |>
    <| CacheRatio := (GetCacheRatio rs name).1 |>
    <| CacheCreationRatio := cacheCreationRatio |>
    <| CacheCreation5mRatio := cacheCreationRatio |>
    <| CacheCreation1hRatio := F64.mul cacheCreationRatio claudeCacheCreation1hMultiplier |>
    <| ImageRatio := (GetImageRatio rs name).1 |>
    <| AudioRatio := GetAudioRatio rs name |>
    <| AudioCompletionRatio := GetAudioCompletionRatio rs name |>
    <| QuotaToPreConsume := quota |>).

(** No pre-consume for a free model. *)
Definition is_free (groupRatio modelPrice modelRatio : F64.float64) (usePrice : bool) : bool :=
  negb (EnableFreeModelPreConsume cfg) &&
  (F64.eqb groupRatio F64.zero
   || if usePrice then F64.eqb modelPrice F64.zero else F64.eqb modelRatio F64.zero).

Definition ModelPriceHelper (now promptTokens : Z) (meta : TokenCountMeta) : M PS go_error PriceData :=
  info ← gets ps_info;
  let '(modelPrice, usePrice) := GetModelPrice rs (ri_OriginModelName info) in
  groupRatioInfo ← HandleGroupRatio;
  if decide (GetBillingMode rs (ri_OriginModelName info) = BillingModeTieredExpr)
  then modelPriceHelperTiered now promptTokens meta groupRatioInfo
  else
    priceData ←
      (if negb usePrice then price_by_ratio info promptTokens meta groupRatioInfo
       else mret zero_PriceData);
    let modelPrice :=
      if usePrice && negb (F64.eqb (ImagePriceRatio meta) F64.zero)
      then F64.mul modelPrice (ImagePriceRatio meta) else modelPrice in
    let freeModel := is_free (GroupRatio groupRatioInfo) modelPrice (ModelRatio priceData) usePrice in
    let priceData : PriceData :=
      priceData <| FreeModel := freeModel |> <| ModelPrice := modelPrice |>
        <| pd_GroupRatioInfo := groupRatioInfo |> <| UsePrice := usePrice |>
        <| QuotaToPreConsume := if freeModel then 0 else QuotaToPreConsume priceData |> in
    priceData ←
      (if usePrice then
         let priceData := fold_left (fun p kv => AddOtherRatio p kv.1 kv.2)
                            (range (BillingRatios meta)) priceData in
         quotaPerUnit ← gets (fun st => QuotaPerUnit (w_cfg (c_w (ps_ctx st))));
         quota ← map_err GClamp (of_result (Quota.QuotaFromFloatStrict
           (ApplyOtherRatiosToFloat range priceData
              (F64.mul (F64.mul modelPrice quotaPerUnit) (GroupRatio groupRatioInfo)))));
         mret (priceData <| QuotaToPreConsume := quota |>)
       else mret priceData);
    set_ps_info (fun i => i <| ri_PriceData := priceData |>) ;;
    mret priceData.

(** *** Per call (Midjourney and tasks) *)

Definition ModelPriceHelperPerCall : M PS go_error PriceData :=
  groupRatioInfo ← HandleGroupRatio;
  info ← gets ps_info;
  let name := ri_OriginModelName info in
  let '(modelPrice, success) := GetModelPrice rs name in
  '(modelPrice, usePrice, modelRatio) ←
    (if success then mret (modelPrice, true, F64.zero)
     else match defaultModelPrice rs !! name with
          | Some defaultPrice => mret (defaultPrice, true, F64.zero)
          | None =>
              let '(modelRatio, ratioSuccess, matchName) := GetModelRatio rs name in
              if negb ratioSuccess && negb (ri_AcceptUnsetRatioModel info)
              then not_configured matchName (ri_UserId info)
              else mret (modelPrice, false, modelRatio)
          end);
  quotaPerUnit ← gets (fun st => QuotaPerUnit (w_cfg (c_w (ps_ctx st))));
  let base := if usePrice : bool then modelPrice else F64.div modelRatio (F64.of_Z 2) in
  quota ← map_err GClamp (of_result (Quota.QuotaFromFloatStrict
    (F64.mul (F64.mul base quotaPerUnit) (GroupRatio groupRatioInfo))));
  let freeModel := is_free (GroupRatio groupRatioInfo) modelPrice modelRatio usePrice in
  mret (zero_PriceData
    <| FreeModel := freeModel |>
    <| ModelPrice := if usePrice then modelPrice else F64.of_Z (-1) |>
    <| ModelRatio := modelRatio |>
    <| UsePrice := usePrice |>
    <| pd_Quota := if freeModel then 0 else quota |>
    <| pd_GroupRatioInfo := groupRatioInfo |>).

Definition HasModelBillingConfig (modelName : string) : bool :=
  (GetModelPrice rs modelName).2 || (GetModelRatio rs modelName).1.2
  || (bool_decide (GetBillingMode rs modelName = BillingModeTieredExpr)
      && match GetBillingExpr rs modelName with
         | Some expr => negb (bool_decide (GoStrings.TrimSpace expr = ""))
         | None => false
         end).
End pricing.
