(* ===== verification/RelayLoop.v ===== *)
(** * Relaying a request (src/controller/relay.go, src/service/channel.go)

    [Relay] prices a request, pre-consumes its quota, tries channels until one answers
    or the retries are used up, and gives the quota back when none did.  What the
    upstreams and the client do is a sequence of [Turn]s, one per attempt. *)

From S2P Require Import Prelude GoStd GoFloat QuotaMath ApiError StatusCodes PriceData RatioSetting BillingExpr World ModelUtils ChannelModel Ability ChannelCache ChannelAdmin ChannelHealth ChannelSelect Funding BillingSession Pricing.

(** src/types/channel_error.go *)
Record ChannelError := mkChannelError {
  che_ChannelId : Z;
  che_ChannelType : Z;
  che_ChannelName : string;
  che_IsMultiKey : bool;
  che_AutoBan : bool;
  che_UsingKey : string;
}.

(** The settings of an instance. *)
Record RelayConfig := mkRelayConfig {
  RetryTimes : Z;
  rc_groups : GroupSettings;
  rc_pricing : PricingConfig;
  rc_violation : ViolationSettings;
  AutomaticRetryCodes : list StatusCodeRange;
  AutomaticDisableCodes : list StatusCodeRange;
  AutomaticDisableChannelEnabled : bool;
  AutomaticEnableChannelEnabled : bool;
}.

(** What stays fixed while a request is relayed: the token pins a channel; the
    affinity rule that chose the channel forbids retries; what the gin context has
    for pricing. *)
Record RelayRequest := mkRelayRequest {
  rq_specificChannel : bool;
  rq_affinitySkipsRetry : bool;
  rq_gin : GinContext;
}.

Record RelayState (Prog : Type) := mkRS {
  rs_ps : PS Prog;
  rs_keys : SelectKeys;
  rs_param : RetryParam;
  rs_channel : ChannelKeys;
  rs_used : list Z;                                  (** use_channel *)
  rs_disables : list (ChannelError * string);   (** closures that will disable a channel *)
}.
Arguments mkRS {Prog}.
Arguments rs_ps {Prog} _.
Arguments rs_keys {Prog} _.
Arguments rs_param {Prog} _.
Arguments rs_channel {Prog} _.
Arguments rs_used {Prog} _.
Arguments rs_disables {Prog} _.
#[export] Instance RelayState_settable Prog : Settable (RelayState Prog) :=
  fields_of (@mkRS Prog) < rs_ps; rs_keys; rs_param; rs_channel; rs_used; rs_disables >.

(** An attempt: whether the client is gone when it starts and when it ends, the random
    numbers, an error of reading the stored body and whether the body is too large,
    what the relay handler does after InitChannelMeta, and whether content was
    already streamed to the client. *)
Record Turn (Prog : Type) := mkTurn {
  tn_gone : bool;
  tn_Intn : Z -> Z -> Z;
  tn_keyIntn : Z -> Z;
  tn_body : option (error * bool);
  tn_handler : PS Prog -> option NewAPIError * PS Prog;
  tn_gone_after : bool;
  tn_semantic : bool;
}.
Arguments mkTurn {Prog}.
Arguments tn_gone {Prog} _.
Arguments tn_Intn {Prog} _.
Arguments tn_keyIntn {Prog} _.
Arguments tn_body {Prog} _.
Arguments tn_handler {Prog} _.
Arguments tn_gone_after {Prog} _.
Arguments tn_semantic {Prog} _.

(** The local variables of Relay. *)
Record RelayLocals := mkLocals {
  lo_newAPIError : option NewAPIError;
  lo_upstreamAttempted : bool;
  lo_channelRateLimited : bool;
}.
#[export] Instance RelayLocals_settable : Settable RelayLocals :=
  fields_of mkLocals < lo_newAPIError; lo_upstreamAttempted; lo_channelRateLimited >.

Inductive turn_result :=
| TNext (lo : RelayLocals)     (** the next attempt *)
| TBreak (lo : RelayLocals)    (** out of the loop *)
| TDone.                       (** the request is answered: return *)

(** ** Disabling and enabling channels (service/channel.go) *)

Section channel.
Context `{ChannelJson} (cfg : RelayConfig).
Context (format_g : F64.float64 -> string).
(** Whether the lower-cased message has one of the disable keywords (strings.ToLower, AcSearch). *)
Context (has_disable_keyword : string -> bool).

(** The root user is notified of a change; the message is left out. *)
Definition DisableChannel (e : ChannelError) (reason : string) : MW unit :=
  if negb (che_AutoBan e) then mret tt
  else
    _ ← UpdateChannelStatus (che_ChannelId e) (che_UsingKey e) ChannelStatusAutoDisabled reason;
    mret tt.
Definition EnableChannel (channelId : Z) (usingKey : string) : MW unit :=
  _ ← UpdateChannelStatus channelId usingKey ChannelStatusEnabled "";
  mret tt.
Definition ShouldDisableChannel (e : option NewAPIError) : bool :=
  if negb (AutomaticDisableChannelEnabled cfg) then false
  else match e with
  | None => false
  | Some err =>
      if IsChannelError e then true
      else if IsSkipRetryError e then false
      else if ShouldDisableByStatusCode (AutomaticDisableCodes cfg) (ae_StatusCode err) then true
      else has_disable_keyword (Error_text format_g err)
  end.
Definition ShouldEnableChannel (e : option NewAPIError) (status : Z) : bool :=
  if negb (AutomaticEnableChannelEnabled cfg) then false
  else match e with
  | Some _ => false
  | None => status =? ChannelStatusAutoDisabled
  end.
End channel.

(** ** The retry loop *)

Section relay.
Context `{ChannelJson} (compile : string -> option (string -> bool)) (ChannelBaseURLs : Z -> string).
Context `{ExprEngine Prog} `{Decimal D}.
Context (format_g : F64.float64 -> string) (MaskSensitiveInfo : string -> string).
Context (has_disable_keyword : string -> bool).
Context (cfg : RelayConfig) (range : gmap string string -> list (string * string)).
#[local] Abbreviation RS := (RelayState Prog).

Definition on_ps {E A} (m : M (PS Prog) E A) : M RS E A := fun st =>
  let '(r, ps') := m (rs_ps st) in (r, st <| rs_ps := ps' |>).
Definition rs_world (st : RS) : World := c_w (ps_ctx (rs_ps st)).
Definition rs_info (st : RS) : RelayInfo := ps_info (rs_ps st).
Definition on_sel {A} (m : M Sel error A) : M RS error A := fun st =>
  let '(r, s) := m (mkSel (rs_world st) (rs_keys st) (rs_param st) (rs_channel st)) in
  (r, st <| rs_ps := rs_ps st <| ps_ctx := ps_ctx (rs_ps st) <| c_w := sl_w s |> |> |>
         <| rs_keys := sl_keys s |> <| rs_param := sl_param s |> <| rs_channel := sl_channel s |>).
Definition on_relay_world {A} (m : MW A) : M RS error A := on_ps (on_world m).

Definition channel_failed (msg : string) : NewAPIError :=
  NewError (GPlain (ErrNew msg)) ErrorCodeGetChannelFailed [ErrOptionWithSkipRetry].

(** Before the first handler ran, the channel that the distributor left in the
    context, as a new object; later a chosen one. *)
Definition context_channel (k : ChannelKeys) : Channel :=
  zero_channel <| cn_Id := cx_Id k |> <| cn_Type := cx_Type k |> <| cn_Name := cx_Name k |>
    <| cn_AutoBan := Some (if cx_AutoBan k then 1 else 0) |>.
Definition getChannel (rq : RelayRequest) (tn : Turn Prog) : M RS error (result NewAPIError positive) :=
  info ← gets rs_info;
  match ri_ChannelMeta info with
  | None =>
      keys ← gets rs_channel;
      l ← on_relay_world (new_channel (context_channel keys));
      mret (Ok l)
  | Some _ =>
      '(channel, selectGroup, err) ←
        on_sel (CacheGetRandomSatisfiedChannel compile (rc_groups cfg) (pc_ratios (rc_pricing cfg)) range
                  (RetryTimes cfg) (tn_Intn tn));
      auto_group ← gets (fun st => sk_AutoGroup (rs_keys st));
      gri ← on_ps (HandleGroupRatio (rc_pricing cfg)
                     (mkGin (Some <$> auto_group) (gk_content_type (rq_gin rq)) (gk_body (rq_gin rq))));
      on_ps (set_ps_info (fun i => i <| ri_PriceData := ri_PriceData i <| pd_GroupRatioInfo := gri |> |>)) ;;
      let where_ := "分组 " +:+ selectGroup +:+ " 下模型 " +:+ ri_OriginModelName info in
      match err, channel with
      | Some e, _ => mret (Err (channel_failed ("获取" +:+ where_ +:+ " 的可用渠道失败（retry）: " +:+ error_text e)))
      | None, None => mret (Err (channel_failed (where_ +:+ " 的可用渠道不存在（retry）")))
      | None, Some l =>
          failed ← on_sel (SetupContextForSelectedChannel ChannelBaseURLs (tn_keyIntn tn) (Some l) (ri_OriginModelName info));
          mret (match failed with Some e => Err e | None => Ok l end)
      end
  end.

(** [retryTimes]: the retries that are left. *)
Definition shouldRetry (rq : RelayRequest) (e : NewAPIError) (retryTimes : Z) : bool :=
  if rq_affinitySkipsRetry rq then false
  else if IsChannelError (Some e) then true
  else if IsSkipRetryError (Some e) then false
  else if retryTimes <=? 0 then false
  else if rq_specificChannel rq then false
  else
    let code := ae_StatusCode e in
    if (200 <=? code) && (code <? 300) then false
    else if (code <? 100) || (code >? 599) then true
    else if IsAlwaysSkipRetryCode (ae_errorCode e) then false
    else ShouldRetryByStatusCode (AutomaticRetryCodes cfg) code.

(** The recent-calls cache and the error log are left out. *)
Definition processChannelError (channelError : ChannelError) (e : NewAPIError) : M RS error unit :=
  reached ← on_relay_world (RecordChannelHealthFailure (che_ChannelId channelError));
  if che_AutoBan channelError && (ShouldDisableChannel cfg format_g has_disable_keyword (Some e) || reached)
  then modify (fun st => st <| rs_disables := rs_disables st ++ [(channelError, ErrorWithStatusCode format_g e)] |>)
  else mret tt.

Definition body_failed (err : error) (too_large : bool) : NewAPIError :=
  NewErrorWithStatusCode (GPlain err) ErrorCodeReadRequestBodyFailed
    (if too_large then StatusRequestEntityTooLarge else StatusBadRequest) [ErrOptionWithSkipRetry].
Definition acquire_failed (err : error) : NewAPIError :=
  NewErrorWithStatusCode (GPlain err) ErrorCodeGetChannelFailed StatusServiceUnavailable [ErrOptionWithSkipRetry].
Definition all_rate_limited : NewAPIError :=
  NewErrorWithStatusCode (GPlain (ErrNew "all candidate channels are locally rate limited"))
    ErrorCodeGetChannelFailed StatusTooManyRequests [ErrOptionWithSkipRetry].

(** InitChannelMeta, the first call of every handler, and the rest of the handler. *)
Definition InitChannelMeta (k : ChannelKeys) (info : RelayInfo) : RelayInfo :=
  info <| ri_ChannelMeta := Some (mkChannelMeta (cx_Id k) (cx_Type k)) |>.
Definition run_handler (tn : Turn Prog) : M RS error (option NewAPIError) :=
  keys ← gets rs_channel;
  on_ps (set_ps_info (InitChannelMeta keys)) ;;
  on_ps (fun ps => let '(e, ps') := tn_handler tn ps in (Ok e, ps')).

Definition relay_turn (rq : RelayRequest) (tn : Turn Prog) (lo : RelayLocals) : M RS error turn_result :=
  if tn_gone tn then mret (TBreak lo)
  else
    r ← getChannel rq tn;
    match r with
    | Err e => mret (TBreak (lo <| lo_newAPIError := Some e |>))
    | Ok l =>
        match tn_body tn with
        | Some (err, too_large) => mret (TBreak (lo <| lo_newAPIError := Some (body_failed err too_large) |>))
        | None =>
            settings ← gets (fun st => cx_OtherSetting (rs_channel st));
            c ← on_relay_world (deref l);
            acquired ← attempt (on_relay_world (TryAcquireChannelRequestForContext settings (cn_Id c)));
            match acquired with
            | Err err => mret (TBreak (lo <| lo_newAPIError := Some (acquire_failed err) |>))
            | Ok false => mret (TNext (lo <| lo_channelRateLimited := true |>))
            | Ok true =>
                modify (fun st => st <| rs_used := rs_used st ++ [cn_Id c] |>) ;;
                r ← run_handler tn;
                match r with
                | None =>
                    on_relay_world (RecordChannelHealthSuccess (cn_Id c)) ;;
                    mret TDone
                | Some e =>
                    let e := NormalizeViolationFeeError format_g MaskSensitiveInfo e in
                    let lo : RelayLocals := lo <| lo_upstreamAttempted := true |> <| lo_newAPIError := Some e |> in
                    c ← on_relay_world (deref l);
                    key ← gets (fun st => cx_Key (rs_channel st));
                    processChannelError (mkChannelError (cn_Id c) (cn_Type c) (cn_Name c)
                      (ci_IsMultiKey (cn_ChannelInfo c)) (GetAutoBan c) key) e ;;
                    retry ← gets (fun st => GetRetry (rs_param st));
                    mret (if tn_gone_after tn then TBreak lo
                          else if tn_semantic tn || negb (shouldRetry rq e (RetryTimes cfg - retry)) then TBreak lo
                          else TNext lo)
                end
            end
        end
    end.

(** The [i]-th attempt and what follows.  [None]: the fuel is used up; the inner
    option is empty when the request was answered. *)
Fixpoint relay_loop (rq : RelayRequest) (turns : nat -> Turn Prog) (fuel i : nat) (lo : RelayLocals)
    : M RS error (option (option RelayLocals)) :=
  match fuel with
  | O => mret None
  | S fuel =>
      retry ← gets (fun st => GetRetry (rs_param st));
      if retry <=? RetryTimes cfg then
        r ← relay_turn rq (turns i) lo;
        match r with
        | TNext lo =>
            modify (fun st => st <| rs_param := IncreaseRetry (rs_param st) |>) ;;
            relay_loop rq turns fuel (S i) lo
        | TBreak lo => mret (Some (Some lo))
        | TDone => mret (Some None)
        end
      else mret (Some (Some lo))
  end.

(** ** The handler, from the price on *)

(** The deferred function: what happens to the quota of a request that failed. *)
Definition deferred_refund (e : NewAPIError) : M RS error NewAPIError :=
  let e := NormalizeViolationFeeError format_g MaskSensitiveInfo e in
  on_ps (fun ps => let '(r, c') := (ignore_err RefundBilling : M Ctx error unit) (ps_ctx ps) in
                   (r, ps <| ps_ctx := c' |>)) ;;
  _ ← on_ps (fun ps => let '(r, c') := ChargeViolationFeeIfNeeded format_g MaskSensitiveInfo (D := D) (rc_violation cfg) e (ps_ctx ps) in
                       (r, ps <| ps_ctx := c' |>));
  mret e.

Definition final_error (lo : RelayLocals) : option NewAPIError :=
  match lo_newAPIError lo with
  | Some e => Some e
  | None => if lo_channelRateLimited lo && negb (lo_upstreamAttempted lo) then Some all_rate_limited else None
  end.

(** The attempts and the deferred refund. *)
Definition relay_attempts (rq : RelayRequest) (turns : nat -> Turn Prog) (fuel : nat)
    : M RS error (option (option NewAPIError)) :=
  r ← relay_loop rq turns fuel 0 (mkLocals None false false);
  match r with
  | None => mret None
  | Some None => mret (Some None)
  | Some (Some lo) =>
      match final_error lo with
      | None => mret (Some None)
      | Some e => e ← deferred_refund e; mret (Some (Some e))
      end
  end.

(** [meta] and [promptTokens] are what the estimate of the request's tokens gives. *)
Definition Relay (price_range : gmap string F64.float64 -> list (string * F64.float64)) (rq : RelayRequest)
    (now promptTokens : Z) (meta : TokenCountMeta) (tokenQuota : Z) (turns : nat -> Turn Prog) (fuel : nat)
    : M RS error (option (option NewAPIError)) :=
  priced ← attempt (on_ps (ModelPriceHelper (rc_pricing cfg) (rq_gin rq) price_range now promptTokens meta));
  match priced with
  | Err e => mret (Some (Some (NewError e ErrorCodeModelPriceError [ErrOptionWithStatusCode StatusBadRequest])))
  | Ok priceData =>
      paid ← (if FreeModel priceData then mret (Ok tt)
              else on_ps (fun ps => let '(r, c') := PreConsumeBilling tokenQuota (QuotaToPreConsume priceData) (ps_ctx ps) in
                                    (Ok r, ps <| ps_ctx := c' |>)));
      match paid with
      | Err e => mret (Some (Some e))
      | Ok _ => relay_attempts rq turns fuel
      end
  end.
End relay.
