(* ===== verification/ErrorProofs.v ===== *)
(** * Facts about relay errors

    What the constructors of an error agree on, and what happens to an error for which
    the upstream charges. *)

From S2P Require Import Prelude GoStd GoFloat QuotaMath ApiError StatusCodes World BillingSession Pricing RelayLoop.
Import GoStrings.

Section errors.
Context (format_g : F64.float64 -> string) (MaskSensitiveInfo : string -> string).
#[local] Abbreviation Normalize := (NormalizeViolationFeeError format_g MaskSensitiveInfo).
#[local] Abbreviation charged := (shouldChargeViolationFee format_g MaskSensitiveInfo).

Inductive standard_option : Option_ -> Prop :=
| skip_option : standard_option ErrOptionWithSkipRetry
| record_option : standard_option ErrOptionWithNoRecordErrorLog
| status_option statusCode : standard_option (ErrOptionWithStatusCode statusCode).

(** The errors that the code builds. *)
Inductive built : NewAPIError -> Prop :=
| built_plain e code ops : Forall standard_option ops -> built (NewError (GPlain e) code ops)
| built_clamp c code ops : Forall standard_option ops -> built (NewError (GClamp c) code ops)
| built_again e code ops : built e -> Forall standard_option ops -> built (NewError (as_error e) code ops)
| built_status err code statusCode ops : Forall standard_option ops ->
    built (NewErrorWithStatusCode err code statusCode ops)
| built_openai o statusCode ops : Forall standard_option ops -> built (WithOpenAIError o statusCode ops)
| built_claude o statusCode ops : Forall standard_option ops -> built (WithClaudeError o statusCode ops)
| built_init code statusCode ops : Forall standard_option ops -> built (InitOpenAIError code statusCode ops)
| built_wrapped e code statusCode ops : built e -> Forall standard_option ops ->
    built (NewOpenAIError format_g (as_error e) code statusCode ops)
| built_upstream err code statusCode ops : Forall standard_option ops ->
    match err with GApi _ _ _ _ _ _ _ => False | _ => True end -> built (NewOpenAIError format_g err code statusCode ops)
| built_normalized e : built e -> built (Normalize e).

(** The payload fits the type, and an OpenAI payload has the code of the error. *)
Definition well_typed (e : NewAPIError) : Prop :=
  (ae_errorType e = ErrorTypeOpenAIError /\ exists o, ae_RelayError e = REOpenAI o /\ ae_errorCode e = code_text (oe_Code o)) \/
  (ae_errorType e = ErrorTypeClaudeError /\ exists o, ae_RelayError e = REClaude o /\ ae_errorCode e = ce_Type o) \/
  ae_errorType e = ErrorTypeNewAPIError.

Lemma options_keep ops e : Forall standard_option ops ->
  let e' := apply_options ops e in
  ae_Err e' = ae_Err e /\ ae_RelayError e' = ae_RelayError e /\ ae_errorType e' = ae_errorType e /\
  ae_errorCode e' = ae_errorCode e.
Proof.
  intros Hops. cbv zeta. revert e. induction Hops as [|op ops Hop Hops IH]; intros e; [done|].
  unfold apply_options. simpl. destruct (IH (op e)) as (E1 & E2 & E3 & E4). unfold apply_options in *.
  rewrite E1, E2, E3, E4. by destruct Hop.
Qed.
Lemma well_typed_options ops e : Forall standard_option ops -> well_typed e -> well_typed (apply_options ops e).
Proof. intros Hops. destruct (options_keep ops e Hops) as (_ & E2 & E3 & E4). unfold well_typed. by rewrite E2, E3, E4. Qed.
Lemma WithOpenAIError_typed o statusCode ops : Forall standard_option ops -> well_typed (WithOpenAIError o statusCode ops).
Proof.
  intros Hops. apply well_typed_options; [done|]. left. split; [done|]. eexists. split; [done|]. simpl.
  by repeat case_decide.
Qed.
Lemma Normalize_typed e : well_typed e -> well_typed (Normalize e).
Proof.
  intros He. unfold NormalizeViolationFeeError, WrapAsViolationFeeGrokCSAM.
  repeat case_match; try done; apply WithOpenAIError_typed; by repeat constructor.
Qed.
Lemma built_typed e : built e -> well_typed e.
Proof.
  induction 1 as [e code ops Hops|c code ops Hops|e code ops He IH Hops|err code st ops Hops|o st ops Hops|o st ops Hops
    |code st ops Hops|e code st ops He IH Hops|err code st ops Hops Herr|e He IH].
  - apply well_typed_options; [done|]. by right; right.
  - apply well_typed_options; [done|]. by right; right.
  - apply well_typed_options; [done|]. by destruct e.
  - apply well_typed_options; [done|]. by right; right.
  - by apply WithOpenAIError_typed.
  - apply well_typed_options; [done|]. right; left. split; [done|]. by eexists.
  - by apply WithOpenAIError_typed.
  - apply well_typed_options; [done|].
    destruct IH as [(E1 & o & E2 & E3)|[(E1 & o & E2 & E3)|E1]]; simpl; rewrite ?E2.
    + left. split; [done|]. by exists o.
    + right; left. split; [done|]. by exists o.
    + by right; right.
  - destruct err; [by apply WithOpenAIError_typed|by apply WithOpenAIError_typed|done].
  - by apply Normalize_typed.
Qed.

(** The code that an error has for its client. *)
Lemma ToOpenAIError_code e : well_typed e -> code_text (oe_Code (ToOpenAIError format_g MaskSensitiveInfo e)) = ae_errorCode e.
Proof.
  intros [(E1 & o & E2 & E3)|[(E1 & o & E2 & E3)|E1]]; unfold ToOpenAIError, openai_payload.
  - by rewrite decide_True, E2 by done.
  - by rewrite decide_False, decide_True, E2 by (rewrite E1; done).
  - by rewrite !decide_False by (rewrite E1; done).
Qed.
Lemma normal_code o statusCode ops : Forall standard_option ops ->
  ae_errorCode (WithOpenAIError o statusCode ops) = code_text (oe_Code o).
Proof.
  intros Hops. unfold WithOpenAIError.
  match goal with |- context [apply_options ops ?e] => destruct (options_keep ops e Hops) as (_ & _ & _ & ->) end.
  simpl. by repeat case_decide.
Qed.
Lemma normalized_cases e : well_typed e ->
  (HasCSAMViolationMarker format_g MaskSensitiveInfo e = true /\ ae_errorCode (Normalize e) = ErrorCodeViolationFeeGrokCSAM /\
   ae_skipRetry (Normalize e) = true /\ ae_StatusCode (Normalize e) = ae_StatusCode e) \/
  (HasCSAMViolationMarker format_g MaskSensitiveInfo e = false /\ IsViolationFeeCode (ae_errorCode e) = true /\
   ae_errorCode (Normalize e) = ae_errorCode e /\ ae_skipRetry (Normalize e) = true /\
   ae_StatusCode (Normalize e) = ae_StatusCode e) \/
  (HasCSAMViolationMarker format_g MaskSensitiveInfo e = false /\ IsViolationFeeCode (ae_errorCode e) = false /\
   Normalize e = e).
Proof.
  intros He. unfold NormalizeViolationFeeError, WrapAsViolationFeeGrokCSAM.
  destruct (HasCSAMViolationMarker _ _ e); [left|right; destruct (IsViolationFeeCode _) eqn:Ec; [left|by right]].
  - split; [done|]. split; [|done]. apply normal_code. by repeat constructor.
  - split; [done|]. split; [done|]. split; [|done]. rewrite normal_code by by repeat constructor. by apply ToOpenAIError_code.
Qed.
Lemma violation_not_channel code : IsViolationFeeCode code = true -> HasPrefix code "channel:" = false.
Proof.
  unfold IsViolationFeeCode, HasPrefix, ViolationFeeCodePrefix. destruct code as [|a code]; [done|]. simpl.
  destruct (decide (Ascii.Ascii false true true false true true true false = a)) as [<-|]; [done|].
  by repeat case_decide.
Qed.

(** C31 Every error value that the code builds carries the payload of its type, with the
    code of the error, and so does its normal form.  The normal form of an error for which
    the upstream charges has the code under which the fee is charged and is charged for
    again; it keeps its status, and no setting, group or remaining retry makes the request
    try another channel.  Any other error is its own normal form. *)
Theorem violation_errors_final e : built e ->
  well_typed e /\ well_typed (Normalize e) /\ ae_StatusCode (Normalize e) = ae_StatusCode e /\
  (charged e = true -> ae_errorCode (Normalize e) = ErrorCodeViolationFeeGrokCSAM /\ charged (Normalize e) = true) /\
  (charged e = true \/ IsViolationFeeCode (ae_errorCode e) = true ->
   forall cfg rq retryTimes, shouldRetry cfg rq (Normalize e) retryTimes = false) /\
  (charged e = false -> IsViolationFeeCode (ae_errorCode e) = false -> Normalize e = e).
Proof.
  intros Hb. pose proof (built_typed e Hb) as He. split; [done|]. split; [by apply Normalize_typed|].
  pose proof (normalized_cases e He) as Hn. unfold shouldChargeViolationFee.
  assert (Hstop : IsViolationFeeCode (ae_errorCode (Normalize e)) = true -> ae_skipRetry (Normalize e) = true ->
    forall cfg rq k, shouldRetry cfg rq (Normalize e) k = false).
  { intros Hc Hs cfg rq k. unfold shouldRetry, IsChannelError, IsSkipRetryError.
    rewrite (violation_not_channel _ Hc), Hs. by destruct (rq_affinitySkipsRetry rq). }
  destruct Hn as [(Em & Ec & Es & Et)|[(Em & Ev & Ec & Es & Et)|(Em & Ev & ->)]]; rewrite ?Em.
  - split; [done|]. split; [intros _; by rewrite decide_True|]. split; [|by case_decide].
    intros _. apply Hstop; [by rewrite Ec|done].
  - split; [done|]. split; [|split; [|by rewrite Ev]].
    + case_decide as Eg; [|done]. intros _. rewrite Ec. split; [done|]. by rewrite decide_True.
    + intros _. apply Hstop; [by rewrite Ec|done].
  - split; [done|]. split; [|split; [|done]].
    + case_decide as Eg; [|done]. rewrite Eg in Ev. done.
    + case_decide as Eg; [rewrite Eg in Ev; done|]. rewrite Ev. by intros [?|?].
Qed.
End errors.

Lemma violation_errors_final_witness :
  let e := InitOpenAIError "bad_response_status_code" 400 [] in
  let marked := NewErrorWithStatusCode (GPlain (ErrNew "Failed check: SAFETY_CHECK_TYPE_CSAM")) "bad_response" 403 [] in
  NormalizeViolationFeeError (fun _ => "") (fun s => s) e = e /\
  ae_errorCode (NormalizeViolationFeeError (fun _ => "") (fun s => s) marked) = ErrorCodeViolationFeeGrokCSAM.
Proof.
  split.
  - refine (proj2 (proj2 (proj2 (proj2 (proj2 (violation_errors_final (fun _ => "") (fun s => s) _ _))))) _ _);
      [apply built_init; constructor|by vm_compute|by vm_compute].
  - refine (proj1 (proj1 (proj2 (proj2 (proj2 (violation_errors_final (fun _ => "") (fun s => s) _ _)))) _));
      [apply built_status; constructor|by vm_compute].
Defined.
