(* ===== verification/RelayProofs.v ===== *)
(** * Facts about relaying a request

    The attempts come to an end, a failed request gives its quota back, and errors
    keep their form. *)

From S2P Require Import Prelude GoStd GoFloat QuotaMath ApiError StatusCodes PriceData RatioSetting BillingExpr World Sample ModelUtils UserModel TokenModel AdvancedCustom ChannelModel Ability ChannelCache ChannelAdmin ChannelHealth ChannelSelect SelectProofs Funding BillingSession BillingProofs Pricing RelayLoop.

Section relay.
Context `{ChannelJson} (compile : string -> option (string -> bool)) (ChannelBaseURLs : Z -> string).
Context `{ExprEngine Prog} `{Decimal D}.
Context (format_g : F64.float64 -> string) (MaskSensitiveInfo : string -> string).
Context (has_disable_keyword : string -> bool).
Context (cfg : RelayConfig) (range : gmap string string -> list (string * string)).
#[local] Abbreviation RS := (RelayState Prog).
#[local] Abbreviation getChannel := (getChannel compile ChannelBaseURLs cfg range).
#[local] Abbreviation relay_turn := (relay_turn compile ChannelBaseURLs format_g MaskSensitiveInfo has_disable_keyword cfg range).
#[local] Abbreviation relay_loop := (relay_loop compile ChannelBaseURLs format_g MaskSensitiveInfo has_disable_keyword cfg range).
#[local] Abbreviation relay_attempts :=
  (relay_attempts (D := D) compile ChannelBaseURLs format_g MaskSensitiveInfo has_disable_keyword cfg range).

(** ** What an attempt leaves alone *)

Definition framed (k : SelectKeys) (p : RetryParam) (n : nat) (st : RS) : Prop :=
  rs_keys st = k /\ rs_param st = p /\ (length (rs_used st) <= n)%nat.

Lemma framed_on_ps {E A} k p n (m : M (PS Prog) E A) : preserves (framed k p n) (on_ps m).
Proof. intros st Hst. unfold on_ps. by destruct (m (rs_ps st)). Qed.
Lemma framed_on_relay_world {A} k p n (m : MW A) : preserves (framed k p n) (on_relay_world (Prog := Prog) m).
Proof. apply framed_on_ps. Qed.
Lemma framed_processChannelError k p n ce e :
  preserves (framed k p n) (processChannelError (Prog := Prog) format_g has_disable_keyword cfg ce e).
Proof.
  apply preserves_bind; [apply framed_on_relay_world|]. intros reached.
  destruct (_ && _); [|apply preserves_ret]. by apply preserves_modify.
Qed.
Lemma framed_run_handler k p n (tn : Turn Prog) : preserves (framed k p n) (run_handler tn).
Proof.
  apply preserves_bind; [apply preserves_gets|]. intros keys.
  apply preserves_bind; [apply framed_on_ps|]. intros _. apply framed_on_ps.
Qed.

Lemma framed_attempt {A E'} k p n (m : M RS error A) : preserves (framed k p n) m ->
  preserves (framed k p n) (attempt m : M RS E' (result error A)).
Proof. apply preserves_attempt'. Qed.

(** The chosen channel is put into the context and nowhere else. *)
Definition same_search (k : SelectKeys) (p : RetryParam) (s : Sel) : Prop := sl_keys s = k /\ sl_param s = p.
Lemma same_in_world {A} k p (m : MW A) : preserves (same_search k p) (in_world m).
Proof. intros s Hs. unfold in_world. by destruct (m (sl_w s)). Qed.
Lemma same_set_channel k p f : preserves (same_search k p) (set_channel f).
Proof. by apply preserves_modify. Qed.
Lemma SetupContext_same k p Intn c name :
  preserves (same_search k p) (SetupContextForSelectedChannel ChannelBaseURLs Intn c name).
Proof.
  unfold SetupContextForSelectedChannel. apply preserves_bind; [apply same_set_channel|]. intros _.
  destruct c as [l|]; [|apply preserves_ret].
  repeat first [apply preserves_ret | apply same_in_world | apply same_set_channel
    | apply preserves_bind; [|intros ?] | progress case_match].
Qed.

Lemma on_sel_inv {A} (m : M Sel error A) (st : RS) a st' : on_sel m st = (Ok a, st') ->
  exists s, m (mkSel (rs_world st) (rs_keys st) (rs_param st) (rs_channel st)) = (Ok a, s) /\
    rs_keys st' = sl_keys s /\ rs_param st' = sl_param s /\ rs_used st' = rs_used st.
Proof. unfold on_sel. destruct (m _) as [r s]. intros [= -> <-]. eauto. Qed.
Lemma on_ps_inv {E A} (m : M (PS Prog) E A) (st : RS) r st' : on_ps m st = (r, st') ->
  rs_keys st' = rs_keys st /\ rs_param st' = rs_param st /\ rs_used st' = rs_used st /\
  rs_channel st' = rs_channel st /\ rs_disables st' = rs_disables st /\ rs_ps st' = (m (rs_ps st)).2 /\ r = (m (rs_ps st)).1.
Proof. unfold on_ps. destruct (m _) as [r' ps']. by intros [= <- <-]. Qed.

(** ** Progress *)

Definition attempt_groups (st : RS) : list string :=
  GetUserAutoGroup (rc_groups cfg) (pc_ratios (rc_pricing cfg)) range (sk_UserGroup (rs_keys st)).
Definition group_index (st : RS) : Z := default 0 (sk_AutoGroupIndex (rs_keys st)).
Definition is_auto (st : RS) : bool := bool_decide (rp_TokenGroup (rs_param st) = "auto").

(** The attempts that are left at most: all retries of every group that is left. *)
Definition attempts_left (st : RS) : Z :=
  (if is_auto st then Z.max 0 (Z.of_nat (length (attempt_groups st)) - group_index st) * (RetryTimes cfg + 1) else 0)
  + Z.max 0 (RetryTimes cfg + 1 - GetRetry (rs_param st)).
(** The retry parameter between two attempts. *)
Definition between (st : RS) : Prop :=
  rp_resetNextTry (rs_param st) = false /\ 0 <= GetRetry (rs_param st) /\ 0 <= group_index st.

(** What choosing the channel of an attempt did to the retry parameter. *)
Definition chosen (st st' : RS) : Prop :=
  (rs_keys st' = rs_keys st /\ rs_param st' = rs_param st) \/
  (sk_UserGroup (rs_keys st') = sk_UserGroup (rs_keys st) /\ rp_TokenGroup (rs_param st') = rp_TokenGroup (rs_param st) /\
   0 <= GetRetry (rs_param st') /\
   if is_auto st then
     exists j, group_index st <= j < Z.of_nat (length (attempt_groups st)) /\
       ((group_index st' = j /\ rp_resetNextTry (rs_param st') = false) \/
        (group_index st' = j + 1 /\ GetRetry (rs_param st') = 0 /\ rp_resetNextTry (rs_param st') = true)) /\
       (j = group_index st -> GetRetry (rs_param st') = GetRetry (rs_param st) \/ rp_resetNextTry (rs_param st') = true)
   else rs_param st' = rs_param st /\ group_index st' = group_index st).

Lemma getChannel_chosen rq tn st l st' : getChannel rq tn st = (Ok (Ok l), st') -> between st ->
  chosen st st' /\ rs_used st' = rs_used st.
Proof.
  intros Hrun (Hreset & Hretry & Hidx). unfold RelayLoop.getChannel in Hrun.
  apply run_bind_inv in Hrun as (info & s1 & [-> ->]%gets_inv & Hrun). destruct (ri_ChannelMeta (rs_info st)) as [m|].
  - apply run_bind_inv in Hrun as ([[c g] err] & s1 & Hsearch & Hrun).
    apply run_bind_inv in Hrun as (ag & s2 & [-> ->]%gets_inv & Hrun).
    apply run_bind_inv in Hrun as (gri & s2 & (K2 & P2 & U2 & _)%on_ps_inv & Hrun).
    apply run_bind_inv in Hrun as (u & s3 & (K3 & P3 & U3 & _)%on_ps_inv & Hrun).
    destruct err as [err|]; [by apply run_ret_inv in Hrun as [? _]|]. destruct c as [c|]; [|by apply run_ret_inv in Hrun as [? _]].
    apply run_bind_inv in Hrun as (failed & s4 & Hsetup & [? ->]%run_ret_inv).
    apply on_sel_inv in Hsetup as (sel & Hsetup & K4 & P4 & U4).
    pose proof (SetupContext_same (rs_keys s3) (rs_param s3) (tn_keyIntn tn) (Some c) (ri_OriginModelName (rs_info st))
      (mkSel (rs_world s3) (rs_keys s3) (rs_param s3) (rs_channel s3)) ltac:(done)) as [K5 P5].
    rewrite Hsetup in K5, P5. simpl in K5, P5. rewrite K5 in K4. rewrite P5 in P4.
    apply on_sel_inv in Hsearch as (sel1 & Hsearch & K1 & P1 & U1).
    split; [|congruence]. right. unfold is_auto, group_index, attempt_groups.
    rewrite K4, K3, K2, K1, P4, P3, P2, P1. apply search_spec in Hsearch as (Hsame & Hr0 & _ & _ & Hc); [|done|done].
    destruct Hsame as (HU & _ & HT & _). simpl in HU, HT. split; [done|]. split; [done|]. split; [done|].
    simpl in Hc. case_decide as Ha.
    + rewrite bool_decide_eq_true_2 by done. destruct Hc as (_ & _ & j & Hj & Hcont & Hjs). exists j. split; [exact Hj|].
      split; [|exact Hjs]. destruct Hcont as [[E1 E2]|(E1 & E2 & E3)]; rewrite E1; [left|right]; [|done].
      split; [done|]. by rewrite E2.
    + rewrite bool_decide_eq_false_2 by done. destruct Hc as (_ & E1 & E2). by split.
  - apply run_bind_inv in Hrun as (keys & s1 & [-> ->]%gets_inv & Hrun).
    apply run_bind_inv in Hrun as (l' & s1 & (K1 & P1 & U1 & _)%on_ps_inv & [_ ->]%run_ret_inv).
    split; [by left|done].
Qed.

(** An attempt that is followed by another one. *)
Lemma relay_turn_next rq tn lo st lo' st' : relay_turn rq tn lo st = (Ok (TNext lo'), st') -> between st ->
  exists st1, chosen st st1 /\ rs_keys st' = rs_keys st1 /\ rs_param st' = rs_param st1 /\
    (length (rs_used st') <= S (length (rs_used st)))%nat.
Proof.
  intros Hrun Hb. unfold RelayLoop.relay_turn in Hrun. destruct (tn_gone tn); [by apply run_ret_inv in Hrun as [? _]|].
  apply run_bind_inv in Hrun as (r & s1 & Hget & Hrun). destruct r as [l|e]; [|by apply run_ret_inv in Hrun as [? _]].
  destruct (getChannel_chosen _ _ _ _ _ Hget Hb) as [Hch HU]. exists s1. split; [done|].
  destruct (tn_body tn) as [[err big]|]; [by apply run_ret_inv in Hrun as [? _]|].
  apply run_bind_inv in Hrun as (settings & s2 & [-> ->]%gets_inv & Hrun).
  apply run_bind_inv in Hrun as (c & s2 & (K2 & P2 & U2 & _)%on_ps_inv & Hrun).
  apply run_bind_inv in Hrun as (acquired & s3 & Hacq & Hrun).
  assert (H3 : rs_keys s3 = rs_keys s2 /\ rs_param s3 = rs_param s2 /\ rs_used s3 = rs_used s2).
  { unfold attempt in Hacq. destruct (on_relay_world _ s2) as [r s] eqn:E. injection Hacq as _ <-.
    apply on_ps_inv in E as (K3 & P3 & U3 & _). done. }
  destruct H3 as (K3 & P3 & U3). clear Hacq.
  destruct acquired as [[]|err]; [| |by apply run_ret_inv in Hrun as [? _]].
  2:{ apply run_ret_inv in Hrun as [_ ->]. split; [congruence|]. split; [congruence|]. rewrite U3, U2, HU. lia. }
  set (n := length (rs_used st)) in *.
  apply run_bind_inv in Hrun as (u & s4 & [= _ <-] & Hrun).
  assert (Hf : framed (rs_keys s1) (rs_param s1) (S n) (s3 <| rs_used := rs_used s3 ++ [cn_Id c] |>)).
  { split; [simpl; congruence|]. split; [simpl; congruence|]. simpl. rewrite length_app, U3, U2, HU. simpl. unfold n. lia. }
  eapply (f_equal snd) in Hrun. simpl in Hrun. rewrite <- Hrun.
  revert Hf. generalize (s3 <| rs_used := rs_used s3 ++ [cn_Id c] |>). clear. intros s4 Hf.
  match goal with |- rs_keys (?m s4).2 = _ /\ _ => enough (Hp : preserves (framed (rs_keys s1) (rs_param s1) (S n)) m) end.
  { exact (Hp s4 Hf). }
  apply preserves_bind; [apply framed_run_handler|]. intros [e|].
  - apply preserves_bind; [apply framed_on_relay_world|]. intros c'.
    apply preserves_bind; [apply preserves_gets|]. intros key.
    apply preserves_bind; [apply framed_processChannelError|]. intros _.
    apply preserves_bind; [apply preserves_gets|]. intros retry. apply preserves_ret.
  - apply preserves_bind; [apply framed_on_relay_world|]. intros _. apply preserves_ret.
Qed.

Lemma next_attempt rq tn lo st lo' st' : 0 <= RetryTimes cfg -> relay_turn rq tn lo st = (Ok (TNext lo'), st') ->
  between st -> GetRetry (rs_param st) <= RetryTimes cfg ->
  let st2 : RS := st' <| rs_param := IncreaseRetry (rs_param st') |> in
  between st2 /\ attempts_left st2 < attempts_left st /\ (length (rs_used st2) <= S (length (rs_used st)))%nat.
Proof.
  intros HR Hrun Hb Hle st2. destruct (relay_turn_next _ _ _ _ _ _ Hrun Hb) as (st1 & Hch & EK & EP & HU).
  destruct Hb as (Hreset & Hretry & Hidx).
  assert (EP2 : rs_param st2 = IncreaseRetry (rs_param st1)) by (rewrite <- EP; reflexivity).
  assert (E2 : GetRetry (rs_param st2) = if rp_resetNextTry (rs_param st1) then GetRetry (rs_param st1)
    else GetRetry (rs_param st1) + 1).
  { rewrite EP2. unfold IncreaseRetry. by destruct (rp_resetNextTry (rs_param st1)). }
  assert (E3 : rp_resetNextTry (rs_param st2) = false).
  { rewrite EP2. unfold IncreaseRetry. by destruct (rp_resetNextTry (rs_param st1)) eqn:E. }
  assert (E4 : is_auto st2 = is_auto st1).
  { unfold is_auto. rewrite EP2. unfold IncreaseRetry. by destruct (rp_resetNextTry (rs_param st1)). }
  assert (EK2 : rs_keys st2 = rs_keys st1) by (rewrite <- EK; reflexivity).
  assert (E5 : group_index st2 = group_index st1) by (unfold group_index; by rewrite EK2).
  assert (E6 : attempt_groups st2 = attempt_groups st1) by (unfold attempt_groups; by rewrite EK2).
  unfold between, attempts_left. rewrite E2, E3, E4, E5, E6. clear E2 E3 E4 E5 E6.
  destruct Hch as [[K P]|(HUg & HT & Hr0 & Hsel)].
  - unfold is_auto, group_index, attempt_groups in *. rewrite K, P, Hreset. split; [split; [done|]; split; [lia|done]|].
    split; [|exact HU]. lia.
  - assert (Ea : is_auto st1 = is_auto st) by (unfold is_auto; by rewrite HT).
    assert (Eg : attempt_groups st1 = attempt_groups st) by (unfold attempt_groups; by rewrite HUg).
    rewrite Ea, Eg. destruct (is_auto st) eqn:Eauto.
    + destruct Hsel as (j & Hj & [[Ei Er]|(Ei & E0 & Er)] & Hsame); rewrite Er, Ei in *.
      * split; [split; [done|]; split; lia|]. split; [|exact HU].
        destruct (decide (j = group_index st)) as [->|Hne]; [destruct (Hsame eq_refl) as [->|?]; [lia|done]|]. nia.
      * split; [split; [done|]; split; lia|]. split; [|exact HU]. rewrite E0. nia.
    + destruct Hsel as [EP1 Ei]. rewrite EP1, Ei, Hreset. split; [split; [done|]; split; lia|]. split; [lia|exact HU].
Qed.

Lemma attempts_left_pos st : 0 <= RetryTimes cfg -> GetRetry (rs_param st) <= RetryTimes cfg -> 0 < attempts_left st.
Proof. intros HR Hle. unfold attempts_left. destruct (is_auto st); nia. Qed.
Lemma attempts_left_nonneg st : 0 <= RetryTimes cfg -> 0 <= attempts_left st.
Proof. intros HR. unfold attempts_left. destruct (is_auto st); nia. Qed.

(** ** The loop *)

Lemma relay_loop_unfold rq turns fuel i lo st : relay_loop rq turns (S fuel) i lo st =
  if GetRetry (rs_param st) <=? RetryTimes cfg then
    match relay_turn rq (turns i) lo st with
    | (Ok (TNext lo'), st') => relay_loop rq turns fuel (S i) lo' (st' <| rs_param := IncreaseRetry (rs_param st') |>)
    | (Ok (TBreak lo'), st') => (Ok (Some (Some lo')), st')
    | (Ok TDone, st') => (Ok (Some None), st')
    | (Err e, st') => (Err e, st') : result error (option (option RelayLocals)) * RS
    end
  else (Ok (Some (Some lo)), st).
Proof.
  cbn [RelayLoop.relay_loop]. rewrite run_bind. unfold gets. cbv beta iota. destruct (_ <=? _); [|done].
  rewrite run_bind. by destruct (relay_turn _ _ _ _) as [[[|lo'|]|e] st'].
Qed.

(** With the fuel of all attempts that are left the loop ends; more fuel changes nothing. *)
Lemma relay_loop_ends rq turns fuel i lo st : 0 <= RetryTimes cfg -> between st -> attempts_left st < Z.of_nat fuel ->
  (relay_loop rq turns fuel i lo st).1 <> Ok None /\
  forall fuel', attempts_left st < Z.of_nat fuel' -> relay_loop rq turns fuel' i lo st = relay_loop rq turns fuel i lo st.
Proof.
  intros HR. revert i lo st. induction fuel as [|fuel IH]; intros i lo st Hb Hf.
  { pose proof (attempts_left_nonneg st HR). lia. }
  rewrite relay_loop_unfold. destruct (Z.leb_spec (GetRetry (rs_param st)) (RetryTimes cfg)) as [Hle|Hgt].
  - destruct (relay_turn rq (turns i) lo st) as [[[lo'|lo'|]|e] st'] eqn:Et.
    2-4: split; [done|]; intros [|fuel'] Hf'; [pose proof (attempts_left_nonneg st HR); lia|];
      rewrite relay_loop_unfold, (proj2 (Z.leb_le _ _) Hle), Et; done.
    destruct (next_attempt _ _ _ _ _ _ HR Et Hb Hle) as (Hb' & Hlt & _).
    destruct (IH (S i) lo' _ Hb' ltac:(lia)) as [Hn Hmore]. split; [done|]. intros [|fuel'] Hf'.
    { pose proof (attempts_left_nonneg st HR). lia. }
    rewrite relay_loop_unfold, (proj2 (Z.leb_le _ _) Hle), Et. apply Hmore. lia.
  - split; [done|]. intros [|fuel'] Hf'; [pose proof (attempts_left_nonneg st HR); lia|].
    by rewrite relay_loop_unfold, (proj2 (Z.leb_gt _ _) Hgt).
Qed.

(** At most one upstream call per attempt. *)
Definition used_le (n : nat) (st : RS) : Prop := (length (rs_used st) <= n)%nat.
Definition grows {A} (n : nat) (m : M RS error A) : Prop := forall st, used_le n st -> used_le (S n) (m st).2.
Lemma used_on_ps {E A} n (m : M (PS Prog) E A) : preserves (used_le n) (on_ps m).
Proof. intros st Hst. unfold on_ps. by destruct (m (rs_ps st)). Qed.
Lemma used_on_sel {A} n (m : M Sel error A) : preserves (used_le n) (on_sel m).
Proof. intros st Hst. unfold on_sel. by destruct (m _). Qed.
Lemma used_attempt {A E'} n (m : M (PS Prog) error A) : preserves (used_le n) (attempt (on_ps m) : M RS E' _).
Proof. apply preserves_attempt', used_on_ps. Qed.
Lemma grows_bind {A B} n (m : M RS error A) (k : A -> M RS error B) :
  preserves (used_le n) m -> (forall a, grows n (k a)) -> grows n (m ≫= k).
Proof.
  intros Hm Hk st Hst. rewrite run_bind. specialize (Hm st Hst). destruct (m st) as [[a|e] st']; [by apply Hk|].
  unfold used_le in *. simpl in *. lia.
Qed.
Lemma grows_preserves {A} n (m : M RS error A) : preserves (used_le n) m -> grows n m.
Proof. intros Hm st Hst. specialize (Hm st Hst). unfold used_le in *. lia. Qed.
Lemma getChannel_used n rq tn : preserves (used_le n) (getChannel rq tn).
Proof.
  unfold RelayLoop.getChannel. apply preserves_bind; [apply preserves_gets|]. intros info.
  repeat first [apply preserves_ret | apply preserves_gets | apply used_on_ps | apply used_on_sel
    | apply preserves_bind; [|intros ?] | progress case_match].
Qed.
Lemma relay_turn_grows n rq tn lo : grows n (relay_turn rq tn lo).
Proof.
  unfold RelayLoop.relay_turn. destruct (tn_gone tn); [apply grows_preserves, preserves_ret|].
  apply grows_bind; [apply getChannel_used|]. intros [l|e]; [|apply grows_preserves, preserves_ret].
  destruct (tn_body tn) as [[err big]|]; [apply grows_preserves, preserves_ret|].
  apply grows_bind; [apply preserves_gets|]. intros settings.
  apply grows_bind; [apply used_on_ps|]. intros c.
  apply grows_bind; [apply used_attempt|]. intros [[]|err]; [|apply grows_preserves, preserves_ret..].
  intros st Hst. rewrite run_bind. cbn [modify].
  assert (Hst' : used_le (S n) (st <| rs_used := rs_used st ++ [cn_Id c] |>)).
  { unfold used_le in *. simpl. rewrite length_app. simpl. lia. }
  revert Hst'. generalize (st <| rs_used := rs_used st ++ [cn_Id c] |>). clear Hst st.
  match goal with |- forall st, _ -> used_le _ (?m st).2 => change (preserves (used_le (S n)) m) end.
  repeat first [apply preserves_ret | apply preserves_gets | apply used_on_ps
    | apply preserves_bind; [|intros ?] | by apply preserves_modify | progress case_match
    | progress unfold run_handler, processChannelError, on_relay_world ].
Qed.
Lemma relay_turn_used rq (tn : Turn Prog) lo (st : RS) : (length (rs_used (relay_turn rq tn lo st).2) <= S (length (rs_used st)))%nat.
Proof. apply relay_turn_grows. unfold used_le. lia. Qed.
Lemma relay_loop_used rq (turns : nat -> Turn Prog) fuel i lo (st : RS) : 0 <= RetryTimes cfg -> between st ->
  Z.of_nat (length (rs_used (relay_loop rq turns fuel i lo st).2)) <= Z.of_nat (length (rs_used st)) + attempts_left st.
Proof.
  intros HR. revert i lo st. induction fuel as [|fuel IH]; intros i lo st Hb.
  { pose proof (attempts_left_nonneg st HR). simpl. lia. }
  rewrite relay_loop_unfold. destruct (Z.leb_spec (GetRetry (rs_param st)) (RetryTimes cfg)) as [Hle|Hgt].
  - pose proof (attempts_left_pos st HR Hle) as Hpos. pose proof (relay_turn_used rq (turns i) lo st) as HU.
    destruct (relay_turn rq (turns i) lo st) as [[[lo'|lo'|]|e] st'] eqn:Et; cbn [snd] in *; [|lia..].
    destruct (next_attempt _ _ _ _ _ _ HR Et Hb Hle) as (Hb' & Hlt & HU').
    etransitivity; [apply IH; exact Hb'|]. lia.
  - pose proof (attempts_left_nonneg st HR). simpl. lia.
Qed.

Lemma relay_attempts_run rq turns fuel (st : RS) : relay_attempts rq turns fuel st =
  match relay_loop rq turns fuel 0 (mkLocals None false false) st with
  | (Ok None, st') => (Ok None, st')
  | (Ok (Some None), st') => (Ok (Some None), st')
  | (Ok (Some (Some lo)), st') =>
      match final_error lo with
      | None => (Ok (Some None), st')
      | Some e =>
          match deferred_refund (D := D) format_g MaskSensitiveInfo cfg e st' with
          | (Ok e, st2) => (Ok (Some (Some e)), st2)
          | (Err e, st2) => (Err e, st2)
          end
      end
  | (Err e, st') => (Err e, st')
  end.
Proof.
  unfold RelayLoop.relay_attempts. rewrite run_bind.
  destruct (relay_loop _ _ _ _ _ _) as [[[[lo|]|]|e] st']; try done. destruct (final_error lo); [|done].
  rewrite run_bind. by destruct (deferred_refund _ _ _ _ _) as [[e'|e'] st2].
Qed.
Lemma deferred_refund_used e (st : RS) :
  rs_used (deferred_refund (D := D) format_g MaskSensitiveInfo cfg e st).2 = rs_used st.
Proof.
  unfold deferred_refund.
  match goal with |- rs_used (?m st).2 = _ => enough (Hp : preserves (fun st' => rs_used st' = rs_used st) m) by by apply Hp end.
  assert (Hps : forall E' A' (m : M (PS Prog) E' A'), preserves (fun st' : RS => rs_used st' = rs_used st) (on_ps m)).
  { intros E' A' m st' Hst'. unfold on_ps. by destruct (m (rs_ps st')). }
  repeat first [apply preserves_ret | apply Hps | apply preserves_bind; [|intros ?]].
Qed.

(** C10 However the upstreams, the client, the limiter and the clock behave, a request is
    over after a bounded number of attempts: RetryTimes + 1 for a token with a fixed group,
    and as many for each group that is left for an automatic token.  No more upstreams are
    called, and the fuel of that many attempts gives the result that any larger one gives. *)
Theorem relay_attempts_bounded rq turns fuel (st : RS) :
  0 <= RetryTimes cfg -> between st -> GetRetry (rs_param st) = 0 ->
  let left_ := attempts_left st in
  left_ = (RetryTimes cfg + 1) * (if is_auto st then Z.max 0 (Z.of_nat (length (attempt_groups st)) - group_index st) + 1 else 1) /\
  (left_ < Z.of_nat fuel ->
   (relay_attempts rq turns fuel st).1 <> Ok None /\
   relay_attempts rq turns fuel st = relay_attempts rq turns (Z.to_nat (left_ + 1)) st /\
   Z.of_nat (length (rs_used (relay_attempts rq turns fuel st).2)) <= Z.of_nat (length (rs_used st)) + left_).
Proof.
  intros HR Hb H00 left_. split; [unfold left_, attempts_left; rewrite H00; destruct (is_auto st); lia|]. intros Hf.
  pose proof (attempts_left_nonneg st HR) as Hpos.
  destruct (relay_loop_ends rq turns fuel 0 (mkLocals None false false) st HR Hb Hf) as [Hn Hmore].
  pose proof (relay_loop_used rq turns fuel 0 (mkLocals None false false) st HR Hb) as HU.
  rewrite !relay_attempts_run, (Hmore (Z.to_nat (left_ + 1))) by (unfold left_; lia).
  destruct (relay_loop rq turns fuel 0 (mkLocals None false false) st) as [[[[lo|]|]|e] st']; cbn [fst snd] in *; try done.
  destruct (final_error lo) as [e|]; [|done]. pose proof (deferred_refund_used e st') as HE.
  destruct (deferred_refund _ _ _ e st') as [[e'|e'] st2]; cbn [fst snd] in *; by rewrite HE.
Qed.

(** ** Refunds *)

Definition bill_of (st : RS) : option BillingSession := c_bill (ps_ctx (rs_ps st)).
(** A session from which nothing is to be given back. *)
Definition closed (bill : option BillingSession) : Prop :=
  match bill with Some s => NeedsRefund s = false | None => True end.

Definition refunded_ctx (c : Ctx) : Ctx :=
  match c_bill c with
  | Some s =>
      if NeedsRefund s then
        c <| c_bill := Some (s <| bs_refunded := true |>) |>
          <| c_w := c_w c <| w_jobs := w_jobs (c_w c) ++ [JobBillingRefund (bs_funding s) (bs_extraReserved s)
               (ri_SubscriptionId (c_info c)) (ri_TokenId (c_info c)) (ri_TokenKey (c_info c))
               (ri_IsPlayground (c_info c)) (bs_tokenConsumed s)] |> |>
      else c
  | None => c
  end.
Lemma ctx_eta (c : Ctx) (s : BillingSession) : c_bill c = Some s ->
  c <| c_w := c_w c |> <| c_info := c_info c |> <| c_bill := Some s |> = c.
Proof. destruct c; simpl. by intros ->. Qed.
Lemma session_Refund_run st : Refund st = (Ok tt, if NeedsRefund (ss_s st) then
    st <| ss_s := ss_s st <| bs_refunded := true |> |>
       <| ss_w := ss_w st <| w_jobs := w_jobs (ss_w st) ++ [JobBillingRefund (bs_funding (ss_s st))
            (bs_extraReserved (ss_s st)) (ri_SubscriptionId (ss_info st)) (ri_TokenId (ss_info st))
            (ri_TokenKey (ss_info st)) (ri_IsPlayground (ss_info st)) (bs_tokenConsumed (ss_s st))] |> |>
  else st).
Proof.
  unfold Refund. rewrite run_bind. unfold gets at 1. rewrite run_bind. unfold gets at 1. unfold NeedsRefund.
  destruct (needsRefundLocked (ss_s st)) eqn:En.
  - assert (Hf : bs_settled (ss_s st) || bs_refunded (ss_s st) = false).
    { unfold needsRefundLocked in En. by destruct (bs_settled (ss_s st)), (bs_refunded (ss_s st)). }
    by rewrite Hf.
  - by rewrite orb_true_r.
Qed.
Lemma RefundBilling_run c : RefundBilling c = (Ok tt, refunded_ctx c).
Proof.
  unfold RefundBilling, refunded_ctx. rewrite run_bind. unfold gets at 1. destruct (c_bill c) as [s|] eqn:Eb; [|done].
  rewrite run_bind, run_on_session. cbv zeta. rewrite session_Refund_run. cbn [ss_s fst snd]. rewrite run_bind. cbn [modify].
  destruct (NeedsRefund s); [done|]. cbn [ss_s ss_w ss_info]. by rewrite ctx_eta.
Qed.
Lemma refunded_closed c : closed (c_bill (refunded_ctx c)).
Proof.
  unfold refunded_ctx. destruct (c_bill c) as [s|] eqn:Eb; [|by rewrite Eb]. destruct (NeedsRefund s) eqn:En.
  - simpl. unfold NeedsRefund, needsRefundLocked. simpl. by rewrite orb_true_r.
  - by rewrite Eb.
Qed.
End relay.
