(* ===== verification/RelayMoney.v ===== *)
(** * What a relayed request costs

    Routing never touches the money: whatever channels are tried, a request whose
    upstreams all fail gives back exactly what was taken for it. *)

From S2P Require Import Prelude GoStd GoFloat QuotaMath ApiError StatusCodes PriceData RatioSetting BillingExpr World Sample ModelUtils UserModel TokenModel AdvancedCustom ChannelModel Ability ChannelCache ChannelAdmin ChannelHealth ChannelSelect SelectProofs Funding BillingSession BillingProofs Pricing RelayLoop RelayProofs.

(** Through a computation, call by call. *)
Ltac walk := repeat first [progress (auto with preserves) | apply preserves_attempt' | apply preserves_ignore'
  | apply preserves_bind; [|intros ?] | progress case_match].

(** ** Routing leaves the ledger alone *)

(** The users, the tokens and their pending changes, and the queued work, of a process
    whose calls succeed. *)
Definition ledger_same (w w' : World) : Prop :=
  d_users (w_db w') = d_users (w_db w) /\ d_tokens (w_db w') = d_tokens (w_db w) /\
  w_batch w' = w_batch w /\ w_jobs w' = w_jobs w /\ w_faults w' = [].

Section ledger.
Context `{ChannelJson} (compile : string -> option (string -> bool)) (w0 : World).
#[local] Abbreviation kept := (ledger_same w0).

Lemma kept_ext : preserves kept ext_call.
Proof. intros w Hw. rewrite ext_call_ok by apply Hw. exact Hw. Qed.
Lemma kept_find {A} h (q : DB -> A) : preserves kept (db_find h q).
Proof. apply preserves_bind; [apply kept_ext|]. intros; apply preserves_gets. Qed.
Lemma kept_first {A} h (q : DB -> option A) : preserves kept (db_first h q).
Proof. apply preserves_bind; [apply kept_find|]. intros [a|]; auto with preserves. Qed.
Lemma kept_routing (f : Routing -> Routing) : preserves kept (modify (fun w => w <| w_routing := f (w_routing w) |>) : MW unit).
Proof. by apply preserves_modify. Qed.
Lemma kept_exec f : (forall d, d_users (f d) = d_users d) -> (forall d, d_tokens (f d) = d_tokens d) ->
  preserves kept (db_exec HDB f).
Proof.
  intros Hu Ht. apply preserves_bind; [apply kept_ext|]. intros _. apply preserves_modify.
  intros w (E1 & E2 & E3). unfold ledger_same. simpl. by rewrite Hu, Ht.
Qed.
Lemma kept_new_channel c : preserves kept (new_channel c).
Proof. by intros w Hw. Qed.
Lemma kept_assign l f : preserves kept (assign l f).
Proof. apply (kept_routing (fun r => r <| rt_heap := alter f l (rt_heap r) |>)). Qed.
Lemma kept_SaveChannel l : preserves kept (SaveChannel l).
Proof. apply preserves_bind; [apply preserves_gets|]. intros c. by apply kept_exec. Qed.
Lemma kept_SaveChannelInfo l : preserves kept (SaveChannelInfo l).
Proof. apply preserves_bind; [apply preserves_gets|]. intros c. by apply kept_exec. Qed.
#[local] Hint Resolve kept_find kept_first kept_new_channel kept_assign kept_SaveChannel kept_SaveChannelInfo
  preserves_ignore' preserves_attempt' : preserves.
#[local] Hint Extern 1 (preserves _ (deref _)) => apply preserves_gets : preserves.

Lemma kept_GetOtherSettings l : preserves kept (GetOtherSettings l).
Proof. unfold GetOtherSettings. walk. Qed.
Lemma kept_GetSetting l : preserves kept (GetSetting l).
Proof. unfold GetSetting. walk. Qed.
#[local] Hint Resolve kept_GetOtherSettings kept_GetSetting : preserves.
Lemma kept_configs channels configs : preserves kept (advanced_configs channels configs).
Proof. revert configs. induction channels as [|c channels IH]; intros configs; simpl; walk. Qed.
#[local] Hint Resolve kept_configs : preserves.
Lemma kept_GetChannel Intn group model retry path : preserves kept (GetChannel compile Intn group model retry path).
Proof.
  unfold GetChannel, filterAbilitiesByRequestPathAndModel, order_abilities, getChannelQuery, getPriority. walk.
Qed.
#[local] Hint Resolve kept_GetChannel : preserves.
Lemma kept_choice Intn group model retry path :
  preserves kept (GetRandomSatisfiedChannel compile Intn group model retry path).
Proof. unfold GetRandomSatisfiedChannel. walk. Qed.
Lemma kept_next_key Intn l : preserves kept (GetNextEnabledKey Intn l).
Proof. unfold GetNextEnabledKey, CacheGetChannelInfo, CacheGetChannel, GetChannelById. walk. Qed.
Lemma kept_acquire s id : preserves kept (TryAcquireChannelRequestForContext s id).
Proof.
  unfold TryAcquireChannelRequestForContext, TryAcquireChannelRequest, redisAcquire.
  repeat first [apply kept_ext | progress (auto with preserves) | apply preserves_bind; [|intros ?] | progress case_match].
  all: intros w Hw; try done. unfold localAcquire. cbv zeta. by case_match.
Qed.
Lemma kept_failure id : preserves kept (RecordChannelHealthFailure id).
Proof.
  unfold RecordChannelHealthFailure. case_match; [apply preserves_ret|].
  apply preserves_bind; [apply preserves_gets|]. intros now. apply preserves_bind; [apply preserves_gets|]. intros s.
  apply preserves_bind; [by apply preserves_modify|]. intros _. apply preserves_ret.
Qed.
End ledger.

(** ** The attempts *)

(** A step that ends well leaves a state as described. *)
Definition yields {S E A} (I : S -> Prop) (Q : A -> S -> Prop) (m : M S E A) : Prop :=
  forall st, I st -> match m st with (Ok a, st') => Q a st' | (Err _, _) => True end.
Lemma yields_bind {S E A B} I (J : S -> Prop) (Q : B -> S -> Prop) (m : M S E A) (k : A -> M S E B) :
  yields I (fun _ => J) m -> (forall a, yields J Q (k a)) -> yields I Q (m ≫= k).
Proof.
  intros Hm Hk st Hst. specialize (Hm st Hst). rewrite run_bind. destruct (m st) as [[a|e] st']; [by apply Hk|done].
Qed.
Lemma yields_preserves {S E A} (I : S -> Prop) (m : M S E A) : preserves I m -> yields I (fun _ => I) m.
Proof. intros Hm st Hst. specialize (Hm st Hst). by destruct (m st) as [[]]. Qed.

Section relay.
Context `{ChannelJson} (compile : string -> option (string -> bool)) (ChannelBaseURLs : Z -> string).
Context `{ExprEngine Prog} `{Decimal D}.
Context (format_g : F64.float64 -> string) (MaskSensitiveInfo : string -> string).
Context (has_disable_keyword : string -> bool).
Context (cfg : RelayConfig) (range : gmap string string -> list (string * string)).
#[local] Abbreviation RS := (RelayState Prog).
#[local] Abbreviation getChannel := (getChannel compile ChannelBaseURLs cfg range).
#[local] Abbreviation relay_turn := (relay_turn compile ChannelBaseURLs format_g MaskSensitiveInfo has_disable_keyword cfg range).
#[local] Abbreviation relay_loop := (relay_loop compile ChannelBaseURLs format_g MaskSensitiveInfo has_disable_keyword cfg range).
#[local] Abbreviation relay_attempts :=
  (relay_attempts (D := D) compile ChannelBaseURLs format_g MaskSensitiveInfo has_disable_keyword cfg range).

(** The session, the payer and the ledger are as in [c]. *)
Definition unspent (c c' : Ctx) : Prop :=
  c_bill c' = c_bill c /\ same_identity (c_info c) (c_info c') /\ ledger_same (c_w c) (c_w c').
Lemma unspent_refl c : w_faults (c_w c) = [] -> unspent c c.
Proof. by repeat split. Qed.
Lemma unspent_trans c1 c2 c3 : unspent c1 c2 -> unspent c2 c3 -> unspent c1 c3.
Proof. unfold unspent, same_identity, ledger_same. intuition congruence. Qed.
Lemma unspent_billing c c' : unspent c c' -> same_billing c c'.
Proof.
  intros (Hb & Hid & Hu & Ht & Hp & _). split; [done|]. split; [done|].
  unfold same_wallets, wallet, token_remain, pending, select_quota, select_remain, live_user, live_token.
  rewrite Hu, Ht, Hp. done.
Qed.

Section kept.
Context (c0 : Ctx).
Definition unspent_rs (st : RS) : Prop := unspent c0 (ps_ctx (rs_ps st)).

Lemma rs_world_step {A} (m : MW A) : preserves (ledger_same (c_w c0)) m -> preserves unspent_rs (on_relay_world m).
Proof.
  intros Hm st (Hb & Hid & Hw). specialize (Hm _ Hw). unfold on_relay_world, on_ps, on_world, liftC.
  unfold unspent_rs, unspent. destruct (m (c_w (ps_ctx (rs_ps st)))) as [r w']. done.
Qed.
Lemma rs_sel_step {A} (m : M Sel error A) : preserves (fun s => ledger_same (c_w c0) (sl_w s)) m -> preserves unspent_rs (on_sel m).
Proof.
  intros Hm st (Hb & Hid & Hw). unfold on_sel, unspent_rs, unspent.
  specialize (Hm (mkSel (rs_world st) (rs_keys st) (rs_param st) (rs_channel st)) Hw). by destruct (m _) as [r s].
Qed.
Lemma rs_ps_step {E A} (m : M (PS Prog) E A) : preserves (fun ps => unspent c0 (ps_ctx ps)) m ->
  preserves unspent_rs (on_ps m).
Proof. intros Hm st Hst. specialize (Hm _ Hst). unfold on_ps. by destruct (m (rs_ps st)). Qed.
Lemma info_step {E} f : (forall i, same_identity i (f i)) ->
  preserves (fun ps : PS Prog => unspent c0 (ps_ctx ps)) (set_ps_info (E := E) f).
Proof.
  intros Hf ps (Hb & Hid & Hw). split; [done|]. split; [|done]. cbn.
  specialize (Hf (c_info (ps_ctx ps))). unfold same_identity, ps_info in *. intuition congruence.
Qed.
Lemma rs_ratio_step {E} g : preserves unspent_rs (on_ps (HandleGroupRatio (E := E) (rc_pricing cfg) g)).
Proof.
  apply rs_ps_step. unfold HandleGroupRatio. apply preserves_bind.
  - repeat case_match; first [apply preserves_ret | by apply info_step].
  - intros _. apply preserves_bind; [apply preserves_gets|]. intros info. case_match. apply preserves_ret.
Qed.
Lemma sel_world_step {A} (m : MW A) : preserves (ledger_same (c_w c0)) m ->
  preserves (fun s => ledger_same (c_w c0) (sl_w s)) (in_world m).
Proof. intros Hm s Hs. specialize (Hm _ Hs). unfold in_world. by destruct (m (sl_w s)). Qed.

#[local] Hint Resolve sel_world_step kept_choice kept_next_key kept_GetSetting kept_GetOtherSettings : preserves.
#[local] Hint Extern 1 (preserves _ (in_world (deref _))) => apply sel_world_step, preserves_gets : preserves.
#[local] Hint Extern 1 (preserves _ (in_world (IsChannelCoolingDown _))) => apply sel_world_step, preserves_gets : preserves.
#[local] Hint Extern 1 (preserves _ (set_keys _)) => by apply preserves_modify : preserves.
#[local] Hint Extern 1 (preserves _ (set_param _)) => by apply preserves_modify : preserves.
#[local] Hint Extern 1 (preserves _ (set_channel _)) => by apply preserves_modify : preserves.
Lemma auto_loop_kept rs start groups i Intn :
  preserves (fun s => ledger_same (c_w c0) (sl_w s)) (auto_loop compile rs (RetryTimes cfg) Intn start groups i).
Proof. revert i. induction groups as [|g groups IH]; intros i; cbn [auto_loop]; walk. Qed.
#[local] Hint Resolve auto_loop_kept : preserves.
Lemma search_kept Intn : preserves (fun s => ledger_same (c_w c0) (sl_w s))
  (CacheGetRandomSatisfiedChannel compile (rc_groups cfg) (pc_ratios (rc_pricing cfg)) range (RetryTimes cfg) Intn).
Proof. unfold CacheGetRandomSatisfiedChannel. walk. Qed.
Lemma setup_kept Intn l name : preserves (fun s => ledger_same (c_w c0) (sl_w s))
  (SetupContextForSelectedChannel ChannelBaseURLs Intn l name).
Proof. unfold SetupContextForSelectedChannel. walk. Qed.

Lemma getChannel_kept rq tn : preserves unspent_rs (getChannel rq tn).
Proof.
  unfold RelayLoop.getChannel. apply preserves_bind; [apply preserves_gets|]. intros info.
  repeat first [apply preserves_ret | apply preserves_gets | apply rs_ratio_step | apply rs_sel_step, search_kept
    | apply rs_sel_step, setup_kept | apply rs_world_step, kept_new_channel
    | apply rs_ps_step, info_step; by repeat split | apply preserves_bind; [|intros ?] | progress case_match].
Qed.
Lemma processChannelError_kept ce e :
  preserves unspent_rs (processChannelError (Prog := Prog) format_g has_disable_keyword cfg ce e).
Proof.
  apply preserves_bind; [apply rs_world_step, kept_failure|]. intros reached.
  case_match; [by apply preserves_modify|apply preserves_ret].
Qed.

(** A handler that fails has charged nothing. *)
Definition fails_free (tn : Turn Prog) : Prop :=
  forall ps e ps', tn_handler tn ps = (Some e, ps') -> w_faults (c_w (ps_ctx ps)) = [] -> unspent (ps_ctx ps) (ps_ctx ps').

Lemma run_handler_yields tn : fails_free tn ->
  yields unspent_rs (fun r st => match r with Some _ => unspent_rs st | None => True end) (run_handler tn).
Proof.
  intros Hfree. unfold run_handler. apply (yields_bind _ unspent_rs); [apply yields_preserves, preserves_gets|]. intros keys.
  apply (yields_bind _ unspent_rs); [apply yields_preserves, rs_ps_step, info_step; by repeat split|]. intros _ st Hst.
  unfold on_ps. destruct (tn_handler tn (rs_ps st)) as [[e|] ps'] eqn:E; [|done].
  eapply unspent_trans; [exact Hst|]. apply (Hfree _ e _ E). apply Hst.
Qed.
Lemma relay_turn_yields rq tn lo : fails_free tn ->
  yields unspent_rs (fun r st => match r with TDone => True | _ => unspent_rs st end) (relay_turn rq tn lo).
Proof.
  intros Hfree. unfold RelayLoop.relay_turn. destruct (tn_gone tn); [by intros st Hst|].
  apply (yields_bind _ unspent_rs); [apply yields_preserves, getChannel_kept|]. intros [l|e]; [|by intros st Hst].
  destruct (tn_body tn) as [[err big]|]; [by intros st Hst|].
  apply (yields_bind _ unspent_rs); [apply yields_preserves, preserves_gets|]. intros settings.
  apply (yields_bind _ unspent_rs); [apply yields_preserves, rs_world_step, preserves_gets|]. intros c.
  apply (yields_bind _ unspent_rs).
  { apply yields_preserves, preserves_attempt', rs_world_step, kept_acquire. }
  intros [[]|err]; [|by intros st Hst..].
  apply (yields_bind _ unspent_rs); [apply yields_preserves; by apply preserves_modify|]. intros _ st Hst.
  rewrite run_bind. pose proof (run_handler_yields tn Hfree st Hst) as Hh.
  destruct (run_handler tn st) as [[[e|]|err] st1]; [| |done].
  - revert Hh. generalize st1. clear. intros st1 Hst.
    match goal with |- match ?m st1 with _ => _ end => enough (Hp : yields unspent_rs (fun r st => match r with TDone => True | _ => unspent_rs st end) m) by by apply Hp end.
    apply (yields_bind _ unspent_rs); [apply yields_preserves, rs_world_step, preserves_gets|]. intros c'.
    apply (yields_bind _ unspent_rs); [apply yields_preserves, preserves_gets|]. intros key.
    apply (yields_bind _ unspent_rs); [apply yields_preserves, processChannelError_kept|]. intros _.
    apply (yields_bind _ unspent_rs); [apply yields_preserves, preserves_gets|]. intros retry st Hs.
    simpl. destruct (tn_gone_after tn); [done|]. by destruct (_ || _).
  - rewrite run_bind. by destruct (on_relay_world _ st1) as [[]].
Qed.
Lemma relay_loop_yields rq turns fuel i lo : (forall i, fails_free (turns i)) ->
  yields unspent_rs (fun r st => match r with Some (Some _) => unspent_rs st | _ => True end) (relay_loop rq turns fuel i lo).
Proof.
  intros Hfree. revert i lo. induction fuel as [|fuel IH]; intros i lo st Hst; [done|]. rewrite relay_loop_unfold.
  destruct (_ <=? _); [|done]. pose proof (relay_turn_yields rq (turns i) lo (Hfree i) st Hst) as Ht.
  destruct (relay_turn rq (turns i) lo st) as [[[lo'|lo'|]|e] st']; try done. by apply IH.
Qed.
End kept.

(** The error is not one for which the upstream charges. *)
Definition free_of_fees (e : NewAPIError) : Prop :=
  shouldChargeViolationFee format_g MaskSensitiveInfo e && ViolationDeductionEnabled (rc_violation cfg) = false.
Lemma ChargeViolationFee_free settings e c :
  shouldChargeViolationFee format_g MaskSensitiveInfo e && ViolationDeductionEnabled settings = false ->
  ChargeViolationFeeIfNeeded (D := D) format_g MaskSensitiveInfo settings e c = (Ok false, c).
Proof.
  intros Hf. unfold ChargeViolationFeeIfNeeded. destruct (shouldChargeViolationFee _ _ e); [|done].
  simpl in Hf. by rewrite Hf.
Qed.
Lemma deferred_refund_free e e' (st st2 : RS) : deferred_refund (D := D) format_g MaskSensitiveInfo cfg e st = (Ok e', st2) ->
  free_of_fees e' -> ps_ctx (rs_ps st2) = (RefundBilling (ps_ctx (rs_ps st))).2.
Proof.
  intros Hrun Hfree. unfold deferred_refund in Hrun. rewrite RefundBilling_run.
  apply run_bind_inv in Hrun as (u & s1 & HR1 & Hrun). apply run_bind_inv in Hrun as (b & s2 & HR2 & [-> ->]%run_ret_inv).
  apply on_ps_inv in HR1 as (_ & _ & _ & _ & _ & E1 & _). apply on_ps_inv in HR2 as (_ & _ & _ & _ & _ & E2 & _).
  unfold ignore_err in E1. rewrite RefundBilling_run in E1. cbn [snd] in E1.
  rewrite E2, ChargeViolationFee_free by exact Hfree. rewrite E1. by destruct (rs_ps st).
Qed.

End relay.
