(* ===== verification/PricingProofs.v ===== *)
(** * Facts about pricing

    Bounds of the quota to pre-consume, free and unpriced models, and the
    agreement of a tiered settlement with its estimate. *)

From Stdlib Require Import SpecFloat.
From S2P Require Import Prelude GoStd GoFloat QuotaMath PriceData RatioSetting BillingExpr World Sample ModelUtils UserModel Funding ApiError BillingSession BillingProofs Pricing.
Import F64Valid.

(** A float a price may contain: canonical and not negative. *)
Definition price_ok (x : F64.float64) : Prop := F64.valid64 x /\ not_neg x = true.

Lemma price_ok_mul x y : price_ok x -> price_ok y -> price_ok (F64.mul x y).
Proof. intros [] []. split; auto with float. Qed.
Lemma price_ok_of_Z z : 0 <= z -> price_ok (F64.of_Z z).
Proof. split; auto with float. Qed.
#[local] Hint Resolve price_ok_mul price_ok_of_Z : float.

Lemma strict_price x op q :
  price_ok x -> Quota.strictQuota (Quota.saturateQuota x op) = Ok q -> 0 <= q < Quota.MaxQuota.
Proof.
  intros [Hv Hn] Hq. apply Quota.strict_saturate_ok in Hq as [-> ?]; [|done].
  split; [by apply to_Z_not_neg|lia].
Qed.

(** The refusal names the conversion. *)
Lemma strict_op x op k :
  Quota.strictQuota (Quota.saturateQuota x op) = Err k -> Quota.Op k = op.
Proof.
  unfold Quota.strictQuota, Quota.saturateQuota. repeat case_match; intros; by simplify_eq/=.
Qed.

(** The configured prices. *)
Record settings_ok (rs : RatioSettings) : Prop := {
  so_price : map_Forall (fun _ => price_ok) (modelPriceMap rs);
  so_ratio : map_Forall (fun _ => price_ok) (modelRatioMap rs);
  so_group : map_Forall (fun _ => price_ok) (groupRatioMap rs);
  so_special : map_Forall (fun _ m => map_Forall (fun _ => price_ok) m) (groupGroupRatioMap rs);
}.

Section proofs.
Context `{ExprEngine Prog} (cfg : PricingConfig) (g : GinContext)
  (range : gmap string F64.float64 -> list (string * F64.float64)).
Implicit Types st : PS Prog.

Lemma GetModelPrice_ok name p :
  settings_ok (pc_ratios cfg) -> GetModelPrice (pc_ratios cfg) name = (p, true) -> price_ok p.
Proof.
  intros [Hp _ _ _]. unfold GetModelPrice. cbv zeta.
  destruct (modelPriceMap _ !! FormatMatchingModelName name) as [x|] eqn:E1.
  { intros [= <-]. exact (Hp _ _ E1). }
  destruct (GoStrings.HasSuffix _ _); [|done].
  destruct (modelPriceMap _ !! CompactWildcardModelKey) as [x|] eqn:E2; [|done].
  intros [= <-]. exact (Hp _ _ E2).
Qed.

Lemma GetModelRatio_ok name : settings_ok (pc_ratios cfg) -> price_ok (GetModelRatio (pc_ratios cfg) name).1.1.
Proof.
  intros [_ Hr _ _]. unfold GetModelRatio. cbv zeta.
  destruct (modelRatioMap _ !! FormatMatchingModelName name) as [x|] eqn:E1; [exact (Hr _ _ E1)|].
  destruct (GoStrings.HasSuffix _ _); [|done].
  destruct (modelRatioMap _ !! CompactWildcardModelKey) as [x|] eqn:E2; [exact (Hr _ _ E2)|done].
Qed.

(** What choosing the group leaves. *)
Lemma HandleGroupRatio_run {E} st :
  exists gri st1, (HandleGroupRatio cfg g : M (PS Prog) E _) st = (Ok gri, st1) /\
    (settings_ok (pc_ratios cfg) -> price_ok (GroupRatio gri)) /\ ps_cache st1 = ps_cache st /\
    exists grp, ps_ctx st1 = ps_ctx st <| c_info := ps_info st <| ri_UsingGroup := grp |> |>.
Proof.
  unfold HandleGroupRatio. rewrite run_bind.
  set (m := match gk_auto_group g with Some (Some _) => _ | _ => _ end).
  assert (Hm : exists grp, m st = (Ok tt, (st <| ps_ctx := ps_ctx st
                  <| c_info := ps_info st <| ri_UsingGroup := grp |> |> |> : PS Prog))).
  { assert (Hid : m st = (Ok tt, st) -> exists grp, m st = (Ok tt, (st <| ps_ctx := ps_ctx st
                  <| c_info := ps_info st <| ri_UsingGroup := grp |> |> |> : PS Prog))).
    { intros ->. exists (ri_UsingGroup (ps_info st)). by destruct st as [[w [] b] c]. }
    unfold m in *. destruct (gk_auto_group g) as [[group|]|]; [|by apply Hid|by apply Hid].
    case_decide; [|by apply Hid]. by exists group. }
  destruct Hm as [grp ->]. rewrite run_bind. cbn [gets].
  set (st1 := (_ : PS Prog)).
  destruct (GetGroupGroupRatio _ _ _) as [x ok] eqn:Ex.
  eexists _, st1. split; [reflexivity|]. split; [|split; [done|by exists grp]].
  intros [_ _ Hg Hs]. destruct ok; simpl.
  - unfold GetGroupGroupRatio in Ex.
    destruct (groupGroupRatioMap _ !! _) as [m1|] eqn:E1; [|done].
    destruct (m1 !! _) as [y|] eqn:E2; [|done]. injection Ex as <-.
    exact (Hs _ _ E1 _ _ E2).
  - unfold GetGroupRatio. destruct (groupRatioMap _ !! _) as [y|] eqn:E1; [|done].
    exact (Hg _ _ E1).
Qed.

Lemma not_configured_run {A} name uid st :
  exists e st1, (not_configured name uid : M (PS Prog) go_error A) st = (Err (GPlain e), st1) /\
    w_db (c_w (ps_ctx st1)) = w_db (c_w (ps_ctx st)) /\ ps_info st1 = ps_info st /\
    c_bill (ps_ctx st1) = c_bill (ps_ctx st).
Proof.
  unfold not_configured, modelPriceNotConfiguredError. rewrite run_bind, run_bind.
  unfold map_err, on_world, liftC, IsAdmin.
  destruct (uid =? 0); [eexists _, _; split; [reflexivity|done]|].
  rewrite run_bind. unfold attempt, db_find. rewrite run_bind. unfold ext_call.
  destruct (w_faults (c_w (ps_ctx st))) as [|[msg|] fs]; eexists _, _; (split; [reflexivity|done]).
Qed.

Lemma map_err_inv {S E E' A} (f : E -> E') (m : M S E A) s a s' :
  map_err f m s = (Ok a, s') -> m s = (Ok a, s').
Proof. unfold map_err. destruct (m s) as [[x|e] s1]; [by intros [= -> ->]|done]. Qed.
Lemma of_result_inv {S E A} (r : result E A) (s s' : S) a :
  of_result r s = (Ok a, s') -> r = Ok a /\ s' = s.
Proof. by intros [= -> ->]. Qed.

(** What pricing by ratio leaves: the quota of the estimated tokens, or one of
    the two errors. *)
Lemma price_by_ratio_run info n meta gri st :
  settings_ok (pc_ratios cfg) -> price_ok (GroupRatio gri) ->
  0 <= PreConsumedQuota cfg -> 0 <= MaxTokens meta ->
  match price_by_ratio cfg info n meta gri st with
  | (Ok pd, st1) => st1 = st /\ 0 <= QuotaToPreConsume pd < Quota.MaxQuota
  | (Err e, st1) =>
      w_db (c_w (ps_ctx st1)) = w_db (c_w (ps_ctx st)) /\ ps_info st1 = ps_info st /\
      match e with
      | GPlain _ => (GetModelRatio (pc_ratios cfg) (ri_OriginModelName info)).1.2 = false /\
                    ri_AcceptUnsetRatioModel info = false
      | GClamp k => Quota.Op k = "QuotaFromFloat"
      | GApi _ _ _ _ _ _ _ => False
      end
  end.
Proof.
  intros Hs Hg Hp Hm. unfold price_by_ratio.
  pose proof (GetModelRatio_ok (ri_OriginModelName info) Hs) as Hr.
  destruct (GetModelRatio _ _) as [[ratio success] matchName]. cbn [fst snd] in Hr |- *.
  rewrite run_bind. destruct (negb success && _) eqn:Hc.
  { destruct (not_configured_run (A := unit) matchName (ri_UserId info) st) as (e & st2 & -> & Hd & Hi & _).
    bools. by destruct success. }
  cbn [mret M_ret]. rewrite run_bind. unfold map_err, of_result.
  destruct (Quota.QuotaFromFloatStrict _) as [q|k] eqn:E.
  - cbn [mret M_ret]. split; [done|]. cbn. apply (strict_price _ _ _) in E; [done|].
    apply price_ok_mul; [apply price_ok_of_Z|by apply price_ok_mul].
    destruct (n >=? _) eqn:E1, (MaxTokens meta =? 0) eqn:E'; bools; lia.
  - split; [done|]. split; [done|].
    by apply strict_op in E.
Qed.

Lemma multiplier_ok p : ratios_ok p -> iterates range ->
  (forall k x, otherRatios p !! k = Some x -> F64.valid64 x) -> price_ok (OtherRatioMultiplier range p).
Proof.
  intros Hok Hr Hv. unfold OtherRatioMultiplier.
  assert (Hl : forall kv, kv ∈ range (otherRatios p) -> price_ok kv.2).
  { intros [k x] Hkv. rewrite (Hr _) in Hkv. apply elem_of_map_to_list in Hkv. split; [by eapply Hv|].
    pose proof (Hok k x Hkv) as Hx. unfold ratio_ok, isValidOtherRatio in Hx. bools.
    by destruct x as [s|[]| |[] m e]. }
  assert (H1 : price_ok F64.one) by (by apply price_ok_of_Z). revert Hl H1.
  generalize F64.one as acc. generalize (range (otherRatios p)) as l. intros l.
  induction l as [|kv l IH]; intros acc Hl Hacc; simpl; [done|].
  apply IH; [intros; apply Hl; by right|]. destruct (applies kv.2); [|done].
  apply price_ok_mul; [done|]. apply Hl. by left.
Qed.

(** The price data of a model priced per call, once its extra ratios are added. *)
Lemma add_ratios_ok l p :
  ratios_ok p -> (forall k x, otherRatios p !! k = Some x -> F64.valid64 x) ->
  (forall kv, kv ∈ l -> F64.valid64 kv.2) ->
  let p' := fold_left (fun p kv => AddOtherRatio p kv.1 kv.2) l p in
  ratios_ok p' /\ (forall k x, otherRatios p' !! k = Some x -> F64.valid64 x) /\
  FreeModel p' = FreeModel p.
Proof.
  revert p. induction l as [|[k1 x1] l IH]; intros p Hok Hv Hl; simpl; [done|].
  destruct (IH (AddOtherRatio p k1 x1)) as (H1 & H2 & H3).
  - by apply AddOtherRatio_ok.
  - intros k x. unfold AddOtherRatio. destruct (negb _); [apply Hv|]. simpl.
    destruct (decide (k = k1)) as [->|Hk].
    + rewrite lookup_insert_eq. intros [= <-]. apply (Hl (k1, x1)). by left.
    + rewrite lookup_insert_ne by done. apply Hv.
  - intros kv Hkv. apply Hl. by right.
  - split; [done|]. split; [done|]. rewrite H3. unfold AddOtherRatio. by destruct (negb _).
Qed.

(** The configured and requested numbers are canonical and not negative. *)
Record inputs_ok (meta : TokenCountMeta) (perUnit : F64.float64) : Prop := {
  io_settings : settings_ok (pc_ratios cfg);
  io_floor : 0 <= PreConsumedQuota cfg;
  io_max : 0 <= MaxTokens meta;
  io_image : price_ok (ImagePriceRatio meta);
  io_ratios : map_Forall (fun _ => F64.valid64) (BillingRatios meta);
  io_unit : price_ok perUnit;
  io_range : iterates range;
}.

(** The result of [ModelPriceHelper] outside tiered billing, from a state [st]. *)
Definition priced (st : PS Prog) (r : result go_error PriceData) (st' : PS Prog) : Prop :=
  match r with
  | Ok pd => c_w (ps_ctx st') = c_w (ps_ctx st) /\ ri_PriceData (ps_info st') = pd /\
             0 <= QuotaToPreConsume pd < Quota.MaxQuota /\
             (FreeModel pd = true -> QuotaToPreConsume pd = 0)
  | Err e => w_db (c_w (ps_ctx st')) = w_db (c_w (ps_ctx st)) /\
             ri_PriceData (ps_info st') = ri_PriceData (ps_info st) /\
             match e with
             | GPlain _ =>
                 let name := ri_OriginModelName (ps_info st) in
                 (GetModelPrice (pc_ratios cfg) name).2 = false /\
                 (GetModelRatio (pc_ratios cfg) name).1.2 = false /\
                 ri_AcceptUnsetRatioModel (ps_info st) = false
             | GClamp k => Quota.Op k = "QuotaFromFloat"
             | GApi _ _ _ _ _ _ _ => False
             end
  end.

(** The amount of a model priced per call. *)
Definition call_amount (p : PriceData) (price perUnit group : F64.float64) : F64.float64 :=
  ApplyOtherRatiosToFloat range p (F64.mul (F64.mul price perUnit) group).

Lemma call_amount_ok p price perUnit group :
  ratios_ok p -> (forall k x, otherRatios p !! k = Some x -> F64.valid64 x) -> iterates range ->
  price_ok price -> price_ok perUnit -> price_ok group -> price_ok (call_amount p price perUnit group).
Proof.
  intros. apply price_ok_mul; [by repeat apply price_ok_mul|by apply multiplier_ok].
Qed.
Lemma call_amount_free p price perUnit group :
  F64.eqb group F64.zero || F64.eqb price F64.zero = true -> vanishes (call_amount p price perUnit group).
Proof.
  intros Hz. apply mul_vanishes. left. apply mul_vanishes.
  apply orb_true_iff in Hz as [Hz|Hz]; apply eqb_vanishes in Hz; [by right|left].
  apply mul_vanishes. by left.
Qed.

Lemma ModelPriceHelper_run now n meta st :
  GetBillingMode (pc_ratios cfg) (ri_OriginModelName (ps_info st)) <> BillingModeTieredExpr ->
  inputs_ok meta (QuotaPerUnit (w_cfg (c_w (ps_ctx st)))) ->
  let '(r, st') := ModelPriceHelper cfg g range now n meta st in priced st r st'.
Proof.
  intros Hmode [Hs Hfl Hmx Him Hra Hun Hrg]. unfold ModelPriceHelper. rewrite run_bind. cbn [gets].
  set (name := ri_OriginModelName (ps_info st)) in *.
  pose proof (GetModelPrice_ok name) as Hprice.
  destruct (GetModelPrice (pc_ratios cfg) name) as [price usePrice] eqn:Egp.
  rewrite run_bind.
  destruct (HandleGroupRatio_run (E := go_error) st) as (gri & st1 & -> & Hg & Hcache & grp & Hctx).
  specialize (Hg Hs).
  rewrite decide_False by done. rewrite run_bind.
  assert (Hw1 : c_w (ps_ctx st1) = c_w (ps_ctx st)) by (by rewrite Hctx).
  assert (Hi1 : ri_PriceData (ps_info st1) = ri_PriceData (ps_info st)) by (unfold ps_info; by rewrite Hctx).
  destruct usePrice; cbn [negb].
  - specialize (Hprice price Hs eq_refl). cbn [mret M_ret].
    set (price' := if true && negb (F64.eqb (ImagePriceRatio meta) F64.zero)
                   then F64.mul price (ImagePriceRatio meta) else price).
    assert (Hp' : price_ok price') by (unfold price'; destruct (_ && _); [by apply price_ok_mul|done]).
    match goal with |- context [fold_left _ (range (BillingRatios meta)) ?x] => set (pd0 := x) end.
    destruct (add_ratios_ok (range (BillingRatios meta)) pd0) as (Hok & Hval & Hfree).
    { intros k x. simpl. by rewrite lookup_empty. }
    { intros k x. simpl. by rewrite lookup_empty. }
    { intros [k x] Hkv. rewrite (Hrg _) in Hkv. apply elem_of_map_to_list in Hkv. exact (Hra _ _ Hkv). }
    set (pd := fold_left (fun p kv => AddOtherRatio p kv.1 kv.2) (range (BillingRatios meta)) pd0) in *.
    rewrite run_bind, run_bind. cbn [gets]. rewrite run_bind. unfold map_err, of_result.
    rewrite Hw1. set (amount := ApplyOtherRatiosToFloat _ _ _).
    destruct (Quota.QuotaFromFloatStrict amount) as [q|k] eqn:Eq.
    + cbn. split; [done|]. split; [done|]. split.
      * apply (strict_price _ _ _) in Eq; [done|]. by apply call_amount_ok.
      * intros Hf. change (FreeModel pd = true) in Hf. rewrite Hfree in Hf. simpl in Hf.
        unfold is_free in Hf. bools.
        eapply Quota.strict_zero; [|exact Eq]. by apply call_amount_free.
    + cbn. split; [by rewrite Hw1|]. split; [done|]. by apply strict_op in Eq.
  - pose proof (price_by_ratio_run (ps_info st) n meta gri st1 Hs Hg Hfl Hmx) as Hr.
    destruct (price_by_ratio _ _ _ _ _ st1) as [[pd|e] st2].
    + destruct Hr as [-> Hq]. rewrite run_bind. cbn [mret M_ret]. cbn -[is_free].
      split; [done|]. split; [done|]. destruct (is_free _ _ _ _ _); cbn.
      * split; [by unfold Quota.MaxQuota; lia|done].
      * split; [exact Hq|discriminate].
    + destruct Hr as (Hd & Hi & He). split; [by rewrite Hd, Hw1|]. split; [by rewrite Hi|].
      destruct e; [|done|done]. cbv zeta. fold name. rewrite Egp. by split.
Qed.

(** Pricing a request that is not billed by an expression, whatever the price
    tables (with canonical nonnegative entries): on success the price is frozen on
    the relay info, nothing else of the world changes, the quota to pre-consume
    lies in the quota range and is nonnegative, and it is zero for a free model;
    a plain error means exactly that neither a price nor a ratio is configured and
    the user does not accept unset ratios; any other error is the report of a
    conversion that would have saturated.  On errors the tables and the frozen
    price are as before. *)
Theorem ModelPriceHelper_spec now n meta st :
  GetBillingMode (pc_ratios cfg) (ri_OriginModelName (ps_info st)) <> BillingModeTieredExpr ->
  inputs_ok meta (QuotaPerUnit (w_cfg (c_w (ps_ctx st)))) ->
  let '(r, st') := ModelPriceHelper cfg g range now n meta st in priced st r st'.
Proof. apply ModelPriceHelper_run. Qed.
End proofs.

(** ** Tiered expressions *)

(** The token counts a snapshot was estimated with. *)
Definition estimate_params (snap : BillingSnapshot) : TokenParams :=
  mkTokenParams (F64.of_Z (sn_EstimatedPromptTokens snap)) (F64.of_Z (sn_EstimatedCompletionTokens snap))
    (F64.of_Z (sn_EstimatedPromptTokens snap)) F64.zero F64.zero F64.zero F64.zero F64.zero F64.zero F64.zero.

Lemma reachable_cache_ok `{ExprEngine Prog} (c : Cache Prog) : rtc cache_step ∅ c -> cache_ok c.
Proof.
  intros Hr. assert (H0 : cache_ok (∅ : Cache Prog)) by apply empty_cache_ok. revert H0.
  induction Hr as [|c1 c2 c3 Hs _ IH]; [done|]. intros Hc. apply IH. by eapply cache_step_ok.
Qed.

(** A successful strict rounding is the checked one, unclamped. *)
Lemma QuotaRoundStrict_inv x q :
  Quota.QuotaRoundStrict x = Ok q -> Quota.QuotaRoundChecked x = (q, None).
Proof.
  unfold Quota.QuotaRoundStrict, Quota.strictQuota.
  destruct (Quota.QuotaRoundChecked x) as [q' [c|]]; simpl; [done|]. by intros [= ->].
Qed.
Lemma QuotaRoundStrict_vanishes x q : vanishes x -> Quota.QuotaRoundStrict x = Ok q -> q = 0.
Proof.
  intros Hx Hq. eapply Quota.strict_zero; [|exact Hq].
  destruct Hx as [[s ->]| ->]; [left; by exists s|by right].
Qed.

(** A tiered price is frozen: when the request turns out to use exactly the
    estimated tokens, settling it with the frozen snapshot costs what was
    pre-consumed, in the estimated tier and without a clamp, whatever happened to
    the compiled-expression cache and to the settings in between; a free group is
    settled at zero. *)
Theorem tiered_settlement_matches_estimate `{ExprEngineLaws Prog} cfg g range now n meta st pd st' :
  GetBillingMode (pc_ratios cfg) (ri_OriginModelName (ps_info st)) = BillingModeTieredExpr ->
  rtc cache_step ∅ (ps_cache st) ->
  ModelPriceHelper cfg g range now n meta st = (Ok pd, st') ->
  exists snap input,
    ri_TieredBillingSnapshot (ps_info st') = Some snap /\
    ri_BillingRequestInput (ps_info st') = Some input /\
    sn_EstimatedQuotaAfterGroup snap = QuotaToPreConsume pd /\
    (FreeModel pd = true -> QuotaToPreConsume pd = 0) /\
    forall cache, rtc cache_step ∅ cache ->
      match (ComputeTieredQuotaWithRequest now snap (estimate_params snap) input cache).1 with
      | Ok tr => ActualQuotaAfterGroup tr = QuotaToPreConsume pd /\
                 CrossedTier tr = false /\ tr_Clamp tr = None
      | Err _ => False
      end.
Proof.
  intros Hmode Hc Hrun. unfold ModelPriceHelper in Hrun.
  inv_bind Hrun as info s0 E0. apply gets_inv in E0 as [-> ->].
  destruct (GetModelPrice _ _) as [price usePrice].
  rewrite run_bind in Hrun.
  destruct (HandleGroupRatio_run cfg g (E := go_error) st) as (gri & st1 & Hgr & _ & Hcache & grp & Hctx).
  rewrite Hgr in Hrun. rewrite decide_True in Hrun by done.
  unfold modelPriceHelperTiered in Hrun. inv_bind Hrun as info s2 E2. apply gets_inv in E2 as [-> ->].
  destruct (GetBillingExpr _ _) as [exprStr|]; [|discriminate].
  inv_bind Hrun as input s3 E3. apply map_err_inv, of_result_inv in E3 as [_ ->].
  inv_bind Hrun as ct s4 E4. apply map_err_inv in E4. destruct ct as [rawCost trace].
  inv_bind Hrun as perUnit s5 E5. apply gets_inv in E5 as [-> ->].
  inv_bind Hrun as q s6 E6. apply map_err_inv, of_result_inv in E6 as [Eq ->].
  inv_bind Hrun as version s7 E7. inv_bind Hrun as u s8 E8. unfold set_ps_info, modify in E8.
  injection E8 as _ <-. apply run_ret_inv in Hrun as [-> ->].
  set (free := negb (EnableFreeModelPreConsume cfg) && F64.eqb (GroupRatio gri) F64.zero) in *.
  assert (Hq : (if free then 0 else q) = q).
  { destruct free eqn:Hf; [|done]. symmetry. unfold free in Hf. bools.
    eapply QuotaRoundStrict_vanishes; [|exact Eq]. apply mul_vanishes. right. by apply eqb_vanishes. }
  match type of E4 with on_cache (RunExprWithRequest _ _ ?p _) _ = _ => set (params := p) in * end.
  assert (Hd : run_direct now exprStr params input = Ok (rawCost, trace)).
  { rewrite <- (run_transparent now exprStr params input (ps_cache st1)).
    - unfold on_cache in E4. change (RunExprByHashWithRequest now exprStr (ExprHashString exprStr) params input)
        with (RunExprWithRequest now exprStr params input).
      destruct (RunExprWithRequest now exprStr params input (ps_cache st1)). by injection E4 as -> _.
    - rewrite Hcache. by apply reachable_cache_ok. }
  eexists _, input. split; [reflexivity|]. split; [reflexivity|]. split; [reflexivity|].
  split; [cbn; by destruct free|].
  intros cache Hca. unfold ComputeTieredQuotaWithRequest. rewrite run_bind.
  pose proof (run_transparent now exprStr params input cache (reachable_cache_ok _ Hca)) as Ht.
  match goal with |- context [RunExprByHashWithRequest ?a ?b ?c ?d ?e] =>
    change (RunExprByHashWithRequest a b c d e)
      with (RunExprByHashWithRequest now exprStr (ExprHashString exprStr) params input) end.
  rewrite Hd in Ht.
  destruct (RunExprByHashWithRequest now exprStr _ params input cache) as [[[cost tr]|e] cache'];
    [|discriminate]. injection Ht as -> ->.
  cbv beta iota zeta. unfold quotaConversion. cbn [sn_QuotaPerUnit sn_GroupRatio sn_EstimatedTier].
  apply QuotaRoundStrict_inv in Eq. rewrite Eq. cbn. rewrite Hq, bool_decide_eq_true_2 by done. done.
Qed.

(** *** Concrete settings *)

Definition sample_ratios : RatioSettings :=
  mkRatioSettings {["img" := F64.div (F64.of_Z 1) (F64.of_Z 2)]} {["gpt" := F64.of_Z 2]} ∅ ∅ ∅ ∅ ∅ ∅
    {["default" := F64.one]} ∅ ∅ ∅ false {["tiered" := "tiered_expr"]} {["tiered" := "v1:p"]}.
Definition sample_pricing : PricingConfig := mkPricingConfig sample_ratios false 500.
Definition sample_gin : GinContext := mkGin None (Some "application/json") (Ok "{}").
Definition sample_meta : TokenCountMeta := mkMeta 100 F64.zero {["n" := F64.of_Z 2]}.
Definition sample_ps (name : string) : PS string :=
  mkPS (sample_ctx <| c_info := sample_info <| ri_OriginModelName := name |> |>) ∅.

Lemma sample_settings_ok : settings_ok sample_ratios.
Proof.
  split; try (apply map_Forall_singleton; by split). apply map_Forall_empty.
Qed.

Lemma sample_inputs_ok : inputs_ok sample_pricing map_to_list sample_meta (QuotaPerUnit sample_cfg).
Proof.
  split; try done; try (by split; vm_compute); try (simpl; lia).
  - apply sample_settings_ok.
  - apply map_Forall_singleton. by vm_compute.
  - by intros m.
Qed.

Lemma ModelPriceHelper_spec_witness :
  let '(r, st') := ModelPriceHelper (H := toy_engine) sample_pricing sample_gin map_to_list 0 1000
                     sample_meta (sample_ps "gpt") in
  (match r with Ok pd => QuotaToPreConsume pd = 2200 | Err _ => False end) /\
  priced sample_pricing (sample_ps "gpt") r st'.
Proof.
  pose proof (ModelPriceHelper_spec (H := toy_engine) sample_pricing sample_gin map_to_list 0 1000
                sample_meta (sample_ps "gpt") ltac:(vm_compute; discriminate) sample_inputs_ok) as Hw.
  destruct (ModelPriceHelper _ _ _ _ _ _ _) as [r st'] eqn:E. split; [|exact Hw].
  change r with (r, st').1. rewrite <- E. vm_compute. reflexivity.
Defined.

#[local] Existing Instance toy_engine.
#[local] Existing Instance toy_engine_laws.

Lemma tiered_settlement_matches_estimate_witness :
  exists pd st', ModelPriceHelper sample_pricing sample_gin map_to_list 0 40000000 sample_meta
                   (sample_ps "tiered") = (Ok pd, st') /\ QuotaToPreConsume pd = 20000000 /\
  exists snap input,
    ri_TieredBillingSnapshot (ps_info st') = Some snap /\
    ri_BillingRequestInput (ps_info st') = Some input /\
    match (ComputeTieredQuotaWithRequest 0 snap (estimate_params snap) input toy_cache).1 with
    | Ok tr => ActualQuotaAfterGroup tr = QuotaToPreConsume pd
    | Err _ => False
    end.
Proof.
  destruct (ModelPriceHelper sample_pricing sample_gin map_to_list 0 40000000 sample_meta
              (sample_ps "tiered")) as [r st'] eqn:E.
  assert (Hr : match r with Ok pd => QuotaToPreConsume pd = 20000000 | Err _ => False end).
  { change r with (r, st').1. rewrite <- E. vm_compute. reflexivity. }
  destruct r as [pd|e]; [|destruct Hr]. exists pd, st'. split; [reflexivity|]. split; [exact Hr|].
  destruct (tiered_settlement_matches_estimate sample_pricing sample_gin map_to_list 0 40000000
    sample_meta (sample_ps "tiered") pd st' ltac:(vm_compute; reflexivity) ltac:(apply rtc_refl) E)
    as (snap & input & H1 & H2 & _ & _ & Hs).
  exists snap, input. split; [exact H1|]. split; [exact H2|].
  specialize (Hs toy_cache toy_cache_reached).
  destruct (ComputeTieredQuotaWithRequest 0 snap (estimate_params snap) input toy_cache).1 as [tr|e];
    [exact (proj1 Hs)|exact Hs].
Defined.
