(* ===== verification/TextQuota.v ===== *)
(** * Charging a text request (src/service/text_quota.go, tiered_settle.go, quota.go)

    When the upstream has answered, the usage it reported and the frozen price
    give the quota of the request, and the billing session is settled with it.
    The state is that of [Pricing].  Amounts are decimals until the final
    conversion. *)

From Stdlib Require Import SpecFloat.
From S2P Require Import Prelude GoStd GoFloat QuotaMath Usage PriceData RatioSetting ToolPrices BillingExpr World Sample ModelUtils UserModel TokenModel BatchUpdate Funding ApiError BillingSession Pricing.

(** What the code reads of the gin context. *)
Record TextGin := mkTextGin {
  tg_token_name : string;
  tg_claude_web_search_requests : Z;
  tg_image_generation_call : bool;
  tg_image_quality : string;
  tg_image_size : string;
}.

Record textQuotaSummary (D : Type) := mkSummary {
  ts_PromptTokens : Z;
  ts_CompletionTokens : Z;
  ts_TotalTokens : Z;
  ts_CacheTokens : Z;
  ts_CacheCreationTokens : Z;
  ts_CacheCreationTokens5m : Z;
  ts_CacheCreationTokens1h : Z;
  ts_ImageTokens : Z;
  ts_AudioTokens : Z;
  ts_ModelName : string;
  ts_TokenName : string;
  ts_UseTimeSeconds : Z;
  ts_CompletionRatio : F64.float64;
  ts_CacheRatio : F64.float64;
  ts_ImageRatio : F64.float64;
  ts_ModelRatio : F64.float64;
  ts_GroupRatio : F64.float64;
  ts_ModelPrice : F64.float64;
  ts_CacheCreationRatio : F64.float64;
  ts_CacheCreationRatio5m : F64.float64;
  ts_CacheCreationRatio1h : F64.float64;
  ts_Quota : Z;
  ts_IsClaudeUsageSemantic : bool;
  ts_UsageSemantic : string;
  ts_WebSearchPrice : F64.float64;
  ts_WebSearchCallCount : Z;
  ts_ClaudeWebSearchPrice : F64.float64;
  ts_ClaudeWebSearchCallCount : Z;
  ts_FileSearchPrice : F64.float64;
  ts_FileSearchCallCount : Z;
  ts_AudioInputPrice : F64.float64;
  ts_ImageGenerationCallPrice : F64.float64;
  ts_ToolCallSurchargeQuota : D;
}.
Arguments ts_PromptTokens {D}. Arguments ts_CompletionTokens {D}. Arguments ts_TotalTokens {D}.
Arguments ts_CacheTokens {D}. Arguments ts_CacheCreationTokens {D}.
Arguments ts_CacheCreationTokens5m {D}. Arguments ts_CacheCreationTokens1h {D}.
Arguments ts_ImageTokens {D}. Arguments ts_AudioTokens {D}. Arguments ts_ModelName {D}.
Arguments ts_TokenName {D}. Arguments ts_UseTimeSeconds {D}. Arguments ts_CompletionRatio {D}.
Arguments ts_CacheRatio {D}. Arguments ts_ImageRatio {D}. Arguments ts_ModelRatio {D}.
Arguments ts_GroupRatio {D}. Arguments ts_ModelPrice {D}. Arguments ts_CacheCreationRatio {D}.
Arguments ts_CacheCreationRatio5m {D}. Arguments ts_CacheCreationRatio1h {D}.
Arguments ts_Quota {D}. Arguments ts_IsClaudeUsageSemantic {D}. Arguments ts_UsageSemantic {D}.
Arguments ts_WebSearchPrice {D}. Arguments ts_WebSearchCallCount {D}.
Arguments ts_ClaudeWebSearchPrice {D}. Arguments ts_ClaudeWebSearchCallCount {D}.
Arguments ts_FileSearchPrice {D}. Arguments ts_FileSearchCallCount {D}.
Arguments ts_AudioInputPrice {D}. Arguments ts_ImageGenerationCallPrice {D}.
Arguments ts_ToolCallSurchargeQuota {D}.
#[export] Instance textQuotaSummary_settable D : Settable (textQuotaSummary D) :=
  fields_of (mkSummary D) < ts_PromptTokens; ts_CompletionTokens; ts_TotalTokens; ts_CacheTokens;
    ts_CacheCreationTokens; ts_CacheCreationTokens5m; ts_CacheCreationTokens1h; ts_ImageTokens;
    ts_AudioTokens; ts_ModelName; ts_TokenName; ts_UseTimeSeconds; ts_CompletionRatio;
    ts_CacheRatio; ts_ImageRatio; ts_ModelRatio; ts_GroupRatio; ts_ModelPrice;
    ts_CacheCreationRatio; ts_CacheCreationRatio5m; ts_CacheCreationRatio1h; ts_Quota;
    ts_IsClaudeUsageSemantic; ts_UsageSemantic; ts_WebSearchPrice; ts_WebSearchCallCount;
    ts_ClaudeWebSearchPrice; ts_ClaudeWebSearchCallCount; ts_FileSearchPrice;
    ts_FileSearchCallCount; ts_AudioInputPrice; ts_ImageGenerationCallPrice;
    ts_ToolCallSurchargeQuota >.

(** ** Which provider's counting applies *)

Definition RelayFormatClaude : string := "claude".

Definition GetFinalRequestRelayFormat (info : RelayInfo) : string :=
  if negb (bool_decide (ri_FinalRequestRelayFormat info = "")) then ri_FinalRequestRelayFormat info
  else match last (ri_RequestConversionChain info) with
       | Some format => format
       | None => ri_RelayFormat info
       end.

Definition usageSemanticFromUsage (info : RelayInfo) (usage : option Usage) : string :=
  let from_format :=
    if decide (GetFinalRequestRelayFormat info = RelayFormatClaude) then "anthropic" else "openai" in
  match usage with
  | Some u => if decide (us_UsageSemantic u <> "") then us_UsageSemantic u else from_format
  | None => from_format
  end.

Definition isLegacyClaudeDerivedOpenAIUsage (info : RelayInfo) (usage : Usage) : bool :=
  if decide (GetFinalRequestRelayFormat info = RelayFormatClaude) then false
  else if decide (us_UsageSource usage <> "" \/ us_UsageSemantic usage <> "") then false
  else (us_ClaudeCacheCreation5mTokens usage >? 0) || (us_ClaudeCacheCreation1hTokens usage >? 0).

Definition cacheWriteTokensTotal {D} (summary : textQuotaSummary D) : Z :=
  if (ts_CacheCreationTokens5m summary >? 0) || (ts_CacheCreationTokens1h summary >? 0) then
    let split := ts_CacheCreationTokens5m summary + ts_CacheCreationTokens1h summary in
    if ts_CacheCreationTokens summary >? split then ts_CacheCreationTokens summary else split
  else ts_CacheCreationTokens summary.

(** ** OpenRouter (src/service/quota.go) *)

Definition ChannelTypeOpenRouter : Z := 20.

Definition hasCustomModelRatio (rs : RatioSettings) (modelName : string) (currentRatio : F64.float64)
    : bool :=
  match defaultModelRatio rs !! modelName with
  | None => true
  | Some defaultRatio => negb (F64.eqb currentRatio defaultRatio)
  end.

Definition CalcOpenRouterCacheCreateTokens (perUnit : F64.float64) (usage : Usage) (p : PriceData) : Z :=
  if F64.eqb (CacheCreationRatio p) F64.one then 0
  else
    let quotaPrice := F64.div (ModelRatio p) perUnit in
    let promptCacheCreatePrice := F64.mul quotaPrice (CacheCreationRatio p) in
    let promptCacheReadPrice := F64.mul quotaPrice (CacheRatio p) in
    let completionPrice := F64.mul quotaPrice (CompletionRatio p) in
    let cost := match us_Cost usage with CostFloat x => x | _ => F64.zero end in
    let totalPromptTokens := F64.of_Z (us_PromptTokens usage) in
    let completionTokens := F64.of_Z (us_CompletionTokens usage) in
    let promptCacheReadTokens := F64.of_Z (it_CachedTokens (us_PromptTokensDetails usage)) in
    F64.to_Z (F64.Round (F64.div
      (F64.sub (F64.add (F64.sub cost (F64.mul totalPromptTokens quotaPrice))
                        (F64.mul promptCacheReadTokens (F64.sub quotaPrice promptCacheReadPrice)))
               (F64.mul completionTokens completionPrice))
      (F64.sub promptCacheCreatePrice quotaPrice))).

(** [usage.Cost != 0]: an interface holding nothing, a float64 or another JSON
    value is never equal to an interface holding the int 0. *)
Definition cost_differs_from_int_0 (c : CostValue) : bool :=
  match c with CostNone | CostFloat _ | CostOther => true end.

Definition BuildInToolWebSearchPreview : string := "web_search_preview".
Definition BuildInToolFileSearch : string := "file_search".

(** The first clamp wins. *)
Definition noteQuotaClamp (info : RelayInfo) (clamp : option Quota.QuotaClamp) : RelayInfo :=
  match clamp, ri_QuotaClamp info with
  | Some _, None => info <| ri_QuotaClamp := clamp |>
  | _, _ => info
  end.

Section charge.
Context `{Decimal D} (rs : RatioSettings) (tools : option toolPriceIndex) (perUnit : F64.float64)
  (range : gmap string F64.float64 -> list (string * F64.float64)) (g : TextGin).

Definition dZero : D := NewFromInt 0.

(** ** Tool calls *)

Definition calculateTextToolCallSurcharge (info : RelayInfo) (summary : textQuotaSummary D)
    : textQuotaSummary D * D :=
  let dGroupRatio := NewFromFloat (ts_GroupRatio summary) in
  let dQuotaPerUnit := NewFromFloat perUnit in
  let surcharge := dZero in
  let model := ts_ModelName summary in
  let calls_of tool := match ri_ResponsesUsageInfo info with
                       | Some builtin => builtin !! tool
                       | None => None
                       end in
  (* web search *)
  let '(summary, surcharge) :=
    match ri_ResponsesUsageInfo info with
    | Some _ =>
        match calls_of BuildInToolWebSearchPreview with
        | Some count =>
            if count >? 0 then
              let price := GetToolPriceForModel tools "web_search_preview" model in
              ((summary <| ts_WebSearchCallCount := count |> <| ts_WebSearchPrice := price |> : textQuotaSummary D),
               dAdd surcharge (dMul (dMul (dDiv (dMul (NewFromFloat price) (NewFromInt count))
                                                (NewFromInt 1000)) dGroupRatio) dQuotaPerUnit))
            else (summary, surcharge)
        | None => (summary, surcharge)
        end
    | None =>
        if GoStrings.HasSuffix model "search-preview" then
          let price := GetToolPriceForModel tools "web_search_preview" model in
          ((summary <| ts_WebSearchCallCount := 1 |> <| ts_WebSearchPrice := price |> : textQuotaSummary D),
           dAdd surcharge (dMul (dMul (dDiv (NewFromFloat price) (NewFromInt 1000)) dGroupRatio) dQuotaPerUnit))
        else (summary, surcharge)
    end in
  (* Claude web search *)
  let count := tg_claude_web_search_requests g in
  let summary : textQuotaSummary D := summary <| ts_ClaudeWebSearchCallCount := count |> in
  let '(summary, surcharge) :=
    if count >? 0 then
      let price := GetToolPrice tools "web_search" in
      ((summary <| ts_ClaudeWebSearchPrice := price |> : textQuotaSummary D),
       dAdd surcharge (dMul (dMul (dMul (dDiv (NewFromFloat price) (NewFromInt 1000)) dGroupRatio)
                                  dQuotaPerUnit) (NewFromInt count)))
    else (summary, surcharge) in
  (* file search *)
  let '(summary, surcharge) :=
    match calls_of BuildInToolFileSearch with
    | Some count =>
        if count >? 0 then
          let price := GetToolPrice tools "file_search" in
          ((summary <| ts_FileSearchCallCount := count |> <| ts_FileSearchPrice := price |> : textQuotaSummary D),
           dAdd surcharge (dMul (dMul (dDiv (dMul (NewFromFloat price) (NewFromInt count))
                                            (NewFromInt 1000)) dGroupRatio) dQuotaPerUnit))
        else (summary, surcharge)
    | None => (summary, surcharge)
    end in
  (* image generation *)
  if tg_image_generation_call g then
    let price := GetGPTImage1PriceOnceCall (tg_image_quality g) (tg_image_size g) in
    ((summary <| ts_ImageGenerationCallPrice := price |> : textQuotaSummary D),
     dAdd surcharge (dMul (dMul (NewFromFloat price) dGroupRatio) dQuotaPerUnit))
  else (summary, surcharge).

(** ** The summary of the tokens *)

(** The usage assumed when the upstream reported none. *)
Definition estimated_usage (info : RelayInfo) : Usage :=
  zero_usage <| us_PromptTokens := ri_estimatePromptTokens info |>
             <| us_TotalTokens := ri_estimatePromptTokens info |>.

Definition new_summary (now : Z) (info : RelayInfo) (usage : option Usage) : textQuotaSummary D :=
  let p := ri_PriceData info in
  let semantic := usageSemanticFromUsage info usage in
  mkSummary D 0 0 0 0 0 0 0 0 0 (ri_OriginModelName info) (tg_token_name g)
    (now - ri_StartTime info) (CompletionRatio p) (CacheRatio p) (ImageRatio p) (ModelRatio p)
    (GroupRatio (pd_GroupRatioInfo p)) (ModelPrice p) (CacheCreationRatio p)
    (CacheCreation5mRatio p) (CacheCreation1hRatio p) 0 (bool_decide (semantic = "anthropic"))
    semantic F64.zero 0 F64.zero 0 F64.zero 0 F64.zero F64.zero dZero.

Definition count_tokens (usage : Usage) (summary : textQuotaSummary D) : textQuotaSummary D :=
  let d := us_PromptTokensDetails usage in
  summary <| ts_PromptTokens := us_PromptTokens usage |>
          <| ts_CompletionTokens := us_CompletionTokens usage |>
          <| ts_TotalTokens := us_PromptTokens usage + us_CompletionTokens usage |>
          <| ts_CacheTokens := it_CachedTokens d |>
          <| ts_CacheCreationTokens := CacheCreationTokensTotal d |>
          <| ts_CacheCreationTokens5m := us_ClaudeCacheCreation5mTokens usage |>
          <| ts_CacheCreationTokens1h := us_ClaudeCacheCreation1hTokens usage |>
          <| ts_ImageTokens := it_ImageTokens d |>
          <| ts_AudioTokens := it_AudioTokens d |>.

(** OpenRouter counts cached tokens as prompt tokens and hides cache writes in
    the cost. *)
Definition adjust_openrouter (info : RelayInfo) (usage : Usage) (summary : textQuotaSummary D)
    : textQuotaSummary D :=
  let p := ri_PriceData info in
  let isOpenRouterClaudeBilling :=
    match ri_ChannelMeta info with
    | Some m => (cm_ChannelType m =? ChannelTypeOpenRouter) && ts_IsClaudeUsageSemantic summary
    | None => false
    end in
  if isOpenRouterClaudeBilling then
    let summary : textQuotaSummary D :=
      summary <| ts_PromptTokens := ts_PromptTokens summary - ts_CacheTokens summary |> in
    let isUsingCustomSettings :=
      UsePrice p || hasCustomModelRatio rs (ts_ModelName summary) (ModelRatio p) in
    let summary : textQuotaSummary D :=
      if (ts_CacheCreationTokens summary =? 0)
         && negb (F64.eqb (CacheCreationRatio p) F64.one)
         && cost_differs_from_int_0 (us_Cost usage) && negb isUsingCustomSettings then
        let maybe := CalcOpenRouterCacheCreateTokens perUnit usage p in
        if (maybe >=? 0) && (ts_PromptTokens summary >=? maybe)
        then summary <| ts_CacheCreationTokens := maybe |> else summary
      else summary in
    summary <| ts_PromptTokens := ts_PromptTokens summary - ts_CacheCreationTokens summary |>
  else summary.

(** ** The amount *)

(** The part of the prompt that was not read from or written to a cache, and the
    cache writes in units of prompt tokens. *)
Definition text_amount (legacyClaudeDerived : bool) (p : PriceData) (s : textQuotaSummary D)
    : textQuotaSummary D * D :=
  let dCacheTokens := NewFromInt (ts_CacheTokens s) in
  let dCachedCreationTokens := NewFromInt (ts_CacheCreationTokens s) in
  let dImageTokens := NewFromInt (ts_ImageTokens s) in
  let dAudioTokens := NewFromInt (ts_AudioTokens s) in
  let dCacheCreationRatio := NewFromFloat (ts_CacheCreationRatio s) in
  let dGroupRatio := NewFromFloat (ts_GroupRatio s) in
  let ratio := dMul (NewFromFloat (ts_ModelRatio s)) dGroupRatio in
  let total_style := negb (ts_IsClaudeUsageSemantic s) && negb legacyClaudeDerived in
  let baseTokens := NewFromInt (ts_PromptTokens s) in
  let '(baseTokens, cachedTokensWithRatio) :=
    if negb (dIsZero dCacheTokens) then
      (if total_style then dSub baseTokens dCacheTokens else baseTokens,
       dMul dCacheTokens (NewFromFloat (ts_CacheRatio s)))
    else (baseTokens, dZero) in
  let hasSplit := (ts_CacheCreationTokens5m s >? 0) || (ts_CacheCreationTokens1h s >? 0) in
  let '(baseTokens, cachedCreationTokensWithRatio) :=
    if negb (dIsZero dCachedCreationTokens) || hasSplit then
      if total_style then
        (dSub baseTokens dCachedCreationTokens, dMul dCachedCreationTokens dCacheCreationRatio)
      else
        let remaining := ts_CacheCreationTokens s - ts_CacheCreationTokens5m s
                         - ts_CacheCreationTokens1h s in
        let remaining := if remaining <? 0 then 0 else remaining in
        (baseTokens,
         dAdd (dAdd (dMul (NewFromInt remaining) dCacheCreationRatio)
                    (dMul (NewFromInt (ts_CacheCreationTokens5m s))
                          (NewFromFloat (ts_CacheCreationRatio5m s))))
              (dMul (NewFromInt (ts_CacheCreationTokens1h s))
                    (NewFromFloat (ts_CacheCreationRatio1h s))))
    else (baseTokens, dZero) in
  let '(baseTokens, imageTokensWithRatio) :=
    if negb (dIsZero dImageTokens) then
      (dSub baseTokens dImageTokens, dMul dImageTokens (NewFromFloat (ts_ImageRatio s)))
    else (baseTokens, dZero) in
  let '(s, baseTokens, audioInputQuota) :=
    if negb (dIsZero dAudioTokens) then
      let price := GetGeminiInputAudioPricePerMillionTokens (ts_ModelName s) in
      let s : textQuotaSummary D := s <| ts_AudioInputPrice := price |> in
      if F64.ltb F64.zero price then
        (s, dSub baseTokens dAudioTokens,
         dMul (dMul (dMul (dDiv (NewFromFloat price) (NewFromInt 1000000)) dAudioTokens) dGroupRatio)
              (NewFromFloat perUnit))
      else (s, baseTokens, dZero)
    else (s, baseTokens, dZero) in
  let baseTokens := if dIsNegative baseTokens then dZero else baseTokens in
  let promptQuota := dAdd (dAdd (dAdd baseTokens cachedTokensWithRatio) imageTokensWithRatio)
                          cachedCreationTokensWithRatio in
  let completionQuota := dMul (NewFromInt (ts_CompletionTokens s))
                              (NewFromFloat (ts_CompletionRatio s)) in
  let amount := dMul (dAdd promptQuota completionQuota) ratio in
  let amount := dAdd amount (ts_ToolCallSurchargeQuota s) in
  let amount := dAdd amount audioInputQuota in
  let amount := ApplyOtherRatiosToDecimal range p amount in
  (s, if negb (dIsZero ratio) && dLessThanOrEqual amount dZero then NewFromInt 1 else amount).

Definition price_amount (p : PriceData) (s : textQuotaSummary D) : D :=
  let amount := dMul (dMul (NewFromFloat (ts_ModelPrice s)) (NewFromFloat perUnit))
                     (NewFromFloat (ts_GroupRatio s)) in
  ApplyOtherRatiosToDecimal range p (dAdd (dAdd amount (ts_ToolCallSurchargeQuota s)) dZero).

(** The relay info comes back with the clamp noted. *)
Definition calculateTextQuotaSummary (now : Z) (info : RelayInfo) (usage : option Usage)
    : textQuotaSummary D * RelayInfo :=
  let p := ri_PriceData info in
  let summary := new_summary now info usage in
  let usage := default (estimated_usage info) usage in
  let summary := count_tokens usage summary in
  let legacyClaudeDerived := isLegacyClaudeDerivedOpenAIUsage info usage in
  let summary := adjust_openrouter info usage summary in
  let ratio := dMul (NewFromFloat (ts_ModelRatio summary)) (NewFromFloat (ts_GroupRatio summary)) in
  let '(summary, surcharge) := calculateTextToolCallSurcharge info summary in
  let summary : textQuotaSummary D := summary <| ts_ToolCallSurchargeQuota := surcharge |> in
  let '(summary, amount) :=
    if negb (UsePrice p) then text_amount legacyClaudeDerived p summary
    else (summary, price_amount p summary) in
  let '(quota, clamp) := Quota.QuotaFromDecimalChecked amount in
  let info := noteQuotaClamp info clamp in
  let quota := if ts_TotalTokens summary =? 0 then 0
               else if negb (dIsZero ratio) && (quota =? 0) then 1 else quota in
  (summary <| ts_Quota := quota |>, info).
End charge.

(** ** Tiered settlement (src/service/tiered_settle.go) *)

Definition BuildTieredTokenParams (usage : Usage) (isClaudeUsageSemantic : bool)
    (usedVars : gset string) : TokenParams :=
  let d := us_PromptTokensDetails usage in
  let o := us_CompletionTokenDetails usage in
  let p := F64.of_Z (us_PromptTokens usage) in
  let c := F64.of_Z (us_CompletionTokens usage) in
  let cr := F64.of_Z (it_CachedTokens d) in
  let anthropic := bool_decide (us_UsageSemantic usage = "anthropic") in
  let cc5m := if anthropic then F64.of_Z (us_ClaudeCacheCreation5mTokens usage)
              else F64.of_Z (CacheCreationTokensTotal d) in
  let cc1h := if anthropic then F64.of_Z (us_ClaudeCacheCreation1hTokens usage) else F64.zero in
  let img := F64.of_Z (it_ImageTokens d) in
  let ai := F64.of_Z (it_AudioTokens d) in
  let imgO := F64.of_Z (ot_ImageTokens o) in
  let ao := F64.of_Z (ot_AudioTokens o) in
  let inputLen := if isClaudeUsageSemantic then F64.add (F64.add (F64.add p cr) cc5m) cc1h else p in
  let minus var x y := if negb isClaudeUsageSemantic && bool_decide (var ∈ usedVars)
                       then F64.sub x y else x in
  let p := minus "ai" (minus "img" (minus "cc1h" (minus "cc" (minus "cr" p cr) cc5m) cc1h) img) ai in
  let c := minus "ao" (minus "img_o" c imgO) ao in
  let p := if F64.ltb p F64.zero then F64.zero else p in
  let c := if F64.ltb c F64.zero then F64.zero else c in
  mkTokenParams p c inputLen cr cc5m cc1h img imgO ai ao.

Section handler.
Context `{Decimal D} `{ExprEngine Prog} (rs : RatioSettings) (tools : option toolPriceIndex)
  (range : gmap string F64.float64 -> list (string * F64.float64)) (g : TextGin).

(** [None]: not billed by an expression. *)
Definition TryTieredSettle (now : Z) (params : TokenParams)
    : M (PS Prog) error (option (Z * option TieredResult)) :=
  info ← gets ps_info;
  match ri_TieredBillingSnapshot info with
  | None => mret None
  | Some snap =>
      if negb (bool_decide (sn_BillingMode snap = "tiered_expr")) then mret None
      else
        let requestInput := default (mkRequestInput ∅ "") (ri_BillingRequestInput info) in
        r ← attempt (on_cache (ComputeTieredQuotaWithRequest now snap params requestInput));
        match r with
        | Err _ =>
            let quota := ri_FinalPreConsumedQuota info in
            let quota := if quota <=? 0 then sn_EstimatedQuotaAfterGroup snap else quota in
            mret (Some (quota, None))
        | Ok tr =>
            set_ps_info (fun i => noteQuotaClamp i (tr_Clamp tr)) ;;
            mret (Some (ActualQuotaAfterGroup tr, Some tr))
        end
  end.

(** The tool surcharge on top of a tiered quota, and the info with the clamp. *)
Definition composeTieredTextQuota (info : RelayInfo) (summary : textQuotaSummary D) (tieredQuota : Z)
    (tieredResult : option TieredResult) : Z * RelayInfo :=
  let surcharge := ts_ToolCallSurchargeQuota summary in
  if dIsZero surcharge then (tieredQuota, info)
  else
    let total : D :=
      match tieredResult, ri_TieredBillingSnapshot info with
      | Some tr, Some snap =>
          dAdd (dMul (NewFromFloat (ActualQuotaBeforeGroup tr)) (NewFromFloat (sn_GroupRatio snap))) surcharge
      | _, _ => dAdd (NewFromInt tieredQuota) surcharge
      end in
    let '(quota, clamp) := Quota.QuotaFromDecimalChecked total in
    (quota, noteQuotaClamp info clamp).

(** The row handed to RecordConsumeLog; its text and JSON columns are left out. *)
Record ConsumeLog := mkConsumeLog {
  cl_ChannelId : Z;
  cl_PromptTokens : Z;
  cl_CompletionTokens : Z;
  cl_ModelName : string;
  cl_TokenName : string;
  cl_Quota : Z;
  cl_TokenId : Z;
  cl_UseTimeSeconds : Z;
  cl_IsStream : bool;
  cl_Group : string;
}.

Definition log_model (name : string) : string :=
  let name := if GoStrings.HasPrefix name "gpt-4-gizmo" then "gpt-4-gizmo-*" else name in
  if GoStrings.HasPrefix name "gpt-4o-gizmo" then "gpt-4o-gizmo-*" else name.

Definition on_ctx {A} (m : M Ctx error A) : M (PS Prog) error A := fun st =>
  let '(r, c') := m (ps_ctx st) in (r, st <| ps_ctx := c' |>).

(** The quota of the request: the summary, with a tiered quota in its place when
    the request is billed by an expression. *)
Definition charge_of (usage : option Usage) : M (PS Prog) error (textQuotaSummary D) :=
  let billingUsage := effectiveBillingUsage usage in
  now ← gets (fun st => w_now (c_w (ps_ctx st)));
  perUnit ← gets (fun st => QuotaPerUnit (w_cfg (c_w (ps_ctx st))));
  info ← gets ps_info;
  let '(summary, info) := calculateTextQuotaSummary rs tools perUnit range g now info billingUsage in
  set_ps_info (fun _ => info) ;;
  match billingUsage, usage with
  | Some u, Some _ =>
      usedVars ← (match ri_TieredBillingSnapshot info with
                  | Some snap => on_cache (UsedVars (sn_ExprString snap))
                  | None => mret ∅
                  end);
      r ← TryTieredSettle now (BuildTieredTokenParams u (ts_IsClaudeUsageSemantic summary) usedVars);
      match r with
      | Some (tieredQuota, tieredRes) =>
          info ← gets ps_info;
          let '(quota, info) := composeTieredTextQuota info summary tieredQuota tieredRes in
          set_ps_info (fun _ => info) ;;
          mret (summary <| ts_Quota := quota |>)
      | None => mret summary
      end
  | _, _ => mret summary
  end.

Definition PostTextConsumeQuota (usage : option Usage) : M (PS Prog) error ConsumeLog :=
  summary ← charge_of usage;
  info ← gets ps_info;
  let charged := negb (ts_TotalTokens summary =? 0) in
  (if charged
   then on_world (UpdateUserUsedQuotaAndRequestCount (ri_UserId info) (ts_Quota summary))
   else mret tt) ;;
  match ri_ChannelMeta info with
  | None => fail (ErrNew "runtime error: invalid memory address or nil pointer dereference")
  | Some ch =>
      (if charged then on_world (UpdateChannelUsedQuota (cm_ChannelId ch) (ts_Quota summary))
       else mret tt) ;;
      ignore_err (on_ctx (SettleBilling (ts_Quota summary))) ;;
      info ← gets ps_info;
      mret (mkConsumeLog (cm_ChannelId ch) (ts_PromptTokens summary) (ts_CompletionTokens summary)
              (log_model (ts_ModelName summary)) (ts_TokenName summary) (ts_Quota summary)
              (ri_TokenId info) (ts_UseTimeSeconds summary) (ri_IsStream info) (ri_UsingGroup info))
  end.
End handler.
