(* ===== verification/TaskSubmit.v ===== *)
(** * Submitting asynchronous tasks (src/relay/relay_task.go, src/controller/relay.go)

    A submission is priced, pre-consumed on the first attempt, sent upstream with
    retries, settled at the quota of the attempt that succeeded and stored as a
    task row that carries what the poller needs to bill it.  The adaptors, model
    mapping and the choice of channels are parameters; so is what the gin context
    answers at each attempt. *)

From S2P Require Import Prelude GoStd GoFloat QuotaMath PriceData RatioSetting BillingExpr World Sample ModelUtils UserModel TokenModel BatchUpdate SubscriptionTime Subscription TaskModel Funding ApiError BillingSession Pricing TextQuota StatusCodes ChannelSelect.

(** ** Errors (src/dto/task.go, src/service/error.go) *)

Record TaskError := mkTaskError {
  te_Code : string;
  te_StatusCode : Z;
  te_LocalError : bool;
  te_Error : go_error;
}.
(** The message, a masked copy of the error's text, is left out. *)
Definition TaskErrorWrapper (err : go_error) (code : string) (statusCode : Z) : TaskError :=
  mkTaskError code statusCode false err.
Definition TaskErrorWrapperLocal (err : go_error) (code : string) (statusCode : Z) : TaskError :=
  mkTaskError code statusCode true err.
Definition TaskErrorFromAPIError (apiErr : NewAPIError) : TaskError :=
  mkTaskError (GetErrorCode (Some apiErr)) (ae_StatusCode apiErr) false (ae_Err apiErr).

(** ** The adaptor of one attempt *)

Record TaskSubmitAdaptor := mkSubmitAdaptor {
  ValidateRequestAndSetAction : RelayInfo -> result TaskError string;   (** the action *)
  EstimateBilling : RelayInfo -> gmap string F64.float64;
  BuildRequestBody : RelayInfo -> result error string;
  DoRequest : RelayInfo -> string -> result error (option Z);   (** the status code of the response *)
  DoResponse : RelayInfo -> result TaskError (string * string);
  AdjustBillingOnSubmit : RelayInfo -> string -> gmap string F64.float64;
}.
Record TaskSubmitResult := mkSubmitResult {
  sr_UpstreamTaskID : string;
  sr_TaskData : string;
  sr_Platform : string;
  sr_Quota : Z;
}.

Section submit.
Context `{ExprEngine Prog}.
Context (cfg : PricingConfig) (range : gmap string F64.float64 -> list (string * F64.float64))
  (TaskPricePatches : list string).
#[local] Abbreviation PS := (PS Prog).

Definition noteTaskQuotaClamp (clamp : option Quota.QuotaClamp) (info : RelayInfo) : RelayInfo :=
  match clamp, ri_QuotaClamp info with
  | Some _, None => info <| ri_QuotaClamp := clamp |>
  | _, _ => info
  end.

Definition set_price (f : PriceData -> PriceData) (info : RelayInfo) : RelayInfo :=
  info <| ri_PriceData := f (ri_PriceData info) |>.
Definition add_ratios_of (ratios : gmap string F64.float64) (p : PriceData) : PriceData :=
  fold_left (fun p kv => AddOtherRatio p kv.1 kv.2) (range ratios) p.

(** Step 6: the base quota times the ratios of the request. *)
Definition scale_quota (info : RelayInfo) : RelayInfo :=
  if decide (ri_OriginModelName info ∈ TaskPricePatches) then info
  else
    let p := ri_PriceData info in
    let '(quota, clamp) := Quota.QuotaFromFloatChecked
      (ApplyOtherRatiosToFloat range p (F64.of_Z (pd_Quota p))) in
    noteTaskQuotaClamp clamp (set_price (fun p => p <| pd_Quota := quota |>) info).

Definition recalcQuotaFromRatios (info : RelayInfo) (ratios : gmap string F64.float64)
    : RelayInfo * option Z :=
  let p := ri_PriceData info in
  let baseQuota := RemoveOtherRatiosFromFloat range p (F64.of_Z (pd_Quota p)) in
  let '(priceData, ok) := ReplaceOtherRatios range p ratios in
  if negb ok then (info, None)
  else
    let '(quota, clamp) := Quota.QuotaFromFloatChecked (ApplyOtherRatiosToFloat range priceData baseQuota) in
    (noteTaskQuotaClamp clamp info, Some quota).

(** Step 11: the upstream's own figures replace the estimate. *)
Definition adjust_on_submit (adjusted : gmap string F64.float64) (info : RelayInfo) : RelayInfo * Z :=
  if decide (adjusted = ∅) then (info, pd_Quota (ri_PriceData info))
  else match recalcQuotaFromRatios info adjusted with
  | (info, Some quota) =>
      (set_price (fun p => (ReplaceOtherRatios range p adjusted).1 <| pd_Quota := quota |>) info, quota)
  | (info, None) => (info, pd_Quota (ri_PriceData info))
  end.

Definition lift_api {A} (m : M Ctx NewAPIError A) : M PS TaskError A := fun st =>
  match m (ps_ctx st) with
  | (Ok a, c') => (Ok a, st <| ps_ctx := c' |>)
  | (Err e, c') => (Err (TaskErrorFromAPIError e), st <| ps_ctx := c' |>)
  end.

(** src/service/task.go *)
Definition CoverTaskActionToModelName (platform action : string) : string :=
  GoStrings.lower_ascii platform +:+ "_" +:+ GoStrings.lower_ascii action.

(** [meta] is the channel that InitChannelMeta finds in the context;
    [ModelMappedHelper] can refuse the model. *)
Definition RelayTaskSubmit (g : GinContext) (meta : ChannelMeta) (adaptor : TaskSubmitAdaptor) (platform : string)
    (ModelMappedHelper : RelayInfo -> result error unit) (tokenQuota : Z) : M PS TaskError TaskSubmitResult :=
  set_ps_info (fun i => i <| ri_ChannelMeta := Some meta |>) ;;
  info ← gets ps_info;
  action ← of_result (ValidateRequestAndSetAction adaptor info);
  set_ps_info (fun i => i <| ri_OriginModelName :=
    if decide (ri_OriginModelName i = "") then CoverTaskActionToModelName platform action
    else ri_OriginModelName i |>) ;;
  info ← gets ps_info;
  map_err (fun e => TaskErrorWrapperLocal (GPlain e) "model_mapping_failed" 400)
    (of_result (ModelMappedHelper info)) ;;
  priceData ← map_err (fun e => TaskErrorWrapper e "model_price_error" 400)
                (ModelPriceHelperPerCall (Prog := Prog) cfg g);
  set_ps_info (fun i => i <| ri_PriceData := priceData |>) ;;
  info ← gets ps_info;
  set_ps_info (set_price (add_ratios_of (EstimateBilling adaptor info))) ;;
  set_ps_info scale_quota ;;
  bill ← gets (fun st => c_bill (ps_ctx st));
  info ← gets ps_info;
  (match bill with
   | None =>
       if FreeModel (ri_PriceData info) then mret tt
       else
         set_ps_info (fun i => i <| ri_ForcePreConsume := true |>) ;;
         lift_api (PreConsumeBilling tokenQuota (pd_Quota (ri_PriceData info)))
   | Some _ => mret tt
   end) ;;
  info ← gets ps_info;
  body ← map_err (fun e => TaskErrorWrapper (GPlain e) "build_request_failed" 500)
           (of_result (BuildRequestBody adaptor info));
  resp ← map_err (fun e => TaskErrorWrapper (GPlain e) "do_request_failed" 500)
           (of_result (DoRequest adaptor info body));
  (match resp with
   | Some status =>
       guard_err (negb (status =? 200))
         (TaskErrorWrapper (GPlain (ErrNew ("upstream returned status " +:+ pretty status)))
            "fail_to_fetch_task" status)
   | None => mret tt
   end) ;;
  '(upstreamTaskID, taskData) ← of_result (DoResponse adaptor info);
  let adjusted := AdjustBillingOnSubmit adaptor info taskData in
  let finalQuota := (adjust_on_submit adjusted info).2 in
  set_ps_info (fun i => (adjust_on_submit adjusted i).1) ;;
  mret (mkSubmitResult upstreamTaskID taskData platform finalQuota).

(** ** Retries *)

Definition shouldRetryTaskRelay (skipAffinity specificChannel : bool) (taskErr : TaskError) (retryTimes : Z)
    : bool :=
  let code := te_StatusCode taskErr in
  if skipAffinity then false
  else if retryTimes <=? 0 then false
  else if specificChannel then false
  else if code =? 429 then true
  else if code =? 307 then true
  else if Z.quot code 100 =? 5 then negb (IsAlwaysSkipRetryStatusCode code)
  else if code =? 400 then false
  else if code =? 408 then false
  else if te_LocalError taskErr then false
  else if Z.quot code 100 =? 2 then false
  else true.

(** One turn of the loop: what the context and the channel selection answer. *)
Record Attempt := mkAttempt {
  at_disconnected : bool;                  (** the client is gone before the turn *)
  at_channel : result TaskError bool;      (** channel, body and rate limit: acquired or not *)
  at_gin : GinContext;
  at_adaptor : TaskSubmitAdaptor;
  at_platform : string;
  at_meta : ChannelMeta;
  at_mapped : RelayInfo -> result error unit;
  at_disconnected_after : bool;
  at_skipAffinity : bool;
  at_specificChannel : bool;
  at_retriesLeft : Z;
}.

(** The variables of the loop. *)
Record LoopState := mkLoop {
  lp_result : option TaskSubmitResult;
  lp_taskErr : option TaskError;
  lp_upstreamAttempted : bool;
  lp_channelRateLimited : bool;
}.
#[local] Instance LoopState_settable : Settable LoopState :=
  fields_of mkLoop < lp_result; lp_taskErr; lp_upstreamAttempted; lp_channelRateLimited >.

Fixpoint submit_loop (tokenQuota : Z) (attempts : list Attempt) (l : LoopState) : M PS error LoopState :=
  match attempts with
  | [] => mret l
  | a :: attempts =>
      if at_disconnected a then mret l
      else match at_channel a with
      | Err e => mret (l <| lp_taskErr := Some e |>)
      | Ok false => submit_loop tokenQuota attempts (l <| lp_channelRateLimited := true |>)
      | Ok true =>
          r ← attempt (RelayTaskSubmit (at_gin a) (at_meta a) (at_adaptor a) (at_platform a) (at_mapped a) tokenQuota);
          match r with
          | Ok result => mret (mkLoop (Some result) None true (lp_channelRateLimited l))
          | Err e =>
              let l : LoopState := mkLoop None (Some e) true (lp_channelRateLimited l) in
              if at_disconnected_after a then mret l
              else if shouldRetryTaskRelay (at_skipAffinity a) (at_specificChannel a) e (at_retriesLeft a)
              then submit_loop tokenQuota attempts l
              else mret l
          end
      end
  end.

Definition rate_limited : TaskError :=
  TaskErrorWrapperLocal (GPlain (ErrNew "all candidate channels are locally rate limited"))
    "channel_rate_limited" 429.

(** ** The handler *)

(** The values of the request that only the task row needs. *)
Record TaskRequest := mkTaskRequest {
  tq_PublicTaskID : string;
  tq_Action : string;
  tq_UpstreamModelName : string;
  tq_ApiKey : string;
  tq_NodeName : string;
}.

Definition InitTask (now : Z) (platform : string) (q : TaskRequest) (info : RelayInfo) : Task :=
  let '(key, upstream, origin) :=
    match ri_ChannelMeta info with
    | Some ch =>
        (if (cm_ChannelType ch =? ChannelTypeGemini) || (cm_ChannelType ch =? ChannelTypeVertexAi)
         then tq_ApiKey q else "", tq_UpstreamModelName q, ri_OriginModelName info)
    | None => ("", "", "")
    end in
  mkTask 0 (tq_PublicTaskID q) platform (ri_UserId info) (ri_UsingGroup info)
    (match ri_ChannelMeta info with Some ch => cm_ChannelId ch | None => 0 end) 0 "" TaskStatusNotStart ""
    now 0 0 "0%" (mkProperties "" upstream origin) (mkPrivateData key "" "" "" 0 0 "" None) "".

Definition task_row (now : Z) (q : TaskRequest) (info : RelayInfo) (result : TaskSubmitResult) : Task :=
  let p := ri_PriceData info in
  let task := InitTask now (sr_Platform result) q info in
  task <| tk_PrivateData := mkPrivateData (pv_Key (tk_PrivateData task)) (sr_UpstreamTaskID result) ""
            (ri_BillingSource info) (ri_SubscriptionId info) (ri_TokenId info) (tq_NodeName q)
            (Some (mkBillingContext (ModelPrice p) (GroupRatio (pd_GroupRatioInfo p)) (ModelRatio p)
               (OtherRatios range p) (ri_OriginModelName info)
               (bool_decide (ri_OriginModelName info ∈ TaskPricePatches) || UsePrice p))) |>
       <| tk_Quota := sr_Quota result |> <| tk_Data := sr_TaskData result |> <| tk_Action := tq_Action q |>.

(** The statistics of LogTaskConsumption; its log row is left out. *)
Definition LogTaskConsumption (info : RelayInfo) : MW unit :=
  UpdateUserUsedQuotaAndRequestCount (ri_UserId info) (pd_Quota (ri_PriceData info)) ;;
  UpdateChannelUsedQuota (match ri_ChannelMeta info with Some ch => cm_ChannelId ch | None => 0 end)
    (pd_Quota (ri_PriceData info)).

(** What the handler does after the loop.  [RTPanic]: result is nil and taskErr too, so
    reading result.Quota panics. *)
Inductive RelayTaskOutcome :=
| RTStored (task : Task) (inserted : bool)
| RTError (e : TaskError)
| RTPanic.

Definition RelayTask (tokenQuota : Z) (q : TaskRequest) (attempts : list Attempt) : M PS error RelayTaskOutcome :=
  l ← submit_loop tokenQuota attempts (mkLoop None None false false);
  let taskErr := match lp_taskErr l with
                 | None => if lp_channelRateLimited l && negb (lp_upstreamAttempted l)
                           then Some rate_limited else None
                 | e => e
                 end in
  match taskErr, lp_result l with
  | Some e, _ => ignore_err (on_ctx RefundBilling) ;; mret (RTError e)
  | None, None => mret RTPanic
  | None, Some result =>
      ignore_err (on_ctx (SettleBilling (sr_Quota result))) ;;
      info ← gets ps_info;
      on_world (LogTaskConsumption info) ;;
      now ← gets (fun st => w_now (c_w (ps_ctx st)));
      let task := task_row now q info result in
      r ← attempt (on_world (InsertTask task));
      mret (match r with Ok t => RTStored t true | Err _ => RTStored task false end)
  end.
End submit.
