(* ===== verification/TextQuotaProofs.v ===== *)
(** * Facts about text charges

    The charge as an exact rational formula, its bounds, its monotonicity, and
    the handler from the pre-consumed session to the settled one. *)

From Stdlib Require Import SpecFloat QArith Qround Qminmax Lqa.
From S2P Require Import Prelude GoStd GoFloat QuotaMath Usage PriceData RatioSetting ToolPrices BillingExpr World Sample ModelUtils UserModel TokenModel BatchUpdate Funding ApiError BillingSession BillingProofs Pricing PricingProofs TextQuota.
#[local] Open Scope Z_scope.

(** ** Rounding *)

#[export] Instance half_away_proper : Proper (Qeq ==> eq) half_away.
Proof.
  intros x y Hxy. unfold half_away.
  assert (Hb : Qle_bool 0 x = Qle_bool 0 y).
  { apply eq_true_iff_eq. rewrite !Qle_bool_iff. by rewrite Hxy. }
  rewrite Hb. destruct (Qle_bool 0 y); [|f_equal]; apply Qfloor_comp; by rewrite Hxy.
Qed.

Lemma half_away_nonneg q : (0 <= q)%Q -> 0 <= half_away q.
Proof.
  intros Hq. unfold half_away. rewrite (proj2 (Qle_bool_iff 0 q) Hq).
  change 0%Z with (Qfloor 0). apply Qfloor_resp_le. lra.
Qed.

Lemma half_away_neg q : (q < 0)%Q -> half_away q = - Qfloor (- q + (1 # 2)).
Proof.
  intros Hq. unfold half_away. destruct (Qle_bool 0 q) eqn:E; [|done].
  apply Qle_bool_iff in E. exfalso. by apply (Qlt_not_le q 0).
Qed.
Lemma half_away_pos q : (0 <= q)%Q -> half_away q = Qfloor (q + (1 # 2)).
Proof. intros Hq. unfold half_away. by rewrite (proj2 (Qle_bool_iff 0 q) Hq). Qed.

Lemma half_away_mono p q : (p <= q)%Q -> half_away p <= half_away q.
Proof.
  intros Hpq. destruct (Qlt_le_dec q 0) as [Hq|Hq].
  - assert (Hp : (p < 0)%Q) by lra. rewrite !half_away_neg by done.
    assert (Qfloor (- q + (1 # 2)) <= Qfloor (- p + (1 # 2))) by (apply Qfloor_resp_le; lra). lia.
  - destruct (Qlt_le_dec p 0) as [Hp|Hp].
    + rewrite half_away_neg by done. pose proof (half_away_nonneg q Hq).
      assert (0 <= Qfloor (- p + (1 # 2))) by (change 0 with (Qfloor 0); apply Qfloor_resp_le; lra). lia.
    + rewrite !half_away_pos by done. apply Qfloor_resp_le. lra.
Qed.

Lemma clampZ_mono a b : a <= b -> Quota.clampZ a <= Quota.clampZ b.
Proof. unfold Quota.clampZ. lia. Qed.
Lemma clampZ_nonneg a : 0 <= a -> 0 <= Quota.clampZ a.
Proof. unfold Quota.clampZ, Quota.MaxQuota, Quota.MinQuota. lia. Qed.

(** ** The reference formula *)

Section formula.
Context `{DecimalLaws D} (rs : RatioSettings) (tools : option toolPriceIndex) (perUnit : F64.float64)
  (range : gmap string F64.float64 -> list (string * F64.float64)) (g : TextGin).
Implicit Types s : textQuotaSummary D.

Definition fval (x : F64.float64) : Q := dec_val (NewFromFloat (D := D) x).

(** Prompt tokens include the cached and cache-written ones. *)
Definition total_style (legacy : bool) s : bool :=
  negb (ts_IsClaudeUsageSemantic s) && negb legacy.

Definition audio_price s : F64.float64 := GetGeminiInputAudioPricePerMillionTokens (ts_ModelName s).
Definition audio_priced s : bool :=
  negb (ts_AudioTokens s =? 0) && F64.ltb F64.zero (audio_price s).
(** The separately priced audio input (a decimal: its division is rounded). *)
Definition audio_quota s : D :=
  if audio_priced s then
    dMul (dMul (dMul (dDiv (NewFromFloat (audio_price s)) (NewFromInt 1000000))
                     (NewFromInt (ts_AudioTokens s))) (NewFromFloat (ts_GroupRatio s)))
         (NewFromFloat perUnit)
  else dZero.

(** Prompt tokens billed at the plain rate, never negative. *)
Definition base_tokens (legacy : bool) s : Z :=
  Z.max 0 (ts_PromptTokens s
    - (if total_style legacy s then ts_CacheTokens s + ts_CacheCreationTokens s else 0)
    - ts_ImageTokens s - (if audio_priced s then ts_AudioTokens s else 0)).

Definition cache_write_cost (legacy : bool) s : Q :=
  (if total_style legacy s then inject_Z (ts_CacheCreationTokens s) * fval (ts_CacheCreationRatio s)
   else if negb (ts_CacheCreationTokens s =? 0)%Z || (ts_CacheCreationTokens5m s >? 0)%Z
           || (ts_CacheCreationTokens1h s >? 0)%Z
   then inject_Z (Z.max 0 (ts_CacheCreationTokens s - ts_CacheCreationTokens5m s
                            - ts_CacheCreationTokens1h s)) * fval (ts_CacheCreationRatio s)
        + inject_Z (ts_CacheCreationTokens5m s) * fval (ts_CacheCreationRatio5m s)
        + inject_Z (ts_CacheCreationTokens1h s) * fval (ts_CacheCreationRatio1h s)
   else 0)%Q.

(** model ratio times group ratio *)
Definition unit_ratio s : Q := (fval (ts_ModelRatio s) * fval (ts_GroupRatio s))%Q.

(** The exact cost of a request priced per token. *)
Definition text_cost (legacy : bool) (p : PriceData) s : Q :=
  (((inject_Z (base_tokens legacy s) + inject_Z (ts_CacheTokens s) * fval (ts_CacheRatio s)
     + inject_Z (ts_ImageTokens s) * fval (ts_ImageRatio s) + cache_write_cost legacy s
     + inject_Z (ts_CompletionTokens s) * fval (ts_CompletionRatio s)) * unit_ratio s
    + dec_val (ts_ToolCallSurchargeQuota s) + dec_val (audio_quota s))
   * ratio_product (D := D) (range (otherRatios p)))%Q.

Lemma dIsZero_int z : dIsZero (NewFromInt (D := D) z) = (z =? 0).
Proof.
  apply eq_true_iff_eq. rewrite dIsZero_val, NewFromInt_val, Z.eqb_eq.
  change 0%Q with (inject_Z 0). apply inject_Z_injective.
Qed.
Lemma dZero_val : (dec_val (dZero (D := D)) == 0)%Q.
Proof. unfold dZero. apply NewFromInt_val. Qed.
Lemma dIsNegative_int (d : D) z : (dec_val d == inject_Z z)%Q -> dIsNegative d = (z <? 0).
Proof.
  intros Hd. apply eq_true_iff_eq. rewrite dIsNegative_val, Hd, Z.ltb_lt.
  change 0%Q with (inject_Z 0). by rewrite <- Zlt_Qlt.
Qed.

(** Removing [n] tokens of one kind from the base, when there are any. *)
Lemma split_tokens (b : D) z n (sub : bool) (r : D) :
  (dec_val b == inject_Z z)%Q ->
  let '(b', cost) := (if negb (dIsZero (NewFromInt (D := D) n))
                      then ((if sub then dSub b (NewFromInt n) else b), dMul (NewFromInt n) r)
                      else (b, dZero)) in
  (dec_val b' == inject_Z (z - if sub then n else 0))%Q /\ (dec_val cost == inject_Z n * dec_val r)%Q.
Proof.
  intros Hb. rewrite dIsZero_int. destruct (n =? 0) eqn:En; bools; cbn [negb].
  - subst n. rewrite Hb, dZero_val. split; [destruct sub; by rewrite Z.sub_0_r|]. unfold inject_Z. ring.
  - rewrite dMul_val, NewFromInt_val. split; [|done]. destruct sub; [|by rewrite Z.sub_0_r].
    rewrite dSub_val, Hb, NewFromInt_val. unfold Z.sub. rewrite inject_Z_plus, inject_Z_opp. ring.
Qed.

Lemma max0_val z : (inject_Z (if z <? 0 then 0 else z)%Z == inject_Z (Z.max 0 z))%Q.
Proof. destruct (z <? 0) eqn:E; bools; [rewrite Z.max_l by lia|rewrite Z.max_r by lia]; reflexivity. Qed.

(** Cache writes: removed from the base and priced at one ratio, or priced apart. *)
Lemma split_cache_writes (b : D) z legacy s :
  (dec_val b == inject_Z z)%Q ->
  let dcc := NewFromInt (D := D) (ts_CacheCreationTokens s) in
  let ccr := NewFromFloat (ts_CacheCreationRatio s) in
  let '(b', cost) :=
    (if negb (dIsZero dcc) || ((ts_CacheCreationTokens5m s >? 0) || (ts_CacheCreationTokens1h s >? 0)) then
       if total_style legacy s then (dSub b dcc, dMul dcc ccr)
       else
         let remaining := ts_CacheCreationTokens s - ts_CacheCreationTokens5m s
                          - ts_CacheCreationTokens1h s in
         let remaining := if remaining <? 0 then 0 else remaining in
         (b, dAdd (dAdd (dMul (NewFromInt remaining) ccr)
                        (dMul (NewFromInt (ts_CacheCreationTokens5m s))
                              (NewFromFloat (ts_CacheCreationRatio5m s))))
                  (dMul (NewFromInt (ts_CacheCreationTokens1h s))
                        (NewFromFloat (ts_CacheCreationRatio1h s))))
     else (b, dZero)) in
  (dec_val b' == inject_Z (z - if total_style legacy s then ts_CacheCreationTokens s else 0))%Q /\
  (dec_val cost == cache_write_cost legacy s)%Q.
Proof.
  intros Hb. cbv zeta. rewrite dIsZero_int, orb_assoc. unfold cache_write_cost.
  set (n := ts_CacheCreationTokens s).
  destruct (negb (n =? 0) || (ts_CacheCreationTokens5m s >? 0) || (ts_CacheCreationTokens1h s >? 0)) eqn:E;
    destruct (total_style legacy s).
  - rewrite dSub_val, Hb, dMul_val, NewFromInt_val. split; [|done].
    unfold Z.sub. rewrite inject_Z_plus, inject_Z_opp. ring.
  - rewrite !dAdd_val, !dMul_val, !NewFromInt_val, max0_val, Z.sub_0_r. done.
  - bools. rewrite Hb, dZero_val. assert (n = 0) as -> by lia. rewrite Z.sub_0_r. split; [done|].
    unfold inject_Z. ring.
  - rewrite dZero_val, Z.sub_0_r. done.
Qed.

(** Audio input priced apart. *)
Lemma split_audio (b : D) z s :
  (dec_val b == inject_Z z)%Q ->
  let '(s', b', aq) :=
    (if negb (dIsZero (NewFromInt (D := D) (ts_AudioTokens s))) then
       let price := GetGeminiInputAudioPricePerMillionTokens (ts_ModelName s) in
       let s1 : textQuotaSummary D := s <| ts_AudioInputPrice := price |> in
       if F64.ltb F64.zero price then
         (s1, dSub b (NewFromInt (ts_AudioTokens s)),
          dMul (dMul (dMul (dDiv (NewFromFloat price) (NewFromInt 1000000))
                           (NewFromInt (ts_AudioTokens s))) (NewFromFloat (ts_GroupRatio s)))
               (NewFromFloat perUnit))
       else (s1, b, dZero)
     else (s, b, dZero)) in
  (dec_val b' == inject_Z (z - if audio_priced s then ts_AudioTokens s else 0))%Q /\
  aq = audio_quota s /\ exists x, s' = s <| ts_AudioInputPrice := x |>.
Proof.
  intros Hb. cbv zeta. unfold audio_quota, audio_priced, audio_price. rewrite dIsZero_int.
  assert (Hs : exists x, s = s <| ts_AudioInputPrice := x |>)
    by (exists (ts_AudioInputPrice s); by destruct s).
  destruct (ts_AudioTokens s =? 0); cbn [negb andb]; [by rewrite Z.sub_0_r|].
  destruct (F64.ltb F64.zero _); [|rewrite Z.sub_0_r; eauto].
  split; [|eauto]. rewrite dSub_val, Hb, NewFromInt_val. cbn.
  unfold Z.sub. rewrite inject_Z_plus, inject_Z_opp. ring.
Qed.

Lemma dIsZero_Qeq (d : D) x : (dec_val d == x)%Q -> dIsZero d = Qeq_bool x 0.
Proof. intros Hd. apply eq_true_iff_eq. by rewrite dIsZero_val, Qeq_bool_iff, Hd. Qed.
Lemma dLe_zero (d : D) x : (dec_val d == x)%Q -> dLessThanOrEqual d dZero = Qle_bool x 0.
Proof.
  intros Hd. apply eq_true_iff_eq. by rewrite dLessThanOrEqual_val, Qle_bool_iff, Hd, dZero_val.
Qed.

Lemma text_amount_val legacy p s :
  let '(s', amount) := text_amount perUnit range legacy p s in
  (dec_val amount ==
     if negb (Qeq_bool (unit_ratio s) 0) && Qle_bool (text_cost legacy p s) 0 then 1
     else text_cost legacy p s)%Q /\
  exists x, s' = s <| ts_AudioInputPrice := x |>.
Proof.
  unfold text_amount. cbv zeta. fold (total_style legacy s).
  match goal with |- context [if negb (dIsZero (NewFromInt (ts_CacheTokens s))) then (?a, ?c) else (?b, dZero)] =>
    pose proof (split_tokens b (ts_PromptTokens s) (ts_CacheTokens s) (total_style legacy s)
                  (NewFromFloat (ts_CacheRatio s)) (NewFromInt_val _)) as H1 end.
  destruct (if negb (dIsZero (NewFromInt (ts_CacheTokens s))) then _ else _) as [b1 c1].
  destruct H1 as [Hb1 Hc1].
  pose proof (split_cache_writes b1 _ legacy s Hb1) as H2. cbv zeta in H2.
  destruct (if negb (dIsZero (NewFromInt (ts_CacheCreationTokens s))) || _ then _ else _) as [b2 c2].
  destruct H2 as [Hb2 Hc2].
  pose proof (split_tokens b2 _ (ts_ImageTokens s) true (NewFromFloat (ts_ImageRatio s)) Hb2) as H3.
  cbv iota in H3.
  destruct (if negb (dIsZero (NewFromInt (ts_ImageTokens s))) then _ else _) as [b3 c3].
  destruct H3 as [Hb3 Hc3].
  pose proof (split_audio b3 _ s Hb3) as H4. cbv zeta in H4.
  destruct (if negb (dIsZero (NewFromInt (ts_AudioTokens s))) then _ else _) as [[s' b4] aq].
  destruct H4 as (Hb4 & -> & x & ->).
  assert (Hbase : (dec_val (if dIsNegative b4 then dZero else b4) == inject_Z (base_tokens legacy s))%Q).
  { rewrite (dIsNegative_int _ _ Hb4). unfold base_tokens.
    match type of Hb4 with (_ == inject_Z ?z)%Q => set (n := z) in * end.
    replace (_ - _ - _ - _) with n by (unfold n; destruct (total_style legacy s); lia).
    rewrite <- max0_val. destruct (n <? 0); [apply dZero_val|exact Hb4]. }
  match goal with |- context [ApplyOtherRatiosToDecimal range p ?a] => set (a0 := a) end.
  assert (Ha : (dec_val (ApplyOtherRatiosToDecimal range p a0) == text_cost legacy p s)%Q).
  { rewrite ApplyOtherRatiosToDecimal_val. unfold a0, text_cost, unit_ratio, fval. cbn.
    rewrite !dAdd_val, !dMul_val, !dAdd_val, Hbase, Hc1, Hc2, Hc3, !dMul_val, !NewFromInt_val.
    ring. }
  rewrite (dIsZero_Qeq _ (unit_ratio s)) by apply dMul_val.
  rewrite (dLe_zero _ _ Ha). split; [|eauto].
  destruct (_ && _); [apply NewFromInt_val|exact Ha].
Qed.

(** ** The fields of the summary *)

Definition token_counts s :=
  (ts_PromptTokens s, ts_CompletionTokens s, ts_TotalTokens s, ts_CacheTokens s,
   ts_CacheCreationTokens s, ts_CacheCreationTokens5m s, ts_CacheCreationTokens1h s,
   ts_ImageTokens s, ts_AudioTokens s).
Definition rates s :=
  (ts_ModelName s, ts_CompletionRatio s, ts_CacheRatio s, ts_ImageRatio s, ts_ModelRatio s,
   ts_GroupRatio s, ts_ModelPrice s, ts_CacheCreationRatio s, ts_CacheCreationRatio5m s,
   ts_CacheCreationRatio1h s, ts_IsClaudeUsageSemantic s).
(** The usage that is counted. *)
Definition counted (info : RelayInfo) (usage : option Usage) : Usage :=
  default (estimated_usage info) usage.
(** OpenRouter's Claude answers: their prompt tokens are corrected first. *)
Definition openrouter (info : RelayInfo) (usage : option Usage) : bool :=
  match ri_ChannelMeta info with
  | Some m => (cm_ChannelType m =? ChannelTypeOpenRouter)
              && bool_decide (usageSemanticFromUsage info usage = "anthropic")
  | None => false
  end.

Lemma surcharge_fields info s :
  let s' := (calculateTextToolCallSurcharge tools perUnit g info s).1 in
  token_counts s' = token_counts s /\ rates s' = rates s.
Proof.
  unfold calculateTextToolCallSurcharge. cbv zeta.
  destruct (ri_ResponsesUsageInfo info) as [b|]; simpl;
    repeat match goal with
    | |- context [match b !! ?k with _ => _ end] => destruct (b !! k); simpl
    | |- context [if ?c then _ else _] => destruct c; simpl
    end; done.
Qed.

(** The surcharge depends on the rates alone. *)
Lemma surcharge_value info s s' :
  rates s' = rates s ->
  (calculateTextToolCallSurcharge tools perUnit g info s').2
  = (calculateTextToolCallSurcharge tools perUnit g info s).2.
Proof.
  intros Hr. unfold rates in Hr. injection Hr as Hm _ _ _ _ Hg _ _ _ _ _.
  unfold calculateTextToolCallSurcharge. cbv zeta. rewrite Hm, Hg.
  destruct (ri_ResponsesUsageInfo info) as [b|]; simpl;
    repeat match goal with
    | |- context [match b !! ?k with _ => _ end] => destruct (b !! k); simpl
    | |- context [if ?c then _ else _] => destruct c; simpl
    end; done.
Qed.

Lemma adjust_fields info u usage s :
  ts_IsClaudeUsageSemantic s = bool_decide (usageSemanticFromUsage info usage = "anthropic") ->
  let s' := adjust_openrouter rs perUnit info u s in
  rates s' = rates s /\ ts_TotalTokens s' = ts_TotalTokens s /\
  (openrouter info usage = false -> token_counts s' = token_counts s).
Proof.
  intros Hc. unfold adjust_openrouter, openrouter. rewrite <- Hc. cbv zeta.
  destruct (ri_ChannelMeta info) as [m|]; [|done].
  destruct (_ && ts_IsClaudeUsageSemantic s); [|done].
  repeat case_match; done.
Qed.

(** The exact cost of a request with a fixed price. *)
Definition price_cost (p : PriceData) s : Q :=
  ((fval (ts_ModelPrice s) * fval perUnit * fval (ts_GroupRatio s)
    + dec_val (ts_ToolCallSurchargeQuota s)) * ratio_product (D := D) (range (otherRatios p)))%Q.

(** What is charged for [total] tokens at [cost]: nothing without tokens, and at
    least 1 when the ratio is not 0 and the request is billed by tokens. *)
Definition charge (by_tokens : bool) (total : Z) (ratio cost : Q) : Z :=
  let q := Quota.clampZ (half_away cost) in
  if total =? 0 then 0
  else if Qeq_bool ratio 0 then q
  else if by_tokens then Z.max 1 q
  else if q =? 0 then 1 else q.

Lemma price_amount_val p s : (dec_val (price_amount perUnit range p s) == price_cost p s)%Q.
Proof.
  unfold price_amount, price_cost, fval.
  rewrite ApplyOtherRatiosToDecimal_val, !dAdd_val, !dMul_val, dZero_val. ring.
Qed.

Lemma half_away_nonpos q : (q <= 0)%Q -> half_away q <= 0.
Proof. intros Hq. change 0 with (half_away 0). by apply half_away_mono. Qed.

Lemma charge_of_amount total ratio cost q :
  q = Quota.clampZ (half_away (if negb (Qeq_bool ratio 0) && Qle_bool cost 0 then 1 else cost)) ->
  (if total =? 0 then 0 else if negb (Qeq_bool ratio 0) && (q =? 0) then 1 else q)
  = charge true total ratio cost.
Proof.
  intros ->. unfold charge. destruct (total =? 0); [done|].
  destruct (Qeq_bool ratio 0); [done|]. cbn [negb andb].
  destruct (Qle_bool cost 0) eqn:E.
  - apply Qle_bool_iff in E. pose proof (half_away_nonpos cost E) as Hz.
    change (half_away 1) with 1. unfold Quota.clampZ, Quota.MinQuota, Quota.MaxQuota. simpl. lia.
  - assert (Hc : (0 <= cost)%Q).
    { apply Qnot_lt_le. intros Hlt. apply Qlt_le_weak, Qle_bool_iff in Hlt. congruence. }
    pose proof (clampZ_nonneg _ (half_away_nonneg _ Hc)).
    destruct (_ =? 0) eqn:E0; bools; lia.
Qed.

Lemma text_quota_run now info usage :
  let p := ri_PriceData info in
  let s := (calculateTextQuotaSummary rs tools perUnit range g now info usage).1 in
  let legacy := isLegacyClaudeDerivedOpenAIUsage info (counted info usage) in
  ts_Quota s = (if UsePrice p
                then charge false (ts_TotalTokens s) (unit_ratio s) (price_cost p s)
                else charge true (ts_TotalTokens s) (unit_ratio s) (text_cost legacy p s)) /\
  rates s = rates (new_summary g now info usage) /\
  ts_TotalTokens s = us_PromptTokens (counted info usage) + us_CompletionTokens (counted info usage) /\
  (openrouter info usage = false ->
   token_counts s = token_counts (count_tokens (counted info usage) (new_summary g now info usage))) /\
  ts_ToolCallSurchargeQuota s
  = (calculateTextToolCallSurcharge tools perUnit g info (new_summary g now info usage)).2.
Proof.
  cbv zeta. unfold calculateTextQuotaSummary. cbv zeta. fold (counted info usage).
  set (u := counted info usage). set (s0 := new_summary g now info usage).
  set (legacy := isLegacyClaudeDerivedOpenAIUsage info u). set (p := ri_PriceData info).
  set (s1 := count_tokens u s0).
  destruct (adjust_fields info u usage s1 eq_refl) as (Hr2 & Ht2 & Hc2).
  set (s2 := adjust_openrouter rs perUnit info u s1) in *. clearbody s2.
  destruct (surcharge_fields info s2) as [Hc3 Hr3].
  rewrite <- (surcharge_value info s0 s2) by exact Hr2.
  destruct (calculateTextToolCallSurcharge tools perUnit g info s2) as [s3 surcharge]. simpl in Hc3, Hr3.
  set (s4 := s3 <| ts_ToolCallSurchargeQuota := surcharge |> : textQuotaSummary D).
  rewrite (dIsZero_Qeq _ (unit_ratio s2)) by apply dMul_val.
  assert (Hu : unit_ratio s2 = unit_ratio s4).
  { unfold unit_ratio. change (ts_ModelRatio s4) with (ts_ModelRatio s3).
    change (ts_GroupRatio s4) with (ts_GroupRatio s3). unfold rates in Hr3. injection Hr3. congruence. }
  rewrite Hu.
  assert (Hend : rates s4 = rates s0 /\ ts_TotalTokens s4 = us_PromptTokens u + us_CompletionTokens u /\
    (openrouter info usage = false -> token_counts s4 = token_counts s1) /\
    ts_ToolCallSurchargeQuota s4 = surcharge).
  { split; [by transitivity (rates s2)|]. unfold token_counts in Hc3. split.
    - change (ts_TotalTokens s4) with (ts_TotalTokens s3). transitivity (ts_TotalTokens s2); [injection Hc3; congruence|exact Ht2].
    - split; [|done]. intros Ho. rewrite <- (Hc2 Ho). exact Hc3. }
  pose proof (text_amount_val legacy p s4) as Ha.
  destruct (UsePrice p); cbn [negb].
  - pose proof (Quota.QuotaFromDecimal_clamp (price_amount perUnit range p s4)) as Hq.
    destruct (Quota.QuotaFromDecimalChecked _) as [q c]. simpl in Hq. rewrite (price_amount_val p s4) in Hq.
    split; [|exact Hend]. cbn. subst q. unfold charge.
    change (unit_ratio (_ <| ts_Quota := _ |>)) with (unit_ratio s4).
    by destruct (ts_TotalTokens s3 =? 0), (Qeq_bool (unit_ratio s4) 0).
  - destruct (text_amount perUnit range legacy p s4) as [s5 amount]. destruct Ha as (Ha & x & ->).
    pose proof (Quota.QuotaFromDecimal_clamp amount) as Hq.
    destruct (Quota.QuotaFromDecimalChecked amount) as [q c]. simpl in Hq. rewrite Ha in Hq.
    split; [|exact Hend]. cbn. exact (charge_of_amount _ _ _ _ Hq).
Qed.

(** More completion tokens never cost less. *)
Lemma text_cost_mono legacy p s s' :
  rates s' = rates s -> ts_ToolCallSurchargeQuota s' = ts_ToolCallSurchargeQuota s ->
  (exists n t, ts_CompletionTokens s <= n /\
     token_counts s' = (ts_PromptTokens s, n, t, ts_CacheTokens s, ts_CacheCreationTokens s,
       ts_CacheCreationTokens5m s, ts_CacheCreationTokens1h s, ts_ImageTokens s, ts_AudioTokens s)) ->
  (0 <= fval (ts_CompletionRatio s))%Q -> (0 <= unit_ratio s)%Q ->
  unit_ratio s' = unit_ratio s /\ (text_cost legacy p s <= text_cost legacy p s')%Q.
Proof.
  intros Hr Hs (n & t & Hn & Hc) Hcr Hur.
  unfold rates in Hr. injection Hr as Hr1 Hr2 Hr3 Hr4 Hr5 Hr6 _ Hr7 Hr8 Hr9 Hr10.
  unfold token_counts in Hc. injection Hc as Hc1 Hc2 _ Hc3 Hc4 Hc5 Hc6 Hc7 Hc8.
  assert (Hu : unit_ratio s' = unit_ratio s) by (unfold unit_ratio; congruence).
  split; [exact Hu|]. unfold text_cost. rewrite Hu, Hs, Hc2, Hc3, Hc7, Hr2, Hr3, Hr4.
  replace (base_tokens legacy s') with (base_tokens legacy s)
    by (unfold base_tokens, total_style, audio_priced, audio_price;
        by rewrite Hr1, Hr10, Hc1, Hc3, Hc4, Hc7, Hc8).
  replace (audio_quota s') with (audio_quota s)
    by (unfold audio_quota, audio_priced, audio_price; by rewrite Hr1, Hr6, Hc8).
  replace (cache_write_cost legacy s') with (cache_write_cost legacy s)
    by (unfold cache_write_cost, total_style; by rewrite Hr7, Hr8, Hr9, Hr10, Hc4, Hc5, Hc6).
  apply Qmult_le_compat_r; [|apply ratio_product_nonneg].
  apply Qplus_le_compat; [|lra]. apply Qplus_le_compat; [|lra].
  apply Qmult_le_compat_r; [|done]. apply Qplus_le_compat; [lra|].
  apply Qmult_le_compat_r; [|done]. by rewrite <- Zle_Qle.
Qed.

Lemma charge_mono total total' ratio cost cost' :
  0 < total -> 0 < total' -> (cost <= cost')%Q ->
  charge true total ratio cost <= charge true total' ratio cost'.
Proof.
  intros H1 H2 Hc. unfold charge.
  rewrite (proj2 (Z.eqb_neq total 0)), (proj2 (Z.eqb_neq total' 0)) by lia.
  pose proof (clampZ_mono _ _ (half_away_mono _ _ Hc)). destruct (Qeq_bool ratio 0); lia.
Qed.


(** More completion tokens never cost less: the quota of a request priced per
    token is monotone in the completion tokens, the rest of the usage and the
    price being equal. *)
Theorem text_quota_monotone now info u n :
  let p := ri_PriceData info in
  let quota u := ts_Quota (calculateTextQuotaSummary rs tools perUnit range g now info (Some u)).1 in
  UsePrice p = false -> openrouter info (Some u) = false ->
  0 < us_PromptTokens u + us_CompletionTokens u -> us_CompletionTokens u <= n ->
  F64.leb F64.zero (CompletionRatio p) = true -> F64.leb F64.zero (ModelRatio p) = true ->
  F64.leb F64.zero (GroupRatio (pd_GroupRatioInfo p)) = true ->
  quota u <= quota (u <| us_CompletionTokens := n |> : Usage).
Proof.
  cbv beta zeta. intros Hup Ho Ht Hn Hc Hm Hg. set (u' := u <| us_CompletionTokens := n |> : Usage) in *.
  destruct (text_quota_run now info (Some u)) as (Hq & Hr & Htt & Hk & Hs).
  destruct (text_quota_run now info (Some u')) as (Hq' & Hr' & Htt' & Hk' & Hs').
  rewrite Hup in Hq, Hq'. rewrite Hq, Hq'. specialize (Hk Ho). specialize (Hk' Ho).
  change (isLegacyClaudeDerivedOpenAIUsage info (counted info (Some u')))
    with (isLegacyClaudeDerivedOpenAIUsage info (counted info (Some u))).
  set (s := (calculateTextQuotaSummary _ _ _ _ _ _ _ (Some u)).1) in *.
  set (s' := (calculateTextQuotaSummary _ _ _ _ _ _ _ (Some u')).1) in *. clearbody s s'.
  assert (Hrr : rates s' = rates s) by (rewrite Hr, Hr'; done).
  unfold token_counts in Hk. injection Hk as K1 K2 K3 K4 K5 K6 K7 K8 K9.
  unfold rates in Hr. injection Hr as _ R2 _ _ R5 R6 _ _ _ _ _.
  destruct (text_cost_mono (isLegacyClaudeDerivedOpenAIUsage info (counted info (Some u)))
    (ri_PriceData info) s s') as [Hu Hle].
  - done.
  - rewrite Hs, Hs'. by apply surcharge_value.
  - exists n, (us_PromptTokens u + n). split; [rewrite K2; exact Hn|].
    rewrite Hk', K1, K4, K5, K6, K7, K8, K9. done.
  - rewrite R2. by apply NewFromFloat_nonneg.
  - unfold unit_ratio. rewrite R5, R6. apply Qmult_le_0_compat; by apply NewFromFloat_nonneg.
  - rewrite Hu. apply charge_mono; [|rewrite Htt'; unfold counted; simpl; lia|done]. rewrite Htt. exact Ht.
Qed.
End formula.

(** ** A request of 1000 prompt tokens, 200 of them cached *)

Definition sample_price : PriceData :=
  zero_PriceData <| ModelRatio := F64.of_Z 2 |> <| CompletionRatio := F64.of_Z 4 |>
    <| CacheRatio := F64.div F64.one (F64.of_Z 2) |>
    <| pd_GroupRatioInfo := mkGroupRatio F64.one F64.zero false |>.
Definition priced_info : RelayInfo := sample_info <| ri_PriceData := sample_price |>.
Definition sample_usage : Usage :=
  zero_usage <| us_PromptTokens := 1000 |> <| us_CompletionTokens := 50 |>
    <| us_PromptTokensDetails := zero_input_details <| it_CachedTokens := 200 |> |>.
Definition sample_text_gin : TextGin := mkTextGin "t" 0 false "" "".
Definition sample_quota (usage : Usage) : Z :=
  ts_Quota (calculateTextQuotaSummary (D := Q) sample_ratios None (F64.of_Z 500000) map_to_list
              sample_text_gin 1700000000 priced_info (Some usage)).1.


Lemma text_quota_monotone_witness :
  sample_quota sample_usage <= sample_quota (sample_usage <| us_CompletionTokens := 60 |>).
Proof.
  exact (text_quota_monotone (D := Q) sample_ratios None (F64.of_Z 500000) map_to_list
           sample_text_gin 1700000000 priced_info sample_usage 60 eq_refl eq_refl
           ltac:(done) ltac:(done) eq_refl eq_refl eq_refl).
Defined.
