(* ===== verification/TextBillingProofs.v ===== *)
(** * The text handler from pre-consume to settlement

    [PostTextConsumeQuota] on a wallet session: what it computes is what the
    wallet and the token pay. *)

From Stdlib Require Import SpecFloat QArith.
From S2P Require Import Prelude GoStd GoFloat QuotaMath Usage PriceData RatioSetting ToolPrices BillingExpr World Sample ModelUtils UserModel TokenModel BatchUpdate Funding ApiError BillingSession BillingProofs Pricing PricingProofs TextQuota TextQuotaProofs.
#[local] Open Scope Z_scope.

(** No call fails, and the payer's rows are there. *)
Definition ready (uid tid : Z) (w : World) : Prop :=
  w_faults w = [] /\ has_user uid (w_db w) = true /\ has_token tid (w_db w) = true.
(** Statistics moved, no balance did. *)
Definition books (w w' : World) : Prop :=
  same_wallets w w' /\ same_tokens w w' /\ same_subs w w' /\
  forall uid tid, ready uid tid w -> ready uid tid w'.
#[export] Instance books_preorder : PreOrder books.
Proof.
  split.
  - intros w. split; [done|]. split; [done|]. split; [done|]. auto.
  - intros w1 w2 w3 (H1 & H2 & H3 & H4) (H5 & H6 & H7 & H8).
    split; [by transitivity w2|]. split; [by transitivity w2|]. split; [by transitivity w2|]. auto.
Qed.

Lemma addNewRecord_books t id value w :
  t <> BatchUpdateTypeUserQuota -> t <> BatchUpdateTypeTokenQuota ->
  exists w', addNewRecord t id value w = (Ok tt, w') /\ books w w'.
Proof.
  intros Ht1 Ht2. destruct (addNewRecord_run t id value w)
    as (w' & -> & Hd & _ & Hf & _ & _ & _ & _ & _ & Hp). exists w'. split; [done|].
  assert (Hpu : forall i, pending w' BatchUpdateTypeUserQuota i = pending w BatchUpdateTypeUserQuota i).
  { intros i. rewrite Hp, decide_False by (intros [? _]; congruence). lia. }
  assert (Hpt : forall i, pending w' BatchUpdateTypeTokenQuota i = pending w BatchUpdateTypeTokenQuota i).
  { intros i. rewrite Hp, decide_False by (intros [? _]; congruence). lia. }
  unfold books, same_wallets, same_tokens, same_subs, ready, wallet, token_remain, token_used.
  rewrite Hd, Hf. split; [by intros i; rewrite Hpu|].
  split; [split; intros i; by rewrite Hpt|]. by split.
Qed.

Lemma UpdateUserUsed_books id quota w :
  w_faults w = [] -> exists w', UpdateUserUsedQuotaAndRequestCount id quota w = (Ok tt, w') /\ books w w'.
Proof.
  intros Hf. unfold UpdateUserUsedQuotaAndRequestCount. rewrite run_bind. cbn [gets].
  destruct (BatchUpdateEnabled (w_cfg w)).
  - destruct (addNewRecord_books BatchUpdateTypeUsedQuota id quota w) as (w1 & E1 & B1); [done..|].
    destruct (addNewRecord_books BatchUpdateTypeRequestCount id 1 w1) as (w2 & E2 & B2); [done..|].
    exists w2. rewrite run_bind, E1. split; [done|by transitivity w1].
  - unfold updateUserUsedQuotaAndRequestCount, ignore_err, db_update. run_unfold.
    rewrite ext_call_ok by done. cbn [view]. destruct (has_user id (w_db w)) eqn:Hu; [|by eexists].
    eexists. split; [done|].
    assert (Hl : forall i f, (forall u, u_DeletedAt (f u) = u_DeletedAt u /\ u_Quota (f u) = u_Quota u) ->
       select_quota i (update_user id f (w_db w)) = select_quota i (w_db w) /\
       has_user i (update_user id f (w_db w)) = has_user i (w_db w)).
    { intros i f Hk. unfold select_quota, has_user. rewrite live_update_user by (intros; apply Hk).
      case_decide; [|done]. destruct (live_user (w_db w) i); simpl; [|done]. split; [apply Hk|done]. }
    unfold books, same_wallets, wallet, ready. simpl. split; [|split; [|split]]; try done.
    + intros i. f_equal. by apply Hl.
    + intros uid tid (Hf' & Hu' & Ht'). split; [done|]. split; [|done]. etransitivity; [by apply Hl|done].
Qed.

Lemma UpdateChannelUsed_books id quota w :
  w_faults w = [] -> exists w', UpdateChannelUsedQuota id quota w = (Ok tt, w') /\ books w w'.
Proof.
  intros Hf. unfold UpdateChannelUsedQuota. rewrite run_bind. cbn [gets].
  destruct (BatchUpdateEnabled (w_cfg w)); [by apply addNewRecord_books|].
  unfold updateChannelUsedQuota, ignore_err, db_update. run_unfold.
  rewrite ext_call_ok by done. cbn [view]. destruct (has_channel id (w_db w)); [|by eexists].
  eexists. split; [done|]. split; [done|]. split; [done|]. split; [done|]. auto.
Qed.

(** ** Settling a wallet session cannot fail when no call does *)

Lemma Wallet_Settle_total uid tid eff delta w :
  ready uid tid w ->
  exists w', Wallet_Settle (mkWallet uid eff) delta w = (Ok tt, w') /\
    w_faults w' = [] /\ has_token tid (w_db w') = true.
Proof.
  intros (Hf & Hu & Ht). unfold Wallet_Settle. cbn [wf_userId].
  destruct (delta =? 0); [by exists w|].
  unfold has_token, live_token in *. destruct (delta >? 0) eqn:Hd; bools.
  - destruct (DecreaseUserQuota_total uid delta false w) as (w' & E & Hf'); [lia|done..|].
    pose proof (DecreaseUserQuota_tokens uid delta false w) as Htt. rewrite E in Htt. simpl in Htt.
    exists w'. by rewrite Htt.
  - destruct (IncreaseUserQuota_total uid (- delta) false w) as (w' & E & Hf'); [lia|done..|].
    pose proof (IncreaseUserQuota_tokens uid (- delta) false w) as Htt. rewrite E in Htt. simpl in Htt.
    exists w'. by rewrite Htt.
Qed.

Lemma settle_token_total info delta w :
  w_faults w = [] -> has_token (ri_TokenId info) (w_db w) = true ->
  exists w', settle_token info delta w = (Ok tt, w').
Proof.
  intros Hf Ht. unfold settle_token. destruct (ri_IsPlayground info); [by exists w|].
  destruct (delta >? 0) eqn:Hd; bools.
  - destruct (DecreaseTokenQuota_total (ri_TokenId info) (ri_TokenKey info) delta w)
      as (w' & E & _); [lia|done..|eauto].
  - destruct (IncreaseTokenQuota_total (ri_TokenId info) (ri_TokenKey info) (- delta) w)
      as (w' & E & _); [lia|done..|eauto].
Qed.

Lemma wallet_Settle_total actual st info tr eff :
  ss_s st = wallet_session info tr eff ->
  ready (ri_UserId info) (ri_TokenId (ss_info st)) (ss_w st) ->
  (Settle actual st).1 = Ok tt.
Proof.
  intros Hs Hr. unfold Settle. rewrite run_bind. cbn [gets]. rewrite run_bind. cbn [gets].
  rewrite Hs. cbn [bs_settled wallet_session bs_preConsumedQuota bs_fundingSettled bs_funding negb].
  destruct (actual - eff =? 0); [done|].
  rewrite !run_bind. unfold lift at 1. cbn [fSettle FundingSource_Funding Wallet_Funding].
  destruct (Wallet_Settle_total _ _ eff (actual - eff) _ Hr) as (w1 & -> & Hf1 & Ht1).
  unfold set_s at 1. cbn [modify]. rewrite run_bind, run_attempt_lift.
  destruct (settle_token_total (ss_info st) (actual - eff) w1 Hf1 Ht1) as (w2 & E2).
  set (st1 := (st <| ss_w := w1 |>) <| ss_s := _ |>). change (ss_w st1) with w1. rewrite E2.
  cbn [fst snd]. rewrite run_bind. destruct (decide _); done.
Qed.

Lemma wallet_SettleBilling_total actual c info tr eff :
  c_bill c = Some (wallet_session info tr eff) -> same_identity info (c_info c) ->
  ready (ri_UserId info) (ri_TokenId info) (c_w c) ->
  (SettleBilling actual c).1 = Ok tt.
Proof.
  intros Hb Hid Hr. unfold SettleBilling. rewrite run_bind. cbn [gets]. rewrite Hb, run_bind, run_on_session.
  cbv zeta. cbv iota beta. rewrite run_bind. unfold modify at 1. rewrite run_bind.
  rewrite (wallet_Settle_total actual (mkSS (c_w c) (c_info c) (wallet_session info tr eff)) info tr eff eq_refl)
    by (destruct Hid as (_ & Ht & _); simpl; by rewrite Ht).
  cbn [of_result]. rewrite run_bind. cbn [gets].
  destruct (actual =? 0); [done|]. by destruct (decide _).
Qed.

(** ** The handler *)

Section handler.
Context `{DecimalLaws D} `{ExprEngine Prog} (rs : RatioSettings) (tools : option toolPriceIndex)
  (range : gmap string F64.float64 -> list (string * F64.float64)) (g : TextGin).
Implicit Types st : PS Prog.

(** Computing the charge changes the expression cache and may note a clamp. *)
Definition noted (st st' : PS Prog) : Prop :=
  exists cache k, st' = st <| ps_cache := cache |>
    <| ps_ctx := (ps_ctx st <| c_info := (ps_info st <| ri_QuotaClamp := k |> : RelayInfo) |> : Ctx) |>.
#[local] Instance noted_preorder : PreOrder noted.
Proof.
  split.
  - intros [[w i b] c]. exists c, (ri_QuotaClamp i). by destruct i.
  - intros s1 s2 s3 (c & k & ->) (c' & k' & ->). by exists c', k'.
Qed.
Lemma noted_cache {A} (m : M (Cache Prog) error A) st : noted st (on_cache m st).2.
Proof.
  unfold on_cache. destruct (m (ps_cache st)) as [r c]. exists c, (ri_QuotaClamp (ps_info st)).
  destruct st as [[w i b] c']. by destruct i.
Qed.
Lemma noteQuotaClamp_eq i k : exists k', noteQuotaClamp i k = i <| ri_QuotaClamp := k' |>.
Proof.
  unfold noteQuotaClamp. destruct k, (ri_QuotaClamp i) eqn:E; eauto;
    exists (ri_QuotaClamp i); by destruct i.
Qed.
Lemma noted_set f st :
  (exists k, f (ps_info st) = ps_info st <| ri_QuotaClamp := k |>) ->
  set_ps_info (E := error) f st = (Ok tt, (set_ps_info (E := error) f st).2) /\
  noted st (set_ps_info (E := error) f st).2.
Proof.
  intros [k Hk]. split; [done|]. exists (ps_cache st), k. unfold set_ps_info, modify. cbn [snd].
  rewrite Hk. by destruct st as [[w i b] c].
Qed.
Lemma summary_info perUnit now info usage :
  exists k, (calculateTextQuotaSummary rs tools perUnit range g now info usage).2
            = info <| ri_QuotaClamp := k |>.
Proof.
  unfold calculateTextQuotaSummary. cbv zeta. destruct (calculateTextToolCallSurcharge _ _ _ _ _).
  destruct (if negb _ then _ else _), (Quota.QuotaFromDecimalChecked _). apply noteQuotaClamp_eq.
Qed.
Lemma UsedVars_ok s c : exists v, (UsedVars s c).1 = Ok v.
Proof. unfold UsedVars. repeat case_match; eauto. Qed.

Lemma TryTieredSettle_run now params st :
  exists r st', TryTieredSettle now params st = (Ok r, st') /\ noted st st' /\
    (ri_TieredBillingSnapshot (ps_info st) = None -> r = None).
Proof.
  unfold TryTieredSettle. rewrite run_bind. cbn [gets].
  destruct (ri_TieredBillingSnapshot (ps_info st)) as [snap|]; [|by exists None, st].
  destruct (negb _); [by exists None, st|]. rewrite run_bind. unfold attempt.
  match goal with |- context [on_cache ?m st] => pose proof (noted_cache m st) as Hn;
    destruct (on_cache m st) as [[tr|e] st1]; simpl in Hn end.
  - rewrite run_bind. destruct (noted_set (fun i => noteQuotaClamp i (tr_Clamp tr)) st1) as [-> Hn1];
      [apply noteQuotaClamp_eq|].
    eexists _, _. split; [done|]. split; [by transitivity st1|done].
  - eexists _, _. split; [done|]. split; [done|done].
Qed.

Lemma charge_of_run usage st :
  exists s st', charge_of rs tools range g usage st = (Ok s, st') /\ noted st st' /\
    (ri_TieredBillingSnapshot (ps_info st) = None ->
     s = (calculateTextQuotaSummary rs tools (QuotaPerUnit (w_cfg (c_w (ps_ctx st)))) range g
            (w_now (c_w (ps_ctx st))) (ps_info st) (effectiveBillingUsage usage)).1).
Proof.
  unfold charge_of. rewrite !run_bind. cbn [gets]. rewrite run_bind. cbn [gets].
  rewrite run_bind. cbn [gets].
  match goal with |- context [calculateTextQuotaSummary rs tools ?pu range g ?now ?i ?u] =>
    pose proof (summary_info pu now i u) as [k Hk];
    destruct (calculateTextQuotaSummary rs tools pu range g now i u) as [s info]; simpl in Hk end.
  rewrite run_bind. destruct (noted_set (fun _ => info) st) as [-> Hn1]; [by exists k|].
  set (st1 := (set_ps_info (fun _ => info) st).2) in *.
  destruct (effectiveBillingUsage usage) as [bu|], usage as [u|];
    try (exists s, st1; by split; [|split]).
  rewrite run_bind.
  assert (Hv : exists v st2, (match ri_TieredBillingSnapshot info with
       | Some snap => on_cache (UsedVars (sn_ExprString snap)) | None => mret ∅ end) st1 = (Ok v, st2) /\
       noted st1 st2).
  { destruct (ri_TieredBillingSnapshot info) as [snap|]; [|by exists ∅, st1].
    destruct (UsedVars_ok (sn_ExprString snap) (ps_cache st1)) as [v Hv].
    exists v, (on_cache (UsedVars (sn_ExprString snap)) st1).2. split; [|apply noted_cache].
    unfold on_cache. by destruct (UsedVars _ _) as [r c]; simpl in *; subst. }
  destruct Hv as (v & st2 & -> & Hn2). rewrite run_bind.
  match goal with |- context [TryTieredSettle ?now ?ps st2] =>
    destruct (TryTieredSettle_run now ps st2) as (r & st3 & -> & Hn3 & Hr) end.
  assert (Hn : noted st st3) by (transitivity st1; [done|]; by transitivity st2).
  assert (Hnone : ri_TieredBillingSnapshot (ps_info st) = None -> r = None).
  { intros Hsn. apply Hr. destruct Hn2 as (c2 & k2 & ->). simpl. unfold st1. cbn. by rewrite Hk. }
  destruct r as [[q tr]|].
  2:{ exists s, st3. by split; [|split]. }
  rewrite run_bind. cbn [gets].
  assert (Hc : exists q' k', composeTieredTextQuota (D := D) (ps_info st3) s q tr
                = (q', ps_info st3 <| ri_QuotaClamp := k' |>)).
  { unfold composeTieredTextQuota. repeat case_match; try (
      destruct (noteQuotaClamp_eq (ps_info st3) o) as [k' Hk']; eexists _, k'; by rewrite Hk').
    eexists _, (ri_QuotaClamp (ps_info st3)). by destruct (ps_info st3). }
  destruct Hc as (q' & k' & ->). rewrite run_bind.
  destruct (noted_set (fun _ => ps_info st3 <| ri_QuotaClamp := k' |>) st3) as [-> Hn4]; [by exists k'|].
  eexists _, _. split; [done|]. split; [by transitivity st3|]. intros Hsn. by specialize (Hnone Hsn).
Qed.

Lemma run_on_world {A} (m : MW A) st a w' :
  m (c_w (ps_ctx st)) = (Ok a, w') ->
  on_world m st = (Ok a, st <| ps_ctx := (ps_ctx st <| c_w := w' |> : Ctx) |>).
Proof. unfold on_world, liftC. by intros ->. Qed.

(** A statistics update that is skipped for an empty usage. *)
Lemma stats_run (b : bool) (m : MW unit) st :
  (exists w', m (c_w (ps_ctx st)) = (Ok tt, w') /\ books (c_w (ps_ctx st)) w') ->
  exists w', (if b then on_world m else mret tt) st
             = (Ok tt, st <| ps_ctx := (ps_ctx st <| c_w := w' |> : Ctx) |>) /\ books (c_w (ps_ctx st)) w'.
Proof.
  intros (w' & E & B). destruct b; [exists w'; split; [by apply run_on_world|done]|].
  exists (c_w (ps_ctx st)). split; [by destruct st as [[]]|done].
Qed.

Lemma wallet_charged_books info q w0 w w' :
  wallet_charged info q w0 w -> books w w' -> wallet_charged info q w0 w'.
Proof.
  intros (Hw & Ht & Hs) (Bw & [Bt _] & Bs & _). split; [intros i; by rewrite Bw|].
  split; [intros i; by rewrite Bt|by transitivity w].
Qed.

(** C6 A text request billed to the wallet pays what the handler logs: after a
    pre-consumed wallet session, when no call fails and the payer's rows exist,
    the handler returns, the wallet and the token went down by exactly the quota
    in its log row (whatever was pre-consumed), and that quota is the one of the
    summary unless an expression bills the request. *)
Theorem text_request_charged tq q c c1 u1 usage st :
  NormalizeBillingPreference (ri_BillingPreference (c_info c)) = "wallet_only" ->
  PreConsumeBilling tq q c = (Ok u1, c1) -> ps_ctx st = c1 ->
  ready (ri_UserId (c_info c)) (ri_TokenId (c_info c)) (c_w c1) ->
  is_Some (ri_ChannelMeta (c_info c1)) ->
  exists log st', PostTextConsumeQuota (D := D) rs tools range g usage st = (Ok log, st') /\
    wallet_charged (c_info c) (cl_Quota log) (c_w c) (c_w (ps_ctx st')) /\
    (ri_TieredBillingSnapshot (c_info c1) = None ->
     cl_Quota log = ts_Quota (D := D) (calculateTextQuotaSummary rs tools (QuotaPerUnit (w_cfg (c_w c1)))
                                range g (w_now (c_w c1)) (c_info c1) (effectiveBillingUsage usage)).1).
Proof.
  intros Hp Hpre Hst Hr [ch Hch].
  destruct (PreConsumeBilling_wallet tq q c c1 u1 Hp Hpre) as (_ & eff & tr & Hb & _ & Hc & Hid & _).
  unfold PostTextConsumeQuota. rewrite run_bind.
  destruct (charge_of_run usage st) as (s & st1 & -> & (cache & k & Hst1) & Hq).
  assert (Hctx : ps_ctx st1 = c1 <| c_info := (c_info c1 <| ri_QuotaClamp := k |> : RelayInfo) |>)
    by (subst st1; unfold ps_info; simpl; by rewrite Hst).
  assert (Hi : ps_info st1 = c_info c1 <| ri_QuotaClamp := k |>) by (unfold ps_info; by rewrite Hctx).
  rewrite run_bind. cbn [gets]. cbv zeta. rewrite run_bind. rewrite Hi.
  destruct (stats_run (negb (ts_TotalTokens s =? 0)) (UpdateUserUsedQuotaAndRequestCount
    (ri_UserId (c_info c1 <| ri_QuotaClamp := k |>)) (ts_Quota s)) st1) as (w2 & -> & B2).
  { apply UpdateUserUsed_books. rewrite Hctx. apply Hr. }
  set (st2 := st1 <| ps_ctx := _ |>). change (ri_ChannelMeta (_ <| ri_QuotaClamp := k |>)) with (ri_ChannelMeta (c_info c1)).
  rewrite Hch, run_bind. rewrite Hctx in B2. cbn [c_w] in B2.
  assert (Hr2 : ready (ri_UserId (c_info c)) (ri_TokenId (c_info c)) w2) by apply B2, Hr.
  destruct (stats_run (negb (ts_TotalTokens s =? 0)) (UpdateChannelUsedQuota (cm_ChannelId ch) (ts_Quota s)) st2)
    as (w3 & -> & B3).
  { apply UpdateChannelUsed_books. apply Hr2. }
  change (c_w (ps_ctx st2)) with w2 in B3. set (st3 := st2 <| ps_ctx := _ |>).
  assert (Hb3 : c_bill (ps_ctx st3) = Some (wallet_session (c_info c) tr eff))
    by (simpl; rewrite Hctx; exact Hb).
  assert (Hid3 : same_identity (c_info c) (c_info (ps_ctx st3))) by (simpl; rewrite Hctx; exact Hid).
  assert (Hr3 : ready (ri_UserId (c_info c)) (ri_TokenId (c_info c)) w3) by apply B3, Hr2.
  assert (Hc3 : wallet_charged (c_info c) eff (c_w c) w3)
    by (eapply wallet_charged_books; [exact Hc|by transitivity w2]).
  pose proof (wallet_SettleBilling_total (ts_Quota s) (ps_ctx st3) _ tr eff Hb3 Hid3 Hr3) as Hok.
  destruct (SettleBilling (ts_Quota s) (ps_ctx st3)) as [r c4] eqn:E4. simpl in Hok. subst r.
  pose proof (wallet_SettleBilling_run _ _ _ _ _ tr eff _ Hb3 Hid3 Hc3 E4) as Hend.
  rewrite run_bind. unfold ignore_err, on_ctx. rewrite E4. rewrite run_bind. cbn [gets].
  eexists _, _. split; [reflexivity|]. split; [exact Hend|]. cbn [cl_Quota]. intros Hsn.
  rewrite Hq by (unfold ps_info; by rewrite Hst). unfold ps_info. by rewrite Hst.
Qed.
End handler.

(** ** A request that pre-consumed 300 units and used 2200 *)

#[local] Existing Instance toy_engine.

Definition text_ctx : Ctx := mkCtx sample_world priced_info None.

Lemma text_request_charged_witness :
  exists c1 log st', PreConsumeBilling 5000 300 text_ctx = (Ok tt, c1) /\
    PostTextConsumeQuota (D := Q) (Prog := string) sample_ratios None map_to_list sample_text_gin
      (Some sample_usage) (mkPS c1 ∅) = (Ok log, st') /\
    cl_Quota log = 2200 /\ wallet_charged priced_info 2200 sample_world (c_w (ps_ctx st')).
Proof.
  destruct (PreConsumeBilling 5000 300 text_ctx) as [r1 c1] eqn:E1.
  assert (r1 = Ok tt) as -> by (change r1 with (r1, c1).1; rewrite <- E1; vm_compute; reflexivity).
  assert (Hc1 : c1 = (PreConsumeBilling 5000 300 text_ctx).2) by (by rewrite E1).
  assert (Hr : ready 1 7 (c_w c1)) by (subst c1; vm_compute; repeat split).
  assert (Hm : ri_ChannelMeta (c_info c1) = Some (mkChannelMeta 2 1)) by (subst c1; vm_compute; repeat split).
  destruct (text_request_charged (D := Q) (Prog := string) sample_ratios None map_to_list sample_text_gin
    5000 300 text_ctx c1 tt (Some sample_usage) (mkPS c1 ∅) ltac:(vm_compute; reflexivity) E1 eq_refl Hr
    (mk_is_Some _ _ Hm)) as (log & st' & E & Hch & Hq).
  assert (Hl : cl_Quota log = 2200) by (rewrite Hq; subst c1; vm_compute; reflexivity).
  exists c1, log, st'. split; [done|]. split; [exact E|]. split; [exact Hl|]. rewrite Hl in Hch. exact Hch.
Defined.
