(* ===== verification/TaskSubmitProofs.v ===== *)
(** * Facts about submitted tasks

    A submission that reports success has charged the wallet exactly the quota that
    its task row carries, after any number of retries; a submission that fails
    refunds; and a task that fails later costs nothing. *)

From S2P Require Import Prelude GoStd GoFloat QuotaMath PriceData RatioSetting BillingExpr World Sample ModelUtils UserModel TokenModel BatchUpdate SubscriptionTime Subscription TaskModel Funding ApiError BillingSession BillingProofs Pricing PricingProofs TextQuota TextBillingProofs TaskSubmit TaskBilling TaskPolling TaskProofs TaskMoney.

(** ** Steps that keep the session and the balances *)

(** The request is still the same user's, and nothing was charged in between. *)
Definition same_request (i i' : RelayInfo) : Prop :=
  same_identity i i' /\ ri_BillingPreference i' = ri_BillingPreference i /\
  ri_BillingSource i' = ri_BillingSource i.
#[export] Instance same_request_preorder : PreOrder same_request.
Proof.
  split; unfold same_request, same_identity; [done|]. intros i1 i2 i3. intuition congruence.
Qed.
Definition untouched (w w' : World) : Prop := w_db w' = w_db w /\ w_batch w' = w_batch w.

(** ** A failing pre-consume leaves no session *)

Definition no_session (i0 : RelayInfo) (c : Ctx) : Prop :=
  c_bill c = None /\ same_identity i0 (c_info c) /\
  ri_BillingPreference (c_info c) = ri_BillingPreference i0.

Lemma lift_info {A} P (m : MW A) : preserves (fun st => P (ss_info st)) (lift m).
Proof. intros st Hst. unfold lift. by destruct (m (ss_w st)). Qed.
Lemma preConsume_info i0 tq q :
  preserves (fun st => same_identity i0 (ss_info st) /\ ri_BillingPreference (ss_info st) = ri_BillingPreference i0)
    (preConsume tq q).
Proof.
  unfold preConsume, set_s, syncRelayInfo, set_info.
  repeat first [pres_step | apply (lift_info (fun i => same_identity i0 i /\ ri_BillingPreference i = ri_BillingPreference i0))
    | apply preserves_modify; intros st Hst; unfold sync_info; simpl; by destruct (bs_funding _)].
Qed.
Lemma tryWallet_no_session i0 tq q : preserves (no_session i0) (tryWallet tq q).
Proof.
  unfold tryWallet, start_session. repeat pres_step.
  - intros c Hc. unfold liftC. by destruct (GetUserQuota _ _ _).
  - intros c (Hb & Hi). unfold on_session.
    pose proof (preConsume_info i0 tq q (mkSS (c_w c) (c_info c) (new_session (FWallet (mkWallet (ri_UserId a) 0)))) Hi) as Hp.
    by destruct (preConsume tq q _).
Qed.

Lemma PreConsumeBilling_failed i0 tq q c e c1 :
  NormalizeBillingPreference (ri_BillingPreference (c_info c)) = "wallet_only" ->
  PreConsumeBilling tq q c = (Err e, c1) -> no_session i0 c ->
  no_session i0 c1 /\ same_wallets (c_w c) (c_w c1).
Proof.
  intros Hp Hr Hns. unfold PreConsumeBilling in Hr. rewrite run_bind in Hr. cbn [gets] in Hr.
  destruct (ri_QuotaClamp _); [by injection Hr as _ <-|]. rewrite run_bind in Hr. unfold guard_err in Hr.
  destruct (q <? 0) eqn:Hq; [by injection Hr as _ <-|]. bools. rewrite run_ret, run_bind in Hr.
  unfold NewBillingSession in Hr. rewrite run_bind in Hr. cbn [gets] in Hr. rewrite Hp in Hr.
  rewrite decide_False, decide_True in Hr by done.
  pose proof (tryWallet_no_session i0 tq q c Hns) as Hns1. pose proof (tryWallet_run tq q c Hq) as Hw.
  destruct (tryWallet tq q c) as [[s|e1] c2]; [discriminate|]. injection Hr as _ <-. by split; [|apply Hw].
Qed.

Section submit.
Context `{ExprEngine Prog}.
Context (cfg : PricingConfig) (range : gmap string F64.float64 -> list (string * F64.float64))
  (TaskPricePatches : list string).
#[local] Abbreviation PS := (PS Prog).

Definition quiet (st st' : PS) : Prop :=
  untouched (c_w (ps_ctx st)) (c_w (ps_ctx st')) /\ c_bill (ps_ctx st') = c_bill (ps_ctx st) /\
  same_request (ps_info st) (ps_info st').
#[local] Instance quiet_preorder : PreOrder quiet.
Proof.
  split; unfold quiet, untouched; [by intros st; split_and!|].
  intros s1 s2 s3 ((? & ?) & ? & ?) ((? & ?) & ? & ?). split_and!; try congruence. by transitivity (ps_info s2).
Qed.

Lemma quiet_set {E} st0 f :
  (forall i, same_request i (f i)) -> preserves (quiet st0) (set_ps_info f : M PS E unit).
Proof.
  intros Hf. apply preserves_modify. intros st Hst. transitivity st; [done|].
  split; [done|]. split; [done|]. apply Hf.
Qed.
Lemma quiet_world {A} st0 (m : MW A) :
  (forall w0, preserves (untouched w0) m) -> preserves (quiet st0) (on_world m : M PS error A).
Proof.
  intros Hm st Hst. transitivity st; [done|]. unfold on_world, liftC.
  specialize (Hm (c_w (ps_ctx st)) (c_w (ps_ctx st)) (conj eq_refl eq_refl)).
  by destruct (m (c_w (ps_ctx st))) as [r w'].
Qed.

Lemma quiet_group {E} st0 g : preserves (quiet st0) (HandleGroupRatio cfg g : M PS E _).
Proof.
  intros st Hst. transitivity st; [done|].
  destruct (HandleGroupRatio_run (E := E) cfg g st) as (gri & st1 & -> & _ & _ & grp & Hctx). simpl.
  unfold quiet, ps_info. rewrite Hctx. by split.
Qed.
Lemma quiet_price st0 g : preserves (quiet st0) (ModelPriceHelperPerCall cfg g : M PS go_error _).
Proof.
  unfold ModelPriceHelperPerCall, not_configured, modelPriceNotConfiguredError.
  apply preserves_bind; [apply quiet_group|]. intros gri.
  apply preserves_bind; [apply preserves_gets|]. intros info. destruct (GetModelPrice _ _) as [price ok].
  apply preserves_bind.
  - destruct ok; [by pres|]. destruct (_ !! _); [by pres|]. destruct (GetModelRatio _ _) as [[ratio rok] name].
    destruct (_ && _); [|by pres]. apply preserves_bind; [|by pres]. apply preserves_bind; [|by pres].
    apply preserves_map_err, quiet_world. intros w0. unfold IsAdmin. by pres.
  - intros [[mp up] mr]. by pres.
Qed.

(** ** The invariant of the retry loop *)

(** Without a session no wallet moved; with one, the wallet was charged what the session
    holds. *)
Definition session_inv (i0 : RelayInfo) (w0 : World) (st : PS) : Prop :=
  same_identity i0 (ps_info st) /\ ri_BillingPreference (ps_info st) = ri_BillingPreference i0 /\
  match c_bill (ps_ctx st) with
  | None => same_wallets w0 (c_w (ps_ctx st))
  | Some s => ri_BillingSource (ps_info st) = BillingSourceWallet /\
      exists wb tr eff, same_wallets w0 wb /\ s = wallet_session i0 tr eff /\
        wallet_charged i0 eff wb (c_w (ps_ctx st))
  end.

Lemma untouched_wallets w w' : untouched w w' -> same_wallets w w' /\ same_tokens w w' /\ same_subs w w'.
Proof.
  intros [Hd Hb]. destruct (same_ledger w w') as [? ?]; try by rewrite ?Hd.
  split; [done|]. split; [done|]. unfold same_subs. by rewrite Hd.
Qed.
Lemma session_inv_quiet i0 w0 st st' : session_inv i0 w0 st -> quiet st st' -> session_inv i0 w0 st'.
Proof.
  intros (Hid & Hpref & Hs) (Hw & Hb & Hid' & Hpref' & Hsrc).
  destruct (untouched_wallets _ _ Hw) as (Hwal & [Htok _] & Hsub).
  split; [unfold same_identity in *; intuition congruence|]. split; [congruence|]. rewrite Hb.
  destruct (c_bill (ps_ctx st)) as [s|]; [|by transitivity (c_w (ps_ctx st))].
  destruct Hs as (Hsrc0 & wb & tr & eff & Hwb & -> & Hc1 & Hc2 & Hc3). split; [congruence|].
  exists wb, tr, eff. split; [done|]. split; [done|]. split; [intros i; by rewrite Hwal|].
  split; [intros i; by rewrite Htok|by transitivity (c_w (ps_ctx st))].
Qed.
Lemma quiet_inv {E A} i0 w0 (m : M PS E A) :
  (forall st0, preserves (quiet st0) m) -> preserves (session_inv i0 w0) m.
Proof. intros Hm st Hst. eapply session_inv_quiet; [exact Hst|]. apply Hm. reflexivity. Qed.

Lemma session_inv_set {E} i0 w0 f :
  (forall i, same_request i (f i)) -> preserves (session_inv i0 w0) (set_ps_info f : M PS E unit).
Proof. intros Hf. apply quiet_inv. intros st0. by apply quiet_set. Qed.

Lemma noteTaskQuotaClamp_request clamp i : same_request i (noteTaskQuotaClamp clamp i).
Proof. unfold noteTaskQuotaClamp. by destruct clamp, (ri_QuotaClamp i). Qed.
Lemma scale_quota_request i : same_request i (scale_quota range TaskPricePatches i).
Proof.
  unfold scale_quota. case_decide; [done|]. destruct (Quota.QuotaFromFloatChecked _) as [q k].
  etransitivity; [|apply noteTaskQuotaClamp_request]. done.
Qed.
Lemma adjust_request ratios i : same_request i (adjust_on_submit range ratios i).1.
Proof.
  unfold adjust_on_submit, recalcQuotaFromRatios. case_decide; [done|].
  destruct (ReplaceOtherRatios _ _ _) as [p [|]]; simpl; [|done].
  destruct (Quota.QuotaFromFloatChecked _) as [q k]. simpl.
  transitivity (noteTaskQuotaClamp k i); [apply noteTaskQuotaClamp_request|done].
Qed.

Lemma pre_consume_inv i0 w0 tq q :
  NormalizeBillingPreference (ri_BillingPreference i0) = "wallet_only" ->
  forall st, session_inv i0 w0 st -> c_bill (ps_ctx st) = None ->
  session_inv i0 w0 ((lift_api (PreConsumeBilling tq q) : M PS TaskError unit) st).2.
Proof.
  intros Hp st (Hid & Hpref & Hs) Hb. rewrite Hb in Hs. unfold lift_api.
  assert (Hp' : NormalizeBillingPreference (ri_BillingPreference (c_info (ps_ctx st))) = "wallet_only")
    by (change (c_info (ps_ctx st)) with (ps_info st); by rewrite Hpref).
  assert (Hns : no_session i0 (ps_ctx st)) by by split_and!.
  destruct (PreConsumeBilling tq q (ps_ctx st)) as [[u|e] c1] eqn:E.
  - destruct (PreConsumeBilling_wallet tq q _ c1 u Hp' E) as (_ & eff & tr & Hb1 & _ & Hc & Hid1 & Hsrc).
    assert (Hpr1 : ri_BillingPreference (c_info c1) = ri_BillingPreference i0).
    { unfold PreConsumeBilling in E. inv_bind E as i w1 E1. apply gets_inv in E1 as [-> ->].
      destruct (ri_QuotaClamp _); [discriminate|]. inv_bind E as u1 w1 E1. apply guard_err_inv in E1 as [_ ->].
      inv_bind E as s c2 E2. unfold NewBillingSession in E2. inv_bind E2 as i w2 E3. apply gets_inv in E3 as [-> ->].
      rewrite Hp' in E2. rewrite decide_False, decide_True in E2 by done.
      pose proof (tryWallet_no_session i0 tq q _ Hns) as (_ & _ & Hk). rewrite E2 in Hk.
      unfold modify in E. by injection E as _ <-. }
    unfold session_inv, ps_info. simpl. rewrite Hb1.
    split; [unfold same_identity, ps_info in *; intuition congruence|]. split; [done|]. split; [done|].
    exists (c_w (ps_ctx st)), tr, eff. split; [done|]. split.
    + unfold wallet_session. f_equal. f_equal. f_equal. symmetry. by destruct Hid as [<- _].
    + by eapply wallet_charged_identity.
  - destruct (PreConsumeBilling_failed i0 tq q _ e c1 Hp' E Hns) as [(Hb1 & Hi1) Hw1].
    unfold session_inv, ps_info. simpl. rewrite Hb1. destruct Hi1 as [Hi1 Hpr1].
    split; [done|]. split; [done|]. by transitivity (c_w (ps_ctx st)).
Qed.

Lemma RelayTaskSubmit_inv i0 w0 g meta adaptor platform mapped tq :
  NormalizeBillingPreference (ri_BillingPreference i0) = "wallet_only" ->
  preserves (session_inv i0 w0)
    (RelayTaskSubmit cfg range TaskPricePatches g meta adaptor platform mapped tq).
Proof.
  intros Hp. unfold RelayTaskSubmit.
  apply preserves_bind; [by apply session_inv_set|intros _].
  apply preserves_bind; [by pres|intros info]. apply preserves_bind; [by pres|intros action].
  apply preserves_bind; [by apply session_inv_set|intros _].
  apply preserves_bind; [by pres|intros info1]. apply preserves_bind; [by pres|intros _].
  apply preserves_bind; [apply preserves_map_err, quiet_inv; intros st0; apply quiet_price|intros price].
  apply preserves_bind; [by apply session_inv_set|intros _].
  apply preserves_bind; [by pres|intros info2].
  apply preserves_bind; [by apply session_inv_set|intros _].
  apply preserves_bind; [apply session_inv_set, scale_quota_request|intros _].
  intros st Hst. rewrite run_bind. cbn [gets]. rewrite run_bind. cbn [gets]. cbv beta iota.
  match goal with |- session_inv i0 w0 ((?m ≫= ?k) st).2 =>
    assert (Hm : session_inv i0 w0 (m st).2); [|assert (Hk : forall u, preserves (session_inv i0 w0) (k u))] end.
  - destruct (c_bill (ps_ctx st)) eqn:Hb; [done|]. destruct (FreeModel _); [done|].
    rewrite run_bind. unfold set_ps_info, modify. apply pre_consume_inv; [done| |done].
    eapply session_inv_quiet; [exact Hst|]. by split_and!.
  - intros u. apply preserves_bind; [by pres|intros info3]. apply preserves_bind; [by pres|intros body].
    apply preserves_bind; [by pres|intros resp]. apply preserves_bind; [by pres|intros _].
    apply preserves_bind; [by pres|intros [upstream data]].
    apply preserves_bind; [apply session_inv_set, adjust_request|by pres].
  - rewrite run_bind. revert Hm. match goal with |- session_inv i0 w0 (?m st).2 -> _ => destruct (m st) as [[u|e] st1] end;
      simpl; intros Hm; [by apply Hk|done].
Qed.

Lemma submit_loop_inv i0 w0 tq attempts :
  NormalizeBillingPreference (ri_BillingPreference i0) = "wallet_only" ->
  forall l, preserves (session_inv i0 w0) (submit_loop cfg range TaskPricePatches tq attempts l).
Proof.
  intros Hp. induction attempts as [|a attempts IH]; intros l; simpl; [by pres|].
  destruct (at_disconnected a); [by pres|]. destruct (at_channel a) as [[|]|e]; [|apply IH|by pres].
  apply preserves_bind; [by apply preserves_attempt', RelayTaskSubmit_inv|]. intros [r|e]; [by pres|].
  destruct (at_disconnected_after a); [by pres|]. destruct (shouldRetryTaskRelay _ _ _ _); [apply IH|by pres].
Qed.

Lemma submit_loop_result tq attempts : forall l (st : PS) l' st' result,
  lp_result l = None ->
  submit_loop cfg range TaskPricePatches tq attempts l st = (Ok l', st') ->
  lp_result l' = Some result -> lp_taskErr l' = None /\ lp_upstreamAttempted l' = true.
Proof.
  induction attempts as [|a attempts IH]; intros l st l' st' result Hl Hr Hres; simpl in Hr.
  { apply run_ret_inv in Hr as [-> _]. congruence. }
  destruct (at_disconnected a); [apply run_ret_inv in Hr as [-> _]; congruence|].
  destruct (at_channel a) as [[|]|e].
  - inv_bind Hr as r st1 E. destruct r as [r|e].
    { by apply run_ret_inv in Hr as [-> _]. }
    destruct (at_disconnected_after a); [apply run_ret_inv in Hr as [-> _]; discriminate|].
    destruct (shouldRetryTaskRelay _ _ _ _); [|apply run_ret_inv in Hr as [-> _]; discriminate].
    by eapply (IH _ _ _ _ _ _ Hr).
  - eapply (IH _ _ _ _ _ _ Hr). done.
  - apply run_ret_inv in Hr as [-> _]. simpl in Hres. congruence.
Unshelve. all: done.
Qed.

Lemma LogTaskConsumption_run info w : exists w', LogTaskConsumption info w = (Ok tt, w') /\ balances w w'.
Proof.
  assert (Hn : never_fails (LogTaskConsumption info)).
  { unfold LogTaskConsumption, UpdateUserUsedQuotaAndRequestCount, updateUserUsedQuotaAndRequestCount,
      UpdateChannelUsedQuota, updateChannelUsedQuota, addNewRecord. nf. }
  assert (Hb : preserves (balances w) (LogTaskConsumption info)).
  { unfold LogTaskConsumption. apply preserves_bind; [apply balances_used|intros _; apply balances_channel]. }
  destruct (Hn w) as ([] & w' & E). exists w'. split; [done|]. specialize (Hb w ltac:(reflexivity)). by rewrite E in Hb.
Qed.
Lemma InsertTask_run t w :
  match InsertTask t w with
  | (Ok t', w') => t' = t <| tk_ID := tk_ID t' |> /\ d_tasks (w_db w') !! tk_ID t' = Some t' /\ balances w w' /\
      d_users (w_db w') = d_users (w_db w)
  | (Err _, w') => balances w w' /\ d_users (w_db w') = d_users (w_db w)
  end.
Proof.
  unfold InsertTask. rewrite run_bind. destruct (ext_call_cases w) as (fs & Hw & Hr).
  destruct (ext_call w) as [r1 w1]; simpl in *; subst w1. destruct Hr as [->|[msg ->]]; [|done].
  rewrite run_bind. unfold next_id. destruct (tk_ID t =? 0) eqn:Hz; bools; rewrite ?run_ret; cbn;
    (split; [by destruct t; simpl in *; subst|]); (split; [apply lookup_insert_eq|done]).
Qed.

(** What the stored row says about who pays. *)
Lemma task_row_payer now q info result :
  ri_BillingSource info = BillingSourceWallet ->
  let t := task_row range TaskPricePatches now q info result in
  tk_Quota t = sr_Quota result /\ tk_UserId t = ri_UserId info /\ taskIsSubscription t = false /\
  pv_TokenId (tk_PrivateData t) = ri_TokenId info /\ finished (tk_Status t) = false.
Proof.
  intros Hs. unfold task_row, InitTask, taskIsSubscription. destruct (ri_ChannelMeta info); simpl; rewrite Hs; done.
Qed.

Lemma Settle_info i0 actual :
  preserves (fun st => same_identity i0 (ss_info st) /\ ri_BillingSource (ss_info st) = BillingSourceWallet) (Settle actual).
Proof.
  unfold Settle, set_s, set_info.
  repeat first [pres_step | apply (lift_info (fun i => same_identity i0 i /\ ri_BillingSource i = BillingSourceWallet))].
Qed.
Lemma SettleBilling_info i0 actual c :
  same_identity i0 (c_info c) -> ri_BillingSource (c_info c) = BillingSourceWallet -> is_Some (c_bill c) ->
  same_identity i0 (c_info (SettleBilling actual c).2) /\
  ri_BillingSource (c_info (SettleBilling actual c).2) = BillingSourceWallet.
Proof.
  intros Hid Hsrc [s Hs].
  set (P := fun i => same_identity i0 i /\ ri_BillingSource i = BillingSourceWallet).
  change (P (c_info (SettleBilling actual c).2)).
  unfold SettleBilling. rewrite run_bind. cbn [gets]. rewrite Hs, run_bind, run_on_session.
  cbv zeta. cbn beta iota. rewrite run_bind. unfold modify at 1. rewrite run_bind.
  pose proof (Settle_info i0 actual (mkSS (c_w c) (c_info c) s) (conj Hid Hsrc)) as Hi.
  destruct (Settle actual _) as [[u|e] st']; [|exact Hi]. unfold of_result. rewrite run_bind. cbn [gets].
  destruct (actual =? 0); [exact Hi|]. destruct (decide _); exact Hi.
Qed.

Lemma RelayTask_run tq q attempts (st : PS) l st1 result :
  NormalizeBillingPreference (ri_BillingPreference (ps_info st)) = "wallet_only" ->
  c_bill (ps_ctx st) = None ->
  submit_loop cfg range TaskPricePatches tq attempts (mkLoop None None false false) st = (Ok l, st1) ->
  lp_result l = Some result -> is_Some (c_bill (ps_ctx st1)) ->
  ready (ri_UserId (ps_info st)) (ri_TokenId (ps_info st)) (c_w (ps_ctx st1)) ->
  exists task ins st', RelayTask cfg range TaskPricePatches tq q attempts st = (Ok (RTStored task ins), st') /\
    tk_Quota task = sr_Quota result /\ tk_UserId task = ri_UserId (ps_info st) /\
    taskIsSubscription task = false /\ finished (tk_Status task) = false /\
    (ins = true -> d_tasks (w_db (c_w (ps_ctx st'))) !! tk_ID task = Some task) /\
    forall i, wallet (c_w (ps_ctx st')) i
      = wallet (c_w (ps_ctx st)) i - if decide (i = ri_UserId (ps_info st)) then tk_Quota task else 0.
Proof.
  intros Hp Hb Hl Hres [s Hs] Hr.
  assert (Hinv : session_inv (ps_info st) (c_w (ps_ctx st)) st1).
  { assert (H0 : session_inv (ps_info st) (c_w (ps_ctx st)) st) by (split; [done|]; split; [done|]; by rewrite Hb).
    pose proof (submit_loop_inv (ps_info st) (c_w (ps_ctx st)) tq attempts Hp (mkLoop None None false false) st H0) as Hi.
    by rewrite Hl in Hi. }
  destruct Hinv as (Hid & _ & Hinv). rewrite Hs in Hinv.
  destruct Hinv as (Hsrc & wb & tr & eff & Hwb & -> & Hc).
  unfold RelayTask. rewrite (run_bind_ok _ _ _ _ _ Hl).
  destruct (submit_loop_result tq attempts (mkLoop None None false false) st l st1 result eq_refl Hl Hres) as [He Hu].
  rewrite He, Hu, Hres, andb_false_r. cbn beta iota zeta.
  rewrite run_bind. unfold ignore_err, on_ctx.
  pose proof (wallet_SettleBilling_total (sr_Quota result) (ps_ctx st1) (ps_info st) tr eff Hs Hid Hr) as Hset.
  destruct (SettleBilling_info (ps_info st) (sr_Quota result) (ps_ctx st1) Hid Hsrc (mk_is_Some _ _ Hs)) as [Hid2 Hsrc2].
  destruct (SettleBilling (sr_Quota result) (ps_ctx st1)) as [rs c2] eqn:E. simpl in Hset, Hid2, Hsrc2. subst rs.
  pose proof (wallet_SettleBilling_run _ _ _ _ _ tr eff _ Hs Hid Hc E) as [Hwal _]. cbn beta iota.
  rewrite run_bind. cbn [gets]. rewrite run_bind. unfold on_world at 1, liftC. cbn [snd].
  match goal with |- context [LogTaskConsumption ?i ?w] =>
    destruct (LogTaskConsumption_run i w) as (w3 & Elog & Hw3 & _) end. rewrite Elog. cbn beta iota.
  rewrite run_bind. cbn [gets]. rewrite run_bind. unfold attempt, on_world, liftC.
  set (task := task_row _ _ _ _ _ _). cbn -[InsertTask].
  pose proof (InsertTask_run task w3) as Hins.
  assert (Hpay : tk_Quota task = sr_Quota result /\ tk_UserId task = ri_UserId (ps_info st) /\
                 taskIsSubscription task = false /\ finished (tk_Status task) = false).
  { destruct (task_row_payer (w_now w3) q c2.(c_info) result Hsrc2) as (H1 & H2 & H3 & _ & H5).
    destruct Hid2 as [Hu2 _]. rewrite <- Hu2. done. }
  assert (Hw : forall w', same_wallets w3 w' -> forall i, wallet w' i
    = wallet (c_w (ps_ctx st)) i - if decide (i = ri_UserId (ps_info st)) then sr_Quota result else 0).
  { intros w' Hw' i. rewrite (Hw' i), (Hw3 i). cbn. rewrite Hwal, (Hwb i). done. }
  destruct Hpay as (Hq & Huid & Hsub & Hfin).
  destruct (InsertTask task w3) as [[t'|e] w4]; cbn -[InsertTask].
  - destruct Hins as (Ht' & Hrow & (Hb4 & _) & _). exists t', true. eexists. split; [reflexivity|].
    assert (Hf : tk_Quota t' = tk_Quota task /\ tk_UserId t' = tk_UserId task /\
      taskIsSubscription t' = taskIsSubscription task /\ tk_Status t' = tk_Status task) by by rewrite Ht'.
    destruct Hf as (-> & -> & -> & ->). do 4 (split; [done|]). split; [by intros _|].
    intros i. rewrite Hq. exact (Hw w4 Hb4 i).
  - destruct Hins as [(Hb4 & _) _]. exists task, false. eexists. split; [reflexivity|].
    split; [done|]. split; [done|]. split; [done|]. split; [done|]. split; [done|].
    intros i. rewrite Hq. exact (Hw w4 Hb4 i).
Qed.

(** A task submission billed to the wallet charges what its row says: after any
    number of attempts on any channels, prices and answers, when an attempt
    succeeded and the payer's rows can be written, the handler stores a task whose
    quota is exactly what this user's wallet lost, no other wallet moved, and the
    row names the payer as the poller will need it. *)
Theorem submitted_task_charged tq q attempts (st : PS) l st1 result :
  NormalizeBillingPreference (ri_BillingPreference (ps_info st)) = "wallet_only" ->
  c_bill (ps_ctx st) = None ->
  submit_loop cfg range TaskPricePatches tq attempts (mkLoop None None false false) st = (Ok l, st1) ->
  lp_result l = Some result -> is_Some (c_bill (ps_ctx st1)) ->
  ready (ri_UserId (ps_info st)) (ri_TokenId (ps_info st)) (c_w (ps_ctx st1)) ->
  exists task ins st', RelayTask cfg range TaskPricePatches tq q attempts st = (Ok (RTStored task ins), st') /\
    tk_Quota task = sr_Quota result /\ tk_UserId task = ri_UserId (ps_info st) /\
    taskIsSubscription task = false /\ finished (tk_Status task) = false /\
    (ins = true -> d_tasks (w_db (c_w (ps_ctx st'))) !! tk_ID task = Some task) /\
    forall i, wallet (c_w (ps_ctx st')) i
      = wallet (c_w (ps_ctx st)) i - if decide (i = ri_UserId (ps_info st)) then tk_Quota task else 0.
Proof. apply RelayTask_run. Qed.

End submit.

(** ** A concrete submission: one failed attempt, then one whose answer doubles the
    duration *)

#[local] Existing Instance toy_engine.

Definition task_pricing : PricingConfig :=
  mkPricingConfig (empty_ratios <| modelPriceMap := {["vid" := const 1 1000]} |>
                                <| groupRatioMap := {["default" := F64.one]} |>) false 500.
Definition task_gin : GinContext := mkGin None None (Ok "").
Definition failing_adaptor : TaskSubmitAdaptor :=
  mkSubmitAdaptor (fun _ => Ok "generate") (fun _ => {["seconds" := F64.of_Z 4]}) (fun _ => Ok "{}")
    (fun _ _ => Ok (Some 500)) (fun _ => Ok ("up1", "{}")) (fun _ _ => ∅).
Definition longer_adaptor : TaskSubmitAdaptor :=
  mkSubmitAdaptor (fun _ => Ok "generate") (fun _ => {["seconds" := F64.of_Z 4]}) (fun _ => Ok "{}")
    (fun _ _ => Ok (Some 200)) (fun _ => Ok ("up1", "{}")) (fun _ _ => {["seconds" := F64.of_Z 8]}).
Definition attempt_with (a : TaskSubmitAdaptor) (left : Z) : Attempt :=
  mkAttempt false (Ok true) task_gin a "kling" (mkChannelMeta 2 1) (fun _ => Ok tt) false false false left.
Definition two_attempts : list Attempt := [attempt_with failing_adaptor 1; attempt_with longer_adaptor 0].
Definition task_request : TaskRequest := mkTaskRequest "task_a" "generate" "vid" "" "".
Definition task_state : PS string :=
  mkPS (mkCtx sample_world (sample_info <| ri_OriginModelName := "vid" |>) None) ∅.
Definition loop_run : result error LoopState * PS string :=
  submit_loop task_pricing map_to_list [] 5000 two_attempts (mkLoop None None false false) task_state.
Definition submitted : TaskSubmitResult := mkSubmitResult "up1" "{}" "kling" 4000.
Definition relay_run : result error RelayTaskOutcome * PS string :=
  RelayTask task_pricing map_to_list [] 5000 task_request two_attempts task_state.

Definition stored : Task :=
  match relay_run.1 with Ok (RTStored t _) => t | _ => sample_task end.
Lemma relay_run_ok : exists st', relay_run = (Ok (RTStored stored true), st').
Proof.
  assert (Hr : relay_run.1 = Ok (RTStored stored true)) by (vm_compute; reflexivity).
  exists relay_run.2. rewrite <- Hr. exact (surjective_pairing relay_run).
Qed.

Lemma loop_run_ok : exists l st1, loop_run = (Ok l, st1) /\ lp_result l = Some submitted /\
  is_Some (c_bill (ps_ctx st1)) /\ ready 1 7 (c_w (ps_ctx st1)).
Proof.
  assert (Hr : loop_run.1 = Ok (mkLoop (Some submitted) None true false)) by (vm_compute; reflexivity).
  eexists _, loop_run.2. split; [rewrite <- Hr; exact (surjective_pairing loop_run)|].
  split; [reflexivity|]. split; [vm_compute; by eexists|vm_compute; repeat split].
Qed.

Lemma submitted_task_charged_witness :
  exists task ins st', relay_run = (Ok (RTStored task ins), st') /\ tk_Quota task = 4000 /\
    wallet (c_w (ps_ctx st')) 1 = 96000.
Proof.
  destruct loop_run_ok as (l & st1 & Hl & Hres & Hs & Hr).
  destruct (submitted_task_charged task_pricing map_to_list [] 5000 task_request two_attempts task_state l st1
    submitted ltac:(vm_compute; reflexivity) eq_refl Hl Hres Hs Hr)
    as (task & ins & st' & Hrun & Hq & _ & _ & _ & _ & Hw).
  exists task, ins, st'. split; [exact Hrun|]. split; [exact Hq|]. rewrite Hw, Hq. vm_compute. reflexivity.
Defined.


(** A client that disconnects before the first attempt leaves neither a result nor an
    error, and the handler reads the quota of the missing result. *)
Theorem disconnect_panics :
  (RelayTask task_pricing map_to_list [] 5000 task_request
     [mkAttempt true (Ok true) task_gin longer_adaptor "kling" (mkChannelMeta 2 1) (fun _ => Ok tt) false false false 0]
     task_state).1 = Ok RTPanic.
Proof. vm_compute. reflexivity. Qed.

(** The ratios that ResolveOriginTask sets for a remix are lost: the attempt replaces
    the price data before it prices the request. *)
Theorem origin_ratios_lost :
  let plain := mkSubmitAdaptor (fun _ => Ok "generate") (fun _ => ∅) (fun _ => Ok "{}")
    (fun _ _ => Ok (Some 200)) (fun _ => Ok ("up1", "{}")) (fun _ _ => ∅) in
  let price := AddOtherRatio zero_PriceData "seconds" (F64.of_Z 8) in
  let remix : PS string := task_state <| ps_ctx := mkCtx sample_world
    (sample_info <| ri_OriginModelName := "vid" |> <| ri_PriceData := price |>) None |> in
  let submit (st : PS string) := (RelayTaskSubmit task_pricing map_to_list [] task_gin (mkChannelMeta 2 1)
                                    plain "kling" (fun _ => Ok tt) 5000 st).1 in
  submit remix = submit task_state /\
  (exists r, submit remix = Ok r /\ sr_Quota r = 500).
Proof. vm_compute. split; [reflexivity|]. by eexists. Qed.
