(* ===== verification/RelaySamples.v ===== *)
(** * Concrete requests

    The theorems on the search for a channel and on relaying, applied to a small
    world, and behaviour of the code that its comments do not describe. *)

From S2P Require Import Prelude GoStd GoFloat QuotaMath ApiError StatusCodes PriceData RatioSetting BillingExpr World Sample ModelUtils UserModel TokenModel AdvancedCustom ChannelModel Ability ChannelCache ChannelAdmin RoutingSamples ChannelHealth ChannelSelect SelectProofs Distributor Funding BillingSession BillingProofs Pricing PricingProofs RelayLoop RelayProofs RelayMoney.
Import GoStrings GoText.
#[local] Existing Instance sample_json.
#[local] Existing Instance toy_engine.

Definition sample_groups : GroupSettings :=
  mkGroupSettings {["default" := "standard"; "vip" := "fast"; "auto" := "any"]} {["vip" := {["-:auto" := ""; "+:lab" := "lab"]}]}.
Definition group_ratios : RatioSettings := sample_ratios <| groupRatioMap := {["vip" := F64.div F64.one (F64.of_Z 2)]} |>.
Definition in_map_order (m : gmap string string) : list (string * string) := map_to_list m.
Definition against_map_order (m : gmap string string) : list (string * string) := rev (map_to_list m).

Example sample_auto_groups : GetUserAutoGroup sample_groups group_ratios in_map_order "vip" = ["vip"; "default"; "lab"].
Proof. by vm_compute. Qed.

Lemma group_ratios_comparable g : comparable group_ratios "vip" g.
Proof.
  unfold comparable, GetUserGroupRatio, GetGroupGroupRatio, GetGroupRatio. simpl. rewrite lookup_empty.
  unfold group_ratios. simpl. destruct (decide (g = "vip")) as [->|Hne].
  - by rewrite lookup_singleton_eq.
  - by rewrite lookup_singleton_ne.
Qed.
Lemma auto_groups_cheapest_first_witness :
  GetUserAutoGroup sample_groups group_ratios in_map_order "vip" = GetUserAutoGroup sample_groups group_ratios against_map_order "vip" /\
  Sorted.StronglySorted (fun a b => group_less group_ratios "vip" a b = true)
    (GetUserAutoGroup sample_groups group_ratios in_map_order "vip") /\
  (forall g, g ∈ GetUserAutoGroup sample_groups group_ratios in_map_order "vip" <->
             g <> "auto" /\ GroupInUserUsableGroups sample_groups in_map_order "vip" g = true) /\
  ("vip" <> "" -> "vip" <> "auto" -> "vip" ∈ GetUserAutoGroup sample_groups group_ratios in_map_order "vip").
Proof.
  apply (auto_groups_cheapest_first sample_groups group_ratios in_map_order against_map_order "vip").
  - by intros m.
  - intros m. symmetry. apply Permutation_rev.
  - intros specials Hs. assert (specials = {["-:auto" := ""; "+:lab" := "lab"]}) as -> by by apply (inj Some).
    apply (bool_decide_unpack _). by vm_compute.
  - exact group_ratios_comparable.
Defined.

(** ** A search *)

Definition first_draw (_ _ : Z) : Z := 0.
Definition sample_param (group : string) : RetryParam := mkRetryParam group "gpt-4o" "/v1/chat/completions" (Some 0) false.
Definition sample_keys : SelectKeys := mkSelectKeys "vip" true None None None None.
Definition sample_sel (group : string) (w : World) : Sel := mkSel w sample_keys (sample_param group) no_channel_keys.
Definition sample_search : M Sel error (option positive * string * option error) :=
  CacheGetRandomSatisfiedChannel sample_compile sample_groups group_ratios in_map_order 1 first_draw.

Example sample_found :
  let r := sample_search (sample_sel "auto" cached_world) in
  (match r.1 with Ok (Some l, g, _) => Some (cn_Id (object cached_world l), g) | _ => None end) = Some (13, "vip").
Proof. by vm_compute. Qed.

(** ** The distributor *)

Definition sample_distribute : DistributeRequest :=
  mkDistribute None (Ok ("gpt-4o", true)) true (Some {["gpt-4o" := true]}) "auto" "/v1/chat/completions" (Ok "") None.
Definition sample_select : M Sel error distribute_outcome :=
  select_channel sample_compile sample_groups group_ratios in_map_order 1 first_draw sample_distribute.
Lemma distributed_channel_allowed_witness :
  exists l st', sample_select (sample_sel "auto" cached_world) = (Ok (DNext (Some l) "auto"), st') /\
    cooling (sl_w st') (cn_Id (object (sl_w st') l)) = false.
Proof.
  destruct (sample_select (sample_sel "auto" cached_world)) as [r st'] eqn:E.
  assert (r = Ok (DNext (Some 4%positive) "auto")) as -> by (change r with (r, st').1; rewrite <- E; by vm_compute).
  exists 4%positive, st'. split; [reflexivity|].
  destruct (distributed_channel_allowed sample_compile sample_groups group_ratios in_map_order 1 first_draw sample_distribute
    (sample_sel "auto" cached_world) 4 "auto" st' ltac:(done) E) as (model & _ & _ & _ & _ & [(id & Hid & _)|Hrest]);
    [discriminate Hid|exact Hrest].
Defined.

(** A channel without an enabled key is passed on all the same, with no key. *)
Definition keyless : Channel :=
  sample_channel 51 1 0 <| cn_Key := String.concat (String newline "") ["k0"; "k1"] |>
    <| cn_ChannelInfo := mkChannelInfo true 2 {[0 := 2; 1 := 2]} ∅ ∅ 0 MultiKeyModeRandom |>.
Definition keyless_world : World := empty_world <| w_db := put_channel keyless (w_db empty_world) |>.
Definition pinned_request : DistributeRequest :=
  mkDistribute (Some (Some "51")) (Ok ("gpt-4o", true)) false None "default" "/v1/chat/completions" (Ok "") None.
Theorem keyless_channel_goes_on :
  let r := Distribute sample_compile (fun _ => "") sample_groups group_ratios in_map_order 1 first_draw (fun _ => 0)
             pinned_request (sample_sel "default" keyless_world) in
  r.1 = Ok (DNext (Some 1%positive) "default") /\ cx_Id (sl_channel r.2) = 51 /\ cx_Key (sl_channel r.2) = "" /\
  (GetNextEnabledKey (fun _ => 0) 1 (sl_w r.2)).1 = Ok (Err (key_error "no enabled keys")).
Proof. by vm_compute. Qed.

(** ** Channels that rest *)

(** A channel that rests after three failures. *)
Definition failing (id : Z) (w : World) : World :=
  (forM_ [id; id; id] (fun id => ignore_err (RecordChannelHealthFailure id) : MW unit) w).2.
Definition second_draw (_ n : Z) : Z := n - 1.

(** With a fixed group a request fails when the one channel that is drawn rests, also
    when the group has a healthy one that another draw gives. *)
Theorem resting_draw_fails_request :
  let w := failing 13 cached_world in
  let search draw := CacheGetRandomSatisfiedChannel sample_compile sample_groups group_ratios in_map_order 1 draw
                       (sample_sel "default" w) in
  (search first_draw).1 = Ok (None, "default", None) /\
  (match (search second_draw).1 with Ok (Some l, _, _) => Some (cn_Id (object w l)) | _ => None end) = Some 12.
Proof. by vm_compute. Qed.
(** For an automatic token the whole group is left for the request. *)
Theorem resting_draw_skips_group :
  let w := failing 13 cached_world in
  (match (sample_search (sample_sel "auto" w)).1 with Ok (_, g, _) => Some g | _ => None end) = Some "auto" /\
  rests w 5 = false.
Proof. by vm_compute. Qed.

(** The retry number never leaves the group: after its two priorities the group is
    searched at the lowest one again, where the comment of the code moves on to the
    next group. *)
Theorem priorities_never_exhausted :
  let at_retry n := sample_sel "auto" cached_world <| sl_param := sample_param "auto" <| rp_Retry := Some n |> |> in
  let search n := CacheGetRandomSatisfiedChannel sample_compile sample_groups group_ratios in_map_order 3 first_draw (at_retry n) in
  (fun n => match (search n).1 with Ok (Some l, g, _) => Some (cn_Id (object cached_world l), g) | _ => None end) <$> [0; 1; 2; 3]
  = [Some (13, "vip"); Some (11, "vip"); Some (11, "vip"); Some (11, "vip")].
Proof. by vm_compute. Qed.

(** The organisation of a channel stays in the context when the next channel has none. *)
Definition no_urls (_ : Z) : string := "".
Definition org_channel : Channel := sample_channel 41 1 0 <| cn_OpenAIOrganization := Some "org-a" |>.
Definition plain_channel : Channel := sample_channel 42 1 0 <| cn_Key := "sk-b" |>.
Definition org_world : World :=
  empty_world <| w_routing := mkRouting {[1%positive := org_channel; 2%positive := plain_channel]}
                                3 ∅ ∅ ∅ ∅ ∅ ∅ |>.
Theorem organization_outlives_channel :
  let setup l := SetupContextForSelectedChannel no_urls (fun _ => 0) (Some l) "gpt-4o" in
  let st := ((setup 1%positive ≫= fun _ => setup 2%positive) (sample_sel "default" org_world)).2 in
  (cx_Id (sl_channel st), cx_Key (sl_channel st), cx_Organization (sl_channel st)) = (42, "sk-b", "org-a").
Proof. by vm_compute. Qed.

(** ** A request *)

Definition sample_relay : RelayConfig :=
  mkRelayConfig 1 sample_groups sample_pricing (mkViolationSettings true (F64.of_Z 1)) AutomaticRetryStatusCodeRanges
    AutomaticDisableStatusCodeRanges true true.
Definition sample_request : RelayRequest := mkRelayRequest false false sample_gin.
Definition no_format (_ : F64.float64) : string := "".
Definition no_mask (s : string) : string := s.
Definition no_keyword (_ : string) : bool := false.
(** Every upstream answers 500. *)
Definition upstream_down : NewAPIError := InitOpenAIError "bad_response_status_code" 500 [].
Definition failing_turn (_ : nat) : Turn string :=
  mkTurn false (fun _ _ => 0) (fun _ => 0) None (fun ps => (Some upstream_down, ps)) false false.
Definition gone_turn (_ : nat) : Turn string :=
  mkTurn true (fun _ _ => 0) (fun _ => 0) None (fun ps => (Some upstream_down, ps)) false false.

Definition relay_info : RelayInfo := sample_info <| ri_OriginModelName := "gpt-4o" |> <| ri_ChannelMeta := None |>.
Definition unpaid : Ctx := mkCtx cached_world relay_info None.
Definition paid : Ctx := (PreConsumeBilling 5000 300 unpaid).2.
Definition relay_state (group : string) (c : Ctx) : RelayState string :=
  mkRS (mkPS c ∅) sample_keys (mkRetryParam group "gpt-4o" "/v1/chat/completions" (Some 0) false)
    (no_channel_keys <| cx_Id := 11 |> <| cx_AutoBan := true |>) [] [].
#[local] Abbreviation sample_attempts := (relay_attempts (D := QArith_base.Q) sample_compile no_urls no_format no_mask
  no_keyword sample_relay in_map_order sample_request).

Example sample_attempts_ex :
  let r := sample_attempts failing_turn 9 (relay_state "auto" paid) in
  (match r.1 with Ok (Some (Some e)) => ae_StatusCode e | _ => 0 end, rs_used r.2) = (500, [11; 11; 13; 11]).
Proof. by vm_compute. Qed.

Lemma relay_attempts_bounded_witness :
  let st := relay_state "auto" paid in
  let left_ := attempts_left sample_relay in_map_order st in
  left_ = 8 /\
  ((sample_attempts failing_turn 9 st).1 <> Ok None /\
   sample_attempts failing_turn 9 st = sample_attempts failing_turn (Z.to_nat (left_ + 1)) st /\
   Z.of_nat (length (rs_used (sample_attempts failing_turn 9 st).2)) <= Z.of_nat (length (rs_used st)) + left_).
Proof.
  pose proof (relay_attempts_bounded (D := QArith_base.Q) sample_compile no_urls no_format no_mask no_keyword sample_relay
    in_map_order sample_request failing_turn 9 (relay_state "auto" paid) ltac:(done) ltac:(by repeat split) ltac:(done)) as [E H].
  cbv zeta in E, H |- *. assert (E8 : attempts_left sample_relay in_map_order (relay_state "auto" paid) = 8).
  { rewrite E. by vm_compute. }
  split; [exact E8|]. apply H. rewrite E8. lia.
Defined.

Lemma failing_turn_free i : fails_free (failing_turn i).
Proof. intros ps e ps' [= _ <-] Hf. by apply unspent_refl. Qed.

(** A client that is gone before the first attempt is not an error: nothing is given
    back, although no upstream was called. *)
Theorem disconnected_request_keeps_quota :
  let r := sample_attempts gone_turn 9 (relay_state "auto" paid) in
  r.1 = Ok (Some None) /\ rs_used r.2 = [] /\ w_jobs (rs_world r.2) = w_jobs (c_w paid) /\
  wallet (c_w unpaid) 1 = 100000 /\ wallet (rs_world r.2) 1 = 99700 /\
  match bill_of r.2 with Some s => NeedsRefund s | None => false end = true.
Proof. by vm_compute. Qed.

(** While the channel of the distributor is over its limit, its request is refused on
    every attempt: no other channel is searched. *)
Definition limited_settings : ChannelOtherSettings := mkOtherSettings 1 0 None.
Definition limited_ctx : Ctx :=
  paid <| c_w := (TryAcquireChannelRequestForContext (Some limited_settings) 11 (c_w paid)).2 |>.
Definition limited_state : RelayState string :=
  relay_state "default" limited_ctx <| rs_channel := no_channel_keys <| cx_Id := 11 |> <| cx_OtherSetting := Some limited_settings |> |>.
Theorem limited_channel_blocks_request :
  let r := sample_attempts failing_turn 9 limited_state in
  (match r.1 with Ok (Some (Some e)) => ae_StatusCode e | _ => 0 end) = 429 /\ rs_used r.2 = [] /\
  rs_keys r.2 = rs_keys limited_state /\
  (match (CacheGetRandomSatisfiedChannel sample_compile sample_groups group_ratios in_map_order 1 first_draw
            (sample_sel "default" (c_w limited_ctx))).1 with
   | Ok (Some l, _, _) => Some (cn_Id (object cached_world l)) | _ => None end) = Some 13.
Proof. by vm_compute. Qed.

(** An upstream error with metadata is normalised twice, and its metadata is appended
    to the message each time. *)
Theorem metadata_repeated :
  let upstream := WithOpenAIError (mkOpenAIError "no" "t" "" (CString ErrorCodeViolationFeeGrokCSAM) "{}") 403 [] in
  let normalize := NormalizeViolationFeeError no_format no_mask in
  (Error_text no_format upstream, Error_text no_format (normalize (normalize upstream))) = ("no ({})", "no ({}) ({}) ({})").
Proof. by vm_compute. Qed.
(** The fee is not clamped to the quota range. *)
Theorem violation_fee_unclamped :
  calcViolationFeeQuota (D := QArith_base.Q) (F64.of_Z 500000) (F64.of_Z 10000) F64.one = 5000000000 /\
  Quota.MaxQuota < 5000000000.
Proof. split; [by vm_compute|done]. Qed.
