(* ===== verification/SystemTask.v ===== *)
(** * System tasks (src/model/system_task.go)

    Background jobs of the cluster: a row per task, a lease per type of task.  Several
    nodes share the two tables, so an operation is a program ([prog]) of database
    statements between which other nodes may run; [SystemRunner] interleaves them. *)

From S2P Require Import Prelude GoStd.

Inductive SystemTaskStatus := SystemTaskStatusPending | SystemTaskStatusRunning
  | SystemTaskStatusSucceeded | SystemTaskStatusFailed.
#[export] Instance SystemTaskStatus_eq_dec : EqDecision SystemTaskStatus.
Proof. solve_decision. Defined.

Definition SystemTaskTypeLogCleanup : string := "log_cleanup".
Definition ErrSystemTaskLockLost : error := ErrNew "system task lock lost".

Record SystemTask := mkSystemTask {
  sy_ID : Z;
  sy_TaskID : string;
  sy_Type : string;
  sy_Status : SystemTaskStatus;
  sy_ActiveKey : option string;
  sy_Payload : string;
  sy_State : string;
  sy_Result : string;
  sy_Error : string;
  sy_LockedBy : string;
  sy_CreatedAt : Z;
  sy_UpdatedAt : Z;
}.
#[export] Instance SystemTask_eq_dec : EqDecision SystemTask.
Proof. solve_decision. Defined.
#[export] Instance SystemTask_settable : Settable SystemTask :=
  fields_of mkSystemTask < sy_ID; sy_TaskID; sy_Type; sy_Status; sy_ActiveKey; sy_Payload; sy_State;
    sy_Result; sy_Error; sy_LockedBy; sy_CreatedAt; sy_UpdatedAt >.
Record SystemTaskLock := mkSystemTaskLock {
  lk_Type : string;
  lk_TaskID : string;
  lk_LockedBy : string;
  lk_LockedUntil : Z;
  lk_UpdatedAt : Z;
}.
#[export] Instance SystemTaskLock_eq_dec : EqDecision SystemTaskLock.
Proof. solve_decision. Defined.
#[export] Instance SystemTaskLock_settable : Settable SystemTaskLock :=
  fields_of mkSystemTaskLock < lk_Type; lk_TaskID; lk_LockedBy; lk_LockedUntil; lk_UpdatedAt >.

(** ** The shared tables and their statements *)

(** The tasks by id, the locks by type (the primary keys), the next id, the clock in
    seconds, the creation times of the rows of the log table, and whether RowsAffected
    counts the rows an update matches (PostgreSQL, SQLite) or those it changes (MySQL). *)
Record Store := mkStore {
  s_tasks : gmap Z SystemTask;
  s_locks : gmap string SystemTaskLock;
  s_next : Z;
  s_now : Z;
  s_logs : list Z;
  s_found_rows : bool;
}.
#[export] Instance Store_settable : Settable Store :=
  fields_of mkStore < s_tasks; s_locks; s_next; s_now; s_logs; s_found_rows >.

(** A query works on the rows in the order of their ids; an update has its condition
    and its change, and answers the number of rows; reading the clock is a statement
    that cannot fail. *)
Inductive stmt : Type -> Type :=
| GetTimestamp : stmt Z
| InsertTask (t : SystemTask) : stmt SystemTask
| InsertLock (l : SystemTaskLock) : stmt unit
| SelectTasks (q : list SystemTask -> list SystemTask) : stmt (list SystemTask)
| SelectLocks (p : SystemTaskLock -> bool) : stmt (list SystemTaskLock)
| UpdateTasks (p : Store -> SystemTask -> bool) (f : SystemTask -> SystemTask) : stmt Z
| UpdateLocks (p : SystemTaskLock -> bool) (f : SystemTaskLock -> SystemTaskLock) : stmt Z
| DeleteLocks (p : SystemTaskLock -> bool) : stmt unit
| CountLogs (before : Z) : stmt Z
| DeleteLogs (before : Z) (limit : option nat) : stmt Z.

Definition id_le (a b : SystemTask) : Prop := sy_ID a <= sy_ID b.
#[export] Instance id_le_dec a b : Decision (id_le a b) := decide (sy_ID a <= sy_ID b).
Definition rows (s : Store) : list SystemTask := merge_sort id_le (map_to_list (s_tasks s)).*2.

(** BeforeCreate *)
Definition before_create (now : Z) (t : SystemTask) : SystemTask :=
  t <| sy_CreatedAt := if sy_CreatedAt t =? 0 then now else sy_CreatedAt t |>
    <| sy_UpdatedAt := if sy_UpdatedAt t =? 0 then now else sy_UpdatedAt t |>.
Definition before_create_lock (now : Z) (l : SystemTaskLock) : SystemTaskLock :=
  l <| lk_UpdatedAt := if lk_UpdatedAt l =? 0 then now else lk_UpdatedAt l |>.

(** The unique indexes on task_id and active_key; NULL keys do not clash. *)
Definition clashes (t t' : SystemTask) : bool :=
  bool_decide (sy_TaskID t = sy_TaskID t')
  || match sy_ActiveKey t, sy_ActiveKey t' with
     | Some k, Some k' => bool_decide (k = k')
     | _, _ => false
     end.
Definition insert_task (t : SystemTask) (s : Store) : result error SystemTask * Store :=
  let t : SystemTask := before_create (s_now s) t <| sy_ID := s_next s |> in
  if existsb (clashes t) (rows s) then (Err ErrDuplicatedKey, s)
  else (Ok t, s <| s_tasks := <[sy_ID t := t]> (s_tasks s) |> <| s_next := s_next s + 1 |>).
Definition insert_lock (l : SystemTaskLock) (s : Store) : result error unit * Store :=
  match s_locks s !! lk_Type l with
  | Some _ => (Err ErrDuplicatedKey, s)
  | None => (Ok tt, s <| s_locks := <[lk_Type l := before_create_lock (s_now s) l]> (s_locks s) |>)
  end.
Definition update_rows {K V} `{Countable K} (p : V -> bool) (f : V -> V) (m : gmap K V) : gmap K V :=
  (fun v => if p v then f v else v) <$> m.
Definition affected {K V} `{Countable K} `{EqDecision V} (found_rows : bool) (p : V -> bool) (f : V -> V)
    (m : gmap K V) : Z :=
  Z.of_nat (length (List.filter (fun v => p v && (found_rows || bool_decide (f v <> v))) (map_to_list m).*2)).
Definition old (before : Z) (created_at : Z) : bool := created_at <? before.
(** Up to [limit] rows that satisfy [p] go. *)
Fixpoint delete_first {A} (p : A -> bool) (limit : nat) (l : list A) : list A :=
  match l, limit with
  | [], _ => []
  | _, O => l
  | x :: l', S n => if p x then delete_first p n l' else x :: delete_first p limit l'
  end.

Definition exec_stmt {B} (e : stmt B) (s : Store) : result error B * Store :=
  match e with
  | GetTimestamp => (Ok (s_now s), s)
  | InsertTask t => insert_task t s
  | InsertLock l => insert_lock l s
  | SelectTasks q => (Ok (q (rows s)), s)
  | SelectLocks p => (Ok (List.filter p (map_to_list (s_locks s)).*2), s)
  | UpdateTasks p f => (Ok (affected (s_found_rows s) (p s) f (s_tasks s)), s <| s_tasks := update_rows (p s) f (s_tasks s) |>)
  | UpdateLocks p f => (Ok (affected (s_found_rows s) p f (s_locks s)), s <| s_locks := update_rows p f (s_locks s) |>)
  | DeleteLocks p => (Ok tt, s <| s_locks := filter (fun kl => p kl.2 = false) (s_locks s) |>)
  | CountLogs before => (Ok (Z.of_nat (length (List.filter (old before) (s_logs s)))), s)
  | DeleteLogs before limit =>
      let logs := match limit with
                  | Some n => delete_first (old before) n (s_logs s)
                  | None => List.filter (fun c => negb (old before c)) (s_logs s)
                  end in
      (Ok (Z.of_nat (length (s_logs s)) - Z.of_nat (length logs)), s <| s_logs := logs |>)
  end.
(** A statement may fail before it takes effect. *)
Definition exec {B} (fault : option error) (e : stmt B) (s : Store) : result error B * Store :=
  match e, fault with
  | GetTimestamp, _ | _, None => exec_stmt e s
  | _, Some err => (Err err, s)
  end.

(** ** Programs of statements *)

Inductive prog (A : Type) : Type :=
| Done (a : A)
| Exec {B : Type} (e : stmt B) (k : result error B -> prog A).
Arguments Done {A} a.
Arguments Exec {A B} e k.
#[export] Instance prog_ret : MRet prog := fun A a => Done a.
#[export] Instance prog_bind : MBind prog := fun A B k =>
  fix go p := match p with Done a => k a | Exec e c => Exec e (fun r => go (c r)) end.
Definition call {B} (e : stmt B) : prog (result error B) := Exec e Done.
(** [if err != nil { return err }] *)
Definition on_ok {A B} (k : A -> prog (result error B)) (r : result error A) : prog (result error B) :=
  match r with Ok a => k a | Err e => mret (Err e) end.
Notation "x ←? m ; k" := (m ≫= on_ok (fun x => k)) (at level 20, m at level 100, k at level 200, right associativity,
  format "x  ←?  m ;  '/' k").

(** A program without interruption, its faults in the order of its statements. *)
Fixpoint run_alone {A} (faults : list (option error)) (p : prog A) (s : Store) : A * Store :=
  match p with
  | Done a => (a, s)
  | Exec e k => let '(r, s') := exec (default None (head faults)) e s in run_alone (tail faults) (k r) s'
  end.

(** ** The operations of the model *)

Definition Active (t : SystemTask) : bool :=
  bool_decide (sy_Status t = SystemTaskStatusPending) || bool_decide (sy_Status t = SystemTaskStatusRunning).
Definition of_type (taskType : string) (t : SystemTask) : bool := bool_decide (sy_Type t = taskType).
Definition one_of (taskTypes : list string) (t : SystemTask) : bool := bool_decide (sy_Type t ∈ taskTypes).
Definition has_status (status : SystemTaskStatus) (t : SystemTask) : bool := bool_decide (sy_Status t = status).

(** First: a query for one row; none is ErrRecordNotFound, which the callers turn
    into no row. *)
Definition first_task (q : list SystemTask -> list SystemTask) : prog (result error (option SystemTask)) :=
  ts ←? call (SelectTasks q); mret (Ok (head ts)).
Definition where_task (p : SystemTask -> bool) : list SystemTask -> list SystemTask := List.filter p.
Definition id_desc (ts : list SystemTask) : list SystemTask := reverse ts.

Section json.
(** JSON values, and their encoding and decoding (encoding/json). *)
Context {J : Type} (Marshal : J -> result error string) (Unmarshal : string -> option J).

Definition marshalSystemTaskJSON (v : option J) : result error string :=
  match v with None => Ok "" | Some v => Marshal v end.
(** The zero value of the target stays when there is no text. *)
Definition decodeSystemTaskJSONString {A} (decode : string -> result error A) (zero : A) (data : string)
    : result error A :=
  if decide (data = "") then Ok zero else decode data.
(** A text that is no JSON is shown as it is. *)
Definition decodeSystemTaskJSONValue (data : string) : option (string + J) :=
  if decide (data = "") then None
  else match Unmarshal data with Some v => Some (inr v) | None => Some (inl data) end.

(** [key]: what GenerateRandomCharsKey gives. *)
Definition GenerateSystemTaskID (key : result error string) : result error string :=
  match key with Err e => Err e | Ok key => Ok ("systask_" +:+ key) end.
Definition CreateSystemTask (key : result error string) (taskType : string) (payload state : option J)
    : prog (result error SystemTask) :=
  taskID ←? mret (GenerateSystemTaskID key);
  payloadText ←? mret (marshalSystemTaskJSON payload);
  stateText ←? mret (marshalSystemTaskJSON state);
  call (InsertTask (mkSystemTask 0 taskID taskType SystemTaskStatusPending (Some taskType)
                      payloadText stateText "" "" "" 0 0)).

Definition GetSystemTaskByTaskID (taskID : string) : prog (result error (option SystemTask)) :=
  first_task (where_task (fun t => bool_decide (sy_TaskID t = taskID))).
Definition GetActiveSystemTask (taskType : string) : prog (result error (option SystemTask)) :=
  first_task (fun ts => id_desc (where_task (fun t => of_type taskType t && Active t) ts)).
Definition FindPendingSystemTasks (taskType : string) (limit : Z) : prog (result error (list SystemTask)) :=
  let limit := if limit <=? 0 then 1 else limit in
  call (SelectTasks (fun ts => take (Z.to_nat limit)
          (where_task (fun t => of_type taskType t && has_status SystemTaskStatusPending t) ts))).

(** SELECT MIN(id) ... GROUP BY type, and MAX(id): the rows of each type without a
    smaller (greater) one. *)
Definition extremal (better : Z -> Z -> bool) (ts : list SystemTask) : list SystemTask :=
  List.filter (fun t => forallb (fun t' => negb (of_type (sy_Type t) t') || better (sy_ID t) (sy_ID t')) ts) ts.
Definition tasks_by_type (ts : list SystemTask) : gmap string SystemTask :=
  fold_left (fun m t => <[sy_Type t := t]> m) ts ∅.
Definition FindEarliestPendingSystemTasks (taskTypes : list string)
    : prog (result error (gmap string SystemTask)) :=
  match taskTypes with
  | [] => mret (Ok ∅)
  | _ =>
      tasks ←? call (SelectTasks (fun ts =>
                 extremal Z.leb (where_task (fun t => one_of taskTypes t && has_status SystemTaskStatusPending t) ts)));
      mret (Ok (tasks_by_type tasks))
  end.
Definition ListSystemTasks (limit : Z) : prog (result error (list SystemTask)) :=
  let limit := if limit <=? 0 then 20 else limit in
  let limit := if limit >? 100 then 100 else limit in
  call (SelectTasks (fun ts => take (Z.to_nat limit) (id_desc ts))).
Definition GetLatestSystemTask (taskType : string) : prog (result error (option SystemTask)) :=
  first_task (fun ts => id_desc (where_task (of_type taskType) ts)).
Definition GetLatestSystemTasks (taskTypes : list string) : prog (result error (gmap string SystemTask)) :=
  match taskTypes with
  | [] => mret (Ok ∅)
  | _ =>
      tasks ←? call (SelectTasks (fun ts => extremal Z.geb (where_task (one_of taskTypes) ts)));
      mret (Ok (tasks_by_type tasks))
  end.

(** *** Leases *)

Definition set_lock (taskID lockedBy : string) (lockUntil now : Z) (l : SystemTaskLock) : SystemTaskLock :=
  l <| lk_TaskID := taskID |> <| lk_LockedBy := lockedBy |> <| lk_LockedUntil := lockUntil |> <| lk_UpdatedAt := now |>.
Definition acquireSystemTaskLock (taskType taskID lockedBy : string) (now lockUntil : Z)
    : prog (result error (bool * string)) :=
  created ← call (InsertLock (mkSystemTaskLock taskType taskID lockedBy lockUntil now));
  match created with
  | Ok _ => mret (Ok (true, ""))
  | Err _ =>
      found ←? call (SelectLocks (fun l => bool_decide (lk_Type l = taskType)));
      match found with
      | [] => mret (Ok (false, ""))
      | existing :: _ =>
          if lk_LockedUntil existing >=? now then mret (Ok (false, ""))
          else
            rows ←? call (UpdateLocks (fun l => bool_decide (lk_Type l = taskType) && (lk_LockedUntil l <? now))
                            (set_lock taskID lockedBy lockUntil now));
            mret (Ok (if rows =? 0 then (false, "") else (true, lk_TaskID existing)))
      end
  end.

Definition MarkSystemTaskLeaseExpired (taskID : string) : prog (result error unit) :=
  now ←? call GetTimestamp;
  _ ←? call (UpdateTasks (fun _ t => bool_decide (sy_TaskID t = taskID) && has_status SystemTaskStatusRunning t)
               (fun t => t <| sy_Status := SystemTaskStatusFailed |> <| sy_ActiveKey := None |>
                           <| sy_Error := "task lease expired" |> <| sy_UpdatedAt := now |>));
  mret (Ok tt).
Definition ReleaseSystemTaskLock (taskID lockedBy : string) : prog (result error unit) :=
  call (DeleteLocks (fun l => bool_decide (lk_TaskID l = taskID) && bool_decide (lk_LockedBy l = lockedBy))).

Definition claimable (id : Z) (taskType : string) (t : SystemTask) : bool :=
  (sy_ID t =? id) && of_type taskType t && has_status SystemTaskStatusPending t.
(** [None]: not claimed. *)
Definition ClaimSystemTask (id : Z) (taskType runnerID : string) (lockUntil : Z)
    : prog (result error (option SystemTask)) :=
  now ←? call GetTimestamp;
  task ←? first_task (where_task (claimable id taskType));
  match task with
  | None => mret (Ok None)
  | Some task =>
      lock ←? acquireSystemTaskLock taskType (sy_TaskID task) runnerID now lockUntil;
      let '(acquired, expiredTaskID) := lock in
      if negb acquired then mret (Ok None)
      else
        marked ← (if bool_decide (expiredTaskID <> "") && bool_decide (expiredTaskID <> sy_TaskID task)
                  then MarkSystemTaskLeaseExpired expiredTaskID else mret (Ok tt));
        match marked with
        | Err e => _ ← ReleaseSystemTaskLock (sy_TaskID task) runnerID; mret (Err e)
        | Ok _ =>
            updated ← call (UpdateTasks (fun _ => claimable id taskType)
                              (fun t => t <| sy_Status := SystemTaskStatusRunning |> <| sy_LockedBy := runnerID |>
                                          <| sy_UpdatedAt := now |>));
            match updated with
            | Err e => _ ← ReleaseSystemTaskLock (sy_TaskID task) runnerID; mret (Err e)
            | Ok n =>
                if n =? 0 then _ ← ReleaseSystemTaskLock (sy_TaskID task) runnerID; mret (Ok None)
                else
                  read ←? first_task (where_task (fun t => sy_ID t =? id));
                  match read with
                  | None => mret (Err ErrRecordNotFound)
                  | Some task => mret (Ok (Some task))
                  end
            end
        end
  end.

(** EXISTS (SELECT 1 FROM system_task_locks ...) *)
Definition holds_lock (lockedBy : string) (now : Z) (s : Store) (t : SystemTask) : bool :=
  existsb (fun l => bool_decide (lk_TaskID l = sy_TaskID t) && bool_decide (lk_LockedBy l = lockedBy)
                    && (lk_LockedUntil l >=? now)) (map_to_list (s_locks s)).*2.
Definition running_for (taskID lockedBy : string) (now : Z) (s : Store) (t : SystemTask) : bool :=
  bool_decide (sy_TaskID t = taskID) && has_status SystemTaskStatusRunning t
  && bool_decide (sy_LockedBy t = lockedBy) && holds_lock lockedBy now s t.
Definition one_row (n : Z) : result error unit := if n =? 0 then Err ErrSystemTaskLockLost else Ok tt.

Definition UpdateSystemTaskState (taskID lockedBy : string) (state : option J) : prog (result error unit) :=
  stateText ←? mret (marshalSystemTaskJSON state);
  now ←? call GetTimestamp;
  n ←? call (UpdateTasks (running_for taskID lockedBy now)
               (fun t => t <| sy_State := stateText |> <| sy_UpdatedAt := now |>));
  mret (one_row n).
Definition RenewSystemTaskLock (taskID lockedBy : string) (lockUntil : Z) : prog (result error unit) :=
  now ←? call GetTimestamp;
  n ←? call (UpdateLocks (fun l => bool_decide (lk_TaskID l = taskID) && bool_decide (lk_LockedBy l = lockedBy)
                                   && (lk_LockedUntil l >=? now))
               (fun l => l <| lk_LockedUntil := lockUntil |> <| lk_UpdatedAt := now |>));
  mret (one_row n).
Definition FinishSystemTask (taskID lockedBy : string) (status : SystemTaskStatus) (resultPayload : option J)
    (errorMessage : string) : prog (result error unit) :=
  resultText ←? mret (marshalSystemTaskJSON resultPayload);
  now ←? call GetTimestamp;
  n ←? call (UpdateTasks (running_for taskID lockedBy now)
               (fun t => t <| sy_Status := status |> <| sy_ActiveKey := None |> <| sy_Result := resultText |>
                           <| sy_Error := errorMessage |> <| sy_UpdatedAt := now |>));
  if n =? 0 then mret (Err ErrSystemTaskLockLost) else ReleaseSystemTaskLock taskID lockedBy.

(** The rows that were read as stale, one after another. *)
Fixpoint expire_locks (now : Z) (locks : list SystemTaskLock) : prog (result error unit) :=
  match locks with
  | [] => mret (Ok tt)
  | lock :: locks =>
      _ ←? MarkSystemTaskLeaseExpired (lk_TaskID lock);
      _ ←? call (DeleteLocks (fun l => bool_decide (lk_Type l = lk_Type lock) && bool_decide (lk_TaskID l = lk_TaskID lock)
                                && bool_decide (lk_LockedBy l = lk_LockedBy lock) && (lk_LockedUntil l <? now)));
      expire_locks now locks
  end.
Definition ExpireStaleSystemTaskLocks (now : Z) : prog (result error unit) :=
  locks ←? call (SelectLocks (fun l => lk_LockedUntil l <? now));
  expire_locks now locks.
End json.
