(* ===== verification/SystemRunner.v ===== *)
(** * Running system tasks (src/service/system_task.go, src/model/log.go)

    The passes of a runner (expire, schedule, claim), the heartbeat of a lease, and
    the handler that cleans the log. *)

From S2P Require Import Prelude GoStd SystemTask.

(** In seconds. *)
Definition systemTaskLockTTL : Z := 60.
Definition systemTaskSchedulerInterval : Z := 15.
Definition systemTaskStaleLockInterval : Z := 30.
Definition logCleanupBatchSize : Z := 100.

Record LogCleanupPayload := mkLogCleanupPayload { lp_TargetTimestamp : Z; lp_BatchSize : Z }.
Record LogCleanupState := mkLogCleanupState { lc_Total : Z; lc_Processed : Z; lc_Progress : Z; lc_Remaining : Z }.
#[export] Instance LogCleanupState_settable : Settable LogCleanupState :=
  fields_of mkLogCleanupState < lc_Total; lc_Processed; lc_Progress; lc_Remaining >.
Record LogCleanupResult := mkLogCleanupResult { lr_DeletedCount : Z }.
Record SystemTaskProgress := mkSystemTaskProgress { sp_Total : Z; sp_Processed : Z; sp_Progress : Z }.

Definition logCleanupProgress (processed total : Z) : Z :=
  if total <=? 0 then 100
  else if processed <=? 0 then 0
  else if processed >=? total then 100
  else Z.quot (processed * 100) total.
Definition syncLogCleanupStateFromRemaining (remaining : Z) (state : LogCleanupState) : LogCleanupState :=
  let state : LogCleanupState :=
    if lc_Total state <=? 0 then state <| lc_Total := remaining |> <| lc_Processed := 0 |>
    else
      let processedFromRemaining := lc_Total state - remaining in
      if processedFromRemaining >? lc_Processed state then state <| lc_Processed := processedFromRemaining |> else state in
  let state : LogCleanupState := if lc_Processed state <? 0 then state <| lc_Processed := 0 |> else state in
  state <| lc_Remaining := remaining |> <| lc_Progress := logCleanupProgress (lc_Processed state) (lc_Total state) |>.
(** The state after a batch of [rowsAffected] rows. *)
Definition batch_deleted (rowsAffected : Z) (state : LogCleanupState) : LogCleanupState :=
  let state : LogCleanupState := state <| lc_Processed := lc_Processed state + rowsAffected |> in
  let state : LogCleanupState :=
    if lc_Total state <? lc_Processed state then state <| lc_Total := lc_Processed state |> else state in
  let state : LogCleanupState :=
    state <| lc_Remaining := if lc_Remaining state >? rowsAffected then lc_Remaining state - rowsAffected else 0 |> in
  state <| lc_Progress := logCleanupProgress (lc_Processed state) (lc_Total state) |>.
Definition cleanup_over (state : LogCleanupState) : LogCleanupState :=
  let state : LogCleanupState := state <| lc_Remaining := 0 |> <| lc_Progress := 100 |> in
  if lc_Total state <? lc_Processed state then state <| lc_Total := lc_Processed state |> else state.

(** src/model/log.go.  A cancelled context makes these calls fail. *)
Definition CountOldLog (targetTimestamp : Z) : prog (result error Z) := call (CountLogs targetTimestamp).
Definition DeleteOldLogBatch (clickHouse : bool) (targetTimestamp limit : Z) : prog (result error Z) :=
  let limit := if limit <=? 0 then 100 else limit in
  if clickHouse then
    total ←? CountOldLog targetTimestamp;
    if total =? 0 then mret (Ok 0)
    else _ ←? call (DeleteLogs targetTimestamp None); mret (Ok total)
  else call (DeleteLogs targetTimestamp (Some (Z.to_nat limit))).

(** A handler; a scheduled one with whether it is enabled, its interval in seconds
    and its payload. *)
Record Handler (J : Type) := mkHandler {
  h_Type : string;
  h_Schedule : option (bool * Z * option J);
}.
Arguments mkHandler {J}.
Arguments h_Type {J} _.
Arguments h_Schedule {J} _.

Section runner.
Context {J : Type} (Marshal : J -> result error string).
(** The values of the cleanup records, and their decoding. *)
Context (payload_value : LogCleanupPayload -> J) (state_value : LogCleanupState -> J)
  (result_value : LogCleanupResult -> J) (progress_value : SystemTaskProgress -> J).
Context (decode_payload : string -> result error LogCleanupPayload)
  (decode_state : string -> result error LogCleanupState).

Definition systemTaskLockUntil : prog (result error Z) :=
  now ←? call GetTimestamp; mret (Ok (now + systemTaskLockTTL)).

(** ** Creating tasks *)

(** The task, and whether it is new. *)
Definition create_unless_active (key : result error string) (taskType : string) (payload state : option J)
    : prog (result error (SystemTask * bool)) :=
  activeTask ←? GetActiveSystemTask taskType;
  match activeTask with
  | Some t => mret (Ok (t, false))
  | None =>
      task ← CreateSystemTask Marshal key taskType payload state;
      match task with
      | Ok task => mret (Ok (task, true))
      | Err err =>
          activeTask ← GetActiveSystemTask taskType;
          mret (match activeTask with Ok (Some t) => Ok (t, false) | _ => Err err end)
      end
  end.
Definition EnqueueSystemTask (key : result error string) (taskType : string) (payload : option J)
    : prog (result error (SystemTask * bool)) := create_unless_active key taskType payload None.
Definition zero_state : LogCleanupState := mkLogCleanupState 0 0 0 0.
Definition StartLogCleanupTask (key : result error string) (targetTimestamp : Z) : prog (result error SystemTask) :=
  if targetTimestamp <=? 0 then mret (Err (ErrNew "target timestamp is required"))
  else
    task ←? create_unless_active key SystemTaskTypeLogCleanup
              (Some (payload_value (mkLogCleanupPayload targetTimestamp logCleanupBatchSize)))
              (Some (state_value zero_state));
    mret (Ok task.1).

(** Whether a task of a scheduled handler is due: none is active and the last one
    is [interval] seconds old. *)
Definition due (now interval : Z) (latest : option SystemTask) : bool :=
  match latest with
  | None => true
  | Some t => negb (Active t) && negb (now - sy_UpdatedAt t <? interval)
  end.
(** Errors are only logged. *)
Fixpoint schedule_due (now : Z) (latest : gmap string SystemTask)
    (scheduled : list (string * Z * option J * result error string)) : prog unit :=
  match scheduled with
  | [] => mret tt
  | (taskType, interval, payload, key) :: scheduled =>
      (if due now interval (latest !! taskType) then
         created ← CreateSystemTask Marshal key taskType payload None;
         match created with
         | Ok _ => mret tt
         | Err _ => _ ← GetActiveSystemTask taskType; mret tt
         end
       else mret tt) ;;
      schedule_due now latest scheduled
  end.
Definition enabled_schedules (keys : string -> result error string) (handlers : list (Handler J))
    : list (string * Z * option J * result error string) :=
  omap (fun h => match h_Schedule h with
                 | Some (true, interval, payload) => Some (h_Type h, interval, payload, keys (h_Type h))
                 | _ => None
                 end) handlers.
(** [keys]: the random keys that new tasks get. *)
Definition runSystemTaskScheduler (keys : string -> result error string) (handlers : list (Handler J)) : prog unit :=
  now ← call GetTimestamp;
  match now with
  | Err _ => mret tt
  | Ok now =>
      let scheduled := enabled_schedules keys handlers in
      latest ← GetLatestSystemTasks ((fun x => x.1.1.1) <$> scheduled);
      match latest with
      | Err _ => mret tt
      | Ok latest => schedule_due now latest scheduled
      end
  end.

(** ** Claiming tasks *)

(** The tasks that were claimed; each is handed to its handler in a goroutine. *)
Fixpoint claim_types (pending : gmap string SystemTask) (runnerID : string) (taskTypes : list string)
    : prog (list SystemTask) :=
  match taskTypes with
  | [] => mret []
  | taskType :: taskTypes =>
      match pending !! taskType with
      | None => claim_types pending runnerID taskTypes
      | Some task =>
          claimed ← (lockUntil ←? systemTaskLockUntil; ClaimSystemTask (sy_ID task) taskType runnerID lockUntil);
          rest ← claim_types pending runnerID taskTypes;
          mret (match claimed with Ok (Some t) => t :: rest | _ => rest end)
      end
  end.
Definition runSystemTaskClaimPass (runnerID : string) (handlers : list (Handler J)) : prog (list SystemTask) :=
  let taskTypes := h_Type <$> handlers in
  pendingTasks ← FindEarliestPendingSystemTasks taskTypes;
  match pendingTasks with
  | Err _ => mret []
  | Ok pending => claim_types pending runnerID taskTypes
  end.
Definition stale_pass : prog (result error unit) :=
  now ←? call GetTimestamp; ExpireStaleSystemTaskLocks now.

(** The times of the last passes; a zero time is long ago. *)
Definition elapsed (now interval : Z) (last : option Z) : bool :=
  match last with None => true | Some t => now - t >=? interval end.
Definition runPass (runnerID : string) (keys : string -> result error string) (handlers : list (Handler J))
    (lastScheduler lastStaleLockCleanup : option Z) : prog (list SystemTask * option Z * option Z) :=
  now ← call GetTimestamp;
  match now with
  | Err _ => mret ([], lastScheduler, lastStaleLockCleanup)
  | Ok now =>
      lastStale ← (if elapsed now systemTaskStaleLockInterval lastStaleLockCleanup
                   then _ ← stale_pass; mret (Some now) else mret lastStaleLockCleanup);
      lastSched ← (if elapsed now systemTaskSchedulerInterval lastScheduler
                   then runSystemTaskScheduler keys handlers ;; mret (Some now) else mret lastScheduler);
      claimed ← runSystemTaskClaimPass runnerID handlers;
      mret (claimed, lastSched, lastStale)
  end.

(** One tick of the heartbeat in runWithLeaseHeartbeat, every third of the TTL; an
    error cancels the context of the handler and ends the heartbeat. *)
Definition heartbeatInterval : Z := systemTaskLockTTL / 3.
Definition heartbeat (task : SystemTask) (runnerID : string) : prog (result error unit) :=
  lockUntil ←? systemTaskLockUntil; RenewSystemTaskLock (sy_TaskID task) runnerID lockUntil.

(** ** Handlers *)

Definition failSystemTask (task : SystemTask) (runnerID : string) (err : error) : prog unit :=
  _ ← FinishSystemTask Marshal (sy_TaskID task) runnerID SystemTaskStatusFailed None (error_text err); mret tt.
(** controller/system_task_handlers.go, finishSystemTaskHandler *)
Definition finishSystemTaskHandler (task : SystemTask) (runnerID : string) (status : SystemTaskStatus)
    (result : option J) (runErr : option error) : prog unit :=
  _ ← FinishSystemTask Marshal (sy_TaskID task) runnerID status result
        (match runErr with Some e => error_text e | None => "" end);
  mret tt.

(** The closure of NewSystemTaskProgressReporter with its two variables: the time of
    the last write and the last progress.  An error of the write is ignored. *)
Definition report_percent (processed total : Z) : Z :=
  let progress := if total >? 0 then Z.quot (processed * 100) total else 100 in
  if progress <? 0 then 0 else if progress >? 100 then 100 else progress.
Definition report (task : SystemTask) (runnerID : string) (processed total now : Z) (vars : option Z * Z)
    : prog (option Z * Z) :=
  let progress := report_percent processed total in
  let '(lastWriteAt, lastProgress) := vars in
  if (progress <? 100)
     && ((progress =? lastProgress) || match lastWriteAt with Some t => now - t <? 2 | None => false end)
  then mret vars
  else
    _ ← UpdateSystemTaskState Marshal (sy_TaskID task) runnerID
          (Some (progress_value (mkSystemTaskProgress total processed progress)));
    mret (Some now, progress).

(** *** Cleaning the log *)

(** A loop either stops the handler ([None]), whose outcome is written, or goes on with
    a state; fuel bounds the iterations, and [false] says that it was used up. *)
#[local] Abbreviation step_result A := (bool * option A)%type.
Definition stop {A} : prog (step_result A) := mret (true, None).
Definition out_of_fuel {A} : prog (step_result A) := mret (false, None).
Definition save_state (task : SystemTask) (runnerID : string) (state : LogCleanupState) : prog (result error unit) :=
  UpdateSystemTaskState Marshal (sy_TaskID task) runnerID (Some (state_value state)).

Section cleanup.
Context (clickHouse : bool) (task : SystemTask) (runnerID : string) (payload : LogCleanupPayload).
Definition stop_failed {A} (err : error) : prog (step_result A) := failSystemTask task runnerID err ;; stop.

(** The inner loop: batches until nothing remains or a batch deletes nothing. *)
Fixpoint delete_batches (fuel : nat) (state : LogCleanupState) (progressed : bool)
    : prog (step_result (LogCleanupState * bool)) :=
  if lc_Remaining state >? 0 then
    match fuel with
    | O => out_of_fuel
    | S fuel =>
        rowsAffected ← DeleteOldLogBatch clickHouse (lp_TargetTimestamp payload) (lp_BatchSize payload);
        match rowsAffected with
        | Err err => stop_failed err
        | Ok rowsAffected =>
            if rowsAffected =? 0 then mret (true, Some (state, progressed))
            else
              let state := batch_deleted rowsAffected state in
              saved ← save_state task runnerID state;
              match saved with
              | Err _ => stop
              | Ok _ => delete_batches fuel state true
              end
        end
    end
  else mret (true, Some (state, progressed)).
(** The outer loop: count what is left, then delete. *)
Fixpoint clean (fuel : nat) (state : LogCleanupState) : prog (step_result LogCleanupState) :=
  match fuel with
  | O => out_of_fuel
  | S fuel =>
      remaining ← CountOldLog (lp_TargetTimestamp payload);
      match remaining with
      | Err err => stop_failed err
      | Ok remaining =>
          let state := syncLogCleanupStateFromRemaining remaining state in
          saved ← save_state task runnerID state;
          match saved with
          | Err _ => stop
          | Ok _ =>
              if lc_Remaining state =? 0 then mret (true, Some state)
              else
                r ← delete_batches fuel state false;
                match r with
                | (_, Some (state, true)) => clean fuel state
                | (_, Some (_, false)) => stop_failed (ErrNew "no log rows were deleted")
                | (enough, None) => mret (enough, None)
                end
          end
      end
  end.
End cleanup.

Definition runLogCleanupTask (clickHouse : bool) (fuel : nat) (task : SystemTask) (runnerID : string)
    : prog (step_result unit) :=
  match decodeSystemTaskJSONString decode_payload (mkLogCleanupPayload 0 0) (sy_Payload task) with
  | Err err => stop_failed task runnerID err
  | Ok payload =>
      if lp_TargetTimestamp payload <=? 0 then stop_failed task runnerID (ErrNew "target timestamp is required")
      else
        let payload := mkLogCleanupPayload (lp_TargetTimestamp payload)
          (if lp_BatchSize payload <=? 0 then logCleanupBatchSize else lp_BatchSize payload) in
        match decodeSystemTaskJSONString decode_state zero_state (sy_State task) with
        | Err err => stop_failed task runnerID err
        | Ok state =>
            r ← clean clickHouse task runnerID payload fuel state;
            match r with
            | (enough, None) => mret (enough, None)
            | (_, Some state) =>
                let state := cleanup_over state in
                saved ← save_state task runnerID state;
                match saved with
                | Err _ => stop
                | Ok _ =>
                    _ ← FinishSystemTask Marshal (sy_TaskID task) runnerID SystemTaskStatusSucceeded
                          (Some (result_value (mkLogCleanupResult (lc_Processed state)))) "";
                    mret (true, Some tt)
                end
            end
        end
  end.
End runner.
