(* ===== verification/SystemTaskProofs.v ===== *)
(** * System tasks on several nodes

    The programs of [SystemRunner] run as threads that take turns statement by
    statement.  A predicate transformer over programs carries the invariants through
    every interleaving. *)

From S2P Require Import Prelude GoStd SystemTask SystemRunner.

(** ** Interleaving *)

Section interleaving.
Context {J : Type} (Marshal : J -> result error string).
Context (payload_value : LogCleanupPayload -> J) (state_value : LogCleanupState -> J)
  (result_value : LogCleanupResult -> J) (progress_value : SystemTaskProgress -> J).
Context (decode_payload : string -> result error LogCleanupPayload)
  (decode_state : string -> result error LogCleanupState).

(** What a node starts: a request of an administrator, a pass of a runner, a tick of a
    heartbeat, a report of a handler, its end, or the cleanup of the log. *)
Inductive request :=
| RqEnqueue (key : result error string) (taskType : string) (payload : option J)
| RqLogCleanup (key : result error string) (targetTimestamp : Z)
| RqPass (runnerID : string) (keys : string -> result error string) (handlers : list (Handler J))
    (lastScheduler lastStaleLockCleanup : option Z)
| RqHeartbeat (task : SystemTask) (runnerID : string)
| RqReport (task : SystemTask) (runnerID : string) (processed total now : Z) (vars : option Z * Z)
| RqFinish (task : SystemTask) (runnerID : string) (succeeded : bool) (result : option J) (runErr : option error)
| RqCleanup (clickHouse : bool) (fuel : nat) (task : SystemTask) (runnerID : string).

(** A thread ends with the tasks that it claimed. *)
Definition program (rq : request) : prog (list SystemTask) :=
  match rq with
  | RqEnqueue key taskType payload => _ ← EnqueueSystemTask Marshal key taskType payload; mret []
  | RqLogCleanup key target => _ ← StartLogCleanupTask Marshal payload_value state_value key target; mret []
  | RqPass runnerID keys handlers lastScheduler lastStale =>
      r ← runPass Marshal runnerID keys handlers lastScheduler lastStale; mret r.1.1
  | RqHeartbeat task runnerID => _ ← heartbeat task runnerID; mret []
  | RqReport task runnerID processed total now vars =>
      _ ← report Marshal progress_value task runnerID processed total now vars; mret []
  | RqFinish task runnerID succeeded result runErr =>
      _ ← finishSystemTaskHandler Marshal task runnerID
            (if succeeded : bool then SystemTaskStatusSucceeded else SystemTaskStatusFailed) result runErr; mret []
  | RqCleanup clickHouse fuel task runnerID =>
      _ ← runLogCleanupTask Marshal state_value result_value decode_payload decode_state clickHouse fuel task runnerID;
      mret []
  end.
Definition runner_of (rq : request) : option string :=
  match rq with
  | RqEnqueue _ _ _ | RqLogCleanup _ _ => None
  | RqPass r _ _ _ _ | RqHeartbeat _ r | RqReport _ r _ _ _ _ | RqFinish _ r _ _ _ | RqCleanup _ _ _ r => Some r
  end.

Definition thread : Type := option string * prog (list SystemTask).
Record Cluster := mkCluster { cl_store : Store; cl_threads : list thread }.
(** Time passes, a node starts a thread, or a thread takes its next statement. *)
Inductive event :=
| Tick (seconds : nat)
| Start (rq : request)
| Step (i : nat) (fault : option error).
Definition happen (ev : event) (c : Cluster) : Cluster :=
  let s := cl_store c in
  match ev with
  | Tick d => mkCluster (s <| s_now := s_now s + Z.of_nat d |>) (cl_threads c)
  | Start rq => mkCluster s (cl_threads c ++ [(runner_of rq, program rq)])
  | Step i fault =>
      match cl_threads c !! i with
      | Some (r, Exec e k) =>
          let '(a, s') := exec fault e s in mkCluster s' (<[i := (r, k a)]> (cl_threads c))
      | _ => c
      end
  end.
Definition history (evs : list event) (c : Cluster) : Cluster := fold_left (fun c ev => happen ev c) evs c.
(** Tables at the start: no tasks and no locks. *)
Definition fresh_cluster (now : Z) (logs : list Z) (found_rows : bool) : Cluster :=
  mkCluster (mkStore ∅ ∅ 1 now logs found_rows) [].
(** No thread of the runner takes a step. *)
Fixpoint quiet (runnerID : string) (evs : list event) (c : Cluster) : Prop :=
  match evs with
  | [] => True
  | ev :: evs =>
      match ev with
      | Step i _ => (cl_threads c !! i) ≫= fst <> Some runnerID
      | _ => True
      end /\ quiet runnerID evs (happen ev c)
  end.
End interleaving.
Arguments event : clear implicits.

(** ** What holds of the tables *)

Definition row_ok (t : SystemTask) : Prop := sy_ActiveKey t = if Active t then Some (sy_Type t) else None.
Record store_ok (s : Store) : Prop := {
  ok_ids : forall id t, s_tasks s !! id = Some t -> sy_ID t = id /\ id < s_next s;
  ok_rows : forall id t, s_tasks s !! id = Some t -> row_ok t;
  ok_task_ids : forall id id' t t', s_tasks s !! id = Some t -> s_tasks s !! id' = Some t' ->
    sy_TaskID t = sy_TaskID t' -> id = id';
  ok_active : forall id id' t t', s_tasks s !! id = Some t -> s_tasks s !! id' = Some t' ->
    is_Some (sy_ActiveKey t) -> sy_ActiveKey t = sy_ActiveKey t' -> id = id';
  ok_locks : forall ty l, s_locks s !! ty = Some l -> lk_Type l = ty;
}.

(** How a row may change: its identity stays, a pending row starts to run or fails,
    a running one stays with its runner until it ends, an ended one stays as it is. *)
Definition advances (t t' : SystemTask) : Prop :=
  sy_ID t' = sy_ID t /\ sy_TaskID t' = sy_TaskID t /\ sy_Type t' = sy_Type t /\ sy_Payload t' = sy_Payload t /\
  match sy_Status t with
  | SystemTaskStatusPending => t' = t \/ sy_Status t' <> SystemTaskStatusPending
  | SystemTaskStatusRunning => sy_Status t' <> SystemTaskStatusPending /\ sy_LockedBy t' = sy_LockedBy t
  | _ => t' = t
  end.
Definition tasks_advance (s s' : Store) : Prop :=
  forall id t, s_tasks s !! id = Some t -> exists t', s_tasks s' !! id = Some t' /\ advances t t'.
(** The leases that are valid and not the runner's own stay. *)
Definition leases_kept (runner : option string) (s s' : Store) : Prop :=
  forall ty l, s_locks s !! ty = Some l -> s_now s <= lk_LockedUntil l -> runner <> Some (lk_LockedBy l) ->
    s_locks s' !! ty = Some l.

Lemma advances_refl t : advances t t.
Proof. unfold advances. destruct (sy_Status t) eqn:E; rewrite ?E; naive_solver. Qed.
Lemma advances_trans t1 t2 t3 : advances t1 t2 -> advances t2 t3 -> advances t1 t3.
Proof.
  unfold advances. intros (Ha&Hb&Hc&Hd&H1) (Ha'&Hb'&Hc'&Hd'&H2). repeat split; try congruence.
  destruct (sy_Status t1) eqn:E1.
  - destruct H1 as [->|H1]; [by rewrite E1 in H2|]. right.
    destruct (sy_Status t2) eqn:E2; [done|by destruct H2|congruence..].
  - destruct H1 as [H1 H1']. destruct (sy_Status t2) eqn:E2; [done| |subst t3; split; congruence..].
    destruct H2 as [? ->]. by split.
  - subst t2. by rewrite E1 in H2.
  - subst t2. by rewrite E1 in H2.
Qed.
Lemma tasks_advance_refl s : tasks_advance s s.
Proof. intros id t H. exists t. split; [done|apply advances_refl]. Qed.
Lemma tasks_advance_trans s1 s2 s3 : tasks_advance s1 s2 -> tasks_advance s2 s3 -> tasks_advance s1 s3.
Proof.
  intros H1 H2 id t Ht. destruct (H1 id t Ht) as (t' & Ht' & Ha). destruct (H2 id t' Ht') as (t'' & Ht'' & Ha').
  exists t''. split; [done|by eapply advances_trans].
Qed.

(** ** A predicate transformer for programs

    [x] is a ghost value of the thread: every statement runs in some store that
    satisfies [pre x], must satisfy [post], and changes the ghost value by [next]. *)

Section wp.
Context {X : Type} (pre : X -> Store -> Prop) (post : X -> Store -> Store -> Prop) (next : X -> Store -> Store -> X).

Fixpoint wp {A} (x : X) (p : prog A) (Q : X -> A -> Prop) : Prop :=
  match p with
  | Done a => Q x a
  | Exec e k => forall s fault, pre x s ->
      let '(a, s') := exec fault e s in post x s s' /\ wp (next x s s') (k a) Q
  end.

Lemma wp_mono {A} x (p : prog A) (Q R : X -> A -> Prop) :
  (forall x a, Q x a -> R x a) -> wp x p Q -> wp x p R.
Proof.
  intros HQR. revert x. induction p as [a|B e k IH]; intros x; simpl; [apply HQR|].
  intros H s f Hs. specialize (H s f Hs). destruct (exec f e s) as [a s']. destruct H as [? H].
  split; [done|]. by apply IH.
Qed.
Lemma wp_bind {A B} x (p : prog A) (k : A -> prog B) Q :
  wp x p (fun x a => wp x (k a) Q) -> wp x (p ≫= k) Q.
Proof.
  revert x. induction p as [a|C e c IH]; intros x; simpl; [done|].
  intros H s f Hs. specialize (H s f Hs). destruct (exec f e s) as [a s']. destruct H as [? H].
  split; [done|]. by apply IH.
Qed.
(** A program of which only the statements matter. *)
Lemma wp_seq {A B} x (p : prog A) (k : A -> prog B) Q :
  wp x p (fun _ _ => True) -> (forall x a, wp x (k a) Q) -> wp x (p ≫= k) Q.
Proof. intros Hp Hk. apply wp_bind. eapply wp_mono; [|exact Hp]. auto. Qed.
Lemma wp_seq_ok {A B} x (p : prog (result error A)) (k : A -> prog (result error B)) Q :
  wp x p (fun _ _ => True) -> (forall x a, wp x (k a) Q) -> (forall x e, Q x (Err e)) -> wp x (p ≫= on_ok k) Q.
Proof. intros Hp Hk He. apply wp_seq; [done|]. intros x' [a|e]; [apply Hk|apply He]. Qed.
Lemma wp_exec {A B} x (e : stmt B) (k : result error B -> prog A) Q :
  (forall s fault, pre x s -> post x s (exec fault e s).2 /\ wp (next x s (exec fault e s).2) (k (exec fault e s).1) Q) ->
  wp x (Exec e k) Q.
Proof. intros H s f Hs. specialize (H s f Hs). by destruct (exec f e s). Qed.
Lemma wp_call {B} x (e : stmt B) Q :
  (forall s fault, pre x s -> post x s (exec fault e s).2 /\ Q (next x s (exec fault e s).2) (exec fault e s).1) ->
  wp x (call e) Q.
Proof. intros H. apply wp_exec. exact H. Qed.
End wp.

(** ** Statements keep the tables well-formed and the leases of others *)

Lemma elem_of_rows s t : t ∈ rows s <-> exists id, s_tasks s !! id = Some t.
Proof.
  unfold rows. rewrite merge_sort_Permutation. rewrite list_elem_of_fmap. split.
  - intros ([id t'] & -> & H%elem_of_map_to_list). by exists id.
  - intros [id H]. exists (id, t). split; [done|]. by apply elem_of_map_to_list.
Qed.
Lemma update_rows_lookup {K V} `{Countable K} (p : V -> bool) (f : V -> V) (m : gmap K V) k v' :
  update_rows p f m !! k = Some v' <-> exists v, m !! k = Some v /\ v' = if p v then f v else v.
Proof.
  unfold update_rows. rewrite lookup_fmap. destruct (m !! k) as [v|]; simpl; naive_solver.
Qed.
Lemma update_rows_lookup_some {K V} `{Countable K} (p : V -> bool) (f : V -> V) (m : gmap K V) k v :
  m !! k = Some v -> update_rows p f m !! k = Some (if p v then f v else v).
Proof. intros Hk. apply update_rows_lookup. by exists v. Qed.

Section leases.
Context (r : option string).

Definition lease_pre (T : Z) (s : Store) : Prop := T <= s_now s /\ store_ok s.
Definition lease_post (T : Z) (s s' : Store) : Prop :=
  s_now s' = s_now s /\ store_ok s' /\ tasks_advance s s' /\ leases_kept r s s'.
Definition lease_next (T : Z) (s s' : Store) : Z := s_now s.
(** The ghost value is a time that has passed. *)
Definition safe {A} (T : Z) (p : prog A) (Q : Z -> A -> Prop) : Prop := wp lease_pre lease_post lease_next T p Q.
Definition guards {B} (T : Z) (e : stmt B) : Prop := forall s, lease_pre T s -> lease_post T s (exec_stmt e s).2.

Lemma advance_same s s' : s_tasks s' = s_tasks s -> tasks_advance s s'.
Proof. intros E id t Ht. exists t. rewrite E. split; [done|apply advances_refl]. Qed.
Lemma leases_same s s' : s_locks s' = s_locks s -> leases_kept r s s'.
Proof. intros E ty l Hl _ _. by rewrite E. Qed.
Lemma lease_post_refl T s : store_ok s -> lease_post T s s.
Proof. intros H. split_and!; [done|done|apply tasks_advance_refl|by intros ty l]. Qed.
Lemma exec_cases {B} fault (e : stmt B) s : exec fault e s = exec_stmt e s \/ (exec fault e s).2 = s.
Proof. destruct e, fault; auto. Qed.
Lemma guards_exec {B} T (e : stmt B) s fault : guards T e -> lease_pre T s -> lease_post T s (exec fault e s).2.
Proof.
  intros H Hs. destruct (exec_cases fault e s) as [->| ->]; [by apply H|]. apply lease_post_refl. by destruct Hs.
Qed.
Lemma safe_later {A} T (p : prog A) Q : safe T p Q -> safe T p (fun T' a => T <= T' /\ Q T' a).
Proof.
  assert (Hg : forall T0, T0 <= T -> safe T p Q -> safe T p (fun T' a => T0 <= T' /\ Q T' a)).
  - unfold safe. revert T. induction p as [a|B e k IH]; intros T T0 HT; simpl; [by split|].
    intros H s f Hs. specialize (H s f Hs). destruct (exec f e s) as [a s']. destruct H as [? H].
    split; [done|]. apply IH; [|done]. destruct Hs. unfold lease_next. lia.
  - by apply Hg.
Qed.
Lemma safe_seq {A B} T (p : prog A) (k : A -> prog B) Q :
  safe T p (fun _ _ => True) -> (forall T' a, T <= T' -> safe T' (k a) Q) -> safe T (p ≫= k) Q.
Proof.
  intros Hp Hk. apply wp_bind. eapply wp_mono; [|apply safe_later, Hp]. intros T' a [HT _]. by apply Hk.
Qed.
Lemma safe_ok {A B} T (p : prog (result error A)) (k : A -> prog (result error B)) :
  safe T p (fun _ _ => True) -> (forall T' a, T <= T' -> safe T' (k a) (fun _ _ => True)) ->
  safe T (p ≫= on_ok k) (fun _ _ => True).
Proof. intros Hp Hk. apply safe_seq; [done|]. intros T' [a|e] HT; [by apply Hk|done]. Qed.
Lemma safe_call {B} T (e : stmt B) : guards T e -> safe T (call e) (fun _ _ => True).
Proof. intros H. apply wp_call. intros s f Hs. split; [by apply guards_exec|done]. Qed.
(** The clock that is read has been reached. *)
Lemma safe_timestamp {A} T (k : result error Z -> prog A) Q :
  (forall T' now, now <= T' -> safe T' (k (Ok now)) Q) -> safe T (call GetTimestamp ≫= k) Q.
Proof.
  intros Hk. apply wp_bind, wp_call. intros s f Hs. destruct Hs as [HT Hs].
  assert (E : exec f GetTimestamp s = (Ok (s_now s), s)) by (by destruct f). rewrite E.
  split; [by apply lease_post_refl|]. by apply Hk.
Qed.

Lemma guards_read {B} T (e : stmt B) : (forall s, (exec_stmt e s).2 = s) -> guards T e.
Proof. intros H s [_ Hs]. rewrite H. by apply lease_post_refl. Qed.
Lemma guards_logs T before limit : guards T (DeleteLogs before limit).
Proof.
  intros s [_ [? ? ? ? ?]]. simpl. split_and!; [done| |by apply advance_same|by apply leases_same]. by split.
Qed.

Lemma clashes_none t s : existsb (clashes t) (rows s) = false ->
  forall id t', s_tasks s !! id = Some t' -> sy_TaskID t <> sy_TaskID t' /\
    (is_Some (sy_ActiveKey t) -> sy_ActiveKey t <> sy_ActiveKey t').
Proof.
  intros H id t' Ht'. assert (Hc : clashes t t' = false).
  { destruct (clashes t t') eqn:E; [|done]. rewrite <- H. symmetry. apply existsb_exists. exists t'.
    split; [|done]. apply list_elem_of_In, elem_of_rows. by exists id. }
  unfold clashes in Hc. apply orb_false_iff in Hc as [H1 H2]. bools. split; [done|].
  intros [k Hk] Heq. rewrite <- Heq, Hk in H2. bools. done.
Qed.
Lemma guards_insert_task T t : row_ok t -> sy_Status t = SystemTaskStatusPending -> guards T (InsertTask t).
Proof.
  intros Hrow Hst s [_ Hs]. simpl. unfold insert_task. cbv zeta.
  set (t' := before_create (s_now s) t <| sy_ID := s_next s |>).
  destruct (existsb (clashes t') (rows s)) eqn:Hc; simpl; [by apply lease_post_refl|].
  pose proof (clashes_none _ _ Hc) as Hnew. destruct Hs as [Hid Hrows Htid Hact Hlk].
  assert (Hfree : s_tasks s !! s_next s = None).
  { destruct (s_tasks s !! s_next s) as [u|] eqn:E; [|done]. destruct (Hid _ _ E). lia. }
  assert (Hr : row_ok t') by exact Hrow.
  split_and!; [done| | |by apply leases_same].
  - split; simpl; [intros id u|intros id u|intros id id' u u'|intros id id' u u'|done].
    + rewrite lookup_insert_Some. intros [[<- <-]|[? Hu%Hid]]; [split; [done|lia]|]. destruct Hu. split; [done|lia].
    + rewrite lookup_insert_Some. intros [[<- <-]|[? Hu]]; [done|]. by eapply Hrows.
    + rewrite !lookup_insert_Some. intros [[<- <-]|[? Hu]] [[<- <-]|[? Hu']] Heq; [done| | |by eapply Htid].
      * by destruct (Hnew _ _ Hu').
      * by destruct (Hnew _ _ Hu).
    + rewrite !lookup_insert_Some. intros [[<- <-]|[? Hu]] [[<- <-]|[? Hu']] Hk Heq; [done| | |by eapply Hact].
      * by destruct (Hnew _ _ Hu') as [_ []].
      * destruct (Hnew _ _ Hu) as [_ []]; [by rewrite <- Heq|done].
  - intros id u Hu. exists u. split; [|apply advances_refl]. simpl.
    rewrite lookup_insert_ne; [done|]. intros <-. simpl in Hu. congruence.
Qed.
(** A change of rows: they advance, keep their keys right, and get no new active key. *)
Lemma guards_update_tasks T p f :
  (forall s t, row_ok t -> p s t = true ->
     advances t (f t) /\ row_ok (f t) /\ (sy_ActiveKey (f t) = sy_ActiveKey t \/ sy_ActiveKey (f t) = None)) ->
  guards T (UpdateTasks p f).
Proof.
  intros Hf s [_ Hs]. destruct Hs as [Hid Hrows Htid Hact Hlk]. simpl.
  assert (Hg : forall id t, s_tasks s !! id = Some t ->
    let t' := if p s t then f t else t in
    advances t t' /\ row_ok t' /\ (sy_ActiveKey t' = sy_ActiveKey t \/ sy_ActiveKey t' = None)).
  { intros id t Ht. simpl. destruct (p s t) eqn:E; [by apply (Hf s); [eapply Hrows|]|].
    split_and!; [apply advances_refl|by eapply Hrows|by left]. }
  split_and!; [done| | |by apply leases_same].
  - split; simpl.
    + intros id t' (t & Ht & ->)%update_rows_lookup. destruct (Hg _ _ Ht) as ((-> & _) & _). by apply Hid.
    + intros id t' (t & Ht & ->)%update_rows_lookup. by destruct (Hg _ _ Ht) as (_ & ? & _).
    + intros id id' u u' (t & Ht & ->)%update_rows_lookup (t' & Ht' & ->)%update_rows_lookup Heq.
      destruct (Hg _ _ Ht) as ((_ & E & _) & _), (Hg _ _ Ht') as ((_ & E' & _) & _). rewrite E, E' in Heq. by eapply Htid.
    + intros id id' u u' (t & Ht & ->)%update_rows_lookup (t' & Ht' & ->)%update_rows_lookup Hk Heq.
      destruct (Hg _ _ Ht) as (_ & _ & [E|E]), (Hg _ _ Ht') as (_ & _ & [E'|E']);
        rewrite ?E, ?E' in Hk; rewrite ?E, ?E' in Heq; try (by destruct Hk).
      * by eapply Hact.
      * rewrite Heq in Hk. by destruct Hk.
    + done.
  - intros id t Ht. eexists. split; [by apply update_rows_lookup_some|]. by apply (Hg id t Ht).
Qed.
Lemma guards_insert_lock T l : guards T (InsertLock l).
Proof.
  intros s [_ Hs]. simpl. unfold insert_lock. destruct (s_locks s !! lk_Type l) as [l'|] eqn:E; simpl;
    [by apply lease_post_refl|].
  destruct Hs as [Hid Hrows Htid Hact Hlk]. split_and!; [done| |by apply advance_same|].
  - split; simpl; try done. intros ty u. rewrite lookup_insert_Some. intros [[<- <-]|[? Hu]]; [done|by apply Hlk].
  - intros ty u Hu _ _. simpl. rewrite lookup_insert_ne; [done|]. intros <-. congruence.
Qed.
(** A lock that another runner may still hold is not touched. *)
Lemma guards_update_locks T p f :
  (forall l, lk_Type (f l) = lk_Type l) ->
  (forall l, p l = true -> r = Some (lk_LockedBy l) \/ lk_LockedUntil l < T) -> guards T (UpdateLocks p f).
Proof.
  intros Hf Hp s [HT Hs]. destruct Hs as [Hid Hrows Htid Hact Hlk]. simpl.
  split_and!; [done| |by apply advance_same|].
  - split; simpl; try done. intros ty u (l & Hl & ->)%update_rows_lookup. specialize (Hlk _ _ Hl).
    destruct (p l); [by rewrite Hf|done].
  - intros ty l Hl Hv Hr. simpl. rewrite (update_rows_lookup_some _ _ _ _ _ Hl).
    destruct (p l) eqn:E; [|done]. destruct (Hp _ E); [done|lia].
Qed.
Lemma guards_delete_locks T p :
  (forall l, p l = true -> r = Some (lk_LockedBy l) \/ lk_LockedUntil l < T) -> guards T (DeleteLocks p).
Proof.
  intros Hp s [HT Hs]. destruct Hs as [Hid Hrows Htid Hact Hlk]. simpl.
  split_and!; [done| |by apply advance_same|].
  - split; simpl; try done. intros ty u [Hu _]%map_lookup_filter_Some. by apply Hlk.
  - intros ty l Hl Hv Hr. simpl. apply map_lookup_filter_Some. split; [done|]. simpl.
    destruct (p l) eqn:E; [|done]. destruct (Hp _ E); [done|lia].
Qed.
End leases.

(** ** Every program is safe *)

Create HintDb system_tasks.
Ltac safe_read := apply safe_call, guards_read; done.
#[export] Hint Extern 1 (safe _ _ (call (SelectTasks _)) _) => safe_read : system_tasks.
#[export] Hint Extern 1 (safe _ _ (call (SelectLocks _)) _) => safe_read : system_tasks.
#[export] Hint Extern 1 (safe _ _ (call (CountLogs _)) _) => safe_read : system_tasks.
#[export] Hint Extern 1 (safe _ _ (call (DeleteLogs _ _)) _) => apply safe_call, guards_logs : system_tasks.
#[export] Hint Extern 1 (safe _ _ (call (InsertLock _)) _) => apply safe_call, guards_insert_lock : system_tasks.
#[export] Hint Extern 1 (safe _ _ (mret _) _) => exact I : system_tasks.
#[export] Hint Extern 1 (safe _ _ (Done _) _) => exact I : system_tasks.
#[export] Hint Extern 2 (safe _ _ (_ ≫= on_ok _) _) => apply safe_ok; [|intros ???] : system_tasks.
#[export] Hint Extern 3 (safe _ _ (_ ≫= _) _) => apply safe_seq; [|intros ???] : system_tasks.
#[export] Hint Extern 4 (safe _ _ (match ?x with _ => _ end) _) => destruct x : system_tasks.
Ltac safe_auto := eauto 30 with system_tasks nocore.

Abbreviation safely r T p := (safe r T p (fun _ _ => True)).

Lemma safe_first_task r T q : safely r T (first_task q).
Proof. unfold first_task. safe_auto. Qed.
#[export] Hint Resolve safe_first_task : system_tasks.
Lemma safe_GetActiveSystemTask r T ty : safely r T (GetActiveSystemTask ty).
Proof. apply safe_first_task. Qed.
Lemma safe_FindEarliestPendingSystemTasks r T tys : safely r T (FindEarliestPendingSystemTasks tys).
Proof. unfold FindEarliestPendingSystemTasks. safe_auto. Qed.
Lemma safe_GetLatestSystemTasks r T tys : safely r T (GetLatestSystemTasks tys).
Proof. unfold GetLatestSystemTasks. safe_auto. Qed.
#[export] Hint Resolve safe_GetActiveSystemTask safe_FindEarliestPendingSystemTasks safe_GetLatestSystemTasks : system_tasks.

Lemma safe_CreateSystemTask {J} (Marshal : J -> result error string) r T key ty payload state :
  safely r T (CreateSystemTask Marshal key ty payload state).
Proof.
  unfold CreateSystemTask. apply safe_ok; [done|intros T1 id _]. apply safe_ok; [done|intros T2 p _].
  apply safe_ok; [done|intros T3 st _]. by apply safe_call, guards_insert_task.
Qed.
#[export] Hint Resolve safe_CreateSystemTask : system_tasks.

Lemma safe_acquireSystemTaskLock r T ty id by_ now until : now <= T ->
  safely r T (acquireSystemTaskLock ty id by_ now until).
Proof.
  intros Hn. unfold acquireSystemTaskLock. apply safe_seq; [safe_auto|]. intros T1 [[]|e] H1; [done|].
  apply safe_ok; [safe_auto|]. intros T2 [|l ls] H2; [done|]. destruct (_ >=? _); [done|].
  apply safe_ok; [|done]. apply safe_call, guards_update_locks; [done|].
  intros l' Hl. bools. right. lia.
Qed.
Lemma safe_MarkSystemTaskLeaseExpired r T id : safely r T (MarkSystemTaskLeaseExpired id).
Proof.
  unfold MarkSystemTaskLeaseExpired. apply safe_timestamp. intros T1 now _. cbn [on_ok].
  apply safe_ok; [|safe_auto]. apply safe_call, guards_update_tasks. intros s t Ht Hp. bools.
  unfold has_status in *. bools. unfold advances, row_ok, Active. simpl. rewrite H0.
  split_and!; try done. by right.
Qed.
Lemma safe_ReleaseSystemTaskLock T id by_ : safely (Some by_) T (ReleaseSystemTaskLock id by_).
Proof. apply safe_call, guards_delete_locks. intros l Hl. bools. left. congruence. Qed.
#[export] Hint Resolve safe_MarkSystemTaskLeaseExpired safe_ReleaseSystemTaskLock : system_tasks.

Lemma guards_claim r T id ty runner now :
  guards r T (UpdateTasks (fun _ => claimable id ty)
    (fun t => t <| sy_Status := SystemTaskStatusRunning |> <| sy_LockedBy := runner |> <| sy_UpdatedAt := now |>)).
Proof.
  apply guards_update_tasks. intros s t Ht Hp. unfold claimable, has_status in Hp. bools.
  unfold row_ok, Active in *. unfold advances. simpl. rewrite H0 in *. simpl in *.
  split_and!; try done; auto.
Qed.
Lemma safe_ClaimSystemTask T id ty runner until : safely (Some runner) T (ClaimSystemTask id ty runner until).
Proof.
  unfold ClaimSystemTask. apply safe_timestamp. intros T1 now Hn. cbn [on_ok].
  apply safe_ok; [safe_auto|]. intros T2 [task|] H2; [|done].
  apply safe_ok; [apply safe_acquireSystemTaskLock; lia|]. intros T3 [[] expired] H3; cbn [negb]; [|done].
  apply safe_seq; [safe_auto|]. intros T4 [[]|e] H4; [|safe_auto].
  apply safe_seq; [apply safe_call, guards_claim|]. intros T5 [n|e] H5; [|safe_auto].
  destruct (n =? 0); [safe_auto|]. apply safe_ok; [safe_auto|]. intros T6 [t|] _; done.
Qed.
Lemma safe_UpdateSystemTaskState {J} (Marshal : J -> result error string) r T id by_ state :
  safely r T (UpdateSystemTaskState Marshal id by_ state).
Proof.
  unfold UpdateSystemTaskState. apply safe_ok; [done|intros T1 text _]. apply safe_timestamp.
  intros T2 now _. cbn [on_ok]. apply safe_ok; [|done]. apply safe_call, guards_update_tasks.
  intros s t Ht Hp. unfold running_for, has_status in Hp. bools. unfold advances, row_ok, Active in *. simpl.
  rewrite H2 in *. split_and!; auto.
Qed.
Lemma safe_FinishSystemTask {J} (Marshal : J -> result error string) T id by_ status result msg :
  status = SystemTaskStatusSucceeded \/ status = SystemTaskStatusFailed ->
  safely (Some by_) T (FinishSystemTask Marshal id by_ status result msg).
Proof.
  intros Hst. unfold FinishSystemTask. apply safe_ok; [done|intros T1 text _]. apply safe_timestamp.
  intros T2 now _. cbn [on_ok]. apply safe_ok; [|safe_auto]. apply safe_call, guards_update_tasks.
  intros s t Ht Hp. unfold running_for, has_status in Hp. bools. unfold advances, row_ok, Active in *. simpl.
  rewrite H2 in *. destruct Hst as [->| ->]; split_and!; auto.
Qed.
Lemma safe_RenewSystemTaskLock T id by_ until : safely (Some by_) T (RenewSystemTaskLock id by_ until).
Proof.
  unfold RenewSystemTaskLock. apply safe_timestamp. intros T1 now _. cbn [on_ok]. apply safe_ok; [|done].
  apply safe_call, guards_update_locks; [done|]. intros l Hl. bools. left. congruence.
Qed.
Lemma safe_expire_locks r T now locks : now <= T -> safely r T (expire_locks now locks).
Proof.
  revert T. induction locks as [|lock locks IH]; intros T Hn; cbn [expire_locks]; [done|].
  apply safe_ok; [safe_auto|]. intros T1 [] H1. apply safe_ok.
  - apply safe_call, guards_delete_locks. intros l Hl. bools. right. lia.
  - intros T2 [] H2. apply IH. lia.
Qed.
#[export] Hint Resolve safe_ClaimSystemTask safe_UpdateSystemTaskState safe_FinishSystemTask safe_RenewSystemTaskLock
  : system_tasks.

(** The passes and handlers. *)
Section programs.
Context {J : Type} (Marshal : J -> result error string).
Context (payload_value : LogCleanupPayload -> J) (state_value : LogCleanupState -> J)
  (result_value : LogCleanupResult -> J) (progress_value : SystemTaskProgress -> J).
Context (decode_payload : string -> result error LogCleanupPayload)
  (decode_state : string -> result error LogCleanupState).

Lemma safe_create_unless_active r T key ty payload state :
  safely r T (create_unless_active Marshal key ty payload state).
Proof.
  unfold create_unless_active. apply safe_ok; [safe_auto|]. intros T1 [t|] _; [done|].
  apply safe_seq; [safe_auto|]. intros T2 [t|e] _; [done|]. apply safe_seq; [safe_auto|]. done.
Qed.
Lemma safe_schedule_due r T now latest scheduled : safely r T (schedule_due Marshal now latest scheduled).
Proof.
  revert T. induction scheduled as [|[[[ty interval] payload] key] scheduled IH]; intros T; cbn [schedule_due]; [done|].
  apply safe_seq; [|intros T1 _ _; apply IH]. destruct (due _ _ _); [|done].
  apply safe_seq; [safe_auto|]. intros T1 [t|e] _; [done|]. apply safe_seq; [safe_auto|done].
Qed.
Lemma safe_systemTaskLockUntil r T : safely r T systemTaskLockUntil.
Proof. unfold systemTaskLockUntil. by apply safe_timestamp. Qed.
Lemma safe_claim_types T pending runner tys : safely (Some runner) T (claim_types pending runner tys).
Proof.
  revert T. induction tys as [|ty tys IH]; intros T; cbn [claim_types]; [done|].
  destruct (pending !! ty) as [task|]; [|apply IH].
  apply safe_seq; [apply safe_ok; [apply safe_systemTaskLockUntil|safe_auto]|]. intros T1 claimed _.
  by apply safe_seq.
Qed.
Lemma safe_stale_pass r T : safely r T stale_pass.
Proof.
  unfold stale_pass. apply safe_timestamp. intros T1 now Hn. cbn [on_ok]. unfold ExpireStaleSystemTaskLocks.
  apply safe_ok; [safe_auto|]. intros T2 locks H2. apply safe_expire_locks. lia.
Qed.
Lemma safe_runPass T runner keys handlers a b : safely (Some runner) T (runPass Marshal runner keys handlers a b).
Proof.
  unfold runPass. apply safe_timestamp. intros T1 now Hn. cbn beta iota. apply safe_seq.
  { destruct (elapsed _ _ _); [|done]. by apply safe_seq; [apply safe_stale_pass|]. }
  intros T2 lastStale _. apply safe_seq.
  { destruct (elapsed _ _ _); [|done]. apply safe_seq; [|done]. unfold runSystemTaskScheduler.
    apply safe_timestamp. intros T3 now' _. cbn beta iota. apply safe_seq; [safe_auto|].
    intros T4 [latest|e] _; [apply safe_schedule_due|done]. }
  intros T3 lastSched _. apply safe_seq; [|done]. unfold runSystemTaskClaimPass. apply safe_seq; [safe_auto|].
  intros T4 [pending|e] _; [apply safe_claim_types|done].
Qed.
Lemma safe_heartbeat T task runner : safely (Some runner) T (heartbeat task runner).
Proof. unfold heartbeat. apply safe_ok; [apply safe_systemTaskLockUntil|safe_auto]. Qed.
Lemma safe_report r T task runner processed total now vars :
  safely r T (report Marshal progress_value task runner processed total now vars).
Proof. unfold report. destruct vars. destruct (_ && _); [done|]. apply safe_seq; [safe_auto|done]. Qed.
Lemma safe_failSystemTask T task runner err : safely (Some runner) T (failSystemTask Marshal task runner err).
Proof. unfold failSystemTask. apply safe_seq; [|done]. apply safe_FinishSystemTask. by right. Qed.
Lemma safe_stop_failed {A} T task runner err : safely (Some runner) T (stop_failed (A := A) Marshal task runner err).
Proof. unfold stop_failed. apply safe_seq; [apply safe_failSystemTask|done]. Qed.
Lemma safe_DeleteOldLogBatch r T ch before limit : safely r T (DeleteOldLogBatch ch before limit).
Proof.
  unfold DeleteOldLogBatch. destruct ch; [|safe_auto]. apply safe_ok; [unfold CountOldLog; safe_auto|].
  intros T1 total _. destruct (total =? 0); safe_auto.
Qed.
Lemma safe_delete_batches T ch task runner payload fuel state progressed :
  safely (Some runner) T (delete_batches Marshal state_value ch task runner payload fuel state progressed).
Proof.
  revert T state progressed. induction fuel as [|fuel IH]; intros T state progressed; cbn [delete_batches];
    destruct (_ >? _); try done.
  apply safe_seq; [apply safe_DeleteOldLogBatch|]. intros T1 [n|e] _; [|apply safe_stop_failed].
  destruct (n =? 0); [done|]. apply safe_seq; [unfold save_state; safe_auto|]. intros T2 [[]|e] _; [apply IH|done].
Qed.
Lemma safe_clean T ch task runner payload fuel state :
  safely (Some runner) T (clean Marshal state_value ch task runner payload fuel state).
Proof.
  revert T state. induction fuel as [|fuel IH]; intros T state; cbn [clean]; [done|].
  apply safe_seq; [unfold CountOldLog; safe_auto|]. intros T1 [n|e] _; [|apply safe_stop_failed].
  apply safe_seq; [unfold save_state; safe_auto|]. intros T2 [[]|e] _; [|done].
  destruct (_ =? 0); [done|]. apply safe_seq; [apply safe_delete_batches|].
  intros T3 [enough [[state' []]|]] _; [apply IH|apply safe_stop_failed|done].
Qed.
Lemma safe_runLogCleanupTask T ch fuel task runner :
  safely (Some runner) T (runLogCleanupTask Marshal state_value result_value decode_payload decode_state ch fuel task runner).
Proof.
  unfold runLogCleanupTask. destruct (decodeSystemTaskJSONString _ _ _) as [payload|e]; [|apply safe_stop_failed].
  destruct (_ <=? 0); [apply safe_stop_failed|].
  destruct (decodeSystemTaskJSONString _ _ _) as [state|e]; [|apply safe_stop_failed].
  apply safe_seq; [apply safe_clean|]. intros T1 [enough [state'|]] _; [|done].
  apply safe_seq; [unfold save_state; safe_auto|]. intros T2 [[]|e] _; [|done].
  apply safe_seq; [|done]. apply safe_FinishSystemTask. by left.
Qed.

Lemma safe_program T rq : safely (runner_of rq) T
  (program Marshal payload_value state_value result_value progress_value decode_payload decode_state rq).
Proof.
  destruct rq as [key ty payload|key target|runner keys hs a b|task runner|task runner p t now vars
    |task runner ok res err|ch fuel task runner]; simpl runner_of; unfold program; apply safe_seq; try done.
  - apply safe_create_unless_active.
  - unfold StartLogCleanupTask. destruct (_ <=? 0); [done|]. apply safe_ok; [apply safe_create_unless_active|done].
  - apply safe_runPass.
  - apply safe_heartbeat.
  - apply safe_report.
  - unfold finishSystemTaskHandler. apply safe_seq; [|done]. apply safe_FinishSystemTask. destruct ok; auto.
  - apply safe_runLogCleanupTask.
Qed.
End programs.

(** ** Every history *)

Section history.
Context {J : Type} (Marshal : J -> result error string).
Context (payload_value : LogCleanupPayload -> J) (state_value : LogCleanupState -> J)
  (result_value : LogCleanupResult -> J) (progress_value : SystemTaskProgress -> J).
Context (decode_payload : string -> result error LogCleanupPayload)
  (decode_state : string -> result error LogCleanupState).
#[local] Abbreviation happen := (happen Marshal payload_value state_value result_value progress_value decode_payload decode_state).
#[local] Abbreviation history := (history Marshal payload_value state_value result_value progress_value decode_payload decode_state).
#[local] Abbreviation quiet := (quiet Marshal payload_value state_value result_value progress_value decode_payload decode_state).

Definition threads_safe (c : Cluster) : Prop := forall i r p, cl_threads c !! i = Some (r, p) ->
  exists T, T <= s_now (cl_store c) /\ safely r T p.
Definition sound (c : Cluster) : Prop := store_ok (cl_store c) /\ threads_safe c.

Lemma fresh_sound now logs fr : sound (fresh_cluster now logs fr).
Proof. split; [split; simpl; intros *; by rewrite lookup_empty|]. by intros [|i] r p. Qed.
(** What a step of thread [i] does to the tables. *)
Lemma step_post c i fault : sound c -> exists r,
  ((cl_threads c !! i) ≫= fst = r) /\ lease_post r 0 (cl_store c) (cl_store (happen (Step i fault) c)).
Proof.
  intros [Hs Ht]. unfold happen. destruct (cl_threads c !! i) as [[r [a|B e k]]|] eqn:Hi;
    [by exists r; split; [|apply lease_post_refl]| |by exists None; split; [|apply lease_post_refl]].
  exists r. split; [done|]. destruct (Ht _ _ _ Hi) as (T & HT & H). specialize (H (cl_store c) fault (conj HT Hs)).
  destruct (exec fault e (cl_store c)) as [a s']. by destruct H.
Qed.
Lemma tick_ok s d : store_ok s -> store_ok (s <| s_now := s_now s + Z.of_nat d |>).
Proof. by intros [? ? ? ? ?]. Qed.
Lemma happen_sound ev c : sound c -> sound (happen ev c).
Proof.
  intros [Hs Ht]. destruct ev as [d|rq|i fault].
  - split; [by apply tick_ok|]. intros i r p Hi. destruct (Ht i r p Hi) as (T & HT & H). exists T. split; [|done]. simpl. lia.
  - split; [done|]. intros i r p Hi. simpl in Hi.
    apply lookup_snoc_Some in Hi as [[_ Hi]|[_ E]]; [by eapply Ht|]. injection E as <- <-.
    exists (s_now (cl_store c)). split; [done|]. apply safe_program.
  - destruct (step_post c i fault (conj Hs Ht)) as (r0 & _ & Hn & Hs' & _). split; [done|].
    intros j r p Hj. rewrite Hn. revert Hj. simpl. destruct (cl_threads c !! i) as [[ri [a|B e k]]|] eqn:Hi; [by apply Ht| |by apply Ht].
    destruct (exec fault e (cl_store c)) as [a s'] eqn:E. simpl. intros [(-> & [= <- <-] & _)|[_ Hj]]%list_lookup_insert_Some; [|by apply (Ht j)].
    destruct (Ht _ _ _ Hi) as (T & HT & H). specialize (H (cl_store c) fault (conj HT Hs)). rewrite E in H.
    destruct H as [_ H]. by eexists; split; [|exact H].
Qed.
Lemma history_sound evs c : sound c -> sound (history evs c).
Proof. revert c. induction evs as [|ev evs IH]; intros c H; [done|]. by apply IH, happen_sound. Qed.

Lemma happen_clock ev c : sound c -> s_now (cl_store c) <= s_now (cl_store (happen ev c)).
Proof.
  intros H. destruct ev as [d|rq|i fault]; simpl; [lia|done|].
  destruct (step_post c i fault H) as (r & _ & E & _). simpl in E. rewrite E. lia.
Qed.
Lemma history_clock evs c : sound c -> s_now (cl_store c) <= s_now (cl_store (history evs c)).
Proof.
  revert c. induction evs as [|ev evs IH]; intros c H; [done|].
  etrans; [by apply (happen_clock ev)|]. by apply IH, happen_sound.
Qed.
Lemma history_advance evs c : sound c -> tasks_advance (cl_store c) (cl_store (history evs c)).
Proof.
  revert c. induction evs as [|ev evs IH]; intros c H; [apply tasks_advance_refl|].
  eapply tasks_advance_trans; [|by apply IH, happen_sound]. destruct ev as [d|rq|i fault]; try by apply advance_same.
  by destruct (step_post c i fault H) as (r & _ & _ & _ & Ha & _).
Qed.
Lemma history_lease evs c ty l : sound c -> s_locks (cl_store c) !! ty = Some l ->
  s_now (cl_store (history evs c)) <= lk_LockedUntil l -> quiet (lk_LockedBy l) evs c ->
  s_locks (cl_store (history evs c)) !! ty = Some l.
Proof.
  revert c. induction evs as [|ev evs IH]; intros c H Hl Hv Hq; [done|]. destruct Hq as [Hev Hq].
  apply (IH (happen ev c)); [by apply happen_sound| |done|done].
  pose proof (happen_clock ev c H). pose proof (history_clock evs _ (happen_sound ev c H)).
  assert (s_now (cl_store (history evs (happen ev c))) <= lk_LockedUntil l) by exact Hv.
  destruct ev as [d|rq|i fault]; try done.
  destruct (step_post c i fault H) as (r & Er & _ & _ & _ & Hk). apply Hk; [done|lia|]. by rewrite <- Er.
Qed.

(** C23 In every interleaving of the statements of any runners, requests, heartbeats and
    handlers, with any failures and delays: at most one task of a type is pending or
    running; rows only advance (a task that ended never changes again); and a lease that
    has not expired stays with its runner, whatever all the others do. *)
Theorem system_tasks_history now logs fr evs1 evs2 :
  let c1 := history evs1 (fresh_cluster now logs fr) in
  let c2 := history evs2 c1 in
  (forall id id' t t', s_tasks (cl_store c1) !! id = Some t -> s_tasks (cl_store c1) !! id' = Some t' ->
     Active t = true -> Active t' = true -> sy_Type t = sy_Type t' -> id = id') /\
  tasks_advance (cl_store c1) (cl_store c2) /\
  (forall ty l, s_locks (cl_store c1) !! ty = Some l -> s_now (cl_store c2) <= lk_LockedUntil l ->
     quiet (lk_LockedBy l) evs2 c1 -> s_locks (cl_store c2) !! ty = Some l).
Proof.
  intros c1 c2. assert (H1 : sound c1) by apply history_sound, fresh_sound. split_and!.
  - intros id id' t t' Ht Ht' Ha Ha' E. destruct H1 as [[_ Hrow _ Hact _] _].
    pose proof (Hrow _ _ Ht) as R. pose proof (Hrow _ _ Ht') as R'. unfold row_ok in R, R'. rewrite Ha in R. rewrite Ha' in R'.
    eapply Hact; [done|done|by rewrite R|by rewrite R, R', E].
  - by apply history_advance.
  - intros ty l Hl Hv Hq. by apply history_lease.
Qed.
End history.

(** ** Tasks are handed out once *)

Section budget.
Context (id : Z).

Definition pending_row (s : Store) : bool :=
  match s_tasks s !! id with Some t => has_status SystemTaskStatusPending t | None => false end.
Definition started_row (s : Store) : bool :=
  match s_tasks s !! id with Some t => negb (has_status SystemTaskStatusPending t) | None => false end.
Definition took (s s' : Store) : bool := pending_row s && started_row s'.
Definition took_next (n : nat) (s s' : Store) : nat := if took s s' then S n else n.
Lemma took_grows n s s' : (n <= took_next n s s')%nat.
Proof. unfold took_next. destruct (took _ _); lia. Qed.
Definition spends {A} (n : nat) (p : prog A) (Q : nat -> A -> Prop) : Prop :=
  wp (fun _ => store_ok) (fun _ _ _ => True) took_next n p Q.
Definition claims_of (l : list SystemTask) : nat := length (List.filter (fun t => sy_ID t =? id) l).

Lemma spends_any {A} n (p : prog A) : spends n p (fun n' _ => (n <= n')%nat).
Proof.
  assert (H : forall m, (m <= n)%nat -> spends n p (fun n' _ => (m <= n')%nat)); [|by apply H].
  unfold spends. revert n. induction p as [a|B e k IH]; intros n m Hm; [done|].
  apply wp_exec. intros s f _. split; [done|]. apply IH. unfold took_next. destruct (took _ _); lia.
Qed.
Lemma spends_seq {A B} n (p : prog A) (k : A -> prog B) Q :
  (forall n' a, (n <= n')%nat -> spends n' (k a) Q) -> spends n (p ≫= k) Q.
Proof. intros Hk. apply wp_bind. eapply wp_mono; [|apply spends_any]. intros n' a Hn. by apply Hk. Qed.
Lemma spends_ok {A B} n (p : prog (result error A)) (k : A -> prog (result error B)) Q :
  (forall n' a, (n <= n')%nat -> spends n' (k a) Q) -> (forall n' e, (n <= n')%nat -> Q n' (Err e)) ->
  spends n (p ≫= on_ok k) Q.
Proof. intros Hk He. apply spends_seq. intros n' [a|e] Hn; [by apply Hk|by apply He]. Qed.
Lemma spends_weaken {A} n (p : prog A) (Q R : nat -> A -> Prop) :
  (forall n a, Q n a -> R n a) -> spends n p Q -> spends n p R.
Proof. apply wp_mono. Qed.

(** What a claim of [id] must have spent. *)
Definition paid (n : nat) (n' : nat) (r : result error (option SystemTask)) : Prop :=
  (n + claims_of (match r with Ok (Some t) => [t] | _ => [] end) <= n')%nat.
Lemma paid_nothing n n' r : (n <= n')%nat -> match r with Ok (Some _) => False | _ => True end -> paid n n' r.
Proof. unfold paid. destruct r as [[t|]|e]; try done; cbn; lia. Qed.

Lemma affected_some {K V} `{Countable K} `{EqDecision V} fr p f (m : gmap K V) :
  affected fr p f m <> 0 -> exists k v, m !! k = Some v /\ p v = true.
Proof.
  unfold affected. intros Hn. destruct (List.filter _ _) as [|v l] eqn:E; [done|].
  assert (Hv : In v (v :: l)) by by left. rewrite <- E in Hv. apply filter_In in Hv as [Hv Hp].
  apply list_elem_of_In, list_elem_of_fmap in Hv as ([k v'] & -> & Hk%elem_of_map_to_list).
  exists k, v'. split; [done|]. by bools.
Qed.
Lemma first_task_id n i : spends n (first_task (where_task (fun t => sy_ID t =? i)))
  (fun n' r => (n <= n')%nat /\ match r with Ok (Some t) => sy_ID t = i | _ => True end).
Proof.
  unfold first_task. apply wp_bind, wp_call. intros s f _. split; [done|].
  pose proof (took_grows n s). destruct f as [e|]; simpl; [by split|]. split; [done|].
  destruct (where_task _ (rows s)) as [|t l] eqn:E; simpl; [done|].
  assert (Ht : In t (t :: l)) by by left. rewrite <- E in Ht. apply filter_In in Ht as [_ Ht]. by bools.
Qed.
Lemma claim_takes n ty i runner now :
  spends n (call (UpdateTasks (fun _ => claimable i ty)
    (fun t => t <| sy_Status := SystemTaskStatusRunning |> <| sy_LockedBy := runner |> <| sy_UpdatedAt := now |>)))
    (fun n' r => (n <= n')%nat /\ match r with Ok m => m <> 0 -> i = id -> (S n <= n')%nat | Err _ => True end).
Proof.
  apply wp_call. intros s f Hs. split; [done|]. unfold took_next.
  destruct f as [e|]; simpl; [by split; [destruct (took _ _); lia|]|]. split; [destruct (took _ _); lia|].
  intros (k & t & Hk & Ht)%affected_some ->.
  assert (k = id) as ->. { destruct Hs as [Hid _ _ _ _]. destruct (Hid _ _ Hk) as [<- _]. unfold claimable in Ht. by bools. }
  assert (E : took s (s <| s_tasks := update_rows (claimable id ty) (fun t => t <| sy_Status := SystemTaskStatusRunning |>
     <| sy_LockedBy := runner |> <| sy_UpdatedAt := now |>) (s_tasks s) |>) = true).
  { unfold took, pending_row, started_row. simpl. rewrite (update_rows_lookup_some _ _ _ _ _ Hk), Hk, Ht.
    unfold claimable in Ht. apply andb_true_iff in Ht as [_ ->]. done. }
  by rewrite E.
Qed.
Lemma claim_spends n i ty runner until : spends n (ClaimSystemTask i ty runner until) (paid n).
Proof.
  unfold ClaimSystemTask. apply spends_ok; [intros n1 now H1|intros; by apply paid_nothing].
  apply spends_ok; [intros n2 [task|] H2|intros; by apply paid_nothing; [lia|]]; [|by apply paid_nothing; [lia|]].
  apply spends_ok; [intros n3 [[] expired] H3|intros; by apply paid_nothing; [lia|]]; cbn [negb]; [|by apply paid_nothing; [lia|]].
  apply spends_seq. intros n4 [u|e] H4.
  2:{ apply spends_seq. intros n5 _ H5. by apply paid_nothing; [lia|]. }
  apply wp_bind. eapply wp_mono; [|apply claim_takes]. intros n5 [m|e] [H5 Hm].
  2:{ apply spends_seq. intros n6 _ H6. by apply paid_nothing; [lia|]. }
  destruct (Z.eqb_spec m 0) as [->|Hm0]; [apply spends_seq; intros n6 _ H6; by apply paid_nothing; [lia|]|].
  apply wp_bind. eapply wp_mono; [|apply first_task_id]. intros n6 [[t|]|e] [H6 Ht]; [|by apply paid_nothing; [lia|]..].
  cbn [on_ok]. unfold paid, claims_of. cbn. destruct (Z.eqb_spec (sy_ID t) id); cbn; [|lia].
  specialize (Hm Hm0 ltac:(congruence)). lia.
Qed.
Lemma claim_types_spends n pending runner tys :
  spends n (claim_types pending runner tys) (fun n' l => (n + claims_of l <= n')%nat).
Proof.
  revert n. induction tys as [|ty tys IH]; intros n; cbn [claim_types]; [cbn; lia|].
  destruct (pending !! ty) as [task|]; [|apply IH].
  apply wp_bind. apply (wp_mono _ _ _ _ _ (paid n)).
  2:{ apply spends_ok; [|intros; by apply paid_nothing]. intros n' until Hn.
      eapply wp_mono; [|apply claim_spends]. unfold paid. intros; lia. }
  intros n1 claimed H1. apply wp_bind. eapply wp_mono; [|apply IH]. intros n2 rest H2. unfold paid in H1. cbn in H2 |- *.
  destruct claimed as [[t|]|e]; unfold claims_of in *; cbn in *; try lia.
  destruct (sy_ID t =? id); cbn in *; lia.
Qed.
End budget.

Section once.
Context {J : Type} (Marshal : J -> result error string).
Context (payload_value : LogCleanupPayload -> J) (state_value : LogCleanupState -> J)
  (result_value : LogCleanupResult -> J) (progress_value : SystemTaskProgress -> J).
Context (decode_payload : string -> result error LogCleanupPayload)
  (decode_state : string -> result error LogCleanupState).
#[local] Abbreviation happen := (happen Marshal payload_value state_value result_value progress_value decode_payload decode_state).
#[local] Abbreviation history := (history Marshal payload_value state_value result_value progress_value decode_payload decode_state).
#[local] Abbreviation program := (program Marshal payload_value state_value result_value progress_value decode_payload decode_state).

Definition within (id : Z) (n : nat) (p : prog (list SystemTask)) : Prop :=
  spends id n p (fun n' l => (claims_of id l <= n')%nat).
Lemma program_within id rq : within id 0 (program rq).
Proof.
  destruct rq; unfold program; try (apply spends_seq; intros n a _; cbn; lia).
  apply wp_bind. unfold runPass. apply spends_seq. intros n1 [now|e] _; [|cbn; lia].
  apply spends_seq. intros n2 lastStale _. apply spends_seq. intros n3 lastSched _.
  apply wp_bind. unfold runSystemTaskClaimPass. apply spends_seq. intros n4 [pending|e] _; [|cbn; lia].
  eapply wp_mono; [|apply claim_types_spends]. intros n5 l Hl. cbn beta in Hl.
  change (claims_of id l <= n5)%nat. lia.
Qed.

Lemma sumZ_insert {A} (f : A -> Z) (l : list A) i x y :
  l !! i = Some x -> sumZ f (<[i := y]> l) = sumZ f l - f x + f y.
Proof.
  intros Hx. rewrite <- (take_drop_middle l i x Hx) at 2. rewrite insert_take_drop by (by eapply lookup_lt_Some).
  rewrite !sumZ_app. simpl. lia.
Qed.
Lemma started_stays id s s' : tasks_advance s s' -> started_row id s = true -> started_row id s' = true.
Proof.
  unfold started_row. intros Ha H. destruct (s_tasks s !! id) as [t|] eqn:Ht; [|done].
  destruct (Ha _ _ Ht) as (t' & -> & _ & _ & _ & _ & Hst). unfold has_status in *. bools.
  apply negb_true_iff, bool_decide_eq_false. destruct (sy_Status t) eqn:E; [done|by destruct Hst|congruence..].
Qed.

(** The ghost values of the threads add up to at most one, and only once the task has
    left the pending status. *)
Definition accounts (id : Z) (c : Cluster) : Prop := exists ns : list nat,
  Forall2 (fun n th => within id n th.2) ns (cl_threads c) /\
  sumZ Z.of_nat ns <= if started_row id (cl_store c) then 1 else 0.

Lemma happen_accounts id ev c : sound c -> accounts id c -> accounts id (happen ev c).
Proof.
  intros [Hs Ht] (ns & Hns & Hsum). destruct ev as [d|rq|i fault]; simpl.
  - exists ns. split; [done|]. exact Hsum.
  - exists (ns ++ [0%nat]). split; [|rewrite sumZ_app; simpl; lia].
    apply Forall2_app; [done|]. constructor; [|done]. apply program_within.
  - destruct (cl_threads c !! i) as [[r [a|B e k]]|] eqn:Hi; [by exists ns| |by exists ns].
    destruct (exec fault e (cl_store c)) as [a s'] eqn:E. simpl.
    destruct (Forall2_lookup_r _ _ _ _ _ Hns Hi) as (n & Hn & Hw). specialize (Hw (cl_store c) fault Hs).
    rewrite E in Hw. destruct Hw as [_ Hw].
    exists (<[i := took_next id n (cl_store c) s']> ns). split; [by apply Forall2_insert|].
    rewrite (sumZ_insert _ _ _ _ _ Hn). unfold took_next. cbn [cl_store].
    assert (Hpos : 0 <= sumZ Z.of_nat (take i ns ++ drop (S i) ns)) by (induction (take i ns ++ _); simpl; lia).
    assert (Hn' : Z.of_nat n <= sumZ Z.of_nat ns).
    { rewrite <- (take_drop_middle ns i n Hn), sumZ_app. rewrite sumZ_app in Hpos. simpl. lia. }
    destruct (took id (cl_store c) s') eqn:Et.
    + unfold took in Et. bools. rewrite H0.
      assert (Es : started_row id (cl_store c) = false).
      { unfold started_row. unfold pending_row in H. destruct (s_tasks (cl_store c) !! id); [by rewrite H|done]. }
      rewrite Es in Hsum. lia.
    + destruct (started_row id (cl_store c)) eqn:Es.
      * rewrite (started_stays id (cl_store c) s'); [lia| |done].
        destruct (step_post Marshal payload_value state_value result_value progress_value decode_payload decode_state
                    c i fault (conj Hs Ht)) as (r' & _ & _ & _ & Ha & _).
        simpl in Ha. by rewrite Hi, E in Ha.
      * destruct (started_row id s'); lia.
Qed.
Lemma history_accounts id evs c : sound c -> accounts id c -> accounts id (history evs c).
Proof.
  revert c. induction evs as [|ev evs IH]; intros c Hs Ha; [done|].
  apply IH; [by apply happen_sound|by apply happen_accounts].
Qed.

(** The tasks that the threads which ended have claimed. *)
Definition claimed_by (th : thread) : list SystemTask := match th.2 with Done l => l | Exec _ _ => [] end.
Definition claimed (c : Cluster) : list SystemTask := cl_threads c ≫= claimed_by.

Lemma claims_of_app id l l' : claims_of id (l ++ l') = (claims_of id l + claims_of id l')%nat.
Proof. unfold claims_of. by rewrite List.filter_app, length_app. Qed.
Lemma claims_of_elem t l : t ∈ l -> (1 <= claims_of (sy_ID t) l)%nat.
Proof.
  intros Ht. unfold claims_of. destruct (List.filter _ l) as [|u k] eqn:E; simpl; [|lia].
  assert (H : In t []); [|done]. rewrite <- E. apply filter_In. split; [by apply list_elem_of_In|by apply Z.eqb_eq].
Qed.
Lemma claims_nodup l : (forall id, (claims_of id l <= 1)%nat) -> NoDup (sy_ID <$> l).
Proof.
  induction l as [|t l IH]; intros H; simpl; constructor.
  - intros (t' & E & Ht')%list_elem_of_fmap. specialize (H (sy_ID t)). apply claims_of_elem in Ht'. rewrite <- E in Ht'.
    unfold claims_of in *. simpl in H. rewrite Z.eqb_refl in H. simpl in H. lia.
  - apply IH. intros id. specialize (H id). unfold claims_of in *. simpl in H. destruct (sy_ID t =? id); simpl in H; lia.
Qed.
Lemma accounts_claims id c : accounts id c -> (claims_of id (claimed c) <= if started_row id (cl_store c) then 1 else 0)%nat.
Proof.
  intros (ns & Hns & Hsum).
  assert (H : Z.of_nat (claims_of id (claimed c)) <= sumZ Z.of_nat ns); [|destruct (started_row _ _); lia].
  unfold claimed. clear Hsum. induction Hns as [|n [r p] ns ths Hw _ IH]; simpl; [done|].
  rewrite claims_of_app. unfold mbind in IH. assert ((claims_of id (claimed_by (r, p)) <= n)%nat).
  2:{ etrans; [|apply Z.add_le_mono; [apply inj_le, H|exact IH]]. rewrite Nat2Z.inj_add. reflexivity. }
  unfold claimed_by. simpl. destruct p as [l|B e k]; [exact Hw|cbn; lia].
Qed.

(** C24 In every interleaving, with any failures and delays, each task is claimed at most
    once, by one pass of one runner: no handler ever runs for a task a second time, not
    even after its lease was lost; and a claimed task is never pending again. *)
Theorem tasks_claimed_once now logs fr evs :
  let c := history evs (fresh_cluster now logs fr) in
  NoDup (sy_ID <$> claimed c) /\
  (forall t, t ∈ claimed c -> exists t', s_tasks (cl_store c) !! sy_ID t = Some t' /\ sy_Status t' <> SystemTaskStatusPending).
Proof.
  intros c. assert (Ha : forall id, (claims_of id (claimed c) <= if started_row id (cl_store c) then 1 else 0)%nat).
  { intros id. apply accounts_claims, history_accounts; [apply fresh_sound|]. by exists []. }
  split.
  - apply claims_nodup. intros id. specialize (Ha id). destruct (started_row _ _); lia.
  - intros t Ht%claims_of_elem. specialize (Ha (sy_ID t)). unfold started_row in Ha.
    destruct (s_tasks (cl_store c) !! sy_ID t) as [t'|]; [|lia]. exists t'. split; [done|].
    destruct (has_status SystemTaskStatusPending t') eqn:E; simpl in Ha; [lia|]. unfold has_status in E. by bools.
Qed.
End once.
