(* ===== verification/SystemTaskRecovery.v ===== *)
(** * System tasks: recovery from a crashed runner *)

From S2P Require Import Prelude GoStd SystemTask SystemRunner SystemTaskProofs.

(** ** Runs without interruption or failure *)

Lemma exec_none {B} (e : stmt B) s : exec None e s = exec_stmt e s.
Proof. by destruct e. Qed.
Lemma alone_exec {A B} (e : stmt B) (k : result error B -> prog A) s :
  run_alone [] (Exec e k) s = let '(r, s') := exec_stmt e s in run_alone [] (k r) s'.
Proof. simpl. by rewrite exec_none. Qed.
Lemma alone_bind {A B} (p : prog A) (k : A -> prog B) s :
  run_alone [] (p ≫= k) s = let '(a, s') := run_alone [] p s in run_alone [] (k a) s'.
Proof.
  revert s. induction p as [a|C e c IH]; intros s; [done|].
  change (Exec e c ≫= k) with (Exec e (fun r => c r ≫= k)). rewrite !alone_exec. destruct (exec_stmt e s). apply IH.
Qed.
Lemma alone_call {B} (e : stmt B) s : run_alone [] (call e) s = exec_stmt e s.
Proof. unfold call. rewrite alone_exec. by destruct (exec_stmt e s). Qed.
Lemma alone_ok {A B} (p : prog (result error A)) (k : A -> prog (result error B)) s a s' :
  run_alone [] p s = (Ok a, s') -> run_alone [] (p ≫= on_ok k) s = run_alone [] (k a) s'.
Proof. intros E. by rewrite alone_bind, E. Qed.
Lemma alone_timestamp {B} (k : Z -> prog (result error B)) s :
  run_alone [] (call GetTimestamp ≫= on_ok k) s = run_alone [] (k (s_now s)) s.
Proof. apply alone_ok. by rewrite alone_call. Qed.

(** ** Rows *)

Lemma rows_nodup s : store_ok s -> NoDup (rows s).
Proof.
  intros Hs. unfold rows. rewrite merge_sort_Permutation. apply NoDup_fmap_2_strong, NoDup_map_to_list.
  intros [id t] [id' t'] Ht%elem_of_map_to_list Ht'%elem_of_map_to_list E. simpl in E. subst t'.
  destruct (ok_ids _ Hs _ _ Ht) as [<- _], (ok_ids _ Hs _ _ Ht') as [<- _]. done.
Qed.
Lemma filter_unique {A} (p : A -> bool) (l : list A) x :
  NoDup l -> x ∈ l -> (forall y, y ∈ l -> p y = true <-> y = x) -> List.filter p l = [x].
Proof.
  induction 1 as [|y l Hy Hl IH]; intros Hx Hp; [by apply not_elem_of_nil in Hx|]. simpl.
  apply elem_of_cons in Hx as [->|Hx].
  - rewrite (proj2 (Hp y (list_elem_of_here _ _)) eq_refl). f_equal.
    destruct (List.filter p l) as [|z k] eqn:E; [done|]. assert (Hz : In z (List.filter p l)) by (rewrite E; by left).
    apply filter_In in Hz as [Hz%list_elem_of_In Hpz]. destruct Hy. assert (z = y) as <-; [|done].
    apply Hp; [by right|done].
  - rewrite IH; [|done|by intros z Hz; apply Hp; right]. destruct (p y) eqn:E; [|done].
    apply Hp in E; [|by left]. by subst y.
Qed.
Lemma filter_empty {A} (p : A -> bool) (l : list A) : (forall y, y ∈ l -> p y = false) -> List.filter p l = [].
Proof.
  induction l as [|y l IH]; intros H; simpl; [done|]. rewrite H by by left. apply IH. intros z Hz. apply H. by right.
Qed.

(** ** The stale pass *)

Definition expired_row (now : Z) (locks : list SystemTaskLock) (t : SystemTask) : SystemTask :=
  if has_status SystemTaskStatusRunning t && existsb (fun l => bool_decide (sy_TaskID t = lk_TaskID l)) locks
  then t <| sy_Status := SystemTaskStatusFailed |> <| sy_ActiveKey := None |> <| sy_Error := "task lease expired" |>
         <| sy_UpdatedAt := now |>
  else t.
Definition stale (now : Z) (l : SystemTaskLock) : bool := lk_LockedUntil l <? now.

Lemma expire_locks_run now locks s : s_now s = now -> exists s',
  run_alone [] (expire_locks now locks) s = (Ok tt, s') /\ s_now s' = now /\ s_next s' = s_next s /\
  (forall id, s_tasks s' !! id = expired_row now locks <$> s_tasks s !! id) /\
  (forall ty, s_locks s' !! ty = l ← s_locks s !! ty;
     if existsb (fun k => bool_decide (lk_Type l = lk_Type k) && bool_decide (lk_TaskID l = lk_TaskID k)
                          && bool_decide (lk_LockedBy l = lk_LockedBy k)) locks && stale now l
     then None else Some l).
Proof.
  intros Hn. revert s Hn. induction locks as [|lock locks IH]; intros s Hn; cbn [expire_locks].
  - exists s. split_and!; try done.
    + intros id. destruct (s_tasks s !! id) as [t|]; [|done]. simpl. unfold expired_row. simpl. by rewrite andb_false_r.
    + intros ty. by destruct (s_locks s !! ty).
  - unfold MarkSystemTaskLeaseExpired at 1. rewrite alone_bind, alone_timestamp, alone_bind, alone_call.
    cbn [exec_stmt on_ok run_alone mret prog_ret].
    rewrite alone_bind, alone_call. cbn [exec_stmt on_ok].
    match goal with |- context [run_alone [] (expire_locks now locks) ?u] => destruct (IH u) as (s' & E & H1 & H2 & H3 & H4) end; [done|].
    cbn [on_ok]. exists s'. split_and!; [exact E|done|done| |].
    + intros id. rewrite H3. simpl. destruct (s_tasks s !! id) as [t|] eqn:Ht;
        [rewrite (update_rows_lookup_some _ _ _ _ _ Ht)|unfold update_rows; by rewrite lookup_fmap, Ht]. simpl. f_equal.
      unfold expired_row. simpl. rewrite Hn.
      destruct (has_status SystemTaskStatusRunning t) eqn:Er; simpl; [|by rewrite andb_false_r, Er].
      rewrite andb_true_r. destruct (bool_decide (sy_TaskID t = lk_TaskID lock)) eqn:Ei; simpl; [done|by rewrite Er].
    + intros ty. rewrite H4. simpl. rewrite map_lookup_filter. destruct (s_locks s !! ty) as [l|]; [|done]. simpl.
      unfold stale. set (same := bool_decide (lk_Type l = lk_Type lock) && bool_decide (lk_TaskID l = lk_TaskID lock)
                && bool_decide (lk_LockedBy l = lk_LockedBy lock)).
      case_guard as Hg; simpl; destruct same, (lk_LockedUntil l <? now); simpl in *; try done; by rewrite andb_false_r.
Qed.

Lemma alone_safe {A} r T (p : prog A) Q s : safe r T p Q -> T <= s_now s -> store_ok s ->
  store_ok (run_alone [] p s).2 /\ s_now (run_alone [] p s).2 = s_now s.
Proof.
  unfold safe. revert T s. induction p as [a|B e k IH]; intros T s H HT Hs; [done|].
  rewrite alone_exec. specialize (H s None (conj HT Hs)). rewrite exec_none in H.
  destruct (exec_stmt e s) as [a s']. destruct H as [(En & Hs' & _) H]. rewrite <- En.
  apply (IH a _ s' H); [unfold lease_next; lia|done].
Qed.

Definition stale_locks (s : Store) : list SystemTaskLock := List.filter (stale (s_now s)) (map_to_list (s_locks s)).*2.
Lemma stale_pass_run s : exists s', run_alone [] stale_pass s = (Ok tt, s') /\ s_now s' = s_now s /\ s_next s' = s_next s /\
  (forall id, s_tasks s' !! id = expired_row (s_now s) (stale_locks s) <$> s_tasks s !! id) /\
  (forall ty, s_locks s' !! ty = l ← s_locks s !! ty; if stale (s_now s) l then None else Some l).
Proof.
  unfold stale_pass. rewrite alone_timestamp. unfold ExpireStaleSystemTaskLocks. rewrite alone_bind, alone_call.
  cbn [exec_stmt on_ok]. destruct (expire_locks_run (s_now s) (stale_locks s) s eq_refl) as (s' & E & Hn & Hx & Ht & Hl).
  exists s'. split_and!; try done. intros ty. rewrite Hl. destruct (s_locks s !! ty) as [l|] eqn:Ell; [|done]. simpl.
  destruct (stale (s_now s) l) eqn:Est; [|by rewrite andb_false_r]. rewrite andb_true_r.
  assert (Hin : In l (stale_locks s)).
  { apply filter_In. split; [|done]. apply list_elem_of_In, list_elem_of_fmap. exists (ty, l). split; [done|].
    by apply elem_of_map_to_list. }
  rewrite (proj2 (existsb_exists _ _)); [done|]. exists l. split; [done|]. by rewrite !bool_decide_eq_true_2.
Qed.

(** ** A new task of a free type *)

Definition new_task (key taskType text : string) (s : Store) : SystemTask :=
  mkSystemTask (s_next s) ("systask_" +:+ key) taskType SystemTaskStatusPending (Some taskType) text "" "" "" ""
    (s_now s) (s_now s).
Definition with_task (t : SystemTask) (s : Store) : Store :=
  s <| s_tasks := <[sy_ID t := t]> (s_tasks s) |> <| s_next := s_next s + 1 |>.
Definition type_free (ty : string) (s : Store) : Prop :=
  forall id t, s_tasks s !! id = Some t -> sy_Type t = ty -> Active t = false.
Definition unused_id (taskID : string) (s : Store) : Prop :=
  forall id t, s_tasks s !! id = Some t -> sy_TaskID t <> taskID.

Lemma no_active_task s ty : type_free ty s -> run_alone [] (GetActiveSystemTask ty) s = (Ok None, s).
Proof.
  intros H. unfold GetActiveSystemTask, first_task. rewrite alone_bind, alone_call. cbn [exec_stmt on_ok].
  unfold where_task. rewrite filter_empty; [done|]. intros t [id Ht]%elem_of_rows.
  destruct (of_type ty t) eqn:E; [|done]. unfold of_type in E. bools. simpl. by eapply H.
Qed.
Lemma enqueue_new {J} (Marshal : J -> result error string) key ty payload text s :
  store_ok s -> type_free ty s -> unused_id ("systask_" +:+ key) s ->
  marshalSystemTaskJSON Marshal payload = Ok text ->
  run_alone [] (EnqueueSystemTask Marshal (Ok key) ty payload) s
  = (Ok (new_task key ty text s, true), with_task (new_task key ty text s) s).
Proof.
  intros Hs Hf Hu Hm. unfold EnqueueSystemTask, create_unless_active.
  rewrite alone_bind, no_active_task by done. cbn [on_ok]. rewrite alone_bind. unfold CreateSystemTask.
  rewrite Hm. cbn [GenerateSystemTaskID marshalSystemTaskJSON mret prog_ret mbind prog_bind on_ok].
  rewrite alone_call. cbn [exec_stmt]. unfold insert_task. cbv zeta.
  assert (E : before_create (s_now s) (mkSystemTask 0 ("systask_" +:+ key) ty SystemTaskStatusPending (Some ty) text "" "" "" "" 0 0)
              <| sy_ID := s_next s |> = new_task key ty text s) by done.
  rewrite E. assert (Hfree : existsb (clashes (new_task key ty text s)) (rows s) = false); [|by rewrite Hfree].
  apply not_true_iff_false. intros (t & [id Ht]%list_elem_of_In%elem_of_rows & Hc)%existsb_exists. unfold clashes in Hc. simpl in Hc.
  apply orb_true_iff in Hc as [Hc|Hc]; bools.
  - by destruct (Hu _ _ Ht).
  - pose proof (ok_rows _ Hs _ _ Ht) as Hr. unfold row_ok in Hr. destruct (sy_ActiveKey t) as [k|]; [|done]. bools. subst k.
    destruct (Active t) eqn:Ea; [|done]. injection Hr as Hr. by rewrite (Hf _ _ Ht) in Ea.
Qed.

(** ** Claiming the only pending task of a type *)

Definition claimed_row (runner : string) (now : Z) (t : SystemTask) : SystemTask :=
  t <| sy_Status := SystemTaskStatusRunning |> <| sy_LockedBy := runner |> <| sy_UpdatedAt := now |>.
Definition only_pending (t : SystemTask) (s : Store) : Prop :=
  s_tasks s !! sy_ID t = Some t /\ sy_Status t = SystemTaskStatusPending /\
  forall id t', s_tasks s !! id = Some t' -> sy_Type t' = sy_Type t -> sy_Status t' = SystemTaskStatusPending -> t' = t.

Lemma affected_one fr p f (m : gmap Z SystemTask) k t :
  m !! k = Some t -> p t = true -> f t <> t -> affected fr p f m <> 0.
Proof.
  intros Hk Hp Hf. unfold affected.
  assert (Hin : In t (List.filter (fun v => p v && (fr || bool_decide (f v <> v))) (map_to_list m).*2)).
  { apply filter_In. split; [|by rewrite Hp, bool_decide_eq_true_2, orb_true_r].
    apply list_elem_of_In, list_elem_of_fmap. exists (k, t). split; [done|]. by apply elem_of_map_to_list. }
  destruct (List.filter _ _); [done|]. simpl. lia.
Qed.
Lemma only_row (p : SystemTask -> bool) t s : store_ok s -> s_tasks s !! sy_ID t = Some t ->
  (forall id t', s_tasks s !! id = Some t' -> p t' = true <-> t' = t) -> where_task p (rows s) = [t].
Proof.
  intros Hs Ht Hp. apply filter_unique; [by apply rows_nodup|by apply elem_of_rows; exists (sy_ID t)|].
  intros y [id Hy]%elem_of_rows. by apply (Hp id).
Qed.
Lemma same_id t t' id s : store_ok s -> s_tasks s !! sy_ID t = Some t -> s_tasks s !! id = Some t' -> sy_ID t' = sy_ID t -> t' = t.
Proof. intros Hs Ht Ht' E. destruct (ok_ids _ Hs _ _ Ht') as [<- _]. rewrite E in Ht'. congruence. Qed.

Lemma claim_run t s runner until : store_ok s -> only_pending t s -> s_locks s !! sy_Type t = None -> s_now s <> 0 ->
  exists s', run_alone [] (ClaimSystemTask (sy_ID t) (sy_Type t) runner until) s = (Ok (Some (claimed_row runner (s_now s) t)), s') /\
    s_locks s' = <[sy_Type t := mkSystemTaskLock (sy_Type t) (sy_TaskID t) runner until (s_now s)]> (s_locks s) /\
    s_tasks s' = update_rows (claimable (sy_ID t) (sy_Type t)) (claimed_row runner (s_now s)) (s_tasks s).
Proof.
  intros Hs (Ht & Hst & Hu) Hl Hn. unfold ClaimSystemTask. rewrite alone_timestamp.
  assert (Hc : forall id t', s_tasks s !! id = Some t' -> claimable (sy_ID t) (sy_Type t) t' = true <-> t' = t).
  { intros id t' Ht'. split.
    - intros H. unfold claimable, of_type, has_status in H. bools. by eapply same_id.
    - intros ->. unfold claimable, of_type, has_status. by rewrite Z.eqb_refl, !bool_decide_eq_true_2. }
  rewrite (alone_ok _ _ s (Some t) s).
  2:{ unfold first_task. rewrite alone_bind, alone_call. cbn [exec_stmt on_ok]. by rewrite (only_row _ t). }
  set (l := mkSystemTaskLock (sy_Type t) (sy_TaskID t) runner until (s_now s)).
  rewrite (alone_ok _ _ s (true, "") (s <| s_locks := <[sy_Type t := l]> (s_locks s) |>)).
  2:{ unfold acquireSystemTaskLock. rewrite alone_bind, alone_call. cbn [exec_stmt]. unfold insert_lock. cbn [lk_Type].
      rewrite Hl. unfold before_create_lock. simpl. by rewrite (proj2 (Z.eqb_neq _ _) Hn). }
  cbn [negb]. rewrite bool_decide_eq_false_2 by naive_solver. cbn [andb]. rewrite alone_bind. cbn [run_alone mret prog_ret].
  rewrite alone_bind, alone_call. cbn [exec_stmt].
  rewrite (proj2 (Z.eqb_neq _ _)).
  2:{ apply (affected_one _ _ _ _ (sy_ID t) t); [done|by apply (Hc (sy_ID t))|]. intros E%(f_equal sy_Status). simpl in E. congruence. }
  match goal with |- exists s', run_alone [] _ ?u = _ /\ _ => exists u; assert (Hu' : store_ok u) end.
  { set (s1 := s <| s_locks := <[sy_Type t := l]> (s_locks s) |>).
    assert (H1 : store_ok s1).
    { destruct Hs as [? ? ? ? Hlk]. split; try done. intros ty l'. simpl. rewrite lookup_insert_Some.
      intros [[<- <-]|[_ H']]; [done|by apply Hlk]. }
    pose proof (guards_claim None (s_now s1) (sy_ID t) (sy_Type t) runner (s_now s) s1) as Hg.
    destruct Hg as (_ & Hg & _); [split; [done|exact H1]|exact Hg]. }
  split_and!; [|done|done]. unfold first_task. rewrite alone_bind, alone_bind, alone_call. cbn [exec_stmt on_ok].
  rewrite (only_row _ (claimed_row runner (s_now s) t)); [done|exact Hu'| |].
  - simpl. erewrite update_rows_lookup_some by exact Ht. by rewrite (proj2 (Hc _ _ Ht) eq_refl).
  - intros id t' Ht'. assert (Hme : s_tasks (s <| s_tasks := update_rows (claimable (sy_ID t) (sy_Type t)) (claimed_row runner (s_now s)) (s_tasks s) |>)
      !! sy_ID t = Some (claimed_row runner (s_now s) t)).
    { simpl. erewrite update_rows_lookup_some by exact Ht. by rewrite (proj2 (Hc _ _ Ht) eq_refl). }
    split; [|intros ->; apply Z.eqb_refl]. intros E%Z.eqb_eq. destruct (ok_ids _ Hu' _ _ Ht') as [<- _].
    rewrite E in Ht'. pose proof (eq_trans (eq_sym Ht') Hme) as Heq. by injection Heq.
Qed.

Lemma claim_pass_run {J} t s runner : store_ok s -> only_pending t s -> s_locks s !! sy_Type t = None -> s_now s <> 0 ->
  exists s', run_alone [] (runSystemTaskClaimPass (J := J) runner [mkHandler (sy_Type t) None]) s
             = ([claimed_row runner (s_now s) t], s') /\
    s_locks s' = <[sy_Type t := mkSystemTaskLock (sy_Type t) (sy_TaskID t) runner (s_now s + systemTaskLockTTL) (s_now s)]> (s_locks s) /\
    s_tasks s' = update_rows (claimable (sy_ID t) (sy_Type t)) (claimed_row runner (s_now s)) (s_tasks s).
Proof.
  intros Hs Hp Hl Hn. unfold runSystemTaskClaimPass. cbn [fmap list_fmap h_Type].
  rewrite alone_bind. unfold FindEarliestPendingSystemTasks. rewrite alone_bind, alone_call. cbn [exec_stmt on_ok].
  rewrite (only_row _ t); [|done|by destruct Hp|].
  2:{ destruct Hp as (Ht & Hst & Hu). intros id t' Ht'. unfold one_of, has_status. split.
      - intros H. bools. apply list_elem_of_singleton in H. by eapply Hu.
      - intros ->. by rewrite !bool_decide_eq_true_2 by set_solver. }
  assert (E : extremal Z.leb [t] = [t]) by (unfold extremal; simpl; by rewrite Z.leb_refl, orb_true_r).
  rewrite E. cbn [run_alone mret prog_ret]. unfold tasks_by_type. cbn [fold_left claim_types].
  rewrite lookup_insert_eq, alone_bind. unfold systemTaskLockUntil. rewrite alone_bind, alone_timestamp.
  cbn [run_alone mret prog_ret on_ok].
  destruct (claim_run t s runner (s_now s + systemTaskLockTTL) Hs Hp Hl Hn) as (s' & E' & Hl' & Ht').
  rewrite E'. exists s'. by split.
Qed.
(** After the stale pass the type of an expired lease is free. *)
Lemma stale_frees s ty l s1 :
  s_locks s !! ty = Some l -> lk_LockedUntil l < s_now s ->
  (forall id t, s_tasks s !! id = Some t -> sy_Type t = ty -> Active t = true ->
     sy_Status t = SystemTaskStatusRunning /\ sy_TaskID t = lk_TaskID l) ->
  (forall id, s_tasks s1 !! id = expired_row (s_now s) (stale_locks s) <$> s_tasks s !! id) ->
  type_free ty s1 /\
  (forall id t, s_tasks s !! id = Some t -> sy_Status t = SystemTaskStatusRunning -> sy_TaskID t = lk_TaskID l ->
     exists t', s_tasks s1 !! id = Some t' /\ sy_Status t' = SystemTaskStatusFailed).
Proof.
  intros Hl Hexp Hact Ht1.
  assert (Hrow : forall t, sy_Status t = SystemTaskStatusRunning -> sy_TaskID t = lk_TaskID l ->
    sy_Status (expired_row (s_now s) (stale_locks s) t) = SystemTaskStatusFailed).
  { intros t Hst Hid. unfold expired_row, has_status. rewrite bool_decide_eq_true_2 by done. simpl.
    rewrite (proj2 (existsb_exists _ _)); [done|]. exists l. split; [|by apply bool_decide_eq_true_2].
    apply filter_In. split; [|by apply Z.ltb_lt]. apply list_elem_of_In, list_elem_of_fmap. exists (ty, l). split; [done|].
    by apply elem_of_map_to_list. }
  split.
  - intros id t. rewrite Ht1. intros (u & Hu & ->)%fmap_Some Hty. destruct (Active u) eqn:Ea.
    + destruct (Hact _ _ Hu) as [Hst Hid]; [by unfold expired_row in Hty; destruct (_ && _)|done|].
      unfold Active. by rewrite Hrow.
    + unfold expired_row. destruct (_ && _) eqn:E; [|done]. unfold Active. done.
  - intros id t Ht Hst Hid. rewrite Ht1, Ht. simpl. eexists. split; [done|]. by apply Hrow.
Qed.

