(* ===== verification/LogCleanup.v ===== *)
(** * The log cleanup handler deletes what it should

    A run of [runLogCleanupTask] by the runner that holds the lease, and what goes
    wrong where RowsAffected counts changed rows. *)

From S2P Require Import Prelude GoStd SystemTask SystemRunner SystemTaskProofs SystemTaskRecovery.

(** ** Progress *)

Lemma progress_percent processed total : 0 <= logCleanupProgress processed total <= 100.
Proof.
  unfold logCleanupProgress. destruct (Z.leb_spec total 0); [lia|]. destruct (Z.leb_spec processed 0); [lia|].
  rewrite Z.geb_leb. destruct (Z.leb_spec total processed); [lia|].
  rewrite Z.quot_div_nonneg by lia. split; [apply Z.div_pos; lia|apply Z.div_le_upper_bound; lia].
Qed.

(** ** Rows of the log *)

Section logs.
Context (before : Z).
#[local] Abbreviation olds := (fun l => length (List.filter (old before) l)).
Lemma delete_first_olds n l : olds (delete_first (old before) n l) = (olds l - n)%nat.
Proof.
  revert n. induction l as [|c l IH]; intros n; [done|]. destruct n as [|n]; simpl; [destruct (old before c); simpl; lia|].
  destruct (old before c) eqn:E; simpl; [by rewrite IH|]. rewrite E. by rewrite IH.
Qed.
Lemma delete_first_length n l : length (delete_first (old before) n l) = (length l - min n (olds l))%nat.
Proof.
  revert n. induction l as [|c l IH]; intros n; [by destruct n|].
  destruct n as [|n]; cbn [delete_first List.filter]; [cbn; lia|].
  pose proof (List.filter_length_le (old before) l). destruct (old before c) eqn:E; cbn [length]; rewrite IH; lia.
Qed.
Lemma delete_first_kept n l :
  List.filter (fun c => negb (old before c)) (delete_first (old before) n l) = List.filter (fun c => negb (old before c)) l.
Proof.
  revert n. induction l as [|c l IH]; intros n; [done|]. destruct n as [|n]; simpl; [done|].
  destruct (old before c) eqn:E; simpl; [by rewrite IH|]. rewrite E. simpl. by rewrite IH.
Qed.
Lemma no_olds l : olds l = 0%nat -> List.filter (fun c => negb (old before c)) l = l.
Proof.
  induction l as [|c l IH]; simpl; [done|]. destruct (old before c); simpl; [done|]. intros H. by rewrite IH.
Qed.
End logs.

Section cleanup.
Context {J : Type} (Marshal : J -> result error string) (Marshal_total : forall v, exists text, Marshal v = Ok text).
Context (state_value : LogCleanupState -> J) (result_value : LogCleanupResult -> J).
Context (decode_payload : string -> result error LogCleanupPayload)
  (decode_state : string -> result error LogCleanupState).
Context (clickHouse : bool) (task : SystemTask) (runnerID : string) (payload : LogCleanupPayload).
#[local] Abbreviation target := (lp_TargetTimestamp payload).
#[local] Abbreviation olds := (fun s => Z.of_nat (length (List.filter (old target) (s_logs s)))).

(** The runner holds a valid lease of the running task. *)
Definition working (s : Store) : Prop :=
  store_ok s /\ s_found_rows s = true /\
  (exists t, s_tasks s !! sy_ID task = Some t /\ sy_TaskID t = sy_TaskID task /\
     sy_Status t = SystemTaskStatusRunning /\ sy_LockedBy t = runnerID) /\
  (exists l, s_locks s !! sy_Type task = Some l /\ lk_TaskID l = sy_TaskID task /\ lk_LockedBy l = runnerID /\
     s_now s <= lk_LockedUntil l).
Lemma working_runs s t : working s -> s_tasks s !! sy_ID task = Some t -> running_for (sy_TaskID task) runnerID (s_now s) s t = true.
Proof.
  intros (_ & _ & (t' & Ht' & Hid & Hst & Hby) & l & Hl & Htask & Hlby & Hv) Ht. rewrite Ht' in Ht. injection Ht as <-.
  unfold running_for, has_status. rewrite !bool_decide_eq_true_2 by done. simpl. unfold holds_lock.
  apply existsb_exists. exists l. rewrite Z.geb_leb, !bool_decide_eq_true_2, (proj2 (Z.leb_le _ _)) by congruence.
  split; [|done]. apply list_elem_of_In, list_elem_of_fmap. exists (sy_Type task, l). split; [done|].
  by apply elem_of_map_to_list.
Qed.
Lemma affected_found p f (s : Store) t : s_found_rows s = true -> s_tasks s !! sy_ID task = Some t -> p t = true ->
  affected (s_found_rows s) p f (s_tasks s) <> 0.
Proof.
  intros -> Ht Hp. unfold affected. assert (Hin : In t (List.filter (fun v => p v && (true || bool_decide (f v <> v))) (map_to_list (s_tasks s)).*2)).
  { apply filter_In. split; [|by rewrite Hp]. apply list_elem_of_In, list_elem_of_fmap. exists (sy_ID task, t).
    split; [done|]. by apply elem_of_map_to_list. }
  destruct (List.filter _ _); [done|]. simpl. lia.
Qed.

Lemma save_run state s : working s -> exists s', run_alone [] (save_state Marshal state_value task runnerID state) s = (Ok tt, s') /\
  working s' /\ s_logs s' = s_logs s.
Proof.
  intros Hw. pose proof Hw as (Hs & Hfr & (t & Ht & Hid & Hst & Hby) & Hlock).
  destruct (Marshal_total (state_value state)) as [text Em].
  assert (E : exists s', run_alone [] (save_state Marshal state_value task runnerID state) s = (Ok tt, s') /\
    s_logs s' = s_logs s /\ s_locks s' = s_locks s /\ s_found_rows s' = s_found_rows s /\
    s_tasks s' = update_rows (running_for (sy_TaskID task) runnerID (s_now s) s)
      (fun t => t <| sy_State := text |> <| sy_UpdatedAt := s_now s |>) (s_tasks s)).
  { unfold save_state, UpdateSystemTaskState, marshalSystemTaskJSON. rewrite Em.
    rewrite (alone_ok _ _ s text s), alone_timestamp, alone_bind, alone_call by done. cbn [exec_stmt on_ok].
    unfold one_row. rewrite (proj2 (Z.eqb_neq _ _)); [by eexists|].
    by eapply affected_found, working_runs. }
  destruct E as (s' & E & Elog & Elock & Efr & Etask). exists s'. split_and!; [done| |done].
  destruct (alone_safe None (s_now s) _ _ s (safe_UpdateSystemTaskState Marshal None _ (sy_TaskID task) runnerID
    (Some (state_value state))) (Z.le_refl _) Hs) as [Hs' En'].
  fold (save_state Marshal state_value task runnerID state) in Hs', En'. rewrite E in Hs', En'. simpl in Hs', En'.
  split_and!; [done|congruence| |by rewrite Elock, En'].
  exists (t <| sy_State := text |> <| sy_UpdatedAt := s_now s |>). rewrite Etask. split; [|done].
  erewrite update_rows_lookup_some by exact Ht. by rewrite working_runs.
Qed.

(** ** The loops *)

Lemma working_logs logs s : working s -> working (s <| s_logs := logs |>).
Proof. intros ([? ? ? ? ?] & ? & ? & ?). split_and!; done. Qed.
(** A batch deletes something as long as something is left. *)
Lemma batch_run limit s : working s -> 0 < limit -> 0 < olds s -> exists n s',
  run_alone [] (DeleteOldLogBatch clickHouse target limit) s = (Ok n, s') /\ working s' /\ 0 < n /\ olds s' = olds s - n /\
  List.filter (fun c => negb (old target c)) (s_logs s') = List.filter (fun c => negb (old target c)) (s_logs s).
Proof.
  intros Hw Hl Ho. unfold DeleteOldLogBatch. rewrite (proj2 (Z.leb_gt _ _)) by lia. destruct clickHouse.
  - unfold CountOldLog. rewrite alone_bind, alone_call. cbn [exec_stmt on_ok].
    rewrite (proj2 (Z.eqb_neq _ _)) by lia. rewrite alone_bind, alone_call. cbn [exec_stmt on_ok run_alone mret prog_ret].
    eexists _, _. split_and!; [done|by apply working_logs|done| |].
    + simpl. rewrite filter_empty; [simpl; lia|]. intros c Hc%list_elem_of_In%filter_In. destruct Hc as [_ Hc]. by bools.
    + simpl. set (l := s_logs s). clear. induction l as [|c l IH]; simpl; [done|].
      destruct (old target c) eqn:E; simpl; [done|]. by rewrite E, IH.
  - rewrite alone_call. cbn [exec_stmt]. eexists _, _. split_and!; [done|by apply working_logs| | |].
    + rewrite delete_first_length. pose proof (List.filter_length_le (old target) (s_logs s)). lia.
    + simpl. rewrite delete_first_olds, delete_first_length. pose proof (List.filter_length_le (old target) (s_logs s)). lia.
    + simpl. apply delete_first_kept.
Qed.
(** The state counts what is left. *)
Definition counted (s : Store) (total : Z) (state : LogCleanupState) : Prop :=
  lc_Remaining state = olds s /\ lc_Processed state = total - olds s /\ lc_Total state = total.
Lemma delete_batches_run fuel s state progressed total : working s -> 0 < lp_BatchSize payload ->
  counted s total state -> olds s <= Z.of_nat fuel -> olds s <= total -> (olds s = 0 -> progressed = true) ->
  exists state' s', run_alone [] (delete_batches Marshal state_value clickHouse task runnerID payload fuel state progressed) s
    = ((true, Some (state', true)), s') /\ working s' /\ counted s' total state' /\ olds s' = 0 /\
  List.filter (fun c => negb (old target c)) (s_logs s') = List.filter (fun c => negb (old target c)) (s_logs s).
Proof.
  intros Hw Hb. revert s state progressed Hw. induction fuel as [|fuel IH]; intros s state progressed Hw (Hr & Hp & Ht) Hf Htot Hpr;
    cbn [delete_batches]; rewrite Z.gtb_ltb.
  - rewrite (proj2 (Z.ltb_ge _ _)) by lia. exists state, s. rewrite Hpr by lia. split_and!; try done. lia.
  - destruct (Z.ltb_spec 0 (lc_Remaining state)) as [Hpos|Hzero].
    2:{ exists state, s. rewrite Hpr by lia. split_and!; try done. lia. }
    destruct (batch_run (lp_BatchSize payload) s Hw Hb ltac:(lia)) as (n & s1 & E1 & Hw1 & Hn & Ho1 & Hk1).
    rewrite alone_bind, E1. rewrite (proj2 (Z.eqb_neq _ _)) by lia.
    destruct (save_run (batch_deleted n state) s1 Hw1) as (s2 & E2 & Hw2 & El2). rewrite alone_bind, E2.
    destruct (IH s2 (batch_deleted n state) true) as (state' & s3 & E3 & Hw3 & Hc3 & Ho3 & Hk3); [done| | | |done|].
    + unfold counted, batch_deleted. rewrite El2. destruct state as [tot pro prg rem]. simpl in *.
      rewrite (proj2 (Z.ltb_ge _ _)) by lia. simpl. rewrite Z.gtb_ltb.
      destruct (Z.ltb_spec n rem); simpl; rewrite ?Ho1; split_and!; lia.
    + cbn beta. rewrite El2. lia.
    + cbn beta. rewrite El2. lia.
    + exists state', s3. split_and!; try done. by rewrite Hk3, El2.
Qed.
Lemma clean_run fuel s state : working s -> 0 < lp_BatchSize payload -> state = zero_state ->
  olds s + 2 <= Z.of_nat fuel ->
  exists state' s', run_alone [] (clean Marshal state_value clickHouse task runnerID payload fuel state) s
    = ((true, Some state'), s') /\ working s' /\ lc_Processed state' = olds s /\
  s_logs s' = List.filter (fun c => negb (old target c)) (s_logs s).
Proof.
  intros Hw Hb -> Hf. destruct fuel as [|[|fuel]]; [lia|lia|].
  remember (S fuel) as fuel1 eqn:Ef. cbn [clean]. unfold CountOldLog at 1. rewrite alone_bind, alone_call. cbn [exec_stmt].
  set (st1 := syncLogCleanupStateFromRemaining _ _).
  assert (Hst1 : lc_Remaining st1 = olds s /\ lc_Processed st1 = 0 /\ lc_Total st1 = olds s) by done. destruct Hst1 as (Hr1 & Hp1 & Ht1).
  destruct (save_run st1 s Hw) as (s1 & E1 & Hw1 & El1). rewrite alone_bind, E1. rewrite Hr1.
  destruct (Z.eqb_spec (olds s) 0) as [Hz|Hz].
  { exists st1, s1. split_and!; [done|done|lia|]. rewrite El1, no_olds; [done|lia]. }
  destruct (delete_batches_run fuel1 s1 st1 false (olds s)) as (st2 & s2 & E2 & Hw2 & (Hr2 & Hp2 & Ht2) & Ho2 & Hk2);
    try (rewrite El1; lia); try done.
  { unfold counted. rewrite El1. split_and!; lia. }
  rewrite alone_bind, E2. subst fuel1. cbn [clean]. unfold CountOldLog. rewrite alone_bind, alone_call. cbn [exec_stmt].
  rewrite Ho2. set (st3 := syncLogCleanupStateFromRemaining 0 st2).
  assert (Hst3 : lc_Remaining st3 = 0 /\ lc_Processed st3 = olds s).
  { unfold st3, syncLogCleanupStateFromRemaining. destruct st2 as [tot pro prg rem]. simpl in *.
    rewrite (proj2 (Z.leb_gt _ _)) by lia. rewrite Z.gtb_ltb, (proj2 (Z.ltb_ge pro (tot - 0))) by lia. simpl.
    rewrite (proj2 (Z.ltb_ge _ _)) by lia. simpl. lia. }
  destruct Hst3 as [Hr3 Hp3]. destruct (save_run st3 s2 Hw2) as (s3 & E3 & Hw3 & El3). rewrite alone_bind, E3, Hr3.
  exists st3, s3. split_and!; [done|done|done|]. rewrite El3, <- El1, <- Hk2. symmetry. apply no_olds. lia.
Qed.

Lemma finish_run result text s : working s -> marshalSystemTaskJSON Marshal result = Ok text -> exists s' t',
  run_alone [] (FinishSystemTask Marshal (sy_TaskID task) runnerID SystemTaskStatusSucceeded result "") s = (Ok tt, s') /\
  s_tasks s' !! sy_ID task = Some t' /\ sy_Status t' = SystemTaskStatusSucceeded /\ sy_Result t' = text /\
  s_logs s' = s_logs s /\ s_locks s' !! sy_Type task = None.
Proof.
  intros Hw Em. pose proof Hw as (Hs & Hfr & (t & Ht & Hid & Hst & Hby) & (l & Hl & Htask & Hlby & Hv)).
  unfold FinishSystemTask. rewrite Em. rewrite (alone_ok _ _ s text s), alone_timestamp, alone_bind, alone_call by done.
  cbn [exec_stmt on_ok]. rewrite (proj2 (Z.eqb_neq _ _)) by (by eapply affected_found, working_runs).
  unfold ReleaseSystemTaskLock. rewrite alone_call. cbn [exec_stmt]. eexists _, _. split_and!; [done| | | |done|].
  - simpl. erewrite update_rows_lookup_some by exact Ht. by rewrite working_runs.
  - done.
  - done.
  - simpl. apply map_lookup_filter_None. right. intros l' Hl'. rewrite Hl in Hl'. injection Hl' as <-. simpl.
    by rewrite !bool_decide_eq_true_2.
Qed.
End cleanup.


(** ** Examples of system tasks *)

(** JSON values are their texts. *)
Definition sample_marshal (v : string) : result error string := Ok v.
Definition sample_payload_value (p : LogCleanupPayload) : string := pretty (lp_TargetTimestamp p).
Definition sample_state_value (st : LogCleanupState) : string :=
  pretty (lc_Total st) +:+ "/" +:+ pretty (lc_Processed st) +:+ "/" +:+ pretty (lc_Progress st) +:+ "/" +:+ pretty (lc_Remaining st).
Definition sample_result_value (r : LogCleanupResult) : string := pretty (lr_DeletedCount r).
Definition sample_progress_value (p : SystemTaskProgress) : string := pretty (sp_Progress p).
Definition sample_decode_payload (s : string) : result error LogCleanupPayload := Ok (mkLogCleanupPayload 50 2).
Definition sample_decode_state (s : string) : result error LogCleanupState := Ok zero_state.

Definition running_task : SystemTask :=
  mkSystemTask 1 "systask_a" "log_cleanup" SystemTaskStatusRunning (Some "log_cleanup") "50" "" "" "" "node-1" 90 100.
Definition lease (until : Z) : SystemTaskLock := mkSystemTaskLock "log_cleanup" "systask_a" "node-1" until 100.
Definition sample_store (now until : Z) (found_rows : bool) : Store :=
  mkStore {[1 := running_task]} {["log_cleanup" := lease until]} 2 now [10; 60; 20; 30; 70] found_rows.

Lemma sample_row now until fr id t : s_tasks (sample_store now until fr) !! id = Some t -> t = running_task.
Proof. simpl. by intros [_ <-]%lookup_singleton_Some. Qed.
Lemma sample_store_ok now until fr : store_ok (sample_store now until fr).
Proof.
  split; simpl.
  - by intros id t [<- <-]%lookup_singleton_Some.
  - by intros id t [<- <-]%lookup_singleton_Some.
  - by intros id id' t t' [<- <-]%lookup_singleton_Some [<- <-]%lookup_singleton_Some.
  - by intros id id' t t' [<- <-]%lookup_singleton_Some [<- <-]%lookup_singleton_Some.
  - by intros ty l [<- <-]%lookup_singleton_Some.
Qed.
Lemma sample_working : working running_task "node-1" (sample_store 100 160 true).
Proof.
  split_and!; [apply sample_store_ok|done|by exists running_task|]. by exists (lease 160).
Qed.



(** ** Where updates count changed rows *)

(** On MySQL the handler saves the same state twice in the last second; the second
    update changes nothing, is taken for a lost lease, and the task is never ended
    although all its rows are deleted. *)
Theorem mysql_cleanup_not_finished :
  let '(r, s') := run_alone [] (runLogCleanupTask sample_marshal sample_state_value sample_result_value
      sample_decode_payload sample_decode_state false 5 running_task "node-1") (sample_store 100 160 false) in
  r = (true, None) /\ s_logs s' = [60; 70] /\
  sy_Status <$> s_tasks s' !! 1 = Some SystemTaskStatusRunning /\ s_locks s' !! "log_cleanup" = Some (lease 160).
Proof. vm_compute. repeat split. Qed.

(** ** A task without a lease *)

#[local] Abbreviation history := (history sample_marshal sample_payload_value sample_state_value sample_result_value
  sample_progress_value sample_decode_payload sample_decode_state).
Definition sample_handlers : list (Handler string) := [mkHandler "log_cleanup" None].
Definition sample_pass (runner : string) : request (J := string) :=
  RqPass runner (fun _ => Ok "x") sample_handlers (Some 100) (Some 100).
Definition steps (i n : nat) : list (event string) := replicate n (Step i None).
(** Node 1 claims a task and stalls between the insertion of the lock and the update of
    the row; the lease expires and node 2 cleans the lock up; node 1 goes on before node
    2 looks for pending tasks. *)
Definition stalled_claim : list (event string) :=
  [Start (RqEnqueue (Ok "a") "log_cleanup" None)] ++ steps 0 2
  ++ [Start (sample_pass "node-1")] ++ steps 1 6
  ++ [Tick 61; Start (RqPass "node-2" (fun _ => Ok "y") sample_handlers (Some 161) None)] ++ steps 2 6
  ++ steps 1 9 ++ steps 2 9.
(** Long after: the handler of node 1 ends, both nodes make another full pass, and an
    administrator asks for a new task. *)
Definition long_after : list (event string) :=
  [Tick 1000; Start (RqFinish running_task "node-1" true None None)] ++ steps 3 9
  ++ [Start (RqPass "node-2" (fun _ => Ok "z") sample_handlers None None)] ++ steps 4 20
  ++ [Start (RqPass "node-1" (fun _ => Ok "w") sample_handlers None None)] ++ steps 5 20
  ++ [Start (RqEnqueue (Ok "c") "log_cleanup" None)] ++ steps 6 9.
(** The task runs for node 1 without a lease: its handler cannot end it, no stale pass
    finds it, and its type stays blocked. *)
Theorem running_without_lease_blocks_type :
  let c1 := history stalled_claim (fresh_cluster 100 [] true) in
  let c2 := history long_after c1 in
  map (fun t => (sy_TaskID t, sy_Status t, sy_LockedBy t)) (rows (cl_store c2))
  = [("systask_a", SystemTaskStatusRunning, "node-1")] /\
  map_to_list (s_locks (cl_store c1)) = [] /\ map_to_list (s_locks (cl_store c2)) = [] /\
  map sy_TaskID (claimed c2) = ["systask_a"] /\
  forallb (fun th => match th.2 with Done _ => true | Exec _ _ => false end) (cl_threads c2) = true.
Proof. vm_compute. repeat split. Qed.
