(* ===== verification/RateLimit.v ===== *)
(** * Request rate limits (src/common/rate-limit.go, src/middleware/rate-limit.go,
    src/middleware/model-rate-limit.go, src/common/limiter, src/setting/rate_limit.go)

    Lists of the times of the last requests, in the process or in Redis, and a token
    bucket that a Lua script keeps in Redis. *)

From S2P Require Import Prelude GoStd.
Import GoStrings GoText GoTime.

(** A list of Redis, newest first, and when its key expires (in milliseconds). *)
Record RedisList := mkRedisList {
  ls_samples : list Z;
  ls_expires : option Z;
}.
Record Bucket := mkBucket { bk_tokens : Z; bk_last_time : Z }.

(** What the limiters share.  The clock is in milliseconds; [li_memory] is the store of
    inMemoryRateLimiter, [None] before Init, and [li_expiration] its expiration in
    seconds.  Then the lists and the buckets of Redis, whether the limiter of
    common/limiter exists and knows the hash of its script, whether Redis has the
    script, and the outcomes of the coming calls of Redis. *)
Record Limits := mkLimits {
  li_now : Z;
  li_memory : option (gmap string (list Z));
  li_expiration : Z;
  li_lists : gmap string RedisList;
  li_buckets : gmap string Bucket;
  li_instance : bool;
  li_sha : bool;
  li_script : bool;
  li_faults : list (option error);
}.
#[export] Instance Limits_settable : Settable Limits :=
  fields_of mkLimits < li_now; li_memory; li_expiration; li_lists; li_buckets; li_instance; li_sha;
    li_script; li_faults >.
Abbreviation MR := (M Limits error).

(** time.Now().Unix() *)
Definition unix (s : Limits) : Z := li_now s / 1000.

(** How a middleware ends: the request goes on, or it is answered. *)
Inductive verdict :=
| Continue
| Stopped (status : Z) (message : string).
#[export] Instance verdict_eq_dec : EqDecision verdict.
Proof. solve_decision. Defined.
Definition StatusUnauthorized : Z := 401.
Definition StatusTooManyRequests : Z := 429.
Definition StatusInternalServerError : Z := 500.
(** c.Status(code); c.Abort() *)
Definition stop (status : Z) : MR verdict := mret (Stopped status "").

(** What the limiters read from the gin context. *)
Record LimitContext := mkLimitContext {
  lx_ClientIP : string;
  lx_id : Z;
  lx_token_group : string;
  lx_user_group : string;
}.

(** ** In the process: InMemoryRateLimiter *)

Definition Init (expirationDuration : Z) : MR unit := modify (fun s =>
  match li_memory s with
  | Some _ => s
  | None => s <| li_memory := Some ∅ |> <| li_expiration := expirationDuration |>
  end).
Definition expired (now expiration : Z) (queue : list Z) : bool :=
  match last queue with None => true | Some t => now - t >? expiration end.
(** One round of the goroutine that Init starts. *)
Definition clearExpiredItems (s : Limits) : Limits :=
  if li_expiration s <=? 0 then s
  else s <| li_memory := filter (fun kq => expired (unix s) (li_expiration s) kq.2 = false) <$> li_memory s |>.
(** The factories run Init before any request, so that the store exists.  The first of [queue] is read only when [queue] is not empty, as there its length
    is at least the limit. *)
Definition request (maxRequestNum duration now : Z) (queue : option (list Z)) : bool * list Z :=
  match queue with
  | None => (true, [now])
  | Some queue =>
      if Z.of_nat (length queue) <? maxRequestNum then (true, queue ++ [now])
      else if now - default 0 (head queue) >=? duration then (true, tail queue ++ [now])
      else (false, queue)
  end.
Definition Request (key : string) (maxRequestNum duration : Z) : MR bool := fun s =>
  if maxRequestNum <=? 0 then (Ok true, s)
  else if duration <=? 0 then (Ok false, s)
  else
    let store := default ∅ (li_memory s) in
    let '(ok, queue) := request maxRequestNum duration (unix s) (store !! key) in
    (Ok ok, if ok then s <| li_memory := Some (<[key := queue]> store) |> else s).

(** ** Commands of Redis *)

Definition redis_call : MR unit := fun s =>
  (match li_faults s with Some e :: _ => Err e | _ => Ok tt end, s <| li_faults := tail (li_faults s) |>).
Definition samples_of (now : Z) (l : option RedisList) : list Z :=
  match l with
  | Some (mkRedisList samples (Some e)) => if now <? e then samples else []
  | Some (mkRedisList samples None) => samples
  | None => []
  end.
Definition samples (key : string) (s : Limits) : list Z := samples_of (li_now s) (li_lists s !! key).
Definition LLen (key : string) : MR Z := redis_call ;; gets (fun s => Z.of_nat (length (samples key s))).
(** LIndex(key, -1), parsed; the formatted times of the list always parse, and the
    empty text of a missing element or of an error does not. *)
Definition oldest (key : string) : MR (option Z) :=
  r ← attempt redis_call;
  match r with
  | Ok _ => gets (fun s => last (samples key s))
  | Err _ => mret None
  end.
(** A list that expired is a new one without an expiry. *)
Definition put_samples (key : string) (f : list Z -> list Z) (s : Limits) : Limits :=
  let expires := match li_lists s !! key with
                 | Some (mkRedisList _ (Some e)) => if li_now s <? e then Some e else None
                 | _ => None
                 end in
  s <| li_lists := match f (samples key s) with
                   | [] => delete key (li_lists s)
                   | l => <[key := mkRedisList l expires]> (li_lists s)
                   end |>.
Definition LPush (key : string) (time : Z) : MR unit := redis_call ;; modify (put_samples key (cons time)).
(** LTrim(key, 0, stop); a negative index counts from the end. *)
Definition trimmed (stop : Z) (l : list Z) : list Z :=
  take (Z.to_nat (if stop <? 0 then Z.of_nat (length l) + stop + 1 else stop + 1)) l.
Definition LTrim (key : string) (stop : Z) : MR unit := redis_call ;; modify (put_samples key (trimmed stop)).
(** Expire, in seconds. *)
Definition set_expiry (key : string) (seconds : Z) (s : Limits) : Limits :=
  s <| li_lists := match samples key s with
                   | [] => li_lists s
                   | l => if seconds <=? 0 then delete key (li_lists s)
                          else <[key := mkRedisList l (Some (li_now s + 1000 * seconds))]> (li_lists s)
                   end |>.
Definition Expire (key : string) (seconds : Z) : MR unit := redis_call ;; modify (set_expiry key seconds).

(** ** Lists in Redis (src/middleware/rate-limit.go) *)

Definition RateLimitKeyExpirationDuration : Z := 1200.
(** int64(nowTime.Sub(oldTime).Seconds()) *)
Definition seconds_between (old now : Z) : Z := Z.quot (now - old) 1000.

Definition appendRateLimitSample (key : string) (maxRequestNum : Z) : MR unit :=
  now ← gets li_now;
  map_err (fun _ => ErrNew "record rate limit sample") (LPush key now) ;;
  map_err (fun _ => ErrNew "trim rate limit samples") (LTrim key (maxRequestNum - 1)) ;;
  map_err (fun _ => ErrNew "expire rate limit samples") (Expire key RateLimitKeyExpirationDuration).
(** [if err != nil { c.Status(500); c.Abort() }] *)
Definition or_500 (m : MR unit) (k : MR verdict) : MR verdict :=
  r ← attempt m;
  match r with Ok _ => k | Err _ => stop StatusInternalServerError end.

(** The two limiters differ in the failure of Expire for a rejected request only. *)
Definition list_limiter (strict : bool) (maxRequestNum duration : Z) (key : string) : MR verdict :=
  if maxRequestNum <=? 0 then mret Continue
  else if duration <=? 0 then stop StatusTooManyRequests
  else
    r ← attempt (LLen key);
    match r with
    | Err _ => stop StatusInternalServerError
    | Ok listLength =>
        if listLength <? maxRequestNum then or_500 (appendRateLimitSample key maxRequestNum) (mret Continue)
        else
          oldTime ← oldest key;
          match oldTime with
          | None => stop StatusInternalServerError
          | Some oldTime =>
              nowTime ← gets li_now;
              if seconds_between oldTime nowTime <? duration then
                let extend := Expire key RateLimitKeyExpirationDuration in
                or_500 (if strict then extend else ignore_err extend) (stop StatusTooManyRequests)
              else or_500 (appendRateLimitSample key maxRequestNum) (mret Continue)
          end
    end.
Definition redisRateLimiter (c : LimitContext) (maxRequestNum duration : Z) (mark : string) : MR verdict :=
  list_limiter true maxRequestNum duration ("rateLimit:" +:+ mark +:+ lx_ClientIP c).
Definition userRedisRateLimiter (c : LimitContext) (maxRequestNum duration : Z) (key : string) : MR verdict :=
  list_limiter false maxRequestNum duration key.
Definition memory_verdict (key : string) (maxRequestNum duration : Z) : MR verdict :=
  ok ← Request key maxRequestNum duration;
  if ok : bool then mret Continue else stop StatusTooManyRequests.
Definition memoryRateLimiter (c : LimitContext) (maxRequestNum duration : Z) (mark : string) : MR verdict :=
  memory_verdict (mark +:+ lx_ClientIP c) maxRequestNum duration.

(** A factory runs when the routes are set up; the function it returns runs for each
    request. *)
Definition rateLimitFactory (redis : bool) (maxRequestNum duration : Z) (mark : string) : MR (LimitContext -> MR verdict) :=
  if redis then mret (fun c => redisRateLimiter c maxRequestNum duration mark)
  else Init RateLimitKeyExpirationDuration ;; mret (fun c => memoryRateLimiter c maxRequestNum duration mark).
Definition userRateLimitFactory (redis : bool) (maxRequestNum duration : Z) (mark : string)
    : MR (LimitContext -> MR verdict) :=
  if redis then
    mret (fun c => if lx_id c =? 0 then stop StatusUnauthorized
                   else userRedisRateLimiter c maxRequestNum duration
                          ("rateLimit:" +:+ mark +:+ ":user:" +:+ Itoa (lx_id c)))
  else
    Init RateLimitKeyExpirationDuration ;;
    mret (fun c => if lx_id c =? 0 then stop StatusUnauthorized
                   else memory_verdict (mark +:+ ":user:" +:+ Itoa (lx_id c)) maxRequestNum duration).

(** The variables of src/common/constants.go. *)
Record LimitConfig := mkLimitConfig {
  RedisEnabled : bool;
  GlobalWebRateLimitEnable : bool;
  GlobalWebRateLimitNum : Z;
  GlobalWebRateLimitDuration : Z;
  GlobalApiRateLimitEnable : bool;
  GlobalApiRateLimitNum : Z;
  GlobalApiRateLimitDuration : Z;
  CriticalRateLimitEnable : bool;
  CriticalRateLimitNum : Z;
  CriticalRateLimitDuration : Z;
  SearchRateLimitEnable : bool;
  SearchRateLimitNum : Z;
  SearchRateLimitDuration : Z;
}.
Definition UploadRateLimitNum : Z := 10.
Definition UploadRateLimitDuration : Z := 60.
Definition DownloadRateLimitNum : Z := 10.
Definition DownloadRateLimitDuration : Z := 60.
Definition defNext : LimitContext -> MR verdict := fun _ => mret Continue.

Definition GlobalWebRateLimit (g : LimitConfig) : MR (LimitContext -> MR verdict) :=
  if GlobalWebRateLimitEnable g
  then rateLimitFactory (RedisEnabled g) (GlobalWebRateLimitNum g) (GlobalWebRateLimitDuration g) "GW" else mret defNext.
Definition GlobalAPIRateLimit (g : LimitConfig) : MR (LimitContext -> MR verdict) :=
  if GlobalApiRateLimitEnable g
  then rateLimitFactory (RedisEnabled g) (GlobalApiRateLimitNum g) (GlobalApiRateLimitDuration g) "GA" else mret defNext.
Definition CriticalRateLimit (g : LimitConfig) : MR (LimitContext -> MR verdict) :=
  if CriticalRateLimitEnable g
  then rateLimitFactory (RedisEnabled g) (CriticalRateLimitNum g) (CriticalRateLimitDuration g) "CT" else mret defNext.
Definition DownloadRateLimit (g : LimitConfig) : MR (LimitContext -> MR verdict) :=
  rateLimitFactory (RedisEnabled g) DownloadRateLimitNum DownloadRateLimitDuration "DW".
Definition UploadRateLimit (g : LimitConfig) : MR (LimitContext -> MR verdict) :=
  rateLimitFactory (RedisEnabled g) UploadRateLimitNum UploadRateLimitDuration "UP".
Definition SearchRateLimit (g : LimitConfig) : MR (LimitContext -> MR verdict) :=
  if negb (SearchRateLimitEnable g) then mret defNext
  else userRateLimitFactory (RedisEnabled g) (SearchRateLimitNum g) (SearchRateLimitDuration g) "SR".

(** ** The token bucket (src/common/limiter) *)

(** The Lua script on the bucket of a key, with the time of the Redis server in seconds.
    Its numbers are doubles, exact up to 2^53. *)
Definition bucket_script (requested rate capacity now : Z) (bucket : option Bucket) : bool * Bucket :=
  let tokens := match bucket with
                | None => capacity
                | Some b => Z.min capacity (bk_tokens b + (now - bk_last_time b) * rate)
                end in
  if tokens >=? requested then (true, mkBucket (tokens - requested) now) else (false, mkBucket tokens now).

(** strings.ToUpper, as far as the search for an ASCII text sees it: besides the ASCII
    letters the long s and the dotless i have ASCII capitals. *)
Definition upper_byte (c : Ascii.ascii) : Ascii.ascii :=
  let n := Ascii.nat_of_ascii c in
  if (97 <=? n)%nat && (n <=? 122)%nat then Ascii.ascii_of_nat (n - 32) else c.
Fixpoint upper_text (s : string) : string :=
  match s with
  | EmptyString => EmptyString
  | String a s' =>
      let plain := String (upper_byte a) (upper_text s') in
      match s' with
      | String b t =>
          if decide (a = Ascii.ascii_of_nat 197 /\ b = Ascii.ascii_of_nat 191) then "S" +:+ upper_text t
          else if decide (a = Ascii.ascii_of_nat 196 /\ b = Ascii.ascii_of_nat 177) then "I" +:+ upper_text t
          else plain
      | EmptyString => plain
      end
  end.
Definition isNoScriptError (err : error) : bool := Contains (upper_text (error_text err)) "NOSCRIPT".

Record Config := mkConfig { Capacity : Z; Rate : Z; Requested : Z }.
Definition WithCapacity (c : Z) (cfg : Config) : Config := mkConfig c (Rate cfg) (Requested cfg).
Definition WithRate (r : Z) (cfg : Config) : Config := mkConfig (Capacity cfg) r (Requested cfg).
Definition WithRequested (n : Z) (cfg : Config) : Config := mkConfig (Capacity cfg) (Rate cfg) n.

Definition reloadScript : MR unit :=
  redis_call ;; modify (fun s => s <| li_sha := true |> <| li_script := true |>).
Definition New : MR unit :=
  done ← gets li_instance;
  if done : bool then mret tt
  else modify (fun s => s <| li_instance := true |>) ;; ignore_err reloadScript.
Definition EvalSha (key : string) (cfg : Config) : MR bool :=
  redis_call ;;
  loaded ← gets (fun s => li_sha s && li_script s);
  if negb loaded then fail (ErrNew "NOSCRIPT No matching script. Please use EVAL.")
  else fun s =>
    let '(ok, b) := bucket_script (Requested cfg) (Rate cfg) (Capacity cfg) (unix s) (li_buckets s !! key) in
    (Ok ok, s <| li_buckets := <[key := b]> (li_buckets s) |>).
Definition Allow (key : string) (opts : list (Config -> Config)) : MR bool :=
  let config := fold_left (fun cfg opt => opt cfg) opts (mkConfig 10 1 1) in
  result ← attempt (EvalSha key config);
  match result with
  | Ok r => mret r
  | Err err =>
      if isNoScriptError err then
        map_err (fun _ => ErrNew "rate limit failed: reload script") reloadScript ;;
        map_err (fun _ => ErrNew "rate limit failed") (EvalSha key config)
      else fail (ErrNew "rate limit failed")
  end.

(** ** Settings (src/setting/rate_limit.go) *)

Record RateLimitSettings := mkRateLimitSettings {
  ModelRequestRateLimitEnabled : bool;
  ModelRequestRateLimitDurationMinutes : Z;
  ModelRequestRateLimitCount : Z;
  ModelRequestRateLimitSuccessCount : Z;
  ModelRequestRateLimitGroup : gmap string (Z * Z);
  ModelRequestRateLimitExemptUserIDs : gset Z;
}.
#[export] Instance RateLimitSettings_settable : Settable RateLimitSettings :=
  fields_of mkRateLimitSettings < ModelRequestRateLimitEnabled; ModelRequestRateLimitDurationMinutes;
    ModelRequestRateLimitCount; ModelRequestRateLimitSuccessCount; ModelRequestRateLimitGroup;
    ModelRequestRateLimitExemptUserIDs >.

(** strings.FieldsFunc with separators of a list. *)
Fixpoint fields_fuel (fuel : nat) (seps : list string) (word s : string) : list string :=
  let word_and rest := if decide (word = "") then rest else word :: rest in
  match fuel, s with
  | S fuel, String c t =>
      match drop_one seps s with
      | Some s' => word_and (fields_fuel fuel seps "" s')
      | None => fields_fuel fuel seps (word +:+ String c "") t
      end
  | _, _ => word_and []
  end.
Definition Fields (seps : list string) (s : string) : list string := fields_fuel (String.length s) seps "" s.

Fixpoint parse_ids (tokens : list string) (ids : gset Z) : result error (gset Z) :=
  match tokens with
  | [] => Ok ids
  | token :: tokens =>
      match Atoi (TrimSpace token) with
      | None => Err (ErrNew ("invalid user ID " +:+ token))
      | Some id => parse_ids tokens (if id >? 0 then ids ∪ {[id]} else ids)
      end
  end.
Definition ParseModelRequestRateLimitExemptUserIDs (raw : string) : result error (gset Z) :=
  parse_ids (Fields ("," :: spaces) raw) ∅.
Definition UpdateModelRequestRateLimitExemptUserIDs (raw : string) (s : RateLimitSettings)
    : result error unit * RateLimitSettings :=
  match ParseModelRequestRateLimitExemptUserIDs raw with
  | Err e => (Err e, s)
  | Ok ids => (Ok tt, s <| ModelRequestRateLimitExemptUserIDs := ids |>)
  end.
Definition IsModelRequestRateLimitExemptUser (s : RateLimitSettings) (userID : Z) : bool :=
  if userID <=? 0 then false else bool_decide (userID ∈ ModelRequestRateLimitExemptUserIDs s).
(** A nil map is empty. *)
Definition GetGroupRateLimit (s : RateLimitSettings) (group : string) : option (Z * Z) :=
  ModelRequestRateLimitGroup s !! group.

Section group_json.
(** encoding/json on a map of pairs. *)
Context (Unmarshal : string -> result error (gmap string (Z * Z))).
Definition UpdateModelRequestRateLimitGroupByJSONString (jsonStr : string) (s : RateLimitSettings)
    : result error unit * RateLimitSettings :=
  match Unmarshal jsonStr with
  | Err e => (Err e, s)
  | Ok groups => (Ok tt, s <| ModelRequestRateLimitGroup := groups |>)
  end.
Definition MaxInt32 : Z := 2147483647.
Definition bad_limits (limits : Z * Z) : bool :=
  (limits.1 <? 0) || (limits.2 <? 1) || (limits.1 >? MaxInt32) || (limits.2 >? MaxInt32).
(** The group that the error names is the first bad one in the order of the map. *)
Definition CheckModelRequestRateLimitGroup (jsonStr : string) : result error unit :=
  match Unmarshal jsonStr with
  | Err e => Err e
  | Ok groups =>
      match List.filter (fun gl => bad_limits gl.2) (map_to_list groups) with
      | [] => Ok tt
      | (group, _) :: _ => Err (ErrNew ("group " +:+ group +:+ " has bad rate limit values"))
      end
  end.
End group_json.

(** ** The limit of model requests (src/middleware/model-rate-limit.go) *)

Definition checkRedisRateLimit (settings : RateLimitSettings) (key : string) (maxCount duration : Z) : MR bool :=
  if maxCount =? 0 then mret true
  else
    length ← LLen key;
    if length <? maxCount then mret true
    else
      oldTime ← oldest key;
      match oldTime with
      | None => fail (ErrNew "cannot parse time")
      | Some oldTime =>
          nowTime ← gets li_now;
          if seconds_between oldTime nowTime <? duration then
            ignore_err (Expire key (ModelRequestRateLimitDurationMinutes settings * 60)) ;; mret false
          else mret true
      end.
Definition recordRedisRequest (settings : RateLimitSettings) (key : string) (maxCount : Z) : MR unit :=
  if maxCount =? 0 then mret tt
  else
    now ← gets li_now;
    ignore_err (LPush key now) ;;
    ignore_err (LTrim key (maxCount - 1)) ;;
    ignore_err (Expire key (ModelRequestRateLimitDurationMinutes settings * 60)).

Definition success_message (minutes successMaxCount : Z) : string :=
  "您已达到请求数限制：" +:+ Itoa minutes +:+ "分钟内最多请求" +:+ Itoa successMaxCount +:+ "次".
Definition total_message (minutes totalMaxCount : Z) : string :=
  "您已达到总请求数限制：" +:+ Itoa minutes +:+ "分钟内最多请求" +:+ Itoa totalMaxCount
  +:+ "次，包括失败次数，请检查您的请求是否正确".

(** [next]: the handlers behind the limiter, with the status they write. *)
Definition redisRateLimitHandler (settings : RateLimitSettings) (duration totalMaxCount successMaxCount : Z)
    (c : LimitContext) (next : MR Z) : MR verdict :=
  let userId := Itoa (lx_id c) in
  let minutes := ModelRequestRateLimitDurationMinutes settings in
  let successKey := "rateLimit:MRRLS:" +:+ userId in
  let proceed :=
    status ← next;
    (if status <? 400 then recordRedisRequest settings successKey successMaxCount else mret tt) ;;
    mret Continue in
  allowed ← attempt (checkRedisRateLimit settings successKey successMaxCount duration);
  match allowed with
  | Err _ => mret (Stopped StatusInternalServerError "rate_limit_check_failed")
  | Ok false => mret (Stopped StatusTooManyRequests (success_message minutes successMaxCount))
  | Ok true =>
      if totalMaxCount >? 0 then
        New ;;
        allowed ← attempt (Allow ("rateLimit:" +:+ userId)
                     [WithCapacity (wrap64 (totalMaxCount * duration)); WithRate totalMaxCount; WithRequested duration]);
        match allowed with
        | Err _ => mret (Stopped StatusInternalServerError "rate_limit_check_failed")
        | Ok false => mret (Stopped StatusTooManyRequests (total_message minutes totalMaxCount))
        | Ok true => proceed
        end
      else proceed
  end.
Definition memoryRateLimitHandler (settings : RateLimitSettings) (duration totalMaxCount successMaxCount : Z)
    (c : LimitContext) (next : MR Z) : MR verdict :=
  Init (ModelRequestRateLimitDurationMinutes settings * 60) ;;
  let userId := Itoa (lx_id c) in
  let totalKey := "MRRL" +:+ userId in
  let successKey := "MRRLS" +:+ userId in
  total ← (if totalMaxCount >? 0 then Request totalKey totalMaxCount duration else mret true);
  if negb total then stop StatusTooManyRequests
  else
    checked ← Request (successKey +:+ "_check") successMaxCount duration;
    if negb checked then stop StatusTooManyRequests
    else
      status ← next;
      (if status <? 400 then _ ← Request successKey successMaxCount duration; mret tt else mret tt) ;;
      mret Continue.

Definition ModelRequestRateLimit (redis : bool) (settings : RateLimitSettings) (c : LimitContext) (next : MR Z) : MR verdict :=
  if negb (ModelRequestRateLimitEnabled settings) then _ ← next; mret Continue
  else if IsModelRequestRateLimitExemptUser settings (lx_id c) then _ ← next; mret Continue
  else
    let duration := ModelRequestRateLimitDurationMinutes settings * 60 in
    let group := if decide (lx_token_group c = "") then lx_user_group c else lx_token_group c in
    let '(totalMaxCount, successMaxCount) :=
      default (ModelRequestRateLimitCount settings, ModelRequestRateLimitSuccessCount settings)
        (GetGroupRateLimit settings group) in
    (if redis then redisRateLimitHandler else memoryRateLimitHandler) settings duration totalMaxCount successMaxCount c next.
