(* ===== verification/RateLimitProofs.v ===== *)
(** * Facts about the request rate limits

    Both list limiters answer like a reference limiter that remembers every request it
    let through; the token bucket has its bound.  Concrete runs at the end. *)

From S2P Require Import Prelude GoStd RateLimit.
Import GoStrings GoText GoTime.

(** ** The reference: a sliding window over all granted requests *)

Definition in_window (duration now : Z) (granted : list Z) : list Z :=
  List.filter (fun t => now - duration <? t) granted.
Definition admits (max duration now : Z) (granted : list Z) : bool :=
  Z.of_nat (length (in_window duration now granted)) <? max.
Fixpoint sliding (max duration : Z) (granted times : list Z) : list bool :=
  match times with
  | [] => []
  | now :: times =>
      let ok := admits max duration now granted in
      ok :: sliding max duration (if ok then now :: granted else granted) times
  end.

(** [granted] is in reverse order of time, up to [now]. *)
Definition history (now : Z) (granted : list Z) : Prop :=
  StronglySorted Z.ge granted /\ Forall (fun t => t <= now) granted.

Lemma history_nil now : history now [].
Proof. split; constructor. Qed.
Lemma history_later now now' granted : now <= now' -> history now granted -> history now' granted.
Proof. intros H [Hs Hf]. split; [done|]. eapply Forall_impl; [exact Hf|]. simpl. lia. Qed.
Lemma history_cons now granted : history now granted -> history now (now :: granted).
Proof.
  intros [Hs Hf]. split; constructor; auto with lia.
  eapply Forall_impl; [exact Hf|]. simpl. lia.
Qed.

Lemma window_old duration now granted : Forall (fun t => t <= now - duration) granted ->
  in_window duration now granted = [].
Proof. induction 1 as [|t l Ht _ IH]; [done|]. simpl. rewrite (proj2 (Z.ltb_ge _ _)) by lia. exact IH. Qed.
Lemma window_length duration now granted : (length (in_window duration now granted) <= length granted)%nat.
Proof. apply filter_length_le. Qed.
Lemma window_all duration now granted : Forall (fun t => now - duration < t) granted ->
  in_window duration now granted = granted.
Proof. induction 1 as [|t l Ht _ IH]; [done|]. simpl. rewrite (proj2 (Z.ltb_lt _ _)) by lia. by f_equal. Qed.
Lemma window_app duration now l l' :
  in_window duration now (l ++ l') = in_window duration now l ++ in_window duration now l'.
Proof. apply List.filter_app. Qed.

Lemma sorted_app_ge l l' : StronglySorted Z.ge (l ++ l') -> forall x y, x ∈ l -> y ∈ l' -> y <= x.
Proof.
  induction l as [|a l IH]; intros Hs x y Hx Hy; [by apply elem_of_nil in Hx|].
  apply StronglySorted_inv in Hs as [Hs Ha]. apply elem_of_cons in Hx as [->|Hx]; [|by eapply IH].
  rewrite Forall_forall in Ha. apply Z.ge_le, Ha, elem_of_app. by right.
Qed.

(** A limiter need only remember the newest [max] of them, and none that are out of
    the window. *)
Definition covers (max : nat) (duration now : Z) (l granted : list Z) : Prop :=
  exists k, l = take k granted /\ (k <= max)%nat
            /\ (k = max \/ Forall (fun t => t <= now - duration) (drop k granted)).

Section covers.
Context (max : nat) (duration : Z).

Lemma covers_later now now' l granted : now <= now' -> covers max duration now l granted -> covers max duration now' l granted.
Proof.
  intros Hn (k & -> & Hk & H). exists k. split_and!; [done..|]. destruct H as [H|H]; [by left|right].
  eapply Forall_impl; [exact H|]. simpl. lia.
Qed.
Lemma covers_length now l granted : covers max duration now l granted -> (length l <= max)%nat.
Proof. intros (k & -> & Hk & _). rewrite length_take. lia. Qed.
Lemma covers_forget now l granted : (0 < max)%nat -> history now granted -> covers max duration now l granted ->
  match head l with Some t => t <= now - duration | None => True end -> covers max duration now [] granted.
Proof.
  intros Hmax [Hs _] (k & -> & Hk & H) Hh. exists 0%nat. split_and!; [done|lia|right]. rewrite drop_0.
  destruct granted as [|g granted]; [done|]. destruct k as [|k]; [by destruct H; [lia|]|]. simpl in Hh.
  apply StronglySorted_inv in Hs as [_ Hg]. constructor; [done|]. eapply Forall_impl; [exact Hg|]. simpl. lia.
Qed.
Lemma covers_push now l granted : (0 < max)%nat -> covers max duration now l granted ->
  covers max duration now (take max (now :: l)) (now :: granted).
Proof.
  intros Hmax (k & -> & Hk & H). exists (Nat.min max (S k)). split_and!.
  - destruct max as [|m]; [lia|]. simpl. f_equal. by rewrite take_take.
  - lia.
  - destruct H as [->|H]; [left; lia|].
    destruct (decide (k = max)) as [->|]; [left; lia|right]. by replace (Nat.min max (S k)) with (S k) by lia.
Qed.

(** Such a memory decides like the reference. *)
Lemma covers_admits now l granted : (0 < max)%nat -> history now granted -> covers max duration now l granted ->
  admits (Z.of_nat max) duration now granted
  = (Z.of_nat (length l) <? Z.of_nat max) || match last l with Some t => duration <=? now - t | None => true end.
Proof.
  intros Hmax [Hs _] (k & Hl & Hk & H). unfold admits.
  rewrite <- (take_drop k granted), <- Hl in Hs |- *. rewrite window_app, length_app.
  pose proof (window_length duration now l) as Hw.
  destruct (decide (length l < max)%nat) as [Hlt|Hge].
  - rewrite (proj2 (Z.ltb_lt (Z.of_nat (length l)) _)) by lia. simpl. apply Z.ltb_lt.
    assert (E : in_window duration now (drop k granted) = []).
    { destruct H as [->|H]; [|by apply window_old]. rewrite Hl, length_take in Hlt.
      by rewrite drop_ge by lia. }
    rewrite E. simpl. lia.
  - rewrite (proj2 (Z.ltb_ge (Z.of_nat (length l)) _)) by lia. simpl.
    destruct (last l) as [t|] eqn:Et; [|apply last_None in Et; rewrite Et in Hge; simpl in Hge; lia].
    apply last_Some in Et as [l' El]. rewrite El in *. rewrite length_app in *. simpl in *.
    destruct (Z.leb_spec duration (now - t)) as [Ho|Hn].
    + apply Z.ltb_lt. rewrite (window_old _ _ (drop k granted)).
      * rewrite window_app, length_app. simpl. rewrite (proj2 (Z.ltb_ge _ _)) by lia. simpl.
        pose proof (window_length duration now l').
        apply (f_equal length) in Hl. rewrite length_app, length_take in Hl. simpl in Hl. lia.
      * apply Forall_forall. intros y Hy. assert (y <= t); [|lia].
        apply (sorted_app_ge _ _ Hs); [|done]. apply elem_of_app. right. by apply list_elem_of_singleton.
    + apply Z.ltb_ge. rewrite (window_all duration now (l' ++ [t])), length_app; [simpl; lia|].
      apply Forall_app. split; [|by constructor; [lia|]].
      apply Forall_forall. intros x Hx. assert (t <= x); [|lia]. rewrite <- app_assoc in Hs.
      apply (sorted_app_ge _ _ Hs); [done|]. apply elem_of_app. left. by apply list_elem_of_singleton.
Qed.
End covers.

(** The requests that got through, oldest first. *)
Fixpoint granted (times : list Z) (answers : list bool) : list Z :=
  match times, answers with
  | t :: times, ok :: answers => (if ok : bool then [t] else []) ++ granted times answers
  | _, _ => []
  end.
Definition between (a b : Z) (times : list Z) : list Z := List.filter (fun t => (a <=? t) && (t <? b)) times.

Lemma between_app a b l l' : between a b (l ++ l') = between a b l ++ between a b l'.
Proof. apply List.filter_app. Qed.
Lemma between_window a duration now l : history now l -> a <= now < a + duration ->
  (length (between a (a + duration) l) <= length (in_window duration now l))%nat.
Proof.
  intros [_ Hf] Ha. induction Hf as [|t l Ht _ IH]; [done|]. simpl.
  destruct (Z.ltb_spec (now - duration) t).
  - destruct (_ && _); simpl; lia.
  - rewrite (proj2 (Z.leb_gt a t)) by lia. exact IH.
Qed.
Lemma between_none a b l : Forall (fun t => b <= t) l -> between a b l = [].
Proof. induction 1 as [|t l Ht _ IH]; [done|]. simpl. rewrite (proj2 (Z.ltb_ge t b)), andb_false_r by lia. exact IH. Qed.
Lemma granted_after b times answers : Forall (fun t => b <= t) times -> Forall (fun t => b <= t) (granted times answers).
Proof.
  intros H. revert answers. induction H as [|t times Ht _ IH]; intros [|[] answers]; simpl; try constructor; auto.
  all: apply IH.
Qed.

(** No window of the reference holds more than the limit. *)
Lemma sliding_bound max duration past times a :
  0 <= max -> StronglySorted Z.le times -> Forall (fun t => history t past) times ->
  Z.of_nat (length (between a (a + duration) past)) <= max ->
  Z.of_nat (length (between a (a + duration) (past ++ granted times (sliding max duration past times)))) <= max.
Proof.
  intros Hm Hs. revert past. induction Hs as [|now times Hs IH Hnow]; intros past Hh Hp; simpl.
  { by rewrite app_nil_r. }
  inversion Hh as [|? ? Hn Hh']; subst.
  destruct (admits max duration now past) eqn:E.
  - assert (Hswap : forall rest, length (between a (a + duration) (past ++ [now] ++ rest))
                    = length (between a (a + duration) ((now :: past) ++ rest))).
    { intros rest. change (now :: past) with ([now] ++ past). rewrite !between_app, !length_app. lia. }
    rewrite Hswap. clear Hswap. destruct (Z.lt_ge_cases now (a + duration)) as [Hl|Hl].
    + apply IH.
      * rewrite Forall_forall in Hh', Hnow |- *. intros t Ht. specialize (Hh' t Ht) as [Hs' Hf]. specialize (Hnow t Ht).
        destruct Hn as [_ Hn]. split; constructor; auto; try lia. eapply Forall_impl; [exact Hn|]. simpl. lia.
      * destruct (Z.lt_ge_cases now a) as [Hb|Hb].
        { simpl. rewrite (proj2 (Z.leb_gt a now)) by lia. exact Hp. }
        pose proof (between_window a duration now past Hn ltac:(lia)). unfold admits in E. apply Z.ltb_lt in E.
        simpl. destruct (_ && _); simpl; lia.
    + change (now :: past) with ([now] ++ past). rewrite <- app_assoc, !between_app.
      rewrite (between_none _ _ [now]) by (by constructor). 
      rewrite (between_none _ _ (granted _ _)); [by rewrite app_nil_r|].
      apply granted_after. eapply Forall_impl; [exact Hnow|]. simpl. lia.
  - apply IH; [done|done].
Qed.

Lemma sliding_windows_bounded max duration times a : 0 <= max -> StronglySorted Z.le times ->
  Z.of_nat (length (between a (a + duration) (granted times (sliding max duration [] times)))) <= max.
Proof.
  intros Hm Hs. apply (sliding_bound max duration [] times a Hm Hs); [|done].
  apply Forall_forall. intros t _. apply history_nil.
Qed.
Lemma StronglySorted_fmap_le (f : Z -> Z) l : (forall x y, x <= y -> f x <= f y) ->
  StronglySorted Z.le l -> StronglySorted Z.le (f <$> l).
Proof.
  intros Hf. induction 1 as [|x l Hs IH Hx]; [constructor|]. simpl. constructor; [done|].
  rewrite Forall_fmap. eapply Forall_impl; [exact Hx|]. simpl. auto.
Qed.

(** ** The limiters on a history of requests *)

(** A request to a limiter with its limit and its window in seconds, some milliseconds
    that pass, and a round of the cleaner. *)
Inductive event := Ask (key : string) (max duration : Z) | Wait (ms : nat) | Sweep.

(** The times and the answers of the requests with the key [k]. *)
Fixpoint times (k : string) (evs : list event) (now : Z) : list Z :=
  match evs with
  | [] => []
  | Ask key _ _ :: evs => (if decide (key = k) then [now] else []) ++ times k evs now
  | Wait ms :: evs => times k evs (now + Z.of_nat ms)
  | Sweep :: evs => times k evs now
  end.
Fixpoint answers (ask : string -> Z -> Z -> MR bool) (k : string) (evs : list event) (s : Limits) : list bool :=
  match evs with
  | [] => []
  | Ask key max duration :: evs =>
      let '(r, s') := ask key max duration s in
      (if decide (key = k) then [match r with Ok ok => ok | Err _ => false end] else []) ++ answers ask k evs s'
  | Wait ms :: evs => answers ask k evs (s <| li_now := li_now s + Z.of_nat ms |>)
  | Sweep :: evs => answers ask k evs (clearExpiredItems s)
  end.
Definition passes (v : verdict) : bool := bool_decide (v = Continue).
Definition ask_redis (strict : bool) (key : string) (max duration : Z) : MR bool :=
  v ← list_limiter strict max duration key; mret (passes v).
(** All requests of [k] have this limit. *)
Definition same_limit (k : string) (max duration : Z) (ev : event) : Prop :=
  match ev with Ask key m d => key = k -> m = max /\ d = duration | _ => True end.
Definition fresh_limits (now : Z) : Limits :=
  mkLimits now (Some ∅) RateLimitKeyExpirationDuration ∅ ∅ false false false [].

Lemma times_later k evs now : Forall (fun t => now <= t) (times k evs now).
Proof.
  revert now. induction evs as [|[key m d|ms|] evs IH]; intros now; simpl; [constructor| | |apply IH].
  - destruct (decide _); simpl; [constructor; [lia|]|]; apply IH.
  - eapply Forall_impl; [apply IH|]. simpl. lia.
Qed.
Lemma times_sorted k evs now : StronglySorted Z.le (times k evs now).
Proof.
  revert now. induction evs as [|[key m d|ms|] evs IH]; intros now; simpl; [constructor| |apply IH..].
  destruct (decide _); simpl; [constructor; [apply IH|apply times_later]|apply IH].
Qed.

(** The answers of a reference that decides from a state of its own. *)
Fixpoint reference {X} (step : Z -> X -> bool * X) (x : X) (times : list Z) : list bool :=
  match times with
  | [] => []
  | now :: times => let '(ok, x) := step now x in ok :: reference step x times
  end.
Definition sliding_step (max duration now : Z) (granted : list Z) : bool * list Z :=
  let ok := admits max duration now granted in (ok, if ok then now :: granted else granted).
Lemma sliding_reference max duration past times : sliding max duration past times = reference (sliding_step max duration) past times.
Proof. revert past. induction times as [|now times IH]; intros past; simpl; [done|]. by rewrite IH. Qed.

(** A limiter that keeps [inv] between its state and that of the reference. *)
Section simulation.
Context {X : Type} (step : Z -> X -> bool * X).
Context (ask : string -> Z -> Z -> MR bool) (k : string) (max duration : Z) (clock : Z -> Z).
Context (inv : X -> Limits -> Prop).
Hypothesis ask_same : forall x s, inv x s -> exists s',
  ask k max duration s = (Ok (step (clock (li_now s)) x).1, s') /\ li_now s' = li_now s
  /\ inv (step (clock (li_now s)) x).2 s'.
Hypothesis ask_other : forall x s key m d, inv x s -> key <> k ->
  inv x (ask key m d s).2 /\ li_now (ask key m d s).2 = li_now s.
Hypothesis later : forall x s ms, inv x s -> inv x (s <| li_now := li_now s + Z.of_nat ms |>).
Hypothesis swept : forall x s, inv x s -> inv x (clearExpiredItems s).

Lemma answers_reference x evs s : inv x s -> Forall (same_limit k max duration) evs ->
  answers ask k evs s = reference step x (clock <$> times k evs (li_now s)).
Proof.
  intros Hi He. revert x s Hi. induction He as [|[key m d|ms|] evs Hev _ IH]; intros x s Hi; simpl; [done| | |].
  - destruct (decide (key = k)) as [->|Hk].
    + destruct (Hev eq_refl) as [-> ->]. destruct (ask_same x s Hi) as (s' & E & En & Hi').
      rewrite E. simpl. destruct (step _ x) as [ok x']. simpl in *. f_equal. by rewrite (IH _ s' Hi'), En.
    + destruct (ask_other x s key m d Hi Hk) as [Hi' En]. destruct (ask key m d s) as [r s'].
      simpl in *. by rewrite (IH _ s' Hi'), En.
  - apply (IH x). by apply later.
  - assert (li_now (clearExpiredItems s) = li_now s) as <- by (unfold clearExpiredItems; by destruct (_ <=? 0)).
    apply IH. by apply swept.
Qed.
End simulation.

Section limiters.
Context (k : string) (max duration : Z) (Hmax : 0 < max) (Hd : 0 < duration).
Let n : nat := Z.to_nat max.

(** *** In the process *)

Definition queue (s : Limits) : list Z := default [] (default ∅ (li_memory s) !! k).
Definition memory_inv (G : list Z) (s : Limits) : Prop :=
  li_memory s <> None /\ duration <= li_expiration s /\ history (unix s) G
  /\ covers n duration (unix s) (reverse (queue s)) G.

Lemma covers_nil now G : Forall (fun t => t <= now - duration) G -> covers n duration now [] G.
Proof. intros H. exists 0%nat. split_and!; [done|lia|right]. by rewrite drop_0. Qed.

Lemma take_reverse_full now (q : list Z) : (length q <= n)%nat ->
  reverse (take n (now :: reverse q)) = (if Z.of_nat (length q) <? max then q else tail q) ++ [now].
Proof.
  intros Hq. assert (Hn : Z.of_nat n = max) by lia. destruct n as [|m] eqn:En; [lia|]. simpl. rewrite reverse_cons.
  f_equal. destruct (Z.ltb_spec (Z.of_nat (length q)) max) as [Hl|Hl].
  - rewrite take_ge by (rewrite length_reverse; lia). apply reverse_involutive.
  - destruct q as [|a q]; [simpl in Hl; lia|]. simpl in *. rewrite reverse_cons, take_app_le by (rewrite length_reverse; lia).
    rewrite take_ge by (rewrite length_reverse; lia). apply reverse_involutive.
Qed.
Lemma request_spec now q G : history now G -> covers n duration now (reverse (default [] q)) G ->
  let ok := admits max duration now G in
  (request max duration now q).1 = ok
  /\ covers n duration now (reverse (if ok then (request max duration now q).2 else default [] q)) (if ok then now :: G else G).
Proof.
  intros Hh Hc ok. assert (Hn : Z.of_nat n = max) by lia. assert (Hn' : (0 < n)%nat) by lia.
  pose proof (covers_length n duration now _ _ Hc) as Hq. rewrite length_reverse in Hq.
  assert (E : ok = (request max duration now q).1 /\ (ok = true -> (request max duration now q).2
              = reverse (take n (now :: reverse (default [] q))))).
  { unfold ok. pose proof (covers_admits n duration now _ G Hn' Hh Hc) as Ha.
    rewrite length_reverse, last_reverse, Hn in Ha. rewrite Ha. clear Ha ok.
    rewrite take_reverse_full by done. destruct q as [q|]; simpl; [|by destruct (_ <? max)].
    destruct (Z.ltb_spec (Z.of_nat (length q)) max) as [Hl|Hl]; [done|]. destruct q as [|a q]; [simpl in Hl; lia|]. simpl.
    rewrite <- Z.geb_leb. by destruct (_ >=? _). }
  destruct E as [<- E]. split; [done|]. destruct ok; [|done].
  rewrite E, reverse_involutive by done. by apply covers_push; [lia|].
Qed.

Lemma memory_same G s : memory_inv G s -> exists s',
  Request k max duration s = (Ok (admits max duration (unix s) G), s') /\ li_now s' = li_now s
  /\ memory_inv (if admits max duration (unix s) G then unix s :: G else G) s'.
Proof.
  intros (Hm & He & Hh & Hc). unfold Request.
  rewrite (proj2 (Z.leb_gt max 0)), (proj2 (Z.leb_gt duration 0)) by lia. unfold queue in Hc.
  destruct (request_spec (unix s) _ G Hh Hc) as [E Hc']. destruct (request _ _ _ _) as [ok q] eqn:Eq. simpl in *.
  rewrite <- E in *. eexists. split; [done|]. destruct ok; simpl.
  - split; [done|]. split_and!; try done; [by apply history_cons|]. unfold queue. simpl. by rewrite lookup_insert_eq.
  - done.
Qed.
Lemma memory_other G s key m d : memory_inv G s -> key <> k ->
  memory_inv G (Request key m d s).2 /\ li_now (Request key m d s).2 = li_now s.
Proof.
  intros (Hm & He & Hh & Hc) Hk. unfold Request. destruct (_ <=? 0); [done|]. destruct (_ <=? 0); [done|].
  destruct (request _ _ _ _) as [[] q]; simpl; [|done]. split; [|done]. split_and!; try done.
  unfold queue. simpl. by rewrite lookup_insert_ne.
Qed.
Lemma memory_later G s ms : memory_inv G s -> memory_inv G (s <| li_now := li_now s + Z.of_nat ms |>).
Proof.
  intros (Hm & He & Hh & Hc). assert (unix s <= unix (s <| li_now := li_now s + Z.of_nat ms |>)).
  { apply Z.div_le_mono; simpl; lia. }
  split_and!; [done|done|by apply (history_later (unix s))|by apply (covers_later n duration (unix s))].
Qed.
Lemma memory_swept G s : memory_inv G s -> memory_inv G (clearExpiredItems s).
Proof.
  intros (Hm & He & Hh & Hc). unfold clearExpiredItems. destruct (Z.leb_spec (li_expiration s) 0); [done|].
  split_and!; simpl; [by destruct (li_memory s)|done|done|]. unfold queue in *. simpl. unfold unix at 1. simpl.
  destruct (li_memory s) as [m|]; [|done]. simpl in *. rewrite map_lookup_filter. simpl.
  destruct (m !! k) as [q|] eqn:Eq; simpl in *; [|done]. unfold guard, expired. 
  destruct (last q) as [t|] eqn:El.
  - rewrite Z.gtb_ltb. destruct (Z.ltb_spec (li_expiration s) (unix s - t)); simpl; [|done].
    eapply covers_forget; [lia|exact Hh|exact Hc|]. rewrite head_reverse, El. unfold unix in *. lia.
  - apply last_None in El as ->. exact Hc.
Qed.

(** *** In Redis *)

Let window : Z := 1000 * duration.
Definition redis_inv (G : list Z) (s : Limits) : Prop :=
  li_faults s = [] /\ history (li_now s) G
  /\ match li_lists s !! k with
     | None => covers n window (li_now s) [] G
     | Some (mkRedisList l (Some e)) => covers n window (li_now s) l G /\ Forall (fun t => t <= e - window) G
     | Some (mkRedisList _ None) => False
     end.

Lemma redis_samples G s : redis_inv G s -> covers n window (li_now s) (samples k s) G.
Proof.
  intros (_ & _ & H). unfold samples. destruct (li_lists s !! k) as [[l [e|]]|]; simpl; [|done..].
  destruct H as [Hc Hf]. destruct (Z.ltb_spec (li_now s) e); [done|]. exists 0%nat. split_and!; [done|lia|right].
  rewrite drop_0. eapply Forall_impl; [exact Hf|]. simpl. lia.
Qed.

Lemma redis_call_ok s : li_faults s = [] -> redis_call s = (Ok tt, s).
Proof. destruct s. simpl. by intros ->. Qed.
Lemma samples_after_put f s : samples k (put_samples k f s) = f (samples k s).
Proof.
  unfold samples at 1. unfold put_samples. simpl. destruct (f (samples k s)) as [|a l] eqn:E.
  - by rewrite lookup_delete_eq.
  - rewrite lookup_insert_eq. destruct (li_lists s !! k) as [[l' [e|]]|]; simpl; try done.
    destruct (Z.ltb_spec (li_now s) e) as [H|H]; [|done]. simpl. by rewrite (proj2 (Z.ltb_lt _ _) H).
Qed.
Lemma set_expiry_lookup s a l seconds : samples k s = a :: l -> 0 < seconds ->
  li_lists (set_expiry k seconds s) !! k = Some (mkRedisList (a :: l) (Some (li_now s + 1000 * seconds))).
Proof.
  intros E H. unfold set_expiry. simpl. rewrite E, (proj2 (Z.leb_gt seconds 0)) by lia. by rewrite lookup_insert_eq.
Qed.
Lemma trimmed_max l : trimmed (max - 1) l = take n l.
Proof. unfold trimmed. rewrite (proj2 (Z.ltb_ge (max - 1) 0)) by lia. f_equal. lia. Qed.
Lemma append_run s : li_faults s = [] -> exists s',
  appendRateLimitSample k max s = (Ok tt, s') /\ li_now s' = li_now s /\ li_faults s' = []
  /\ li_lists s' !! k = Some (mkRedisList (take n (li_now s :: samples k s))
                                (Some (li_now s + 1000 * RateLimitKeyExpirationDuration))).
Proof.
  intros Hf. unfold appendRateLimitSample. rewrite run_bind. cbn [gets]. unfold LPush, LTrim, Expire.
  eexists. split.
  - rewrite run_bind. unfold map_err at 1. rewrite run_bind, redis_call_ok by done. cbn [modify].
    rewrite run_bind. unfold map_err at 1. rewrite run_bind, redis_call_ok by done. cbn [modify].
    unfold map_err at 1. rewrite run_bind, redis_call_ok by done. cbn [modify]. done.
  - split_and!; [done|done|].
    assert (E : samples k (put_samples k (trimmed (max - 1)) (put_samples k (cons (li_now s)) s)) = take n (li_now s :: samples k s)).
    { by rewrite !samples_after_put, trimmed_max. }
    destruct n as [|m] eqn:En; [lia|]. cbn [firstn] in E |- *. rewrite (set_expiry_lookup _ _ _ _ E); done.
Qed.

Lemma seconds_window old now : old <= now -> (seconds_between old now <? duration) = negb (window <=? now - old).
Proof.
  intros H. unfold seconds_between, window. pose proof (Z.quot_rem' (now - old) 1000).
  pose proof (Z.rem_bound_pos (now - old) 1000 ltac:(lia) ltac:(lia)).
  destruct (Z.ltb_spec (Z.quot (now - old) 1000) duration); destruct (Z.leb_spec (1000 * duration) (now - old)); lia || done.
Qed.
Lemma covers_past G now l t : history now G -> covers n window now l G -> last l = Some t -> t <= now.
Proof.
  intros [_ Hf] (j & -> & _) E. apply last_Some_elem_of in E. rewrite Forall_forall in Hf. apply Hf.
  by eapply elem_of_take in E as (i & E & _); apply list_elem_of_lookup_2 in E.
Qed.

Lemma redis_granted G s s' : duration <= RateLimitKeyExpirationDuration -> redis_inv G s ->
  li_faults s' = [] -> li_now s' = li_now s ->
  li_lists s' !! k = Some (mkRedisList (take n (li_now s :: samples k s)) (Some (li_now s + 1000 * RateLimitKeyExpirationDuration))) ->
  redis_inv (li_now s :: G) s'.
Proof.
  intros Hr Hi Hf En El. pose proof (redis_samples G s Hi) as Hc. destruct Hi as (_ & Hh & _).
  split_and!; [done|rewrite En; by apply history_cons|]. rewrite El, En. split; [apply covers_push; [lia|done]|].
  destruct (history_cons _ _ Hh) as [_ Hall]. eapply Forall_impl; [exact Hall|]. unfold window. simpl. lia.
Qed.
Lemma redis_denied G s s' a l : duration <= RateLimitKeyExpirationDuration -> redis_inv G s -> samples k s = a :: l ->
  li_faults s' = [] -> li_now s' = li_now s -> li_lists s' = li_lists (set_expiry k RateLimitKeyExpirationDuration s) ->
  redis_inv G s'.
Proof.
  intros Hr Hi Ea Hf En El. pose proof (redis_samples G s Hi) as Hc. destruct Hi as (_ & Hh & _).
  split_and!; [done|by rewrite En|]. rewrite El, (set_expiry_lookup _ _ _ _ Ea), En, <- Ea by done. split; [done|].
  destruct Hh as [_ Hall]. eapply Forall_impl; [exact Hall|]. unfold window. simpl. lia.
Qed.

Lemma redis_same strict G s : duration <= RateLimitKeyExpirationDuration -> redis_inv G s -> exists s',
  ask_redis strict k max duration s = (Ok (admits max window (li_now s) G), s') /\ li_now s' = li_now s
  /\ redis_inv (if admits max window (li_now s) G then li_now s :: G else G) s'.
Proof.
  intros Hr Hi. pose proof (redis_samples G s Hi) as Hc. pose proof Hi as (Hf & Hh & _).
  assert (Hn : Z.of_nat n = max) by lia. 
  pose proof (covers_admits n window _ _ _ ltac:(lia) Hh Hc) as Ha. rewrite Hn in Ha. rewrite Ha. clear Ha. unfold ask_redis, list_limiter.
  rewrite (proj2 (Z.leb_gt max 0)), (proj2 (Z.leb_gt duration 0)) by lia.
  rewrite !run_bind. unfold attempt, LLen. rewrite run_bind, redis_call_ok by done. cbn [gets].
  destruct (append_run s Hf) as (s1 & E1 & En1 & Hf1 & El1).
  destruct (Z.ltb_spec (Z.of_nat (length (samples k s))) max) as [Hl|Hl]; simpl.
  - unfold or_500, attempt. rewrite run_bind, E1. simpl. eexists. split_and!; [done|done|].
    by eapply redis_granted.
  - unfold oldest, attempt. rewrite !run_bind, redis_call_ok by done. cbn [gets].
    destruct (last (samples k s)) as [t|] eqn:Et; [|apply last_None in Et; rewrite Et in Hl; simpl in Hl; lia].
    rewrite run_bind. cbn [gets]. rewrite seconds_window by (by eapply covers_past).
    destruct (window <=? li_now s - t); simpl.
    + unfold or_500, attempt. rewrite run_bind, E1. simpl. eexists. split_and!; [done|done|]. by eapply redis_granted.
    + unfold or_500, attempt. destruct (samples k s) as [|a l] eqn:Es; [done|].
      exists (set_expiry k RateLimitKeyExpirationDuration s). split_and!.
      * destruct strict; unfold ignore_err, Expire; rewrite !run_bind, redis_call_ok by done; done.
      * unfold set_expiry. by destruct (samples k s).
      * eapply redis_denied; try done; unfold set_expiry; by destruct (samples k s).
Qed.

(** What other keys do leaves the list of [k] alone. *)
Definition untouched (s0 s : Limits) : Prop :=
  li_faults s = [] /\ li_now s = li_now s0 /\ li_lists s !! k = li_lists s0 !! k.
Lemma untouched_call s0 : preserves (untouched s0) redis_call.
Proof. intros s (Hf & Hu). by rewrite redis_call_ok by done. Qed.
Lemma untouched_put s0 key f : key <> k -> preserves (untouched s0) (redis_call ;; modify (put_samples key f)).
Proof.
  intros Hk. apply preserves_bind; [apply untouched_call|]. intros _ s (Hf & Hn & Hl). split_and!; [done|done|].
  unfold put_samples. simpl. destruct (f _); [by rewrite lookup_delete_ne|by rewrite lookup_insert_ne].
Qed.
Lemma untouched_expire s0 key seconds : key <> k -> preserves (untouched s0) (Expire key seconds).
Proof.
  intros Hk. apply preserves_bind; [apply untouched_call|]. intros _ s (Hf & Hn & Hl). split_and!; [done|done|].
  unfold set_expiry. simpl. destruct (samples _ _); [done|]. destruct (_ <=? 0); [by rewrite lookup_delete_ne|by rewrite lookup_insert_ne].
Qed.
Lemma limits_map_err {A} (I : Limits -> Prop) (f : error -> error) (m : MR A) : preserves I m -> preserves I (map_err f m).
Proof. intros H s Hs. specialize (H s Hs). unfold map_err. by destruct (m s) as [[]]. Qed.
Lemma untouched_append s0 key m : key <> k -> preserves (untouched s0) (appendRateLimitSample key m).
Proof.
  intros Hk. unfold appendRateLimitSample, LPush, LTrim. apply preserves_bind; [apply preserves_gets|]. intros now.
  repeat (apply preserves_bind; [|intros _]); apply limits_map_err; auto using untouched_put, untouched_expire.
Qed.
Lemma untouched_limiter s0 strict key m d : key <> k -> preserves (untouched s0) (ask_redis strict key m d).
Proof.
  intros Hk. unfold ask_redis, list_limiter, or_500. apply preserves_bind; [|intros v; apply preserves_ret].
  destruct (_ <=? 0); [apply preserves_ret|]. destruct (_ <=? 0); [apply preserves_ret|].
  apply preserves_bind; [apply preserves_attempt'; apply preserves_bind; [apply untouched_call|intros _; apply preserves_gets]|].
  assert (Happ : preserves (untouched s0) (r ← attempt (appendRateLimitSample key m);
                   match r with Ok _ => mret Continue | Err _ => stop StatusInternalServerError end : MR verdict)).
  { apply preserves_bind; [by apply preserves_attempt', untouched_append|]. intros []; apply preserves_ret. }
  intros [len|e]; [|apply preserves_ret]. destruct (_ <? _); [exact Happ|].
  apply preserves_bind.
  { apply preserves_bind; [apply preserves_attempt', untouched_call|]. intros []; [apply preserves_gets|apply preserves_ret]. }
  intros [old|]; [|apply preserves_ret]. apply preserves_bind; [apply preserves_gets|]. intros now.
  destruct (_ <? _); [|exact Happ]. apply preserves_bind; [|intros []; apply preserves_ret].
  apply preserves_attempt'. destruct strict; [by apply untouched_expire|by apply preserves_ignore', untouched_expire].
Qed.
Lemma redis_other strict G s key m d : redis_inv G s -> key <> k ->
  redis_inv G (ask_redis strict key m d s).2 /\ li_now (ask_redis strict key m d s).2 = li_now s.
Proof.
  intros (Hf & Hh & Hl) Hk. destruct (untouched_limiter s strict key m d Hk s) as (Hf' & En & El); [done|].
  split; [|done]. unfold redis_inv. by rewrite Hf', En, El.
Qed.
Lemma redis_later G s ms : redis_inv G s -> redis_inv G (s <| li_now := li_now s + Z.of_nat ms |>).
Proof.
  intros (Hf & Hh & Hl). split_and!; [done|apply (history_later (li_now s)); [simpl; lia|done]|]. simpl.
  destruct (li_lists s !! k) as [[l [e|]]|]; [|done|].
  - destruct Hl as [Hc Hl]. split; [|done]. apply (covers_later n window (li_now s)); [lia|done].
  - apply (covers_later n window (li_now s)); [lia|done].
Qed.
Lemma redis_swept G s : redis_inv G s -> redis_inv G (clearExpiredItems s).
Proof. unfold clearExpiredItems. by destruct (_ <=? 0). Qed.
End limiters.

(** C27 Whatever requests of whatever keys arrive at a list limiter in one process after
    another, and whenever the cleaner runs, both the limiter in memory (at whole
    seconds) and the one in Redis (at milliseconds) answer each request of a key as a
    reference does that remembers all granted requests: it grants exactly when fewer
    than the limit were granted in the last window.  So no window holds more. *)
Theorem limiters_are_sliding_windows k max duration strict evs now :
  0 < max -> 0 < duration <= RateLimitKeyExpirationDuration -> Forall (same_limit k max duration) evs ->
  let ts := times k evs now in
  let seconds := (fun t => t / 1000) <$> ts in
  answers Request k evs (fresh_limits now) = sliding max duration [] seconds /\
  answers (ask_redis strict) k evs (fresh_limits now) = sliding max (1000 * duration) [] ts /\
  (forall a, Z.of_nat (length (between a (a + duration) (granted seconds (answers Request k evs (fresh_limits now))))) <= max) /\
  (forall a, Z.of_nat (length (between a (a + 1000 * duration) (granted ts (answers (ask_redis strict) k evs (fresh_limits now))))) <= max).
Proof.
  intros Hm Hd He ts seconds.
  assert (E1 : answers Request k evs (fresh_limits now) = sliding max duration [] seconds).
  { rewrite sliding_reference.
    apply (answers_reference _ Request k max duration (fun t => t / 1000) (memory_inv k max duration)).
    - intros G s Hi. apply memory_same; done || lia.
    - intros G s key m d. apply memory_other; done || lia.
    - intros G s ms. apply memory_later; done || lia.
    - intros G s. apply memory_swept; done || lia.
    - split_and!; [done|apply Hd|apply history_nil|by apply covers_nil].
    - done. }
  assert (E2 : answers (ask_redis strict) k evs (fresh_limits now) = sliding max (1000 * duration) [] ts).
  { rewrite <- (list_fmap_id ts). rewrite sliding_reference.
    apply (answers_reference _ (ask_redis strict) k max duration (fun t => t) (redis_inv k max duration)).
    - intros G s. apply redis_same; lia.
    - intros G s key m d. apply redis_other; done || lia.
    - intros G s ms. apply redis_later; done || lia.
    - intros G s. apply redis_swept; done || lia.
    - split_and!; [done|apply history_nil|by apply covers_nil].
    - done. }
  rewrite E1, E2. split_and!; [done|done|intros a; apply (sliding_windows_bounded max)..]; [lia| |lia|apply times_sorted].
  apply StronglySorted_fmap_le; [|apply times_sorted]. intros x y H. by apply Z.div_le_mono.
Qed.

(** ** The token bucket *)

(** What [redisRateLimitHandler] asks for a limit of [max] requests in [duration]. *)
Definition ask_total (key : string) (max duration : Z) : MR bool :=
  New ;; Allow key [WithCapacity (wrap64 (max * duration)); WithRate max; WithRequested duration].
Definition bucket_step (max duration now : Z) (b : option Bucket) : bool * option Bucket :=
  let '(ok, b) := bucket_script duration max (max * duration) now b in (ok, Some b).
(** The tokens there are at [now]. *)
Definition level (max duration now : Z) (b : option Bucket) : Z :=
  match b with
  | None => max * duration
  | Some b => Z.min (max * duration) (bk_tokens b + (now - bk_last_time b) * max)
  end.
Definition bucket_ok (now : Z) (b : option Bucket) : Prop :=
  match b with None => True | Some b => 0 <= bk_tokens b /\ bk_last_time b <= now end.

Section bucket.
Context (max duration : Z) (Hmax : 0 < max) (Hd : 0 < duration).

Lemma bucket_step_spec now b :
  bucket_step max duration now b =
  let ok := level max duration now b >=? duration in
  (ok, Some (mkBucket (level max duration now b - (if ok then duration else 0)) now)).
Proof.
  unfold bucket_step, bucket_script, level. destruct b as [b|]; simpl; destruct (_ >=? _); simpl; by rewrite ?Z.sub_0_r.
Qed.
Lemma level_bounds now b : bucket_ok now b -> 0 <= level max duration now b <= max * duration.
Proof. destruct b as [b|]; simpl; [|nia]. intros [Ht Hl]. split; [|lia]. apply Z.min_glb; nia. Qed.
Lemma level_later now now' b : now <= now' -> bucket_ok now b ->
  level max duration now' b <= level max duration now b + (now' - now) * max.
Proof. intros Hn. destruct b as [b|]; simpl; [|nia]. intros [Ht Hl]. nia. Qed.
Lemma bucket_step_ok now b : bucket_ok now b -> bucket_ok now (bucket_step max duration now b).2.
Proof.
  intros Hb. rewrite bucket_step_spec. simpl. pose proof (level_bounds now b Hb).
  rewrite Z.geb_leb. destruct (Z.leb_spec duration (level max duration now b)); lia.
Qed.
Lemma bucket_ok_later now now' b : now <= now' -> bucket_ok now b -> bucket_ok now' b.
Proof. intros H. destruct b as [b|]; simpl; [|done]. lia. Qed.

(** From any state on, the granted requests up to [z] spend the tokens there are and
    those that come. *)
Lemma bucket_spends times now b a z : StronglySorted Z.le times -> Forall (fun t => now <= t) times ->
  bucket_ok now b -> now <= z ->
  duration * Z.of_nat (length (between a (z + 1) (granted times (reference (bucket_step max duration) b times))))
  <= level max duration now b + max * (z - now).
Proof.
  intros Hs. revert now b. induction Hs as [|t times Hs IH Ht]; intros now b Hn Hb Hz; simpl.
  { pose proof (level_bounds now b Hb). nia. }
  inversion_clear Hn as [|? ? Hnt _]. destruct (Z.le_gt_cases t z) as [Htz|Htz].
  - pose proof (bucket_ok_later now t b Hnt Hb) as Hbt. pose proof (level_later now t b Hnt Hb) as Hl.
    pose proof (bucket_step_ok t b Hbt) as Hb'. pose proof (level_bounds t b Hbt) as Hl0.
    specialize (IH t _ Ht Hb' Htz). clear Hb'. rewrite bucket_step_spec in IH |- *. simpl in *.
    rewrite Z.sub_diag, Z.mul_0_l, Z.add_0_r in IH.
    rewrite Z.geb_leb in *. destruct (Z.leb_spec duration (level max duration t b)); simpl.
    + destruct (_ && _); simpl; rewrite Z.min_r in IH by lia; nia.
    + rewrite Z.sub_0_r in IH |- *. rewrite Z.min_r in IH by lia. nia.
  - rewrite between_none; [simpl; pose proof (level_bounds now b Hb); nia|].
    apply (granted_after (z + 1) (t :: times)
             (let '(ok, b) := bucket_step max duration t b in ok :: reference (bucket_step max duration) b times)).
    constructor; [lia|]. eapply Forall_impl; [exact Ht|]. simpl. lia.
Qed.
Lemma bucket_bound times now b a T : StronglySorted Z.le times -> Forall (fun t => now <= t) times ->
  bucket_ok now b -> 0 < T ->
  duration * Z.of_nat (length (between a (a + T) (granted times (reference (bucket_step max duration) b times))))
  <= max * (duration + T - 1).
Proof.
  intros Hs Hn Hb HT. revert now b Hn Hb. induction Hs as [|t times Hs IH Ht]; intros now b Hn Hb; simpl; [nia|].
  inversion_clear Hn as [|? ? Hnt _]. pose proof (bucket_ok_later now t b Hnt Hb) as Hbt.
  destruct (Z.lt_ge_cases t a) as [Hta|Hta].
  - pose proof (bucket_step_ok t b Hbt) as Hb'. destruct (bucket_step max duration t b) as [ok b']. simpl in *.
    specialize (IH t b' Ht Hb'). destruct ok; simpl; [|exact IH]. by rewrite (proj2 (Z.leb_gt a t)) by lia.
  - destruct (Z.lt_ge_cases t (a + T)) as [Htz|Htz].
    + pose proof (bucket_spends (t :: times) t b a (a + T - 1)) as H.
      replace (a + T - 1 + 1) with (a + T) in H by lia. pose proof (level_bounds t b Hbt).
      assert (StronglySorted Z.le (t :: times)) by (by constructor).
      assert (Forall (fun x => t <= x) (t :: times)) by (constructor; [lia|done]).
      specialize (H ltac:(done) ltac:(done) Hbt ltac:(lia)). simpl in H. nia.
    + pose proof (granted_after (a + T) (t :: times) (reference (bucket_step max duration) b (t :: times))) as H.
      rewrite between_none; [simpl; nia|]. simpl in H. apply H. constructor; [lia|].
      eapply Forall_impl; [exact Ht|]. simpl. lia.
Qed.

(** The state of the reference after some requests. *)
Definition bucket_after (b : option Bucket) (times : list Z) : option Bucket :=
  fold_left (fun b t => (bucket_step max duration t b).2) times b.
Lemma reference_snoc b ts t :
  last (reference (bucket_step max duration) b (ts ++ [t])) = Some (bucket_step max duration t (bucket_after b ts)).1.
Proof.
  revert b. induction ts as [|t' ts IH]; intros b.
  - simpl. by destruct (bucket_step max duration t b).
  - simpl. destruct (bucket_step max duration t' b) as [ok b'] eqn:E. by rewrite last_cons, IH.
Qed.
Lemma bucket_after_ok b ts now : StronglySorted Z.le ts -> Forall (fun t => t <= now) ts ->
  match ts with t :: _ => bucket_ok t b | [] => bucket_ok now b end -> bucket_ok now (bucket_after b ts).
Proof.
  intros Hs. revert b. induction Hs as [|t ts Hs IH Ht]; intros b Hf Hb; [done|]. inversion_clear Hf as [|? ? Htn Hf'].
  simpl. apply IH; [done|]. pose proof (bucket_step_ok t b Hb) as Hb'.
  destruct ts as [|t' ts]; [by eapply bucket_ok_later|]. inversion_clear Ht. by eapply bucket_ok_later.
Qed.
Lemma bucket_refilled now t b : bucket_ok now b -> now + duration <= t -> (bucket_step max duration t b).1 = true.
Proof.
  intros Hb Ht. rewrite bucket_step_spec. simpl. rewrite Z.geb_leb. apply Z.leb_le.
  destruct b as [b|]; simpl in *; nia.
Qed.

(** *** The calls of Redis *)

Context (k : string) (Hfit : max * duration < 2 ^ 53).
Definition total_inv (b : option Bucket) (s : Limits) : Prop :=
  li_faults s = [] /\ (li_instance s = true -> li_sha s = true /\ li_script s = true) /\ li_buckets s !! k = b.
Lemma New_run s : li_faults s = [] -> (li_instance s = true -> li_sha s = true /\ li_script s = true) ->
  exists s', New s = (Ok tt, s') /\ li_faults s' = [] /\ li_instance s' = true /\ li_sha s' = true /\ li_script s' = true
  /\ li_buckets s' = li_buckets s /\ li_now s' = li_now s.
Proof.
  intros Hf Hi. unfold New. rewrite run_bind. cbn [gets]. destruct (li_instance s) eqn:E.
  - exists s. destruct (Hi eq_refl) as [-> ->]. done.
  - rewrite run_bind. cbn [modify]. unfold ignore_err, reloadScript. rewrite run_bind, redis_call_ok by done.
    eexists. split; [done|]. done.
Qed.
Lemma ask_total_run s key m d : li_faults s = [] -> (li_instance s = true -> li_sha s = true /\ li_script s = true) ->
  let r := bucket_script d m (wrap64 (m * d)) (unix s) (li_buckets s !! key) in
  exists s', ask_total key m d s = (Ok r.1, s') /\ li_faults s' = [] /\ (li_instance s' = true -> li_sha s' = true /\ li_script s' = true)
  /\ li_now s' = li_now s /\ li_buckets s' = <[key := r.2]> (li_buckets s).
Proof.
  intros Hf Hi r. destruct (New_run s Hf Hi) as (s1 & E1 & Hf1 & Hi1 & Hs1 & Hc1 & Hb1 & Hn1).
  unfold ask_total. rewrite run_bind, E1. unfold Allow, EvalSha, WithCapacity, WithRate, WithRequested.
  cbn [fold_left Capacity Rate Requested]. rewrite run_bind. unfold attempt. rewrite run_bind, redis_call_ok by done.
  rewrite run_bind. cbn [gets]. rewrite Hs1, Hc1. cbn [negb andb]. unfold unix. rewrite Hb1, Hn1. fold (unix s). fold r.
  destruct r as [ok b]. eexists. split; [done|]. split_and!; simpl; auto.
Qed.
Lemma total_answers evs now : Forall (same_limit k max duration) evs ->
  answers ask_total k evs (fresh_limits now)
  = reference (bucket_step max duration) None ((fun t => t / 1000) <$> times k evs now).
Proof.
  intros He. apply (answers_reference _ ask_total k max duration (fun t => t / 1000) total_inv); [..|done|done].
  - intros b s (Hf & Hi & Hb). destruct (ask_total_run s k max duration Hf Hi) as (s' & E & Hf' & Hi' & Hn' & Hb').
    rewrite Hb in *. rewrite wrap64_id in E, Hb' by nia. unfold bucket_step. fold (unix s).
    destruct (bucket_script _ _ _ _ _) as [ok b']. eexists. split; [exact E|]. split; [done|]. split_and!; [done|done|].
    simpl. by rewrite Hb', lookup_insert_eq.
  - intros b s key m d (Hf & Hi & Hb) Hk. destruct (ask_total_run s key m d Hf Hi) as (s' & -> & Hf' & Hi' & Hn' & Hb').
    simpl. split; [|done]. split_and!; [done|done|]. by rewrite Hb', lookup_insert_ne.
  - intros b s ms (Hf & Hi & Hb). by split_and!.
  - intros b s (Hf & Hi & Hb). unfold clearExpiredItems. by destruct (_ <=? 0).
Qed.
End bucket.

Fixpoint end_of (evs : list event) (now : Z) : Z :=
  match evs with
  | [] => now
  | Wait ms :: evs => end_of evs (now + Z.of_nat ms)
  | _ :: evs => end_of evs now
  end.
Lemma times_app k evs evs' now : times k (evs ++ evs') now = times k evs now ++ times k evs' (end_of evs now).
Proof.
  revert now. induction evs as [|[key m d|ms|] evs IH]; intros now; simpl; [done|by rewrite IH, app_assoc|apply IH..].
Qed.
Lemma end_later evs now : now <= end_of evs now.
Proof.
  revert now. induction evs as [|[key m d|ms|] evs IH]; intros now; simpl; [lia|apply IH| |apply IH].
  specialize (IH (now + Z.of_nat ms)). lia.
Qed.
Lemma times_until k evs now : Forall (fun t => t <= end_of evs now) (times k evs now).
Proof.
  revert now. induction evs as [|[key m d|ms|] evs IH]; intros now; simpl; [constructor| |apply IH..].
  apply Forall_app. split; [|apply IH]. destruct (decide _); [|constructor]. constructor; [apply end_later|constructor].
Qed.

(** C29 The token bucket for a limit of [max] requests in [duration] seconds, when Redis
    answers: in any [T] seconds the requests it grants, times the duration, are at most
    [max * (duration + T - 1)]; a request that arrives a duration after everything else
    is granted. *)
Theorem token_bucket_bound k max duration evs now :
  0 < max -> 0 < duration -> max * duration < 2 ^ 53 -> Forall (same_limit k max duration) evs ->
  (forall a T, 0 < T ->
     duration * Z.of_nat (length (between a (a + T)
       (granted ((fun t => t / 1000) <$> times k evs now) (answers ask_total k evs (fresh_limits now)))))
     <= max * (duration + T - 1)) /\
  (forall ms, 1000 * duration <= Z.of_nat ms ->
     last (answers ask_total k (evs ++ [Wait ms; Ask k max duration]) (fresh_limits now)) = Some true).
Proof.
  intros Hm Hd Hfit He.
  assert (Hs : StronglySorted Z.le ((fun t => t / 1000) <$> times k evs now)).
  { apply StronglySorted_fmap_le; [|apply times_sorted]. intros x y H. by apply Z.div_le_mono. }
  split.
  - intros a T HT. rewrite (total_answers max duration Hm Hd k Hfit) by done.
    apply (bucket_bound max duration Hm Hd _ (now / 1000)); [done| |done|done].
    apply Forall_fmap. eapply Forall_impl; [apply times_later|]. simpl. intros t H. by apply Z.div_le_mono.
  - intros ms Hms. rewrite (total_answers max duration Hm Hd k Hfit) by (apply Forall_app; split; [done|]; by repeat constructor).
    rewrite times_app, fmap_app. simpl. rewrite decide_True by done. simpl. rewrite reference_snoc. f_equal.
    apply (bucket_refilled max duration Hm Hd (end_of evs now / 1000)).
    + apply bucket_after_ok; [done..| |by destruct (_ <$> _)].
      apply Forall_fmap. eapply Forall_impl; [apply times_until|]. simpl. intros t H. by apply Z.div_le_mono.
    + pose proof (Z.div_le_mono (end_of evs now + 1000 * duration) (end_of evs now + Z.of_nat ms) 1000).
      rewrite (Z.mul_comm 1000), Z.div_add in H by done. apply H; lia.
Qed.

(** ** Samples *)

(** Two requests in 60 seconds are allowed; the fourth comes when the first is old. *)
#[local] Abbreviation sample_events := [Ask "GW10.0.0.1" 2 60; Wait 30000; Ask "GW10.0.0.1" 2 60; Ask "GW10.0.0.2" 1 60;
  Ask "GW10.0.0.1" 2 60; Sweep; Wait 30000; Ask "GW10.0.0.1" 2 60].
Lemma limiters_are_sliding_windows_witness :
  let ts := times "GW10.0.0.1" sample_events 500 in
  let seconds := (fun t => t / 1000) <$> ts in
  answers Request "GW10.0.0.1" sample_events (fresh_limits 500) = sliding 2 60 [] seconds /\
  answers (ask_redis true) "GW10.0.0.1" sample_events (fresh_limits 500) = sliding 2 (1000 * 60) [] ts /\
  (forall a, Z.of_nat (length (between a (a + 60)
     (granted seconds (answers Request "GW10.0.0.1" sample_events (fresh_limits 500))))) <= 2) /\
  (forall a, Z.of_nat (length (between a (a + 1000 * 60)
     (granted ts (answers (ask_redis true) "GW10.0.0.1" sample_events (fresh_limits 500))))) <= 2).
Proof.
  apply (limiters_are_sliding_windows "GW10.0.0.1" 2 60 true sample_events 500); [reflexivity|split; [reflexivity|discriminate]|].
  repeat constructor; try done.
Defined.
Example sample_limit_answers :
  answers Request "GW10.0.0.1" sample_events (fresh_limits 500) = [true; true; false; true] /\
  answers (ask_redis true) "GW10.0.0.1" sample_events (fresh_limits 500) = [true; true; false; true].
Proof. split; vm_compute; reflexivity. Qed.

#[local] Abbreviation bucket_events := [Ask "rateLimit:7" 2 60; Ask "rateLimit:7" 2 60; Wait 30000; Ask "rateLimit:7" 2 60].
Lemma token_bucket_bound_witness :
  (forall a T, 0 < T ->
     60 * Z.of_nat (length (between a (a + T)
       (granted ((fun t => t / 1000) <$> times "rateLimit:7" bucket_events 0)
          (answers ask_total "rateLimit:7" bucket_events (fresh_limits 0)))))
     <= 2 * (60 + T - 1)) /\
  (forall ms, 1000 * 60 <= Z.of_nat ms ->
     last (answers ask_total "rateLimit:7" (bucket_events ++ [Wait ms; Ask "rateLimit:7" 2 60]) (fresh_limits 0)) = Some true).
Proof.
  apply (token_bucket_bound "rateLimit:7" 2 60 bucket_events 0); [reflexivity..|].
  repeat constructor; try done.
Defined.

(** ** What the limits do not do *)

Definition sample_settings (minutes total success : Z) : RateLimitSettings :=
  mkRateLimitSettings true minutes total success ∅ ∅.
Definition sample_user : LimitContext := mkLimitContext "10.0.0.1" 7 "" "default".
(** A handler that takes some milliseconds and writes a status. *)
Definition respond (ms status : Z) : MR Z := modify (fun s => s <| li_now := li_now s + ms |>) ;; mret status.
Fixpoint serve (redis : bool) (settings : RateLimitSettings) (requests : list (Z * Z)) : MR (list verdict) :=
  match requests with
  | [] => mret []
  | (ms, status) :: requests =>
      v ← ModelRequestRateLimit redis settings sample_user (respond ms status);
      vs ← serve redis settings requests;
      mret (v :: vs)
  end.
Definition verdicts (m : MR (list verdict)) (s : Limits) : list verdict :=
  match (m s).1 with Ok vs => vs | Err _ => [] end.

(** The total limit in Redis lets three requests through in half a minute where its
    message promises at most two in a minute. *)
Theorem total_limit_exceeded :
  verdicts (serve true (sample_settings 1 2 1000) [(15000, 200); (15000, 200); (0, 200)]) (fresh_limits 0)
  = [Continue; Continue; Continue].
Proof. vm_compute. reflexivity. Qed.

(** The limit of successful requests in memory counts failed ones: one failed request
    uses up the one success that is allowed. *)
Theorem memory_counts_failures :
  verdicts (serve false (sample_settings 1 0 1) [(0, 500); (0, 200)]) (fresh_limits 0)
  = [Continue; Stopped StatusTooManyRequests ""] /\
  verdicts (serve true (sample_settings 1 0 1) [(0, 500); (0, 200)]) (fresh_limits 0) = [Continue; Continue].
Proof. split; vm_compute; reflexivity. Qed.

(** The store in memory keeps the expiration of its first Init, 20 minutes: a window of
    an hour is forgotten by the cleaner after 21 minutes without requests. *)
Theorem long_window_forgotten :
  let settings := sample_settings 60 1 1000 in
  let '(v1, s1) := ModelRequestRateLimit false settings sample_user (respond 0 200) (fresh_limits 0) in
  let later : Limits := s1 <| li_now := 21 * 60 * 1000 |> in
  v1 = Ok Continue /\
  (ModelRequestRateLimit false settings sample_user (respond 0 200) later).1 = Ok (Stopped StatusTooManyRequests "") /\
  (ModelRequestRateLimit false settings sample_user (respond 0 200) (clearExpiredItems later)).1 = Ok Continue.
Proof. vm_compute. split_and!; reflexivity. Qed.

(** ** Settings *)

Example exempt_ids : ParseModelRequestRateLimitExemptUserIDs " 3, 5 -2,0 3" = Ok {[3; 5]}.
Proof. vm_compute. reflexivity. Qed.
Example exempt_bad : ParseModelRequestRateLimitExemptUserIDs "3;5" = Err (ErrNew "invalid user ID 3;5").
Proof. vm_compute. reflexivity. Qed.
