(* ===== verification/AuthModel.v ===== *)
(** * Sessions and access tokens (src/model/user_session.go, src/model/token_expiry.go,
    src/model/user.go)

    The tables behind the login of a user: the sessions of browsers, by the hash of
    their cookie, and the expiry of the token of the management interface. *)

From S2P Require Import Prelude GoStd GoFloat World ModelUtils UserModel.
Import GoStrings GoText GoTime.

(** ** State *)

Record UserSession := mkUserSession {
  us_ID : Z;
  us_UserID : Z;
  us_SessionIDHash : string;
  us_DeviceName : string;
  us_UserAgent : string;
  us_IP : string;
  us_CreatedAt : Z;
  us_LastSeenAt : Z;
  us_ExpiresAt : Z;
  us_RevokedAt : option Z;
  us_DeletedAt : option Z;
}.
#[export] Instance UserSession_settable : Settable UserSession :=
  fields_of mkUserSession < us_ID; us_UserID; us_SessionIDHash; us_DeviceName; us_UserAgent; us_IP;
    us_CreatedAt; us_LastSeenAt; us_ExpiresAt; us_RevokedAt; us_DeletedAt >.

(** The column created_at, which nothing reads, is left out. *)
Record AccessTokenExpiry := mkExpiry {
  ae_UserID : Z;
  ae_ExpiresAt : Z;
}.
#[export] Instance AccessTokenExpiry_settable : Settable AccessTokenExpiry :=
  fields_of mkExpiry < ae_UserID; ae_ExpiresAt >.

(** A value of the gin context or of a session cookie. *)
Inductive any :=
| AInt (z : Z)
| AString (s : string)
| ABool (b : bool)
| ANil
| ALimits (m : gmap string bool).

(** The world with these two tables (by their primary keys) and the keys of the gin
    context of the request at hand. *)
Record Au := mkAu {
  au_world : World;
  au_sessions : gmap Z UserSession;
  au_expiry : gmap Z AccessTokenExpiry;
  au_keys : gmap string any;
}.
#[export] Instance Au_settable : Settable Au := fields_of mkAu < au_world; au_sessions; au_expiry; au_keys >.
Abbreviation MA := (M Au error).

Definition on_world {A} (m : MW A) : MA A := fun a =>
  let '(r, w') := m (au_world a) in (r, a <| au_world := w' |>).
(** Statements on the two tables; any of them may fail. *)
Definition au_find {A} (q : Au -> A) : MA A := on_world ext_call ;; gets q.
Definition au_first {A} (q : Au -> option A) : MA A :=
  r ← au_find q;
  match r with Some x => mret x | None => fail ErrRecordNotFound end.
Definition au_exec (f : Au -> Au) : MA unit := on_world ext_call ;; modify f.

(** ** Sessions *)

Section sessions.
(** The hexadecimal SHA-256 of a cookie. *)
Context (HashSessionCookie : string -> string).

Definition live_session (s : UserSession) : bool := bool_decide (us_DeletedAt s = None).
Definition session_rows (a : Au) : list UserSession := snd <$> map_to_list (au_sessions a).
Definition has_hash (hash : string) (s : UserSession) : bool := bool_decide (us_SessionIDHash s = hash).
(** session_id_hash is unique. *)
Definition session_by_hash (hash : string) (a : Au) : option UserSession :=
  List.find (fun s => live_session s && has_hash hash s) (session_rows a).

Definition truncateSessionValue (value : string) (max : nat) : string :=
  let value := TrimSpace value in
  if (max <? String.length value)%nat then String.substring 0 max value else value.
Definition sessionDeviceName (userAgent : string) : string :=
  let userAgent := TrimSpace userAgent in
  if decide (userAgent = "") then "Unknown device"
  else if (80 <? String.length userAgent)%nat then String.substring 0 80 userAgent
  else userAgent.
(** A session that is revoked or past its end. *)
Definition session_over (now : Z) (s : UserSession) : bool :=
  bool_decide (is_Some (us_RevokedAt s)) || ((us_ExpiresAt s >? 0) && (us_ExpiresAt s <=? now)).

Definition save_session (s : UserSession) (a : Au) : Au :=
  a <| au_sessions := <[us_ID s := s]> (au_sessions a) |>.
(** An INSERT; the key comes from the sequence of the database. *)
Definition create_session (s : UserSession) : MA UserSession :=
  on_world ext_call ;;
  taken ← gets (fun a => existsb (has_hash (us_SessionIDHash s)) (session_rows a));
  if taken : bool then fail ErrDuplicatedKey
  else
    id ← on_world next_id;
    let s : UserSession := s <| us_ID := id |> in
    modify (save_session s) ;; mret s.

(** [None]: nil without an error. *)
Definition RegisterUserSession (userID : Z) (cookieValue userAgent ip : string) : MA (option UserSession) :=
  if (userID <=? 0) || bool_decide (TrimSpace cookieValue = "") then mret None
  else
    now ← on_world GetTimestamp;
    let hash := HashSessionCookie cookieValue in
    r ← attempt (au_first (session_by_hash hash));
    match r with
    | Ok session =>
        if session_over now session then mret (Some session)
        else
          let session : UserSession := session <| us_LastSeenAt := now |>
            <| us_UserAgent := truncateSessionValue userAgent 512 |> <| us_IP := truncateSessionValue ip 128 |> in
          au_exec (save_session session) ;; mret (Some session)
    | Err ErrRecordNotFound =>
        session ← create_session (mkUserSession 0 userID hash (sessionDeviceName userAgent)
          (truncateSessionValue userAgent 512) (truncateSessionValue ip 128) now now (now + 30 * 24 * 60 * 60) None None);
        mret (Some session)
    | Err e => fail e
    end.
Definition IsSessionRevoked (cookieValue : string) : MA bool :=
  if decide (TrimSpace cookieValue = "") then mret false
  else
    r ← attempt (au_first (session_by_hash (HashSessionCookie cookieValue)));
    match r with
    | Ok session => now ← on_world GetTimestamp; mret (session_over now session)
    | Err ErrRecordNotFound => mret false
    | Err e => fail e
    end.

(** Not revoked, the last seen first. *)
Definition seen_later (s t : UserSession) : Prop :=
  us_LastSeenAt t < us_LastSeenAt s \/ us_LastSeenAt s = us_LastSeenAt t /\ us_ID t <= us_ID s.
#[global] Instance seen_later_dec : RelDecision seen_later.
Proof. intros s t. unfold seen_later. apply _. Defined.
Definition open_session (userID : Z) (s : UserSession) : bool :=
  live_session s && (us_UserID s =? userID) && bool_decide (us_RevokedAt s = None).
Definition ListUserSessions (userID : Z) : MA (list UserSession) :=
  au_find (fun a => merge_sort seen_later (List.filter (open_session userID) (session_rows a))).
Definition revoke (which : UserSession -> bool) (now : Z) (a : Au) : Au :=
  a <| au_sessions := (fun s : UserSession => if which s then s <| us_RevokedAt := Some now |> else s) <$> au_sessions a |>.
Definition RevokeUserSession (userID id : Z) : MA unit :=
  now ← on_world GetTimestamp;
  au_exec (revoke (fun s => open_session userID s && (us_ID s =? id)) now).
Definition RevokeOtherUserSessions (userID : Z) (currentCookie : string) : MA unit :=
  let hash := HashSessionCookie currentCookie in
  now ← on_world GetTimestamp;
  au_exec (revoke (fun s => open_session userID s && negb (has_hash hash s)) now).

(** ** The requests of src/controller/user_sessions.go *)

(** The answer: a status and a message, or the result. *)
Inductive reply (A : Type) := Reply (status : Z) (message : string) | Success (a : A).
#[global] Arguments Reply {A}.
#[global] Arguments Success {A}.
Definition ApiError {A} (e : error) : MA (reply A) := mret (Reply 200 (error_text e)).
Definition api {A} (m : MA A) : MA (reply A) :=
  r ← attempt m;
  match r with Ok a => mret (Success a) | Err e => ApiError e end.

Definition mask_parts (sep : Ascii.ascii) (keep : nat) (ip : string) : string :=
  Join (take keep (SplitByte ip sep)) (String sep "").
Definition maskSessionIP (ip : string) : string :=
  let dot := Ascii.ascii_of_nat 46 in
  let colon := Ascii.ascii_of_nat 58 in
  if (length (SplitByte ip dot) =? 4)%nat then mask_parts dot 3 ip +:+ ".***"
  else if Contains ip ":" && (2 <? length (SplitByte ip colon))%nat then mask_parts colon 2 ip +:+ ":****"
  else "***".
(** What is shown of a session, and whether it is the one of the request. *)
Definition userSessionResponse (currentHash : string) (s : UserSession) : UserSession * bool :=
  (s <| us_IP := maskSessionIP (us_IP s) |>, has_hash currentHash s).
Definition GetUserSessions (id : Z) (currentCookie : option string) : MA (reply (list (UserSession * bool))) :=
  api (sessions ← ListUserSessions id;
       mret (userSessionResponse (HashSessionCookie (default "" currentCookie)) <$> sessions)).
(** [param]: strconv.ParseUint of the path parameter. *)
Definition RevokeUserSession_handler (id : Z) (param : option Z) : MA (reply unit) :=
  match param with
  | None | Some 0 => mret (Reply 400 "invalid session id")
  | Some session => api (RevokeUserSession id session)
  end.
Definition RevokeOtherUserSessions_handler (id : Z) (currentCookie : option string) : MA (reply unit) :=
  match currentCookie with
  | Some cookie =>
      if decide (TrimSpace cookie = "") then mret (Reply 400 "current session is unavailable")
      else api (RevokeOtherUserSessions id cookie)
  | None => mret (Reply 400 "current session is unavailable")
  end.
End sessions.

(** ** Expiry of access tokens *)

Definition SetAccessTokenExpiry (userID durationDays : Z) : MA unit :=
  let durationDays := if durationDays <=? 0 then 90 else durationDays in
  now ← on_world GetTimestamp;
  let expiry := mkExpiry userID (Add now (Duration (wrap64 (durationDays * 24)) Hour)) in
  au_exec (fun a => a <| au_expiry := <[userID := expiry]> (au_expiry a) |>).
Definition GetAccessTokenExpiry (userID : Z) : MA AccessTokenExpiry :=
  au_first (fun a => au_expiry a !! userID).
(** No row: the token does not expire. *)
Definition IsAccessTokenExpired (userID : Z) : MA bool :=
  r ← attempt (GetAccessTokenExpiry userID);
  match r with
  | Ok expiry => now ← on_world GetTimestamp; mret (now >? ae_ExpiresAt expiry)
  | Err ErrRecordNotFound => mret false
  | Err e => fail e
  end.
Definition RevokeAccessToken (userID : Z) : MA unit :=
  now ← on_world GetTimestamp;
  au_exec (fun a => a <| au_expiry := alter (fun e => e <| ae_ExpiresAt := now - 1 |>) userID (au_expiry a) |>).
Definition set_access_token (ids : gset Z) (token : option string) (d : DB) : DB :=
  d <| d_users := map_imap (fun id u => Some (if decide (id ∈ ids) then match u_DeletedAt u with
                                                 | None => u <| u_AccessToken := token |>
                                                 | Some _ => u
                                                 end else u)) (d_users d) |>.
Definition expired_before (now : Z) (a : Au) : gmap Z AccessTokenExpiry :=
  filter (fun e => ae_ExpiresAt e.2 < now) (au_expiry a).
Definition CleanupExpiredTokens : MA unit :=
  now ← on_world GetTimestamp;
  expiredUsers ← au_find (fun a => dom (expired_before now a));
  (if decide (expiredUsers = ∅) then mret tt else on_world (db_exec HDB (set_access_token expiredUsers None))) ;;
  au_exec (fun a => a <| au_expiry := filter (fun e => ~ ae_ExpiresAt e.2 < now) (au_expiry a) |>).

(** ** Users *)

Definition RoleGuestUser : Z := 0.
Definition RoleCommonUser : Z := 1.
Definition RoleRootUser : Z := 100.
Definition IsValidateRole (role : Z) : bool :=
  (role =? RoleGuestUser) || (role =? RoleCommonUser) || (role =? RoleAdminUser) || (role =? RoleRootUser).

Definition live_users (d : DB) : list User :=
  List.filter (fun u => bool_decide (u_DeletedAt u = None)) (snd <$> map_to_list (d_users d)).
Definition user_by_access_token (token : string) (d : DB) : option User :=
  List.find (fun u => bool_decide (u_AccessToken u = Some token)) (live_users d).
(** [None]: not authorized. *)
Definition ValidateAccessToken (token : string) : MA (option User) :=
  if decide (token = "") then mret None
  else
    let token := ReplaceFirst token "Bearer " "" in
    r ← attempt (on_world (db_first HDB (user_by_access_token token)));
    match r with
    | Err ErrRecordNotFound => mret None
    | Err e => fail (ErrDatabase e)
    | Ok user =>
        expired ← attempt (IsAccessTokenExpired (u_Id user));
        match expired with
        | Err e => fail (ErrDatabase e)
        | Ok true => mret None
        | Ok false => mret (Some user)
        end
    end.
