(* ===== verification/Auth.v ===== *)
(** * Authentication of requests (src/middleware/auth.go, src/model/user_cache.go)

    Who makes a request and what it may do: by the session or the access token of the
    management interface, or by an API token.  A handler returns whether the request
    goes on; the audit of the writes of administrators is left out. *)

From S2P Require Import Prelude GoStd GoFloat Ssrf World ModelUtils UserModel TokenModel RatioSetting ChannelSelect AuthModel.
Import GoStrings GoText.

(** ** Answers and keys *)

(** The request goes on, or its answer: a status, the key or the text of the message, and
    an error code. *)
Inductive auth_outcome := Proceed | Refuse (status : Z) (message : string) (code : string).
Definition StatusOK : Z := 200.
Definition StatusUnauthorized : Z := 401.
Definition StatusForbidden : Z := 403.
Definition StatusInternalServerError : Z := 500.
Definition refuse {A} (status : Z) (message : string) : MA (auth_outcome + A) := mret (inl (Refuse status message "")).
Definition grant {A} (a : A) : MA (auth_outcome + A) := mret (inr a).

Definition MsgDatabaseError : string := "common.database_error".
Definition MsgAuthNotLoggedIn : string := "auth.not_logged_in".
Definition MsgAuthAccessTokenInvalid : string := "auth.access_token_invalid".
Definition MsgAuthUserInfoInvalid : string := "auth.user_info_invalid".
Definition MsgAuthUserBanned : string := "auth.user_banned".
Definition MsgAuthInsufficientPrivilege : string := "auth.insufficient_privilege".
Definition MsgTokenInvalid : string := "token.invalid".
Definition MsgTokenNotProvided : string := "token.not_provided".
Definition MsgTokenStatusUnavailable : string := "token.status_unavailable".

Definition set_key (key : string) (v : any) : MA unit := modify (fun a => a <| au_keys := <[key := v]> (au_keys a) |>).
Definition get_int (key : string) (a : Au) : Z := match au_keys a !! key with Some (AInt z) => z | _ => 0 end.
Definition get_string (key : string) (a : Au) : string := match au_keys a !! key with Some (AString s) => s | _ => "" end.

(** What the handlers read of a request: headers, the key of the query, the address, the
    cookie of the session and the values it holds. *)
Record AuthRequest := mkAuthRequest {
  ar_Path : string;
  ar_Authorization : string;
  ar_WebSocketProtocol : string;
  ar_XApiKey : string;
  ar_QueryKey : string;
  ar_XGoogApiKey : string;
  ar_MjApiSecret : string;
  ar_ClientIP : string;
  ar_UserAgent : string;
  ar_Cookie : option string;
  ar_Session : gmap string any;
}.
#[export] Instance AuthRequest_settable : Settable AuthRequest :=
  fields_of mkAuthRequest < ar_Path; ar_Authorization; ar_WebSocketProtocol; ar_XApiKey; ar_QueryKey;
    ar_XGoogApiKey; ar_MjApiSecret; ar_ClientIP; ar_UserAgent; ar_Cookie; ar_Session >.

(** ** Users of the management interface *)

Definition validUserInfo (username : string) (role : Z) : bool :=
  negb (bool_decide (TrimSpace username = "")) && IsValidateRole role.

Section helper.
Context (HashSessionCookie : string -> string).

(** The four values of the session, or those of the owner of the access token, and
    whether it was one. *)
Definition identity (r : AuthRequest) : MA (auth_outcome + (option any * option any * option any * option any * bool)) :=
  let session := ar_Session r in
  match session !! "username" with
  | Some username => grant (Some username, session !! "role", session !! "id", session !! "status", false)
  | None =>
      if decide (ar_Authorization r = "") then refuse StatusUnauthorized MsgAuthNotLoggedIn
      else
        user ← attempt (ValidateAccessToken (ar_Authorization r));
        match user with
        | Err (ErrDatabase _) => refuse StatusInternalServerError MsgDatabaseError
        | Err _ | Ok None => refuse StatusOK MsgAuthAccessTokenInvalid
        | Ok (Some user) =>
            if decide (u_Username user = "") then refuse StatusOK MsgAuthAccessTokenInvalid
            else if negb (validUserInfo (u_Username user) (u_Role user)) then refuse StatusOK MsgAuthUserInfoInvalid
            else grant (Some (AString (u_Username user)), Some (AInt (u_Role user)), Some (AInt (u_Id user)),
                        Some (AInt (u_Status user)), true)
        end
  end.
(** Refused: a session that is known to be over.  A failing check lets it pass. *)
Definition check_session (r : AuthRequest) (id : Z) : MA (auth_outcome + unit) :=
  match ar_Cookie r with
  | None => grant tt
  | Some cookieValue =>
      revoked ← attempt (IsSessionRevoked HashSessionCookie cookieValue);
      match revoked with
      | Ok true => refuse StatusUnauthorized "session revoked or expired"
      | _ => ignore_err (RegisterUserSession HashSessionCookie id cookieValue (ar_UserAgent r) (ar_ClientIP r)) ;; grant tt
      end
  end.
Definition session_value (r : AuthRequest) (key : string) : any := default ANil (ar_Session r !! key).
Definition authHelper (r : AuthRequest) (minRole : Z) : MA auth_outcome :=
  who ← identity r;
  match who with
  | inl o => mret o
  | inr (username, role, id, status, useAccessToken) =>
      match id, status, role, username with
      | Some (AInt idValue), Some (AInt statusValue), Some (AInt roleValue), Some (AString usernameValue) =>
          if idValue <=? 0 then mret (Refuse StatusUnauthorized MsgAuthNotLoggedIn "")
          else if statusValue =? UserStatusDisabled then mret (Refuse StatusOK MsgAuthUserBanned "")
          else if roleValue <? minRole then mret (Refuse StatusOK MsgAuthInsufficientPrivilege "")
          else if negb (validUserInfo usernameValue roleValue) then mret (Refuse StatusOK MsgAuthUserInfoInvalid "")
          else
            checked ← (if useAccessToken : bool then grant tt else check_session r idValue);
            match checked with
            | inl o => mret o
            | inr _ =>
                set_key "username" (AString usernameValue) ;; set_key "role" (AInt roleValue) ;;
                set_key "id" (AInt idValue) ;; set_key "group" (session_value r "group") ;;
                set_key "user_group" (session_value r "group") ;; set_key "use_access_token" (ABool useAccessToken) ;;
                mret Proceed
            end
      | _, _, _, _ => mret (Refuse StatusUnauthorized MsgAuthNotLoggedIn "")
      end
  end.
Definition UserAuth (r : AuthRequest) : MA auth_outcome := authHelper r RoleCommonUser.
Definition AdminAuth (r : AuthRequest) : MA auth_outcome := authHelper r RoleAdminUser.
Definition RootAuth (r : AuthRequest) : MA auth_outcome := authHelper r RoleRootUser.
End helper.

Definition TryUserAuth (r : AuthRequest) : MA auth_outcome :=
  (match ar_Session r !! "id" with
   | Some (AInt id) => if id >? 0 then set_key "id" (AInt id) else mret tt
   | _ => mret tt
   end) ;; mret Proceed.

(** ** The key of a request *)

Definition comma : Ascii.ascii := Ascii.ascii_of_nat 44.
Fixpoint websocket_key (parts : list string) : option string :=
  match parts with
  | [] => None
  | part :: parts =>
      let part := TrimSpace part in
      if HasPrefix part "openai-insecure-api-key" then Some (TrimPrefix part "openai-insecure-api-key.")
      else websocket_key parts
  end.
(** The header Authorization once the other places of a key were looked at. *)
Definition authorization (r : AuthRequest) : string :=
  let h := ar_Authorization r in
  let h := if decide (ar_WebSocketProtocol r = "") then h
           else "Bearer " +:+ default (ar_WebSocketProtocol r) (websocket_key (SplitByte (ar_WebSocketProtocol r) comma)) in
  let h := if (Contains (ar_Path r) "/v1/messages" || Contains (ar_Path r) "/v1/models")
              && negb (bool_decide (ar_XApiKey r = "")) then "Bearer " +:+ ar_XApiKey r else h in
  if HasPrefix (ar_Path r) "/v1beta/models" || HasPrefix (ar_Path r) "/v1beta/openai/models"
     || HasPrefix (ar_Path r) "/v1/models/" then
    let h := if decide (ar_QueryKey r = "") then h else "Bearer " +:+ ar_QueryKey r in
    if decide (ar_XGoogApiKey r = "") then h else "Bearer " +:+ ar_XGoogApiKey r
  else h.
Definition trim_bearer (key : string) : string :=
  if HasPrefix key "Bearer " || HasPrefix key "bearer " then TrimSpace (String.substring 7 (String.length key - 7) key)
  else key.
(** The key and what follows it after a hyphen. *)
Definition split_key (key : string) : string * list string :=
  let parts := SplitByte (TrimPrefix key "sk-") minus in (hd "" parts, parts).
Definition credentials (r : AuthRequest) : string * list string :=
  let key := trim_bearer (authorization r) in
  if bool_decide (key = "") || bool_decide (key = "midjourney-proxy") then split_key (trim_bearer (ar_MjApiSecret r))
  else split_key key.

(** ** API tokens *)

(** The settings stay in their JSON form. *)
Definition WriteContext (user : UserBase) : MA unit :=
  set_key "user_group" (AString (ub_Group user)) ;; set_key "user_quota" (AInt (ub_Quota user)) ;;
  set_key "user_status" (AInt (ub_Status user)) ;; set_key "user_email" (AString (ub_Email user)) ;;
  set_key "username" (AString (ub_Username user)) ;; set_key "user_setting" (AString (ub_Setting user)).

(** The error, which is the answer already given. *)
Definition SetupContextForToken (token : Token) (parts : list string) : MA (option auth_outcome) :=
  set_key "id" (AInt (t_UserId token)) ;; set_key "token_id" (AInt (t_Id token)) ;;
  set_key "token_key" (AString (t_Key token)) ;; set_key "token_name" (AString (t_Name token)) ;;
  set_key "token_unlimited_quota" (ABool (t_UnlimitedQuota token)) ;;
  (if t_UnlimitedQuota token then mret tt else set_key "token_quota" (AInt (t_RemainQuota token))) ;;
  (if t_ModelLimitsEnabled token then
     set_key "token_model_limit_enabled" (ABool true) ;;
     set_key "token_model_limit" (ALimits (gset_to_gmap true (GetModelLimitsMap token)))
   else set_key "token_model_limit_enabled" (ABool false)) ;;
  set_key "token_group" (AString (t_Group token)) ;;
  set_key "token_cross_group_retry" (ABool (t_CrossGroupRetry token)) ;;
  match parts with
  | _ :: channel :: _ =>
      admin ← on_world (IsAdmin (t_UserId token));
      if admin : bool then set_key "specific_channel_id" (AString channel) ;; mret None
      else mret (Some (Refuse StatusForbidden "普通用户不支持指定渠道" ""))
  | _ => mret None
  end.

Section token_auth.
Context (gs : GroupSettings) (rs : RatioSettings) (range : gmap string string -> list (string * string)).

Definition ContainsGroupRatio (name : string) : bool := bool_decide (is_Some (groupRatioMap rs !! name)).

Definition check_ip (token : Token) (clientIp : string) : option auth_outcome :=
  let allowIps := GetIpLimits token in
  if bool_decide (allowIps = []) then None
  else match ParseIP clientIp with
       | None => Some (Refuse StatusForbidden "无法解析客户端 IP 地址" "")
       | Some ip => if IsIpInCIDRList ip allowIps then None
                    else Some (Refuse StatusForbidden "您的 IP 不在令牌允许访问的列表中" "access_denied")
       end.
(** The group to use: that of the token, else that of the user. *)
Definition using_group (userGroup tokenGroup : string) : auth_outcome + string :=
  if decide (tokenGroup = "") then inr userGroup
  else if negb (bool_decide (is_Some (GetUserUsableGroups gs range userGroup !! tokenGroup))) then
    inl (Refuse StatusForbidden ("无权访问 " +:+ tokenGroup +:+ " 分组") "")
  else if negb (ContainsGroupRatio tokenGroup) && negb (bool_decide (tokenGroup = "auto")) then
    inl (Refuse StatusForbidden ("分组 " +:+ tokenGroup +:+ " 已被弃用") "")
  else inr tokenGroup.

Definition note_owner (token : option Token) : MA unit :=
  match token with
  | Some t => id ← gets (get_int "id"); if id =? 0 then set_key "id" (AInt (t_UserId t)) else mret tt
  | None => mret tt
  end.
Definition let_user_in (r : AuthRequest) (token : Token) (parts : list string) : MA auth_outcome :=
  user ← attempt (on_world (GetUserCache (t_UserId token)));
  match user with
  | Err _ => mret (Refuse StatusInternalServerError MsgDatabaseError "")
  | Ok userCache =>
      if negb (ub_Status userCache =? UserStatusEnabled) then mret (Refuse StatusForbidden MsgAuthUserBanned "")
      else
        WriteContext userCache ;;
        match using_group (ub_Group userCache) (t_Group token) with
        | inl o => mret o
        | inr userGroup =>
            set_key "group" (AString userGroup) ;;
            err ← SetupContextForToken token parts;
            mret (default Proceed err)
        end
  end.
Definition TokenAuth (r : AuthRequest) : MA auth_outcome :=
  let '(key, parts) := credentials r in
  '(token, err) ← on_world (ValidateUserToken key);
  note_owner token ;;
  match err, token with
  | Some (ErrDatabase _), _ => mret (Refuse StatusInternalServerError MsgDatabaseError "")
  | Some _, _ => mret (Refuse StatusUnauthorized MsgTokenInvalid "")
  | None, None => fail (ErrPanic "nil pointer dereference")
  | None, Some token =>
      match check_ip token (ar_ClientIP r) with
      | Some o => mret o
      | None => let_user_in r token parts
      end
  end.

Definition TokenOrUserAuth (r : AuthRequest) : MA auth_outcome :=
  match ar_Session r !! "id", ar_Session r !! "status" with
  | Some (AInt id), Some (AInt status) =>
      if (id >? 0) && (status =? UserStatusEnabled) then set_key "id" (AInt id) ;; mret Proceed else TokenAuth r
  | _, _ => TokenAuth r
  end.

Definition TokenAuthReadOnly (r : AuthRequest) : MA auth_outcome :=
  if decide (ar_Authorization r = "") then mret (Refuse StatusUnauthorized MsgTokenNotProvided "")
  else
    let '(key, _) := split_key (trim_bearer (ar_Authorization r)) in
    token ← attempt (on_world (GetTokenByKey key false));
    match token with
    | Err ErrRecordNotFound => mret (Refuse StatusUnauthorized MsgTokenInvalid "")
    | Err _ => mret (Refuse StatusInternalServerError MsgDatabaseError "")
    | Ok token =>
        if t_Status token =? TokenStatusDisabled then mret (Refuse StatusUnauthorized MsgTokenStatusUnavailable "")
        else
          user ← attempt (on_world (GetUserCache (t_UserId token)));
          match user with
          | Err _ => mret (Refuse StatusInternalServerError MsgDatabaseError "")
          | Ok userCache =>
              if negb (ub_Status userCache =? UserStatusEnabled) then mret (Refuse StatusForbidden MsgAuthUserBanned "")
              else
                set_key "id" (AInt (t_UserId token)) ;; set_key "token_id" (AInt (t_Id token)) ;;
                set_key "token_key" (AString (t_Key token)) ;; mret Proceed
          end
    end.
End token_auth.
