(* ===== verification/AuthProofs.v ===== *)
(** * Facts about authentication

    When a request with an API token passes, what the keys it leaves allow the
    distributor to do, when the management interface lets a user in, and what
    revoking a session or cleaning up expired tokens changes. *)

From S2P Require Import Prelude GoStd GoFloat Ssrf World ModelUtils UserModel TokenModel AdvancedCustom ChannelModel RatioSetting ChannelCache ChannelHealth ChannelSelect SelectProofs Distributor AuthModel Auth.
Import GoStrings GoText.

(** ** What the distributor reads of the keys *)

Definition pinned_text (a : Au) : option (option string) :=
  match au_keys a !! "specific_channel_id" with
  | Some (AString text) => Some (Some text)
  | Some _ => Some None
  | None => None
  end.
Definition model_limit_enabled (a : Au) : bool :=
  match au_keys a !! "token_model_limit_enabled" with Some (ABool b) => b | _ => false end.
Definition model_limit (a : Au) : option (gmap string bool) :=
  match au_keys a !! "token_model_limit" with Some (ALimits m) => Some m | Some _ => Some ∅ | None => None end.
(** The rest of the request comes from its body and its path. *)
Definition with_keys (a : Au) (dq : DistributeRequest) : DistributeRequest :=
  mkDistribute (pinned_text a) (dq_modelRequest dq) (model_limit_enabled a) (model_limit a) (get_string "group" a)
    (dq_Path dq) (dq_PlaygroundGroup dq) (dq_PreferredChannel dq).

(** ** Running the handlers *)

Lemma run_au_world {A} (m : MW A) a : on_world m a = ((m (au_world a)).1, a <| au_world := (m (au_world a)).2 |>).
Proof. unfold on_world. by destruct (m (au_world a)). Qed.
Lemma run_set_key key v a : set_key key v a = (Ok tt, a <| au_keys := <[key := v]> (au_keys a) |>).
Proof. reflexivity. Qed.
Lemma run_attempt {S E E' A} (m : M S E A) s : (attempt m : M S E' _) s = (Ok (m s).1, (m s).2).
Proof. unfold attempt. by destruct (m s). Qed.

(** ** API tokens *)

Section tokens.
Context (gs : GroupSettings) (rs : RatioSettings) (range : gmap string string -> list (string * string)).
#[local] Abbreviation TokenAuth := (TokenAuth gs rs range).
#[local] Abbreviation using_group := (using_group gs rs range).

(** The keys that the setup for a token writes. *)
Definition token_keys (t : Token) (keys : gmap string any) : gmap string any :=
  let keys := <["token_name" := AString (t_Name t)]> (<["token_key" := AString (t_Key t)]>
    (<["token_id" := AInt (t_Id t)]> (<["id" := AInt (t_UserId t)]> keys))) in
  let keys := <["token_unlimited_quota" := ABool (t_UnlimitedQuota t)]> keys in
  let keys := if t_UnlimitedQuota t then keys else <["token_quota" := AInt (t_RemainQuota t)]> keys in
  let keys := if t_ModelLimitsEnabled t
              then <["token_model_limit" := ALimits (gset_to_gmap true (GetModelLimitsMap t))]>
                     (<["token_model_limit_enabled" := ABool true]> keys)
              else <["token_model_limit_enabled" := ABool false]> keys in
  <["token_cross_group_retry" := ABool (t_CrossGroupRetry t)]> (<["token_group" := AString (t_Group t)]> keys).
Definition user_keys (u : UserBase) (keys : gmap string any) : gmap string any :=
  <["user_setting" := AString (ub_Setting u)]> (<["username" := AString (ub_Username u)]>
    (<["user_email" := AString (ub_Email u)]> (<["user_status" := AInt (ub_Status u)]>
      (<["user_quota" := AInt (ub_Quota u)]> (<["user_group" := AString (ub_Group u)]> keys))))).
Definition pins (parts : list string) : option string := match parts with _ :: channel :: _ => Some channel | _ => None end.

Lemma SetupContextForToken_run t parts a :
  SetupContextForToken t parts a =
    let a1 := a <| au_keys := token_keys t (au_keys a) |> in
    match pins parts with
    | None => (Ok None, a1)
    | Some channel =>
        match IsAdmin (t_UserId t) (au_world a) with
        | (Ok true, w) => (Ok None, a1 <| au_world := w |> <| au_keys := <["specific_channel_id" := AString channel]> (au_keys a1) |>)
        | (Ok false, w) => (Ok (Some (Refuse StatusForbidden "普通用户不支持指定渠道" "")), a1 <| au_world := w |>)
        | (Err e, w) => (Err e, a1 <| au_world := w |>)
        end
    end.
Proof.
  unfold SetupContextForToken, token_keys, pins.
  destruct a as [w s e k], (t_UnlimitedQuota t), (t_ModelLimitsEnabled t), parts as [|p [|c ps]]; try reflexivity.
  all: unfold mbind, M_bind, set_key, on_world, modify, mret, M_ret; cbn -[IsAdmin]; destruct (IsAdmin _ _) as [[[]|] w']; reflexivity.
Qed.
Lemma token_keys_spec t keys :
  let keys' := token_keys t keys in
  keys' !! "id" = Some (AInt (t_UserId t)) /\ keys' !! "token_id" = Some (AInt (t_Id t)) /\
  keys' !! "token_model_limit_enabled" = Some (ABool (t_ModelLimitsEnabled t)) /\
  (t_ModelLimitsEnabled t = true -> keys' !! "token_model_limit" = Some (ALimits (gset_to_gmap true (GetModelLimitsMap t)))) /\
  Forall (fun key => keys' !! key = keys !! key) ["specific_channel_id"; "group"; "user_group"].
Proof.
  unfold token_keys. destruct (t_UnlimitedQuota t), (t_ModelLimitsEnabled t); simpl;
    split_and!; try discriminate; try intros _; repeat constructor; simplify_map_eq; reflexivity.
Qed.

Lemma IsAdmin_total id w : exists b, (IsAdmin id w).1 = Ok b.
Proof.
  unfold IsAdmin. destruct (id =? 0); [by exists false|]. rewrite run_bind, run_attempt.
  destruct (db_find HDB (select_role id) w) as [[role|e] w1]; simpl; eauto.
Qed.
Lemma IsAdmin_role id w : (IsAdmin id w).1 = Ok true -> exists u, live_user (w_db w) id = Some u /\ RoleAdminUser <= u_Role u.
Proof.
  unfold IsAdmin, db_find. destruct (id =? 0); [done|]. rewrite run_bind, run_attempt, run_bind.
  destruct (ext_call_cases w) as (fs & Hw & Hr). destruct (ext_call w) as [r w1]. simpl in *. subst w1.
  destruct Hr as [->|[msg ->]]; [|done]. simpl. unfold select_role. destruct (live_user (w_db w) id) as [u|]; [|done].
  intros [= H]. apply Z.geb_le in H. by exists u.
Qed.

Lemma using_group_spec ug tg g : using_group ug tg = inr g <->
  g = (if decide (tg = "") then ug else tg) /\
  (tg = "" \/ is_Some (GetUserUsableGroups gs range ug !! tg) /\ (ContainsGroupRatio rs tg = true \/ tg = "auto")).
Proof.
  unfold Auth.using_group. case_decide as Ht; [subst; split; [intros [= ->]; auto|intros [-> _]; done]|].
  case_bool_decide as Hu; simpl; [|split; [done|intros [_ [?|[? _]]]; done]].
  destruct (ContainsGroupRatio rs tg) eqn:Hc; simpl.
  - split; [intros [= <-]; split; [done|]; auto|intros [-> _]; done].
  - case_bool_decide as Ha; simpl; [|split; [done|intros [_ [?|[_ [?|?]]]]; done]].
    split; [intros [= <-]; split; [done|]; auto|intros [-> _]; done].
Qed.
Lemma check_ip_spec t ip : check_ip t ip = None <->
  GetIpLimits t = [] \/ exists addr, ParseIP ip = Some addr /\ IsIpInCIDRList addr (GetIpLimits t) = true.
Proof.
  unfold check_ip. case_bool_decide as Hl; [split; auto|]. destruct (ParseIP ip) as [addr|].
  - destruct (IsIpInCIDRList addr _) eqn:E; [split; [intros _; right; by exists addr|done]|].
    split; [done|]. intros [?|(x & [= <-] & Hx)]; [done|congruence].
  - split; [done|]. intros [?|(x & ? & _)]; done.
Qed.

(** The rest of the request, once its token and its address are accepted. *)
Lemma let_user_in_run r t parts a :
  let_user_in gs rs range r t parts a =
    match GetUserCache (t_UserId t) (au_world a) with
    | (Err _, w) => (Ok (Refuse StatusInternalServerError MsgDatabaseError ""), a <| au_world := w |>)
    | (Ok ub, w) =>
        if ub_Status ub =? UserStatusEnabled then
          let a1 := a <| au_world := w |> <| au_keys := user_keys ub (au_keys a) |> in
          match using_group (ub_Group ub) (t_Group t) with
          | inl o => (Ok o, a1)
          | inr g =>
              match SetupContextForToken t parts (a1 <| au_keys := <["group" := AString g]> (au_keys a1) |>) with
              | (Ok err, a2) => (Ok (default Proceed err), a2)
              | (Err e, a2) => (Err e, a2)
              end
          end
        else (Ok (Refuse StatusForbidden MsgAuthUserBanned ""), a <| au_world := w |>)
    end.
Proof.
  unfold let_user_in. rewrite run_bind, run_attempt, run_au_world.
  destruct (GetUserCache (t_UserId t) (au_world a)) as [[ub|e] w]; simpl; [|reflexivity].
  destruct (ub_Status ub =? UserStatusEnabled); simpl; [|reflexivity].
  unfold WriteContext. rewrite !run_bind. cbn [run_set_key]. destruct a as [aw s e k].
  destruct (using_group (ub_Group ub) (t_Group t)) as [o|g]; reflexivity.
Qed.


(** The error of the setup, if there is one, is a refusal. *)
Lemma setup_decides t parts a : exists err,
  (SetupContextForToken t parts a).1 = Ok err /\ (default Proceed err = Proceed <-> err = None) /\
  (err = None <-> forall channel, pins parts = Some channel -> (IsAdmin (t_UserId t) (au_world a)).1 = Ok true).
Proof.
  rewrite SetupContextForToken_run. destruct (pins parts) as [channel|]; simpl; [|by exists None].
  destruct (IsAdmin_total (t_UserId t) (au_world a)) as [b E].
  destruct (IsAdmin _ _) as [[b'|e] w]; [|done]. injection E as ->.
  destruct b; simpl; eexists; (split; [done|]); [by split|]. do 2 (split; [done|]).
  intros H. by specialize (H channel eq_refl).
Qed.
Lemma let_user_in_decides r t parts a :
  (exists o, (let_user_in gs rs range r t parts a).1 = Ok o) /\
  ((let_user_in gs rs range r t parts a).1 = Ok Proceed <->
   exists ub w, GetUserCache (t_UserId t) (au_world a) = (Ok ub, w) /\ ub_Status ub = UserStatusEnabled /\
     (exists g, using_group (ub_Group ub) (t_Group t) = inr g) /\
     (forall channel, pins parts = Some channel -> (IsAdmin (t_UserId t) w).1 = Ok true)).
Proof.
  rewrite let_user_in_run. destruct (GetUserCache _ _) as [[ub|e] w].
  2:{ simpl. split; [eauto|]. split; [done|]. by intros (? & ? & ? & _). }
  destruct (Z.eqb_spec (ub_Status ub) UserStatusEnabled) as [Hs|Hs].
  2:{ simpl. split; [eauto|]. split; [done|]. intros (? & ? & [= <- <-] & ? & _). done. }
  destruct (using_group (ub_Group ub) (t_Group t)) as [o|g] eqn:Eg.
  { assert (o <> Proceed) by (unfold Auth.using_group in Eg; repeat case_match; congruence).
    simpl. split; [eauto|]. split; [congruence|]. intros (? & ? & [= <- <-] & _ & [g Hg] & _). congruence. }
  cbv zeta. set (a1 := _ <| au_keys := <["group" := AString g]> _ |>).
  destruct (setup_decides t parts a1) as (err & He & Hp & Hi). change (au_world a1) with w in Hi.
  destruct (SetupContextForToken t parts a1) as [[err'|e] a2]; simpl in *; [|done]. injection He as ->.
  split; [eauto|]. split.
  - intros [= H]. exists ub, w. split_and!; try done; [by exists g|]. by apply Hi, Hp.
  - intros (? & ? & [= <- <-] & _ & _ & H). f_equal. by apply Hp, Hi.
Qed.

(** What follows the validation of the key. *)
Lemma TokenAuth_run r a key parts : credentials r = (key, parts) ->
  exists a1, au_world a1 = (ValidateUserToken key (au_world a)).2 /\
    (au_keys a1 = au_keys a \/ exists v, au_keys a1 = <["id" := v]> (au_keys a)) /\
    TokenAuth r a =
      match (ValidateUserToken key (au_world a)).1 with
      | Err e => (Err e, a1)
      | Ok (_, Some (ErrDatabase _)) => (Ok (Refuse StatusInternalServerError MsgDatabaseError ""), a1)
      | Ok (_, Some _) => (Ok (Refuse StatusUnauthorized MsgTokenInvalid ""), a1)
      | Ok (None, None) => (Err (ErrPanic "nil pointer dereference"), a1)
      | Ok (Some t, None) => match check_ip t (ar_ClientIP r) with
                             | Some o => (Ok o, a1)
                             | None => let_user_in gs rs range r t parts a1
                             end
      end.
Proof.
  intros Ec. unfold Auth.TokenAuth. rewrite Ec, run_bind, run_au_world.
  destruct (ValidateUserToken key (au_world a)) as [[[token err]|e] w]; simpl; [|by exists (a <| au_world := w |>); eauto].
  set (a0 := a <| au_world := w |>). 
  assert (H : exists a1, note_owner token a0 = (Ok tt, a1) /\ au_world a1 = w /\
    (au_keys a1 = au_keys a \/ exists v, au_keys a1 = <["id" := v]> (au_keys a))).
  { destruct token as [t|]; [|by exists a0; eauto]. unfold note_owner. rewrite run_bind. simpl.
    case_match; eexists; (split; [reflexivity|]); (split; [reflexivity|]); [right; by eexists|by left]. }
  destruct H as (a1 & E & Hw & Hk). rewrite run_bind, E. exists a1. do 2 (split; [done|]).
  destruct token as [t|], err as [[]|]; try reflexivity. cbn. destruct (check_ip t (ar_ClientIP r)); reflexivity.
Qed.

(** C12 A request is let through by its API token exactly when the key names a token that is
    enabled, not expired and not used up, the address of the client is in the list of the
    token if it has one, the user is enabled and may use the group of the token, and a
    request that pins a channel belongs to an administrator.  Every other request gets an
    answer. *)
Theorem token_auth_decides r a :
  let '(key, parts) := credentials r in
  (exists o, (TokenAuth r a).1 = Ok o) /\
  ((TokenAuth r a).1 = Ok Proceed <->
   exists t w1 ub w2,
     key <> "" /\ GetTokenByKey key false (au_world a) = (Ok t, w1) /\ token_usable (w_now w1) t = true /\
     (GetIpLimits t = [] \/ exists ip, ParseIP (ar_ClientIP r) = Some ip /\ IsIpInCIDRList ip (GetIpLimits t) = true) /\
     GetUserCache (t_UserId t) w1 = (Ok ub, w2) /\ ub_Status ub = UserStatusEnabled /\
     (t_Group t = "" \/ is_Some (GetUserUsableGroups gs range (ub_Group ub) !! t_Group t) /\
        (ContainsGroupRatio rs (t_Group t) = true \/ t_Group t = "auto")) /\
     (forall channel, pins parts = Some channel -> (IsAdmin (t_UserId t) w2).1 = Ok true)).
Proof.
  destruct (credentials r) as [key parts] eqn:Ec. destruct (TokenAuth_run r a key parts Ec) as (a1 & Hw & _ & ->).
  destruct (decide (key = "")) as [->|Hk].
  { simpl. split; [eauto|]. split; [done|]. by intros (? & ? & ? & ? & ? & _). }
  pose proof (ValidateUserToken_spec key (au_world a) Hk) as Hv.
  destruct (GetTokenByKey key false (au_world a)) as [[t|e] w1] eqn:Eg.
  2:{ destruct e; rewrite Hv; simpl; (split; [eauto|]); (split; [done|]); by intros (? & ? & ? & ? & _ & ? & _). }
  destruct (token_usable (w_now w1) t) eqn:Eu.
  2:{ destruct Hv as (t' & w' & -> & _). simpl. split; [eauto|]. split; [done|].
      intros (? & ? & ? & ? & _ & [= <- <-] & ? & _). congruence. }
  rewrite Hv in *. simpl in *. destruct (check_ip t (ar_ClientIP r)) as [o|] eqn:Ei.
  - assert (o <> Proceed) by (unfold check_ip in Ei; repeat case_match; congruence).
    split; [eauto|]. split; [simpl; congruence|]. intros (? & ? & ? & ? & _ & [= <- <-] & _ & Hip & _).
    apply check_ip_spec in Hip. congruence.
  - apply check_ip_spec in Ei. destruct (let_user_in_decides r t parts a1) as [Ht Hl]. rewrite Hw in Hl.
    split; [done|]. rewrite Hl. split.
    + intros (ub & w & Hc & Hs & [g Hg] & Ha). apply using_group_spec in Hg as [_ Hg]. by exists t, w1, ub, w.
    + intros (? & ? & ub & w & _ & [= <- <-] & _ & _ & Hc & Hs & Hg & Ha). exists ub, w. split_and!; try done.
      eexists. by apply using_group_spec.
Qed.

(** The state after a request was let through. *)
Lemma passed_request r a a' key parts : credentials r = (key, parts) ->
  TokenAuth r a = (Ok Proceed, a') ->
  exists t w1 ub w2 keys,
    key <> "" /\ GetTokenByKey key false (au_world a) = (Ok t, w1) /\ token_usable (w_now w1) t = true /\
    GetUserCache (t_UserId t) w1 = (Ok ub, w2) /\ ub_Status ub = UserStatusEnabled /\
    (keys = au_keys a \/ exists v, keys = <["id" := v]> (au_keys a)) /\
    exists g, using_group (ub_Group ub) (t_Group t) = inr g /\
    let keys' := token_keys t (<["group" := AString g]> (user_keys ub keys)) in
    match pins parts with
    | None => au_keys a' = keys'
    | Some channel => (IsAdmin (t_UserId t) w2).1 = Ok true /\
        au_keys a' = <["specific_channel_id" := AString channel]> keys'
    end.
Proof.
  intros Ec. destruct (TokenAuth_run r a key parts Ec) as (a1 & Hw & Hkeys & ->).
  destruct (decide (key = "")) as [->|Hk]; [done|].
  pose proof (ValidateUserToken_spec key (au_world a) Hk) as Hv.
  destruct (GetTokenByKey key false (au_world a)) as [[t|e] w1]; [|by destruct e; rewrite Hv].
  destruct (token_usable (w_now w1) t) eqn:Eu; [|by destruct Hv as (t' & w' & -> & _)].
  rewrite Hv in *. simpl in *. destruct (check_ip t (ar_ClientIP r)) as [o|] eqn:Ei.
  { intros [= -> <-]. by unfold check_ip in Ei; repeat case_match. }
  rewrite let_user_in_run, Hw. destruct (GetUserCache (t_UserId t) w1) as [[ub|e] w2] eqn:Euc; [|done].
  destruct (Z.eqb_spec (ub_Status ub) UserStatusEnabled) as [Hs|]; [|done]. cbv zeta.
  destruct (using_group (ub_Group ub) (t_Group t)) as [o|g] eqn:Eg.
  { intros [= -> <-]. by unfold Auth.using_group in Eg; repeat case_match. }
  rewrite SetupContextForToken_run. cbn. intros H. exists t, w1, ub, w2, (au_keys a1). split_and!; try done.
  exists g. split; [done|]. destruct (pins parts) as [channel|]; [|by injection H as <-].
  destruct (IsAdmin (t_UserId t) w2) as [[[]|e] w3]; try done. by injection H as <-.
Qed.

Lemma passed_keys t ub g keys :
  let keys' := token_keys t (<["group" := AString g]> (user_keys ub keys)) in
  keys' !! "group" = Some (AString g) /\ keys' !! "user_group" = Some (AString (ub_Group ub)) /\
  keys' !! "specific_channel_id" = keys !! "specific_channel_id".
Proof.
  intros keys'. destruct (token_keys_spec t (<["group" := AString g]> (user_keys ub keys))) as (_ & _ & _ & _ & H).
  fold keys' in H. repeat (apply Forall_cons in H as [? H]). unfold user_keys in *.
  split_and!; etrans; try eassumption; simplify_map_eq; reflexivity.
Qed.

Section distribution.
Context `{ChannelJson} (compile : string -> option (string -> bool)) (RetryTimes : Z) (Intn : Z -> Z -> Z).
#[local] Abbreviation select_channel := (select_channel compile gs rs range RetryTimes Intn).

Lemma model_limit_passes a dq model : check_model_limit (with_keys a dq) model = None ->
  forall t, au_keys a !! "token_model_limit_enabled" = Some (ABool (t_ModelLimitsEnabled t)) ->
  (t_ModelLimitsEnabled t = true -> au_keys a !! "token_model_limit" = Some (ALimits (gset_to_gmap true (GetModelLimitsMap t)))) ->
  t_ModelLimitsEnabled t = true -> FormatMatchingModelName model ∈ GetModelLimits t.
Proof.
  unfold check_model_limit, with_keys, model_limit_enabled, model_limit. simpl. intros Hm t He Hl Ht.
  rewrite He, Ht, (Hl Ht) in Hm. simpl in Hm. rewrite lookup_gset_to_gmap in Hm.
  destruct (decide (FormatMatchingModelName model ∈ GetModelLimitsMap t)) as [Hi|Hi].
  - unfold GetModelLimitsMap in Hi. by apply elem_of_list_to_set in Hi.
  - by rewrite option_guard_False in Hm.
Qed.
Lemma usable_group dq ug model tg g0 g : using_group ug tg = inr g0 -> dq_UsingGroup dq = g0 ->
  HasPrefix (dq_Path dq) "/pg/chat/completions" = false -> request_group gs range dq ug model = inr g ->
  g = ug \/ is_Some (GetUserUsableGroups gs range ug !! g).
Proof.
  intros [-> Hg]%using_group_spec Hu Hp. unfold request_group. rewrite Hp, Hu.
  destruct (_ && _ && GroupInUserUsableGroups gs range ug "gpt") eqn:E; intros [= <-].
  - apply andb_true_iff in E as [_ E]. right. by apply bool_decide_eq_true in E.
  - case_decide; [by left|]. destruct Hg as [|[? _]]; [done|by right].
Qed.

(** C13 What the distributor does with a request that its API token let through is limited by
    the token: a channel is pinned only for an administrator, and then it is the enabled
    one of that number; otherwise the model is in the list of the token if it has one, and
    the group is the one of the user or one that the user may use. *)
Theorem authorized_requests_restricted r a a' key parts dq st l g st' :
  credentials r = (key, parts) -> au_keys a !! "specific_channel_id" = None ->
  TokenAuth r a = (Ok Proceed, a') -> sk_UserGroup (sl_keys st) = get_string "user_group" a' ->
  select_channel (with_keys a' dq) st = (Ok (DNext (Some l) g), st') ->
  exists t w1 ub w2,
    GetTokenByKey key false (au_world a) = (Ok t, w1) /\ GetUserCache (t_UserId t) w1 = (Ok ub, w2) /\
    match pins parts with
    | Some channel => (exists u, live_user (w_db w2) (t_UserId t) = Some u /\ RoleAdminUser <= u_Role u) /\
        exists id c, Atoi channel = Some id /\ d_channels (w_db (sl_w st)) !! id = Some c /\
          cn_Status c = ChannelStatusEnabled /\ object (sl_w st') l = c
    | None => exists model, dq_modelRequest dq = Ok (model, true) /\
        (t_ModelLimitsEnabled t = true -> FormatMatchingModelName model ∈ GetModelLimits t) /\
        (HasPrefix (dq_Path dq) "/pg/chat/completions" = false ->
           g = ub_Group ub \/ is_Some (GetUserUsableGroups gs range (ub_Group ub) !! g))
    end.
Proof.
  intros Ec Hfresh Hrun Hug Hsel.
  destruct (passed_request r a a' key parts Ec Hrun) as (t & w1 & ub & w2 & keys & _ & Ht & _ & Hub & _ & Hk & g0 & Hg & Hkeys).
  exists t, w1, ub, w2. do 2 (split; [done|]).
  destruct (passed_keys t ub g0 keys) as (Kg & Ku & Kc).
  destruct (token_keys_spec t (<["group" := AString g0]> (user_keys ub keys))) as (_ & _ & Kl & Kl' & _).
  assert (Hkc : keys !! "specific_channel_id" = None) by (destruct Hk as [->|[v ->]]; by simplify_map_eq).
  unfold Distributor.select_channel in Hsel. cbn [with_keys dq_modelRequest dq_SpecificChannelId] in Hsel.
  destruct (dq_modelRequest dq) as [[model should]|e]; [|by apply run_ret_inv in Hsel as [? _]].
  destruct (pins parts) as [channel|].
  - destruct Hkeys as [Hadmin Hkeys]. split; [by apply IsAdmin_role|].
    unfold pinned_text in Hsel. rewrite Hkeys, lookup_insert_eq in Hsel.
    apply run_bind_inv in Hsel as (x & s1 & (w' & Hp & ->)%in_world_inv & [E ->]%run_ret_inv).
    destruct x as [o|l']; [done|]. injection E as -> ->. apply pinned_channel_spec in Hp as (text & id & c & [= ->] & Hp).
    by exists id, c.
  - unfold pinned_text in Hsel. rewrite Hkeys, Kc, Hkc in Hsel.
    destruct (check_model_limit _ model) as [o|] eqn:El; [by apply run_ret_inv in Hsel as [? _]|].
    destruct should; [|by apply run_ret_inv in Hsel as [? _]]. cbn [negb] in Hsel.
    case_decide as Em; [by apply run_ret_inv in Hsel as [? _]|].
    apply run_bind_inv in Hsel as (ks & s1 & [-> ->]%gets_inv & Hsel).
    destruct (request_group _ _ _ _ _) as [o|g'] eqn:Eg; [by apply run_ret_inv in Hsel as [? _]|].
    apply run_bind_inv in Hsel as (x & s1 & _ & [E ->]%run_ret_inv).
    destruct x as [o|l']; [done|]. injection E as -> ->. exists model. split; [done|]. split.
    + eapply model_limit_passes; [exact El|by rewrite Hkeys..].
    + intros Hp. assert (Hus : sk_UserGroup (sl_keys st) = ub_Group ub) by (rewrite Hug; unfold get_string; by rewrite Hkeys, Ku).
      rewrite Hus in Eg. eapply (usable_group (with_keys a' dq)); [exact Hg| |exact Hp|exact Eg]. simpl. unfold get_string. by rewrite Hkeys, Kg.
Qed.
End distribution.
End tokens.
