(* ===== verification/SessionProofs.v ===== *)
(** * Facts about sessions and access tokens

    A revoked session stays out whatever happens later, the management interface admits
    only the roles it asks for, and the cleanup of expired tokens changes no answer. *)

From S2P Require Import Prelude GoStd GoFloat Ssrf World ModelUtils UserModel AuthModel Auth AuthProofs.
Import GoStrings GoText.

(** ** Statements on the tables *)

Definition with_faults (fs : list (option string)) (a : Au) : Au :=
  a <| au_world := au_world a <| w_faults := fs |> |>.
Lemma ext_call_au a : exists fs, on_world ext_call a = (Ok tt, with_faults fs a) \/
  exists msg, on_world ext_call a = (Err (ErrDB msg), with_faults fs a).
Proof.
  rewrite run_au_world. destruct (ext_call_cases (au_world a)) as (fs & -> & [->|[msg ->]]); exists fs; [by left|right; by exists msg].
Qed.
Lemma au_find_cases {A} (q : Au -> A) a : exists fs,
  au_find q a = (Ok (q (with_faults fs a)), with_faults fs a) \/
  exists msg, au_find q a = (Err (ErrDB msg), with_faults fs a).
Proof.
  unfold au_find. rewrite run_bind. destruct (ext_call_au a) as [fs [->|[msg ->]]]; exists fs; [by left|right; by exists msg].
Qed.
Lemma au_exec_cases f a : exists fs,
  au_exec f a = (Ok tt, f (with_faults fs a)) \/ exists msg, au_exec f a = (Err (ErrDB msg), with_faults fs a).
Proof.
  unfold au_exec. rewrite run_bind. destruct (ext_call_au a) as [fs [->|[msg ->]]]; exists fs; [by left|right; by exists msg].
Qed.
Lemma au_first_cases {A} (q : Au -> option A) a : exists fs,
  au_first q a = (match q (with_faults fs a) with Some x => Ok x | None => Err ErrRecordNotFound end, with_faults fs a) \/
  exists msg, au_first q a = (Err (ErrDB msg), with_faults fs a).
Proof.
  unfold au_first. rewrite run_bind. destruct (au_find_cases q a) as [fs [->|[msg ->]]]; exists fs; [left|right; by exists msg].
  by destruct (q (with_faults fs a)).
Qed.
Lemma au_find_ok {A} (q : Au -> A) a : w_faults (au_world a) = [] -> au_find q a = (Ok (q a), a).
Proof.
  intros H. unfold au_find. rewrite run_bind, run_au_world. rewrite ext_call_ok by done. by destruct a.
Qed.

(** ** The table of sessions *)

Section sessions.
Context (Hash : string -> string).

(** Keyed by its primary key, which the sequence of the database has passed, and with
    one row for a hash. *)
Record sessions_wf (a : Au) : Prop := {
  wf_key : forall id s, au_sessions a !! id = Some s -> us_ID s = id /\ id < w_next_id (au_world a);
  wf_hash : forall i j s t, au_sessions a !! i = Some s -> au_sessions a !! j = Some t ->
    us_SessionIDHash s = us_SessionIDHash t -> i = j;
}.
(** The hash belongs to a session that was revoked. *)
Definition revoked (hash : string) (a : Au) : Prop := exists id s, au_sessions a !! id = Some s /\
  us_SessionIDHash s = hash /\ us_DeletedAt s = None /\ is_Some (us_RevokedAt s).

Lemma session_rows_elem s a : s ∈ session_rows a <-> exists id, au_sessions a !! id = Some s.
Proof.
  unfold session_rows. rewrite list_elem_of_fmap. split.
  - intros ([id s'] & -> & H%elem_of_map_to_list). by exists id.
  - intros [id H]. exists (id, s). split; [done|]. by apply elem_of_map_to_list.
Qed.
Lemma find_unique {A} (P : A -> bool) l x : (forall y z, y ∈ l -> z ∈ l -> P y = true -> P z = true -> y = z) ->
  List.find P l = Some x <-> x ∈ l /\ P x = true.
Proof.
  intros Hu. split; [intros [H ?]%List.find_some; split; [by apply list_elem_of_In|done]|]. intros [Hx HP].
  destruct (List.find P l) as [y|] eqn:E.
  - apply List.find_some in E as [Hy%list_elem_of_In Ey]. f_equal. by apply Hu.
  - apply List.find_none with (x := x) in E; [congruence|by apply list_elem_of_In].
Qed.
Lemma session_by_hash_Some hash a s : sessions_wf a ->
  session_by_hash hash a = Some s <-> us_DeletedAt s = None /\ us_SessionIDHash s = hash /\ exists id, au_sessions a !! id = Some s.
Proof.
  intros Hwf. unfold session_by_hash, live_session, has_hash. rewrite find_unique.
  - rewrite session_rows_elem, andb_true_iff, !bool_decide_eq_true. naive_solver.
  - intros x y [i Hi]%session_rows_elem [j Hj]%session_rows_elem Hx Hy. bools.
    assert (i = j) as <- by (eapply (wf_hash a Hwf); [done..|congruence]). congruence.
Qed.

Definition stays_out (hash : string) (a : Au) : Prop := sessions_wf a /\ revoked hash a.
Lemma stays_out_world hash a w : w_next_id (au_world a) <= w_next_id w -> stays_out hash a -> stays_out hash (a <| au_world := w |>).
Proof.
  intros Hn [[Hk Hh] Hr]. split; [|exact Hr]. split; [|exact Hh]. intros id s Hs. simpl in *.
  destruct (Hk id s Hs). split; [done|lia].
Qed.
Lemma stays_out_faults hash a fs : stays_out hash a -> stays_out hash (with_faults fs a).
Proof. apply stays_out_world. done. Qed.
(** Replacing a row by one with the same identity that is revoked if the old one was. *)
Lemma stays_out_save hash a s s' : stays_out hash a -> au_sessions a !! us_ID s = Some s ->
  us_ID s' = us_ID s -> us_SessionIDHash s' = us_SessionIDHash s -> us_DeletedAt s' = us_DeletedAt s ->
  (is_Some (us_RevokedAt s) -> is_Some (us_RevokedAt s')) -> stays_out hash (save_session s' a).
Proof.
  intros [[Hk Hh] (id & t & Ht & Et & Hd & Hr)] Hs Ei Eh Ed Er. unfold save_session. rewrite Ei.
  assert (Hl : forall i u, <[us_ID s := s']> (au_sessions a) !! i = Some u ->
    exists u0, au_sessions a !! i = Some u0 /\ us_ID u = us_ID u0 /\ us_SessionIDHash u = us_SessionIDHash u0).
  { intros i u [[<- <-]|[_ Hu]]%lookup_insert_Some; [by exists s|by exists u]. }
  split; [split|].
  - intros i u (u0 & Hu & -> & _)%Hl. by apply Hk in Hu.
  - intros i j u v (u0 & Hu & _ & Eu)%Hl (v0 & Hv & _ & Ev)%Hl E. eapply Hh; [done..|congruence].
  - destruct (decide (id = us_ID s)) as [->|Hne].
    + rewrite Hs in Ht. injection Ht as <-. exists (us_ID s), s'. simpl. rewrite lookup_insert_eq, Eh, Ed. auto.
    + exists id, t. simpl. by rewrite lookup_insert_ne by congruence.
Qed.
Lemma stays_out_create hash a s : stays_out hash a -> (forall id t, au_sessions a !! id = Some t -> us_SessionIDHash t <> us_SessionIDHash s) ->
  let id := w_next_id (au_world a) in
  stays_out hash (save_session (s <| us_ID := id |>) (a <| au_world := au_world a <| w_next_id := id + 1 |> |>)).
Proof.
  intros [[Hk Hh] (i & t & Ht & Hr)] Hnew id. unfold save_session. cbn.
  assert (Hfresh : au_sessions a !! id = None) by (apply eq_None_not_Some; intros [u Hu]; destruct (Hk _ _ Hu); unfold id in *; lia).
  split; [split|]; simpl.
  - intros j u [[<- <-]|[_ Hu]]%lookup_insert_Some; simpl; [lia|]. destruct (Hk _ _ Hu). unfold id. lia.
  - intros j k u v [[<- <-]|[_ Hu]]%lookup_insert_Some [[<- <-]|[_ Hv]]%lookup_insert_Some E; try done; simpl in E.
    + by destruct (Hnew _ _ Hv).
    + by destruct (Hnew _ _ Hu).
    + by eapply Hh.
  - exists i, t. simpl. rewrite lookup_insert_ne by congruence. done.
Qed.
Lemma stays_out_revoke hash a which now : stays_out hash a -> stays_out hash (revoke which now a).
Proof.
  intros [[Hk Hh] (i & t & Ht & Et & Hd & Hr)]. unfold revoke.
  assert (Hl : forall i u, au_sessions (revoke which now a) !! i = Some u ->
    exists u0, au_sessions a !! i = Some u0 /\ us_ID u = us_ID u0 /\ us_SessionIDHash u = us_SessionIDHash u0).
  { intros j u. simpl. rewrite lookup_fmap. intros (u0 & Hu & ->)%fmap_Some. exists u0. by destruct (which u0). }
  split; [split|].
  - intros j u (u0 & Hu & -> & _)%Hl. by apply Hk in Hu.
  - intros j k u v (u0 & Hu & _ & Eu)%Hl (v0 & Hv & _ & Ev)%Hl E. eapply Hh; [done..|congruence].
  - eexists i, _. simpl. rewrite lookup_fmap, Ht. split; [reflexivity|]. destruct (which t); simpl; eauto.
Qed.

Lemma stays_out_find {A} hash (q : Au -> A) : preserves (stays_out hash) (au_find q).
Proof. intros a H. destruct (au_find_cases q a) as [fs [->|[msg ->]]]; by apply stays_out_faults. Qed.
Lemma stays_out_exec hash f : (forall a, stays_out hash a -> stays_out hash (f a)) -> preserves (stays_out hash) (au_exec f).
Proof. intros Hf a H. destruct (au_exec_cases f a) as [fs [->|[msg ->]]]; [apply Hf|]; by apply stays_out_faults. Qed.

Lemma stays_out_create_session hash s : preserves (stays_out hash) (create_session s).
Proof.
  intros a Ha. unfold create_session. rewrite run_bind. destruct (ext_call_au a) as [fs [->|[msg ->]]]; [|by apply stays_out_faults].
  apply (stays_out_faults _ _ fs) in Ha. set (a1 := with_faults fs a) in *. rewrite run_bind. simpl.
  destruct (existsb _ _) eqn:E; [done|]. apply stays_out_create; [done|]. intros id t Ht Et.
  rewrite <- not_true_iff_false in E. apply E, existsb_exists. exists t. split.
  - apply list_elem_of_In, session_rows_elem. by exists id.
  - by apply bool_decide_eq_true.
Qed.
Lemma stays_out_register hash user cookie agent ip : preserves (stays_out hash) (RegisterUserSession Hash user cookie agent ip).
Proof.
  intros a Ha. unfold RegisterUserSession. destruct (_ || _); [done|]. rewrite run_bind, run_au_world. simpl.
  set (a0 := a <| au_world := au_world a |>). rewrite run_bind, run_attempt.
  assert (Ha0 : stays_out hash a0) by (by apply stays_out_world).
  destruct (au_first_cases (session_by_hash (Hash cookie)) a0) as [fs [->|[msg ->]]]; simpl; [|by apply stays_out_faults].
  apply (stays_out_faults _ _ fs) in Ha0. set (a1 := with_faults fs a0) in *.
  destruct (session_by_hash (Hash cookie) a1) as [s|] eqn:E.
  - apply (session_by_hash_Some _ _ _ (proj1 Ha0)) in E as (Hd & Hh & id & Hs). destruct (session_over _ s); [done|].
    rewrite run_bind. match goal with |- context [save_session ?s'] => set (t := s') end.
    assert (Hid : au_sessions a1 !! us_ID s = Some s) by (by destruct (wf_key _ (proj1 Ha0) _ _ Hs) as [-> _]).
    destruct (au_exec_cases (save_session t) a1) as [fs' [->|[msg ->]]]; simpl; [|by apply stays_out_faults].
    apply (stays_out_save _ _ s); try done. by apply stays_out_faults.
  - rewrite run_bind. pose proof (stays_out_create_session hash (mkUserSession 0 user (Hash cookie) (sessionDeviceName agent)
      (truncateSessionValue agent 512) (truncateSessionValue ip 128) (w_now (au_world a)) (w_now (au_world a))
      (w_now (au_world a) + 30 * 24 * 60 * 60) None None) a1 Ha0) as Hc.
    by destruct (create_session _ a1) as [[|] a2].
Qed.

Lemma stays_out_on_world {A} hash (m : MW A) : (forall w, w_next_id w <= w_next_id (m w).2) -> preserves (stays_out hash) (on_world m).
Proof. intros Hm a Ha. rewrite run_au_world. by apply stays_out_world. Qed.
Lemma next_id_db_first {A} (q : DB -> option A) w : w_next_id w <= w_next_id (db_first HDB q w).2.
Proof.
  assert (H : preserves (fun w' => w_next_id w <= w_next_id w') (db_first HDB q)); [|by apply H].
  apply preserves_db_first; by intros.
Qed.
Lemma stays_out_set_key hash key v : preserves (stays_out hash) (set_key key v).
Proof. intros a [[Hk Hh] Hr]. split; [by split|exact Hr]. Qed.
Lemma stays_out_refuse {A} hash status message : preserves (stays_out hash) (refuse status message : MA (auth_outcome + A)).
Proof. by intros a. Qed.
Lemma stays_out_grant {A} hash (x : A) : preserves (stays_out hash) (grant x).
Proof. by intros a. Qed.
Lemma stays_out_now hash : preserves (stays_out hash) (on_world GetTimestamp).
Proof. by apply stays_out_on_world. Qed.
Lemma stays_out_first {A} hash (q : Au -> option A) : preserves (stays_out hash) (au_first q).
Proof. intros a H. destruct (au_first_cases q a) as [fs [->|[msg ->]]]; by apply stays_out_faults. Qed.
Hint Resolve stays_out_on_world next_id_db_first stays_out_set_key stays_out_refuse stays_out_grant stays_out_now stays_out_first
  stays_out_find stays_out_register : preserves.
Lemma stays_out_request hash r minRole : preserves (stays_out hash) (authHelper Hash r minRole).
Proof.
  unfold authHelper, identity, check_session, IsSessionRevoked, ValidateAccessToken, IsAccessTokenExpired, GetAccessTokenExpiry.
  pres; try (by intros a).
Qed.

(** ** Histories *)

Inductive session_op :=
| OpRegister (user : Z) (cookie agent ip : string)
| OpRequest (r : AuthRequest) (minRole : Z)
| OpRevoke (user id : Z)
| OpRevokeOthers (user : Z) (cookie : string)
| OpList (user : Z)
| OpTime (now : Z).
Definition run_op (op : session_op) (a : Au) : Au :=
  match op with
  | OpRegister user cookie agent ip => (RegisterUserSession Hash user cookie agent ip a).2
  | OpRequest r minRole => (authHelper Hash r minRole a).2
  | OpRevoke user id => (RevokeUserSession user id a).2
  | OpRevokeOthers user cookie => (RevokeOtherUserSessions Hash user cookie a).2
  | OpList user => (ListUserSessions user a).2
  | OpTime now => a <| au_world := au_world a <| w_now := now |> |>
  end.
Definition run_ops (ops : list session_op) (a : Au) : Au := fold_left (fun a op => run_op op a) ops a.

Lemma stays_out_revokes hash which : preserves (stays_out hash)
  (now ← on_world GetTimestamp; au_exec (revoke which now)).
Proof. apply preserves_bind; [apply stays_out_now|]. intros now. apply stays_out_exec. intros a. apply stays_out_revoke. Qed.
Lemma stays_out_op hash op a : stays_out hash a -> stays_out hash (run_op op a).
Proof.
  destruct op; simpl; [apply stays_out_register|apply stays_out_request|apply stays_out_revokes|apply stays_out_revokes
    |apply stays_out_find|by apply stays_out_world].
Qed.
Lemma stays_out_ops hash ops a : stays_out hash a -> stays_out hash (run_ops ops a).
Proof. revert a. induction ops as [|op ops IH]; [done|]. intros a Ha. by apply IH, stays_out_op. Qed.

(** A successful revocation reaches the open sessions it is meant for. *)
Lemma revoke_reaches which a a1 : (now ← on_world GetTimestamp; au_exec (revoke which now)) a = (Ok tt, a1) ->
  sessions_wf a -> forall id s, au_sessions a !! id = Some s -> which s = true -> us_DeletedAt s = None ->
  stays_out (us_SessionIDHash s) a1.
Proof.
  rewrite run_bind, run_au_world. simpl. set (a0 := a <| au_world := au_world a |>). intros Hrun Hwf id s Hs Hw Hd.
  destruct (au_exec_cases (revoke which (w_now (au_world a))) a0) as [fs [E|[msg E]]]; rewrite E in Hrun; [|done].
  injection Hrun as <-. assert (Hwf1 : sessions_wf (with_faults fs a0)) by (destruct Hwf; by split).
  split.
  - destruct Hwf1 as [Hk Hh]. split; unfold revoke; simpl in *.
    + intros i u. rewrite lookup_fmap. intros (u0 & Hu & ->)%fmap_Some. apply Hk in Hu. by destruct (which u0).
    + intros i j u v. rewrite !lookup_fmap. intros (u0 & Hu & ->)%fmap_Some (v0 & Hv & ->)%fmap_Some Ehash.
      eapply Hh; [done..|]. by destruct (which u0), (which v0).
  - exists id, (s <| us_RevokedAt := Some (w_now (au_world a)) |>). simpl. rewrite lookup_fmap, Hs. simpl. rewrite Hw.
    split_and!; (done || by eexists).
Qed.
Lemma au_first_ok {A} (q : Au -> option A) a x : w_faults (au_world a) = [] -> q a = Some x -> au_first q a = (Ok x, a).
Proof. intros Hf Hq. unfold au_first. by rewrite run_bind, au_find_ok, Hq. Qed.
Lemma revoked_checked r id a cookie : stays_out (Hash cookie) a -> w_faults (au_world a) = [] ->
  ar_Cookie r = Some cookie -> TrimSpace cookie <> "" ->
  (check_session Hash r id a).1 = Ok (inl (Refuse StatusUnauthorized "session revoked or expired" "")).
Proof.
  intros [Hwf (i & s & Hs & Hh & Hd & Hr)] Hf Hc Ht. unfold check_session, IsSessionRevoked. rewrite Hc, decide_False by done.
  assert (Hq : session_by_hash (Hash cookie) a = Some s) by (apply session_by_hash_Some; [done|]; split_and!; [done..|by exists i]).
  rewrite run_bind, run_attempt, run_bind, run_attempt, (au_first_ok _ _ _ Hf Hq). simpl.
  unfold session_over. rewrite bool_decide_eq_true_2 by done. reflexivity.
Qed.
(** A request of a revoked session. *)
Lemma revoked_refused r minRole a cookie : stays_out (Hash cookie) a -> w_faults (au_world a) = [] ->
  ar_Cookie r = Some cookie -> TrimSpace cookie <> "" -> is_Some (ar_Session r !! "username") ->
  exists status message code, (authHelper Hash r minRole a).1 = Ok (Refuse status message code).
Proof.
  intros Ha Hf Hc Ht [username Hu]. unfold authHelper, identity. rewrite run_bind, Hu. unfold grant at 1. rewrite run_ret.
  destruct (ar_Session r !! "id") as [[id| | | |]|], (ar_Session r !! "status") as [[status| | | |]|],
    (ar_Session r !! "role") as [[role| | | |]|], username as [|username| | |]; try (do 3 eexists; reflexivity).
  destruct (id <=? 0); [do 3 eexists; reflexivity|]. destruct (status =? _); [do 3 eexists; reflexivity|].
  destruct (role <? minRole); [do 3 eexists; reflexivity|]. destruct (negb (validUserInfo username role)); [do 3 eexists; reflexivity|].
  rewrite run_bind. pose proof (revoked_checked r id a cookie Ha Hf Hc Ht) as E.
  destruct (check_session Hash r id a) as [x a1]. simpl in E. subst. do 3 eexists. reflexivity.
Qed.

End sessions.

(** ** Access tokens *)

(** One row for an access token, deleted users included. *)
Record users_wf (d : DB) : Prop := {
  wf_user_id : forall id u, d_users d !! id = Some u -> u_Id u = id;
  wf_access_token : forall i j u v token, d_users d !! i = Some u -> d_users d !! j = Some v ->
    u_AccessToken u = Some token -> u_AccessToken v = Some token -> i = j;
}.
Lemma live_users_elem u d : u ∈ live_users d <-> u_DeletedAt u = None /\ exists id, d_users d !! id = Some u.
Proof.
  unfold live_users. rewrite list_elem_of_In, List.filter_In, <- list_elem_of_In, list_elem_of_fmap, bool_decide_eq_true. split.
  - intros [([id u'] & -> & H%elem_of_map_to_list) Hd]. eauto.
  - intros [Hd [id H]]. split; [|done]. exists (id, u). by split; [|apply elem_of_map_to_list].
Qed.
Lemma user_by_token_Some token d u : users_wf d -> user_by_access_token token d = Some u <->
  u_AccessToken u = Some token /\ u_DeletedAt u = None /\ exists id, d_users d !! id = Some u.
Proof.
  intros [Hid Htok]. unfold user_by_access_token. rewrite find_unique.
  - rewrite live_users_elem, bool_decide_eq_true. naive_solver.
  - intros x y [_ [i Hx]]%live_users_elem [_ [j Hy]]%live_users_elem Tx Ty. bools. assert (i = j) as <- by by eapply Htok. congruence.
Qed.

(** The owner of a presented token, when no statement fails. *)
Definition unexpired (id : Z) (a : Au) : bool :=
  match au_expiry a !! id with Some e => w_now (au_world a) <=? ae_ExpiresAt e | None => true end.
Definition token_owner (token : string) (a : Au) : option User :=
  if decide (token = "") then None
  else match user_by_access_token (ReplaceFirst token "Bearer " "") (w_db (au_world a)) with
       | Some u => if unexpired (u_Id u) a then Some u else None
       | None => None
       end.
Lemma db_first_cases {A} (q : DB -> option A) a : exists fs,
  on_world (db_first HDB q) a = (match q (w_db (au_world a)) with Some x => Ok x | None => Err ErrRecordNotFound end, with_faults fs a) \/
  exists msg, on_world (db_first HDB q) a = (Err (ErrDB msg), with_faults fs a).
Proof.
  rewrite run_au_world. unfold db_first, db_find. rewrite !run_bind.
  destruct (ext_call_cases (au_world a)) as (fs & Hw & Hr). destruct (ext_call (au_world a)) as [r w]. simpl in *. subst w. exists fs.
  destruct Hr as [->|[msg ->]]; [left|right; by exists msg]. simpl. by destruct (q (w_db (au_world a))).
Qed.
Lemma IsAccessTokenExpired_cases id a : exists fs,
  IsAccessTokenExpired id a = (Ok (negb (unexpired id a)), with_faults fs a) \/
  exists msg, IsAccessTokenExpired id a = (Err (ErrDB msg), with_faults fs a).
Proof.
  unfold IsAccessTokenExpired, GetAccessTokenExpiry, unexpired. rewrite run_bind, run_attempt.
  destruct (au_first_cases (fun a => au_expiry a !! id) a) as [fs [->|[msg ->]]]; exists fs; [left|right; by exists msg].
  simpl. destruct (au_expiry a !! id) as [e|]; [|done]. rewrite run_bind, run_au_world. simpl.
  by rewrite Z.gtb_ltb, Z.leb_antisym, negb_involutive.
Qed.
Lemma ValidateAccessToken_cases token a : exists fs,
  ValidateAccessToken token a = (Ok (token_owner token a), with_faults fs a) \/
  exists e, ValidateAccessToken token a = (Err (ErrDatabase e), with_faults fs a).
Proof.
  unfold ValidateAccessToken, token_owner. case_decide; [by exists (w_faults (au_world a)); left; destruct a as [[] ? ? ?]|].
  rewrite run_bind, run_attempt.
  destruct (db_first_cases (user_by_access_token (ReplaceFirst token "Bearer " "")) a) as [fs [->|[msg ->]]];
    [|exists fs; right; by eexists]. simpl.
  destruct (user_by_access_token _ _) as [u|]; [|exists fs; by left]. rewrite run_bind, run_attempt.
  destruct (IsAccessTokenExpired_cases (u_Id u) (with_faults fs a)) as [fs' [->|[msg ->]]]; exists fs'; [left|right; by eexists].
  simpl. change (unexpired (u_Id u) (with_faults fs a)) with (unexpired (u_Id u) a). by destruct (unexpired (u_Id u) a).
Qed.

Section management.
Context (Hash : string -> string).

(** Who the request says it is. *)
Definition claims (r : AuthRequest) (a : Au) (username : string) (role id status : Z) (useAccessToken : bool) : Prop :=
  if useAccessToken
  then ar_Session r !! "username" = None /\ exists u, token_owner (ar_Authorization r) a = Some u /\
         username = u_Username u /\ role = u_Role u /\ id = u_Id u /\ status = u_Status u
  else ar_Session r !! "username" = Some (AString username) /\ ar_Session r !! "role" = Some (AInt role) /\
         ar_Session r !! "id" = Some (AInt id) /\ ar_Session r !! "status" = Some (AInt status).
Lemma identity_claims r a a1 username role id status useAccessToken :
  identity r a = (Ok (inr (Some (AString username), Some (AInt role), Some (AInt id), Some (AInt status), useAccessToken)), a1) ->
  claims r a username role id status useAccessToken /\ au_keys a1 = au_keys a /\ (useAccessToken = false -> a1 = a).
Proof.
  unfold identity. destruct (ar_Session r !! "username") as [v|] eqn:Eu.
  - intros [= -> Hr Hi Hs <- <-]. done.
  - case_decide; [done|]. rewrite run_bind, run_attempt.
    destruct (ValidateAccessToken_cases (ar_Authorization r) a) as [fs [->|[e ->]]]; [|done]. simpl.
    destruct (token_owner _ a) as [u|] eqn:Et; [|done]. case_decide; [done|].
    destruct (negb _); [done|]. intros [= <- <- <- <- <- <-]. split; [|done]. split; [done|]. by exists u.
Qed.
Lemma identity_refuses r a o a1 : identity r a = (Ok (inl o), a1) -> o <> Proceed.
Proof.
  unfold identity. destruct (ar_Session r !! "username"); [done|]. case_decide; [by intros [= <- _]|].
  rewrite run_bind, run_attempt. destruct (ValidateAccessToken _ a) as [[[u|]|[]] a2]; simpl; repeat case_match; by intros [= <- _].
Qed.
(** A session check that lets the request pass did not find the session revoked. *)
Lemma check_session_passes r id a a1 : check_session Hash r id a = (Ok (inr tt), a1) ->
  (forall cookie, ar_Cookie r = Some cookie -> (IsSessionRevoked Hash cookie a).1 <> Ok true) /\ au_keys a1 = au_keys a.
Proof.
  intros E. split.
  - intros cookie Hc Hr. unfold check_session in E. rewrite Hc, run_bind, run_attempt, Hr in E. done.
  - assert (H : preserves (fun b => au_keys b = au_keys a) (check_session Hash r id)); [|specialize (H a eq_refl); by rewrite E in H].
    unfold check_session, IsSessionRevoked, RegisterUserSession, create_session, au_first, au_find, au_exec, refuse, grant.
    pres. all: intros b Hb; rewrite run_au_world; exact Hb.
Qed.
Lemma check_session_refuses r id a o a1 : check_session Hash r id a = (Ok (inl o), a1) -> o <> Proceed.
Proof.
  unfold check_session. destruct (ar_Cookie r) as [cookie|]; [|done]. rewrite run_bind, run_attempt.
  destruct (IsSessionRevoked _ _ a) as [[[]|] a2]; simpl; by intros [= <- _].
Qed.

Lemma IsValidateRole_spec role : IsValidateRole role = true -> role ∈ [RoleGuestUser; RoleCommonUser; RoleAdminUser; RoleRootUser].
Proof. unfold IsValidateRole. rewrite !orb_true_iff, !Z.eqb_eq, !elem_of_cons. tauto. Qed.

End management.
