(* ===== verification/AccessToken.v ===== *)
(** * The requests on access tokens (src/controller/token_management.go,
    src/controller/user.go, src/model/user.go)

    A user generates a token for the management interface, looks at it and revokes it;
    the life of a token, and the cleanup of expired ones. *)

From S2P Require Import Prelude GoStd Ssrf GoFloat RatioSetting World AdvancedCustom Sample ModelUtils UserModel TokenModel ChannelModel ChannelCache RoutingSamples ChannelHealth ChannelSelect SelectProofs Distributor RelaySamples AuthModel Auth AuthProofs SessionProofs.
Import GoStrings GoText.

(** ** Updating a user *)

Definition nz_string (new old : string) : string := if decide (new = "") then old else new.
Definition nz_int (new old : Z) : Z := if new =? 0 then old else new.
(** Updates with a struct writes its fields that are not zero; the three quota columns are
    left out. *)
Definition updates (new current : User) : User :=
  mkUser (u_Id current) (nz_string (u_Username new) (u_Username current)) (nz_int (u_Role new) (u_Role current))
    (nz_int (u_Status new) (u_Status current)) (nz_string (u_Email new) (u_Email current))
    (match u_AccessToken new with Some t => Some t | None => u_AccessToken current end)
    (u_Quota current) (u_UsedQuota current) (u_RequestCount current) (nz_string (u_Group new) (u_Group current))
    (nz_string (u_AffCode new) (u_AffCode current)) (nz_int (u_AffCount new) (u_AffCount current))
    (nz_int (u_AffQuota new) (u_AffQuota current)) (nz_int (u_AffHistoryQuota new) (u_AffHistoryQuota current))
    (nz_int (u_InviterId new) (u_InviterId current)) (u_DeletedAt current)
    (nz_string (u_Setting new) (u_Setting current)) (nz_string (u_StripeCustomer new) (u_StripeCustomer current)).
(** The unique indexes: username, access_token (NULLs aside) and aff_code. *)
Definition conflicts (u v : User) : bool :=
  negb (u_Id u =? u_Id v)
  && (bool_decide (u_Username u = u_Username v) || bool_decide (u_AffCode u = u_AffCode v)
      || bool_decide (is_Some (u_AccessToken u) /\ u_AccessToken u = u_AccessToken v)).
Definition user_conflict (u : User) (d : DB) : bool := existsb (fun v => conflicts u v.2) (map_to_list (d_users d)).
(** Without a new password. *)
Definition UpdateWithTx (h : handle) (user : User) : MW User :=
  current ← db_first h (fun d => live_user d (u_Id user));
  let new := updates user current in
  ext_call ;;
  conflict ← gets (fun w => user_conflict new (view h w));
  guard_err conflict ErrDuplicatedKey ;;
  modify (exec_write h (update_user (u_Id user) (updates user))) ;;
  db_first h (fun d => live_user d (u_Id user)).
Definition Update (user : User) : MW User :=
  user ← UpdateWithTx HDB user;
  updateUserCache user ;; mret user.
Definition SetAccessToken (token : string) (user : User) : User := user <| u_AccessToken := Some token |>.

(** ** The handlers *)

Definition with_user {A} (id : Z) (k : User -> MA (reply A)) : MA (reply A) :=
  user ← attempt (on_world (GetUserById id));
  match user with Err e => ApiError e | Ok user => k user end.
Definition no_token (user : User) : bool := bool_decide (default "" (u_AccessToken user) = "").

Definition RevokeAccessToken_handler (id : Z) : MA (reply unit) :=
  with_user id (fun user =>
    if no_token user then mret (Reply 200 "token.not_found")
    else
      r ← attempt (RevokeAccessToken (u_Id user));
      match r with
      | Err _ => mret (Reply 500 "Failed to revoke access token")
      | Ok _ => api (_ ← on_world (Update (SetAccessToken "" user)); mret tt)
      end).
(** Whether there is a token, the token, when it expires and whether it did. *)
Definition GetAccessTokenInfo (id : Z) : MA (reply (bool * option string * option Z * bool)) :=
  with_user id (fun user =>
    if no_token user then mret (Success (false, None, None, false))
    else
      expiry ← attempt (GetAccessTokenExpiry (u_Id user));
      match expiry with
      | Err _ => mret (Success (true, u_AccessToken user, None, false))
      | Ok expiry =>
          expired ← attempt (IsAccessTokenExpired (u_Id user));
          mret (Success (true, u_AccessToken user, Some (ae_ExpiresAt expiry),
                         match expired with Ok b => b | Err (ErrDB _) => true | Err _ => false end))
      end).
(** [key]: the random key.  The search for a duplicate runs on the row of the user itself,
    because First adds its primary key to the condition; if it fails it counts as none. *)
Definition GenerateAccessToken (id : Z) (key : result error string) : MA (reply (option string)) :=
  with_user id (fun user =>
    match key with
    | Err _ => mret (Reply 200 "common.generate_failed")
    | Ok key =>
        let user := SetAccessToken key user in
        duplicate ← attempt (on_world (db_first HDB (fun d =>
          match live_user d (u_Id user) with
          | Some u => if decide (u_AccessToken u = Some key) then Some u else None
          | None => None
          end)));
        match duplicate with
        | Ok _ => mret (Reply 200 "common.uuid_duplicate")
        | Err _ =>
            updated ← attempt (on_world (Update user));
            match updated with
            | Err e => ApiError e
            | Ok user => ignore_err (SetAccessTokenExpiry (u_Id user) 90) ;; mret (Success (u_AccessToken user))
            end
        end
    end).

(** ** Facts about the life of a token *)

Import GoStrings GoText GoTime.

(** ** Without failures *)

Lemma update_field_ok key f w : w_faults w = [] -> exists m,
  if_redis (RedisHUpdateField w_redis_users put_redis_users key f) w = (Ok tt, w <| w_redis_users := m |>).
Proof.
  intros Hf. assert (Hid : w = w <| w_redis_users := w_redis_users w |>) by by destruct w.
  unfold if_redis. rewrite run_bind. simpl. destruct (RedisEnabled (w_cfg w)); [|by exists (w_redis_users w); rewrite <- Hid].
  unfold RedisHUpdateField. rewrite run_bind, ext_call_ok by done. rewrite run_bind. simpl.
  destruct (w_redis_users w !! key); [|by exists (w_redis_users w); rewrite <- Hid].
  rewrite run_bind, ext_call_ok by done. eexists. reflexivity.
Qed.
Lemma updateUserCache_ok u w : w_faults w = [] -> exists m, updateUserCache u w = (Ok tt, w <| w_redis_users := m |>).
Proof.
  intros Hf. assert (Hid : w = w <| w_redis_users := w_redis_users w |>) by by destruct w.
  unfold updateUserCache. unfold if_redis at 1. rewrite run_bind. simpl.
  destruct (RedisEnabled (w_cfg w)); [|by exists (w_redis_users w); rewrite <- Hid].
  unfold updateUserGroupCache, updateUserEmailCache, updateUserStatusCache, updateUserNameCache, updateUserSettingCache.
  do 4 (rewrite run_bind; match goal with |- context [if_redis (RedisHUpdateField _ _ ?k ?f) ?w'] =>
    destruct (update_field_ok k f w') as [? ->]; [done|] end).
  match goal with |- context [if_redis (RedisHUpdateField _ _ ?k ?f) ?w'] => destruct (update_field_ok k f w') as [m ->]; [done|] end.
  by exists m.
Qed.
Lemma db_first_ok {A} (q : DB -> option A) w : w_faults w = [] ->
  db_first HDB q w = (match q (w_db w) with Some x => Ok x | None => Err ErrRecordNotFound end, w).
Proof. intros Hf. unfold db_first, db_find. rewrite !run_bind, ext_call_ok by done. cbn. by destruct (q (w_db w)). Qed.
Lemma Update_ok user w : w_faults w = [] ->
  match live_user (w_db w) (u_Id user) with
  | None => Update user w = (Err ErrRecordNotFound, w)
  | Some current =>
      if user_conflict (updates user current) (w_db w) then Update user w = (Err ErrDuplicatedKey, w)
      else exists m, Update user w = (Ok (updates user current),
        w <| w_db := update_user (u_Id user) (updates user) (w_db w) |> <| w_redis_users := m |>)
  end.
Proof.
  intros Hf. unfold Update, UpdateWithTx. rewrite !run_bind, db_first_ok by done.
  destruct (live_user (w_db w) (u_Id user)) as [current|] eqn:E; [|done].
  rewrite run_bind, ext_call_ok by done. cbn -[user_conflict updateUserCache db_first].
  destruct (user_conflict (updates user current) (w_db w)) eqn:Ec; rewrite run_bind; cbn -[user_conflict updateUserCache db_first]; rewrite Ec; [done|].
  rewrite !run_bind. cbn -[updateUserCache db_first]. rewrite run_bind. cbn -[updateUserCache db_first].
  set (w1 := w <| w_db := _ |>). rewrite db_first_ok by done.
  assert (Hl : live_user (w_db w1) (u_Id user) = Some (updates user current)).
  { unfold live_user in *. simpl. rewrite lookup_alter_eq. destruct (d_users (w_db w) !! u_Id user) as [u|]; [|done].
    destruct (u_DeletedAt u) eqn:Hd; [done|]. injection E as ->. simpl. by rewrite Hd. }
  rewrite Hl, run_bind. destruct (updateUserCache_ok (updates user current) w1) as [m ->]; [done|]. by exists m.
Qed.

(** ** The table of users after an update *)

Lemma live_user_spec d id u : live_user d id = Some u <-> d_users d !! id = Some u /\ u_DeletedAt u = None.
Proof.
  unfold live_user. destruct (d_users d !! id) as [v|]; [|naive_solver]. destruct (u_DeletedAt v) eqn:E; naive_solver congruence.
Qed.
Lemma updated_lookup d id f i u : d_users (update_user id f d) !! i = Some u <->
  exists v, d_users d !! i = Some v /\ u = if decide (i = id) then f v else v.
Proof.
  unfold update_user. simpl. rewrite lookup_alter_Some. split.
  - intros [(-> & v & Hv & ->)|[Hne Hv]]; eexists; (split; [done|]); [by rewrite decide_True|by rewrite decide_False].
  - intros (v & Hv & ->). case_decide; subst; eauto.
Qed.
Lemma updated_wf d id user current : users_wf d -> live_user d id = Some current ->
  user_conflict (updates user current) d = false -> users_wf (update_user id (updates user) d).
Proof.
  intros [Hid Htok] [Hc _]%live_user_spec Hu.
  assert (Hother : forall i v t, d_users d !! i = Some v -> u_AccessToken v = Some t ->
    u_AccessToken (updates user current) = Some t -> i = id).
  { intros i v t Hv Tv Tu. destruct (decide (i = id)) as [|Hne]; [done|]. exfalso.
    rewrite <- not_true_iff_false in Hu. apply Hu, existsb_exists. exists (i, v).
    split; [by apply list_elem_of_In, elem_of_map_to_list|]. unfold conflicts. simpl. rewrite (Hid _ _ Hc), (Hid _ _ Hv).
    apply andb_true_iff. split; [apply negb_true_iff, Z.eqb_neq; congruence|].
    apply orb_true_iff. right. apply bool_decide_eq_true. rewrite Tv. simpl in *. by rewrite Tu. }
  split.
  - intros i u (v & Hv & ->)%updated_lookup. apply Hid in Hv as Hi. by case_decide.
  - intros i j u v t (u0 & Hu0 & ->)%updated_lookup (v0 & Hv0 & ->)%updated_lookup Tu Tv.
    repeat case_decide; subst; try done.
    + assert (v0 = current) as -> by congruence. by eapply Hother.
    + assert (u0 = current) as -> by congruence. symmetry. by eapply Hother.
    + by eapply Htok.
Qed.
Lemma updated_owner d id user current token u : users_wf d -> live_user d id = Some current ->
  user_conflict (updates user current) d = false ->
  user_by_access_token token (update_user id (updates user) d) = Some u <->
  u = updates user current /\ u_AccessToken u = Some token \/ u_Id u <> id /\ user_by_access_token token d = Some u.
Proof.
  intros Hwf Hc Hu. rewrite !user_by_token_Some by (done || by eapply updated_wf). pose proof Hc as [Hl Hd]%live_user_spec. split.
  - intros (Ht & Hdel & i & (v & Hv & ->)%updated_lookup). case_decide as Hi; [subst|].
    + left. split; [|done]. congruence.
    + right. split; [by rewrite (wf_user_id _ Hwf _ _ Hv)|]. split_and!; try done. by exists i.
  - intros [[-> Ht]|(Hne & Ht & Hdel & i & Hi)].
    + split_and!; try done. exists id. apply updated_lookup. exists current. by rewrite decide_True.
    + split_and!; try done. exists i. apply updated_lookup. exists u. split; [done|].
      rewrite decide_False; [done|]. intros ->. by apply Hne, (wf_user_id _ Hwf _ _ Hi).
Qed.

(** ** The life of a token *)

Definition at_time (now : Z) (a : Au) : Au := a <| au_world := au_world a <| w_now := now |> |>.
Lemma ninety_days now : Add now (Duration (wrap64 (90 * 24)) Hour) = now + 90 * 86400.
Proof.
  change (Duration (wrap64 (90 * 24)) Hour) with (7776000 * Second). unfold Add.
  rewrite <- Z.mul_add_distr_r, Z.div_mul by discriminate. reflexivity.
Qed.
Lemma with_user_run {A} id (k : User -> MA (reply A)) a x a' : w_faults (au_world a) = [] ->
  with_user id k a = (Ok (Success x), a') ->
  exists u, live_user (w_db (au_world a)) id = Some u /\ k u a = (Ok (Success x), a').
Proof.
  intros Hf. unfold with_user, GetUserById. rewrite run_bind, run_attempt, run_au_world. destruct (id =? 0); [done|].
  rewrite db_first_ok by done. destruct (live_user _ id) as [u|]; [|done]. simpl. intros H. exists u. split; [done|].
  by destruct a.
Qed.
Lemma SetExpiry_ok id a : w_faults (au_world a) = [] ->
  SetAccessTokenExpiry id 90 a = (Ok tt, a <| au_expiry := <[id := mkExpiry id (w_now (au_world a) + 90 * 86400)]> (au_expiry a) |>).
Proof.
  intros Hf. unfold SetAccessTokenExpiry. rewrite run_bind, run_au_world. simpl. unfold au_exec.
  rewrite run_bind, run_au_world, ext_call_ok by done. rewrite ninety_days. by destruct a.
Qed.

(** What a successful generation leaves. *)
Lemma GenerateAccessToken_run id key tok a a1 : w_faults (au_world a) = [] -> users_wf (w_db (au_world a)) ->
  GenerateAccessToken id (Ok key) a = (Ok (Success tok), a1) ->
  exists u, live_user (w_db (au_world a)) id = Some u /\ tok = Some key /\
    user_conflict (updates (SetAccessToken key u) u) (w_db (au_world a)) = false /\
    w_db (au_world a1) = update_user id (updates (SetAccessToken key u)) (w_db (au_world a)) /\
    w_faults (au_world a1) = [] /\ w_now (au_world a1) = w_now (au_world a) /\
    au_expiry a1 = <[id := mkExpiry id (w_now (au_world a) + 90 * 86400)]> (au_expiry a).
Proof.
  intros Hf Hwf (u & Hu & Hrun)%with_user_run; [|done]. exists u. split; [done|].
  assert (Hid : u_Id u = id) by (apply live_user_spec in Hu as [Hu _]; by apply (wf_user_id _ Hwf)).
  rewrite run_bind, run_attempt, run_au_world, db_first_ok in Hrun by done.
  match type of Hrun with context [match ?q with Some x => Ok x | None => _ end] => destruct q as [v|] end; [done|].
  cbn -[Update SetAccessTokenExpiry SetAccessToken] in Hrun. rewrite run_bind, run_attempt, run_au_world in Hrun.
  pose proof (Update_ok (SetAccessToken key u) (au_world a) Hf) as Hup.
  change (u_Id (SetAccessToken key u)) with (u_Id u) in Hup. rewrite Hid, Hu in Hup.
  cbn -[Update SetAccessTokenExpiry SetAccessToken] in Hrun.
  destruct (user_conflict _ _); [by rewrite Hup in Hrun|]. destruct Hup as [m Hup]. rewrite Hup in Hrun.
  cbn -[Update SetAccessTokenExpiry SetAccessToken updates] in Hrun.
  unfold ignore_err in Hrun. rewrite run_bind in Hrun. change (u_Id (updates _ u)) with (u_Id u) in Hrun.
  rewrite Hid, SetExpiry_ok in Hrun by done. injection Hrun as <- <-. done.
Qed.
Lemma RevokeAccessToken_run id a a1 : w_faults (au_world a) = [] -> users_wf (w_db (au_world a)) ->
  RevokeAccessToken_handler id a = (Ok (Success tt), a1) ->
  exists u, live_user (w_db (au_world a)) id = Some u /\
    user_conflict (updates (SetAccessToken "" u) u) (w_db (au_world a)) = false /\
    w_db (au_world a1) = update_user id (updates (SetAccessToken "" u)) (w_db (au_world a)).
Proof.
  intros Hf Hwf (u & Hu & Hrun)%with_user_run; [|done]. exists u. split; [done|].
  assert (Hid : u_Id u = id) by (apply live_user_spec in Hu as [Hu _]; by apply (wf_user_id _ Hwf)).
  destruct (no_token u); [done|]. rewrite run_bind, run_attempt in Hrun.
  unfold RevokeAccessToken, au_exec in Hrun. rewrite run_bind, run_au_world in Hrun. cbn -[Update] in Hrun.
  rewrite run_bind, run_au_world, ext_call_ok in Hrun by done. cbn -[Update] in Hrun.
  unfold api in Hrun. rewrite run_bind, run_attempt, run_bind, run_au_world in Hrun. cbn -[Update] in Hrun.
  pose proof (Update_ok (SetAccessToken "" u) (au_world a) Hf) as Hup.
  change (u_Id (SetAccessToken "" u)) with (u_Id u) in Hup. rewrite Hid, Hu in Hup.
  destruct (user_conflict _ _); [by rewrite Hup in Hrun|]. destruct Hup as [m Hup]. rewrite Hup in Hrun.
  injection Hrun as <-. done.
Qed.


(** ** The cleanup of expired tokens *)


Section cleanup.
Context (a : Au).
#[local] Abbreviation now := (w_now (au_world a)).
Definition expired_ids : gset Z := dom (expired_before now a).

Lemma expired_ids_spec id : id ∈ expired_ids <-> exists e, au_expiry a !! id = Some e /\ ae_ExpiresAt e < now.
Proof.
  unfold expired_ids, expired_before. rewrite elem_of_dom. split.
  - intros [e [He Hlt]%map_lookup_filter_Some]. by exists e.
  - intros (e & He & Hlt). exists e. by apply map_lookup_filter_Some.
Qed.
Lemma not_expired id : id ∉ expired_ids <-> unexpired id a = true.
Proof.
  rewrite expired_ids_spec. unfold unexpired. destruct (au_expiry a !! id) as [e|].
  - rewrite Z.leb_le. split; [intros H|intros H (e' & [= <-] & ?); lia].
    destruct (Z.le_gt_cases now (ae_ExpiresAt e)); [done|]. destruct H. exists e. split; [done|lia].
  - split; [done|]. by intros _ (? & ? & _).
Qed.
(** The users once the tokens of the expired ones are dropped. *)
Lemma cleared_lookup id u : d_users (set_access_token expired_ids None (w_db (au_world a))) !! id = Some u <->
  exists u0, d_users (w_db (au_world a)) !! id = Some u0 /\
    u = if decide (id ∈ expired_ids) then match u_DeletedAt u0 with None => u0 <| u_AccessToken := None |> | Some _ => u0 end else u0.
Proof.
  unfold set_access_token. simpl. rewrite map_lookup_imap. destruct (d_users _ !! id) as [u0|]; simpl; [|naive_solver].
  split; [intros [= <-]; by exists u0|]. by intros (? & [= <-] & ->).
Qed.
Lemma cleared_wf : users_wf (w_db (au_world a)) -> users_wf (set_access_token expired_ids None (w_db (au_world a))).
Proof.
  intros [Hid Htok].
  assert (Hsub : forall id u t, d_users (set_access_token expired_ids None (w_db (au_world a))) !! id = Some u ->
    u_AccessToken u = Some t -> d_users (w_db (au_world a)) !! id = Some u).
  { intros id u t (u0 & Hu & ->)%cleared_lookup. case_decide; [|done]. by destruct (u_DeletedAt u0). }
  split.
  - intros id u (u0 & Hu & ->)%cleared_lookup. apply Hid in Hu. case_decide; [|done]. by destruct (u_DeletedAt u0).
  - intros i j u v t Hu Hv Tu Tv. eapply (Htok i j u v t); eauto.
Qed.
Lemma cleared_owner token u : users_wf (w_db (au_world a)) ->
  user_by_access_token token (set_access_token expired_ids None (w_db (au_world a))) = Some u <->
  user_by_access_token token (w_db (au_world a)) = Some u /\ unexpired (u_Id u) a = true.
Proof.
  intros Hwf. rewrite !user_by_token_Some by (done || by apply cleared_wf). split.
  - intros (Ht & Hd & id & (u0 & Hu & ->)%cleared_lookup). pose proof (wf_user_id _ Hwf id u0 Hu) as Hid. case_decide as Hx.
    + destruct (u_DeletedAt u0) eqn:E; simpl in *; congruence.
    + rewrite <- not_expired, Hid. split; [|done]. split_and!; try done. by exists id.
  - intros ((Ht & Hd & id & Hu) & Hx%not_expired). rewrite (wf_user_id _ Hwf id u Hu) in Hx. split_and!; try done.
    exists id. apply cleared_lookup. exists u. by rewrite decide_False by done.
Qed.

(** The same answers to every token. *)
Definition same_owners (a' : Au) : Prop := forall token, token_owner token a' = token_owner token a.
Lemma same_owners_cleared a' : users_wf (w_db (au_world a)) ->
  w_db (au_world a') = set_access_token expired_ids None (w_db (au_world a)) ->
  (forall id, unexpired id a = true -> unexpired id a' = true) -> same_owners a'.
Proof.
  intros Hwf Hdb Hexp token. unfold token_owner. case_decide; [done|]. rewrite Hdb.
  destruct (user_by_access_token _ (set_access_token _ _ _)) as [u|] eqn:E.
  - apply cleared_owner in E as [-> Hu]; [|done]. by rewrite Hu, Hexp.
  - destruct (user_by_access_token _ (w_db _)) as [u|] eqn:E'; [|done]. destruct (unexpired (u_Id u) a) eqn:Hu; [|done].
    assert (E2 := proj2 (cleared_owner _ u Hwf) (conj E' Hu)). congruence.
Qed.
Lemma same_owners_kept a' : w_db (au_world a') = w_db (au_world a) ->
  (forall id, unexpired id a' = unexpired id a) -> same_owners a'.
Proof. intros Hdb Hexp token. unfold token_owner. rewrite Hdb. by destruct (user_by_access_token _ _); rewrite ?Hexp. Qed.
(** The rows that the cleanup leaves are not expired. *)
Lemma left_unexpired id a' : w_now (au_world a') = now ->
  unexpired id (a' <| au_expiry := filter (fun e => ~ ae_ExpiresAt e.2 < now) (au_expiry a') |>) = true.
Proof.
  intros Hn. unfold unexpired. simpl. rewrite Hn. destruct (filter _ (au_expiry a') !! id) as [e|] eqn:E; [|done].
  apply map_lookup_filter_Some in E as [_ E]. simpl in E. apply Z.leb_le. lia.
Qed.
End cleanup.

(** C17 The cleanup changes no answer: before and after it, and if it breaks off at any of its
    statements, a presented access token belongs to the same user or to nobody. *)
Theorem cleanup_changes_no_answer a token : users_wf (w_db (au_world a)) ->
  token_owner token (CleanupExpiredTokens a).2 = token_owner token a.
Proof.
  intros Hwf. assert (Hgoal : same_owners a (CleanupExpiredTokens a).2); [|apply Hgoal].
  unfold CleanupExpiredTokens. rewrite run_bind, run_au_world. simpl. set (a0 := a <| au_world := au_world a |>).
  rewrite run_bind. destruct (au_find_cases (fun a1 => dom (expired_before (w_now (au_world a)) a1)) a0) as [fs [->|[msg ->]]]; [|done].
  set (a1 := with_faults fs a0). change (dom (expired_before _ a1)) with (expired_ids a). rewrite run_bind. simpl. case_decide as He.
  - simpl. match goal with |- context [au_exec ?f a1] => destruct (au_exec_cases f a1) as [fs' [->|[msg ->]]] end; simpl; [|done].
    apply same_owners_kept; [done|]. intros id. etrans; [by apply (left_unexpired a id (with_faults fs' a1))|]. symmetry. apply not_expired. rewrite He. set_solver.
  - rewrite run_au_world. unfold db_exec. rewrite run_bind.
    destruct (ext_call_cases (au_world a1)) as (fs' & Hw & Hr). destruct (ext_call (au_world a1)) as [r w]. simpl in Hw, Hr. subst w.
    destruct Hr as [->|[msg ->]]; [|done]. simpl. set (a2 := a1 <| au_world := _ |>).
    match goal with |- context [au_exec ?f a2] => destruct (au_exec_cases f a2) as [fs'' [->|[msg ->]]] end; simpl;
      (apply same_owners_cleared; [done|done|]); intros id Hx; [by apply (left_unexpired a id (with_faults fs'' a2))|done].
Qed.

(** ** Examples of authentication *)

Import GoStrings GoText.
#[local] Existing Instance sample_json.

(** ** Requests with an API token *)

Definition open_groups : GroupSettings := mkGroupSettings {["default" := "standard"; "vip" := "fast"; "auto" := "any"]} ∅.
Definition no_request : AuthRequest := mkAuthRequest "/v1/chat/completions" "" "" "" "" "" "" "10.1.2.3" "agent" None ∅.
Definition bearer (key : string) : AuthRequest := no_request <| ar_Authorization := "Bearer sk-" +:+ key |>.
Definition vip_user : User := sample_user <| u_Group := "vip" |>.
Definition vip_token : Token :=
  sample_token <| t_Group := "auto" |> <| t_ModelLimitsEnabled := true |> <| t_ModelLimits := "gpt-4o" |>
    <| t_AllowIps := Some "10.0.0.0/8" |>.
Definition auth_world (u : User) (t : Token) : World :=
  sample_world <| w_db := sample_db <| d_users := {[1 := u]} |> <| d_tokens := {[7 := t]} |> |>.
Definition auth_state (w : World) : Au := mkAu w ∅ ∅ ∅.
#[local] Abbreviation token_auth := (TokenAuth open_groups group_ratios in_map_order).

Example token_lets_in : (token_auth (bearer "k7") (auth_state (auth_world vip_user vip_token))).1 = Ok Proceed.
Proof. by vm_compute. Qed.
Example foreign_address :
  (token_auth (bearer "k7" <| ar_ClientIP := "11.1.2.3" |>) (auth_state (auth_world vip_user vip_token))).1
  = Ok (Refuse StatusForbidden "您的 IP 不在令牌允许访问的列表中" "access_denied").
Proof. by vm_compute. Qed.
Example pinned_by_a_user :
  (token_auth (bearer "k7-4") (auth_state (auth_world vip_user vip_token))).1
  = Ok (Refuse StatusForbidden "普通用户不支持指定渠道" "").
Proof. by vm_compute. Qed.
Example pinned_by_an_administrator :
  let a := (token_auth (bearer "k7-4") (auth_state (auth_world (vip_user <| u_Role := 10 |>) vip_token))) in
  a.1 = Ok Proceed /\ pinned_text a.2 = Some (Some "4").
Proof. by vm_compute. Qed.
Example gemini_query :
  credentials (no_request <| ar_Path := "/v1beta/models/gemini-2.0-flash" |> <| ar_QueryKey := "sk-abc-9" |>) = ("abc", ["abc"; "9"]).
Proof. by vm_compute. Qed.

Definition first_state : Au := auth_state (auth_world vip_user vip_token).
Definition passed_state : Au := (token_auth (bearer "k7") first_state).2.
Definition token_select : M Sel error distribute_outcome :=
  select_channel sample_compile open_groups group_ratios in_map_order 1 first_draw (with_keys passed_state sample_distribute).
Lemma authorized_requests_restricted_witness :
  exists st' t w1 ub w2, token_select (sample_sel "auto" cached_world) = (Ok (DNext (Some 4%positive) "auto"), st') /\
    GetTokenByKey "k7" false (au_world first_state) = (Ok t, w1) /\ GetUserCache (t_UserId t) w1 = (Ok ub, w2) /\
    (t_ModelLimitsEnabled t = true -> FormatMatchingModelName "gpt-4o" ∈ GetModelLimits t).
Proof.
  assert (Ha : token_auth (bearer "k7") first_state = (Ok Proceed, passed_state)).
  { rewrite (surjective_pairing (token_auth _ _)). apply (f_equal2 pair); [vm_compute; reflexivity|reflexivity]. }
  assert (Hs : (token_select (sample_sel "auto" cached_world)).1 = Ok (DNext (Some 4%positive) "auto")) by (vm_compute; reflexivity).
  destruct (token_select (sample_sel "auto" cached_world)) as [r st'] eqn:E. simpl in Hs. subst r.
  destruct (authorized_requests_restricted open_groups group_ratios in_map_order sample_compile 1 first_draw (bearer "k7") first_state
    passed_state "k7" ["k7"] sample_distribute (sample_sel "auto" cached_world) 4 "auto" st')
    as (t & w1 & ub & w2 & Ht & Hu & model & Hm & Hl & _);
    [vm_compute; reflexivity|reflexivity|exact Ha|vm_compute; reflexivity|exact E|].
  exists st', t, w1, ub, w2. split; [reflexivity|]. split; [exact Ht|]. split; [exact Hu|].
  injection Hm as <-. exact Hl.
Defined.

(** ** Sessions *)

Definition plain_hash (cookie : string) : string := "sha:" +:+ cookie.
Definition laptop : UserSession := mkUserSession 5 1 "sha:laptop" "Firefox" "Firefox" "10.1.2.3" 0 0 0 None None.
Definition phone : UserSession := mkUserSession 6 1 "sha:phone" "Safari" "Safari" "10.1.2.4" 0 0 0 None None.
Definition session_state (faults : list (option string)) : Au :=
  mkAu (sample_world <| w_faults := faults |>) {[5 := laptop; 6 := phone]} ∅ ∅.
Definition session_request (cookie : string) : AuthRequest :=
  no_request <| ar_Cookie := Some cookie |>
    <| ar_Session := {["username" := AString "alice"; "role" := AInt 10; "id" := AInt 1; "status" := AInt 1]} |>.
Lemma session_state_wf faults : sessions_wf (session_state faults).
Proof.
  split; simpl.
  - intros id s [[<- <-]|[_ [<- <-]%lookup_singleton_Some]]%lookup_insert_Some; done.
  - intros i j s t [[<- <-]|[_ [<- <-]%lookup_singleton_Some]]%lookup_insert_Some
      [[<- <-]|[_ [<- <-]%lookup_singleton_Some]]%lookup_insert_Some E; done.
Qed.
Example laptop_lets_in : (authHelper plain_hash (session_request "laptop") RoleAdminUser (session_state [])).1 = Ok Proceed.
Proof. by vm_compute. Qed.

Definition others_revoked : Au := (RevokeOtherUserSessions plain_hash 1 "phone" (session_state [])).2.
Definition later_ops : list session_op :=
  [OpRegister 1 "laptop" "Firefox" "10.1.2.3"; OpRequest (session_request "laptop") 1; OpTime 1800000000; OpRevoke 1 6].
(** The same request when the query of the check fails. *)
Theorem failing_check_lets_in :
  let a := others_revoked in
  (authHelper plain_hash (session_request "laptop") RoleAdminUser a).1 = Ok (Refuse StatusUnauthorized "session revoked or expired" "") /\
  (authHelper plain_hash (session_request "laptop") RoleAdminUser (with_faults [Some "database is locked"] a)).1 = Ok Proceed.
Proof. by vm_compute. Qed.


(** ** Access tokens *)

Definition token_user (id : Z) (name : string) (token : option string) : User :=
  sample_user <| u_Id := id |> <| u_Username := name |> <| u_AffCode := name |> <| u_AccessToken := token |>.
Definition token_state (users : gmap Z User) (expiry : gmap Z AccessTokenExpiry) : Au :=
  mkAu (sample_world <| w_db := sample_db <| d_users := users |> |>) ∅ expiry ∅.
Definition two_users (s t : option string) : gmap Z User := {[1 := token_user 1 "alice" s; 2 := token_user 2 "bob" t]}.
Lemma two_users_wf s t expiry : s <> t -> users_wf (w_db (au_world (token_state (two_users (Some s) (Some t)) expiry))).
Proof.
  intros Hne. split; simpl; unfold two_users.
  - intros id u [[<- <-]|[_ [<- <-]%lookup_singleton_Some]]%lookup_insert_Some; done.
  - intros i j u v k [[<- <-]|[_ [<- <-]%lookup_singleton_Some]]%lookup_insert_Some
      [[<- <-]|[_ [<- <-]%lookup_singleton_Some]]%lookup_insert_Some; simpl; congruence.
Qed.
Definition expiring : Au := token_state (two_users (Some "aaa") (Some "bbb")) {[1 := mkExpiry 1 1600000000; 2 := mkExpiry 2 1800000000]}.
Lemma cleanup_changes_no_answer_witness :
  token_owner "bbb" (CleanupExpiredTokens expiring).2 = Some (token_user 2 "bob" (Some "bbb")) /\
  token_owner "aaa" (CleanupExpiredTokens expiring).2 = None.
Proof.
  assert (Hwf : users_wf (w_db (au_world expiring))) by (apply two_users_wf; discriminate).
  split; (etrans; [apply cleanup_changes_no_answer; exact Hwf|vm_compute; reflexivity]).
Defined.

Definition without_tokens : Au := token_state (two_users (Some "aaa") (Some "bbb")) ∅.

(** Revoking writes the empty text into a unique column: only one user at a time can. *)
Theorem second_revocation_fails :
  let a := (RevokeAccessToken_handler 1 without_tokens).2 in
  (RevokeAccessToken_handler 1 without_tokens).1 = Ok (Success tt) /\
  (RevokeAccessToken_handler 2 a).1 = Ok (Reply 200 "duplicated key not allowed") /\
  token_owner "bbb" (RevokeAccessToken_handler 2 a).2 = Some (token_user 2 "bob" (Some "bbb")).
Proof. by vm_compute. Qed.
(** The empty text is then a token: the header [Bearer ] names the user who revoked. *)
Theorem empty_token_names_user :
  (ValidateAccessToken "Bearer " (RevokeAccessToken_handler 1 without_tokens).2).1 = Ok (Some (token_user 1 "alice" (Some ""))) /\
  (authHelper plain_hash (no_request <| ar_Authorization := "Bearer " |>) RoleCommonUser
     (RevokeAccessToken_handler 1 without_tokens).2).1 = Ok Proceed.
Proof. by vm_compute. Qed.
