(* ===== verification/Authz.v ===== *)
(** * Permissions of administrators (src/service/authz)

    A registry of resources and actions, roles with baseline grants, and overrides of
    single users, stored as rules of the library casbin.  The rules of the database are
    shared; each node answers from the snapshot in its enforcer. *)

From S2P Require Import Prelude GoStd Ability.
Import GoStrings GoText.

(** ** Registry (registry.go, resources_channel.go) *)

Record Permission := mkPermission { pm_Resource : string; pm_Action : string }.
#[export] Instance Permission_eq_dec : EqDecision Permission.
Proof. solve_decision. Defined.
Abbreviation PermissionsMap := (gmap string (gmap string bool)).
Definition EffectAllow : string := "allow".
Definition EffectDeny : string := "deny".
Definition UserSubject (userID : Z) : string := "user:" +:+ Itoa userID.
Definition RoleSubject (roleKey : string) : string := "role:" +:+ roleKey.

(** The labels are left out. *)
Record ActionDefinition := mkAction { ad_Action : string; ad_DefaultRoles : list string }.
Record ResourceDefinition := mkResource { rs_Resource : string; rs_Actions : list ActionDefinition }.
Definition RegisterResource (resource : ResourceDefinition) (registry : list ResourceDefinition) : list ResourceDefinition :=
  registry ++ [resource].

Definition BuiltInRoleRoot : string := "root".
Definition BuiltInRoleAdmin : string := "admin".
Definition ResourceChannel : string := "channel".
Definition ActionRead : string := "read".
Definition ActionOperate : string := "operate".
Definition ActionWrite : string := "write".
Definition ActionSensitiveWrite : string := "sensitive_write".
Definition ActionSecretView : string := "secret_view".
(** The registry once the package is initialized. *)
Definition registry : list ResourceDefinition :=
  RegisterResource (mkResource ResourceChannel
    [mkAction ActionRead [BuiltInRoleAdmin]; mkAction ActionOperate [BuiltInRoleAdmin]; mkAction ActionWrite [BuiltInRoleAdmin];
     mkAction ActionSensitiveWrite []; mkAction ActionSecretView []]) [].

Definition permissions_where (which : ActionDefinition -> bool) : list Permission :=
  concat ((fun r => (fun a => mkPermission (rs_Resource r) (ad_Action a)) <$> List.filter which (rs_Actions r)) <$> registry).
Definition AllPermissions : list Permission := permissions_where (fun _ => true).
Definition actionHasRole (action : ActionDefinition) (roleKey : string) : bool :=
  existsb (fun r => bool_decide (r = roleKey)) (ad_DefaultRoles action).
Definition PermissionsForRole (roleKey : string) : list Permission := permissions_where (fun a => actionHasRole a roleKey).
Definition find_resource (resource : string) : option ResourceDefinition :=
  List.find (fun known => bool_decide (rs_Resource known = resource)) registry.
Definition isKnownResource (resource : string) : bool := bool_decide (is_Some (find_resource resource)).
Definition catalogActions (resource : string) : list ActionDefinition :=
  match find_resource resource with Some known => rs_Actions known | None => [] end.
Definition isKnownPermission (permission : Permission) : bool :=
  existsb (fun r => bool_decide (rs_Resource r = pm_Resource permission)
                    && existsb (fun a => bool_decide (ad_Action a = pm_Action permission)) (rs_Actions r)) registry.

(** ** Roles (role.go, assignment.go) *)

Record RoleSpec := mkRoleSpec { ro_Key : string; ro_Name : string; ro_Description : string; ro_BuiltIn : bool; ro_Superuser : bool; ro_Sort : Z }.
Definition builtInRoles : list RoleSpec :=
  [mkRoleSpec BuiltInRoleRoot "Root" "Built-in root authorization role" true true 0;
   mkRoleSpec BuiltInRoleAdmin "Admin" "Built-in admin authorization role" true false 10].
(** A map with an entry for every resource and action; later entries win. *)
Definition matrix (allowed : string -> ActionDefinition -> bool) : PermissionsMap :=
  let actions r := list_to_map (rev ((fun a => (ad_Action a, allowed (rs_Resource r) a)) <$> rs_Actions r)) : gmap string bool in
  list_to_map (rev ((fun r => (rs_Resource r, actions r)) <$> registry)).
Definition roleGrants (spec : RoleSpec) : PermissionsMap :=
  matrix (fun _ a => ro_Superuser spec || actionHasRole a (ro_Key spec)).
Definition Roles : list (RoleSpec * PermissionsMap) := (fun spec => (spec, roleGrants spec)) <$> builtInRoles.
Definition roleSpec (roleKey : string) : option RoleSpec := List.find (fun spec => bool_decide (ro_Key spec = roleKey)) builtInRoles.
Definition isSuperuserRole (roleKey : string) : bool := match roleSpec roleKey with Some spec => ro_Superuser spec | None => false end.
Definition managedRoleKey : string := BuiltInRoleAdmin.
Definition resolveSubjectRoles (userID systemRole : Z) : list string :=
  if systemRole >=? 100 then [BuiltInRoleRoot] else if systemRole >=? 10 then [BuiltInRoleAdmin] else [].

(** ** State *)

(** src/model/casbin_rule.go; the table is the list of its rows by id. *)
Record CasbinRule := mkRule { ru_Ptype : string; ru_V0 : string; ru_V1 : string; ru_V2 : string; ru_V3 : string; ru_V4 : string; ru_V5 : string }.
#[export] Instance CasbinRule_eq_dec : EqDecision CasbinRule.
Proof. solve_decision. Defined.
(** src/model/authz_role.go without its times. *)
Record AuthzRole := mkAuthzRole { ar_Key : string; ar_Name : string; ar_Description : string; ar_BuiltIn : bool; ar_Enabled : bool; ar_Sort : Z }.

Section state.
Context {E : Type}.
(** The two tables, the statements that fail, and the enforcer of the node. *)
Record Az := mkAz {
  az_rules : list CasbinRule;
  az_roles : gmap string AuthzRole;
  az_faults : list (option string);
  az_enforcer : option E;
}.
#[export] Instance Az_settable : Settable Az := fields_of mkAz < az_rules; az_roles; az_faults; az_enforcer >.
Definition az_call : M Az error unit := fun s =>
  match az_faults s with
  | [] => (Ok tt, s)
  | None :: fs => (Ok tt, s <| az_faults := fs |>)
  | Some msg :: fs => (Err (ErrDB msg), s <| az_faults := fs |>)
  end.
Definition az_find {A} (q : Az -> A) : M Az error A := az_call ;; gets q.
Definition az_exec (f : Az -> Az) : M Az error unit := az_call ;; modify f.
(** db.Transaction: an error, also of the commit, restores the tables. *)
Definition az_transaction (m : M Az error unit) : M Az error unit := fun s =>
  let undo s' := s' <| az_rules := az_rules s |> <| az_roles := az_roles s |> in
  match az_call s with
  | (Err e, s1) => (Err e, s1)
  | (Ok _, s1) =>
      match m s1 with
      | (Err e, s2) => (Err e, undo s2)
      | (Ok _, s2) => match az_call s2 with (Err e, s3) => (Err e, undo s3) | (Ok _, s3) => (Ok tt, s3) end
      end
  end.
End state.
#[global] Arguments Az : clear implicits.
#[global] Arguments az_call : simpl never.

(** ** The adapter (adapter.go) *)

Definition policy : Type := list string.
Definition column (idx : nat) (rule : CasbinRule) : string :=
  match idx with
  | 0%nat => ru_V0 rule | 1%nat => ru_V1 rule | 2%nat => ru_V2 rule
  | 3%nat => ru_V3 rule | 4%nat => ru_V4 rule | _ => ru_V5 rule
  end.
Definition newRule (ptype : string) (p : policy) : CasbinRule :=
  mkRule ptype (nth 0 p "") (nth 1 p "") (nth 2 p "") (nth 3 p "") (nth 4 p "") (nth 5 p "").
Definition rule_values (rule : CasbinRule) : list string := (fun i => column i rule) <$> seq 0 6.
Definition ruleToLine (rule : CasbinRule) : string :=
  let v3 := if bool_decide (ru_Ptype rule = "p") && negb (bool_decide (ru_V0 rule = "")) && negb (bool_decide (ru_V1 rule = ""))
               && negb (bool_decide (ru_V2 rule = "")) && bool_decide (ru_V3 rule = "") then EffectAllow else ru_V3 rule in
  let values := [ru_V0 rule; ru_V1 rule; ru_V2 rule; v3; ru_V4 rule; ru_V5 rule] in
  Join (ru_Ptype rule :: filter (fun value => value <> "") values) ", ".
(** INSERT ... ON CONFLICT DO NOTHING: all columns together are unique. *)
Definition insert_rule (rules : list CasbinRule) (rule : CasbinRule) : list CasbinRule :=
  if decide (rule ∈ rules) then rules else rules ++ [rule].
(** The query on all columns. *)
Definition ruleQuery (ptype : string) (rule : policy) (r : CasbinRule) : bool := bool_decide (r = newRule ptype rule).
(** The columns from [fieldIndex] on; an empty value matches everything. *)
Fixpoint columns_match (fieldIndex : nat) (fieldValues : list string) (r : CasbinRule) : bool :=
  match fieldValues with
  | [] => true
  | value :: fieldValues =>
      (bool_decide (value = "") || bool_decide (column fieldIndex r = value)) && columns_match (S fieldIndex) fieldValues r
  end.
Definition delete_rules {E} (which : CasbinRule -> bool) (s : Az E) : Az E :=
  s <| az_rules := List.filter (fun r => negb (which r)) (az_rules s) |>.

Section adapter.
Context {E : Type} (LoadPolicyLine : string -> E -> result error E).
#[local] Abbreviation MZ := (M (Az E) error).

Fixpoint load_lines (rules : list CasbinRule) (m : E) : result error E :=
  match rules with
  | [] => Ok m
  | rule :: rules => match LoadPolicyLine (ruleToLine rule) m with Err e => Err e | Ok m => load_lines rules m end
  end.
Definition adapter_LoadPolicy (m : E) : MZ E :=
  rules ← az_find az_rules;
  of_result (load_lines rules m).
(** The policies of the two sections. *)
Definition adapter_SavePolicy (p g : list (string * policy)) : MZ unit :=
  az_transaction (
    az_exec (delete_rules (fun _ => true)) ;;
    let rules := (fun tp => newRule tp.1 tp.2) <$> p ++ g in
    match rules with [] => mret tt | _ => az_exec (fun s => s <| az_rules := az_rules s ++ rules |>) end).
Definition adapter_AddPolicy (ptype : string) (rule : policy) : MZ unit :=
  count ← az_find (fun s => length (List.filter (ruleQuery ptype rule) (az_rules s)));
  if (0 <? count)%nat then mret tt
  else az_exec (fun s => s <| az_rules := insert_rule (az_rules s) (newRule ptype rule) |>).
Definition adapter_RemovePolicy (ptype : string) (rule : policy) : MZ unit := az_exec (delete_rules (ruleQuery ptype rule)).
Definition adapter_RemoveFilteredPolicy (ptype : string) (fieldIndex : nat) (fieldValues : list string) : MZ unit :=
  az_exec (delete_rules (fun r => bool_decide (ru_Ptype r = ptype) && columns_match fieldIndex fieldValues r)).
End adapter.

(** ** casbin

    The enforcer of the library: its operations as the package calls them.  With auto-save
    a change goes to the adapter first. *)

Class SyncedEnforcer (E : Type) := {
  new_model : E;                                               (** the model of enforcer.go without policies *)
  LoadPolicyLine : string -> E -> result error E;
  GetFilteredPolicy : E -> list string -> result error (list policy);       (** fieldIndex 0 *)
  AddPolicy : (policy -> M (Az E) error unit) -> policy -> M (Az E) error bool;
  RemoveFilteredPolicy : (list string -> M (Az E) error unit) -> list string -> M (Az E) error bool;
}.

Section authz.
Context `{SyncedEnforcer E}.
#[local] Abbreviation MZ := (M (Az E) error).

Definition enforcer_missing : error := ErrNew "authz enforcer is not initialized".
Definition currentEnforcer : MZ (option E) := gets az_enforcer.
Definition with_enforcer {A} (k : E -> MZ A) : MZ A :=
  e ← currentEnforcer;
  match e with None => fail enforcer_missing | Some e => k e end.
Definition e_AddPolicy (p : policy) : MZ bool := AddPolicy (adapter_AddPolicy "p") p.
Definition e_RemoveFilteredPolicy (fieldValues : list string) : MZ bool :=
  RemoveFilteredPolicy (adapter_RemoveFilteredPolicy "p" 0) fieldValues.

(** ** Start and synchronization (seed.go, enforcer.go) *)

Definition upsert_role (spec : RoleSpec) (s : Az E) : Az E :=
  s <| az_roles := <[ro_Key spec := mkAuthzRole (ro_Key spec) (ro_Name spec) (ro_Description spec) (ro_BuiltIn spec) true (ro_Sort spec)]> (az_roles s) |>.
Definition seedBuiltInRoles : MZ unit := forM_ builtInRoles (fun spec => az_exec (upsert_role spec)).
Definition resetBuiltInRolePolicies : MZ unit :=
  let subjects := (fun spec => RoleSubject (ro_Key spec)) <$> builtInRoles in
  az_exec (delete_rules (fun r => bool_decide (ru_Ptype r = "p") && bool_decide (ru_V0 r ∈ subjects))).
Definition seedDefaultPolicies : MZ unit :=
  with_enforcer (fun _ =>
    forM_ builtInRoles (fun spec =>
      if ro_Superuser spec then mret tt
      else forM_ (PermissionsForRole (ro_Key spec)) (fun p =>
             _ ← e_AddPolicy [RoleSubject (ro_Key spec); pm_Resource p; pm_Action p; EffectAllow]; mret tt))).
Definition LoadPolicy : MZ unit :=
  e ← adapter_LoadPolicy LoadPolicyLine new_model;
  modify (fun s => s <| az_enforcer := Some e |>).
Definition Init (IsMasterNode : bool) : MZ unit :=
  (if IsMasterNode then seedBuiltInRoles ;; resetBuiltInRolePolicies else mret tt) ;;
  LoadPolicy ;;
  if IsMasterNode then seedDefaultPolicies else mret tt.
Definition ReloadPolicy : MZ unit := with_enforcer (fun _ => LoadPolicy).

(** The loop of every node, for the given number of periods; a failure is logged. *)
Definition StartPolicySync (frequency : Z) (periods : nat) : MZ unit :=
  if frequency <=? 0 then mret tt else forM_ (seq 0 periods) (fun _ => ignore_err ReloadPolicy).

(** ** Decisions (resolver.go) *)

Definition policyEffect (p : policy) : string :=
  match nth_error p 3 with None | Some "" => EffectAllow | Some eft => eft end.
(** A deny wins over an allow; other effects count for nothing. *)
Fixpoint combined_effect (hasAllow : bool) (policies : list policy) : option string :=
  match policies with
  | [] => if hasAllow then Some EffectAllow else None
  | p :: policies =>
      if decide (policyEffect p = EffectDeny) then Some EffectDeny
      else combined_effect (hasAllow || bool_decide (policyEffect p = EffectAllow)) policies
  end.
Definition explicitSubjectEffect (e : E) (subject : string) (p : Permission) : option string :=
  match GetFilteredPolicy e [subject; pm_Resource p; pm_Action p] with
  | Err _ => None
  | Ok policies => combined_effect false policies
  end.
Definition roleBaselineAllows (e : E) (roleKey : string) (p : Permission) : bool :=
  bool_decide (explicitSubjectEffect e (RoleSubject roleKey) p = Some EffectAllow).
Definition Can (s : Az E) (userID systemRole : Z) (p : Permission) : bool :=
  let roles := resolveSubjectRoles userID systemRole in
  match roles with
  | [] => false
  | _ =>
      if existsb isSuperuserRole roles then true
      else if negb (isKnownPermission p) then false
      else match az_enforcer s with
           | None => false
           | Some e =>
               match explicitSubjectEffect e (UserSubject userID) p with
               | Some effect => bool_decide (effect = EffectAllow)
               | None => existsb (fun role => roleBaselineAllows e role p) roles
               end
           end
  end.
(** src/middleware/auth.go: [None] lets the request go on, otherwise the answer's status. *)
Definition RequirePermission (permission : Permission) (s : Az E) (role userID : Z) : option Z :=
  if Can s userID role permission then None else Some 403.
Definition Capabilities (s : Az E) (userID systemRole : Z) : PermissionsMap :=
  matrix (fun resource a => Can s userID systemRole (mkPermission resource (ad_Action a))).

(** ** Overrides (override.go) *)

Definition overridePolicies_less (a b : Permission * string) : bool := String.ltb (pm_Action a.1) (pm_Action b.1).
(** The permissions asked for that differ from the baseline, with their effects. *)
Definition userOverridePolicies (e : E) (resource : string) (actions : gmap string bool) : list (Permission * string) :=
  SliceStable overridePolicies_less
    (omap (fun action =>
       match actions !! ad_Action action with
       | None => None
       | Some desired =>
           let p := mkPermission resource (ad_Action action) in
           if Bool.eqb desired (roleBaselineAllows e managedRoleKey p) then None
           else Some (p, if desired then EffectAllow else EffectDeny)
       end) (catalogActions resource)).
Definition override_policy (userID : Z) (o : Permission * string) : policy :=
  [UserSubject userID; pm_Resource o.1; pm_Action o.1; o.2].

Section set.
(** The order in which a map is iterated. *)
Context (range : PermissionsMap -> list (string * gmap string bool)).

Definition SetUserPermissions (userID : Z) (permissions : PermissionsMap) : MZ unit :=
  with_enforcer (fun _ =>
    forM_ (range permissions) (fun '(resource, actions) =>
      if negb (isKnownResource resource) then mret tt
      else
        _ ← e_RemoveFilteredPolicy [UserSubject userID; resource];
        with_enforcer (fun e =>
          forM_ (userOverridePolicies e resource actions) (fun o => _ ← e_AddPolicy (override_policy userID o); mret tt)))).
(** On the handle of a transaction: the enforcer of the node stays as it is. *)
Definition delete_overrides (userID : Z) (resource : string) : MZ unit :=
  az_exec (delete_rules (fun r => bool_decide (ru_Ptype r = "p") && bool_decide (ru_V0 r = UserSubject userID) && bool_decide (ru_V1 r = resource))).
Definition SetUserPermissionsInTx (userID : Z) (permissions : PermissionsMap) : MZ unit :=
  with_enforcer (fun e =>
    forM_ (range permissions) (fun '(resource, actions) =>
      if negb (isKnownResource resource) then mret tt
      else
        delete_overrides userID resource ;;
        match userOverridePolicies e resource actions with
        | [] => mret tt
        | policies =>
            let rules := (fun o => newRule "p" (override_policy userID o)) <$> policies in
            az_exec (fun s => s <| az_rules := fold_left insert_rule rules (az_rules s) |>)
        end)).
End set.
Definition ClearUserPermissions (userID : Z) : MZ unit :=
  with_enforcer (fun _ =>
    forM_ registry (fun r => _ ← e_RemoveFilteredPolicy [UserSubject userID; rs_Resource r]; mret tt)).
Definition ClearUserPermissionsInTx (userID : Z) : MZ unit := forM_ registry (fun r => delete_overrides userID (rs_Resource r)).
Definition ExplicitUserPermissions (s : Az E) (userID : Z) : PermissionsMap := Capabilities s userID 10.
Definition override_entry (p : policy) : option (string * bool) :=
  match p with
  | _ :: resource :: action :: _ =>
      if isKnownPermission (mkPermission resource action) then
        if decide (policyEffect p = EffectAllow) then Some (action, true)
        else if decide (policyEffect p = EffectDeny) then Some (action, false)
        else None
      else None
  | _ => None
  end.
Definition ExplicitUserOverrides (s : Az E) (userID : Z) : PermissionsMap :=
  match az_enforcer s with
  | None => ∅
  | Some e =>
      let of_resource r := match GetFilteredPolicy e [UserSubject userID; rs_Resource r] with
                           | Err _ => None
                           | Ok policies => Some (list_to_map (rev (omap (M := list) override_entry policies)) : gmap string bool)
                           end in
      let entry r := match of_resource r with
                     | Some actions => Some (rs_Resource r, actions)
                     | None => None
                     end in
      match mapM (M := option) entry registry with
      | None => ∅
      | Some entries => list_to_map (rev (filter (fun ra : string * gmap string bool => ra.2 <> ∅) entries))
      end
  end.

(** ** Who may change them (src/controller/user.go) *)

(** Whether rules were touched; [None] is a nil map. *)
Definition updateAdminPermissionsForUserInTx (range : PermissionsMap -> list (string * gmap string bool))
    (myRole userID userRole : Z) (permissions : option PermissionsMap) : MZ bool :=
  match permissions with
  | None =>
      if (userRole <? 10) && (myRole =? 100) then ClearUserPermissionsInTx userID ;; mret true else mret false
  | Some permissions =>
      if negb (myRole =? 100) then fail (ErrNew "only root can update admin permissions")
      else if userRole <? 10 then ClearUserPermissionsInTx userID ;; mret true
      else SetUserPermissionsInTx range userID permissions ;; mret true
  end.
End authz.

(** ** What casbin documents *)

(** A policy matches a list of values when they agree with its first fields; an empty
    value agrees with everything. *)
Fixpoint fields_match (fieldValues : list string) (p : policy) : bool :=
  match fieldValues, p with
  | [], _ => true
  | value :: fieldValues, x :: p => (bool_decide (value = "") || bool_decide (x = value)) && fields_match fieldValues p
  | _ :: _, [] => false
  end.
(** A field that a line of text keeps as it is. *)
Definition plain_byte (c : Ascii.ascii) : bool :=
  let n := Ascii.nat_of_ascii c in
  (33 <=? n)%nat && (n <=? 126)%nat && negb (n =? 34)%nat && negb (n =? 35)%nat && negb (n =? 44)%nat.
Definition plain (field : string) : Prop := field <> "" /\ all_bytes plain_byte field = true.
Definition add_policy (p : policy) (ps : list policy) : list policy := if decide (p ∈ ps) then ps else ps ++ [p].

Class EnforcerLaws (E : Type) `{SyncedEnforcer E} := {
  policies : E -> list policy;
  policies_new : policies new_model = [];
  policies_filtered e values : GetFilteredPolicy e values = Ok (List.filter (fields_match values) (policies e));
  load_plain p e : length p = 4%nat -> Forall plain p ->
    exists e', LoadPolicyLine (Join ("p" :: p) ", ") e = Ok e' /\ policies e' = add_policy p (policies e);
  add_known save p s e : az_enforcer s = Some e -> p ∈ policies e -> AddPolicy save p s = (Ok false, s);
  add_fails save p s e err s' : az_enforcer s = Some e -> p ∉ policies e -> save p s = (Err err, s') ->
    AddPolicy save p s = (Err err, s');
  add_saves save p s e s' : az_enforcer s = Some e -> p ∉ policies e -> save p s = (Ok tt, s') ->
    exists e', AddPolicy save p s = (Ok true, s' <| az_enforcer := Some e' |>) /\ policies e' = policies e ++ [p];
  remove_fails save values s e err s' : az_enforcer s = Some e -> values <> [] -> save values s = (Err err, s') ->
    RemoveFilteredPolicy save values s = (Err err, s');
  remove_saves save values s e s' : az_enforcer s = Some e -> values <> [] -> save values s = (Ok tt, s') ->
    exists e' b, RemoveFilteredPolicy save values s = (Ok b, s' <| az_enforcer := Some e' |>) /\
      policies e' = List.filter (fun p => negb (fields_match values p)) (policies e);
}.
