(* ===== verification/AuthzProofs.v ===== *)
(** * Facts about the permissions of administrators

    Setting the permissions of a user changes exactly the decisions that were asked for,
    in the enforcer of the node and, through the database and a reload, in every other;
    a concrete enforcer satisfies what is assumed of casbin. *)

From S2P Require Import Prelude GoStd Ability RoutingProofs Authz.
Import GoStrings GoText.

(** ** Effects depend on the set of policies *)

Definition same_policies (ps qs : list policy) : Prop := forall q, q ∈ ps <-> q ∈ qs.
#[export] Instance same_policies_equiv : Equivalence same_policies.
Proof.
  split; unfold same_policies.
  - by intros ps q.
  - intros ps qs H q. by rewrite H.
  - intros ps qs rs H1 H2 q. by rewrite H1.
Qed.

Lemma combined_effect_spec b ps :
  combined_effect b ps =
    if existsb (fun p => bool_decide (policyEffect p = EffectDeny)) ps then Some EffectDeny
    else if b || existsb (fun p => bool_decide (policyEffect p = EffectAllow)) ps then Some EffectAllow else None.
Proof.
  revert b. induction ps as [|p ps IH]; intros b; simpl; [by rewrite orb_false_r|].
  destruct (decide (policyEffect p = EffectDeny)) as [Hd|Hd].
  - by rewrite (bool_decide_eq_true_2 _ Hd).
  - by rewrite IH, (bool_decide_eq_false_2 _ Hd), orb_assoc.
Qed.
Definition effect_of (ps : list policy) (subject : string) (p : Permission) : option string :=
  combined_effect false (List.filter (fields_match [subject; pm_Resource p; pm_Action p]) ps).
Lemma existsb_same {A} (P : A -> bool) l l' : (forall x, P x = true -> x ∈ l <-> x ∈ l') -> existsb P l = existsb P l'.
Proof.
  intros H. apply eq_true_iff_eq. rewrite !existsb_exists.
  split; intros (x & Hx%list_elem_of_In & HP); exists x; (split; [|done]); apply list_elem_of_In; by apply H.
Qed.
(** Only the policies that match the query count. *)
Lemma effect_same ps qs subject p :
  (forall q, fields_match [subject; pm_Resource p; pm_Action p] q = true -> q ∈ ps <-> q ∈ qs) ->
  effect_of ps subject p = effect_of qs subject p.
Proof.
  intros H. unfold effect_of. rewrite !combined_effect_spec.
  assert (Hf : forall x, x ∈ List.filter (fields_match [subject; pm_Resource p; pm_Action p]) ps <->
                         x ∈ List.filter (fields_match [subject; pm_Resource p; pm_Action p]) qs).
  { intros x. rewrite !list_elem_of_In, !List.filter_In, <- !list_elem_of_In. split; intros [Hx Hm]; split; try done; by apply H. }
  by rewrite !(existsb_same _ _ _ (fun x _ => Hf x)).
Qed.
#[export] Instance effect_proper : Proper (same_policies ==> eq ==> eq ==> eq) effect_of.
Proof. intros ps qs H s _ <- p _ <-. apply effect_same. intros q _. apply H. Qed.
(** All the policies that match have the same effect. *)
Lemma effect_uniform ps subject p eft : eft = EffectAllow \/ eft = EffectDeny ->
  (forall q, q ∈ ps -> fields_match [subject; pm_Resource p; pm_Action p] q = true -> policyEffect q = eft) ->
  (exists q, q ∈ ps /\ fields_match [subject; pm_Resource p; pm_Action p] q = true) -> effect_of ps subject p = Some eft.
Proof.
  intros He Hall (q & Hq & Hm). unfold effect_of. rewrite combined_effect_spec.
  assert (Hin : q ∈ List.filter (fields_match [subject; pm_Resource p; pm_Action p]) ps) by (apply list_elem_of_In, List.filter_In; by rewrite <- list_elem_of_In).
  assert (Hex : forall e, existsb (fun p => bool_decide (policyEffect p = e)) (List.filter (fields_match [subject; pm_Resource p; pm_Action p]) ps)
                = bool_decide (eft = e)).
  { intros e. apply eq_true_iff_eq. rewrite existsb_exists, bool_decide_eq_true. split.
    - intros (x & [Hx Hxm]%List.filter_In & <-%bool_decide_eq_true). symmetry. by apply Hall; [apply list_elem_of_In|].
    - intros <-. exists q. split; [by apply list_elem_of_In|]. by apply bool_decide_eq_true, Hall. }
  rewrite !Hex. by destruct He as [-> | ->].
Qed.
Lemma effect_none ps subject p : (forall q, q ∈ ps -> fields_match [subject; pm_Resource p; pm_Action p] q = false) ->
  effect_of ps subject p = None.
Proof. intros H. transitivity (effect_of [] subject p); [|done]. apply effect_same. intros q Hm. split; [|by inversion 1]. intros Hq. by rewrite H in Hm. Qed.

(** ** Setting the permissions of a user on a list of policies *)

Lemma subject_not_empty uid : UserSubject uid <> "".
Proof. discriminate. Qed.
Lemma role_not_empty role : RoleSubject role <> "".
Proof. discriminate. Qed.
Lemma role_not_user role uid : RoleSubject role <> UserSubject uid.
Proof. discriminate. Qed.
Lemma UserSubject_inj uid uid' : UserSubject uid = UserSubject uid' -> uid = uid'.
Proof. unfold UserSubject. intros H%(inj (String.app "user:")). by apply (inj pretty) in H. Qed.

Lemma known_resource r : isKnownResource r = true -> r = ResourceChannel.
Proof.
  unfold isKnownResource, find_resource. intros [known H]%bool_decide_eq_true. simpl in H.
  destruct (bool_decide (_ = r)) eqn:E; [|done]. by apply bool_decide_eq_true in E.
Qed.
Lemma known_action p : isKnownPermission p = true -> pm_Resource p = ResourceChannel /\
  exists a, a ∈ catalogActions ResourceChannel /\ ad_Action a = pm_Action p.
Proof.
  unfold isKnownPermission. rewrite existsb_exists. intros (r & Hr & [Er%bool_decide_eq_true Ha]%andb_true_iff).
  destruct Hr as [<-|[]]. split; [done|]. apply existsb_exists in Ha as (a & Ha & Ea%bool_decide_eq_true).
  exists a. split; [by apply list_elem_of_In|done].
Qed.
Lemma known_not_empty p : isKnownPermission p = true -> pm_Resource p <> "" /\ pm_Action p <> "".
Proof.
  intros (Hr & a & Ha & <-)%known_action. split; [by rewrite Hr|].
  assert (Hall : Forall (fun a => ad_Action a <> "") (catalogActions ResourceChannel)) by (repeat constructor; discriminate).
  rewrite Forall_forall in Hall. by apply Hall.
Qed.

(** Two queries with different subjects or resources share no policy. *)
Lemma queries_disjoint s r a s' r' q : s <> "" -> s' <> "" -> r <> "" -> r' <> "" -> (s, r) <> (s', r') ->
  fields_match [s; r; a] q = true -> fields_match [s'; r'] q = false.
Proof.
  intros Hs Hs' Hr Hr' Hne. destruct q as [|x [|y q]]; simpl; try (by rewrite ?andb_false_r).
  rewrite (bool_decide_eq_false_2 _ Hs), (bool_decide_eq_false_2 _ Hs'), (bool_decide_eq_false_2 _ Hr), (bool_decide_eq_false_2 _ Hr').
  simpl. intros H. apply not_true_iff_false. intros H'. apply Hne.
  apply andb_true_iff in H as [->%bool_decide_eq_true H], H' as [->%bool_decide_eq_true H'].
  apply andb_true_iff in H as [->%bool_decide_eq_true _], H' as [->%bool_decide_eq_true _]. done.
Qed.

Section overrides.
Context (baseline : Permission -> bool).
Definition wanted (resource : string) (actions : gmap string bool) (action : ActionDefinition) : option (Permission * string) :=
  match actions !! ad_Action action with
  | None => None
  | Some desired =>
      let p := mkPermission resource (ad_Action action) in
      if Bool.eqb desired (baseline p) then None else Some (p, if desired then EffectAllow else EffectDeny)
  end.
Definition overrides (resource : string) (actions : gmap string bool) : list (Permission * string) :=
  SliceStable overridePolicies_less (omap (M := list) (wanted resource actions) (catalogActions resource)).
Lemma overrides_elem resource actions o : o ∈ overrides resource actions <->
  exists action d, action ∈ catalogActions resource /\ actions !! ad_Action action = Some d /\
    d <> baseline (mkPermission resource (ad_Action action)) /\
    o = (mkPermission resource (ad_Action action), if d then EffectAllow else EffectDeny).
Proof.
  unfold overrides. rewrite SliceStable_perm, list_elem_of_omap. unfold wanted. split.
  - intros (action & Ha & Ho). destruct (actions !! ad_Action action) as [d|] eqn:E; [|done]. exists action, d.
    destruct (Bool.eqb d _) eqn:Eb; [done|]. injection Ho as <-. split_and!; try done. intros ->. by rewrite Bool.eqb_reflx in Eb.
  - intros (action & d & Ha & E & Hne & ->). exists action. split; [done|]. rewrite E. cbn zeta.
    destruct (Bool.eqb d _) eqn:Eb; [|done]. by apply Bool.eqb_prop in Eb.
Qed.
End overrides.

(** The baseline of the managed role, and what a user may do. *)
Definition base_of (ps : list policy) (p : Permission) : bool :=
  bool_decide (effect_of ps (RoleSubject managedRoleKey) p = Some EffectAllow).
Definition allowed (ps : list policy) (uid : Z) (p : Permission) : bool :=
  match effect_of ps (UserSubject uid) p with
  | Some effect => bool_decide (effect = EffectAllow)
  | None => base_of ps p
  end.
#[export] Instance base_proper : Proper (same_policies ==> eq ==> eq) base_of.
Proof. intros ps qs H p _ <-. unfold base_of. by rewrite (effect_proper ps qs H _ _ eq_refl _ _ eq_refl). Qed.
#[export] Instance allowed_proper : Proper (same_policies ==> eq ==> eq ==> eq) allowed.
Proof.
  intros ps qs H u _ <- p _ <-. unfold allowed.
  by rewrite (effect_proper ps qs H _ _ eq_refl _ _ eq_refl), (base_proper ps qs H _ _ eq_refl).
Qed.

Definition without (values : list string) (ps : list policy) : list policy := List.filter (fun q => negb (fields_match values q)) ps.
Definition with_policies (news ps : list policy) : list policy := fold_left (fun ps p => add_policy p ps) news ps.
Definition set_resource (uid : Z) (ps : list policy) (ra : string * gmap string bool) : list policy :=
  if isKnownResource ra.1 then
    with_policies (override_policy uid <$> overrides (base_of ps) ra.1 ra.2) (without [UserSubject uid; ra.1] ps)
  else ps.

Lemma without_elem values ps q : q ∈ without values ps <-> q ∈ ps /\ fields_match values q = false.
Proof. unfold without. by rewrite list_elem_of_In, List.filter_In, <- list_elem_of_In, negb_true_iff. Qed.
Lemma add_policy_elem p ps q : q ∈ add_policy p ps <-> q ∈ ps \/ q = p.
Proof. unfold add_policy. case_decide; [naive_solver|]. rewrite elem_of_app, list_elem_of_singleton. done. Qed.
Lemma with_policies_elem news ps q : q ∈ with_policies news ps <-> q ∈ ps \/ q ∈ news.
Proof.
  revert ps. induction news as [|p news IH]; intros ps; simpl; [split; [auto|by intros [|?%elem_of_nil]]|].
  rewrite IH, add_policy_elem, elem_of_cons. tauto.
Qed.
#[export] Instance without_proper values : Proper (same_policies ==> same_policies) (without values).
Proof. intros ps qs H q. by rewrite !without_elem, (H q). Qed.
#[export] Instance with_policies_proper news : Proper (same_policies ==> same_policies) (with_policies news).
Proof. intros ps qs H q. by rewrite !with_policies_elem, (H q). Qed.
#[export] Instance set_resource_proper uid : Proper (same_policies ==> eq ==> same_policies) (set_resource uid).
Proof.
  intros ps qs H ra _ <-. unfold set_resource. destruct (isKnownResource ra.1); [|done].
  assert (Ho : overrides (base_of ps) ra.1 ra.2 = overrides (base_of qs) ra.1 ra.2).
  { unfold overrides. f_equal. apply list_omap_ext, Forall2_same_length_lookup_2; [done|]. intros i x y -> [= ->].
    unfold wanted. by rewrite (base_proper ps qs H _ _ eq_refl). }
  rewrite Ho. by apply with_policies_proper, without_proper.
Qed.

(** The override of a user is found by the query for its permission and no other. *)
Lemma override_query subject r a uid o : subject <> "" -> r <> "" -> a <> "" ->
  fields_match [subject; r; a] (override_policy uid o) = true <-> subject = UserSubject uid /\ o.1 = mkPermission r a.
Proof.
  intros Hs Hr Ha. unfold override_policy. cbn [fields_match].
  rewrite (bool_decide_eq_false_2 _ Hs), (bool_decide_eq_false_2 _ Hr), (bool_decide_eq_false_2 _ Ha). cbn [orb].
  rewrite !andb_true_iff, !bool_decide_eq_true. destruct o as [[r' a'] eft]. simpl. naive_solver.
Qed.

Section set_resource.
Context (uid : Z) (ps : list policy) (r : string) (actions : gmap string bool).
Hypothesis Hr : isKnownResource r = true.
#[local] Abbreviation ps' := (set_resource uid ps (r, actions)).

Lemma set_resource_elem q : q ∈ ps' <->
  q ∈ ps /\ fields_match [UserSubject uid; r] q = false \/ q ∈ override_policy uid <$> overrides (base_of ps) r actions.
Proof. unfold set_resource. simpl. by rewrite Hr, with_policies_elem, without_elem. Qed.
Lemma override_resource o : o ∈ overrides (base_of ps) r actions -> pm_Resource o.1 = r.
Proof. by intros (a & d & _ & _ & _ & ->)%overrides_elem. Qed.
(** Other subjects and other resources keep their effects. *)
Lemma set_resource_other subject p : subject <> "" -> pm_Resource p <> "" -> pm_Action p <> "" ->
  (subject, pm_Resource p) <> (UserSubject uid, r) -> effect_of ps' subject p = effect_of ps subject p.
Proof.
  intros Hs Hp Ha Hne. apply effect_same. intros q Hq. rewrite set_resource_elem.
  assert (Hd : fields_match [UserSubject uid; r] q = false).
  { eapply queries_disjoint; [..|exact Hq]; try done. by rewrite (known_resource r Hr). }
  split; [|by left]. intros [[Hin _]|Hin]; [done|]. apply list_elem_of_fmap in Hin as (o & -> & Ho).
  apply override_query in Hq as [Hu Ho']; [|done..]. apply override_resource in Ho. rewrite Ho' in Ho. simpl in Ho. congruence.
Qed.
Lemma set_resource_base p : pm_Resource p <> "" -> pm_Action p <> "" -> base_of ps' p = base_of ps p.
Proof.
  intros Hp Ha. unfold base_of. by rewrite set_resource_other.
Qed.
(** The user gets what was asked for, and the baseline where nothing was. *)
Lemma set_resource_allowed a : a ∈ catalogActions r -> ad_Action a <> "" -> let p := mkPermission r (ad_Action a) in
  allowed ps' uid p = default (base_of ps p) (actions !! ad_Action a).
Proof.
  intros Ha Hne p. assert (Hrn : r <> "") by by rewrite (known_resource r Hr).
  assert (Hq : forall q, q ∈ ps' -> fields_match [UserSubject uid; r; ad_Action a] q = true ->
    exists d, actions !! ad_Action a = Some d /\ d <> base_of ps p /\ policyEffect q = if d then EffectAllow else EffectDeny).
  { intros q [[_ Hn]|(o & -> & Ho)%list_elem_of_fmap]%set_resource_elem Hm.
    - exfalso. destruct q as [|x [|y q]]; simpl in *; rewrite ?andb_false_r in *; try done.
      apply not_true_iff_false in Hn. apply Hn. apply andb_true_iff in Hm as [-> [-> _]%andb_true_iff]. done.
    - apply override_query in Hm as [_ Hp]; [|done..]. apply overrides_elem in Ho as (a' & d & Ha' & Hd & Hb & ->).
      simpl in Hp. injection Hp as Ea. rewrite Ea in *. exists d. split_and!; try done. by destruct d. }
  unfold allowed. destruct (actions !! ad_Action a) as [d|] eqn:Ed; simpl.
  - destruct (decide (d = base_of ps p)) as [->|Hb].
    + rewrite effect_none; [by apply set_resource_base|]. intros q Hin. apply not_true_iff_false. intros Hm.
      by destruct (Hq q Hin Hm) as (d & [= <-] & Hb & _).
    + rewrite (effect_uniform _ _ _ (if d then EffectAllow else EffectDeny)).
      * destruct d; [by apply bool_decide_eq_true_2|by apply bool_decide_eq_false_2].
      * destruct d; auto.
      * intros q Hin Hm. by destruct (Hq q Hin Hm) as (d' & [= <-] & _ & ?).
      * exists (override_policy uid (p, if d then EffectAllow else EffectDeny)). split.
        { apply set_resource_elem. right. apply list_elem_of_fmap. eexists. split; [done|]. apply overrides_elem. by exists a, d. }
        by apply override_query.
  - rewrite effect_none; [by apply set_resource_base|]. intros q Hin. apply not_true_iff_false. intros Hm.
    by destruct (Hq q Hin Hm) as (d & ? & _).
Qed.
End set_resource.

(** Several resources. *)
Definition set_all (uid : Z) (entries : list (string * gmap string bool)) (ps : list policy) : list policy :=
  fold_left (set_resource uid) entries ps.
(** What does not concern the user. *)
Definition others (uid : Z) (ps ps' : list policy) : Prop := forall subject p,
  subject <> "" -> subject <> UserSubject uid -> isKnownPermission p = true -> effect_of ps' subject p = effect_of ps subject p.
#[export] Instance others_refl uid : Reflexive (others uid).
Proof. by intros ps s p. Qed.
Lemma others_trans uid ps1 ps2 ps3 : others uid ps1 ps2 -> others uid ps2 ps3 -> others uid ps1 ps3.
Proof. intros H1 H2 s p Hs Hu Hp. by rewrite H2, H1. Qed.
Lemma others_same uid ps qs : same_policies ps qs -> others uid ps qs.
Proof. intros H s p _ _ _. by rewrite (effect_proper ps qs H _ _ eq_refl _ _ eq_refl). Qed.
Lemma others_base uid ps ps' p : others uid ps ps' -> isKnownPermission p = true -> base_of ps' p = base_of ps p.
Proof. intros H Hp. unfold base_of. by rewrite H. Qed.
Lemma others_set uid ps ra : others uid ps (set_resource uid ps ra).
Proof.
  intros s p Hs Hu (Hp & Ha)%known_not_empty. destruct ra as [r actions]. destruct (isKnownResource r) eqn:Hr.
  - apply set_resource_other; try done. by intros [= E _].
  - unfold set_resource. cbn [fst]. by rewrite Hr.
Qed.
Lemma others_without uid values ps : others uid ps (without (UserSubject uid :: values) ps).
Proof.
  intros s p Hs Hu Hp. apply effect_same. intros [|x q] Hq; [done|]. rewrite without_elem. cbn [fields_match] in *.
  rewrite (bool_decide_eq_false_2 _ Hs) in Hq. apply andb_true_iff in Hq as [->%bool_decide_eq_true _].
  rewrite (bool_decide_eq_false_2 _ (subject_not_empty uid)), (bool_decide_eq_false_2 _ Hu). simpl. tauto.
Qed.
Lemma known_permission p : isKnownPermission p = true -> isKnownResource (pm_Resource p) = true.
Proof. by intros (-> & _)%known_action. Qed.
Lemma set_all_allowed uid entries ps p : NoDup entries.*1 -> isKnownPermission p = true ->
  allowed (set_all uid entries ps) uid p =
    match (list_to_map entries : PermissionsMap) !! pm_Resource p with
    | None => allowed ps uid p
    | Some actions => default (base_of ps p) (actions !! pm_Action p)
    end.
Proof.
  intros Hn Hp. pose proof (known_not_empty p Hp) as [Hr Ha]. pose proof (known_action p Hp) as (Hc & a & Hin & Ea).
  revert ps. induction entries as [|[r actions] entries IH]; intros ps; [by simpl; rewrite lookup_empty|].
  apply NoDup_cons in Hn as [Hnew Hn]. simpl. rewrite (IH Hn), (others_base uid ps _ p (others_set uid ps _) Hp).
  destruct (decide (r = pm_Resource p)) as [->|Hne].
  - rewrite lookup_insert_eq, not_elem_of_list_to_map_1 by done.
    destruct p as [pr pa]; simpl in *; subst pr pa. by apply (set_resource_allowed uid ps ResourceChannel actions).
  - rewrite lookup_insert_ne by done. destruct (list_to_map entries !! pm_Resource p); [done|].
    unfold allowed. rewrite (others_base uid ps _ p (others_set uid ps _) Hp).
    destruct (isKnownResource r) eqn:Hk; [|unfold set_resource; cbn [fst]; by rewrite Hk].
    rewrite (set_resource_other uid ps r actions Hk) by (try done; congruence). done.
Qed.

(** ** Rules and policies *)

Definition wf_policy (p : policy) : Prop := length p = 4%nat /\ Forall plain p.
Lemma wf_policy_inv p : wf_policy p -> exists a b c d, p = [a; b; c; d] /\ plain a /\ plain b /\ plain c /\ plain d.
Proof.
  intros [Hl Hp]. destruct p as [|a [|b [|c [|d [|]]]]]; try done. exists a, b, c, d.
  repeat (apply Forall_cons in Hp as [? Hp]). done.
Qed.
Lemma newRule_inj p q : wf_policy p -> wf_policy q -> newRule "p" p = newRule "p" q -> p = q.
Proof. intros (a & b & c & d & -> & _)%wf_policy_inv (a' & b' & c' & d' & -> & _)%wf_policy_inv [=]. by subst. Qed.
Lemma rule_elem rs p : Forall wf_policy rs -> wf_policy p -> newRule "p" p ∈ newRule "p" <$> rs <-> p ∈ rs.
Proof.
  intros Hrs Hp. rewrite Forall_forall in Hrs. split; [|apply list_elem_of_fmap_2].
  intros (q & E & Hq)%list_elem_of_fmap. apply newRule_inj in E as ->; [done..|by apply Hrs].
Qed.
Lemma filter_rules (f : CasbinRule -> bool) (g : policy -> bool) rs : Forall wf_policy rs ->
  (forall p, wf_policy p -> f (newRule "p" p) = g p) -> List.filter f (newRule "p" <$> rs) = newRule "p" <$> List.filter g rs.
Proof. intros Hrs Hf. induction Hrs as [|p rs Hp _ IH]; [done|]. rewrite fmap_cons. simpl. rewrite (Hf p Hp), IH. by destruct (g p). Qed.
Lemma filter_rejects {A} (f : A -> bool) l : (forall x, x ∈ l -> f x = false) -> List.filter f l = [].
Proof. intros Hf. induction l as [|x l IH]; simpl; [done|]. rewrite (Hf x) by left. apply IH. intros y Hy. apply Hf. by right. Qed.
Lemma filter_wf (g : policy -> bool) rs : Forall wf_policy rs -> Forall wf_policy (List.filter g rs).
Proof. induction 1 as [|p rs Hp _ IH]; simpl; [constructor|]. destruct (g p); auto. Qed.
Lemma insert_rule_add rs p : Forall wf_policy rs -> wf_policy p ->
  insert_rule (newRule "p" <$> rs) (newRule "p" p) = newRule "p" <$> add_policy p rs.
Proof.
  intros Hrs Hp. unfold insert_rule, add_policy. pose proof (rule_elem rs p Hrs Hp).
  repeat case_decide; try tauto. by rewrite fmap_app.
Qed.
Lemma add_policy_wf rs p : Forall wf_policy rs -> wf_policy p -> Forall wf_policy (add_policy p rs).
Proof. intros Hrs Hp. unfold add_policy. case_decide; [done|]. apply Forall_app. auto. Qed.
Lemma with_policies_wf news rs : Forall wf_policy news -> Forall wf_policy rs -> Forall wf_policy (with_policies news rs).
Proof. intros Hn. revert rs. induction Hn; intros rs Hrs; simpl; [done|]. apply IHHn. by apply add_policy_wf. Qed.
Lemma insert_rules news rs : Forall wf_policy news -> Forall wf_policy rs ->
  fold_left insert_rule (newRule "p" <$> news) (newRule "p" <$> rs) = newRule "p" <$> with_policies news rs.
Proof.
  intros Hn. revert rs. induction Hn as [|p news Hp Hn IH]; intros rs Hrs; [done|]. cbn [fmap list_fmap fold_left].
  change (list_fmap _ _ (newRule "p")) with (fmap (M := list) (newRule "p")).
  rewrite insert_rule_add by done. by rewrite IH by by apply add_policy_wf.
Qed.
Lemma columns_fields values p : (length values <= 4)%nat -> wf_policy p ->
  columns_match 0 values (newRule "p" p) = fields_match values p.
Proof.
  intros Hl (a & b & c & d & -> & _)%wf_policy_inv.
  destruct values as [|v1 [|v2 [|v3 [|v4 [|]]]]]; simpl in *; try lia; done.
Qed.

Lemma plain_override uid r a eft : 0 <= uid -> plain r -> plain a -> plain eft ->
  wf_policy (override_policy uid (mkPermission r a, eft)).
Proof.
  intros Hu Hr Ha He. split; [done|]. repeat constructor; try done; simpl; try apply Hr; try apply Ha; try apply He.
  eapply (all_bytes_mono is_digit); [|by apply all_digits_Itoa]. intros c. unfold is_digit, plain_byte. intros Hc.
  destruct c as [[] [] [] [] [] [] [] []]; vm_compute in Hc |- *; done.
Qed.
Lemma catalog_plain r a : isKnownResource r = true -> a ∈ catalogActions r -> plain r /\ plain (ad_Action a).
Proof.
  intros ->%known_resource Ha. split; [by split|].
  assert (Hall : Forall (fun a => plain (ad_Action a)) (catalogActions ResourceChannel)) by (repeat constructor; done).
  rewrite Forall_forall in Hall. by apply Hall.
Qed.
Lemma overrides_wf base uid r actions : 0 <= uid -> isKnownResource r = true ->
  Forall wf_policy (override_policy uid <$> overrides base r actions).
Proof.
  intros Hu Hr. apply Forall_fmap, Forall_forall. intros o (a & d & Ha & _ & _ & ->)%overrides_elem.
  destruct (catalog_plain r a Hr Ha). apply plain_override; try done. by destruct d; split.
Qed.

(** ** The enforcer and the table hold the same policies *)

Section simulation.
Context `{EnforcerLaws E}.
#[local] Abbreviation MZ := (M (Az E) error).

Definition stored (rs : list policy) (s : Az E) : Prop := az_rules s = newRule "p" <$> rs /\ Forall wf_policy rs.
Definition at_policies (ps : list policy) (s : Az E) : Prop :=
  exists e rs, az_enforcer s = Some e /\ stored rs s /\ same_policies rs ps /\ same_policies (policies e) ps.
(** The enforcer is in step with the table, which holds well-formed policies only. *)
Definition synced (s : Az E) : Prop := exists ps, at_policies ps s.

(** [m] takes the policies from [ps] to [ps']; when it fails it has changed nothing but the
    policies of the user; without failing statements it does not fail. *)
Definition steps {A} (uid : Z) (ps : list policy) (m : MZ A) (ps' : list policy) : Prop := forall s, at_policies ps s ->
  az_roles (m s).2 = az_roles s /\
  match (m s).1 with
  | Ok _ => at_policies ps' (m s).2 /\ (az_faults s = [] -> az_faults (m s).2 = [])
  | Err _ => az_faults s <> [] /\ exists ps'', at_policies ps'' (m s).2 /\ others uid ps ps''
  end.

#[export] Instance at_policies_proper : Proper (same_policies ==> eq ==> iff) at_policies.
Proof.
  intros ps qs Hpq s _ <-. split; intros (e & rs & He & Hs & H1 & H2); exists e, rs; (split; [done|]); (split; [done|]).
  - split; by etransitivity.
  - split; etransitivity; try done; by symmetry.
Qed.
Lemma steps_same {A} uid ps (m : MZ A) ps1 ps2 : same_policies ps1 ps2 -> steps uid ps m ps1 -> steps uid ps m ps2.
Proof.
  intros Hs Hm s Hat. destruct (Hm s Hat) as [Hr Ho]. split; [done|]. destruct ((m s).1); [|done]. by rewrite <- Hs.
Qed.
Lemma steps_ret {A} uid ps (a : A) : steps uid ps (mret a) ps.
Proof. by intros s Hs. Qed.
Lemma steps_bind {A B} uid ps ps1 ps2 (m : MZ A) (k : A -> MZ B) : steps uid ps m ps1 -> others uid ps ps1 ->
  (forall a, steps uid ps1 (k a) ps2) -> steps uid ps (m ≫= k) ps2.
Proof.
  intros Hm Ho Hk s Hs. rewrite run_bind. destruct (Hm s Hs) as [Hr Hm']. destruct (m s) as [[a|e] s1]; simpl in *; [|done].
  destruct Hm' as [Hs1 Hf]. destruct (Hk a s1 Hs1) as [Hr' Hk']. split; [congruence|].
  destruct ((k a s1).1); [naive_solver|]. destruct Hk' as [Hne (ps'' & Hat & Ho')]. split; [auto|]. exists ps''. split; [done|].
  by eapply others_trans.
Qed.
Lemma steps_forM {A} uid (f : list policy -> A -> list policy) xs (body : A -> MZ unit) ps :
  (forall x ps, x ∈ xs -> steps uid ps (body x) (f ps x)) -> (forall x ps, x ∈ xs -> others uid ps (f ps x)) ->
  steps uid ps (forM_ xs body) (fold_left f xs ps).
Proof.
  intros Hb Ho. revert ps. induction xs as [|x xs IH]; intros ps; [apply steps_ret|].
  simpl. apply (steps_bind _ _ (f ps x)); [apply Hb; left|apply Ho; left|]. intros _. apply IH; intros; [apply Hb|apply Ho]; by right.
Qed.
Lemma steps_enforcer {A} uid ps ps' (k : E -> MZ A) : (forall e, same_policies (policies e) ps -> steps uid ps (k e) ps') ->
  steps uid ps (with_enforcer k) ps'.
Proof.
  intros Hk s Hs. pose proof Hs as (e & rs & He & _ & _ & Hp). unfold with_enforcer, currentEnforcer.
  rewrite run_bind. unfold gets. rewrite He. by apply Hk.
Qed.

Lemma stored_faults rs s fs : stored rs s -> stored rs (s <| az_faults := fs |>).
Proof. by destruct s. Qed.
Lemma at_faults ps s fs : at_policies ps s -> at_policies ps (s <| az_faults := fs |>).
Proof. by destruct s. Qed.
Lemma az_call_cases (s : Az E) :
  (exists fs, az_call s = (Ok tt, s <| az_faults := fs |>) /\ (az_faults s = [] -> fs = [])) \/
  (exists err fs, az_call s = (Err err, s <| az_faults := fs |>) /\ az_faults s <> []).
Proof.
  destruct s as [rules roles [|[msg|] fs] e]; unfold az_call; simpl; [left|right|left].
  - by exists [].
  - by exists (ErrDB msg), fs.
  - by exists fs.
Qed.
Lemma az_exec_cases f (s : Az E) :
  (exists fs, az_exec f s = (Ok tt, f (s <| az_faults := fs |>)) /\ (az_faults s = [] -> fs = [])) \/
  (exists err fs, az_exec f s = (Err err, s <| az_faults := fs |>) /\ az_faults s <> []).
Proof.
  unfold az_exec. rewrite run_bind.
  destruct (az_call_cases s) as [(fs & -> & Hf)|(err & fs & -> & Hf)]; [left; by exists fs|right; by exists err, fs].
Qed.

Lemma delete_matching values rs : (length values <= 4)%nat -> Forall wf_policy rs ->
  List.filter (fun r => negb (bool_decide (ru_Ptype r = "p") && columns_match 0 values r)) (newRule "p" <$> rs)
  = newRule "p" <$> without values rs.
Proof.
  intros Hl Hwf. apply filter_rules; [done|]. intros p Hp. rewrite columns_fields by done.
  by rewrite (bool_decide_eq_true_2 (ru_Ptype _ = "p")).
Qed.
Lemma e_remove_steps uid ps values : (length values < 4)%nat ->
  steps uid ps (e_RemoveFilteredPolicy (UserSubject uid :: values)) (without (UserSubject uid :: values) ps).
Proof.
  intros Hl s Hs. pose proof Hs as (e & rs & He & [Hrs Hwf] & Hsr & Hse). unfold e_RemoveFilteredPolicy.
  set (vs := UserSubject uid :: values). set (save := adapter_RemoveFilteredPolicy "p" 0).
  assert (Hcases := az_exec_cases (delete_rules (fun r => bool_decide (ru_Ptype r = "p") && columns_match 0 vs r)) s).
  change (az_exec _ s) with (save vs s) in Hcases.
  destruct Hcases as [(fs & Hsave & Hf)|(err & fs & Hsave & Hf)].
  - destruct (remove_saves save vs s e _ He ltac:(done) Hsave) as (e' & b & -> & He'). simpl.
    split; [by destruct s|]. split; [|by destruct s]. exists e', (without vs rs). split_and!; [by destruct s| |by apply without_proper|].
    + split; [|by apply filter_wf]. destruct s. simpl in Hrs |- *. subst. exact (delete_matching vs rs ltac:(simpl; lia) Hwf).
    + rewrite He'. by apply without_proper.
  - rewrite (remove_fails save vs s e _ _ He ltac:(done) Hsave). simpl. split; [by destruct s|]. split; [done|].
    exists ps. split; [by apply at_faults|done].
Qed.
Lemma adapter_add p s rs : stored rs s -> wf_policy p -> p ∉ rs ->
  (exists fs, adapter_AddPolicy "p" p s = (Ok tt, s <| az_rules := newRule "p" <$> add_policy p rs |> <| az_faults := fs |>) /\
     (az_faults s = [] -> fs = [])) \/
  (exists err fs, adapter_AddPolicy "p" p s = (Err err, s <| az_faults := fs |>) /\ az_faults s <> []).
Proof.
  intros [Hrs Hwf] Hp Hnew. unfold adapter_AddPolicy, az_find. rewrite !run_bind.
  destruct (az_call_cases s) as [(fs & -> & Hf)|(err & fs & -> & Hf)]; [|right; by exists err, fs].
  unfold gets. assert (Hnil : List.filter (ruleQuery "p" p) (newRule "p" <$> rs) = []).
  { rewrite (filter_rules _ (fun q => bool_decide (q = p))).
    - replace (List.filter _ rs) with (@nil policy); [done|]. symmetry. apply filter_rejects.
      intros q Hq. apply bool_decide_eq_false_2. by intros ->.
    - done.
    - intros q Hq. unfold ruleQuery. apply bool_decide_ext. split; [by apply newRule_inj|by intros ->]. }
  replace (az_rules (s <| az_faults := fs |>)) with (newRule "p" <$> rs) by (by destruct s). rewrite Hnil. cbn [length Nat.ltb Nat.leb].
  destruct (az_exec_cases (fun s => s <| az_rules := insert_rule (az_rules s) (newRule "p" p) |>) (s <| az_faults := fs |>))
    as [(fs' & -> & Hf')|(err & fs' & -> & Hf')]; [left|right].
  - exists fs'. split; [|destruct s; simpl in *; auto]. destruct s. simpl in *. subst. unfold upd. simpl.
    by rewrite insert_rule_add.
  - exists err, fs'. split; [by destruct s|]. destruct s. simpl in *. auto.
Qed.
Lemma e_add_steps uid ps p : wf_policy p -> steps uid ps (e_AddPolicy p) (add_policy p ps).
Proof.
  intros Hp s Hs. pose proof Hs as (e & rs & He & [Hrs Hwf] & Hsr & Hse). unfold e_AddPolicy.
  destruct (decide (p ∈ policies e)) as [Hin|Hout].
  - rewrite (add_known _ p s e He Hin). simpl. split_and!; try done.
    by unfold add_policy; rewrite decide_True by by apply Hse.
  - assert (Hout' : p ∉ rs) by by rewrite (Hsr p), <- (Hse p).
    destruct (adapter_add p s rs (conj Hrs Hwf) Hp Hout') as [(fs & Hsave & Hf)|(err & fs & Hsave & Hf)].
    + destruct (add_saves _ p s e _ He Hout Hsave) as (e' & -> & He'). simpl.
      split; [by destruct s|]. split; [|by destruct s]. exists e', (add_policy p rs). split_and!; [by destruct s| | |].
      * destruct s. split; [done|]. by apply add_policy_wf.
      * intros q. by rewrite !add_policy_elem, (Hsr q).
      * intros q. rewrite He', elem_of_app, list_elem_of_singleton, add_policy_elem. by rewrite (Hse q).
    + rewrite (add_fails _ p s e _ _ He Hout Hsave). simpl. split; [by destruct s|]. split; [done|].
      exists ps. split; [by apply at_faults|done].
Qed.

Lemma explicit_effect e subject p : explicitSubjectEffect e subject p = effect_of (policies e) subject p.
Proof. unfold explicitSubjectEffect. by rewrite policies_filtered. Qed.
Lemma baseline_allows e p : roleBaselineAllows e managedRoleKey p = base_of (policies e) p.
Proof. unfold roleBaselineAllows, base_of. by rewrite explicit_effect. Qed.
Lemma overrides_ext (b b' : Permission -> bool) r actions :
  (forall a, a ∈ catalogActions r -> b (mkPermission r (ad_Action a)) = b' (mkPermission r (ad_Action a))) ->
  overrides b r actions = overrides b' r actions.
Proof.
  intros Hb. unfold overrides. f_equal. apply list_omap_ext, Forall2_same_length_lookup_2; [done|]. intros i x y Hx [= <-]%(eq_trans (eq_sym Hx)).
  unfold wanted. by rewrite (Hb x) by (by eapply list_elem_of_lookup_2).
Qed.
Lemma user_overrides e ps r actions : same_policies (policies e) ps -> userOverridePolicies e r actions = overrides (base_of ps) r actions.
Proof.
  intros Hps. transitivity (overrides (roleBaselineAllows e managedRoleKey) r actions); [done|].
  apply overrides_ext. intros a _. by rewrite baseline_allows, (base_proper _ _ Hps _ _ eq_refl).
Qed.
Lemma with_policies_map {A} (f : A -> policy) xs ps : with_policies (f <$> xs) ps = fold_left (fun ps x => add_policy (f x) ps) xs ps.
Proof. revert ps. induction xs as [|x xs IH]; intros ps; [done|]. apply IH. Qed.
Lemma others_add uid o ps : others uid ps (add_policy (override_policy uid o) ps).
Proof.
  intros s p Hs Hu (Hr & Ha)%known_not_empty. apply effect_same. intros q Hq. rewrite add_policy_elem.
  split; [|by left]. intros [|Eq]; [done|]. rewrite Eq in Hq. by apply override_query in Hq as [E0 _].
Qed.
Lemma overrides_without uid ps r actions : r <> "" ->
  overrides (base_of (without [UserSubject uid; r] ps)) r actions = overrides (base_of ps) r actions.
Proof.
  intros Hr. apply overrides_ext. intros a _. unfold base_of. do 2 f_equal.
  rewrite (effect_same (without [UserSubject uid; r] ps) ps); [done|]. intros q Hq.
  rewrite without_elem. split; [by intros [? _]|]. intros Hin. split; [done|].
  eapply queries_disjoint; [..|exact Hq]; done.
Qed.

Section operations.
Context (range : PermissionsMap -> list (string * gmap string bool)) (uid : Z) (Huid : 0 <= uid).

Lemma set_resource_steps ps r actions : isKnownResource r = true ->
  steps uid ps (_ ← e_RemoveFilteredPolicy [UserSubject uid; r];
    with_enforcer (fun e => forM_ (userOverridePolicies e r actions) (fun o => _ ← e_AddPolicy (override_policy uid o); mret tt)))
    (set_resource uid ps (r, actions)).
Proof.
  intros Hr. eapply steps_bind; [by apply e_remove_steps; simpl; lia|apply others_without|]. intros _.
  apply steps_enforcer. intros e He. rewrite (user_overrides e _ r actions He).
  rewrite overrides_without by (by rewrite (known_resource r Hr)).
  unfold set_resource. cbn [fst snd]. rewrite Hr, with_policies_map.
  apply (steps_forM uid (fun ps o => add_policy (override_policy uid o) ps)); intros o ps' Ho; [|apply others_add].
  eapply steps_bind; [apply e_add_steps|apply others_add|intros _; apply steps_ret].
  pose proof (overrides_wf (base_of ps) uid r actions Huid Hr) as Hwf. rewrite Forall_fmap, Forall_forall in Hwf. by apply Hwf.
Qed.
Lemma SetUserPermissions_steps ps permissions :
  steps uid ps (SetUserPermissions range uid permissions) (set_all uid (range permissions) ps).
Proof.
  unfold SetUserPermissions. apply steps_enforcer. intros e _.
  apply (steps_forM uid (set_resource uid)); [|intros; apply others_set].
  intros [r actions] ps' _. destruct (isKnownResource r) eqn:Hr; cbn [negb].
  - by apply set_resource_steps.
  - unfold set_resource. cbn [fst]. rewrite Hr. apply steps_ret.
Qed.

(** ** Decisions *)

Definition baseline (s : Az E) (p : Permission) : bool :=
  match az_enforcer s with Some e => roleBaselineAllows e managedRoleKey p | None => false end.
Lemma at_baseline ps s p : at_policies ps s -> baseline s p = base_of ps p.
Proof.
  intros (e & rs & He & _ & _ & Hp). unfold baseline. by rewrite He, baseline_allows, (base_proper _ _ Hp _ _ eq_refl).
Qed.
Lemma at_can ps s u role p : at_policies ps s ->
  Can s u role p = if role >=? 100 then true else if role >=? 10 then isKnownPermission p && allowed ps u p else false.
Proof.
  intros Hat. pose proof Hat as (e & rs & He & _ & _ & Hp). unfold Can, resolveSubjectRoles.
  destruct (role >=? 100); [done|]. destruct (role >=? 10); [|done].
  change (existsb isSuperuserRole [BuiltInRoleAdmin]) with false. cbv iota. destruct (isKnownPermission p); [|done].
  cbn [negb andb]. rewrite He, explicit_effect. unfold allowed.
  rewrite (effect_proper _ _ Hp _ _ eq_refl _ _ eq_refl). destruct (effect_of ps (UserSubject u) p) as [eff|]; [done|].
  cbn [existsb]. change BuiltInRoleAdmin with managedRoleKey. by rewrite baseline_allows, orb_false_r, (base_proper _ _ Hp _ _ eq_refl).
Qed.
Lemma others_can ps ps' s s' u role p : at_policies ps s -> at_policies ps' s' -> others uid ps ps' -> u <> uid ->
  Can s' u role p = Can s u role p.
Proof.
  intros Hs Hs' Ho Hu. rewrite (at_can _ _ _ _ _ Hs), (at_can _ _ _ _ _ Hs'). destruct (isKnownPermission p) eqn:Hp; [|done].
  unfold allowed. rewrite (others_base _ _ _ _ Ho Hp), (Ho (UserSubject u) p (subject_not_empty u)); [done|by intros ?%UserSubject_inj|done].
Qed.
Lemma set_all_others entries ps : others uid ps (set_all uid entries ps).
Proof.
  revert ps. induction entries as [|x xs IH]; intros ps; [reflexivity|]. eapply others_trans; [apply others_set|apply IH].
Qed.
(** The decisions that were asked for; the rest stays. *)
Definition asked (s : Az E) (permissions : PermissionsMap) (role : Z) (p : Permission) : bool :=
  match permissions !! pm_Resource p with
  | None => Can s uid role p
  | Some actions => default (baseline s p) (actions !! pm_Action p)
  end.
Lemma set_all_can permissions ps s s' role p : range permissions ≡ₚ map_to_list permissions ->
  at_policies ps s -> at_policies (set_all uid (range permissions) ps) s' -> 10 <= role < 100 -> isKnownPermission p = true ->
  Can s' uid role p = asked s permissions role p.
Proof.
  intros Hrange Hs Hs' Hrole Hp. unfold asked. rewrite (at_can _ _ _ _ _ Hs), (at_can _ _ _ _ _ Hs'), (at_baseline _ _ _ Hs), Hp.
  destruct (Z.geb_spec role 100); [lia|]. destruct (Z.geb_spec role 10); [|lia]. cbn [andb].
  assert (Hn : NoDup (range permissions).*1) by (rewrite Hrange; apply NoDup_fst_map_to_list).
  rewrite (set_all_allowed _ _ _ _ Hn Hp).
  by rewrite (list_to_map_proper _ _ Hn Hrange), list_to_map_to_list.
Qed.
End operations.

(** ** The same on the handle of a transaction *)

Section transaction.
Context (uid : Z) (Huid : 0 <= uid).
Definition table (ps : list policy) (s : Az E) : Prop := exists rs, stored rs s /\ same_policies rs ps.
Definition tx_steps {A} (ps : list policy) (m : MZ A) (ps' : list policy) : Prop := forall s, table ps s ->
  az_enforcer (m s).2 = az_enforcer s /\ az_roles (m s).2 = az_roles s /\
  match (m s).1 with
  | Ok _ => table ps' (m s).2 /\ (az_faults s = [] -> az_faults (m s).2 = [])
  | Err _ => az_faults s <> []
  end.
Lemma tx_bind {A B} ps ps1 ps2 (m : MZ A) (k : A -> MZ B) : tx_steps ps m ps1 -> (forall a, tx_steps ps1 (k a) ps2) ->
  tx_steps ps (m ≫= k) ps2.
Proof.
  intros Hm Hk s Hs. rewrite run_bind. destruct (Hm s Hs) as (He & Hr & Hm'). destruct (m s) as [[a|e] s1]; simpl in *; [|done].
  destruct Hm' as [Hs1 Hf]. destruct (Hk a s1 Hs1) as (He' & Hr' & Hk'). split_and!; [congruence..|].
  destruct ((k a s1).1); naive_solver.
Qed.
Lemma tx_ret {A} ps (a : A) : tx_steps ps (mret a) ps.
Proof. by intros s Hs. Qed.
Lemma tx_forM {A} (P : list policy -> Prop) (f : list policy -> A -> list policy) xs (body : A -> MZ unit) ps :
  (forall x ps, x ∈ xs -> P ps -> tx_steps ps (body x) (f ps x) /\ P (f ps x)) -> P ps ->
  tx_steps ps (forM_ xs body) (fold_left f xs ps).
Proof.
  revert ps. induction xs as [|x xs IH]; intros ps Hb HP; [apply tx_ret|].
  destruct (Hb x ps ltac:(left) HP) as [Hx HP']. simpl. eapply tx_bind; [exact Hx|]. intros _.
  apply IH; [|done]. intros y ps' Hy. apply Hb. by right.
Qed.
Lemma tx_exec ps f ps' : (forall s, az_enforcer (f s) = az_enforcer s /\ az_roles (f s) = az_roles s /\ az_faults (f s) = az_faults s) ->
  (forall s, table ps s -> table ps' (f s)) -> tx_steps ps (az_exec f) ps'.
Proof.
  intros Hf Ht s Hs. destruct (az_exec_cases f s) as [(fs & -> & Hfs)|(err & fs & -> & Hfs)]; cbn [fst snd].
  - destruct (Hf (s <| az_faults := fs |>)) as (-> & -> & ->). split_and!; try (by destruct s). by apply Ht; destruct s.
  - by destruct s.
Qed.
Lemma delete_steps ps r : r <> "" -> tx_steps ps (delete_overrides uid r) (without [UserSubject uid; r] ps).
Proof.
  intros Hr. apply tx_exec; [by intros []|]. intros s (rs & [Hs Hwf] & Hp). exists (without [UserSubject uid; r] rs).
  split; [|by apply without_proper]. split; [|by apply filter_wf]. destruct s. simpl in Hs |- *. subst.
  apply filter_rules; [done|]. intros p (a & b & c & d & -> & _)%wf_policy_inv. cbn [fields_match].
  rewrite (bool_decide_eq_false_2 _ (subject_not_empty uid)), (bool_decide_eq_false_2 _ Hr). cbn [orb].
  rewrite (bool_decide_eq_true_2 (ru_Ptype _ = "p")) by done. cbn [andb newRule ru_V0 ru_V1 nth]. by rewrite andb_true_r.
Qed.
Lemma insert_steps ps news : Forall wf_policy news ->
  tx_steps ps (az_exec (fun s => s <| az_rules := fold_left insert_rule (newRule "p" <$> news) (az_rules s) |>)) (with_policies news ps).
Proof.
  intros Hn. apply tx_exec; [by intros []|]. intros s (rs & [Hs Hwf] & Hp). exists (with_policies news rs).
  split; [|by apply with_policies_proper]. split; [|by apply with_policies_wf]. destruct s. simpl in Hs |- *. subst.
  by apply insert_rules.
Qed.
Lemma known_catalog r a : isKnownResource r = true -> a ∈ catalogActions r -> isKnownPermission (mkPermission r (ad_Action a)) = true.
Proof.
  intros ->%known_resource Ha. assert (Hall : Forall (fun a => isKnownPermission (mkPermission ResourceChannel (ad_Action a)) = true)
    (catalogActions ResourceChannel)) by (repeat constructor).
  rewrite Forall_forall in Hall. by apply Hall.
Qed.
Lemma set_resource_tx e ps0 ps r actions : same_policies (policies e) ps0 -> others uid ps0 ps -> isKnownResource r = true ->
  tx_steps ps (delete_overrides uid r ;;
    match userOverridePolicies e r actions with
    | [] => mret tt
    | os => az_exec (fun s => s <| az_rules := fold_left insert_rule ((fun o => newRule "p" (override_policy uid o)) <$> os) (az_rules s) |>)
    end) (set_resource uid ps (r, actions)).
Proof.
  intros He Ho Hr. assert (Hne : r <> "") by by rewrite (known_resource r Hr).
  eapply tx_bind; [by apply delete_steps|]. intros _.
  assert (Hov : userOverridePolicies e r actions = overrides (base_of ps) r actions).
  { rewrite (user_overrides e _ _ _ He). apply overrides_ext. intros a Ha. symmetry. by apply (others_base uid), known_catalog. }
  rewrite Hov. unfold set_resource. cbn [fst snd]. rewrite Hr. pose proof (overrides_wf (base_of ps) uid r actions Huid Hr) as Hwf.
  destruct (overrides (base_of ps) r actions) as [|o os]; [apply tx_ret|].
  replace ((fun o => newRule "p" (override_policy uid o)) <$> o :: os) with (newRule "p" <$> (override_policy uid <$> o :: os))
    by by rewrite <- list_fmap_compose.
  by apply insert_steps.
Qed.
Lemma SetInTx_steps range e ps permissions s : az_enforcer s = Some e -> same_policies (policies e) ps -> table ps s ->
  let '(r, s') := SetUserPermissionsInTx range uid permissions s in
  az_enforcer s' = Some e /\ az_roles s' = az_roles s /\
  match r with
  | Ok _ => table (set_all uid (range permissions) ps) s' /\ (az_faults s = [] -> az_faults s' = [])
  | Err _ => az_faults s <> []
  end.
Proof.
  intros He Hp Hs. unfold SetUserPermissionsInTx, with_enforcer, currentEnforcer. rewrite run_bind. unfold gets. rewrite He.
  match goal with |- let '(_, _) := forM_ ?xs ?body s in _ =>
    assert (Ht : tx_steps ps (forM_ xs body) (set_all uid xs ps)) end.
  { apply (tx_forM (others uid ps)); [|reflexivity]. intros [r actions] ps1 _ Ho.
    split; [|eapply others_trans; [exact Ho|apply others_set]]. destruct (isKnownResource r) eqn:Hr; cbn [negb].
    - by apply (set_resource_tx e ps).
    - unfold set_resource. cbn [fst]. rewrite Hr. apply tx_ret. }
  specialize (Ht s Hs). destruct (forM_ _ _ s) as [r s']. cbn [fst snd] in Ht. by rewrite He in Ht.
Qed.
Lemma ClearInTx_steps ps : tx_steps ps (ClearUserPermissionsInTx uid)
  (fold_left (fun ps r => without [UserSubject uid; rs_Resource r] ps) registry ps).
Proof.
  apply (tx_forM (fun _ => True)); [|done]. intros r ps' Hr _. split; [|done]. apply delete_steps.
  assert (Hall : Forall (fun r => rs_Resource r <> "") registry) by (repeat constructor; done).
  rewrite Forall_forall in Hall. by apply Hall.
Qed.
End transaction.

(** ** Loading *)

Lemma rule_line p : wf_policy p -> ruleToLine (newRule "p" p) = Join ("p" :: p) ", ".
Proof.
  intros (a & b & c & d & -> & [Ha _] & [Hb _] & [Hc _] & [Hd _])%wf_policy_inv.
  unfold ruleToLine. cbn [newRule ru_Ptype ru_V0 ru_V1 ru_V2 ru_V3 ru_V4 ru_V5 nth].
  rewrite (bool_decide_eq_false_2 _ Hd), andb_false_r. cbv zeta iota.
  rewrite !filter_cons, !decide_True by done. rewrite !decide_False by auto. done.
Qed.
Lemma load_stored rs e : Forall wf_policy rs ->
  exists e', load_lines LoadPolicyLine (newRule "p" <$> rs) e = Ok e' /\ policies e' = with_policies rs (policies e).
Proof.
  intros Hwf. revert e. induction Hwf as [|p rs Hp Hwf IH]; intros e; [by exists e|].
  rewrite fmap_cons. cbn [load_lines]. rewrite (rule_line p Hp). destruct Hp as [Hl Hp].
  destruct (load_plain p e Hl Hp) as (e1 & -> & He1). destruct (IH e1) as (e' & -> & He'). exists e'. split; [done|].
  by rewrite He', He1.
Qed.
Lemma LoadPolicy_run ps s : table ps s -> az_faults s = [] ->
  exists e, LoadPolicy s = (Ok tt, s <| az_enforcer := Some e |>) /\ same_policies (policies e) ps.
Proof.
  intros (rs & [Hs Hwf] & Hp) Hf. destruct (load_stored rs new_model Hwf) as (e & Hl & He). exists e. split.
  - destruct s. simpl in Hs, Hf. subst. unfold LoadPolicy, adapter_LoadPolicy, az_find. rewrite !run_bind. unfold az_call. simpl.
    unfold of_result. by rewrite Hl.
  - intros q. rewrite He, with_policies_elem, policies_new, <- (Hp q). set_solver.
Qed.
Lemma table_set_enforcer ps s e : table ps s -> same_policies (policies e) ps -> at_policies ps (s <| az_enforcer := Some e |>).
Proof. intros (rs & Hrs & Hp) He. exists e, rs. by destruct s. Qed.
Lemma at_table ps s : at_policies ps s -> table ps s.
Proof. intros (e & rs & _ & Hrs & Hp & _). by exists rs. Qed.
Lemma ReloadPolicy_run ps s : table ps s -> is_Some (az_enforcer s) -> az_faults s = [] ->
  exists s', ReloadPolicy s = (Ok tt, s') /\ at_policies ps s' /\ az_rules s' = az_rules s.
Proof.
  intros Ht [e0 He] Hf. destruct (LoadPolicy_run ps s Ht Hf) as (e & Hl & Hp).
  exists (s <| az_enforcer := Some e |>). split_and!; [|by apply table_set_enforcer|by destruct s].
  unfold ReloadPolicy, with_enforcer, currentEnforcer. rewrite run_bind. unfold gets. by rewrite He.
Qed.
(** A transaction commits what its body does or changes nothing. *)
Lemma transaction_run ps (m : MZ unit) s ps' : table ps s ->
  (forall fs, (az_faults s = [] -> fs = []) -> let '(r, s') := m (s <| az_faults := fs |>) in
    az_enforcer s' = az_enforcer s /\ az_roles s' = az_roles s /\
    match r with Ok _ => table ps' s' /\ (fs = [] -> az_faults s' = []) | Err _ => fs <> [] end) ->
  let '(r, s') := az_transaction m s in
  az_enforcer s' = az_enforcer s /\ az_roles s' = az_roles s /\
  match r with Ok _ => table ps' s' | Err _ => az_faults s <> [] /\ az_rules s' = az_rules s end.
Proof.
  intros Hs Hm. unfold az_transaction.
  destruct (az_call_cases s) as [(fs & -> & Hfs)|(err & fs & -> & Hfs)]; [|by destruct s].
  specialize (Hm fs Hfs). destruct (m (s <| az_faults := fs |>)) as [[[]|err] s2]; destruct Hm as (He & Hr & Hm).
  - destruct Hm as [Ht Hf2]. destruct (az_call_cases s2) as [(fs' & -> & Hfs')|(err & fs' & -> & Hfs')].
    + by destruct s2.
    + destruct s, s2. simpl in *. split_and!; try done. intros ->. auto.
  - destruct s, s2. simpl in *. split_and!; try done. intros ->. auto.
Qed.

(** ** The start of the master node *)

Lemma az_exec_run f (s : Az E) : az_faults s = [] -> az_exec f s = (Ok tt, f s).
Proof. destruct s. simpl. by intros ->. Qed.
Lemma exec_loop {A} (f : A -> Az E -> Az E) xs s : (forall x s, az_faults (f x s) = az_faults s) -> az_faults s = [] ->
  forM_ xs (fun x => az_exec (f x)) s = (Ok tt, fold_left (fun s x => f x s) xs s).
Proof.
  intros Hf. revert s. induction xs as [|x xs IH]; intros s Hs; [done|]. simpl. rewrite run_bind, az_exec_run by done.
  apply IH. by rewrite Hf.
Qed.
(** Runs without failing statements. *)
Definition runs {A} (ps : list policy) (m : MZ A) (ps' : list policy) : Prop := forall s, at_policies ps s -> az_faults s = [] ->
  exists a s', m s = (Ok a, s') /\ at_policies ps' s' /\ az_faults s' = [] /\ az_roles s' = az_roles s.
Lemma steps_runs {A} uid ps (m : MZ A) ps' : steps uid ps m ps' -> runs ps m ps'.
Proof.
  intros Hm s Hs Hf. destruct (Hm s Hs) as [Hr Hm']. destruct (m s) as [[a|e] s']; simpl in *; [|naive_solver].
  exists a, s'. naive_solver.
Qed.
Lemma runs_ret {A} ps (a : A) : runs ps (mret a) ps.
Proof. intros s Hs Hf. by exists a, s. Qed.
Lemma runs_bind {A B} ps ps1 ps2 (m : MZ A) (k : A -> MZ B) : runs ps m ps1 -> (forall a, runs ps1 (k a) ps2) -> runs ps (m ≫= k) ps2.
Proof.
  intros Hm Hk s Hs Hf. destruct (Hm s Hs Hf) as (a & s1 & Em & Hs1 & Hf1 & Hr1). rewrite run_bind, Em.
  destruct (Hk a s1 Hs1 Hf1) as (b & s2 & -> & Hs2 & Hf2 & Hr2). exists b, s2. by rewrite Hr2.
Qed.
Lemma runs_forM {A} (f : list policy -> A -> list policy) xs (body : A -> MZ unit) ps :
  (forall x ps, x ∈ xs -> runs ps (body x) (f ps x)) -> runs ps (forM_ xs body) (fold_left f xs ps).
Proof.
  revert ps. induction xs as [|x xs IH]; intros ps Hb; [apply runs_ret|]. simpl. eapply runs_bind; [apply Hb; left|].
  intros _. apply IH. intros y ps' Hy. apply Hb. by right.
Qed.

Definition role_subjects : list string := (fun spec => RoleSubject (ro_Key spec)) <$> builtInRoles.
Definition of_users (ps : list policy) : list policy := List.filter (fun p => negb (bool_decide (nth 0 p "" ∈ role_subjects))) ps.
Definition grant (roleKey : string) (p : Permission) : policy := [RoleSubject roleKey; pm_Resource p; pm_Action p; EffectAllow].
Definition seeded (ps : list policy) : list policy := with_policies (grant BuiltInRoleAdmin <$> PermissionsForRole BuiltInRoleAdmin) (of_users ps).

Lemma grants_wf p : p ∈ PermissionsForRole BuiltInRoleAdmin -> wf_policy (grant BuiltInRoleAdmin p).
Proof.
  assert (Hall : Forall (fun p => wf_policy (grant BuiltInRoleAdmin p)) (PermissionsForRole BuiltInRoleAdmin))
    by (repeat constructor; try done; vm_compute; discriminate).
  rewrite Forall_forall in Hall. apply Hall.
Qed.
Lemma seed_runs ps : runs ps seedDefaultPolicies (with_policies (grant BuiltInRoleAdmin <$> PermissionsForRole BuiltInRoleAdmin) ps).
Proof.
  unfold seedDefaultPolicies. intros s Hs. pose proof Hs as (e & He). unfold with_enforcer, currentEnforcer.
  destruct He as (rs & He & _). rewrite run_bind. unfold gets. rewrite He. clear e rs He. revert s Hs.
  assert (Hb : runs ps (forM_ (PermissionsForRole BuiltInRoleAdmin) (fun p => _ ← e_AddPolicy (grant BuiltInRoleAdmin p); mret tt))
    (with_policies (grant BuiltInRoleAdmin <$> PermissionsForRole BuiltInRoleAdmin) ps)).
  { rewrite with_policies_map. apply (runs_forM (fun ps p => add_policy (grant BuiltInRoleAdmin p) ps)). intros p ps' Hp.
    eapply runs_bind; [by apply (steps_runs 0), e_add_steps, grants_wf|]. intros _. apply runs_ret. }
  unfold builtInRoles. cbn [forM_ ro_Superuser].
  apply (runs_bind _ ps); [apply runs_ret|]. intros _. eapply runs_bind; [exact Hb|]. intros _. apply runs_ret.
Qed.

Lemma of_users_elem ps q : q ∈ of_users ps <-> q ∈ ps /\ nth 0 q "" ∉ role_subjects.
Proof.
  unfold of_users. etransitivity; [apply list_elem_of_In|]. etransitivity; [apply List.filter_In|].
  rewrite negb_true_iff, bool_decide_eq_false. by rewrite (list_elem_of_In ps q).
Qed.
Lemma matches_subject subject p q : subject <> "" -> fields_match [subject; pm_Resource p; pm_Action p] q = true -> nth 0 q "" = subject.
Proof.
  intros Hs. destruct q as [|x q]; [done|]. cbn [fields_match]. rewrite (bool_decide_eq_false_2 _ Hs). cbn [orb].
  by intros [->%bool_decide_eq_true _]%andb_true_iff.
Qed.
(** The overrides of users stay. *)
Lemma seeded_user ps u p : effect_of (seeded ps) (UserSubject u) p = effect_of ps (UserSubject u) p.
Proof.
  apply effect_same. intros q Hq. apply matches_subject in Hq; [|done]. unfold seeded.
  rewrite with_policies_elem, of_users_elem, Hq. split; [|intros Hin; left; split; [done|]].
  - intros [[]|(x & -> & _)%list_elem_of_fmap]; done.
  - unfold role_subjects. intros (spec & E0 & _)%list_elem_of_fmap. done.
Qed.
(** The baseline is the one of the registry. *)
Lemma seeded_base ps p : isKnownPermission p = true -> base_of (seeded ps) p = bool_decide (p ∈ PermissionsForRole BuiltInRoleAdmin).
Proof.
  intros (Hr & Ha)%known_not_empty. unfold base_of. apply bool_decide_ext.
  assert (Hq : forall q, q ∈ seeded ps -> fields_match [RoleSubject managedRoleKey; pm_Resource p; pm_Action p] q = true ->
    p ∈ PermissionsForRole BuiltInRoleAdmin /\ q = grant BuiltInRoleAdmin p).
  { intros q Hin Hq. pose proof (matches_subject _ _ _ (role_not_empty managedRoleKey) Hq) as Hsub.
    apply with_policies_elem in Hin as [[_ Hn]%of_users_elem|(x & -> & Hx)%list_elem_of_fmap].
    - rewrite Hsub in Hn. destruct Hn. right. left.
    - destruct x as [xr xa], p as [pr pa]. unfold grant in *. cbn [fields_match] in Hq. simpl in Hr, Ha.
      rewrite (bool_decide_eq_false_2 _ Hr), (bool_decide_eq_false_2 _ Ha), !andb_true_r, !andb_true_iff in Hq.
      destruct Hq as (_ & E1%bool_decide_eq_true & E2%bool_decide_eq_true). simpl in E1, E2. subst. by split. }
  split.
  - intros He. destruct (decide (p ∈ PermissionsForRole BuiltInRoleAdmin)) as [|Hn]; [done|].
    rewrite effect_none in He; [done|]. intros q Hin. apply not_true_iff_false. intros Hm. by destruct (Hq q Hin Hm).
  - intros Hp. apply effect_uniform; [by left| |].
    + intros q Hin Hm. by destruct (Hq q Hin Hm) as [_ ->].
    + exists (grant BuiltInRoleAdmin p). split; [apply with_policies_elem; right; by apply list_elem_of_fmap_2|].
      unfold grant. cbn [fields_match]. rewrite (bool_decide_eq_true_2 (RoleSubject BuiltInRoleAdmin = RoleSubject managedRoleKey) eq_refl),
        (bool_decide_eq_true_2 (pm_Resource p = pm_Resource p) eq_refl), (bool_decide_eq_true_2 (pm_Action p = pm_Action p) eq_refl).
      by rewrite !orb_true_r.
Qed.
Lemma Init_run (master : bool) ps s : table ps s -> az_faults s = [] ->
  exists s', Init master s = (Ok tt, s') /\ at_policies (if master then seeded ps else ps) s' /\
    (if master then forall spec, spec ∈ builtInRoles -> exists r, az_roles s' !! ro_Key spec = Some r /\ ar_Enabled r = true /\ ar_BuiltIn r = true
     else az_rules s' = az_rules s /\ az_roles s' = az_roles s).
Proof.
  intros Ht Hf. unfold Init. destruct master.
  - unfold seedBuiltInRoles. rewrite !run_bind, (exec_loop upsert_role) by (done || by intros ? []).
    set (s1 := fold_left _ _ _). assert (Hf1 : az_faults s1 = []) by by destruct s.
    assert (Hr1 : forall spec, spec ∈ builtInRoles -> exists r, az_roles s1 !! ro_Key spec = Some r /\ ar_Enabled r = true /\ ar_BuiltIn r = true).
    { intros spec Hs. unfold builtInRoles in Hs. subst s1. destruct s as [rs0 ro0 fs0 e0]. unfold builtInRoles, upsert_role, upd. cbn [fold_left az_roles ro_Key].
      apply elem_of_cons in Hs as [->|[->|[]%elem_of_nil]%elem_of_cons]; cbn [ro_Key].
      - rewrite lookup_insert_ne by done. rewrite lookup_insert_eq. by eexists.
      - rewrite lookup_insert_eq. by eexists. }
    assert (Ht1 : table ps s1) by by destruct s. clearbody s1. unfold resetBuiltInRolePolicies. rewrite az_exec_run by done.
    set (s2 := delete_rules _ _). assert (Hf2 : az_faults s2 = []) by by destruct s1.
    assert (Ht2 : table (of_users ps) s2).
    { destruct Ht1 as (rs & [Hs Hwf] & Hp). exists (of_users rs). split; [split|].
      - subst s2. destruct s1. simpl in Hs |- *. subst. apply filter_rules; [done|].
        intros p (a & b & c & d & -> & _)%wf_policy_inv. cbn [newRule ru_Ptype ru_V0 nth].
        by rewrite (bool_decide_eq_true_2 ("p" = "p")).
      - by apply filter_wf.
      - intros q. by rewrite !of_users_elem, (Hp q). }
    assert (Hr2 : az_roles s2 = az_roles s1) by by destruct s1. clearbody s2.
    destruct (LoadPolicy_run _ s2 Ht2 Hf2) as (e & He & Hpe).
    destruct (seed_runs _ _ (table_set_enforcer _ _ e Ht2 Hpe) ltac:(by destruct s2)) as (a & s3 & Hs3 & Hat & _ & Hr3).
    rewrite run_bind, He, Hs3. destruct a. exists s3. split; [done|]. split; [done|]. intros spec Hspec.
    rewrite Hr3. destruct s2. simpl in *. rewrite Hr2. by apply Hr1.
  - destruct (LoadPolicy_run ps s Ht Hf) as (e & He & Hpe). rewrite !run_bind, run_ret, run_bind, He.
    eexists. split; [done|]. split; [by apply table_set_enforcer|by destruct s].
Qed.

(** The body of the transaction that changes the permissions of a user. *)
Lemma update_run range uid userRole permissions ps (s : Az E) : 0 <= uid -> at_policies ps s -> forall fs, (az_faults s = [] -> fs = []) ->
  let '(r, s') := (_ ← updateAdminPermissionsForUserInTx range 100 uid userRole (Some permissions); mret tt) (s <| az_faults := fs |>) in
  az_enforcer s' = az_enforcer s /\ az_roles s' = az_roles s /\
  match r with
  | Ok _ => table (if userRole <? 10 then fold_left (fun ps r => without [UserSubject uid; rs_Resource r] ps) registry ps
                   else set_all uid (range permissions) ps) s' /\ (fs = [] -> az_faults s' = [])
  | Err _ => fs <> []
  end.
Proof.
  intros Hu Hs fs _. unfold updateAdminPermissionsForUserInTx. cbn [negb Z.eqb Pos.eqb]. rewrite run_bind.
  assert (Ht : table ps (s <| az_faults := fs |>)) by (apply at_table; by apply at_faults).
  assert (Hsf : az_enforcer (s <| az_faults := fs |>) = az_enforcer s /\ az_roles (s <| az_faults := fs |>) = az_roles s /\
                az_faults (s <| az_faults := fs |>) = fs) by by destruct s.
  destruct Hsf as (Hse & Hsr & Hsf). destruct (userRole <? 10); rewrite run_bind.
  - pose proof (ClearInTx_steps uid ps _ Ht) as Hc. rewrite Hse, Hsr, Hsf in Hc.
    by destruct (ClearUserPermissionsInTx uid _) as [[[]|err] s2].
  - destruct Hs as (e & rs & He & _ & _ & Hp). rewrite <- Hse in He.
    pose proof (SetInTx_steps uid Hu range e ps permissions _ He Hp Ht) as Hc. rewrite Hsr, Hsf, <- He, Hse in Hc.
    by destruct (SetUserPermissionsInTx range uid permissions _) as [[[]|err] s2].
Qed.
Lemma clear_others uid rs ps : others uid ps (fold_left (fun ps r => without [UserSubject uid; rs_Resource r] ps) rs ps).
Proof.
  revert ps. induction rs as [|r rs IH]; intros ps; [reflexivity|]. eapply others_trans; [apply others_without|apply IH].
Qed.
Lemma fields_match_prefix vs ws q : fields_match (vs ++ ws) q = true -> fields_match vs q = true.
Proof.
  revert q. induction vs as [|v vs IH]; intros [|x q]; simpl; try done. intros [-> Hm]%andb_true_iff. by apply IH.
Qed.
Lemma cleared_can uid ps s s' role p : at_policies ps s ->
  at_policies (fold_left (fun ps r => without [UserSubject uid; rs_Resource r] ps) registry ps) s' ->
  10 <= role < 100 -> isKnownPermission p = true -> Can s' uid role p = baseline s p.
Proof.
  intros Hs Hs' Hrole Hp. rewrite (at_can _ _ _ _ _ Hs'), (at_baseline _ _ _ Hs), Hp.
  destruct (Z.geb_spec role 100); [lia|]. destruct (Z.geb_spec role 10); [|lia]. cbn [andb]. unfold allowed.
  rewrite (others_base uid ps _ p (clear_others uid registry ps) Hp).
  pose proof (known_action p Hp) as (Hr & _). rewrite effect_none; [done|].
  intros q Hq. apply without_elem in Hq as [_ Hq]. apply not_true_iff_false. intros Hm.
  rewrite Hr in Hm. apply (fields_match_prefix [_; _] [_]) in Hm. exact (eq_true_false_abs _ Hm Hq).
Qed.
End simulation.

(** ** A list of policies as the enforcer *)

Definition blank : Ascii.ascii := Ascii.ascii_of_nat 32.
Definition comma : Ascii.ascii := Ascii.ascii_of_nat 44.
Definition line_fields (line : string) : list string := trim_left_byte blank <$> SplitByte line comma.
#[export] Instance list_enforcer : SyncedEnforcer (list policy) := {|
  new_model := [];
  LoadPolicyLine line ps := match line_fields line with
                            | ptype :: p => if decide (ptype = "p") then Ok (add_policy p ps) else Ok ps
                            | [] => Ok ps
                            end;
  GetFilteredPolicy ps values := Ok (List.filter (fields_match values) ps);
  AddPolicy save p s := match az_enforcer s with
    | None => (Ok false, s)
    | Some ps => if decide (p ∈ ps) then (Ok false, s)
                 else match save p s with
                      | (Err err, s') => (Err err, s')
                      | (Ok _, s') => (Ok true, s' <| az_enforcer := Some (ps ++ [p]) |>)
                      end
    end;
  RemoveFilteredPolicy save values s := match az_enforcer s with
    | None => (Ok false, s)
    | Some ps => match save values s with
                 | (Err err, s') => (Err err, s')
                 | (Ok _, s') => (Ok (existsb (fields_match values) ps), s' <| az_enforcer := Some (without values ps) |>)
                 end
    end;
|}.
Lemma plain_trim field : plain field -> trim_left_byte blank field = field.
Proof.
  intros [Hne Hp]. destruct field as [|c field]; [done|]. cbn [all_bytes] in Hp. apply andb_true_iff in Hp as [Hp _].
  cbn [trim_left_byte].
  destruct (decide (c = blank)) as [->|]; [by vm_compute in Hp|done].
Qed.
Lemma plain_comma field : plain field -> all_bytes (not_byte comma) field = true.
Proof.
  intros [_ Hp]. eapply all_bytes_mono; [|exact Hp]. intros c. unfold plain_byte, not_byte. intros Hc.
  apply negb_true_iff, bool_decide_eq_false_2. intros ->. by vm_compute in Hc.
Qed.
Lemma line_fields_plain p : Forall plain p -> line_fields (Join ("p" :: p) ", ") = "p" :: p.
Proof.
  assert (Hp : plain "p") by by split.
  intros Hps. unfold line_fields, Join. revert Hp. generalize "p" as x. induction Hps as [|y p Hy Hps IH]; intros x Hx.
  - simpl. rewrite SplitByte_none by by apply plain_comma. cbn [fmap list_fmap].
    by rewrite (plain_trim x Hx).
  - change (String.concat ", " (x :: y :: p)) with (x +:+ String comma (String blank (String.concat ", " (y :: p)))).
    rewrite SplitByte_app by by apply plain_comma. rewrite fmap_cons.
    rewrite (plain_trim x Hx). f_equal.
    pose proof (IH y Hy) as E0. set (t := String.concat ", " (y :: p)) in *. cbn [SplitByte].
    rewrite decide_False by done. by destruct (SplitByte t comma) as [|z zs].
Qed.
#[export] Program Instance list_laws : EnforcerLaws (list policy) := {| policies ps := ps |}.
Next Obligation. done. Qed.
Next Obligation. done. Qed.
Next Obligation. intros p e _ Hp. unfold LoadPolicyLine, list_enforcer. rewrite line_fields_plain by done. rewrite decide_True by done. by eexists. Qed.
Next Obligation. intros save p s e He Hp. unfold AddPolicy. simpl. by rewrite He, decide_True. Qed.
Next Obligation. intros save p s e err s' He Hp Hs. unfold AddPolicy. simpl. by rewrite He, decide_False, Hs. Qed.
Next Obligation. intros save p s e s' He Hp Hs. unfold AddPolicy. simpl. rewrite He, decide_False, Hs by done. by eexists. Qed.
Next Obligation. intros save v s e err s' He _ Hs. unfold RemoveFilteredPolicy. simpl. by rewrite He, Hs. Qed.
Next Obligation. intros save v s e s' He _ Hs. unfold RemoveFilteredPolicy. simpl. rewrite He, Hs. by do 2 eexists. Qed.

(** ** Main theorems *)


(** C20 A node that starts on a table in step with the enforcer of another comes up without
    failing; users keep their overrides, the master resets the baseline to the grants of
    the registry and enables the built-in roles, and other nodes write nothing. *)
Theorem start_restores_baseline `{EnforcerLaws E} (master : bool) (s node : Az E) e :
  synced s -> az_enforcer s = Some e -> az_rules node = az_rules s -> az_faults node = [] ->
  exists node' e', Init master node = (Ok tt, node') /\ synced node' /\ az_enforcer node' = Some e' /\
    (forall u p, explicitSubjectEffect e' (UserSubject u) p = explicitSubjectEffect e (UserSubject u) p) /\
    (forall p, isKnownPermission p = true ->
       baseline node' p = if master then bool_decide (p ∈ PermissionsForRole BuiltInRoleAdmin) else baseline s p) /\
    (if master then forall spec, spec ∈ builtInRoles ->
       exists r, az_roles node' !! ro_Key spec = Some r /\ ar_Enabled r = true /\ ar_BuiltIn r = true
     else az_rules node' = az_rules node /\ az_roles node' = az_roles node).
Proof.
  intros [ps Hs] He Hn Hf. assert (Ht : table ps node).
  { destruct (at_table ps s Hs) as (rs & [Hrs Hwf] & Hp). exists rs. split; [split; [by rewrite Hn|done]|done]. }
  destruct (Init_run master ps node Ht Hf) as (node' & Hi & Hat & Hr).
  pose proof Hat as (e' & _ & He' & _ & _ & Hp'). pose proof Hs as (e0 & _ & He0 & _ & _ & Hp). rewrite He in He0. injection He0 as <-.
  exists node', e'. split_and!; try done; [by eexists| |].
  - intros u p. rewrite !explicit_effect, (effect_proper _ _ Hp _ _ eq_refl _ _ eq_refl), (effect_proper _ _ Hp' _ _ eq_refl _ _ eq_refl).
    destruct master; [apply seeded_user|done].
  - intros p Hk. rewrite (at_baseline _ _ _ Hat), (at_baseline _ _ _ Hs). destruct master; [by apply seeded_base|done].
Qed.

(** ** Examples *)

Definition sample_start : Az (list policy) := mkAz [] ∅ [] None.
(** The database and the enforcer after the master has started. *)
Definition sample_az : Az (list policy) := Eval vm_compute in (Init true sample_start).2.
(** User 7 may see secrets but not operate. *)
Definition sample_grant : PermissionsMap := {[ ResourceChannel := {[ ActionSecretView := true; ActionOperate := false; ActionRead := true ]} ]}.
Definition sample_change (faults : list (option string)) : result error unit * Az (list policy) :=
  az_transaction (_ ← updateAdminPermissionsForUserInTx map_to_list 100 7 10 (Some sample_grant); mret tt) (sample_az <| az_faults := faults |>).
Definition can_list (s : Az (list policy)) (uid role : Z) : list bool := Can s uid role <$> AllPermissions.

Lemma sample_synced : synced sample_az.
Proof.
  set (ps := grant BuiltInRoleAdmin <$> PermissionsForRole BuiltInRoleAdmin).
  exists ps, (default [] (az_enforcer sample_az)), ps. split; [vm_compute; reflexivity|]. split; [split; [vm_compute; reflexivity|]|].
  - apply Forall_fmap, Forall_forall. intros p. apply grants_wf.
  - split; [done|]. replace (default [] (az_enforcer sample_az)) with ps by (vm_compute; reflexivity). done.
Qed.
Lemma start_restores_baseline_witness :
  exists node', Init true (sample_az <| az_enforcer := None |>) = (Ok tt, node') /\ synced node' /\
    baseline node' (mkPermission ResourceChannel ActionWrite) = true /\
    baseline node' (mkPermission ResourceChannel ActionSecretView) = false.
Proof.
  destruct (start_restores_baseline true sample_az (sample_az <| az_enforcer := None |>) (default [] (az_enforcer sample_az)) sample_synced
    ltac:(vm_compute; reflexivity) ltac:(vm_compute; reflexivity) ltac:(vm_compute; reflexivity)) as (node' & e' & Hi & Hs & _ & _ & Hb & _).
  exists node'. split; [exact Hi|]. split; [exact Hs|].
  split; (rewrite Hb; [vm_compute; reflexivity|vm_compute; reflexivity]).
Defined.
(** A failing statement, also the commit, leaves the decisions and the table as they were. *)
Example sample_rolled_back :
  let failed := sample_change [None; None; None; Some "commit"] in
  failed.1 = Err (ErrDB "commit") /\ az_rules failed.2 = az_rules sample_az.
Proof. vm_compute. split; reflexivity. Qed.
(** Overrides that match the baseline are not stored. *)
Example sample_overrides :
  length (az_rules (sample_change []).2) = (length (az_rules sample_az) + 2)%nat.
Proof. vm_compute. reflexivity. Qed.
