(* ===== verification/TwoFactor.v ===== *)
(** * Two-factor authentication (src/model/twofa.go, src/common/totp.go,
    src/controller/twofa.go)

    Requests of several nodes share the tables, so a handler is a program of database
    statements that take turns; a transaction is one statement.  Times are nanoseconds. *)

From S2P Require Import Prelude GoStd.
Import GoStrings GoText GoTime.

(** ** Codes (common/totp.go) *)

Definition BackupCodeLength : Z := 8.
Definition BackupCodeCount : Z := 4.
Definition MaxFailAttempts : Z := 5.
Definition LockoutDuration : Z := 300.

Definition upper_or_digit (c : Ascii.ascii) : bool :=
  let n := Ascii.nat_of_ascii c in (65 <=? n)%nat && (n <=? 90)%nat || (48 <=? n)%nat && (n <=? 57)%nat.

Section codes.
Context (ToUpper : string -> string) (totp_Validate : string -> string -> Z -> bool).

Definition ValidateTOTPCode (secret code : string) (now : Z) : bool :=
  let cleanCode := ReplaceAll code " " "" in
  if negb (Z.of_nat (String.length cleanCode) =? 6) then false else totp_Validate cleanCode secret now.
Definition cleanBackupCode (code : string) : string := ToUpper (ReplaceAll code "-" "").
Definition ValidateBackupCodeFormat (code : string) : bool :=
  let cleanCode := cleanBackupCode code in
  if negb (Z.of_nat (String.length cleanCode) =? BackupCodeLength) then false else all_bytes upper_or_digit cleanCode.
Definition NormalizeBackupCode (code : string) : string :=
  let cleanCode := cleanBackupCode code in
  if Z.of_nat (String.length cleanCode) =? BackupCodeLength
  then String.substring 0 4 cleanCode +:+ "-" +:+ String.substring 4 4 cleanCode else code.
Definition HashBackupCode (Password2Hash : string -> result error string) (code : string) : result error string :=
  Password2Hash (NormalizeBackupCode code).
Definition ValidateNumericCode (code : string) : result error string :=
  let code := ReplaceAll code " " "" in
  if negb (Z.of_nat (String.length code) =? 6) then Err (ErrNew "验证码必须是6位数字")
  else match Atoi code with
       | None => Err (ErrNew "验证码只能包含数字")
       | Some _ => Ok code
       end.
(** One code from its random bytes. *)
Definition charset : string := "ABCDEFGHIJKLMNOPQRSTUVWXYZ0123456789".
Definition code_char (b : Z) : Ascii.ascii := default Ascii.zero (String.get (Z.to_nat (b mod 36)) charset).
Definition generateRandomBackupCode (random : list Z) : string :=
  let code := String.string_of_list_ascii (code_char <$> take 8 random) in
  String.substring 0 4 code +:+ "-" +:+ String.substring 4 4 code.
End codes.

(** ** Tables *)

(** The columns created_at and updated_at, which nothing reads, and deleted_at, which
    stays NULL since rows are deleted for good, are left out. *)
Record TwoFA := mkTwoFA {
  tf_Id : Z;
  tf_UserId : Z;
  tf_Secret : string;
  tf_IsEnabled : bool;
  tf_FailedAttempts : Z;
  tf_LockedUntil : option Z;
  tf_LastUsedAt : option Z;
}.
#[export] Instance TwoFA_settable : Settable TwoFA :=
  fields_of mkTwoFA < tf_Id; tf_UserId; tf_Secret; tf_IsEnabled; tf_FailedAttempts; tf_LockedUntil; tf_LastUsedAt >.
Record TwoFABackupCode := mkCode {
  bc_Id : Z;
  bc_UserId : Z;
  bc_CodeHash : string;
  bc_IsUsed : bool;
  bc_UsedAt : option Z;
  bc_Deleted : bool;
}.
#[export] Instance TwoFABackupCode_settable : Settable TwoFABackupCode :=
  fields_of mkCode < bc_Id; bc_UserId; bc_CodeHash; bc_IsUsed; bc_UsedAt; bc_Deleted >.

(** The clock, the two tables, their next ids, and the roles of the users. *)
Record Store := mkStore {
  st_now : Z;
  st_twofa : gmap Z TwoFA;
  st_codes : gmap Z TwoFABackupCode;
  st_next : Z;
  st_next_code : Z;
  st_roles : gmap Z Z;
}.
#[export] Instance Store_settable : Settable Store :=
  fields_of mkStore < st_now; st_twofa; st_codes; st_next; st_next_code; st_roles >.

(** ** Statements *)

Inductive stmt : Type -> Type :=
| Now : stmt Z
| SelectUser (id : Z) : stmt (option Z)
| SelectTwoFA (userId : Z) : stmt (option TwoFA)
| SelectTwoFAById (id : Z) : stmt (option TwoFA)
| InsertTwoFA (t : TwoFA) : stmt unit
| SaveTwoFA (t : TwoFA) : stmt unit
| CountFailure (current : TwoFA) (now attempts : Z) (lock : option Z) : stmt Z
| DeleteTwoFA (t : TwoFA) : stmt unit
| SelectCodes (userId : Z) : stmt (list TwoFABackupCode)
| UseCode (id now : Z) : stmt Z
| ReplaceCodes (userId : Z) (hashes : list string) : stmt unit.

Definition values {V} (m : gmap Z V) : list V := (map_to_list m).*2.
Definition code_le (a b : TwoFABackupCode) : Prop := bc_Id a <= bc_Id b.
#[export] Instance code_le_dec a b : Decision (code_le a b) := decide (bc_Id a <= bc_Id b).
Definition of_user (userId : Z) (t : TwoFA) : bool := tf_UserId t =? userId.
Definition unused_code (userId : Z) (c : TwoFABackupCode) : bool := (bc_UserId c =? userId) && negb (bc_IsUsed c) && negb (bc_Deleted c).
(** The unique index on user_id. *)
Definition clashes (t t' : TwoFA) : bool := (tf_UserId t =? tf_UserId t') && negb (tf_Id t =? tf_Id t').
Definition insert_twofa (t : TwoFA) (s : Store) : result error unit * Store :=
  if existsb (clashes t) (values (st_twofa s)) then (Err ErrDuplicatedKey, s)
  else (Ok tt, s <| st_twofa := <[tf_Id t := t]> (st_twofa s) |> <| st_next := Z.max (st_next s) (tf_Id t + 1) |>).
Definition lock_over (now : Z) (lock : option Z) : bool := match lock with None => true | Some l => l <=? now end.
Fixpoint insert_codes (userId : Z) (hashes : list string) (s : Store) : Store :=
  match hashes with
  | [] => s
  | h :: hashes =>
      let id := st_next_code s in
      insert_codes userId hashes (s <| st_codes := <[id := mkCode id userId h false None false]> (st_codes s) |> <| st_next_code := id + 1 |>)
  end.

Definition set_failure (attempts : Z) (lock : option Z) (t : TwoFA) : TwoFA := t <| tf_FailedAttempts := attempts |> <| tf_LockedUntil := lock |>.
Definition set_used (now : Z) (c : TwoFABackupCode) : TwoFABackupCode := c <| bc_IsUsed := true |> <| bc_UsedAt := Some now |>.
Definition drop_code (userId : Z) (c : TwoFABackupCode) : TwoFABackupCode :=
  if bc_UserId c =? userId then c <| bc_Deleted := true |> else c.

Definition exec_stmt {B} (e : stmt B) (s : Store) : result error B * Store :=
  match e with
  | Now => (Ok (st_now s), s)
  | SelectUser id => (Ok (st_roles s !! id), s)
  | SelectTwoFA userId => (Ok (List.find (of_user userId) (values (st_twofa s))), s)
  | SelectTwoFAById id => (Ok (st_twofa s !! id), s)
  | InsertTwoFA t => insert_twofa (t <| tf_Id := st_next s |>) s
  (* Save updates the row with the id, and inserts the row where there is none *)
  | SaveTwoFA t => insert_twofa t s
  | CountFailure current now attempts lock =>
      match st_twofa s !! tf_Id current with
      | Some row =>
          if (tf_FailedAttempts row =? tf_FailedAttempts current) && lock_over now (tf_LockedUntil row)
          then (Ok 1, s <| st_twofa := <[tf_Id current := set_failure attempts lock row]> (st_twofa s) |>)
          else (Ok 0, s)
      | None => (Ok 0, s)
      end
  | DeleteTwoFA t =>
      (Ok tt, s <| st_codes := filter (fun kc : Z * TwoFABackupCode => bc_UserId kc.2 <> tf_UserId t) (st_codes s) |>
                <| st_twofa := delete (tf_Id t) (st_twofa s) |>)
  | SelectCodes userId => (Ok (List.filter (unused_code userId) (merge_sort code_le (values (st_codes s)))), s)
  | UseCode id now =>
      match st_codes s !! id with
      | Some c =>
          if negb (bc_IsUsed c) && negb (bc_Deleted c)
          then (Ok 1, s <| st_codes := <[id := set_used now c]> (st_codes s) |>)
          else (Ok 0, s)
      | None => (Ok 0, s)
      end
  | ReplaceCodes userId hashes =>
      (Ok tt, insert_codes userId hashes
        (s <| st_codes := drop_code userId <$> st_codes s |>))
  end.
(** A statement may fail before it takes effect; reading the clock cannot. *)
Definition exec {B} (fault : option error) (e : stmt B) (s : Store) : result error B * Store :=
  match e, fault with
  | Now, _ | _, None => exec_stmt e s
  | _, Some err => (Err err, s)
  end.

(** ** Programs of statements *)

Inductive prog (A : Type) : Type :=
| Done (a : A)
| Exec {B : Type} (e : stmt B) (k : result error B -> prog A).
Arguments Done {A} a.
Arguments Exec {A B} e k.
#[export] Instance prog_ret : MRet prog := fun A a => Done a.
#[export] Instance prog_bind : MBind prog := fun A B k =>
  fix go p := match p with Done a => k a | Exec e c => Exec e (fun r => go (c r)) end.
Definition call {B} (e : stmt B) : prog (result error B) := Exec e Done.
Definition on_ok {A B} (k : A -> prog (result error B)) (r : result error A) : prog (result error B) :=
  match r with Ok a => k a | Err e => mret (Err e) end.
Notation "x ←? m ; k" := (m ≫= on_ok (fun x => k)) (at level 20, m at level 100, k at level 200, right associativity,
  format "x  ←?  m ;  '/' k").
Definition clock : prog Z := Exec Now (fun r => match r with Ok z => Done z | Err _ => Done 0 end).

(** ** Operations (model/twofa.go) *)

Definition missing_id : error := ErrNew "2FA记录ID不能为空".
Definition wrong_code : error := ErrNew "验证码或备用码不正确".
Definition ErrTwoFANotEnabled : error := ErrNew "2fa not enabled".

Definition GetTwoFAByUserId (userId : Z) : prog (result error (option TwoFA)) :=
  if userId =? 0 then mret (Err (ErrNew "用户ID不能为空")) else call (SelectTwoFA userId).
Definition IsTwoFAEnabled (userId : Z) : prog (result error bool) :=
  twoFA ←? GetTwoFAByUserId userId;
  mret (Ok (match twoFA with Some t => tf_IsEnabled t | None => false end)).
Definition Create (t : TwoFA) : prog (result error unit) :=
  existing ←? GetTwoFAByUserId (tf_UserId t);
  match existing with
  | Some _ => mret (Err (ErrNew "用户已存在2FA设置"))
  | None =>
      user ←? call (SelectUser (tf_UserId t));
      match user with
      | None => mret (Err (ErrNew "用户不存在"))
      | Some _ => call (InsertTwoFA t)
      end
  end.
Definition Update (t : TwoFA) : prog (result error unit) :=
  if tf_Id t =? 0 then mret (Err missing_id) else call (SaveTwoFA t).
Definition Delete (t : TwoFA) : prog (result error unit) :=
  if tf_Id t =? 0 then mret (Err missing_id) else call (DeleteTwoFA t).
Definition reset (t : TwoFA) : TwoFA := t <| tf_FailedAttempts := 0 |> <| tf_LockedUntil := None |>.
(** The methods on a pointer also return what the fields of the record have become. *)
Definition ResetFailedAttempts (t : TwoFA) : prog (result error unit * TwoFA) :=
  r ← Update (reset t); mret (r, reset t).
Definition before (now : Z) (lock : option Z) : bool := match lock with None => false | Some l => now <? l end.
Fixpoint increment_loop (retries : nat) (t : TwoFA) : prog (result error unit * TwoFA) :=
  match retries with
  | O => mret (Err (ErrNew "更新2FA失败次数冲突，请重试"), t)
  | S retries =>
      r ← call (SelectTwoFAById (tf_Id t));
      match r with
      | Err e => mret (Err e, t)
      | Ok None => mret (Err ErrRecordNotFound, t)
      | Ok (Some current) =>
          now ← clock;
          if before now (tf_LockedUntil current)
          then mret (Ok tt, set_failure (tf_FailedAttempts current) (tf_LockedUntil current) t)
          else
            let nextFailedAttempts := tf_FailedAttempts current + 1 in
            let nextLockedUntil := if nextFailedAttempts >=? MaxFailAttempts
                                   then Some (now + LockoutDuration * Second) else tf_LockedUntil current in
            result ← call (CountFailure current now nextFailedAttempts nextLockedUntil);
            match result with
            | Err e => mret (Err e, t)
            | Ok n => if n =? 0 then increment_loop retries t
                      else mret (Ok tt, set_failure nextFailedAttempts nextLockedUntil t)
            end
      end
  end.
Definition maxUpdateRetries : nat := 5.
Definition IncrementFailedAttempts (t : TwoFA) : prog (result error unit * TwoFA) :=
  if tf_Id t =? 0 then mret (Err missing_id, t) else increment_loop maxUpdateRetries t.
Definition IsLocked (t : TwoFA) : prog bool := now ← clock; mret (before now (tf_LockedUntil t)).

Section operations.
Context (ToUpper : string -> string) (totp_Validate : string -> string -> Z -> bool)
  (ValidatePasswordAndHash : string -> string -> bool) (Format : Z -> string).

Definition CreateBackupCodes (hash : string -> result error string) (userId : Z) (codes : list string) : prog (result error unit) :=
  match mapM (M := option) (fun code => match HashBackupCode ToUpper hash code with Ok h => Some h | Err _ => None end) codes with
  | None => mret (Err (ErrNew "hash"))
  | Some hashes => call (ReplaceCodes userId hashes)
  end.
Fixpoint use_first (normalizedCode : string) (backupCodes : list TwoFABackupCode) : prog (result error bool) :=
  match backupCodes with
  | [] => mret (Ok false)
  | bc :: backupCodes =>
      if ValidatePasswordAndHash normalizedCode (bc_CodeHash bc) then
        now ← clock;
        n ←? call (UseCode (bc_Id bc) now);
        mret (Ok (n =? 1))
      else use_first normalizedCode backupCodes
  end.
Definition ValidateBackupCode (userId : Z) (code : string) : prog (result error bool) :=
  if negb (ValidateBackupCodeFormat ToUpper code) then mret (Err wrong_code)
  else
    backupCodes ←? call (SelectCodes userId);
    use_first (NormalizeBackupCode ToUpper code) backupCodes.
Definition GetUnusedBackupCodeCount (userId : Z) : prog (result error Z) :=
  codes ←? call (SelectCodes userId); mret (Ok (Z.of_nat (length codes))).
Definition DisableTwoFA (userId : Z) : prog (result error unit) :=
  twoFA ←? GetTwoFAByUserId userId;
  match twoFA with None => mret (Err ErrTwoFANotEnabled) | Some t => Delete t end.
Definition Enable (t : TwoFA) : prog (result error unit) := Update (reset (t <| tf_IsEnabled := true |>)).

Definition locked_error (t : TwoFA) : error :=
  ErrNew ("账户已被锁定，请在" +:+ Format (default 0 (tf_LockedUntil t)) +:+ "后重试").
(** The end of both validations: a wrong code is counted, a right one resets the row. *)
Definition note_failure (t : TwoFA) : prog (result error bool * TwoFA) :=
  r ← IncrementFailedAttempts t; mret (Ok false, r.2).
Definition used (t : TwoFA) (now : Z) : TwoFA := reset t <| tf_LastUsedAt := Some now |>.
Definition note_success (t : TwoFA) : prog (result error bool * TwoFA) :=
  now ← clock;
  _ ← Update (used t now);
  mret (Ok true, used t now).
Definition ValidateTOTPAndUpdateUsage (t : TwoFA) (code : string) : prog (result error bool * TwoFA) :=
  locked ← IsLocked t;
  if locked : bool then mret (Err (locked_error t), t)
  else
    now ← clock;
    if ValidateTOTPCode totp_Validate (tf_Secret t) code now then note_success t else note_failure t.
Definition ValidateBackupCodeAndUpdateUsage (t : TwoFA) (code : string) : prog (result error bool * TwoFA) :=
  locked ← IsLocked t;
  if locked : bool then mret (Err (locked_error t), t)
  else
    r ← ValidateBackupCode (tf_UserId t) code;
    match r with
    | Err e => mret (Err e, t)
    | Ok true => note_success t
    | Ok false => note_failure t
    end.

(** ** Handlers (controller/twofa.go, controller/channel.go) *)

(** [Login u] stands for setupLogin.  The log of the user is left out. *)
Inductive reply :=
| Answer (success : bool) (message : string)
| Login (user : Z).
Definition Refuse (message : string) : prog reply := mret (Answer false message).
Definition ApiError (e : error) : prog reply := Refuse (error_text e).
(** [if err != nil { common.ApiError(c, err); return }] *)
Definition or_error {A} (k : A -> prog reply) (r : result error A) : prog reply :=
  match r with Ok a => k a | Err e => ApiError e end.

Definition not_enabled : string := "用户未启用2FA".
Definition bad_code : string := "验证码或备用码错误，请重试".
Definition enabled_row (twoFA : option TwoFA) : option TwoFA :=
  match twoFA with Some t => if tf_IsEnabled t then Some t else None | None => None end.
(** The code as a TOTP code, then as a backup code. *)
Definition validate_either (t : TwoFA) (code : string) : prog (result error bool) :=
  totp ← match ValidateNumericCode code with
         | Ok cleanCode => r ← ValidateTOTPAndUpdateUsage t cleanCode; mret (match r.1 with Ok b => b | Err _ => false end, r.2)
         | Err _ => mret (false, t)
         end;
  if totp.1 : bool then mret (Ok true)
  else r ← ValidateBackupCodeAndUpdateUsage totp.2 code; mret r.1.
Definition validateTwoFactorAuth (t : TwoFA) (code : string) : prog bool :=
  r ← validate_either t code; mret (match r with Ok b => b | Err _ => false end).

(** [secret] and [codes] are what the generators return. *)
Definition Setup2FA (hash : string -> result error string) (secret : result error string) (codes : result error (list string))
    (userId : Z) : prog reply :=
  GetTwoFAByUserId userId ≫= or_error (fun existing =>
  match enabled_row existing with
  | Some _ => Refuse "用户已启用2FA，请先禁用后重新设置"
  | None =>
      (match existing with Some t => Delete t | None => mret (Ok tt) end) ≫= or_error (fun _ =>
      call (SelectUser userId) ≫= or_error (fun user =>
      match user, secret, codes with
      | None, _, _ => ApiError ErrRecordNotFound
      | Some _, Err _, _ => Refuse "生成2FA密钥失败"
      | Some _, Ok _, Err _ => Refuse "生成备用码失败"
      | Some _, Ok secret, Ok backupCodes =>
          Create (mkTwoFA 0 userId secret false 0 None None) ≫= or_error (fun _ =>
          r ← CreateBackupCodes hash userId backupCodes;
          match r with
          | Err _ => Refuse "保存备用码失败"
          | Ok _ => mret (Answer true "2FA设置初始化成功，请使用认证器扫描二维码并输入验证码完成设置")
          end)
      end))
  end).
Definition Enable2FA (userId : Z) (code : string) : prog reply :=
  GetTwoFAByUserId userId ≫= or_error (fun twoFA =>
  match twoFA with
  | None => Refuse "请先完成2FA初始化设置"
  | Some t =>
      if tf_IsEnabled t then Refuse "2FA已经启用"
      else match ValidateNumericCode code with
           | Err e => ApiError e
           | Ok cleanCode =>
               now ← clock;
               if negb (ValidateTOTPCode totp_Validate (tf_Secret t) cleanCode now) then Refuse bad_code
               else Enable t ≫= or_error (fun _ => mret (Answer true "两步验证启用成功"))
           end
  end).
Definition Disable2FA (userId : Z) (code : string) : prog reply :=
  GetTwoFAByUserId userId ≫= or_error (fun twoFA =>
  match enabled_row twoFA with
  | None => Refuse not_enabled
  | Some t =>
      validate_either t code ≫= or_error (fun valid : bool =>
      if negb valid then Refuse bad_code
      else DisableTwoFA userId ≫= or_error (fun _ => mret (Answer true "两步验证已禁用")))
  end).
Definition RegenerateBackupCodes (hash : string -> result error string) (codes : result error (list string))
    (userId : Z) (code : string) : prog reply :=
  GetTwoFAByUserId userId ≫= or_error (fun twoFA =>
  match enabled_row twoFA with
  | None => Refuse not_enabled
  | Some t =>
      match ValidateNumericCode code with
      | Err e => ApiError e
      | Ok cleanCode =>
          r ← ValidateTOTPAndUpdateUsage t cleanCode;
          match r.1 with
          | Err e => ApiError e
          | Ok false => Refuse bad_code
          | Ok true =>
              match codes with
              | Err _ => Refuse "生成备用码失败"
              | Ok backupCodes =>
                  r ← CreateBackupCodes hash userId backupCodes;
                  match r with
                  | Err _ => Refuse "保存备用码失败"
                  | Ok _ => mret (Answer true "备用码重新生成成功")
                  end
              end
          end
      end
  end).
(** Whether the second factor is on, whether it is locked, and the codes that remain. *)
Definition Get2FAStatus (userId : Z) : prog (result error (bool * bool * option Z)) :=
  twoFA ←? GetTwoFAByUserId userId;
  match twoFA with
  | None => mret (Ok (false, false, None))
  | Some t =>
      locked ← IsLocked t;
      if tf_IsEnabled t then
        backupCount ← GetUnusedBackupCodeCount userId;
        mret (Ok (true, locked, match backupCount with Ok n => Some n | Err _ => None end))
      else mret (Ok (false, locked, None))
  end.
(** [pending] is the user in the session whose password was right. *)
Definition Verify2FALogin (pending : option Z) (code : string) : prog reply :=
  match pending with
  | None => Refuse "会话已过期，请重新登录"
  | Some userId =>
      user ← call (SelectUser userId);
      match user with
      | Err _ | Ok None => Refuse "用户不存在"
      | Ok (Some _) =>
          GetTwoFAByUserId userId ≫= or_error (fun twoFA =>
          match enabled_row twoFA with
          | None => Refuse not_enabled
          | Some t =>
              validate_either t code ≫= or_error (fun valid : bool =>
              if negb valid then Refuse bad_code else mret (Login userId))
          end)
      end
  end.
Definition canManageTargetRole (myRole targetRole : Z) : bool := (myRole =? 100) || (myRole >? targetRole).
Definition AdminDisable2FA (myRole : Z) (userIdStr : string) : prog reply :=
  match Atoi userIdStr with
  | None => Refuse "用户ID格式错误"
  | Some userId =>
      call (SelectUser userId) ≫= or_error (fun target =>
      match target with
      | None => ApiError ErrRecordNotFound
      | Some role =>
          if negb (canManageTargetRole myRole role) then Refuse "无权操作同级或更高级用户的2FA设置"
          else
            r ← DisableTwoFA userId;
            match r with
            | Ok _ => mret (Answer true "用户2FA已被强制禁用")
            | Err e => if decide (e = ErrTwoFANotEnabled) then Refuse not_enabled else ApiError e
            end
      end)
  end.
End operations.
