(* ===== verification/TwoFactorProofs.v ===== *)
(** * Facts about two-factor authentication

    The handlers of [TwoFactor] interleave statement by statement; a thread keeps the
    statements it has executed.  No backup code is accepted twice, and every login has
    its evidence.  Requests one after another meet the lock in time. *)

From S2P Require Import Prelude GoStd TwoFactor.
Import GoStrings GoText GoTime.

(** ** Interleaving *)

Section interleaving.
Context (ToUpper : string -> string) (totp_Validate : string -> string -> Z -> bool)
  (ValidatePasswordAndHash : string -> string -> bool) (Format : Z -> string).

Inductive request :=
| RqLogin (pending : option Z) (code : string)
| RqSetup (hash : string -> result error string) (secret : result error string) (codes : result error (list string)) (userId : Z)
| RqEnable (userId : Z) (code : string)
| RqDisable (userId : Z) (code : string)
| RqRegenerate (hash : string -> result error string) (codes : result error (list string)) (userId : Z) (code : string)
| RqAdminDisable (myRole : Z) (userIdStr : string)
| RqVerify (t : TwoFA) (code : string).
Definition program (rq : request) : prog reply :=
  match rq with
  | RqLogin pending code => Verify2FALogin ToUpper totp_Validate ValidatePasswordAndHash Format pending code
  | RqSetup hash secret codes userId => Setup2FA ToUpper hash secret codes userId
  | RqEnable userId code => Enable2FA totp_Validate userId code
  | RqDisable userId code => Disable2FA ToUpper totp_Validate ValidatePasswordAndHash Format userId code
  | RqRegenerate hash codes userId code => RegenerateBackupCodes ToUpper totp_Validate Format hash codes userId code
  | RqAdminDisable myRole id => AdminDisable2FA myRole id
  | RqVerify t code =>
      valid ← validateTwoFactorAuth ToUpper totp_Validate ValidatePasswordAndHash Format t code; mret (Answer valid "")
  end.

(** An executed statement with its answer. *)
Inductive entry :=
| Entry {B : Type} (e : stmt B) (r : result error B).
Definition used_by (en : entry) : option Z :=
  match en with
  | @Entry B e r =>
      match e in stmt B return result error B -> option Z with
      | UseCode id _ => fun r => match r with Ok n => if n =? 1 then Some id else None | Err _ => None end
      | _ => fun _ => None
      end r
  end.
Record Thread := mkThread { th_request : request; th_trace : list entry; th_prog : prog reply }.
Record Cluster := mkCluster { cl_store : Store; cl_threads : list Thread }.
(** Time passes, a request arrives, or a thread takes its next statement. *)
Inductive event :=
| Tick (nanoseconds : nat)
| Start (rq : request)
| Step (i : nat) (fault : option error).
Definition happen (c : Cluster) (ev : event) : Cluster :=
  let s := cl_store c in
  match ev with
  | Tick d => mkCluster (s <| st_now := st_now s + Z.of_nat d |>) (cl_threads c)
  | Start rq => mkCluster s (cl_threads c ++ [mkThread rq [] (program rq)])
  | Step i fault =>
      match cl_threads c !! i with
      | Some (mkThread rq tr (Exec e k)) =>
          let '(r, s') := exec fault e s in
          mkCluster s' (<[i := mkThread rq (tr ++ [Entry e r]) (k r)]> (cl_threads c))
      | _ => c
      end
  end.
Definition history (evs : list event) (s : Store) : Cluster := fold_left happen evs (mkCluster s []).
(** The backup codes that any thread was the one to use. *)
Definition all_uses (threads : list Thread) : list Z := concat ((fun th => omap (M := list) used_by (th_trace th)) <$> threads).

(** ** What a finished program has executed *)

(** What a statement promises of its answer. *)
Definition answer_ok {B} (e : stmt B) : result error B -> Prop :=
  match e in stmt B return result error B -> Prop with
  | Now => fun r => match r with Ok _ => True | Err _ => False end
  | SelectTwoFA userId => fun r => match r with Ok (Some t) => tf_UserId t = userId | _ => True end
  | SelectCodes userId => fun r => match r with Ok cs => Forall (fun c => unused_code userId c = true) cs | Err _ => True end
  | _ => fun _ => True
  end.
Fixpoint always {A} (Q : list entry -> A -> Prop) (tr : list entry) (p : prog A) : Prop :=
  match p with
  | Done a => Q tr a
  | Exec e k => forall r, answer_ok e r -> always Q (tr ++ [Entry e r]) (k r)
  end.
Lemma always_mono {A} (Q R : list entry -> A -> Prop) tr p : (forall l a, Q (tr ++ l) a -> R (tr ++ l) a) -> always Q tr p -> always R tr p.
Proof.
  revert tr. induction p as [a|B e k IH]; intros tr HQR; simpl.
  - specialize (HQR [] a). by rewrite app_nil_r in HQR.
  - intros H r Hr. apply IH; [|by apply H]. intros l a. rewrite <- app_assoc. apply HQR.
Qed.
Lemma always_bind {A B} (Q : list entry -> B -> Prop) tr (m : prog A) (k : A -> prog B) :
  always (fun tr a => always Q tr (k a)) tr m -> always Q tr (m ≫= k).
Proof. revert tr. induction m as [a|C e c IH]; intros tr; simpl; [done|]. intros H r Hr. by apply IH, H. Qed.
Lemma always_call {B} (Q : list entry -> result error B -> Prop) tr (e : stmt B) :
  (forall r, answer_ok e r -> Q (tr ++ [Entry e r]) r) -> always Q tr (call e).
Proof. done. Qed.
Lemma always_clock (Q : list entry -> Z -> Prop) tr : (forall z, Q (tr ++ [Entry Now (Ok z)]) z) -> always Q tr clock.
Proof. intros H [z|e] Hr; simpl; [apply H|done]. Qed.
Lemma always_true {A} tr (p : prog A) : always (fun _ _ => True) tr p.
Proof. revert tr. induction p as [a|B e k IH]; intros tr; simpl; [done|]. intros r _. apply IH. Qed.
Lemma always_any {A} (Q : list entry -> A -> Prop) tr p : (forall l a, Q (tr ++ l) a) -> always Q tr p.
Proof. intros H. eapply always_mono; [|apply always_true]. intros l a _. apply H. Qed.

(** What a login rests on: the TOTP code was right for the enabled secret of the user at a
    time that was read, or the login was the one to use an unused backup code. *)
Definition totp_evidence (u : Z) (code : string) (tr : list entry) : Prop :=
  exists t now, Entry (SelectTwoFA u) (Ok (Some t)) ∈ tr /\ tf_UserId t = u /\ tf_IsEnabled t = true /\ Entry Now (Ok now) ∈ tr /\
    totp_Validate (ReplaceAll (ReplaceAll code " " "") " " "") (tf_Secret t) now = true.
Definition backup_evidence (u : Z) (code : string) (tr : list entry) : Prop :=
  exists c cs now, Entry (SelectCodes u) (Ok cs) ∈ tr /\ c ∈ cs /\ unused_code u c = true /\
    ValidatePasswordAndHash (NormalizeBackupCode ToUpper code) (bc_CodeHash c) = true /\ Entry (UseCode (bc_Id c) now) (Ok 1) ∈ tr.
Definition evidence (u : Z) (code : string) (tr : list entry) : Prop := totp_evidence u code tr \/ backup_evidence u code tr.

(** ** The programs *)

Lemma keeps_user t a l : tf_UserId (set_failure a l t) = tf_UserId t.
Proof. by destruct t. Qed.
Lemma increment_user t tr : always (fun _ r => tf_UserId r.2 = tf_UserId t) tr (IncrementFailedAttempts t).
Proof.
  unfold IncrementFailedAttempts. destruct (_ =? 0); [done|]. revert tr.
  induction maxUpdateRetries as [|n IH]; intros tr; [done|]. cbn [increment_loop].
  apply always_bind, always_call. intros [[current|]|e] _; try done. apply always_bind, always_clock. intros now.
  destruct (before now _); [apply keeps_user|]. apply always_bind, always_call. intros [m|e] _; [|done].
  destruct (m =? 0); [apply IH|apply keeps_user].
Qed.
Lemma note_failure_spec t tr : always (fun _ r => r.1 = Ok false /\ tf_UserId r.2 = tf_UserId t) tr (note_failure t).
Proof. apply always_bind. eapply always_mono; [|apply increment_user]. by intros l r. Qed.
Lemma note_success_spec t tr : always (fun _ r => tf_UserId r.2 = tf_UserId t) tr (note_success t).
Proof.
  apply always_bind, always_clock. intros now. apply always_bind, always_any. intros l r. by destruct t.
Qed.

Section evidence.
Context (u : Z) (code : string).

Lemma numeric_clean clean : ValidateNumericCode code = Ok clean -> clean = ReplaceAll code " " "".
Proof.
  unfold ValidateNumericCode. destruct (negb _); [done|]. destruct (Atoi _); [|done]. by intros [= <-].
Qed.
Lemma totp_right clean secret now : ValidateNumericCode code = Ok clean -> ValidateTOTPCode totp_Validate secret clean now = true ->
  totp_Validate (ReplaceAll (ReplaceAll code " " "") " " "") secret now = true.
Proof. intros ->%numeric_clean. unfold ValidateTOTPCode. by destruct (negb _). Qed.
Lemma totp_spec t clean tr : Entry (SelectTwoFA u) (Ok (Some t)) ∈ tr -> tf_UserId t = u -> tf_IsEnabled t = true ->
  ValidateNumericCode code = Ok clean ->
  always (fun tr' r => (r.1 = Ok true -> totp_evidence u code tr') /\ tf_UserId r.2 = u) tr
    (ValidateTOTPAndUpdateUsage totp_Validate Format t clean).
Proof.
  intros Hin Hu He Hc. unfold ValidateTOTPAndUpdateUsage, IsLocked. apply always_bind, always_bind, always_clock. intros now0. 
  destruct (before _ _); [done|]. apply always_bind, always_clock. intros now.
  destruct (ValidateTOTPCode _ _ _ _) eqn:Hv.
  - eapply always_mono; [|apply note_success_spec]. intros l r Hr. rewrite Hr. split; [|done]. intros _.
    exists t, now. rewrite !elem_of_app. repeat split; try done; [auto 10|left; right; by left|]. by apply (totp_right clean).
  - eapply always_mono; [|apply note_failure_spec]. intros l r [-> ->]. done.
Qed.
Lemma use_first_spec cs tr : Forall (fun c => unused_code u c = true) cs -> forall all, Entry (SelectCodes u) (Ok all) ∈ tr -> cs ⊆ all ->
  always (fun tr' r => r = Ok true -> backup_evidence u code tr') tr
    (use_first ValidatePasswordAndHash (NormalizeBackupCode ToUpper code) cs).
Proof.
  intros Hcs all Hall. induction Hcs as [|c cs Hc Hcs IH]; intros Hsub; simpl; [done|].
  destruct (ValidatePasswordAndHash _ _) eqn:Hv; [|apply IH; set_solver].
  intros [now|e] Hn; [|done]. intros [n|e] _; simpl; [|done]. intros [= Hn1%Z.eqb_eq]. subst n.
  exists c, all, now. rewrite !elem_of_app. split_and!; try done; [auto 10|set_solver|right; by left].
Qed.
Lemma backup_spec t tr : tf_UserId t = u ->
  always (fun tr' r => r.1 = Ok true -> backup_evidence u code tr') tr
    (ValidateBackupCodeAndUpdateUsage ToUpper ValidatePasswordAndHash Format t code).
Proof.
  intros Hu. unfold ValidateBackupCodeAndUpdateUsage, IsLocked. apply always_bind, always_bind, always_clock. intros now0.
  destruct (before _ _); [done|]. unfold ValidateBackupCode. rewrite Hu.
  destruct (negb _); [done|]. apply always_bind, always_bind, always_call. intros [cs|e] Hcs; [|done].
  eapply always_mono; [|eapply (use_first_spec cs _ Hcs cs); [set_solver|done]].
  intros l [[]|e] Hb; [|eapply always_mono; [|apply note_failure_spec]; by intros ? r [-> _]|done].
  specialize (Hb eq_refl). apply always_any. intros l' r _. destruct Hb as (c & all & now & H1 & H2 & H3 & H4 & H5).
  exists c, all, now. rewrite !(elem_of_app (_ ++ l)). auto 10.
Qed.
Lemma either_spec t tr : Entry (SelectTwoFA u) (Ok (Some t)) ∈ tr -> tf_UserId t = u -> tf_IsEnabled t = true ->
  always (fun tr' r => r = Ok true -> evidence u code tr') tr
    (validate_either ToUpper totp_Validate ValidatePasswordAndHash Format t code).
Proof.
  intros Hin Hu He. unfold validate_either. apply always_bind. destruct (ValidateNumericCode code) as [clean|e] eqn:Hc.
  - apply always_bind. eapply always_mono; [|by apply (totp_spec t clean)]. intros l [r t'] [Ht Hu']. cbn [fst snd] in Ht, Hu'.
    destruct r as [[]|e]; cbn [always mret prog_ret fst snd]; cbv iota; [intros _; left; by apply Ht| |];
      (apply always_bind; eapply always_mono; [|by apply backup_spec]; intros l' r' Hr E; right; by apply Hr).
  - cbn [always mret prog_ret fst snd]. cbv iota. apply always_bind. eapply always_mono; [|by apply backup_spec]. intros l' r' Hr E. right. by apply Hr.
Qed.
End evidence.

Lemma always_or_error {A} (Q : list entry -> reply -> Prop) tr (m : prog (result error A)) k :
  (forall l e, Q (tr ++ l) (Answer false (error_text e))) -> always (fun tr' r => forall a, r = Ok a -> always Q tr' (k a)) tr m ->
  always Q tr (m ≫= or_error k).
Proof.
  intros He Hm. apply always_bind. eapply always_mono; [|exact Hm]. intros l [a|e] Hr; simpl; [by apply Hr|apply He].
Qed.
Lemma login_spec pending code : always (fun tr r => forall u, r = Login u -> pending = Some u /\ evidence u code tr) []
  (Verify2FALogin ToUpper totp_Validate ValidatePasswordAndHash Format pending code).
Proof.
  destruct pending as [u|]; [|done]. simpl. intros [[role|]|e] _; [|done..].
  apply always_or_error; [done|]. unfold GetTwoFAByUserId. destruct (u =? 0); [done|]. apply always_call.
  intros [[t|]|e] Ht; [|by intros ? [= <-]|done]. intros ? [= <-]. unfold enabled_row. destruct (tf_IsEnabled t) eqn:He; [|done].
  apply always_or_error; [done|]. eapply always_mono; [|apply (either_spec u code t); [|done..]].
  - intros l r Hr [] E; [|done]. intros v [= <-]. split; [done|]. by apply Hr.
  - apply elem_of_app. right. by left.
Qed.
Lemma disable_spec u code : always (fun tr r => forall m, r = Answer true m -> evidence u code tr) []
  (Disable2FA ToUpper totp_Validate ValidatePasswordAndHash Format u code).
Proof.
  apply always_or_error; [done|]. unfold GetTwoFAByUserId. destruct (u =? 0); [done|]. apply always_call.
  intros [[t|]|e] Ht; [|by intros ? [= <-]|done]. intros ? [= <-]. unfold enabled_row. destruct (tf_IsEnabled t) eqn:He; [|done].
  apply always_or_error; [done|]. eapply always_mono; [|apply (either_spec u code t); [|done..]].
  - intros l r Hr [] E; [|done]. specialize (Hr E). apply always_any. intros l' r' m _.
    destruct Hr as [(t' & now & H1 & H2 & H3 & H4 & H5)|(c & cs & now & H1 & H2 & H3 & H4 & H5)].
    + left. exists t', now. rewrite !(elem_of_app (_ ++ l)). auto 10.
    + right. exists c, cs, now. rewrite !(elem_of_app (_ ++ l)). auto 10.
  - apply elem_of_app. right. by left.
Qed.
Lemma regenerate_spec hash codes u code : always (fun tr r => forall m, r = Answer true m -> evidence u code tr) []
  (RegenerateBackupCodes ToUpper totp_Validate Format hash codes u code).
Proof.
  apply always_or_error; [done|]. unfold GetTwoFAByUserId. destruct (u =? 0); [done|]. apply always_call.
  intros [[t|]|e] Ht; [|by intros ? [= <-]|done]. intros ? [= <-]. unfold enabled_row. destruct (tf_IsEnabled t) eqn:He; [|done].
  destruct (ValidateNumericCode code) as [clean|e] eqn:Hc; [|done]. apply always_bind.
  eapply always_mono; [|apply (totp_spec u code t clean); try done].
  - intros l [[[]|e] t'] [Hr _]; cbn [fst snd] in *; [|done..]. destruct (Hr eq_refl) as (t1 & now & H1 & H2 & H3 & H4 & H5).
    apply always_any. intros l' r' m _. left. exists t1, now. rewrite !(elem_of_app (_ ++ l)). auto 10.
  - apply elem_of_app. right. by left.
Qed.
(** What a reply grants: the user and the code it was granted for. *)
Definition granted (rq : request) (r : reply) : option (Z * string) :=
  match rq, r with
  | RqLogin _ code, Login u => Some (u, code)
  | RqDisable u code, Answer true _ | RqRegenerate _ _ u code, Answer true _ => Some (u, code)
  | _, _ => None
  end.
Definition justified (rq : request) (tr : list entry) (r : reply) : Prop :=
  forall u code, granted rq r = Some (u, code) -> evidence u code tr.
Lemma program_justified rq : always (justified rq) [] (program rq).
Proof.
  destruct rq as [pending code|h sec cs u|u code|u code|h cs u code|role id|t code]; simpl; try (by apply always_any).
  - eapply always_mono; [|apply login_spec]. intros l r Hr u c. destruct r as [b m|v]; [done|]. intros [= <- <-]. by apply Hr.
  - eapply always_mono; [|apply disable_spec]. intros l r Hr u' c. destruct r as [[] m|v]; try done. intros [= <- <-]. by eapply Hr.
  - eapply always_mono; [|apply regenerate_spec]. intros l r Hr u' c. destruct r as [[] m|v]; try done. intros [= <- <-]. by eapply Hr.
Qed.

(** ** Every history *)

(** The keys of the codes are their ids and lie below the next one. *)
Definition codes_ok (s : Store) : Prop := forall id c, st_codes s !! id = Some c -> bc_Id c = id /\ id < st_next_code s.
(** A code that was used stays used or is gone. *)
Definition spent (s : Store) (id : Z) : Prop := id < st_next_code s /\ forall c, st_codes s !! id = Some c -> bc_IsUsed c = true.

Lemma insert_codes_ok u hashes s : codes_ok s -> codes_ok (insert_codes u hashes s).
Proof.
  revert s. induction hashes as [|h hashes IH]; intros s Hs; [done|]. simpl. apply IH. destruct s as [n0 tw cs nx nc ro].
  intros id c. simpl in *. intros [[<- <-]|[Hne Hc]]%lookup_insert_Some; simpl; [lia|]. destruct (Hs id c Hc). simpl in *. lia.
Qed.
Lemma insert_codes_spent u hashes s id : spent s id -> spent (insert_codes u hashes s) id.
Proof.
  revert s. induction hashes as [|h hashes IH]; intros s Hs; [done|]. simpl. apply IH. destruct s as [n0 tw cs nx nc ro], Hs as [Hlt Hs].
  simpl in *. split; simpl; [lia|]. intros c [[<- <-]|[Hne Hc]]%lookup_insert_Some; [lia|by apply Hs].
Qed.
Lemma exec_ok {B} fault (e : stmt B) s : codes_ok s -> codes_ok (exec fault e s).2.
Proof.
  intros Hs. destruct e; destruct fault; simpl; try done; unfold insert_twofa; try (by case_match).
  - case_match; [|done]. case_match; done.
  - destruct s as [n0 tw cs nx nc ro]. intros k c. simpl. rewrite map_lookup_filter_Some. intros [Hc _]. by apply Hs.
  - destruct (st_codes s !! id) as [c0|] eqn:Hc0; [|done]. destruct (negb _ && negb _); [|done].
    destruct s as [n0 tw cs nx nc ro]. intros k c. simpl in *. intros [[<- <-]|[Hne Hc]]%lookup_insert_Some; [|by apply Hs].
    by destruct (Hs id c0 Hc0), c0.
  - apply insert_codes_ok. destruct s as [n0 tw cs nx nc ro]. intros k c. simpl. rewrite lookup_fmap. intros (c0 & Hc & ->)%fmap_Some.
    destruct (Hs k c0 Hc). unfold drop_code. by destruct (_ =? _), c0.
Qed.
Lemma exec_spent {B} fault (e : stmt B) s id : spent s id -> spent (exec fault e s).2 id.
Proof.
  intros [Hlt Hs]. destruct e; destruct fault; simpl; try done; unfold insert_twofa; try (by case_match).
  - case_match; [|done]. case_match; done.
  - destruct s as [n0 tw cs nx nc ro]. split; [done|]. intros c. simpl. rewrite map_lookup_filter_Some. intros [Hc _]. by apply Hs.
  - destruct (st_codes s !! id0) as [c0|] eqn:Hc0; [|done]. destruct (negb _ && negb _); [|done].
    destruct s as [n0 tw cs nx nc ro]. split; [done|]. intros c. simpl in *. intros [[<- <-]|[Hne Hc]]%lookup_insert_Some; [|by apply Hs].
    by destruct c0.
  - apply insert_codes_spent. destruct s as [n0 tw cs nx nc ro]. split; [done|]. intros c. simpl. rewrite lookup_fmap.
    intros (c0 & Hc & ->)%fmap_Some. specialize (Hs c0 Hc). unfold drop_code. by destruct (_ =? _), c0.
Qed.
Lemma exec_uses {B} fault (e : stmt B) s id : codes_ok s -> used_by (Entry e (exec fault e s).1) = Some id ->
  ~ spent s id /\ spent (exec fault e s).2 id.
Proof.
  intros Hs. destruct e; destruct fault; try done; simpl.
  destruct (st_codes s !! id0) as [c0|] eqn:Hc0; [|done]. destruct (negb _ && negb _) eqn:Hn; [|done]. simpl. intros [= <-].
  apply andb_true_iff in Hn as [Hn%negb_true_iff _]. split.
  - intros [_ Hsp]. rewrite (Hsp c0 Hc0) in Hn. done.
  - destruct (Hs id0 c0 Hc0) as [_ Hlt]. destruct s as [n0 tw cs nx nc ro]. split; [done|]. intros c. simpl.
    rewrite lookup_insert_eq. intros [= <-]. by destruct c0.
Qed.
Lemma exec_answer {B} fault (e : stmt B) s : answer_ok e (exec fault e s).1.
Proof.
  destruct e; destruct fault; simpl; try done.
  - destruct (List.find _ _) as [t|] eqn:Hf; [|done]. apply List.find_some in Hf as [_ Hu]. by apply Z.eqb_eq.
  - apply Forall_forall. intros c Hc%list_elem_of_In%List.filter_In. by destruct Hc.
Qed.

Definition thread_ok (th : Thread) : Prop := always (justified (th_request th)) (th_trace th) (th_prog th).
Definition sound (c : Cluster) : Prop :=
  codes_ok (cl_store c) /\ Forall thread_ok (cl_threads c) /\
  NoDup (all_uses (cl_threads c)) /\ Forall (spent (cl_store c)) (all_uses (cl_threads c)).

Lemma all_uses_app l1 l2 : all_uses (l1 ++ l2) = all_uses l1 ++ all_uses l2.
Proof. unfold all_uses. by rewrite fmap_app, concat_app. Qed.
Lemma all_uses_step l1 l2 rq tr p p' en :
  all_uses (l1 ++ mkThread rq (tr ++ [en]) p' :: l2) ≡ₚ option_list (used_by en) ++ all_uses (l1 ++ mkThread rq tr p :: l2).
Proof.
  rewrite !all_uses_app. unfold all_uses. rewrite !fmap_cons. cbn [concat th_trace]. rewrite omap_app.
  replace (omap (M := list) used_by [en]) with (option_list (used_by en)) by (simpl; by destruct (used_by en)).
  solve_Permutation.
Qed.
Lemma happen_fair ev c : sound c -> sound (happen c ev).
Proof.
  intros (Hc & Ht & Hn & Hs). destruct ev as [d|rq|i fault].
  - destruct c as [[n0 tw cs nx nc ro] ths]. by split_and!.
  - split_and!; simpl; try done.
    + apply Forall_app. split; [done|]. constructor; [|done]. apply program_justified.
    + rewrite all_uses_app. by rewrite app_nil_r.
    + rewrite all_uses_app. by rewrite app_nil_r.
  - unfold happen. destruct (cl_threads c !! i) as [[rq tr [a|B e k]]|] eqn:Hi; try done.
    pose proof (exec_ok fault e _ Hc) as Hc'. pose proof (exec_answer fault e (cl_store c)) as Ha.
    pose proof (exec_spent fault e (cl_store c)) as Hsp. pose proof (exec_uses fault e (cl_store c)) as Hu.
    destruct (exec fault e (cl_store c)) as [r s']. cbn [fst snd] in *.
    apply list_elem_of_split_length in Hi as (l1 & l2 & Hl & Hlen). rewrite Hl in *.
    replace (<[i := mkThread rq (tr ++ [Entry e r]) (k r)]> (l1 ++ mkThread rq tr (Exec e k) :: l2))
      with (l1 ++ mkThread rq (tr ++ [Entry e r]) (k r) :: l2) by (subst i; by rewrite insert_app_r_alt, Nat.sub_diag by done).
    split_and!; cbn [cl_store cl_threads]; [done| | |].
    + apply Forall_app in Ht as [Ht1 Ht2]. apply Forall_cons in Ht2 as [Ht0 Ht2].
      apply Forall_app. split; [done|]. constructor; [|done]. by apply Ht0.
    + rewrite all_uses_step. destruct (used_by (Entry e r)) as [id|]; [|exact Hn]. simpl. constructor; [|exact Hn].
      intros Hin. destruct (Hu id Hc eq_refl) as [Hns _]. apply Hns. rewrite Forall_forall in Hs. apply Hs, Hin.
    + rewrite all_uses_step. apply Forall_app. split.
      * destruct (used_by (Entry e r)) as [id|]; [|done]. constructor; [|done]. by apply Hu.
      * eapply Forall_impl; [exact Hs|]. intros id. apply Hsp.
Qed.
Lemma history_fair evs s : codes_ok s -> sound (history evs s).
Proof.
  intros Hs. unfold history. assert (H0 : sound (mkCluster s [])) by (split_and!; [done|constructor..]).
  revert H0. generalize (mkCluster s []) as c. induction evs as [|ev evs IH]; intros c Hc; [done|]. apply IH. by apply happen_fair.
Qed.

(** C21 Whatever requests interleave statement by statement, with any failures, no backup code
    is accepted twice, and a login, a removal of the second factor or new backup codes
    were granted only for a right code: one that was the TOTP code of the enabled secret at a
    time the request read, or one whose unused backup code this very request used up. *)
Theorem backup_codes_used_once evs s : codes_ok s ->
  let c := history evs s in
  NoDup (all_uses (cl_threads c)) /\
  forall i rq tr r u code, cl_threads c !! i = Some (mkThread rq tr (Done r)) -> granted rq r = Some (u, code) -> evidence u code tr.
Proof.
  intros Hs c. destruct (history_fair evs s Hs) as (_ & Ht & Hn & _). split; [done|].
  intros i rq tr r u code Hi Hg. rewrite Forall_forall in Ht. apply list_elem_of_lookup_2 in Hi. by apply (Ht _ Hi).
Qed.

(** ** Requests one after another *)

(** A program without interruption and without failures. *)
Fixpoint run {A} (p : prog A) (s : Store) : A * Store :=
  match p with
  | Done a => (a, s)
  | Exec e k => let '(r, s') := exec None e s in run (k r) s'
  end.
Lemma run_prog_bind {A B} (m : prog A) (k : A -> prog B) s : run (m ≫= k) s = let '(a, s') := run m s in run (k a) s'.
Proof.
  revert s. induction m as [a|C e c IH]; intros s; [done|].
  change (run (Exec e c ≫= k) s) with (let '(r, s') := exec None e s in run (c r ≫= k) s').
  cbn [run]. destruct (exec None e s) as [r s']. apply IH.
Qed.
Definition login_at (u now : Z) (code : string) (s : Store) : reply * Store :=
  run (Verify2FALogin ToUpper totp_Validate ValidatePasswordAndHash Format (Some u) code) (s <| st_now := now |>).
(** A code that is compared with something. *)
Definition well_formed (code : string) : bool :=
  match ValidateNumericCode code with Ok _ => true | Err _ => ValidateBackupCodeFormat ToUpper code end.
(** The number of codes that are compared, not refused for their form or the lock. *)
Fixpoint compared (u : Z) (attempts : list (Z * string)) (s : Store) : Z :=
  match attempts with
  | [] => 0
  | (now, code) :: attempts =>
      let open := match List.find (of_user u) (values (st_twofa s)) with
                  | Some t => negb (before now (tf_LockedUntil t))
                  | None => false
                  end in
      (if well_formed code && open then 1 else 0) + compared u attempts (login_at u now code s).2
  end.
Fixpoint logins (u : Z) (attempts : list (Z * string)) (s : Store) : list reply :=
  match attempts with
  | [] => []
  | (now, code) :: attempts => let '(r, s') := login_at u now code s in r :: logins u attempts s'
  end.

Section account.
Context (u : Z).
(** The only row of the user, enabled. *)
Record account (t : TwoFA) (s : Store) : Prop := {
  account_row : st_twofa s !! tf_Id t = Some t;
  account_user : tf_UserId t = u;
  account_only : forall id t', st_twofa s !! id = Some t' -> tf_UserId t' = u -> id = tf_Id t;
  account_role : is_Some (st_roles s !! u);
  account_ids : tf_Id t <> 0 /\ u <> 0;
  account_enabled : tf_IsEnabled t = true;
}.
(** A code that is neither the TOTP code of the time nor an unused backup code. *)
Definition wrong_code (now : Z) (code : string) (t : TwoFA) (s : Store) : Prop :=
  totp_Validate (ReplaceAll (ReplaceAll code " " "") " " "") (tf_Secret t) now = false /\
  forall id c, st_codes s !! id = Some c -> unused_code u c = true ->
    ValidatePasswordAndHash (NormalizeBackupCode ToUpper code) (bc_CodeHash c) = false.

Lemma values_elem {V} (m : gmap Z V) v : v ∈ values m <-> exists k, m !! k = Some v.
Proof.
  unfold values. rewrite list_elem_of_fmap. split.
  - intros ([k v'] & -> & Hk%elem_of_map_to_list). by exists k.
  - intros [k Hk]. exists (k, v). by rewrite elem_of_map_to_list.
Qed.
Lemma account_find t s : account t s -> List.find (of_user u) (values (st_twofa s)) = Some t.
Proof.
  intros [Hr Hu Ho _ _ _]. destruct (List.find _ _) as [t'|] eqn:Hf.
  - apply List.find_some in Hf as [Hin%list_elem_of_In Hu']. apply values_elem in Hin as [k Hk].
    apply Z.eqb_eq in Hu'. rewrite (Ho k t' Hk Hu') in Hk. congruence.
  - pose proof (List.find_none _ _ Hf t) as Hn. unfold of_user in Hn. rewrite Hu, Z.eqb_refl in Hn.
    discriminate Hn. apply list_elem_of_In, values_elem. by exists (tf_Id t).
Qed.
Lemma account_now t s now : account t s -> account t (s <| st_now := now |>).
Proof. by destruct s; intros [? ? ? ? ? ?]; split. Qed.
Definition with_row (t : TwoFA) (s : Store) : Store := s <| st_twofa := <[tf_Id t := t]> (st_twofa s) |>.
Lemma account_failure t s n l : account t s -> account (set_failure n l t) (with_row (set_failure n l t) s).
Proof.
  destruct s as [n0 tw cs nx nc ro], t as [i us se en f lo la]. intros [Hr Hu Ho Hro Hi He]. simpl in *.
  split; simpl; try done; [by rewrite lookup_insert_eq|].
  intros id t'. intros [[<- _]|[Hne Ht]]%lookup_insert_Some Hu'; [done|]. by apply (Ho id t').
Qed.
(** A counted failure. *)
Definition failure (now : Z) (t : TwoFA) : TwoFA :=
  set_failure (tf_FailedAttempts t + 1)
    (if tf_FailedAttempts t + 1 >=? MaxFailAttempts then Some (now + LockoutDuration * Second) else tf_LockedUntil t) t.
Lemma before_over now l : before now l = false -> lock_over now l = true.
Proof. destruct l as [l|]; simpl; [|done]. intros H. apply Z.ltb_ge in H. by apply Z.leb_le. Qed.
Lemma run_failure t s : account t s -> before (st_now s) (tf_LockedUntil t) = false ->
  run (note_failure t) s = ((Ok false, failure (st_now s) t), with_row (failure (st_now s) t) s).
Proof.
  intros Ha Hb. pose proof Ha as [Hr _ _ _ [Hi _] _]. unfold note_failure. rewrite run_prog_bind.
  unfold IncrementFailedAttempts. destruct (Z.eqb_spec (tf_Id t) 0); [done|].
  unfold maxUpdateRetries. cbn [increment_loop]. rewrite run_prog_bind. cbn [call run exec exec_stmt]. rewrite Hr.
  rewrite run_prog_bind. cbn [clock run exec exec_stmt]. rewrite Hb. rewrite run_prog_bind. cbn [call run exec exec_stmt].
  rewrite Hr, Z.eqb_refl, (before_over _ _ Hb). cbn [andb]. cbn [run Z.eqb mret prog_ret snd].
  unfold failure, with_row. by destruct t, s.
Qed.
Lemma run_totp_wrong t s code clean now : account t s -> st_now s = now -> before now (tf_LockedUntil t) = false ->
  wrong_code now code t s -> ValidateNumericCode code = Ok clean ->
  run (ValidateTOTPAndUpdateUsage totp_Validate Format t clean) s = ((Ok false, failure now t), with_row (failure now t) s).
Proof.
  intros Ha <- Hb [Hw _] Hc. unfold ValidateTOTPAndUpdateUsage, IsLocked. rewrite !run_prog_bind. cbn [clock run exec exec_stmt mret prog_ret].
  rewrite Hb. rewrite run_prog_bind. cbn [clock run exec exec_stmt].
  assert (Hv : ValidateTOTPCode totp_Validate (tf_Secret t) clean (st_now s) = false).
  { apply not_true_iff_false. intros Hv. by rewrite (totp_right _ _ _ _ Hc Hv) in Hw. }
  rewrite Hv. by apply run_failure.
Qed.
Lemma use_first_none code cs s : Forall (fun c => ValidatePasswordAndHash code (bc_CodeHash c) = false) cs ->
  run (use_first ValidatePasswordAndHash code cs) s = (Ok false, s).
Proof. induction 1 as [|c cs Hc Hcs IH]; [done|]. simpl. by rewrite Hc. Qed.
(** The second half of a login: refused, or one more failure. *)
Lemma run_backup_wrong t s code now : account t s -> st_now s = now -> wrong_code now code t s ->
  exists r t' s', run (ValidateBackupCodeAndUpdateUsage ToUpper ValidatePasswordAndHash Format t code) s = ((r, t'), s') /\ r <> Ok true /\
    if negb (before now (tf_LockedUntil t)) && ValidateBackupCodeFormat ToUpper code
    then s' = with_row (failure now t) s else s' = s.
Proof.
  intros Ha <- [_ Hw]. pose proof Ha as [_ Hu _ _ _ _]. unfold ValidateBackupCodeAndUpdateUsage, IsLocked. rewrite !run_prog_bind.
  cbn [clock run exec exec_stmt mret prog_ret]. destruct (before _ _) eqn:Hb; cbn [negb andb]; [by eexists _, _, _|].
  rewrite run_prog_bind. unfold ValidateBackupCode. destruct (ValidateBackupCodeFormat ToUpper code); cbn [negb]; [|by eexists _, _, _].
  rewrite run_prog_bind. cbn [call run exec exec_stmt on_ok]. rewrite use_first_none.
  - rewrite run_failure by done. by eexists _, _, _.
  - apply Forall_forall. intros c [Hc Hun]%list_elem_of_In%List.filter_In. apply list_elem_of_In in Hc. rewrite merge_sort_Permutation in Hc.
    apply values_elem in Hc as [id Hc]. rewrite Hu in Hun. by apply (Hw id c).
Qed.

(** What a wrong attempt leaves: nothing, or at least one more failure and the lock. *)
Definition counted (now : Z) (t t' : TwoFA) : Prop :=
  tf_FailedAttempts t + 1 <= tf_FailedAttempts t' /\
  tf_LockedUntil t' = if tf_FailedAttempts t' >=? MaxFailAttempts then Some (now + LockoutDuration * Second) else tf_LockedUntil t.
Definition same_account (t : TwoFA) (s : Store) (t' : TwoFA) (s' : Store) : Prop :=
  account t' s' /\ st_codes s' = st_codes s /\ tf_Secret t' = tf_Secret t.
Lemma failure_step now t s : account t s -> same_account t s (failure now t) (with_row (failure now t) s) /\ counted now t (failure now t).
Proof.
  intros Ha. split.
  - split; [by apply account_failure|]. by destruct s, t.
  - unfold counted, failure. destruct t as [i us se en f lo la].
    cbn [set_failure upd tf_FailedAttempts tf_LockedUntil]. split; [lia|done].
Qed.
Lemma same_trans t1 s1 t2 s2 t3 s3 : same_account t1 s1 t2 s2 -> same_account t2 s2 t3 s3 -> same_account t1 s1 t3 s3.
Proof. intros (_ & H1 & H2) (Ha & H3 & H4). split_and!; [done|congruence..]. Qed.
Lemma counted_twice now t1 t2 t3 : before now (tf_LockedUntil t2) = false -> counted now t1 t2 -> counted now t2 t3 -> counted now t1 t3.
Proof.
  unfold counted. intros Hb [H1 H2] [H3 H4]. split; [lia|]. rewrite H4.
  destruct (tf_FailedAttempts t3 >=? _); [reflexivity|]. rewrite H2 in Hb |- *. destruct (tf_FailedAttempts t2 >=? _); [|reflexivity]. simpl in Hb. apply Z.ltb_ge in Hb. unfold LockoutDuration, Second in Hb. lia.
Qed.
Lemma wrong_same now code t s t' s' : same_account t s t' s' -> wrong_code now code t s -> wrong_code now code t' s'.
Proof. intros (_ & Hc & Hs) [H1 H2]. split; [by rewrite Hs|]. by rewrite Hc. Qed.
Lemma run_either t s code now : account t s -> st_now s = now -> wrong_code now code t s ->
  exists r t' s', run (validate_either ToUpper totp_Validate ValidatePasswordAndHash Format t code) s = (r, s') /\ r <> Ok true /\
    same_account t s t' s' /\
    if negb (before now (tf_LockedUntil t)) && well_formed code then counted now t t' else t' = t.
Proof.
  intros Ha Hn Hw. unfold validate_either, well_formed. rewrite run_prog_bind.
  assert (Hrefl : same_account t s t s) by done.
  destruct (ValidateNumericCode code) as [clean|err] eqn:Hc.
  - rewrite run_prog_bind. destruct (before now (tf_LockedUntil t)) eqn:Hb; cbn [negb andb].
    + unfold ValidateTOTPAndUpdateUsage at 1. unfold IsLocked. rewrite !run_prog_bind. cbn [clock run exec exec_stmt mret prog_ret]. rewrite Hn, Hb.
      cbn [run mret prog_ret fst snd]. rewrite run_prog_bind. destruct (run_backup_wrong t s code now Ha Hn Hw) as (r & t' & s' & -> & Hr & Hs').
      rewrite Hb in Hs'. cbn [negb andb] in Hs'. subst s'. by exists r, t, s.
    + rewrite (run_totp_wrong t s code clean now Ha Hn Hb Hw Hc). cbn [run mret prog_ret fst snd]. rewrite run_prog_bind.
      destruct (failure_step now t s Ha) as [Hsame Hcnt]. pose proof Hsame as (Ha' & _).
      assert (Hn' : st_now (with_row (failure now t) s) = now) by by destruct s.
      destruct (run_backup_wrong _ _ code now Ha' Hn' (wrong_same _ _ _ _ _ _ Hsame Hw)) as (r & t' & s' & -> & Hr & Hs').
      destruct (negb _ && _) eqn:Hb2; subst s'.
      * destruct (failure_step now _ _ Ha') as [Hsame2 Hcnt2]. exists r, (failure now (failure now t)). eexists. split; [done|]. split; [done|].
        split; [by eapply same_trans|]. apply andb_true_iff in Hb2 as [Hb2%negb_true_iff _]. by eapply counted_twice.
      * exists r, (failure now t). by eexists.
  - cbn [run mret prog_ret fst snd]. rewrite run_prog_bind. destruct (run_backup_wrong t s code now Ha Hn Hw) as (r & t' & s' & -> & Hr & Hs').
    destruct (negb _ && _); subst s'; [|by exists r, t, s]. destruct (failure_step now t s Ha) as [Hsame Hcnt].
    exists r, (failure now t). by eexists.
Qed.
Lemma login_step t s code now : account t s -> wrong_code now code t s ->
  exists msg t' s', login_at u now code s = (Answer false msg, s') /\ same_account t s t' s' /\
    if negb (before now (tf_LockedUntil t)) && well_formed code then counted now t t' else t' = t.
Proof.
  intros Ha Hw. unfold login_at. set (s0 := s <| st_now := now |>). pose proof (account_now t s now Ha) as Ha0.
  assert (Hw0 : wrong_code now code t s0) by by destruct s.
  assert (Hn0 : st_now s0 = now) by by destruct s. assert (Hs0 : st_codes s0 = st_codes s) by by destruct s.
  fold s0 in Ha0. clearbody s0. pose proof Ha0 as [Hr Hu _ [role Hro] [Hi Hu0] He].
  unfold Verify2FALogin. rewrite run_prog_bind. cbn [call run exec exec_stmt]. rewrite Hro. unfold GetTwoFAByUserId.
  destruct (Z.eqb_spec u 0); [done|]. rewrite run_prog_bind. cbn [call run exec exec_stmt]. rewrite (account_find t s0 Ha0).
  cbn [or_error enabled_row]. rewrite He, run_prog_bind.
  destruct (run_either t s0 code now Ha0 Hn0 Hw0) as (r & t' & s' & -> & Hr' & (Ha' & Hc' & Hsec) & Hcnt).
  assert (Hsame : same_account t s t' s') by (split_and!; [done|congruence|done]).
  destruct r as [[]|err]; [done| |]; eexists _, t', s'; (split; [reflexivity|done]).
Qed.

Lemma div_step L x y : 0 < L -> y < x + L -> x <= y -> 1 <= 1 + (y - x) / L.
Proof. intros. assert (0 <= (y - x) / L) by (apply Z.div_pos; lia). lia. Qed.
(** From [m] on codes are compared: the failures left before the lock, then one per lock. *)
Definition budget (f m b : Z) : Z :=
  Z.max 0 (MaxFailAttempts - 1 - f) + if b <? m then 0 else 1 + (b - m) / (LockoutDuration * Second).
Lemma budget_later f m m' b : m <= m' -> budget f m' b <= budget f m b.
Proof.
  intros Hm. unfold budget. assert (0 < LockoutDuration * Second) as HL by done. revert HL. generalize (LockoutDuration * Second) as L. intros L HL.
  destruct (Z.ltb_spec b m'), (Z.ltb_spec b m); try lia.
  - assert (0 <= (b - m) / L) by (apply Z.div_pos; lia). lia.
  - assert ((b - m') / L <= (b - m) / L) by (apply Z.div_le_mono; lia). lia.
Qed.
Lemma budget_pos f m b : 0 <= budget f m b.
Proof.
  unfold budget. destruct (Z.ltb_spec b m); [lia|].
  assert (0 <= (b - m) / (LockoutDuration * Second)) by (apply Z.div_pos; [lia|done]). lia.
Qed.
Definition open_from (a : Z) (t : TwoFA) : Z := Z.max a (default a (tf_LockedUntil t)).
Lemma budget_counted a b now t t' : a <= now <= b -> before now (tf_LockedUntil t) = false -> counted now t t' ->
  1 + budget (tf_FailedAttempts t') (open_from now t') b <= budget (tf_FailedAttempts t) (open_from a t) b.
Proof.
  intros Hn Hb [Hf Hl]. etransitivity; [|apply (budget_later _ _ (open_from now t))].
  2: { unfold open_from. destruct (tf_LockedUntil t); simpl; lia. }
  assert (Ho : open_from now t = now).
  { unfold open_from. destruct (tf_LockedUntil t) as [l|]; simpl in *; [apply Z.ltb_ge in Hb|]; lia. }
  rewrite Ho. unfold open_from, budget. rewrite Hl. destruct (Z.ltb_spec b now); [lia|].
  destruct (Z.geb_spec (tf_FailedAttempts t') MaxFailAttempts) as [Hge|Hlt]; unfold MaxFailAttempts in *.
  - assert (0 < LockoutDuration * Second) as HL by done. revert HL. generalize (LockoutDuration * Second) as L. intros L HL.
    cbn [from_option id]. rewrite (Z.max_r now (now + L)) by lia. destruct (Z.ltb_spec b (now + L)).
    + pose proof (div_step L now b HL). lia.
    + replace (b - now) with (b - (now + L) + 1 * L) by lia. rewrite Z.div_add by lia. lia.
  - rewrite (Z.max_l now) by (unfold open_from in Ho; destruct (tf_LockedUntil t); simpl in *; lia). destruct (Z.ltb_spec b now); lia.
Qed.
Lemma compared_bound attempts a b t s : account t s ->
  Forall (fun nc => wrong_code nc.1 nc.2 t s /\ nc.1 <= b) attempts -> StronglySorted Z.le (a :: attempts.*1) ->
  compared u attempts s <= budget (tf_FailedAttempts t) (open_from a t) b /\
  Forall (fun r => exists msg, r = Answer false msg) (logins u attempts s).
Proof.
  revert a t s. induction attempts as [|[now code] attempts IH]; intros a t s Ha Hw Hsort; [split; [apply budget_pos|constructor]|].
  apply Forall_cons in Hw as [[Hw Hb] Hws]. cbn [fst snd] in *. apply StronglySorted_inv in Hsort as [Hsort Hall].
  apply Forall_cons in Hall as [Han _]. cbn [fst] in Han. destruct (login_step t s code now Ha Hw) as (msg & t' & s' & Hl & Hsame & Hcnt).
  pose proof Hsame as (Ha' & _). destruct (IH now t' s' Ha') as [Hbound Hans].
  { eapply Forall_impl; [exact Hws|]. intros [n c] [Hwn ?]. split; [|done]. by eapply wrong_same. }
  { done. }
  cbn [compared logins]. rewrite Hl, (account_find t s Ha). cbn [snd]. split; [|constructor; [by eexists|done]].
  rewrite andb_comm. destruct (negb _ && _) eqn:Hopen.
  - apply andb_true_iff in Hopen as [Hopen%negb_true_iff _]. pose proof (budget_counted a b now t t' ltac:(lia) Hopen Hcnt). lia.
  - subst t'. etransitivity; [|apply (budget_later _ _ (open_from now t))]; [lia|]. unfold open_from. destruct (tf_LockedUntil t); simpl; lia.
Qed.
End account.

End interleaving.

(** ** Examples *)

(** A code is right when it is the secret, a backup code when it is its own hash. *)
Definition sample_totp (code secret : string) (now : Z) : bool := bool_decide (code = secret).
Definition sample_hash (code hash : string) : bool := bool_decide (code = hash).
Definition sample_history : list event -> Store -> Cluster := history id sample_totp sample_hash Itoa.
Definition sample_row : TwoFA := mkTwoFA 1 7 "123456" true 0 None None.
Definition sample_store : Store :=
  mkStore 0 {[1 := sample_row]} {[1 := mkCode 1 7 "ABCD-1234" false None false]} 2 2 {[7 := 1; 9 := 100]}.
Definition steps_of (i n : nat) : list event := repeat (Step i None) n.
Definition replies (c : Cluster) : list (option reply) :=
  (fun th => match th_prog th with Done r => Some r | Exec _ _ => None end) <$> cl_threads c.

Lemma sample_codes_ok : codes_ok sample_store.
Proof. intros id c. simpl. intros [<- <-]%lookup_singleton_Some. simpl. lia. Qed.
(** Two logins with the same backup code, statement by statement. *)
Definition same_code : list event :=
  [Start (RqLogin (Some 7) "ABCD-1234"); Start (RqLogin (Some 7) "ABCD-1234")] ++ steps_of 0 4 ++ steps_of 1 4 ++ steps_of 1 10 ++ steps_of 0 10.
Lemma backup_codes_used_once_witness :
  all_uses (cl_threads (sample_history same_code sample_store)) = [1] /\ NoDup (all_uses (cl_threads (sample_history same_code sample_store))) /\
  replies (sample_history same_code sample_store) = [Some (Answer false bad_code); Some (Login 7)].
Proof.
  split; [vm_compute; reflexivity|]. split; [|vm_compute; reflexivity].
  exact (proj1 (backup_codes_used_once id sample_totp sample_hash Itoa same_code sample_store sample_codes_ok)).
Defined.

Definition wrong_attempts : list (Z * string) := (fun n => (n * Second, "000000")) <$> [1; 2; 3; 4; 5; 6; 7].
Lemma sample_account : account 7 sample_row sample_store.
Proof.
  split; try done. intros id t. simpl. by intros [<- <-]%lookup_singleton_Some.
Qed.
Lemma sample_wrong n : wrong_code id sample_totp sample_hash 7 n "000000" sample_row sample_store.
Proof. split; [done|]. intros i c. simpl. by intros [<- <-]%lookup_singleton_Some. Qed.

(** The lock is read before the code is compared: logins that arrive together have all
    their codes compared, and the seventh gets in where one after another it is refused. *)
Definition together : list event :=
  (Start <$> (repeat (RqLogin (Some 7) "000000") 6 ++ [RqLogin (Some 7) "123456"]))
  ++ concat ((fun i => steps_of i 4) <$> seq 0 7) ++ concat ((fun i => steps_of i 30) <$> seq 0 7).
Example lock_misses_requests_together :
  last (replies (sample_history together sample_store)) = Some (Some (Login 7)) /\
  last (logins id sample_totp sample_hash Itoa 7 (((fun n => (n, "000000")) <$> repeat 1 6) ++ [(1, "123456")]) sample_store)
    = Some (Answer false (error_text (locked_error Itoa (sample_row <| tf_LockedUntil := Some (1 + LockoutDuration * Second) |>)))).
Proof. vm_compute. split; reflexivity. Qed.
(** A login that was on its way stores the row again after the second factor is removed. *)
Definition removed_meanwhile : list event :=
  [Start (RqLogin (Some 7) "123456"); Start (RqAdminDisable 100 "7")] ++ steps_of 0 5 ++ steps_of 1 3 ++ steps_of 0 1.
Example removal_undone :
  replies (sample_history removed_meanwhile sample_store) = [Some (Login 7); Some (Answer true "用户2FA已被强制禁用")] /\
  tf_IsEnabled <$> st_twofa (cl_store (sample_history removed_meanwhile sample_store)) !! 1 = Some true /\
  st_codes (cl_store (sample_history removed_meanwhile sample_store)) = ∅.
Proof. vm_compute. repeat split; reflexivity. Qed.
(** A sign passes for a digit. *)
Example signed_code : ValidateNumericCode "+12345" = Ok "+12345".
Proof. vm_compute. reflexivity. Qed.
