(* ===== verification/Accounts.v ===== *)
(** * Accounts (src/model/user.go, src/controller/user.go)

    Registration with its rewards, the transfer of rewards to the wallet, and what
    administrators do to users.  Passwords, display names and remarks are not columns of
    the model of a user; the entries of the audit log are left out. *)

From S2P Require Import Prelude GoStd TwoFactor GoFloat World Sample ModelUtils UserModel TokenModel RoutingSamples SelectProofs Distributor RelaySamples BillingSession AuthModel Auth AuthProofs AccessToken Authz AuthzProofs.
Import GoStrings GoText.

(** ** Registration *)

(** The settings that reward a registration. *)
Record Rewards := mkRewards {
  QuotaForNewUser : Z;
  QuotaForInvitee : Z;
  QuotaForInviter : Z;
  PaymentComplianceConfirmed : bool;
}.
Definition ErrEmailAlreadyTaken : error := ErrNew "email already taken".

Section registration.
(** strings.ToLower and the function LOWER of the database. *)
Context (ToLower LOWER : string -> string).
(** The setting with the side bar of the role, when it can be generated. *)
Context (with_sidebar : Z -> string -> option string).

Definition NormalizeEmail (email : string) : string := ToLower (TrimSpace email).
(** The rows, deleted ones too, with this address, [excludeUserID] apart when positive. *)
Definition email_count (email : string) (excludeUserID : Z) (d : DB) : nat :=
  length (List.filter (fun iu : Z * User => bool_decide (LOWER (u_Email iu.2) = NormalizeEmail email)
                         && negb ((excludeUserID >? 0) && (iu.1 =? excludeUserID))) (map_to_list (d_users d))).
Definition ensureEmailAvailableWithTx (h : handle) (email : string) (excludeUserID : Z) : MW unit :=
  let email := NormalizeEmail email in
  if decide (email = "") then mret tt
  else count ← db_find h (email_count email excludeUserID); guard_err (0 <? count)%nat ErrEmailAlreadyTaken.
(** The lock of the database on an address. *)
Definition withNormalizedEmailLock {A} (locks : bool) (email : string) (fn : MW A) : MW A :=
  if decide (NormalizeEmail email = "") then fn
  else if locks then ext_call ;; fn else fn.
(** The hash of the password is the result of Password2Hash. *)
Definition prepareForInsert (h : handle) (hashed : result error unit) (user : User) : MW User :=
  let user : User := user <| u_Email := NormalizeEmail (u_Email user) |> in
  ensureEmailAvailableWithTx h (u_Email user) 0 ;;
  match hashed with Err e => fail e | Ok _ => mret user end.
Definition create_user (h : handle) (user : User) : MW User :=
  ext_call ;;
  id ← next_id;
  let user : User := user <| u_Id := id |> in
  conflict ← gets (fun w => user_conflict user (view h w));
  guard_err conflict ErrDuplicatedKey ;;
  modify (exec_write h (fun d => d <| d_users := <[id := user]> (d_users d) |>)) ;;
  mret user.
Definition InsertWithTx (h : handle) (rw : Rewards) (locks : bool) (hashed : result error unit) (affCode defaultSetting : string)
    (user : User) : MW User :=
  withNormalizedEmailLock locks (u_Email user) (
    user ← prepareForInsert h hashed user;
    create_user h (user <| u_Quota := QuotaForNewUser rw |> <| u_AffCode := affCode |>
      <| u_Setting := if decide (u_Setting user = "") then defaultSetting else u_Setting user |>)).

Definition BindEmailToUser (locks : bool) (user : User) (email : string) : MW User :=
  let email := NormalizeEmail email in
  user ← Transaction (withNormalizedEmailLock locks email (
    ensureEmailAvailableWithTx HTX email (u_Id user) ;;
    UpdateWithTx HTX (user <| u_Email := email |>)));
  updateUserCache user ;; mret user.

(** Save writes every column of the row that was read. *)
Definition save_user (h : handle) (user : User) : MW unit := db_exec h (update_user (u_Id user) (fun _ => user)).
Definition invited (rw : Rewards) (user : User) : User :=
  user <| u_AffCount := u_AffCount user + 1 |> <| u_AffQuota := u_AffQuota user + QuotaForInviter rw |>
    <| u_AffHistoryQuota := u_AffHistoryQuota user + QuotaForInviter rw |>.
Definition inviteUser (rw : Rewards) (inviterId : Z) : MW unit :=
  user ← GetUserById inviterId;
  save_user HDB (invited rw user).
Definition by_username (username : string) (d : DB) : option User :=
  snd <$> List.find (fun iu : Z * User => bool_decide (u_Username iu.2 = username /\ u_DeletedAt iu.2 = None)) (map_to_list (d_users d)).
(** Failures of these steps are not noticed. *)
Definition finishInsert (rw : Rewards) (inviterId : Z) (user : User) : MW unit :=
  created ← attempt (db_first HDB (by_username (u_Username user)));
  match created with
  | Ok createdUser =>
      match with_sidebar (u_Role createdUser) (u_Setting createdUser) with
      | Some setting => ignore_err (Update (createdUser <| u_Setting := setting |>))
      | None => mret tt
      end
  | Err _ => mret tt
  end ;;
  if negb (inviterId =? 0) && PaymentComplianceConfirmed rw then
    (if QuotaForInvitee rw >? 0 then ignore_err (IncreaseUserQuota (u_Id user) (QuotaForInvitee rw) true) else mret tt) ;;
    (if QuotaForInviter rw >? 0 then ignore_err (inviteUser rw inviterId) else mret tt)
  else mret tt.
Definition Insert (rw : Rewards) (locks : bool) (hashed : result error unit) (affCode defaultSetting : string) (inviterId : Z) (user : User) : MW User :=
  user ← Transaction (InsertWithTx HTX rw locks hashed affCode defaultSetting user);
  finishInsert rw inviterId user ;; mret user.
End registration.

(** ** From rewards to the wallet *)

(** The message shows the least amount. *)
Definition TransferTooSmall : error := ErrNew "转移额度最小为%s！".
Definition TransferAffQuotaToQuota (id quota : Z) : MW unit :=
  unit ← gets (fun w => QuotaPerUnit (w_cfg w));
  if F64.ltb (F64.of_Z quota) unit then fail TransferTooSmall
  else
    Transaction (
      user ← db_first HTX (fun d => live_user d id);
      guard_err (u_AffQuota user <? quota) (ErrNew "邀请额度不足！") ;;
      save_user HTX (user <| u_AffQuota := u_AffQuota user - quota |> <| u_Quota := u_Quota user + quota |>)).

(** ** Administration *)

(** The answer of a handler: refused with a message, failed, or done, for some actions with
    the role and the status of the user. *)
Inductive answer :=
| Refused (msg : string)
| Failed (e : error)
| Done
| Managed (role status : Z).

Definition Delete (user : User) : MW unit :=
  guard_err (u_Id user =? 0) (ErrNew "id 为空！") ;;
  now ← GetTimestamp;
  db_exec HDB (update_user (u_Id user) (fun u => if decide (u_DeletedAt u = None) then u <| u_DeletedAt := Some now |> else u)) ;;
  invalidateUserCache (u_Id user).
Definition DeleteUserById (id : Z) : MW unit :=
  if id =? 0 then fail (ErrNew "id 为空！") else Delete (mkUser id "" 0 0 "" None 0 0 0 "" "" 0 0 0 0 None "" "").
Definition InvalidateUserCache (userId : Z) : MW unit := invalidateUserCache userId.
Definition forget_user (id : Z) : MW unit := ignore_err (InvalidateUserCache id) ;; ignore_err (InvalidateUserTokensCache id).
(** Updates with a map writes its columns as they are. *)
Definition edits (new current : User) : User := current <| u_Username := u_Username new |> <| u_Group := u_Group new |>.
Definition EditWithTx (h : handle) (user : User) : MW User :=
  current ← db_first h (fun d => live_user d (u_Id user));
  ext_call ;;
  conflict ← gets (fun w => user_conflict (edits user current) (view h w));
  guard_err conflict ErrDuplicatedKey ;;
  modify (exec_write h (update_user (u_Id user) (edits user))) ;;
  db_first h (fun d => live_user d (u_Id user)).

Section manage.
Context `{SyncedEnforcer E}.
(** The tables of users and of permissions, which one transaction may change. *)
Record AW := mkAW { aw_world : World; aw_az : Az E }.
#[export] Instance AW_settable : Settable AW := fields_of mkAW < aw_world; aw_az >.
#[local] Abbreviation MAW := (M AW error).
Definition on_w {A} (m : MW A) : MAW A := fun a => let '(r, w) := m (aw_world a) in (r, a <| aw_world := w |>).
Definition on_az {A} (m : M (Az E) error A) : MAW A := fun a => let '(r, z) := m (aw_az a) in (r, a <| aw_az := z |>).
(** A transaction over both: [body], then [rules], then the commit. *)
Definition both {A B} (body : MW A) (rules : A -> M (Az E) error B) : MAW (A * B) := fun a =>
  let tx := Transaction (x ← body;
                         match rules x (aw_az a) with
                         | (Ok y, z) => mret (x, y, z)
                         | (Err e, _) => fail e
                         end) (aw_world a) in
  match tx with
  | (Ok (x, y, z), w) => (Ok (x, y), mkAW w z)
  | (Err e, w) => (Err e, a <| aw_world := w |>)
  end.

Record ManageRequest := mkManage { mr_Id : Z; mr_Action : string; mr_Value : Z; mr_Mode : string }.
Definition RoleCommonUser : Z := 1.
Definition RoleRootUser : Z := 100.
(** Unscoped().Where(&user).First(&user): with id 0 there is no condition. *)
Definition id_order (a b : Z * User) : Prop := a.1 <= b.1.
#[export] Instance id_order_dec a b : Decision (id_order a b) := decide (a.1 <= b.1).
Definition first_user (id : Z) (d : DB) : option User :=
  if id =? 0 then snd <$> head (merge_sort id_order (map_to_list (d_users d))) else d_users d !! id.
(** Where the read finds nothing or fails, the record has its id only. *)
Definition blank_user (id : Z) : User := mkUser id "" 0 0 "" None 0 0 0 "" "" 0 0 0 0 None "" "".
Definition fill_user (id : Z) : MW User :=
  r ← attempt (db_find HDB (first_user id));
  mret (match r with Ok (Some u) => u | _ => blank_user id end).

Definition set_quota (id quota : Z) : MW unit := db_exec HDB (fun d => if has_user id d then update_user id (fun u => u <| u_Quota := quota |>) d else d).
Definition add_quota (req : ManageRequest) (user : User) : MW answer :=
  let finish (m : MW unit) : MW answer :=
    r ← attempt m; mret (match r with Err e => Failed e | Ok _ => Done end) in
  if decide (mr_Mode req = "add") then
    if mr_Value req <=? 0 then mret (Refused "user.quota_change_zero") else finish (IncreaseUserQuota (u_Id user) (mr_Value req) true)
  else if decide (mr_Mode req = "subtract") then
    if mr_Value req <=? 0 then mret (Refused "user.quota_change_zero") else finish (DecreaseUserQuota (u_Id user) (mr_Value req) true)
  else if decide (mr_Mode req = "override") then
    if mr_Value req <? 0 then mret (Refused "额度不能为负数") else finish (set_quota (u_Id user) (mr_Value req))
  else mret (Refused "common.invalid_params").
(** The switch on the action: an answer, or the user that is to be stored. *)
Definition apply_action (myRole : Z) (req : ManageRequest) (user : User) : MW (answer + User) :=
  let action := mr_Action req in
  if decide (action = "disable") then
    mret (if u_Role user =? RoleRootUser then inl (Refused "user.cannot_disable_root_user") else inr (user <| u_Status := UserStatusDisabled |>))
  else if decide (action = "enable") then mret (inr (user <| u_Status := UserStatusEnabled |>))
  else if decide (action = "delete") then
    if u_Role user =? RoleRootUser then mret (inl (Refused "user.cannot_delete_root_user"))
    else
      r ← attempt (Delete user);
      match r with
      | Err e => mret (inl (Failed e))
      | Ok _ => ignore_err (InvalidateUserTokensCache (u_Id user)) ;; mret (inr user)
      end
  else if decide (action = "promote") then
    mret (if negb (myRole =? RoleRootUser) then inl (Refused "user.admin_cannot_promote")
          else if u_Role user >=? RoleAdminUser then inl (Refused "user.already_admin")
          else inr (user <| u_Role := RoleAdminUser |>))
  else if decide (action = "demote") then
    mret (if u_Role user =? RoleRootUser then inl (Refused "user.cannot_demote_root_user")
          else if u_Role user =? RoleCommonUser then inl (Refused "user.already_common")
          else inr (user <| u_Role := RoleCommonUser |>))
  else if decide (action = "add_quota") then a ← add_quota req user; mret (inl a)
  else mret (inr user).
(** A demotion also clears the permissions, and reloads them. *)
Definition store_user (action : string) (user : User) : MAW (result error User) :=
  if decide (action = "demote") then
    r ← attempt (both (UpdateWithTx HTX user) (fun _ => ClearUserPermissionsInTx (u_Id user)));
    match r with
    | Err e => mret (Err e)
    | Ok (user, _) => r ← attempt (on_az ReloadPolicy); mret (match r with Err e => Err e | Ok _ => Ok user end)
    end
  else attempt (on_w (Update user)).
(** The rest of the handler: the record is stored, and the caches of a user whose status or
    role changed are dropped. *)
Definition finish_manage (action : string) (user : User) : MAW answer :=
  stored ← store_user action user;
  match stored with
  | Err e => mret (Failed e)
  | Ok user =>
      (if decide (action ∈ ["disable"; "promote"; "demote"]) then on_w (forget_user (u_Id user)) else mret tt) ;;
      mret (Managed (u_Role user) (u_Status user))
  end.
Definition ManageUser (myRole : Z) (req : ManageRequest) : MAW answer :=
  user ← on_w (fill_user (mr_Id req));
  if u_Id user =? 0 then mret (Refused "user.not_exists")
  else if negb (canManageTargetRole myRole (u_Role user)) then mret (Refused "user.no_permission_higher_level")
  else
    next ← on_w (apply_action myRole req user);
    match next with inl a => mret a | inr user => finish_manage (mr_Action req) user end.

(** The body after the checks of its form: the new name and group, and the permissions. *)
Record UserUpdate := mkUserUpdate { uu_Id : Z; uu_Username : string; uu_Group : string; uu_Role : Z; uu_AdminPermissions : option PermissionsMap }.
Definition UpdateUser (range : PermissionsMap -> list (string * gmap string bool)) (myRole : Z) (req : UserUpdate) : MAW answer :=
  origin ← attempt (on_w (GetUserById (uu_Id req)));
  match origin with
  | Err e => mret (Failed e)
  | Ok originUser =>
      if negb (uu_Role req =? 0) && negb (uu_Role req =? u_Role originUser) then mret (Refused "common.invalid_params")
      else if negb (canManageTargetRole myRole (u_Role originUser)) then mret (Refused "user.no_permission_higher_level")
      else
        let new : User := originUser <| u_Username := uu_Username req |> <| u_Group := uu_Group req |> in
        r ← attempt (both (EditWithTx HTX new)
              (fun _ => updateAdminPermissionsForUserInTx range myRole (uu_Id req) (u_Role originUser) (uu_AdminPermissions req)));
        match r with
        | Err e => mret (Failed e)
        | Ok (_, touched) =>
            r ← attempt (if touched : bool then on_az ReloadPolicy else mret tt);
            match r with
            | Err e => mret (Failed e)
            | Ok _ => on_w (ignore_err (InvalidateUserCache (uu_Id req))) ;; mret Done
            end
        end
  end.
End manage.

Lemma update_user_row id f u d : d_users d !! id = Some u ->
  update_user id f d = d <| d_users := <[id := f u]> (d_users d) |>.
Proof.
  intros Hu. unfold update_user. assert (Ha : alter f id (d_users d) = <[id := f u]> (d_users d)).
  { apply map_eq. intros i. destruct (decide (i = id)) as [->|Hne]; [by rewrite lookup_alter_eq, lookup_insert_eq, Hu|].
    by rewrite lookup_alter_ne, lookup_insert_ne. }
  destruct d. simpl in *. by rewrite Ha.
Qed.

(** ** One user per address *)

Section addresses.
Context (ToLower LOWER : string -> string).
#[local] Abbreviation N := (NormalizeEmail ToLower).
(** No two users, deleted ones among them, have the same address. *)
Definition addresses_unique (d : DB) : Prop := forall i j u v,
  d_users d !! i = Some u -> d_users d !! j = Some v -> LOWER (u_Email u) <> "" -> LOWER (u_Email u) = LOWER (u_Email v) -> i = j.
Lemma email_free email ex d i u : (email_count ToLower LOWER email ex d <= 0)%nat -> d_users d !! i = Some u ->
  LOWER (u_Email u) = N email -> 0 < ex /\ i = ex.
Proof.
  unfold email_count. intros Hc Hu He. destruct ((ex >? 0) && (i =? ex)) eqn:Hex.
  { apply andb_prop in Hex as [H1 H2]. apply Z.gtb_lt in H1. by apply Z.eqb_eq in H2. }
  exfalso. assert (Hin : (i, u) ∈ map_to_list (d_users d)) by by apply elem_of_map_to_list.
  apply list_elem_of_In in Hin.
  assert (Hf : In (i, u) (List.filter (fun iu : Z * User => bool_decide (LOWER (u_Email iu.2) = N email)
                         && negb ((ex >? 0) && (iu.1 =? ex))) (map_to_list (d_users d)))).
  { apply filter_In. split; [done|]. simpl. rewrite Hex. by rewrite bool_decide_true. }
  destruct (List.filter _ _); [done|]. simpl in Hc. lia.
Qed.
Lemma ensure_inv email ex w x w' : ensureEmailAvailableWithTx ToLower LOWER HTX email ex w = (Ok x, w') ->
  (N email = "" \/ forall i u, d_users (view HTX w) !! i = Some u -> LOWER (u_Email u) = N (N email) -> 0 < ex /\ i = ex) /\ view HTX w' = view HTX w.
Proof.
  unfold ensureEmailAvailableWithTx. case_decide as He; [intros [_ ->]%run_ret_inv; auto|]. intros H. inv_bind H as n w1 E1.
  apply db_find_inv in E1 as [-> [fs ->]]. apply guard_err_inv in H as [Hn ->]. split; [|done]. right. intros i u.
  apply email_free. apply Nat.ltb_ge in Hn. exact Hn.
Qed.
(** A row that takes an address which no other row has. *)
Lemma address_taken d id new : addresses_unique d ->
  (forall i u, d_users d !! i = Some u -> LOWER (u_Email new) <> "" -> LOWER (u_Email u) = LOWER (u_Email new) -> i = id) ->
  addresses_unique (d <| d_users := <[id := new]> (d_users d) |>).
Proof.
  intros Hd Hn i j u v Hu Hv He Heq. simpl in Hu, Hv.
  apply lookup_insert_Some in Hu as [[<- <-]|[Hi Hu]]; apply lookup_insert_Some in Hv as [[<- <-]|[Hj Hv]]; try done.
  - symmetry. by apply (Hn j v).
  - apply (Hn i u); [done|congruence|done].
  - by apply (Hd i j u v).
Qed.
Lemma create_inv user w u' w' : create_user HTX user w = (Ok u', w') ->
  exists id, u' = user <| u_Id := id |> /\ view HTX w' = view HTX w <| d_users := <[id := u']> (d_users (view HTX w)) |>.
Proof.
  unfold create_user. intros H. inv_bind H as x w1 E1. assert (exists fs, w1 = w <| w_faults := fs |>) as [fs ->].
  { destruct (ext_call_cases w) as (fs & Hw & _). rewrite E1 in Hw. simpl in Hw. by exists fs. }
  inv_bind H as id w2 E2. injection E2 as <- <-. inv_bind H as c w3 E3. apply gets_inv in E3 as [-> ->].
  inv_bind H as y w4 E4. apply guard_err_inv in E4 as [_ ->]. inv_bind H as z w5 E5. injection E5 as _ <-.
  apply run_ret_inv in H as [-> ->]. eexists. split; [reflexivity|].
  simpl. by rewrite apply_log_app.
Qed.

Hypothesis normalized_again : forall s, N (N s) = N s.
Hypothesis normalized_lower : forall s, LOWER (N s) = N s.
Lemma ensure_free email ex w x w' new : ensureEmailAvailableWithTx ToLower LOWER HTX (N email) ex w = (Ok x, w') ->
  u_Email new = N email -> view HTX w' = view HTX w /\
  forall i u, d_users (view HTX w) !! i = Some u -> LOWER (u_Email new) <> "" -> LOWER (u_Email u) = LOWER (u_Email new) -> 0 < ex /\ i = ex.
Proof.
  intros [Hf Hv]%ensure_inv He. split; [done|]. rewrite He, normalized_lower. rewrite !normalized_again in Hf.
  intros i u Hu Hne Heq. destruct Hf as [Hf|Hf]; [done|by apply (Hf i u)].
Qed.
Lemma locked_inv {A} locks email (fn : MW A) w a w' : withNormalizedEmailLock ToLower locks email fn w = (Ok a, w') ->
  exists w1, view HTX w1 = view HTX w /\ fn w1 = (Ok a, w').
Proof.
  unfold withNormalizedEmailLock. case_decide as Hd; [eauto|]. destruct locks; [|eauto]. intros H. inv_bind H as x w1 E1.
  exists w1. split; [|done]. destruct (ext_call_cases w) as (fs & Hw & _). rewrite E1 in Hw. simpl in Hw. by subst w1.
Qed.
Lemma InsertWithTx_unique rw locks hashed affCode defaultSetting user w u w' : addresses_unique (view HTX w) ->
  InsertWithTx ToLower LOWER HTX rw locks hashed affCode defaultSetting user w = (Ok u, w') -> addresses_unique (view HTX w').
Proof.
  intros Hw (w1 & Hw1 & Hrun)%locked_inv. rewrite <- Hw1 in Hw. inv_bind Hrun as v w2 E2. unfold prepareForInsert in E2.
  inv_bind E2 as x w3 E3. destruct hashed; [|done]. apply run_ret_inv in E2 as [-> ->].
  pose proof (ensure_free _ _ _ _ _ (user <| u_Email := N (u_Email user) |>) E3 eq_refl) as [Hv Hfree].
  apply create_inv in Hrun as (id & -> & ->). rewrite Hv. apply address_taken; [done|].
  intros i v Hi Hne He. destruct (Hfree i v Hi Hne He). lia.
Qed.
Lemma UpdateWithTx_inv user w u w' : UpdateWithTx HTX user w = (Ok u, w') ->
  exists current, live_user (view HTX w) (u_Id user) = Some current /\ view HTX w' = update_user (u_Id user) (updates user) (view HTX w).
Proof.
  unfold UpdateWithTx. intros H. inv_bind H as current w1 E1. apply db_first_inv in E1 as [Hc [fs ->]]. exists current. split; [done|].
  inv_bind H as x w2 E2. assert (exists fs2, w2 = w <| w_faults := fs2 |>) as [fs2 ->].
  { destruct (ext_call_cases (w <| w_faults := fs |>)) as (fs2 & Hw & _). rewrite E2 in Hw. simpl in Hw. by exists fs2. }
  inv_bind H as c w3 E3. apply gets_inv in E3 as [-> ->]. inv_bind H as y w4 E4. apply guard_err_inv in E4 as [_ ->].
  inv_bind H as z w5 E5. injection E5 as _ <-. apply db_first_inv in H as [_ [fs3 ->]]. simpl. by rewrite apply_log_app.
Qed.
Lemma bound_unique locks user email w u w' : addresses_unique (view HTX w) ->
  withNormalizedEmailLock ToLower locks (N email) (ensureEmailAvailableWithTx ToLower LOWER HTX (N email) (u_Id user) ;;
    UpdateWithTx HTX (user <| u_Email := N email |>)) w = (Ok u, w') -> addresses_unique (view HTX w').
Proof.
  intros Hw (w1 & Hw1 & Hrun)%locked_inv. rewrite <- Hw1 in Hw. inv_bind Hrun as x w2 E2.
  pose proof (ensure_free _ _ _ _ _ (user <| u_Email := N email |>) E2 eq_refl) as [Hv Hfree].
  apply UpdateWithTx_inv in Hrun as (current & [Hc _]%live_user_spec & ->). rewrite Hv in Hc |- *. change (u_Id (user <| u_Email := N email |>)) with (u_Id user) in *.
  rewrite (update_user_row _ _ _ _ Hc).
  apply address_taken; [done|]. intros i v Hi Hne He. simpl in Hne, He. unfold nz_string in Hne, He. case_decide.
  - by apply (Hw i (u_Id user) v current Hi Hc); [congruence|].
  - by apply (Hfree i v).
Qed.

Lemma updateUserCache_keeps u d : preserves (fun w => w_db w = d) (updateUserCache u).
Proof.
  unfold updateUserCache, updateUserGroupCache, updateUserEmailCache, updateUserStatusCache, updateUserNameCache, updateUserSettingCache,
    if_redis, RedisHUpdateField.
  repeat first [apply preserves_bind; [|intros] | by apply preserves_ext_call | apply preserves_gets | apply preserves_ret
    | apply preserves_modify; by intros | case_match].
Qed.
Lemma ensure_keeps email ex d : preserves (fun w => w_db w = d) (ensureEmailAvailableWithTx ToLower LOWER HTX email ex).
Proof.
  unfold ensureEmailAvailableWithTx. case_decide; [apply preserves_ret|].
  apply preserves_bind; [by apply preserves_db_find|]. intros. apply preserves_guard.
Qed.
Lemma lock_keeps {A} locks email (fn : MW A) d : preserves (fun w => w_db w = d) fn ->
  preserves (fun w => w_db w = d) (withNormalizedEmailLock ToLower locks email fn).
Proof.
  intros Hfn. unfold withNormalizedEmailLock. case_decide; [done|]. destruct locks; [|done].
  apply preserves_bind; [by apply preserves_ext_call|by intros].
Qed.
Lemma UpdateWithTx_keeps user d : preserves (fun w => w_db w = d) (UpdateWithTx HTX user).
Proof.
  unfold UpdateWithTx. cbv zeta. repeat first [by apply preserves_db_first | apply preserves_bind; [|intros] | by apply preserves_ext_call
    | apply preserves_gets | apply preserves_guard | apply preserves_modify; by intros].
Qed.
Lemma Insert_keeps rw locks hashed affCode defaultSetting user d :
  preserves (fun w => w_db w = d) (InsertWithTx ToLower LOWER HTX rw locks hashed affCode defaultSetting user).
Proof.
  apply lock_keeps. unfold prepareForInsert, create_user, next_id.
  repeat first [apply preserves_bind; [|intros] | apply ensure_keeps | by apply preserves_ext_call | case_match | apply preserves_fail
    | apply preserves_ret | apply preserves_gets | apply preserves_guard | apply preserves_modify; by intros | by intros w ?].
Qed.
Lemma committed_unique {A} (fn : MW A) w : (forall d, preserves (fun w => w_db w = d) fn) ->
  (forall w1 a w2, addresses_unique (view HTX w1) -> fn w1 = (Ok a, w2) -> addresses_unique (view HTX w2)) ->
  addresses_unique (w_db w) -> addresses_unique (w_db (Transaction fn w).2).
Proof.
  intros Hk Hfn Hw. destruct (Transaction fn w) as [[a|e] w'] eqn:Er; simpl.
  - destruct (Transaction_inv fn w a w' Hk Er) as (w1 & w2 & Hv & _ & _ & Hrun & ->). apply (Hfn w1 a); [by rewrite Hv|done].
  - pose proof (Transaction_atomic fn w Hk) as Ha. rewrite Er in Ha. by rewrite Ha.
Qed.

(** Where no two users, deleted ones among them, share an address, this stays so when a
    user is inserted or an address is bound to one, whichever calls fail. *)
Theorem addresses_stay_unique w : addresses_unique (w_db w) ->
  (forall rw locks hashed affCode defaultSetting user,
     addresses_unique (w_db (Transaction (InsertWithTx ToLower LOWER HTX rw locks hashed affCode defaultSetting user) w).2)) /\
  (forall locks user email, addresses_unique (w_db (BindEmailToUser ToLower LOWER locks user email w).2)).
Proof.
  intros Hw. split.
  - intros. apply committed_unique; [intros; apply Insert_keeps|intros; by eapply InsertWithTx_unique|done].
  - intros. unfold BindEmailToUser. rewrite run_bind.
    match goal with |- context [Transaction ?fn w] => assert (Ht : addresses_unique (w_db (Transaction fn w).2)) end.
    { apply committed_unique; [|intros; by eapply bound_unique|done]. intros d. apply lock_keeps.
      apply preserves_bind; [apply ensure_keeps|intros; apply UpdateWithTx_keeps]. }
    destruct (Transaction _ w) as [[u|e] w1]; [|done]. simpl in Ht |- *.
    assert (Hc : preserves (fun w => w_db w = w_db w1) (updateUserCache u ;; mret u)).
    { apply preserves_bind; [apply updateUserCache_keeps|intros; apply preserves_ret]. }
    by rewrite (Hc w1 eq_refl).
Qed.
End addresses.

(** ** The transfer of rewards *)

Definition transferred (quota : Z) (u : User) : User := u <| u_AffQuota := u_AffQuota u - quota |> <| u_Quota := u_Quota u + quota |>.
Definition transfer_body (id quota : Z) : MW unit :=
  user ← db_first HTX (fun d => live_user d id);
  guard_err (u_AffQuota user <? quota) (ErrNew "邀请额度不足！") ;;
  save_user HTX (transferred quota user).
Lemma transfer_body_keeps id quota d : preserves (fun w => w_db w = d) (transfer_body id quota).
Proof.
  apply preserves_bind; [apply preserves_db_first; by intros|]. intros u.
  apply preserves_bind; [apply preserves_guard|]. intros _. apply preserves_db_exec; by intros.
Qed.

(** C36 The transfer fails and changes no table, or the user had that many rewards, which moved
    to the wallet; no other user changes.  Without failing calls it fails for
    too small an amount, a missing user or too few rewards only. *)
Theorem transfer_moves_rewards id quota w : (forall i u, d_users (w_db w) !! i = Some u -> u_Id u = i) ->
  let '(r, w') := TransferAffQuotaToQuota id quota w in
  let small := F64.ltb (F64.of_Z quota) (QuotaPerUnit (w_cfg w)) in
  match r with
  | Err _ => w_db w' = w_db w
  | Ok _ => small = false /\ exists u, live_user (w_db w) id = Some u /\ quota <= u_AffQuota u /\
      live_user (w_db w') id = Some (transferred quota u) /\
      (u_Quota (transferred quota u) + u_AffQuota (transferred quota u) = u_Quota u + u_AffQuota u) /\
      forall i, i <> id -> d_users (w_db w') !! i = d_users (w_db w) !! i
  end /\
  (w_faults w = [] -> small = false -> forall u, live_user (w_db w) id = Some u -> quota <= u_AffQuota u -> r = Ok tt).
Proof.
  intros Hid. unfold TransferAffQuotaToQuota. rewrite run_bind. cbn [gets].
  destruct (F64.ltb _ _) eqn:Es; [by cbn|]. change (Transaction _) with (Transaction (transfer_body id quota)).
  pose proof (Transaction_atomic (transfer_body id quota) w (transfer_body_keeps id quota)) as Ht.
  destruct (Transaction (transfer_body id quota) w) as [[[]|e] w'] eqn:Er; (split; [|]); try done.
  - split; [done|]. destruct Ht as (w1 & w2 & Hw1 & Hb & Hdb). unfold transfer_body in Hb.
    inv_bind Hb as u w3 E1. apply db_first_inv in E1 as [Hu [fs1 ->]]. inv_bind Hb as x w4 E2. apply guard_err_inv in E2 as [Hq ->].
    apply Z.ltb_ge in Hq. rewrite Hw1 in Hu. cbn in Hu. exists u. pose proof Hu as [Hl Hd]%live_user_spec.
    unfold save_user, db_exec in Hb. rewrite run_bind in Hb.
    destruct (ext_call_cases (w1 <| w_faults := fs1 |>)) as (fs2 & Hw5 & Hr5). destruct (ext_call _) as [r5 w5]; simpl in *; subst w5.
    destruct Hr5 as [->|[msg ->]]; [|done]. injection Hb as <-. cbn in Hdb. rewrite Hw1 in Hdb. cbn in Hdb. unfold apply_log in Hdb. cbn in Hdb.
    rewrite (Hid _ _ Hl) in Hdb. split_and!; try done.
    + rewrite Hdb. apply live_user_spec. simpl. rewrite lookup_alter_eq, Hl. by destruct u.
    + destruct u. simpl. lia.
    + intros i Hi. rewrite Hdb. simpl. by rewrite lookup_alter_ne.
  - intros Hf _ u Hu Hq. exfalso. unfold Transaction, transfer_body in Er. rewrite ext_call_ok in Er by done.
    rewrite run_bind in Er. unfold db_first, db_find in Er. rewrite !run_bind, ext_call_ok in Er by done. cbn in Er. rewrite Hu in Er. cbn in Er.
    rewrite run_bind in Er. unfold guard_err in Er. rewrite (proj2 (Z.ltb_ge _ _) Hq) in Er. cbn in Er. 
    unfold save_user, db_exec in Er. rewrite run_bind, ext_call_ok in Er by done. cbn in Er. by rewrite ext_call_ok in Er.
Qed.

(** ** A disabled user stays out *)

Definition locked_out (id : Z) (w : World) : Prop :=
  (forall u, live_user (w_db w) id = Some u -> u_Status u <> UserStatusEnabled) /\
  (RedisEnabled (w_cfg w) = true -> forall b, w_redis_users w !! id = Some b -> ub_Status b <> UserStatusEnabled).
Lemma locked_faults id w fs : locked_out id w -> locked_out id (w <| w_faults := fs |>).
Proof. done. Qed.
Lemma preserves_faults {A} (I : World -> Prop) (m : MW A) : (forall w fs, I w -> I (w <| w_faults := fs |>)) ->
  (forall w, exists fs, (m w).2 = w <| w_faults := fs |>) -> preserves I m.
Proof. intros Hf Hm w Hw. destruct (Hm w) as [fs ->]. by apply Hf. Qed.
Lemma GetTokenByKey_locked id key b : preserves (locked_out id) (GetTokenByKey key b).
Proof.
  unfold GetTokenByKey. apply preserves_bind; [apply preserves_gets|]. intros redis. apply preserves_bind.
  - destruct (negb b && redis); [|apply preserves_ret]. apply preserves_attempt. change (preserves (locked_out id) (cacheGetTokenByKey key)).
    unfold cacheGetTokenByKey. repeat first [apply preserves_gets | apply preserves_bind; [|intros] | apply (preserves_ext_call (locked_out id)); done
      | apply preserves_guard | apply preserves_fail | apply preserves_ret | case_match | apply preserves_of_result | unfold RedisHGetObj].
  - intros [t|e]; [apply preserves_ret|]. apply preserves_bind; [by apply preserves_db_first|]. intros t.
    apply preserves_bind; [|intros; apply preserves_ret]. unfold go_if_redis. 
    repeat first [apply preserves_gets | apply preserves_bind; [|intros] | apply preserves_ret | case_match | apply preserves_modify; by intros].
Qed.
Lemma GetUserCache_locked id w ub w' : locked_out id w -> GetUserCache id w = (Ok ub, w') -> ub_Status ub <> UserStatusEnabled.
Proof.
  intros [Hdb Hre]. unfold GetUserCache. rewrite run_bind, run_attempt. unfold cacheGetUserBase. rewrite run_bind. cbn [gets].
  assert (Hmiss : forall w1 e, (forall u, live_user (w_db w1) id = Some u -> u_Status u <> UserStatusEnabled) ->
    (match (Err e : result error UserBase) with
     | Ok b => mret b
     | Err _ => u ← GetUserById id; redis ← gets (fun w => RedisEnabled (w_cfg w));
                (if redis : bool then go_job (JobPopulateUserCache u) else mret tt) ;; mret (ToBaseUser u)
     end) w1 = (Ok ub, w') -> ub_Status ub <> UserStatusEnabled).
  { intros w1 e Hw1 Hrun. inv_bind Hrun as u w2 E1. unfold GetUserById in E1. destruct (id =? 0); [done|].
    apply db_first_inv in E1 as [Hu _]. cbn in Hu. inv_bind Hrun as redis w3 E2. inv_bind Hrun as x w4 E3.
    apply run_ret_inv in Hrun as [-> _]. by apply Hw1. }
  destruct (RedisEnabled (w_cfg w)) eqn:Er; [|exact (Hmiss w (ErrNew "redis is not enabled") Hdb)].
  unfold RedisHGetObj. rewrite run_bind. destruct (ext_call_cases w) as (fs & Hw1 & Hr).
  destruct (ext_call w) as [r1 w1]; simpl in Hw1, Hr; subst w1.
  pose proof (Hmiss (w <| w_faults := fs |>)) as Hmiss1. destruct Hr as [->|[msg ->]]; [|exact (Hmiss1 (ErrDB msg) Hdb)].
  rewrite run_bind. cbn [gets]. change (w_redis_users (w <| w_faults := fs |>)) with (w_redis_users w).
  destruct (w_redis_users w !! id) as [b|] eqn:Eb; [|exact (Hmiss1 ErrRedisMiss Hdb)].
  intros [= <- _]. by apply Hre.
Qed.
Lemma token_keys_id t keys : token_keys t keys !! "id" = Some (AInt (t_UserId t)).
Proof. unfold token_keys. repeat case_match; simplify_map_eq; done. Qed.
Lemma locked_out_refused gs rs range r a a' id : locked_out id (au_world a) ->
  TokenAuth gs rs range r a = (Ok Proceed, a') -> au_keys a' !! "id" <> Some (AInt id).
Proof.
  intros Hl Ha. destruct (credentials r) as [key parts] eqn:Ec.
  destruct (passed_request gs rs range r a a' key parts Ec Ha) as (t & w1 & ub & w2 & keys & _ & Ht & _ & Hu & Hs & _ & g & _ & Hk).
  assert (Hid : au_keys a' !! "id" = Some (AInt (t_UserId t))).
  { destruct (pins parts) as [channel|]; [destruct Hk as [_ ->]; rewrite lookup_insert_ne by done|rewrite Hk]; apply token_keys_id. }
  rewrite Hid. intros [= Heq]. rewrite Heq in Hu.
  pose proof (GetTokenByKey_locked id key false (au_world a) Hl) as Hl1. rewrite Ht in Hl1. by apply (GetUserCache_locked _ _ _ _ Hl1 Hu).
Qed.

(** What forgetting a user's caches keeps. *)
Definition forgotten (id : Z) (d : DB) (c : Config) (w : World) : Prop :=
  w_db w = d /\ w_cfg w = c /\ (RedisEnabled c = true -> w_redis_users w !! id = None).
Lemma InvalidateUserTokensCache_forgotten id d c : preserves (forgotten id d c) (InvalidateUserTokensCache id).
Proof.
  assert (Hcall : preserves (forgotten id d c) ext_call) by (apply preserves_ext_call; by intros).
  assert (Hkeys : forall keys e, preserves (forgotten id d c) (invalidate_keys keys e)).
  { induction keys as [|k keys IH]; intros e; [apply preserves_ret|]. cbn [invalidate_keys]. case_decide; [apply IH|].
    apply preserves_bind; [|intros; apply IH]. apply preserves_attempt. unfold cacheDeleteToken, RedisDelKey.
    repeat first [apply preserves_gets | apply Hcall | apply preserves_bind; [|intros] | apply preserves_modify; by intros]. }
  unfold InvalidateUserTokensCache, invalidateTokensCache.
  repeat first [apply preserves_gets | apply Hkeys | apply preserves_guard | apply preserves_ret | apply preserves_fail
    | apply preserves_db_find; by intros | apply preserves_bind; [|intros] | case_match].
Qed.
Lemma caches_forgotten id w : w_faults w = [] ->
  exists w', forget_user id w = (Ok tt, w') /\ forgotten id (w_db w) (w_cfg w) w'.
Proof.
  intros Hf. unfold forget_user. rewrite run_bind. unfold ignore_err. cbn [fst snd]. eexists. split; [reflexivity|].
  apply InvalidateUserTokensCache_forgotten. unfold InvalidateUserCache, invalidateUserCache, if_redis. rewrite run_bind. cbn [gets].
  destruct (RedisEnabled (w_cfg w)) eqn:Er; [|split_and!; simpl; congruence].
  unfold RedisDelKey. rewrite run_bind, ext_call_ok by done. split_and!; simpl; try done. intros _. apply lookup_delete_eq.
Qed.

(** What a live, manageable user's record becomes. *)
Definition disabled (u : User) : User := u <| u_Status := UserStatusDisabled |>.
Lemma updates_disabled u : updates (disabled u) u = disabled u.
Proof.
  assert (Hs : forall x, nz_string x x = x) by (intros x; unfold nz_string; by case_decide).
  assert (Hi : forall x, nz_int x x = x) by (intros x; unfold nz_int; by destruct (x =? 0)).
  destruct u. unfold updates. simpl. rewrite !Hs, !Hi. by destruct u_AccessToken.
Qed.
Lemma conflict_disabled u d : user_conflict (disabled u) d = user_conflict u d.
Proof. by destruct u. Qed.
Lemma Update_disabled u w : w_faults w = [] -> live_user (w_db w) (u_Id u) = Some u -> user_conflict u (w_db w) = false ->
  exists m, Update (disabled u) w = (Ok (disabled u), w <| w_db := update_user (u_Id u) (fun _ => disabled u) (w_db w) |> <| w_redis_users := m |>).
Proof.
  intros Hf Hu Hc. pose proof (Update_ok (disabled u) w Hf) as H. change (u_Id (disabled u)) with (u_Id u) in H.
  rewrite Hu, updates_disabled, conflict_disabled, Hc in H. destruct H as [m ->]. exists m.
  apply live_user_spec in Hu as [Hu _]. rewrite !(update_user_row _ _ _ _ Hu). by rewrite updates_disabled.
Qed.

Lemma run_on_w `{SyncedEnforcer E} {A} (m : MW A) w (z : Az E) : on_w m (mkAW w z) = (let '(r, w') := m w in (r, mkAW w' z)).
Proof. unfold on_w. simpl. by destruct (m w). Qed.
Lemma finish_disabled `{SyncedEnforcer E} u w (z : Az E) : w_faults w = [] -> live_user (w_db w) (u_Id u) = Some u ->
  user_conflict u (w_db w) = false ->
  exists w', finish_manage "disable" (disabled u) (mkAW w z) = (Ok (Managed (u_Role u) UserStatusDisabled), mkAW w' z) /\
    w_db w' = update_user (u_Id u) (fun _ => disabled u) (w_db w) /\ locked_out (u_Id u) w'.
Proof.
  intros Hf Hu Hc. destruct (Update_disabled u w Hf Hu Hc) as [m Hup].
  set (w1 := w <| w_db := _ |> <| w_redis_users := m |>) in Hup.
  destruct (caches_forgotten (u_Id u) w1 Hf) as (w' & Hw' & Hdb & Hcfg & Hred). exists w'.
  unfold finish_manage, store_user. rewrite decide_False, run_bind, run_attempt, run_on_w, Hup by done.
  cbn [fst snd]. rewrite run_bind, decide_True by (by left). change (u_Id (disabled u)) with (u_Id u). rewrite run_on_w, Hw'.
  split; [by destruct u|]. split; [by rewrite Hdb|]. split; [|].
  - intros v Hv. rewrite Hdb in Hv. unfold w1, live_user in Hv. simpl in Hv. rewrite lookup_alter_eq in Hv.
    unfold live_user in Hu. destruct (d_users (w_db w) !! u_Id u); [|done]. simpl in Hv.
    destruct (u_DeletedAt u); [done|]. by injection Hv as <-.
  - intros Hr b Hb. rewrite Hcfg in Hr. by rewrite (Hred Hr) in Hb.
Qed.

(** ** Examples of accounts *)

#[local] Existing Instance sample_json.

Definition root_user : User := sample_user <| u_Username := "root" |> <| u_Role := RoleRootUser |> <| u_AffCode := "root" |>.
Definition member : User :=
  sample_user <| u_Id := 2 |> <| u_Username := "bob" |> <| u_AffCode := "bob" |> <| u_AffQuota := 800000 |>.
Definition member_token : Token := sample_token <| t_UserId := 2 |>.
Definition accounts_db : DB := sample_db <| d_users := {[1 := root_user; 2 := member]} |>
  <| d_tokens := {[7 := member_token]} |>.
Definition accounts_world (redis : bool) (faults : list (option string)) : World :=
  sample_world <| w_db := accounts_db |> <| w_faults := faults |>
    <| w_cfg := mkConfig redis false (F64.of_Z 500000) (fun s => "hmac:" +:+ s) 28800 false false |>.
Definition accounts (redis : bool) (faults : list (option string)) : AW (E := list policy) :=
  mkAW (accounts_world redis faults) sample_az.
Definition status_of (id : Z) (w : World) : option Z := u_Status <$> live_user (w_db w) id.
Lemma accounts_keys i u : d_users accounts_db !! i = Some u -> u_Id u = i /\ user_conflict u accounts_db = false.
Proof.
  change (d_users accounts_db) with (<[1 := root_user]> {[2 := member]} : gmap Z User).
  intros [[<- <-]|[_ [<- <-]%lookup_singleton_Some]]%lookup_insert_Some; vm_compute; by split.
Qed.

Lemma transfer_moves_rewards_witness :
  let w' := (TransferAffQuotaToQuota 2 600000 (accounts_world false [])).2 in
  (TransferAffQuotaToQuota 2 600000 (accounts_world false [])).1 = Ok tt /\
  live_user (w_db w') 2 = Some (transferred 600000 member).
Proof.
  pose proof (transfer_moves_rewards 2 600000 (accounts_world false []) (fun i u Hu => proj1 (accounts_keys i u Hu))) as H.
  destruct (TransferAffQuotaToQuota 2 600000 (accounts_world false [])) as [r w']. cbv zeta in H. destruct H as [H1 H2].
  assert (Hr : r = Ok tt).
  { apply (H2 eq_refl ltac:(vm_compute; reflexivity) member); [vm_compute; reflexivity|apply Z.leb_le; vm_compute; reflexivity]. }
  split; [exact Hr|]. subst r. destruct H1 as [_ (u & Hu & _ & Hl & _)].
  assert (Hm : Some u = Some member) by (rewrite <- Hu; vm_compute; reflexivity). injection Hm as ->. exact Hl.
Defined.


(** A read that fails leaves a record with role 0: an administrator disables the root. *)
Example failed_read_disables_root :
  let a := ManageUser 10 (mkManage 1 "disable" 0 "") (accounts false [Some "timeout"]) in
  a.1 = Ok (Managed RoleRootUser UserStatusDisabled) /\ status_of 1 (aw_world a.2) = Some UserStatusDisabled /\
  (ManageUser 10 (mkManage 1 "disable" 0 "") (accounts false [])).1 = Ok (Refused "user.no_permission_higher_level").
Proof. by vm_compute. Qed.
(** Without an id the request is about the first user of the table. *)
Example no_id_is_the_first_user :
  let a := ManageUser 100 (mkManage 0 "add_quota" 500 "add") (accounts false []) in
  a.1 = Ok Done /\ u_Quota <$> d_users (w_db (aw_world a.2)) !! 1 = Some 100500.
Proof. by vm_compute. Qed.
(** The user is deleted, and the answer is that there is no such user. *)
Example deletion_answers_failure :
  let a := ManageUser 100 (mkManage 2 "delete" 0 "") (accounts false []) in
  a.1 = Ok (Failed ErrRecordNotFound) /\ status_of 2 (aw_world a.2) = None.
Proof. by vm_compute. Qed.
(** [inviteUser] with a charge of the inviter between its two statements: the charge is
    gone. *)
Definition rewards : Rewards := mkRewards 1000 200 300 true.
Example invitation_undoes_a_charge :
  let w := (user ← GetUserById 2; DecreaseUserQuota 2 700 true ;; save_user HDB (invited rewards user)) (accounts_world false []) in
  w.1 = Ok tt /\ (fun u => (u_Quota u, u_AffQuota u)) <$> live_user (w_db w.2) 2 = Some (100000, 800300).
Proof. by vm_compute. Qed.
(** A reader that missed the cache before the user was disabled fills it afterwards: the
    user's token passes again. *)
Example late_fill_lets_in :
  let read := (GetUserCache 2 (accounts_world true [])).2 in
  let a := (ManageUser 100 (mkManage 2 "disable" 0 "") (mkAW read sample_az)).2 in
  let late := (run_job (JobPopulateUserCache member) (aw_world a)).2 in
  let pass (w : World) := (TokenAuth open_groups group_ratios in_map_order (bearer "k7") (auth_state w)).1 in
  JobPopulateUserCache member ∈ w_jobs read /\ status_of 2 late = Some UserStatusDisabled /\
  pass (aw_world a) <> Ok Proceed /\ pass late = Ok Proceed.
Proof. split; [vm_compute; by left|]. by vm_compute. Qed.
(** A registration pays the new user, the invitee and the inviter. *)
Example registration_rewards :
  let new := member <| u_Id := 0 |> <| u_Username := "carol" |> <| u_Email := " Carol@X.io" |> in
  let w := Insert (fun s => s) (fun s => s) (fun _ _ => None) rewards false (Ok tt) "caro" "{}" 2 new (accounts_world false []) in
  (u_Email <$> match w.1 with Ok u => Some u | Err _ => None end) = Some "Carol@X.io" /\
  u_Quota <$> (by_username "carol" (w_db w.2)) = Some 1200 /\ u_AffQuota <$> live_user (w_db w.2) 2 = Some 800300.
Proof. by vm_compute. Qed.

(** A lowering that satisfies the laws of [addresses_stay_unique]: it refuses addresses with
    unusual bytes. *)
Definition plain_lower (s : string) : string := if all_bytes inner s then s else "".
Lemma plain_lower_normalized s : NormalizeEmail plain_lower (NormalizeEmail plain_lower s) = NormalizeEmail plain_lower s.
Proof.
  assert (Hp : forall x, all_bytes inner (plain_lower x) = true) by (intros x; unfold plain_lower; by destruct (all_bytes inner x) eqn:Ex).
  unfold NormalizeEmail. rewrite (TrimSpace_inner _ (Hp _)). unfold plain_lower at 1. by rewrite Hp.
Qed.
Example bound_address_is_taken :
  let bind (user : User) (w : World) := BindEmailToUser plain_lower (fun s => s) true user " new@x.io " w in
  let w := (bind member (accounts_world false [])).2 in
  (u_Email <$> live_user (w_db w) 2) = Some "new@x.io" /\ (bind root_user w).1 = Err ErrEmailAlreadyTaken /\
  (addresses_unique (fun s => s) (w_db w) -> addresses_unique (fun s => s) (w_db (bind root_user w).2)).
Proof.
  split; [by vm_compute|]. split; [by vm_compute|]. intros Hu.
  destruct (addresses_stay_unique plain_lower (fun s => s) plain_lower_normalized (fun _ => eq_refl) _ Hu) as [_ Hb]. apply Hb.
Qed.
